(* ===== verification/_CoqProject ===== *)
-Q . S2P
Prelude.v
StateM.v
Segments.v
KAlloc.v
KString.v
Fd.v
Pty.v
Tty.v
Ramdisk.v
Ext2.v
Ext2Alloc.v
Ext2Layer.v
Ext2Files.v
Ext2Mount.v
Ext2Props.v
Ext2Dirs.v
Ext2Tree.v
Ext2TreeCheck.v
Ext2Names.v
Ext2Paths.v
Vfs.v
VfsRam.v
VfsProps.v
VfsDisk.v
Journal.v
Clipboard.v
Settings.v
LibcStdlib.v
Net.v
NetFrames.v
NetTcp.v
NetInv.v
NetLive.v
NetText.v
NetDefects.v
Elf.v
ProcState.v
Process.v
ProcSched.v
ProcSteps.v
ProcMem.v
ProcSbrk.v
ProcMachine.v
ProcFair.v
ProcHeaps.v
ProcProps.v
ProcFiles.v
UMalloc.v
UMallocKernel.v
Stdio.v
StdioKernel.v
