(* ===== verification/Prelude.v ===== *)
(** * A verification library for the VibeOS kernel and parts of its C library

    VibeOS is a small operating system in C for x86_64 (src/kernel, with a second
    port in src/kernel/arch/arm64) and user programs (src/user).  This library
    holds executable models of its core subsystems, translated function by
    function from the x86_64 build, and the theorems that make them correct.

    ** The system and the files

    - Memory.  src/kernel/src/alloc.c is the kernel heap (kmalloc, kfree behind a
      spin lock) with two auxiliary heaps: file KAlloc.  src/kernel/src/string.c:
      KString.
    - Devices for text.  src/kernel/src/fd.c and syscall.c dispatch descriptors:
      Fd.  tty.c is the terminal (line discipline, escape sequences, screen): Tty.
      pty.c has the pseudo-terminals: Pty.  Both supply operation tables to Fd.
    - Storage.  ramdisk.c is the block layer: Ramdisk, with the interface [Disk]
      (a typeclass) against which the file system ext2_fs.c is verified.  Ext2
      holds the model; Ext2Alloc bitmaps and encodings; Ext2Layer the simulation by
      an abstract state of blocks; Ext2Files the contents of files; Ext2Mount
      remounting; Ext2Props the properties of contents and the defects found.
      Ext2Dirs reads the blocks of a directory as a finite map of names; Ext2Tree
      has the tree of directories, the walk of a path in it and the invariant
      [fs_ok]; Ext2TreeCheck decides that invariant on a concrete disk; Ext2Names
      adds and removes names; Ext2Paths has the theorems about paths.
    - Files by name.  vfs.c joins the embedded files, the user files in memory and
      the mounted ext2 file system: Vfs holds the model, VfsRam the table of user
      files as a map, VfsProps permissions and listings, VfsDisk the operations on
      a mounted disk, on top of the theorems of the ext2 files.
    - Network.  net.c with its TCP and HTTP clients: Net holds the model,
      NetFrames checksums and frames, NetTcp the receive side of TCP, NetInv the
      invariant, NetLive the wait loops, NetText text formats, NetDefects
      executions on hostile frames.
    - Processes.  process.c, elf.c and the page tables of paging.c: Elf reads
      images; ProcState is the state and the interface [PageHeap] (a typeclass) to
      the allocators; Process holds the operations; ProcSched the parts of the
      invariant and how single updates keep it; ProcSteps the scheduler, traps and
      kills; ProcMem the creation of processes and threads; ProcSbrk the heap of a
      process; ProcMachine the transition system; ProcFair the fairness argument;
      ProcHeaps shows that the allocators of KAlloc implement [PageHeap]; ProcProps
      has the theorems and a concrete system on which they are applied.  ProcFiles
      has the descriptors and file handles of all processes, which a child or thread
      may inherit, and the system calls on files, on top of Vfs.
    - Services.  journal.c: Journal.  clipboard.c: Clipboard.  settings.c: Settings.
    - User space.  src/user/libc/stdlib.c: LibcStdlib.  src/user/umalloc.c is the
      heap of user programs: UMalloc, verified against the interface
      [SbrkService] (a typeclass) of what SYS_SBRK promises; UMallocKernel shows
      that process_sbrk of the process model implements it.
      src/user/libc/stdio.c over sys.c: Stdio has the streams, verified against the
      interface [FileService] (a typeclass) of what the file system calls promise;
      StdioKernel shows that the calls of ProcFiles implement it for the files of a
      mounted disk.  Segments has the lemmas on ranges of bytes they share.

    Each file has one Module of its name.  Definitions carry the names of the C
    functions; a loop or a branch of a long function has a name of its own.  This
    file has machine integers, checked arrays, byte encodings and the tactics and
    hints shared by all; StateM has the state monad with undefined behaviour and
    its weakest preconditions ([wp]).

    ** How the code is represented

    - Integers are [Z] in the range of their C type; unsigned wrap-around is
      written out ([u32], [u64]), signed overflow is undefined.
    - Undefined behaviour (an access outside an array, a NULL dereference, the
      freeing of what is not live) is [None]; a theorem that a call returns a
      result therefore also says that it is defined.
    - State is explicit: a record per component with the C globals as fields,
      passed through functions or through the monad [ST].  Pointers into static
      tables are indices, so that aliases see each other's updates.
    - Errors the code reports are values, as in C.
    - What the sources do not contain (devices, the peer on the network, the
      clock, other programs' choices) is an argument: an oracle for kmalloc in
      Ext2, a sequence of environment rounds in Net, events in ProcMachine,
      the answers of the file system to a spawn.

    ** Loops and fuel

    Loops are structural recursions on what they traverse where they can be.
    The others take fuel that the definitions compute and that the theorems show
    to be enough: heap walks take one unit per header in memory plus one
    ([walk_fuel]); the halving of an sbrk batch takes 64 units, more than the bits
    of a size; the growth loop takes one unit per page, since every round maps at
    least one; the outer loop of umalloc takes rounds of searching and growing, of
    which two are enough; the entries of a directory block take one unit per byte
    of the block plus one; environment rounds of the network are consumed by waiting loops and
    the theorems give how many suffice; the scan of a name or a path is bounded by
    the buffer it reads; the loops of a stream take two units per byte requested,
    since every other round moves a byte at least.

    ** What the theorems show

    - Allocator: kmalloc is first fit with splitting and kfree is merging on a
      tiling of the heap (refinement), live blocks never overlap, every history of
      calls keeps the tiling, allocation and free cancel out.
    - Terminals: keyboard input refines a line discipline, screen output never
      leaves the screen, plain output refines a log; pseudo-terminal rings are
      FIFO streams under any interleaving.
    - File system: what is written is read back, also after a remount; a write
      changes only its range; the counters of free blocks and inodes agree with
      the bitmaps; formatting gives a well-formed file system; encodings round-trip.
      A path lookup is the walk of the path in the tree of directories; creating
      and removing a file change exactly one name of that tree and no other file,
      also when the directory grows; a file created by path is found and read
      after a restart.
    - Files by name: on a mounted disk what is written to a path is read back and
      other paths keep their contents; creating and removing need the write bit on
      the parent directory, are never refused to root or to a caller with all three
      bits on it, and change nothing when refused; changing mode or owner obeys
      ownership; without a disk the user files are a finite map; listings miss no
      name while there is room and repeat only names the disk repeats.
    - Network: received bytes are a prefix of the peer's stream for any order,
      loss and repetition of segments; frames carry verifying checksums; every
      operation keeps the state well formed for arbitrary frames; opening a
      connection succeeds or gives up in time; text formats are exact.
    - Processes: from boot on, on any number of CPUs, no two CPUs run one process,
      pids are unique, memory has one owner, threads run in live address spaces
      and no wake-up is lost; every orderly event (see the assumptions) is defined;
      round robin starves nobody; exit and wait deliver the status in either order;
      sbrk grows the heap with fresh zeroed private pages or is rolled back, page
      tables included.
    - Services and C library: the journal keeps the last 256 records, settings
      round-trip, the environment refines a map, sorting sorts, number parsing is
      exact where it does not overflow.  On the modelled kernel, umalloc, ufree and
      urealloc implement independent byte arrays: this composes the user heap, the
      system call, the process table and the kernel heap.  A buffered stream is a
      file with a position; from fopen to fclose the bytes a program writes to a
      stream reach the blocks of the disk: this composes the streams, the file
      system calls, the virtual file system, ext2 and the block layer.
    - File system calls: over all processes, descriptors and handles stay paired and
      none leaks, as long as no descriptor on a file is inherited.
    - Behaviour the code does not mean is stated in general where it can be:
      killing a process that another CPU runs revives its emptied slot
      (kill_on_other_cpu_revives_slot), an inherited descriptor dangles once its
      owner closes it (inherited_descriptor_dangles), a write beyond the capacity of
      a user file is undefined (vfs_write_past_capacity_undefined), the parent's
      permission check asks for read instead of execute
      (vfs_parent_read_for_execute), the disk's entry wins over one of the same name
      (vfs_readdir_disk_wins).  Lemmas whose names end in defects run the code on
      concrete inputs.

    ** Assumptions worth knowing

    The theorems about all reachable states are about orderly events
    (ProcMachine.enabled).  Ending a process is proved safe when nothing of it runs
    on another CPU (with one CPU this always holds; ProcProps shows what happens
    otherwise), and a SYS_PTY_INTERRUPT must not end its own caller, which the code
    does not check.  System calls that are not about processes may change the
    caller's registers, its descriptors and the fields that carry no scheduling
    state, arbitrarily within what ProcMachine.answer_ok allows.  Loading
    is proved safe for images whose segments lie inside the file and the image
    area (Process.check_segments does not reject all others).  Process identifiers
    are assumed not to have wrapped around.  The file system theorems assume that
    kmalloc succeeds; its failure paths are in the model.

    ** Not modelled

    Drivers and boot code (the devices are not in the sources), drawing and the
    window manager, TLS (an external library), FPU state, diagnostics on the serial
    port, the arm64 port, the graphical applications, decoders, and vendored code.
    Of the C library, floating-point parsing and formatted input and output are
    missing. *)

From Stdlib Require Import ZArith Lia Bool ZifyBool.
From stdpp Require Import base numbers option list list_numbers gmap.

Open Scope Z_scope.

(** ** Machine integers

    Every C integer is a [Z] kept inside the range of its type.  Unsigned
    arithmetic wraps; signed overflow is undefined in C, so the signed
    operations are partial. *)

Definition u8 (x : Z) : Z := x mod 2 ^ 8.
Definition u16 (x : Z) : Z := x mod 2 ^ 16.
Definition u32 (x : Z) : Z := x mod 2 ^ 32.
Definition u64 (x : Z) : Z := x mod 2 ^ 64.

Definition INT_MIN : Z := - 2 ^ 31.
Definition INT_MAX : Z := 2 ^ 31 - 1.

(** Result of a signed [int] operation: undefined outside the type's range. *)
Definition i32 (x : Z) : option Z :=
  if (INT_MIN <=? x) && (x <=? INT_MAX) then Some x else None.

(** Value of a byte read through a signed [char]. *)
Definition schar (b : Z) : Z := if b <? 128 then b else b - 256.

(** Truth value of a C [int]. *)
Definition truth (x : Z) : bool := negb (x =? 0).

Definition byte_ok (b : Z) : Prop := 0 <= b < 256.

(** ** Checked arrays

    A C array is a list; an access outside its bounds is undefined and is the
    value [None]. *)

Definition aget {A} (l : list A) (i : Z) : option A :=
  if 0 <=? i then l !! Z.to_nat i else None.

Definition aset {A} (l : list A) (i : Z) (x : A) : option (list A) :=
  if (0 <=? i) && (i <? Z.of_nat (length l))
  then Some (<[Z.to_nat i := x]> l) else None.

(** [len] bytes starting at [off]. *)
Definition slice {A} (l : list A) (off len : Z) : option (list A) :=
  if (0 <=? off) && (0 <=? len) && (off + len <=? Z.of_nat (length l))
  then Some (take (Z.to_nat len) (drop (Z.to_nat off) l)) else None.

(** Overwrite the bytes starting at [off] with [src]. *)
Definition splice {A} (l : list A) (off : Z) (src : list A) : option (list A) :=
  if (0 <=? off) && (off + Z.of_nat (length src) <=? Z.of_nat (length l))
  then Some (take (Z.to_nat off) l ++ src ++ drop (Z.to_nat off + length src) l)
  else None.

(** ** Loops *)

(** [for (i in xs) st = body i st], stopping at the first undefined step. *)
Fixpoint foldM {I S} (body : I -> S -> option S) (xs : list I) (st : S) : option S :=
  match xs with
  | [] => Some st
  | i :: xs' => st' ← body i st; foldM body xs' st'
  end.

(** A loop that can leave early: [inl] continues, [inr] leaves with a result.
    Running out of fuel is [None]. *)
Fixpoint loop {S R} (fuel : nat) (step : S -> option (S + R)) (st : S) : option R :=
  match fuel with
  | O => None
  | Datatypes.S fuel' =>
      r ← step st;
      match r with
      | inl st' => loop fuel' step st'
      | inr out => Some out
      end
  end.

(** ** Little-endian encodings *)

Fixpoint le_enc (n : nat) (v : Z) : list Z :=
  match n with
  | O => []
  | Datatypes.S n' => v mod 256 :: le_enc n' (v / 256)
  end.

Fixpoint le_dec (l : list Z) : Z :=
  match l with
  | [] => 0
  | b :: l' => b + 256 * le_dec l'
  end.

(** ** Automation *)

(** Facts the components' proofs close automatically: bounds of wrapped
    integers and lengths of updated arrays. *)
Create HintDb vibe.
Create Rewrite HintDb vibelen.

#[export] Hint Rewrite @length_app @length_take @length_drop @length_insert
  @length_replicate @length_fmap @length_seqZ : vibelen.

(** Normalise lengths, then linear arithmetic. *)
Ltac len := autorewrite with vibelen in *; simpl in *; try lia.

(** Linear arithmetic with division and remainder by constants. *)
Ltac dlia := Z.to_euclidean_division_equations; lia.

(** Turn the boolean tests of the code into propositions. *)
Ltac bools :=
  repeat match goal with
  | H : (_ && _) = true |- _ => apply andb_true_iff in H; destruct H
  | H : (_ || _) = false |- _ => apply orb_false_iff in H; destruct H
  | H : negb _ = true |- _ => apply negb_true_iff in H
  | H : negb _ = false |- _ => apply negb_false_iff in H
  | H : (_ <? _) = true |- _ => apply Z.ltb_lt in H
  | H : (_ <? _) = false |- _ => apply Z.ltb_ge in H
  | H : (_ <=? _) = true |- _ => apply Z.leb_le in H
  | H : (_ <=? _) = false |- _ => apply Z.leb_gt in H
  | H : (_ =? _) = true |- _ => apply Z.eqb_eq in H
  | H : (_ =? _) = false |- _ => apply Z.eqb_neq in H
  end.

(** Case analysis on the first test of the goal. *)
Ltac case_if :=
  match goal with
  | |- context [if ?b then _ else _] => destruct b eqn:?; bools
  end.

(** ** Lemmas: machine integers *)

Lemma u8_range x : 0 <= u8 x < 256.
Proof. apply Z.mod_pos_bound. lia. Qed.

Lemma u16_range x : 0 <= u16 x < 2 ^ 16.
Proof. apply Z.mod_pos_bound. lia. Qed.

Lemma u32_range x : 0 <= u32 x < 2 ^ 32.
Proof. apply Z.mod_pos_bound. lia. Qed.

Lemma u64_range x : 0 <= u64 x < 2 ^ 64.
Proof. apply Z.mod_pos_bound. lia. Qed.

Lemma u8_id x : 0 <= x < 256 -> u8 x = x.
Proof. apply Z.mod_small. Qed.

Lemma u16_id x : 0 <= x < 2 ^ 16 -> u16 x = x.
Proof. apply Z.mod_small. Qed.

Lemma u32_id x : 0 <= x < 2 ^ 32 -> u32 x = x.
Proof. apply Z.mod_small. Qed.

Lemma u64_id x : 0 <= x < 2 ^ 64 -> u64 x = x.
Proof. apply Z.mod_small. Qed.

Lemma i32_Some x y : i32 x = Some y <-> y = x /\ INT_MIN <= x <= INT_MAX.
Proof.
  unfold i32. destruct (_ && _) eqn:E; bools.
  - split; [intros [= <-]; done | intros [-> _]; done].
  - split; [done | intros [_ ?]].
    apply andb_false_iff in E as [E|E]; bools; lia.
Qed.

Lemma i32_ok x : INT_MIN <= x <= INT_MAX -> i32 x = Some x.
Proof. intros. by apply i32_Some. Qed.

(** Bytes, by evaluation. *)
Lemma bytes_check l : forallb (fun b => (0 <=? b) && (b <? 256)) l = true -> Forall byte_ok l.
Proof.
  intros H. apply Forall_forall. intros b Hb%list_elem_of_In. unfold byte_ok.
  rewrite forallb_forall in H. specialize (H b Hb). bools. lia.
Qed.

(** A value of [n] bits below a shifted one. *)
Lemma lor_shiftl a b n : 0 <= n -> 0 <= b < 2 ^ n -> Z.lor (Z.shiftl a n) b = a * 2 ^ n + b.
Proof.
  intros Hn Hb. rewrite <- (Z.shiftl_mul_pow2 a n) by lia.
  rewrite <- (Z.add_lor_land (Z.shiftl a n) b). enough (Z.land (Z.shiftl a n) b = 0) as -> by lia.
  apply Z.bits_inj'. intros k Hk. rewrite Z.land_spec, Z.bits_0.
  destruct (Z.ltb_spec k n) as [H|H]; [by rewrite Z.shiftl_spec_low|].
  destruct (Z.eq_dec b 0) as [->|]; [by rewrite Z.bits_0, andb_false_r|].
  rewrite (Z.bits_above_log2 b k), andb_false_r; [done|lia|]. apply Z.log2_lt_pow2; [lia|].
  eapply Z.lt_le_trans; [apply Hb|]. apply Z.pow_le_mono_r; lia.
Qed.

(** Masking with ones above bit [k] and below bit [w] keeps the low [w] bits and
    rounds down to a multiple of [2 ^ k]. *)
Lemma land_round w k x :
  0 <= k <= w ->
  Z.land x (Z.ldiff (Z.ones w) (Z.ones k)) = x mod 2 ^ w / 2 ^ k * 2 ^ k.
Proof.
  intros Hk. rewrite <- Z.land_ones, <- Z.shiftr_div_pow2, <- Z.shiftl_mul_pow2 by lia.
  rewrite <- Z.ldiff_ones_r by lia. apply Z.bits_inj'. intros n Hn.
  rewrite !Z.ldiff_spec, !Z.land_spec, !Z.ldiff_spec. apply andb_assoc.
Qed.

#[export] Hint Resolve u8_range u16_range u32_range u64_range : vibe.

(** ** Lemmas: loops *)

Section Loops.
Context {I S R : Type}.

Lemma foldM_app (body : I -> S -> option S) xs ys st :
  foldM body (xs ++ ys) st = foldM body xs st ≫= foldM body ys.
Proof.
  revert st. induction xs as [|x xs IH]; intros st; simpl; [done|].
  destruct (body x st); simpl; [apply IH | done].
Qed.

(** Invariant rule: a property each step establishes and preserves holds at
    the end, and the loop is defined. *)
Lemma foldM_inv (P : nat -> S -> Prop) (body : I -> S -> option S) xs st :
  P 0%nat st ->
  (forall n i s, xs !! n = Some i -> P n s ->
     exists s', body i s = Some s' /\ P (Datatypes.S n) s') ->
  exists st', foldM body xs st = Some st' /\ P (length xs) st'.
Proof.
  revert P st. induction xs as [|x xs IH]; intros P st H0 Hstep; simpl; [eauto|].
  destruct (Hstep 0%nat x st) as (s1&E1&H1); [done|done|]. rewrite E1. simpl.
  apply (IH (fun n => P (Datatypes.S n))); [done|].
  intros n i s Hn Hp. apply (Hstep (Datatypes.S n)); done.
Qed.

(** Measure rule: a loop whose measure decreases terminates with enough fuel. *)
Lemma loop_total (step : S -> option (S + R)) (P : S -> Prop) (Q : R -> Prop)
    (m : S -> nat) fuel st :
  P st -> (m st < fuel)%nat ->
  (forall s, P s ->
     (exists s', step s = Some (inl s') /\ P s' /\ (m s' < m s)%nat) \/
     (exists r, step s = Some (inr r) /\ Q r)) ->
  exists r, loop fuel step st = Some r /\ Q r.
Proof.
  revert st. induction fuel as [|fuel IH]; intros st HP Hm Hstep; [lia|].
  simpl. destruct (Hstep st HP) as [(s'&->&?&?)|(r&->&?)]; simpl; [|eauto].
  apply IH; [done | lia | done].
Qed.

Lemma loop_mono (step : S -> option (S + R)) fuel fuel' st r :
  (fuel <= fuel')%nat -> loop fuel step st = Some r -> loop fuel' step st = Some r.
Proof.
  revert fuel' st. induction fuel as [|fuel IH]; intros fuel' st Hle; simpl; [done|].
  destruct fuel' as [|fuel']; [lia|]. simpl.
  destruct (step st) as [[s'|r']|]; simpl; [apply IH; lia | done | done].
Qed.
End Loops.

(** Apply the invariant rule to the loop of the goal. *)
Tactic Notation "foldM_by" constr(P) "as" simple_intropattern(p) :=
  match goal with
  | |- context [foldM ?body ?xs ?st] => destruct (foldM_inv P body xs st) as p
  end.

(** ** Lemmas: checked arrays *)

Section Arrays.
Context {A : Type}.
Implicit Types (l src : list A) (x : A).

Lemma aget_nat l (n : nat) : aget l (Z.of_nat n) = l !! n.
Proof. unfold aget. case_if; [by rewrite Nat2Z.id | lia]. Qed.

Lemma aget_lt l i : 0 <= i < Z.of_nat (length l) -> exists x, aget l i = Some x.
Proof.
  intros [? ?]. unfold aget. case_if; [|lia].
  apply lookup_lt_is_Some_2. lia.
Qed.

Lemma aget_Some_lt l i x : aget l i = Some x -> 0 <= i < Z.of_nat (length l).
Proof.
  unfold aget. case_if; [|done]. intros ?%lookup_lt_Some. lia.
Qed.

Lemma aset_ok l i x :
  0 <= i < Z.of_nat (length l) -> aset l i x = Some (<[Z.to_nat i := x]> l).
Proof. intros [? ?]. unfold aset. by destruct (Z.leb_spec 0 i), (Z.ltb_spec i (Z.of_nat (length l))); try lia. Qed.

Lemma aset_Some l i x l' :
  aset l i x = Some l' ->
  0 <= i < Z.of_nat (length l) /\ l' = <[Z.to_nat i := x]> l.
Proof. unfold aset. case_if; [|done]. intros [= <-]. done. Qed.

Lemma aset_length l i x l' : aset l i x = Some l' -> length l' = length l.
Proof. intros [_ ->]%aset_Some. by rewrite length_insert. Qed.

Lemma aget_aset_eq l i x l' : aset l i x = Some l' -> aget l' i = Some x.
Proof.
  intros [? ->]%aset_Some. unfold aget. case_if; [|lia].
  apply list_lookup_insert_eq. lia.
Qed.

Lemma aget_aset_ne l i j x l' :
  aset l i x = Some l' -> i <> j -> aget l' j = aget l j.
Proof.
  intros [? ->]%aset_Some ?. unfold aget. case_if; [|done].
  apply list_lookup_insert_ne. lia.
Qed.

Lemma aget_insert l i j x :
  0 <= i < Z.of_nat (length l) ->
  aget (<[Z.to_nat i := x]> l) j = if decide (i = j) then Some x else aget l j.
Proof.
  intros Hi. case_decide; subst.
  - eapply aget_aset_eq. by apply aset_ok.
  - eapply aget_aset_ne; [by apply aset_ok | done].
Qed.

Lemma aget_insert_eq l i x :
  0 <= i < Z.of_nat (length l) -> aget (<[Z.to_nat i := x]> l) i = Some x.
Proof. intros. by rewrite aget_insert, decide_True. Qed.

Lemma list_eq_aget l1 l2 :
  length l1 = length l2 ->
  (forall i, 0 <= i < Z.of_nat (length l1) -> aget l1 i = aget l2 i) -> l1 = l2.
Proof.
  intros Hlen Hget. apply list_eq. intros i.
  destruct (decide (i < length l1)%nat) as [Hi|Hi].
  - specialize (Hget (Z.of_nat i)). rewrite !aget_nat in Hget. apply Hget. lia.
  - rewrite !lookup_ge_None_2; [done | lia | lia].
Qed.

Lemma slice_ok l off len :
  0 <= off -> 0 <= len -> off + len <= Z.of_nat (length l) ->
  slice l off len = Some (take (Z.to_nat len) (drop (Z.to_nat off) l)).
Proof. intros. unfold slice. case_if; [done|]. lia. Qed.

Lemma slice_Some l off len r :
  slice l off len = Some r ->
  0 <= off /\ 0 <= len /\ off + len <= Z.of_nat (length l) /\
  r = take (Z.to_nat len) (drop (Z.to_nat off) l).
Proof. unfold slice. case_if; [|done]. intros [= <-]. done. Qed.

Lemma slice_whole l : slice l 0 (Z.of_nat (length l)) = Some l.
Proof. rewrite slice_ok by lia. change (Z.to_nat 0) with 0%nat. by rewrite drop_0, take_ge by lia. Qed.

Lemma slice_length l off len r :
  slice l off len = Some r -> Z.of_nat (length r) = len.
Proof. intros (?&?&?&->)%slice_Some. len. Qed.

Lemma aget_slice l off len r i :
  slice l off len = Some r -> 0 <= i < len -> aget r i = aget l (off + i).
Proof.
  intros (?&?&?&->)%slice_Some ?. unfold aget. do 2 (case_if; [|lia]).
  rewrite lookup_take_lt by lia. rewrite lookup_drop. f_equal. lia.
Qed.

Lemma splice_ok l off src :
  0 <= off -> off + Z.of_nat (length src) <= Z.of_nat (length l) ->
  splice l off src =
    Some (take (Z.to_nat off) l ++ src ++ drop (Z.to_nat off + length src) l).
Proof. intros. unfold splice. case_if; [done|]. lia. Qed.

Lemma splice_Some l off src r :
  splice l off src = Some r ->
  0 <= off /\ off + Z.of_nat (length src) <= Z.of_nat (length l) /\
  r = take (Z.to_nat off) l ++ src ++ drop (Z.to_nat off + length src) l.
Proof. unfold splice. case_if; [|done]. intros [= <-]. done. Qed.

Lemma splice_length l off src r : splice l off src = Some r -> length r = length l.
Proof. intros (?&?&->)%splice_Some. len. Qed.

Lemma aget_splice_in l off src r i :
  splice l off src = Some r -> off <= i < off + Z.of_nat (length src) ->
  aget r i = aget src (i - off).
Proof.
  intros (?&?&->)%splice_Some ?. unfold aget. do 2 (case_if; [|lia]).
  rewrite lookup_app_r by len. rewrite lookup_app_l by len.
  f_equal. len.
Qed.

Lemma aget_splice_out l off src r i :
  splice l off src = Some r -> i < off \/ off + Z.of_nat (length src) <= i ->
  aget r i = aget l i.
Proof.
  intros (?&?&->)%splice_Some ?. unfold aget. case_if; [|done].
  destruct (decide (i < off)).
  - rewrite lookup_app_l by len. by rewrite lookup_take_lt by lia.
  - rewrite lookup_app_r by len. rewrite lookup_app_r by len.
    rewrite lookup_drop. f_equal. len.
Qed.

Lemma slice_splice_eq l off src r :
  splice l off src = Some r -> slice r off (Z.of_nat (length src)) = Some src.
Proof.
  intros H. pose proof (splice_length _ _ _ _ H) as Hl.
  pose proof (splice_Some _ _ _ _ H) as (?&?&->).
  rewrite slice_ok by len. f_equal.
  rewrite drop_app_length' by len. by rewrite take_app_length' by lia.
Qed.

Lemma slice_splice_disjoint l off src r off' len :
  splice l off src = Some r ->
  off' + len <= off \/ off + Z.of_nat (length src) <= off' ->
  slice r off' len = slice l off' len.
Proof.
  intros H Hd. pose proof (splice_length _ _ _ _ H) as Hl.
  unfold slice. rewrite Hl. destruct (_ && _ && _) eqn:E; bools; [|done].
  f_equal. apply list_eq_aget; [len|]. intros i Hi. len.
  assert (Hs : slice r off' len = Some (take (Z.to_nat len) (drop (Z.to_nat off') r)))
    by (apply slice_ok; lia).
  assert (Hs' : slice l off' len = Some (take (Z.to_nat len) (drop (Z.to_nat off') l)))
    by (apply slice_ok; lia).
  rewrite (aget_slice _ _ _ _ _ Hs) by lia.
  rewrite (aget_slice _ _ _ _ _ Hs') by lia.
  eapply aget_splice_out; [done | lia].
Qed.

Lemma splice_ext l off src r :
  0 <= off -> off + Z.of_nat (length src) <= Z.of_nat (length l) ->
  length r = length l ->
  (forall i, 0 <= i < Z.of_nat (length l) ->
     aget r i = if (off <=? i) && (i <? off + Z.of_nat (length src))
                then aget src (i - off) else aget l i) ->
  splice l off src = Some r.
Proof.
  intros Ho Hb Hl Hg. destruct (splice l off src) as [r'|] eqn:E;
    [|rewrite splice_ok in E by lia; done].
  f_equal. pose proof (splice_length _ _ _ _ E) as Hl'.
  apply list_eq_aget; [lia|]. intros i Hi. rewrite Hg by lia. case_if.
  - by rewrite (aget_splice_in _ _ _ _ _ E) by lia.
  - rewrite (aget_splice_out _ _ _ _ _ E); [done|].
    lia.
Qed.

Lemma splice_nil l off : 0 <= off <= Z.of_nat (length l) -> splice l off [] = Some l.
Proof.
  intros. apply splice_ext; [lia | simpl; lia | done |]. intros i Hi. simpl.
  case_if; [lia|done].
Qed.

(** Two adjacent updates are one. *)
Lemma splice_app l off a b r1 r2 :
  splice l off a = Some r1 -> splice r1 (off + Z.of_nat (length a)) b = Some r2 ->
  splice l off (a ++ b) = Some r2.
Proof.
  intros H1 H2. pose proof (splice_length _ _ _ _ H1). pose proof (splice_length _ _ _ _ H2).
  pose proof (splice_Some _ _ _ _ H1) as (?&?&_). pose proof (splice_Some _ _ _ _ H2) as (?&?&_).
  apply splice_ext; [lia | rewrite length_app; lia | lia |].
  intros i Hi. rewrite length_app.
  destruct (decide (off + Z.of_nat (length a) <= i < off + Z.of_nat (length a) + Z.of_nat (length b))).
  - rewrite (aget_splice_in _ _ _ _ _ H2) by lia. case_if; [|lia].
    unfold aget. do 2 (case_if; [|lia]). rewrite lookup_app_r by lia. f_equal. lia.
  - rewrite (aget_splice_out _ _ _ _ _ H2) by lia.
    destruct (decide (off <= i < off + Z.of_nat (length a))).
    + rewrite (aget_splice_in _ _ _ _ _ H1) by lia. case_if; [|lia].
      unfold aget. case_if; [|lia]. by rewrite lookup_app_l by lia.
    + rewrite (aget_splice_out _ _ _ _ _ H1) by lia. case_if; [lia|done].
Qed.

Lemma aset_splice l i x r : aset l i x = Some r -> splice l i [x] = Some r.
Proof.
  intros H. pose proof (aset_Some _ _ _ _ H) as [? _].
  apply splice_ext; [lia | simpl; lia | by eapply aset_length |]. intros j Hj. simpl.
  destruct (decide (i = j)) as [->|].
  - rewrite (aget_aset_eq _ _ _ _ H), Z.sub_diag. case_if; [done|].
    lia.
  - rewrite (aget_aset_ne _ _ _ _ _ H) by done. case_if; [lia|done].
Qed.

(** Filling a range element by element. *)
Lemma fill_spec l off n x :
  0 <= off -> 0 <= n -> off + n <= Z.of_nat (length l) ->
  foldM (fun i l => aset l (off + i) x) (seqZ 0 n) l = splice l off (replicate (Z.to_nat n) x).
Proof.
  intros Ho Hn Hb.
  destruct (foldM_inv (fun k l' => splice l off (replicate k x) = Some l')
              (fun i l => aset l (off + i) x) (seqZ 0 n) l) as (l'&E&Hs).
  - apply splice_nil. lia.
  - intros k i l' [-> Hk]%lookup_seqZ Hs.
    pose proof (splice_length _ _ _ _ Hs) as Hl.
    rewrite aset_ok by lia. eexists. split; [done|].
    rewrite replicate_S_end. eapply splice_app; [done|].
    apply aset_splice. rewrite length_replicate. apply aset_ok. lia.
  - rewrite E. symmetry. by rewrite length_seqZ in Hs.
Qed.
End Arrays.

#[export] Hint Resolve aset_length slice_length splice_length : vibe.

(** ** Lemmas: little-endian encodings *)

Lemma le_enc_length n v : length (le_enc n v) = n.
Proof. revert v. induction n; simpl; auto. Qed.

Lemma le_dec_enc n v : le_dec (le_enc n v) = v mod 2 ^ (8 * Z.of_nat n).
Proof.
  revert v. induction n as [|n IH]; intros v; [by rewrite Z.mod_1_r|].
  simpl le_enc. simpl le_dec. rewrite IH.
  replace (8 * Z.of_nat (S n)) with (8 + 8 * Z.of_nat n) by lia.
  rewrite Z.pow_add_r by lia. change (2 ^ 8) with 256.
  rewrite Z.rem_mul_r by lia. lia.
Qed.

Lemma le_dec_enc_id n v : 0 <= v < 2 ^ (8 * Z.of_nat n) -> le_dec (le_enc n v) = v.
Proof. intros. rewrite le_dec_enc. by apply Z.mod_small. Qed.

Lemma le_enc_byte n v : Forall byte_ok (le_enc n v).
Proof.
  revert v. induction n as [|n IH]; intros v; simpl; constructor; [|apply IH].
  apply Z.mod_pos_bound. lia.
Qed.

Lemma le_dec_range l : Forall byte_ok l -> 0 <= le_dec l < 2 ^ (8 * Z.of_nat (length l)).
Proof.
  induction 1 as [|b l Hb Hl IH]; simpl le_dec; [simpl; lia|].
  simpl length. replace (8 * Z.of_nat (S (length l))) with (8 + 8 * Z.of_nat (length l)) by lia.
  rewrite Z.pow_add_r by lia. change (2 ^ 8) with 256. unfold byte_ok in Hb. lia.
Qed.

Lemma le_enc_dec l : Forall byte_ok l -> le_enc (length l) (le_dec l) = l.
Proof.
  induction 1 as [|b l Hb Hl IH]; simpl; [done|]. unfold byte_ok in Hb.
  rewrite Z.mul_comm, Z.mod_add, Z.mod_small, Z.div_add, Z.div_small by lia.
  rewrite Z.add_0_l. by rewrite IH.
Qed.

#[export] Hint Rewrite le_enc_length : vibelen.
#[export] Hint Resolve le_enc_byte : vibe.
