(* ===== verification/StateM.v ===== *)
(** * StateM: stateful code with undefined behaviour

    [ST S A] is a computation on a state [S] that returns an [A] or is undefined
    ([None]).  [wp m Q s]: run from [s], [m] is defined and its result and final
    state satisfy [Q].  The components whose code updates one global state are
    written in this monad and specified with [wp]. *)

From Stdlib Require Import ZArith Lia Bool ZifyBool.
From stdpp Require Import base numbers option list list_numbers.
From S2P Require Import Prelude.

Open Scope Z_scope.

Definition ST (S A : Type) : Type := S -> option (A * S).

Section Monad.
Context {S : Type}.

#[global] Instance ST_ret : MRet (ST S) := fun A x s => Some (x, s).
#[global] Instance ST_bind : MBind (ST S) := fun A B k m s =>
  match m s with Some (x, s') => k x s' | None => None end.

Definition reads {A} (f : S -> A) : ST S A := fun s => Some (f s, s).
Definition update (f : S -> S) : ST S () := fun s => Some ((), f s).
Definition undefined {A} : ST S A := fun _ => None.
(** Undefined behaviour unless the option has a value. *)
Definition must {A} (o : option A) : ST S A := fun s => x ← o; Some (x, s).
(** A partial update of the state. *)
Definition try_update (f : S -> option S) : ST S () := fun s => s' ← f s; Some ((), s').

Definition wp {A} (m : ST S A) (Q : A -> S -> Prop) (s : S) : Prop :=
  exists x s', m s = Some (x, s') /\ Q x s'.

Lemma wp_bind {A B} (m : ST S A) (k : A -> ST S B) Q s :
  wp m (fun x => wp (k x) Q) s -> wp (m ≫= k) Q s.
Proof. intros (x&s1&E&y&s2&E2&HQ). exists y, s2. unfold mbind, ST_bind. by rewrite E. Qed.

Lemma wp_ret {A} (x : A) Q s : Q x s -> wp (mret x) Q s.
Proof. intros. by exists x, s. Qed.

Lemma wp_reads {A} (f : S -> A) Q s : Q (f s) s -> wp (reads f) Q s.
Proof. intros. by exists (f s), s. Qed.

Lemma wp_update f (Q : () -> S -> Prop) s : Q tt (f s) -> wp (update f) Q s.
Proof. intros. by exists tt, (f s). Qed.

Lemma wp_must {A} (o : option A) x Q s : o = Some x -> Q x s -> wp (must o) Q s.
Proof. intros -> HQ. by exists x, s. Qed.

Lemma wp_try (f : S -> option S) s' (Q : () -> S -> Prop) s : f s = Some s' -> Q tt s' -> wp (try_update f) Q s.
Proof. intros E HQ. exists tt, s'. unfold try_update. by rewrite E. Qed.

Lemma wp_mono {A} (m : ST S A) (P Q : A -> S -> Prop) s :
  wp m P s -> (forall x s', P x s' -> Q x s') -> wp m Q s.
Proof. intros (x&s'&E&HP) H. exists x, s'. auto. Qed.

Lemma wp_run {A} (m : ST S A) Q s x s' : wp m Q s -> m s = Some (x, s') -> Q x s'.
Proof. intros (y&s1&E&HQ) E'. rewrite E in E'. by injection E' as <- <-. Qed.

Lemma wp_conj {A} (m : ST S A) P Q s : wp m P s -> wp m Q s -> wp m (fun x s' => P x s' /\ Q x s') s.
Proof. intros (x&s'&E&HP) HQ. exists x, s'. split; [done|]. split; [done|]. by eapply wp_run. Qed.

(** A loop over a list in the monad. *)
Fixpoint each {I} (body : I -> ST S ()) (xs : list I) : ST S () :=
  match xs with
  | [] => mret tt
  | x :: xs' => _ ← body x; each body xs'
  end.

Lemma wp_each {I} (P : S -> Prop) (body : I -> ST S ()) xs s :
  (forall x s, x ∈ xs -> P s -> wp (body x) (fun _ => P) s) -> P s -> wp (each body xs) (fun _ => P) s.
Proof.
  revert s. induction xs as [|x xs IH]; intros s Hb Hs; cbn [each]; [by apply wp_ret|].
  apply wp_bind. eapply wp_mono; [apply Hb; [by left|done]|]. intros [] s' Hs'.
  apply IH; [|done]. intros y s2 Hy. apply Hb. by right.
Qed.
End Monad.

(** Step over the basic actions. *)
Ltac wstep :=
  lazymatch goal with
  | |- wp (mbind _ _) _ _ => apply wp_bind
  | |- wp (mret _) _ _ => apply wp_ret
  | |- wp (reads _) _ _ => apply wp_reads
  | |- wp (update _) _ _ => apply wp_update
  end; cbn beta iota.

(** Use a specification of the next action. *)
Tactic Notation "wuse" uconstr(H) "giving" ident(r) "as" simple_intropattern(p) :=
  try apply wp_bind; eapply wp_mono; [eapply H|intros r ? p; cbn beta iota].
Tactic Notation "wuse" uconstr(H) "as" simple_intropattern(p) :=
  try apply wp_bind; eapply wp_mono; [eapply H|intros ? ? p; cbn beta iota].
