(* ===== verification/Segments.v ===== *)
(** * Segments: ranges of byte sequences

    [seg l i n] is the bytes of [l] from [i], at most [n] of them; [overwrite l i d]
    is [l] with [d] stored from [i], growing at the end as a file does.  The
    models of files and streams are specified with these two. *)

From Stdlib Require Import ZArith Lia Bool ZifyBool.
From stdpp Require Import base numbers option list list_numbers.
From S2P Require Import Prelude.

Open Scope Z_scope.

Definition seg {A} (l : list A) (i n : Z) : list A := take (Z.to_nat n) (drop (Z.to_nat i) l).
Definition overwrite {A} (l : list A) (i : Z) (d : list A) : list A :=
  take (Z.to_nat i) l ++ d ++ drop (Z.to_nat i + length d) l.

Abbreviation size_of l := (Z.of_nat (length l)).

Section Lists.
Context {A : Type}.
Implicit Types (l c d : list A) (i n m : Z).

Lemma length_seg l i n : 0 <= i -> 0 <= n -> size_of (seg l i n) = Z.max 0 (Z.min n (size_of l - i)).
Proof. intros. unfold seg. rewrite length_take, length_drop. lia. Qed.

Lemma length_seg_in l i n : 0 <= i -> 0 <= n -> i + n <= size_of l -> size_of (seg l i n) = n.
Proof. intros. rewrite length_seg by lia. lia. Qed.

Lemma seg_0 l i : seg l i 0 = [].
Proof. done. Qed.

Lemma seg_whole l : seg l 0 (size_of l) = l.
Proof. unfold seg. simpl. apply take_ge. lia. Qed.

Lemma seg_past l i n : size_of l <= i -> seg l i n = [].
Proof. intros. unfold seg. rewrite drop_ge by lia. apply take_nil. Qed.

Lemma seg_split l i m n : 0 <= i -> 0 <= m -> 0 <= n -> seg l i (m + n) = seg l i m ++ seg l (i + m) n.
Proof.
  intros. unfold seg. rewrite !Z2Nat.inj_add by lia. rewrite <- drop_drop.
  rewrite <- (take_drop (Z.to_nat m) (take (Z.to_nat m + Z.to_nat n) _)).
  rewrite take_take, Nat.min_l by lia. f_equal. by rewrite skipn_firstn_comm, Nat.add_sub'.
Qed.

Lemma seg_seg l i n j m : 0 <= i -> 0 <= j -> 0 <= m -> j + m <= n -> seg (seg l i n) j m = seg l (i + j) m.
Proof.
  intros. unfold seg. rewrite skipn_firstn_comm, take_take, drop_drop. f_equal; [lia|]. f_equal. lia.
Qed.

(** A segment that starts inside another depends on it only. *)
Lemma seg_agree l l' i i' n j m :
  0 <= i -> 0 <= i' -> 0 <= j -> 0 <= m -> j + m <= n -> seg l i n = seg l' i' n -> seg l (i + j) m = seg l' (i' + j) m.
Proof. intros ????? E. rewrite <- (seg_seg l i n), <- (seg_seg l' i' n), E by lia. done. Qed.

Lemma slice_seg l i n : 0 <= i -> 0 <= n -> i + n <= size_of l -> slice l i n = Some (seg l i n).
Proof. intros. by apply slice_ok. Qed.

Lemma splice_overwrite l i d : 0 <= i -> i + size_of d <= size_of l -> splice l i d = Some (overwrite l i d).
Proof. intros. by apply splice_ok. Qed.

Lemma length_overwrite l i d : 0 <= i <= size_of l -> size_of (overwrite l i d) = Z.max (size_of l) (i + size_of d).
Proof. intros. unfold overwrite. rewrite !length_app, length_take, length_drop. lia. Qed.

Lemma overwrite_nil l i : overwrite l i [] = l.
Proof. unfold overwrite. simpl. by rewrite Nat.add_0_r, take_drop. Qed.

Lemma overwrite_whole l d : (length l <= length d)%nat -> overwrite l 0 d = d.
Proof. intros. unfold overwrite. simpl. rewrite drop_ge by lia. apply app_nil_r. Qed.

(** Storing twice in a row. *)
Lemma overwrite_app l i d d' :
  0 <= i <= size_of l -> overwrite (overwrite l i d) (i + size_of d) d' = overwrite l i (d ++ d').
Proof.
  intros Hi. unfold overwrite at 1 3. rewrite length_app.
  assert (L : length (take (Z.to_nat i) l) = Z.to_nat i) by (rewrite length_take; lia).
  replace (Z.to_nat (i + size_of d)) with (Z.to_nat i + length d)%nat by lia.
  set (a := take (Z.to_nat i) l) in *.
  assert (T : take (Z.to_nat i + length d) (overwrite l i d) = a ++ d).
  { unfold overwrite. fold a. rewrite app_assoc, take_app_le by (rewrite length_app; lia).
    apply take_ge. rewrite length_app. lia. }
  assert (D : drop (Z.to_nat i + length d + length d') (overwrite l i d) = drop (Z.to_nat i + (length d + length d')) l).
  { unfold overwrite. fold a. rewrite app_assoc, drop_app_ge, drop_drop by (rewrite length_app; lia).
    f_equal. rewrite length_app. lia. }
  rewrite T, D. by rewrite <- !app_assoc.
Qed.

(** Storing in the rest of an array. *)
Lemma overwrite_drop l i d :
  0 <= i <= size_of l -> take (Z.to_nat i) l ++ overwrite (drop (Z.to_nat i) l) 0 d = overwrite l i d.
Proof. intros. unfold overwrite. simpl. by rewrite drop_drop. Qed.

Lemma seg_overwrite_eq l i d : 0 <= i <= size_of l -> seg (overwrite l i d) i (size_of d) = d.
Proof.
  intros. unfold seg, overwrite. rewrite drop_app_ge by (rewrite length_take; lia). rewrite length_take.
  replace (Z.to_nat i - _)%nat with 0%nat by lia. rewrite drop_0, Nat2Z.id, take_app_le by lia. by apply take_ge.
Qed.

Lemma seg_overwrite_before l i d j n : 0 <= j -> 0 <= n -> j + n <= i -> i <= size_of l -> seg (overwrite l i d) j n = seg l j n.
Proof.
  intros. unfold seg, overwrite. rewrite drop_app_le by (rewrite length_take; lia).
  rewrite take_app_le by (rewrite length_drop, length_take; lia).
  rewrite skipn_firstn_comm, take_take. f_equal. lia.
Qed.

Lemma aset_overwrite l i x : 0 <= i < size_of l -> aset l i x = Some (overwrite l i [x]).
Proof.
  intros. unfold aset. case_if; [|lia]. f_equal. unfold overwrite. simpl.
  rewrite insert_take_drop by lia. by replace (Z.to_nat i + 1)%nat with (Datatypes.S (Z.to_nat i)) by lia.
Qed.
Lemma aget_seg l i n k : 0 <= i -> 0 <= k < n -> aget (seg l i n) k = aget l (i + k).
Proof.
  intros. unfold aget, seg. replace (0 <=? k) with true by lia. replace (0 <=? i + k) with true by lia.
  rewrite lookup_take_lt, lookup_drop by lia. f_equal. lia.
Qed.

Lemma aget_overwrite l d i k : 0 <= i <= size_of l -> 0 <= k ->
  aget (overwrite l i d) k = if (i <=? k) && (k <? i + size_of d) then aget d (k - i) else aget l k.
Proof.
  intros Hi Hk. unfold aget, overwrite. replace (0 <=? k) with true by lia.
  assert (L : length (take (Z.to_nat i) l) = Z.to_nat i) by (rewrite length_take; lia).
  destruct (Z.leb_spec i k) as [H1|H1]; cbn [andb].
  - rewrite lookup_app_r by lia. rewrite L. destruct (Z.ltb_spec k (i + size_of d)) as [H2|H2].
    + replace (0 <=? k - i) with true by lia. rewrite lookup_app_l by lia. f_equal. lia.
    + rewrite lookup_app_r, lookup_drop by lia. f_equal. lia.
  - rewrite lookup_app_l, lookup_take_lt by lia. done.
Qed.
End Lists.
