(* ===== verification/KAlloc.v ===== *)
(** * KAlloc: the kernel heap allocator (kernel/src/alloc.c)

    The allocator keeps a singly linked list of block headers inside the memory
    it manages.  Memory is modelled at the granularity of headers: a finite map
    from addresses to [alloc_header] structs; the payload bytes belong to the
    allocator's clients.  Pointers are 64-bit addresses with 0 for NULL, and
    [None] is the undefined behaviour of dereferencing an address that holds no
    header (or of a walk that does not end).

    The representation predicate [heap_repr] says that the headers reachable
    from the heap start tile the heap exactly; the theorems show that every
    operation is defined on such a heap, refines a first-fit allocator on the
    list of tiles, and keeps live payloads disjoint. *)

From Stdlib Require Import ZArith Lia Bool ZifyBool.
From stdpp Require Import base numbers option list list_numbers gmap fin_maps.
From S2P Require Import Prelude.

Open Scope Z_scope.
Set Warnings "-clear-no-such-hyp".

Module KAlloc.

(** ** Data *)

(** [struct alloc_header]: payload size, next header (0 = NULL), free flag. *)
Record alloc_header := mk_header {
  hdr_size : Z;
  hdr_next : Z;
  hdr_is_free : bool }.

(** [sizeof(alloc_header_t)] on the 64-bit targets: 8 + 8 + 4, padded to 24. *)
Definition sizeof_header : Z := 24.

Abbreviation memory := (gmap Z alloc_header).

(** The static variables of alloc.c that belong to the main heap. *)
Record heap := mk_heap {
  mem : memory;
  g_heap_start : Z;
  g_heap_base : Z;
  g_heap_size : Z;
  g_used : Z;
  g_physical_total : Z;
  g_heap_lock : bool }.

Definition set_mem (m : memory) (h : heap) : heap :=
  mk_heap m (g_heap_start h) (g_heap_base h) (g_heap_size h) (g_used h)
    (g_physical_total h) (g_heap_lock h).
Definition set_used (n : Z) (h : heap) : heap :=
  mk_heap (mem h) (g_heap_start h) (g_heap_base h) (g_heap_size h) n
    (g_physical_total h) (g_heap_lock h).
Definition set_lock (b : bool) (h : heap) : heap :=
  mk_heap (mem h) (g_heap_start h) (g_heap_base h) (g_heap_size h) (g_used h)
    (g_physical_total h) b.

(** Field updates through a header pointer. *)
Definition store_size (m : memory) (p n : Z) : option memory :=
  b ← m !! p; Some (<[p := mk_header n (hdr_next b) (hdr_is_free b)]> m).
Definition store_next (m : memory) (p n : Z) : option memory :=
  b ← m !! p; Some (<[p := mk_header (hdr_size b) n (hdr_is_free b)]> m).
Definition store_free (m : memory) (p : Z) (f : bool) : option memory :=
  b ← m !! p; Some (<[p := mk_header (hdr_size b) (hdr_next b) f]> m).

(** ** The main heap *)

Definition heap_end_addr (h : heap) : Z := u64 (g_heap_base h + g_heap_size h).

(** The sanity test shared by [block_in_heap] and [kheap_block_ok]: the header
    lies between [base] and [stop] and its payload ends before [stop]. *)
Definition block_between (m : memory) (base stop p : Z) : option bool :=
  if (p <? base) || (stop <? u64 (p + sizeof_header)) then Some false
  else
    b ← m !! p;
    if u64 (u64 (stop - p) - sizeof_header) <? hdr_size b then Some false
    else Some true.

Definition block_in_heap (h : heap) (p : Z) : option bool :=
  block_between (mem h) (g_heap_base h) (heap_end_addr h) p.

(** Address just past a block. *)
Definition block_phys_next (m : memory) (p : Z) : option Z :=
  b ← m !! p; Some (u64 (u64 (p + sizeof_header) + hdr_size b)).

Definition kmalloc_init (heap_start heap_size : Z) (h : heap) : heap :=
  mk_heap
    (<[heap_start := mk_header (u64 (heap_size - sizeof_header)) 0 true]> (mem h))
    heap_start heap_start heap_size 0 (g_physical_total h) (g_heap_lock h).

(** The first-fit search of [kmalloc_locked]: stops on NULL, on a block that
    fails the sanity test, or on a large enough free block. *)
Fixpoint kmalloc_find (fuel : nat) (h : heap) (size curr : Z) : option Z :=
  match fuel with
  | O => None
  | S fuel' =>
      if curr =? 0 then Some 0
      else
        ok ← block_in_heap h curr;
        if negb ok then Some curr
        else
          b ← mem h !! curr;
          if hdr_is_free b && (size <=? hdr_size b) then Some curr
          else kmalloc_find fuel' h size (hdr_next b)
  end.

(** Carve the allocation out of block [curr], splitting off the rest when it
    can hold a header and more than 8 bytes. *)
Definition carve (m : memory) (curr size : Z) : option memory :=
  b ← m !! curr;
  m1 ← (if u64 (u64 (size + sizeof_header) + 8) <? hdr_size b then
          let new_block := u64 (u64 (curr + sizeof_header) + size) in
          let m1 := <[new_block :=
                       mk_header (u64 (u64 (hdr_size b - size) - sizeof_header))
                                 (hdr_next b) true]> m in
          m2 ← store_size m1 curr size;
          store_next m2 curr new_block
        else Some m);
  store_free m1 curr false.

(** More links than headers in memory would be a cycle. *)
Definition walk_fuel (m : memory) : nat := S (S (size m)).

Definition kmalloc_locked (size : Z) (h : heap) : option (Z * heap) :=
  let size := Z.land (u64 (size + 7)) (u64 (Z.lnot 7)) in
  curr ← kmalloc_find (walk_fuel (mem h)) h size (g_heap_start h);
  if curr =? 0 then Some (0, h)
  else
    m' ← carve (mem h) curr size;
    b' ← m' !! curr;
    Some (u64 (curr + sizeof_header),
          set_used (u64 (g_used h + hdr_size b')) (set_mem m' h)).

(** The coalescing walk of [kfree_locked] and [kheap_free]; [ok] is the sanity
    test of the heap being walked. *)
Fixpoint coalesce (fuel : nat) (ok : memory -> Z -> option bool) (m : memory)
    (curr : Z) : option memory :=
  match fuel with
  | O => None
  | S fuel' =>
      if curr =? 0 then Some m
      else
        b ← m !! curr;
        if hdr_next b =? 0 then Some m
        else
          ok1 ← ok m curr;
          if negb ok1 then Some m
          else
            ok2 ← ok m (hdr_next b);
            if negb ok2 then Some m
            else
              n ← m !! hdr_next b;
              after ← block_phys_next m curr;
              if hdr_is_free b && hdr_is_free n && (after =? hdr_next b) then
                m1 ← store_size m curr
                       (u64 (hdr_size b + u64 (sizeof_header + hdr_size n)));
                m2 ← store_next m1 curr (hdr_next n);
                coalesce fuel' ok m2 curr
              else coalesce fuel' ok m (hdr_next b)
  end.

Definition kfree_locked (ptr : Z) (h : heap) : option heap :=
  if ptr =? 0 then Some h
  else
    let block := u64 (ptr - sizeof_header) in
    ok ← block_in_heap h block;
    if negb ok then Some h
    else
      b ← mem h !! block;
      if hdr_is_free b then Some h
      else
        m1 ← store_free (mem h) block true;
        let used := if hdr_size b <=? g_used h then g_used h - hdr_size b else 0 in
        m2 ← coalesce (walk_fuel m1)
               (fun m => block_between m (g_heap_base h) (heap_end_addr h))
               m1 (g_heap_start h);
        Some (set_used used (set_mem m2 h)).

(** [spin_lock_irqsave] on the heap lock spins for ever when this CPU already
    holds it; otherwise the pair brackets the operation. *)
Definition spin_lock (h : heap) : option heap :=
  if g_heap_lock h then None else Some (set_lock true h).
Definition spin_unlock (h : heap) : heap := set_lock false h.

Definition kmalloc (size : Z) (h : heap) : option (Z * heap) :=
  h1 ← spin_lock h;
  '(p, h2) ← kmalloc_locked size h1;
  Some (p, spin_unlock h2).

Definition kfree (ptr : Z) (h : heap) : option heap :=
  h1 ← spin_lock h;
  h2 ← kfree_locked ptr h1;
  Some (spin_unlock h2).

(** Accounting walk of [kmalloc_get_free]. *)
Fixpoint free_walk (fuel : nat) (h : heap) (acc curr : Z) : option Z :=
  match fuel with
  | O => None
  | S fuel' =>
      if curr =? 0 then Some acc
      else
        ok ← block_in_heap h curr;
        if negb ok then Some acc
        else
          b ← mem h !! curr;
          free_walk fuel' h
            (if hdr_is_free b then u64 (acc + u64 (hdr_size b + sizeof_header)) else acc)
            (hdr_next b)
  end.

Definition kmalloc_get_free (h : heap) : option Z :=
  h1 ← spin_lock h;
  free_walk (walk_fuel (mem h1)) h1 0 (g_heap_start h1).

Definition kmalloc_get_total (h : heap) : Z := g_heap_size h.
Definition kmalloc_get_used (h : heap) : Z := g_used h.

Definition kmalloc_set_physical_total (total_bytes : Z) (h : heap) : heap :=
  mk_heap (mem h) (g_heap_start h) (g_heap_base h) (g_heap_size h) (g_used h)
    total_bytes (g_heap_lock h).

Definition kmalloc_get_physical_total (h : heap) : Z :=
  if negb (g_physical_total h =? 0) then g_physical_total h else g_heap_size h.

Definition kmalloc_get_physical_used (h : heap) : Z :=
  if g_physical_total h =? 0 then g_used h
  else if g_physical_total h <? g_heap_base h then g_physical_total h
  else if u64 (g_physical_total h - g_heap_base h) <? g_used h then g_physical_total h
  else u64 (g_heap_base h + g_used h).

(** ** The auxiliary heaps (graphics surfaces and process images) *)

(** [struct kheap]; the header memory is shared and passed separately. *)
Record kheap := mk_kheap {
  kh_start : Z;
  kh_base : Z;
  kh_size : Z }.

Definition kheap_block_ok (k : kheap) (m : memory) (p : Z) : option bool :=
  block_between m (kh_base k) (u64 (kh_base k + kh_size k)) p.

Definition kheap_init (base size : Z) (m : memory) : kheap * memory :=
  (mk_kheap base base size,
   <[base := mk_header (u64 (size - sizeof_header)) 0 true]> m).

(** First-fit search of [kheap_alloc]: a corrupt block ends it with NULL. *)
Fixpoint kheap_find (fuel : nat) (k : kheap) (m : memory) (size curr : Z) : option Z :=
  match fuel with
  | O => None
  | S fuel' =>
      if curr =? 0 then Some 0
      else
        ok ← kheap_block_ok k m curr;
        if negb ok then Some 0
        else
          b ← m !! curr;
          if hdr_is_free b && (size <=? hdr_size b) then Some curr
          else kheap_find fuel' k m size (hdr_next b)
  end.

(** [~7u] is a 32-bit mask, so it also clears the upper half of the size. *)
Definition kheap_alloc (k : kheap) (size : Z) (m : memory) : option (Z * memory) :=
  if kh_start k =? 0 then Some (0, m)
  else
    let size := Z.land (u64 (size + 7)) (u32 (Z.lnot 7)) in
    curr ← kheap_find (walk_fuel m) k m size (kh_start k);
    if curr =? 0 then Some (0, m)
    else
      m' ← carve m curr size;
      Some (u64 (curr + sizeof_header), m').

Definition kheap_free (k : kheap) (ptr : Z) (m : memory) : option memory :=
  if ptr =? 0 then Some m
  else
    let block := u64 (ptr - sizeof_header) in
    ok ← kheap_block_ok k m block;
    if negb ok then Some m
    else
      b ← m !! block;
      if hdr_is_free b then Some m
      else
        m1 ← store_free m block true;
        coalesce (walk_fuel m1) (kheap_block_ok k) m1 (kh_start k).

(** The two auxiliary heaps and the header memory they share. *)
Record aux_heaps := mk_aux {
  aux_mem : memory;
  g_gfx_heap : kheap;
  g_img_heap : kheap }.

Definition gfx_heap_init (base size : Z) (x : aux_heaps) : aux_heaps :=
  let '(k, m) := kheap_init base size (aux_mem x) in mk_aux m k (g_img_heap x).
Definition gfx_alloc (size : Z) (x : aux_heaps) : option (Z * aux_heaps) :=
  '(p, m) ← kheap_alloc (g_gfx_heap x) size (aux_mem x);
  Some (p, mk_aux m (g_gfx_heap x) (g_img_heap x)).
Definition gfx_free (ptr : Z) (x : aux_heaps) : option aux_heaps :=
  m ← kheap_free (g_gfx_heap x) ptr (aux_mem x);
  Some (mk_aux m (g_gfx_heap x) (g_img_heap x)).

Definition image_heap_init (base size : Z) (x : aux_heaps) : aux_heaps :=
  let '(k, m) := kheap_init base size (aux_mem x) in mk_aux m (g_gfx_heap x) k.
Definition image_alloc (size : Z) (x : aux_heaps) : option (Z * aux_heaps) :=
  '(p, m) ← kheap_alloc (g_img_heap x) size (aux_mem x);
  Some (p, mk_aux m (g_gfx_heap x) (g_img_heap x)).
Definition image_free (ptr : Z) (x : aux_heaps) : option aux_heaps :=
  m ← kheap_free (g_img_heap x) ptr (aux_mem x);
  Some (mk_aux m (g_gfx_heap x) (g_img_heap x)).
Definition image_heap_ready (x : aux_heaps) : bool := negb (kh_start (g_img_heap x) =? 0).

(** ** Abstract specification: a first-fit allocator on a list of tiles

    A tile is a payload size and a free flag; tile [i] starts where tile
    [i - 1] ends. *)

Abbreviation tile := (Z * bool)%type.

(** Bytes covered by a list of tiles, headers included. *)
Fixpoint span (bs : list tile) : Z :=
  match bs with
  | [] => 0
  | (sz, _) :: bs' => sizeof_header + sz + span bs'
  end.

(** Payload bytes of the tiles in use. *)
Fixpoint live (bs : list tile) : Z :=
  match bs with
  | [] => 0
  | (sz, fr) :: bs' => (if (fr : bool) then 0 else sz) + live bs'
  end.

(** Free bytes, headers included: what [kmalloc_get_free] reports. *)
Fixpoint free_bytes (bs : list tile) : Z :=
  match bs with
  | [] => 0
  | (sz, fr) :: bs' => (if (fr : bool) then sz + sizeof_header else 0) + free_bytes bs'
  end.

Fixpoint first_fit (need : Z) (bs : list tile) : option (list tile * Z * list tile) :=
  match bs with
  | [] => None
  | (sz, fr) :: bs' =>
      if fr && (need <=? sz) then Some ([], sz, bs')
      else
        '(pre, sz', post) ← first_fit need bs';
        Some ((sz, fr) :: pre, sz', post)
  end.

Definition carve_tile (need sz : Z) : list tile :=
  if need + sizeof_header + 8 <? sz
  then [(need, false); (sz - need - sizeof_header, true)] else [(sz, false)].

(** Allocation: address of the payload and the new tiling. *)
Definition alloc_spec (need base : Z) (bs : list tile) : option (Z * list tile) :=
  '(pre, sz, post) ← first_fit need bs;
  Some (base + span pre + sizeof_header, pre ++ carve_tile need sz ++ post).

(** Merge runs of adjacent free tiles. *)
Fixpoint merge_from (sz : Z) (fr : bool) (bs : list tile) : list tile :=
  match bs with
  | [] => [(sz, fr)]
  | (sz', fr') :: bs' =>
      if fr && fr' then merge_from (sz + (sizeof_header + sz')) true bs'
      else (sz, fr) :: merge_from sz' fr' bs'
  end.

Definition merge (bs : list tile) : list tile :=
  match bs with
  | [] => []
  | (sz, fr) :: bs' => merge_from sz fr bs'
  end.

(** No two neighbouring tiles are both free. *)
Fixpoint coalesced (bs : list tile) : Prop :=
  match bs with
  | (_, fr) :: (((_, fr') :: _) as bs') => fr && fr' = false /\ coalesced bs'
  | _ => True
  end.

(** The live allocations: payload address and payload size of each used tile. *)
Fixpoint payloads (p : Z) (bs : list tile) : list (Z * Z) :=
  match bs with
  | [] => []
  | (sz, fr) :: bs' =>
      (if (fr : bool) then [] else [(p + sizeof_header, sz)]) ++
      payloads (p + sizeof_header + sz) bs'
  end.

(** ** Representation *)

(** The next pointer stored in a block that ends at [x]. *)
Definition link (stop x : Z) : Z := if x =? stop then 0 else x.

(** The headers from address [p] on describe the tiles [bs]. *)
Fixpoint seg (m : memory) (stop p : Z) (bs : list tile) : Prop :=
  match bs with
  | [] => True
  | (sz, fr) :: bs' =>
      0 <= sz /\ sz mod 8 = 0 /\
      m !! p = Some (mk_header sz (link stop (p + sizeof_header + sz)) fr) /\
      seg m stop (p + sizeof_header + sz) bs'
  end.

(** The region [base, base + len) is tiled by [bs]. *)
Definition region_repr (m : memory) (base len : Z) (bs : list tile) : Prop :=
  0 < base /\ base mod 8 = 0 /\ base + len < 2 ^ 64 /\ bs <> [] /\
  span bs = len /\ seg m (base + len) base bs.

Definition heap_repr (h : heap) (bs : list tile) : Prop :=
  region_repr (mem h) (g_heap_base h) (g_heap_size h) bs /\
  g_heap_start h = g_heap_base h /\ g_used h = live bs.

Definition kheap_repr (k : kheap) (m : memory) (bs : list tile) : Prop :=
  region_repr m (kh_base k) (kh_size k) bs /\ kh_start k = kh_base k.

(** Rounding of a request, as it is meant: up to a multiple of 8. *)
Definition round8 (n : Z) : Z := (n + 7) / 8 * 8.

(** ** Client view: the heap and the pointers its clients hold *)

Record client := mk_client { cl_heap : heap; cl_live : gset Z }.

(** One client call: any request size that rounds without wrapping, and a free
    of NULL or of a pointer that is currently held. *)
Inductive client_step : client -> client -> Prop :=
| step_kmalloc size p h h' L :
    0 <= size < 2 ^ 64 - 7 -> kmalloc size h = Some (p, h') ->
    client_step (mk_client h L) (mk_client h' (if p =? 0 then L else {[p]} ∪ L))
| step_kfree ptr h h' L :
    ptr = 0 \/ ptr ∈ L -> kfree ptr h = Some h' ->
    client_step (mk_client h L) (mk_client h' (L ∖ {[ptr]})).

(** Addresses of the live payloads. *)
Definition live_addrs (p : Z) (bs : list tile) : gset Z :=
  list_to_set (payloads p bs).*1.

(** The global invariant of a client history. *)
Definition client_inv (base len : Z) (c : client) : Prop :=
  exists bs, heap_repr (cl_heap c) bs /\ coalesced bs /\
    g_heap_base (cl_heap c) = base /\ g_heap_size (cl_heap c) = len /\
    g_heap_lock (cl_heap c) = false /\ cl_live c = live_addrs base bs.

(** ** Lemmas on the specification *)

Lemma span_app bs1 bs2 : span (bs1 ++ bs2) = span bs1 + span bs2.
Proof. induction bs1 as [|[sz fr] bs1 IH]; simpl; lia. Qed.

Lemma live_app bs1 bs2 : live (bs1 ++ bs2) = live bs1 + live bs2.
Proof. induction bs1 as [|[sz fr] bs1 IH]; simpl; lia. Qed.

Lemma first_fit_Some need bs pre sz post :
  first_fit need bs = Some (pre, sz, post) ->
  bs = pre ++ (sz, true) :: post /\ need <= sz.
Proof.
  revert pre. induction bs as [|[s f] bs IH]; intros pre; simpl; [done|].
  destruct (f && _) eqn:E; bools.
  - intros [= <- <- <-]. subst. done.
  - destruct (first_fit need bs) as [[[pre' s'] post']|]; simpl; [|done].
    intros [= <- <- <-]. destruct (IH pre' eq_refl) as [-> ?]. done.
Qed.

Lemma first_fit_pre need bs pre sz post s :
  first_fit need bs = Some (pre, sz, post) -> (s, true) ∈ pre -> s < need.
Proof.
  revert pre. induction bs as [|[s' f] bs IH]; intros pre; simpl; [done|].
  destruct (f && _) eqn:E; [by intros [= <- <- <-] ?%elem_of_nil|].
  destruct (first_fit need bs) as [[[pre' s''] post']|]; simpl; [|done].
  intros [= <- <- <-] [[= -> <-]|?]%elem_of_cons; [simpl in E; by bools | by eapply IH].
Qed.

Lemma first_fit_None need bs sz :
  first_fit need bs = None -> (sz, true) ∈ bs -> sz < need.
Proof.
  induction bs as [|[s f] bs IH]; simpl; [by intros _ ?%elem_of_nil|].
  destruct (f && _) eqn:E; [done|].
  destruct (first_fit need bs) as [[[]]|]; [done|]. intros _ [[= -> <-]|?]%elem_of_cons.
  - simpl in E. by bools.
  - by apply IH.
Qed.

Lemma carve_tile_span need sz : span (carve_tile need sz) = sizeof_header + sz.
Proof. unfold carve_tile. case_if; simpl; lia. Qed.

Lemma merge_from_span sz fr bs : span (merge_from sz fr bs) = sizeof_header + sz + span bs.
Proof.
  revert sz fr. induction bs as [|[s f] bs IH]; intros sz fr; simpl; [lia|].
  case_if; [rewrite IH; simpl; lia | simpl; rewrite IH; lia].
Qed.

Lemma merge_from_live sz fr bs :
  live (merge_from sz fr bs) = (if fr then 0 else sz) + live bs.
Proof.
  revert sz fr. induction bs as [|[s f] bs IH]; intros sz fr; simpl; [done|].
  destruct (fr && f) eqn:E; bools.
  - subst. rewrite IH. done.
  - simpl. rewrite IH. lia.
Qed.

Lemma merge_from_head sz fr bs :
  exists sz' bs', merge_from sz fr bs = (sz', fr) :: bs'.
Proof.
  revert sz fr. induction bs as [|[s f] bs IH]; intros sz fr; simpl; [eauto|].
  destruct (fr && f) eqn:E; bools; [|eauto]. subst. apply IH.
Qed.

Lemma merge_from_coalesced sz fr bs : coalesced (merge_from sz fr bs).
Proof.
  revert sz fr. induction bs as [|[s f] bs IH]; intros sz fr; simpl; [done|].
  destruct (fr && f) eqn:E; [apply IH|].
  specialize (IH s f). destruct (merge_from_head s f bs) as (s'&bs'&Hm).
  rewrite Hm in *. done.
Qed.

Lemma merge_coalesced bs : coalesced (merge bs).
Proof. destruct bs as [|[sz fr] bs]; [done|]. apply merge_from_coalesced. Qed.

(** Merging does nothing on a coalesced tiling. *)
Lemma merge_from_id sz fr bs :
  coalesced ((sz, fr) :: bs) -> merge_from sz fr bs = (sz, fr) :: bs.
Proof.
  revert sz fr. induction bs as [|[s f] bs IH]; intros sz fr; simpl; [done|].
  intros [-> Hc]. by rewrite IH.
Qed.

(** Splitting a free tile in two free halves and merging gives it back. *)
Lemma merge_from_split sz fr pre a b post :
  coalesced ((sz, fr) :: pre ++ (a + (sizeof_header + b), true) :: post) ->
  merge_from sz fr (pre ++ (a, true) :: (b, true) :: post) =
    (sz, fr) :: pre ++ (a + (sizeof_header + b), true) :: post.
Proof.
  revert sz fr. induction pre as [|[s f] pre IH]; intros sz fr; simpl.
  - intros [-> Hc]. by rewrite merge_from_id.
  - intros [-> Hc]. by rewrite IH.
Qed.

Lemma merge_split pre a b post :
  coalesced (pre ++ (a + (sizeof_header + b), true) :: post) ->
  merge (pre ++ (a, true) :: (b, true) :: post) =
    pre ++ (a + (sizeof_header + b), true) :: post.
Proof.
  destruct pre as [|[s f] pre]; intros Hc; cbn [app merge] in *.
  - cbn [merge_from andb]. by apply merge_from_id.
  - by apply merge_from_split.
Qed.

Lemma merge_id bs : coalesced bs -> merge bs = bs.
Proof. destruct bs as [|[sz fr] bs]; [done | apply merge_from_id]. Qed.

Lemma coalesced_carve pre need sz post :
  coalesced (pre ++ (sz, true) :: post) -> coalesced (pre ++ carve_tile need sz ++ post).
Proof.
  induction pre as [|[s f] pre IH]; simpl.
  - unfold carve_tile. destruct post as [|[s' f'] post]; case_if; simpl; try done;
      intros [? ?]; done.
  - destruct pre as [|[s' f'] pre]; simpl in *.
    + intros [? Hc]. specialize (IH Hc). unfold carve_tile in *.
      case_if; simpl in *; (split; [apply andb_false_r | done]).
    + intros [? Hc]. split; [done | by apply IH].
Qed.

(** ** Lemmas on the representation *)

Lemma seg_app m stop p bs1 bs2 :
  seg m stop p (bs1 ++ bs2) <-> seg m stop p bs1 /\ seg m stop (p + span bs1) bs2.
Proof.
  revert p. induction bs1 as [|[sz fr] bs1 IH]; intros p; simpl.
  - rewrite Z.add_0_r. tauto.
  - rewrite IH. replace (p + (sizeof_header + sz + span bs1))
      with (p + sizeof_header + sz + span bs1) by lia. tauto.
Qed.

Lemma seg_span_nonneg m stop p bs : seg m stop p bs -> 0 <= span bs.
Proof.
  revert p. induction bs as [|[sz fr] bs IH]; intros p; simpl; [done|].
  intros (?&?&?&Hs). apply IH in Hs. unfold sizeof_header in *. lia.
Qed.

Lemma seg_span_mod m stop p bs : seg m stop p bs -> span bs mod 8 = 0.
Proof.
  revert p. induction bs as [|[sz fr] bs IH]; intros p; simpl; [done|].
  intros (?&?&?&Hs). apply IH in Hs. unfold sizeof_header in *. dlia.
Qed.

Lemma seg_live m stop p bs : seg m stop p bs -> 0 <= live bs <= span bs.
Proof.
  revert p. induction bs as [|[sz fr] bs IH]; intros p; simpl; [done|].
  intros (?&?&?&Hs). apply IH in Hs. unfold sizeof_header in *. destruct fr; lia.
Qed.

(** Only the headers inside the segment matter. *)
Lemma seg_frame m m' stop p bs :
  (forall a, p <= a < p + span bs -> m' !! a = m !! a) ->
  seg m stop p bs -> seg m' stop p bs.
Proof.
  revert p. induction bs as [|[sz fr] bs IH]; intros p Heq; simpl; [done|].
  intros (?&?&Hp&Hs). pose proof (seg_span_nonneg _ _ _ _ Hs) as Hn.
  simpl in Heq. unfold sizeof_header in *. split_and!; [done|done|by rewrite Heq by lia|].
  apply IH; [|done]. intros a Ha. apply Heq. lia.
Qed.

(** A segment that fits the memory has no more tiles than memory has headers. *)
Lemma seg_dom m stop p bs :
  seg m stop p bs ->
  exists X : gset Z, X ⊆ dom m /\ size X = length bs /\ (forall a, a ∈ X -> p <= a).
Proof.
  revert p. induction bs as [|[sz fr] bs IH]; intros p; simpl.
  - exists ∅. split_and!; [set_solver | apply size_empty | set_solver].
  - intros (?&?&Hp&Hs). destruct (IH _ Hs) as (X&?&Hsz&Hlo).
    unfold sizeof_header in *.
    exists ({[p]} ∪ X). split_and!.
    + apply elem_of_dom_2 in Hp. apply union_subseteq. split; [|done].
      by apply singleton_subseteq_l.
    + rewrite size_union, size_singleton, Hsz; [done|].
      intros a ->%elem_of_singleton Ha. apply Hlo in Ha. lia.
    + intros a [->%elem_of_singleton|Ha]%elem_of_union; [lia|]. apply Hlo in Ha. lia.
Qed.

Lemma seg_fuel m stop p bs : seg m stop p bs -> (length bs < walk_fuel m)%nat.
Proof.
  intros (X&HX&Hsz&_)%seg_dom. unfold walk_fuel.
  apply subseteq_size in HX. rewrite size_dom in HX. lia.
Qed.

#[local] Opaque walk_fuel.

(** The sanity test accepts every tile of a represented region. *)
Lemma block_between_tile m base len pre sz fr post :
  region_repr m base len (pre ++ (sz, fr) :: post) ->
  block_between m base (base + len) (base + span pre) = Some true.
Proof.
  intros (?&?&?&?&Hsp&Hseg). rewrite span_app in Hsp. simpl in Hsp.
  apply seg_app in Hseg as [Hpre Hpost]. simpl in Hpost. destruct Hpost as (?&?&Hp&Hpost).
  pose proof (seg_span_nonneg _ _ _ _ Hpre). pose proof (seg_span_nonneg _ _ _ _ Hpost).
  unfold block_between, sizeof_header in *.
  rewrite (u64_id (base + span pre + 24)) by lia.
  destruct (Z.ltb_spec (base + span pre) base); [lia|].
  destruct (Z.ltb_spec (base + len) (base + span pre + 24)); [lia|]. simpl.
  rewrite Hp. simpl.
  rewrite (u64_id (base + len - _)) by lia. rewrite u64_id by lia.
  destruct (Z.ltb_spec (base + len - (base + span pre) - 24) sz); [lia|done].
Qed.

(** What the walks see at a tile: a non-null address, an accepted block and the
    link to the following tile. *)
Lemma region_tile m base len pre sz fr post :
  region_repr m base len (pre ++ (sz, fr) :: post) ->
  let p := base + span pre in
  0 <= sz /\ sz mod 8 = 0 /\ 0 < p /\ base <= p /\
  p + sizeof_header + sz + span post = base + len /\ 0 <= span post /\
  link (base + len) p = p /\ block_between m base (base + len) p = Some true /\
  m !! p = Some (mk_header sz (link (base + len) (base + span (pre ++ [(sz, fr)]))) fr).
Proof.
  intros Hr p. pose proof (block_between_tile _ _ _ _ _ _ _ Hr) as Hb.
  destruct Hr as (Hb0&?&?&?&Hsp&Hseg). rewrite span_app in Hsp. simpl in Hsp.
  apply seg_app in Hseg as [Hpre Hpost]. simpl in Hpost. destruct Hpost as (?&?&Hp&Hpost).
  pose proof (seg_span_nonneg _ _ _ _ Hpre). pose proof (seg_span_nonneg _ _ _ _ Hpost).
  subst p. rewrite span_app. simpl. unfold sizeof_header in *.
  split_and!; try done; try lia.
  - unfold link. case_if; [lia|done].
  - rewrite Hp. do 3 f_equal. lia.
Qed.

Lemma link_end stop : link stop stop = 0.
Proof. unfold link. by rewrite Z.eqb_refl. Qed.

(** Address of the tile a search over [bs] stops at, NULL if none fits. *)
Definition fit_addr (need p : Z) (bs : list tile) : Z :=
  match first_fit need bs with
  | Some (pre, _, _) => p + span pre
  | None => 0
  end.

Lemma fit_addr_cons need p sz fr bs :
  fr && (need <=? sz) = false ->
  fit_addr need p ((sz, fr) :: bs) = fit_addr need (p + (sizeof_header + sz)) bs.
Proof.
  intros E. unfold fit_addr. simpl. rewrite E.
  destruct (first_fit need bs) as [[[pre s] post]|]; simpl; [lia|done].
Qed.

Lemma kheap_find_spec k m bs0 bs need fuel :
  region_repr m (kh_base k) (kh_size k) (bs0 ++ bs) -> (length bs < fuel)%nat ->
  kheap_find fuel k m need (link (kh_base k + kh_size k) (kh_base k + span bs0)) =
    Some (fit_addr need (kh_base k + span bs0) bs).
Proof.
  revert bs0 fuel. induction bs as [|[sz fr] bs IH]; intros bs0 fuel Hr Hf;
    (destruct fuel as [|fuel]; [simpl in Hf; lia|]).
  - rewrite app_nil_r in Hr. destruct Hr as (?&?&?&?&Hsp&?).
    rewrite Hsp, link_end. done.
  - pose proof (region_tile _ _ _ _ _ _ _ Hr) as (?&?&?&?&?&?&Hl&Hb&Hm).
    assert (u64 (kh_base k + kh_size k) = kh_base k + kh_size k) as Hu
      by (apply u64_id; destruct Hr as (?&?&?&?); unfold sizeof_header in *; lia).
    rewrite Hl. simpl. unfold kheap_block_ok. rewrite Hu, Hb, Hm.
    destruct (Z.eqb_spec (kh_base k + span bs0) 0); [lia|]. simpl.
    destruct (fr && (need <=? sz)) eqn:E.
    + unfold fit_addr. simpl. rewrite E. simpl. f_equal. lia.
    + rewrite IH; [|by rewrite <- app_assoc | simpl in Hf; lia].
      rewrite span_app, fit_addr_cons by done. simpl. do 2 f_equal. lia.
Qed.

Lemma kmalloc_find_spec h bs0 bs need fuel :
  region_repr (mem h) (g_heap_base h) (g_heap_size h) (bs0 ++ bs) ->
  (length bs < fuel)%nat ->
  kmalloc_find fuel h need
    (link (g_heap_base h + g_heap_size h) (g_heap_base h + span bs0)) =
    Some (fit_addr need (g_heap_base h + span bs0) bs).
Proof.
  revert bs0 fuel. induction bs as [|[sz fr] bs IH]; intros bs0 fuel Hr Hf;
    (destruct fuel as [|fuel]; [simpl in Hf; lia|]).
  - rewrite app_nil_r in Hr. destruct Hr as (?&?&?&?&Hsp&?).
    rewrite Hsp, link_end. done.
  - pose proof (region_tile _ _ _ _ _ _ _ Hr) as (?&?&?&?&?&?&Hl&Hb&Hm).
    assert (heap_end_addr h = g_heap_base h + g_heap_size h) as Hu
      by (apply u64_id; destruct Hr as (?&?&?&?); unfold sizeof_header in *; lia).
    rewrite Hl. simpl. unfold block_in_heap. rewrite Hu, Hb, Hm.
    destruct (Z.eqb_spec (g_heap_base h + span bs0) 0); [lia|]. simpl.
    destruct (fr && (need <=? sz)) eqn:E.
    + unfold fit_addr. simpl. rewrite E. simpl. f_equal. lia.
    + rewrite IH; [|by rewrite <- app_assoc | simpl in Hf; lia].
      rewrite span_app, fit_addr_cons by done. simpl. do 2 f_equal. lia.
Qed.

(** Carving a tile changes the tiling as specified. *)
Lemma carve_spec m base len pre sz post need :
  region_repr m base len (pre ++ (sz, true) :: post) ->
  0 <= need <= sz -> need mod 8 = 0 ->
  exists m' sz',
    carve m (base + span pre) need = Some m' /\
    region_repr m' base len (pre ++ carve_tile need sz ++ post) /\
    hdr_size <$> m' !! (base + span pre) = Some sz' /\
    live (carve_tile need sz) = sz' /\
    (forall a, a < base \/ base + len <= a -> m' !! a = m !! a).
Proof.
  intros Hr Hn Hn8.
  pose proof (region_tile _ _ _ _ _ _ _ Hr) as (?&Hsz8&?&?&?&?&_&_&Hm).
  destruct Hr as (?&?&?&?&Hsp&Hseg).
  apply seg_app in Hseg as [Hpre Hpost]. simpl in Hpost. destruct Hpost as (_&_&_&Hpost).
  pose proof (seg_span_nonneg _ _ _ _ Hpre).
  assert (8 <= base) by dlia.
  set (p := base + span pre) in *. rewrite span_app in Hm. simpl in Hm.
  assert (Hin : forall (m1 m2 : memory) q bs,
            (forall a, q <= a < q + span bs -> m2 !! a = m1 !! a) ->
            seg m1 (base + len) q bs -> seg m2 (base + len) q bs) by (intros; by eapply seg_frame).
  unfold carve. rewrite Hm. simpl. rewrite (u64_id (need + sizeof_header)), u64_id
    by (unfold sizeof_header in *; lia).
  unfold carve_tile. case_if.
  - rewrite (u64_id (p + sizeof_header)), (u64_id (sz - need)), !u64_id
      by (unfold sizeof_header in *; lia).
    unfold store_size, store_next, store_free, sizeof_header in *.
    rewrite (lookup_insert_ne m _ p) by lia. rewrite Hm. simpl.
    rewrite lookup_insert_eq. simpl. rewrite lookup_insert_eq. simpl.
    eexists _, need. split_and!; [done| |rewrite lookup_insert_eq; done|simpl; lia|].
    + split_and!; try done; [destruct pre; done | rewrite span_app in *; simpl in *; unfold sizeof_header in *; lia|].
      apply seg_app. split.
      { eapply Hin, Hpre. intros a Ha. rewrite !lookup_insert_ne by lia. done. }
      simpl. fold p. unfold sizeof_header. split_and!; try lia.
      * rewrite lookup_insert_eq. do 2 f_equal. unfold link. case_if; lia.
      * clear - Hsz8 Hn8. dlia.
      * rewrite !lookup_insert_ne by lia. rewrite lookup_insert_eq. do 2 f_equal. f_equal. lia.
      * replace (p + 24 + need + 24 + (sz - need - 24)) with (p + 24 + sz) by lia.
        eapply Hin, Hpost. intros a Ha. rewrite !lookup_insert_ne by lia. done.
    + intros a Ha. rewrite !lookup_insert_ne by lia. done.
  - unfold store_free, sizeof_header in *. simpl. rewrite Hm. simpl.
    eexists _, sz. split_and!; [done| |rewrite lookup_insert_eq; done|simpl; lia|].
    + split_and!; try done; [destruct pre; done | rewrite span_app in *; simpl in *; lia|].
      apply seg_app. split.
      { eapply Hin, Hpre. intros a Ha. rewrite !lookup_insert_ne by lia. done. }
      simpl. fold p. unfold sizeof_header. split_and!; try lia; try done.
      * rewrite lookup_insert_eq. do 3 f_equal. lia.
      * eapply Hin, Hpost. intros a Ha. rewrite !lookup_insert_ne by lia. done.
    + intros a Ha. rewrite !lookup_insert_ne by lia. done.
Qed.

(** ** Rounding of requests *)

Lemma round8_mod n : round8 n mod 8 = 0.
Proof. unfold round8. apply Z.mod_mul. lia. Qed.

Lemma round8_bounds n : n <= round8 n < n + 8.
Proof. unfold round8. dlia. Qed.

Lemma kmalloc_round size :
  0 <= size < 2 ^ 64 - 7 -> Z.land (u64 (size + 7)) (u64 (Z.lnot 7)) = round8 size.
Proof.
  intros. change (u64 (Z.lnot 7)) with (Z.ldiff (Z.ones 64) (Z.ones 3)).
  rewrite land_round by lia. rewrite (u64_id (size + 7)) by lia.
  rewrite Z.mod_small by lia. done.
Qed.

Lemma kheap_round size :
  0 <= size < 2 ^ 64 - 7 ->
  Z.land (u64 (size + 7)) (u32 (Z.lnot 7)) = (size + 7) mod 2 ^ 32 / 8 * 8.
Proof.
  intros. change (u32 (Z.lnot 7)) with (Z.ldiff (Z.ones 32) (Z.ones 3)).
  rewrite land_round by lia. by rewrite (u64_id (size + 7)) by lia.
Qed.

(** ** Allocation refines the specification *)

Lemma kmalloc_locked_spec h bs size :
  heap_repr h bs -> 0 <= size < 2 ^ 64 - 7 ->
  match alloc_spec (round8 size) (g_heap_base h) bs with
  | None => kmalloc_locked size h = Some (0, h)
  | Some (p, bs') =>
      exists h', kmalloc_locked size h = Some (p, h') /\ heap_repr h' bs' /\
        g_heap_base h' = g_heap_base h /\ g_heap_size h' = g_heap_size h /\
        g_heap_lock h' = g_heap_lock h
  end.
Proof.
  intros (Hr&Hst&Hu) Hs. unfold kmalloc_locked, alloc_spec. rewrite kmalloc_round by done.
  pose proof Hr as (?&?&?&?&?&Hseg).
  pose proof (kmalloc_find_spec h [] bs (round8 size) (walk_fuel (mem h)) Hr
                (seg_fuel _ _ _ _ Hseg)) as Hf.
  cbn [app span] in Hf. rewrite Z.add_0_r in Hf.
  assert (link (g_heap_base h + g_heap_size h) (g_heap_base h) = g_heap_start h) as Hl.
  { destruct bs as [|[sz fr] bs]; [done|].
    pose proof (region_tile _ _ _ [] _ _ _ Hr) as Ht. simpl in Ht.
    rewrite Z.add_0_r in Ht. rewrite Hst. tauto. }
  rewrite Hl in Hf. rewrite Hf. simpl. unfold fit_addr.
  destruct (first_fit (round8 size) bs) as [[[pre sz] post]|] eqn:E; simpl; [|done].
  apply first_fit_Some in E as [-> ?].
  pose proof (region_tile _ _ _ _ _ _ _ Hr) as (?&?&?&?&?&?&_&_&_).
  destruct (Z.eqb_spec (g_heap_base h + span pre) 0); [lia|].
  pose proof (round8_bounds size).
  destruct (carve_spec _ _ _ _ _ _ (round8 size) Hr) as (m'&sz'&Hc&Hr'&Hg&Hlv&_);
    [lia | apply round8_mod |].
  rewrite Hc. simpl. destruct (m' !! (g_heap_base h + span pre)) as [b|] eqn:Hb; [|done].
  simpl in Hg. injection Hg as Hg. simpl.
  rewrite (u64_id (g_heap_base h + span pre + _)) by (unfold sizeof_header in *; lia).
  eexists. split_and!; try done. split_and!; [done|done|].
  cbn [g_used set_used set_mem]. rewrite Hu, Hg.
  pose proof Hr' as (_&_&_&_&Hsp'&Hseg'). pose proof (seg_live _ _ _ _ Hseg') as Hlb.
  apply seg_app in Hseg as [Hs1 Hs2]. simpl in Hs2. destruct Hs2 as (_&_&_&Hs2).
  pose proof (seg_live _ _ _ _ Hs1). pose proof (seg_live _ _ _ _ Hs2).
  assert (0 <= sz') by (revert Hlv; unfold carve_tile; case_if; simpl; lia).
  rewrite !live_app, Hlv in *. simpl. rewrite u64_id; lia.
Qed.

(** ** Freeing refines the specification *)

(** Rewriting one header so that it covers the tiles [mid]. *)
Lemma region_insert m base len pre mid post sz f :
  region_repr m base len (pre ++ mid ++ post) -> mid <> [] ->
  span mid = sizeof_header + sz -> 0 <= sz -> sz mod 8 = 0 ->
  let p := base + span pre in
  region_repr (<[p := mk_header sz (link (base + len) (p + sizeof_header + sz)) f]> m)
    base len (pre ++ (sz, f) :: post).
Proof.
  intros (?&?&?&?&Hsp&Hseg) Hmid Hspm ?? p. rewrite !span_app in Hsp.
  apply seg_app in Hseg as [Hpre Hseg]. apply seg_app in Hseg as [Hm Hpost].
  pose proof (seg_span_nonneg _ _ _ _ Hpre). pose proof (seg_span_nonneg _ _ _ _ Hpost).
  rewrite Hspm in Hpost.
  split_and!; try done; [by destruct pre | rewrite span_app; simpl; lia |].
  apply seg_app. unfold p, sizeof_header in *. split.
  - eapply seg_frame, Hpre. intros a Ha. by rewrite lookup_insert_ne by lia.
  - simpl. split_and!; [done|done|apply lookup_insert_eq|].
    unfold sizeof_header.
    replace (base + span pre + 24 + sz) with (base + span pre + (24 + sz)) by lia.
    eapply seg_frame, Hpost. intros a Ha. by rewrite lookup_insert_ne by lia.
Qed.

Lemma coalesce_spec ok m base len bs0 sz fr bs fuel :
  (forall m' p, ok m' p = block_between m' base (base + len) p) ->
  region_repr m base len (bs0 ++ (sz, fr) :: bs) -> (length bs < fuel)%nat ->
  exists m', coalesce fuel ok m (base + span bs0) = Some m' /\
    region_repr m' base len (bs0 ++ merge_from sz fr bs) /\
    (forall a, a < base \/ base + len <= a -> m' !! a = m !! a).
Proof.
  intros Hok. revert m bs0 sz fr fuel.
  induction bs as [|[s f] bs IH]; intros m bs0 sz fr fuel Hr Hfuel;
    (destruct fuel as [|fuel]; [simpl in Hfuel; lia|]);
    pose proof (region_tile _ _ _ _ _ _ _ Hr) as (?&?&?&?&?&?&_&Hb&Hm);
    simpl; (destruct (Z.eqb_spec (base + span bs0) 0); [lia|]); rewrite Hm; simpl.
  - pose proof Hr as (_&_&_&_&Hsp&_). rewrite Hsp, link_end. simpl. by exists m.
  - assert (region_repr m base len ((bs0 ++ [(sz, fr)]) ++ (s, f) :: bs)) as Hr2
      by by rewrite <- app_assoc.
    pose proof (region_tile _ _ _ _ _ _ _ Hr2) as (?&?&?&?&?&?&Hl2&Hb2&Hm2).
    pose proof Hr as (_&_&Htop&_).
    rewrite Hl2, !Hok, Hb, Hb2. simpl. rewrite Hm2. unfold block_phys_next. rewrite Hm. simpl.
    rewrite span_app in *. simpl in *. unfold sizeof_header in *.
    destruct (Z.eqb_spec (base + (span bs0 + (24 + sz + 0))) 0); [lia|].
    rewrite (u64_id (base + span bs0 + 24)), (u64_id (base + span bs0 + 24 + sz)) by lia.
    destruct (Z.eqb_spec (base + span bs0 + 24 + sz) (base + (span bs0 + (24 + sz + 0)))); [|lia].
    rewrite andb_true_r. destruct (fr && f) eqn:E.
    + apply andb_true_iff in E as [-> ->]. unfold store_size, store_next. rewrite Hm. simpl.
      rewrite lookup_insert_eq. simpl. rewrite insert_insert_eq, !u64_id by (rewrite ?u64_id; lia).
      pose proof (region_insert m base len bs0 [(sz, true); (s, true)] bs
                    (sz + (24 + s)) true Hr) as Hr3.
      destruct (IH (<[base + span bs0 := mk_header (sz + (24 + s))
                       (link (base + len) (base + span bs0 + 24 + (sz + (24 + s)))) true]> m)
                  bs0 (sz + (24 + s)) true fuel) as (m'&Hc&Hr'&Hfr);
        [apply Hr3; [done|simpl; unfold sizeof_header; lia|lia|dlia] | simpl in Hfuel; lia |].
      rewrite !span_app. simpl. unfold sizeof_header.
      replace (base + (span bs0 + (24 + sz + 0) + (24 + s + 0)))
        with (base + span bs0 + 24 + (sz + (24 + s))) by lia.
      exists m'. split_and!; [done|done|]. intros a Ha. rewrite Hfr by done.
      by rewrite lookup_insert_ne by lia.
    + destruct (IH m (bs0 ++ [(sz, fr)]) s f fuel Hr2) as (m'&Hc&Hr'&Hfr);
        [simpl in Hfuel; lia|].
      rewrite span_app in Hc. simpl in Hc. unfold sizeof_header in *.
      exists m'. rewrite <- app_assoc in Hr'. eauto.
Qed.

Lemma merge_app_free pre sz post :
  exists s f bs, pre ++ (sz, true) :: post = (s, f) :: bs /\
    merge (pre ++ (sz, true) :: post) = merge_from s f bs.
Proof. destruct pre as [|[s f] pre]; simpl; eauto 10. Qed.

(** The part of freeing shared by both heaps: mark the block, then coalesce. *)
Lemma free_block_spec ok m base len pre sz post :
  (forall m' p, ok m' p = block_between m' base (base + len) p) ->
  region_repr m base len (pre ++ (sz, false) :: post) ->
  let p := base + span pre in
  exists m1 m2, store_free m p true = Some m1 /\
    coalesce (walk_fuel m1) ok m1 base = Some m2 /\
    region_repr m2 base len (merge (pre ++ (sz, true) :: post)) /\
    (forall a, a < base \/ base + len <= a -> m2 !! a = m !! a).
Proof.
  intros Hok Hr p. pose proof (region_tile _ _ _ _ _ _ _ Hr) as (?&?&?&?&?&?&_&_&Hm).
  pose proof (region_insert m base len pre [(sz, false)] post sz true Hr) as Hr1.
  simpl in Hr1. rewrite Z.add_0_r in Hr1. specialize (Hr1 ltac:(done) eq_refl ltac:(done) ltac:(done)).
  rewrite span_app in Hm. simpl in Hm.
  replace (base + (span pre + (sizeof_header + sz + 0)))
    with (base + span pre + sizeof_header + sz) in Hm by lia.
  unfold store_free. subst p. rewrite Hm. simpl.
  set (m1 := <[_ := _]> m) in *. destruct (merge_app_free pre sz post) as (s1&f1&bs1&E1&E2).
  rewrite E2. rewrite E1 in Hr1. pose proof Hr1 as (_&_&_&_&_&Hseg).
  destruct (coalesce_spec ok m1 base len [] s1 f1 bs1 (walk_fuel m1)) as (m2&Hc&Hr2&Hfr);
    [done|done|apply seg_fuel in Hseg; simpl in Hseg; lia|].
  simpl in Hc. rewrite Z.add_0_r in Hc. exists m1, m2. split_and!; [done..|].
  intros a Ha. rewrite Hfr by done. unfold m1. rewrite lookup_insert_ne; [done|].
  unfold sizeof_header in *. lia.
Qed.

Lemma kfree_locked_spec h pre sz post :
  heap_repr h (pre ++ (sz, false) :: post) ->
  exists h', kfree_locked (g_heap_base h + span pre + sizeof_header) h = Some h' /\
    heap_repr h' (merge (pre ++ (sz, true) :: post)) /\
    g_heap_base h' = g_heap_base h /\ g_heap_size h' = g_heap_size h /\
    g_heap_lock h' = g_heap_lock h.
Proof.
  intros (Hr&Hst&Hu). pose proof (region_tile _ _ _ _ _ _ _ Hr) as (?&?&?&?&?&?&_&Hb&Hm).
  pose proof Hr as (?&?&?&?&?&Hseg). apply seg_app in Hseg as [Hs1 Hs2].
  simpl in Hs2. destruct Hs2 as (_&_&_&Hs2).
  pose proof (seg_live _ _ _ _ Hs1). pose proof (seg_live _ _ _ _ Hs2).
  assert (heap_end_addr h = g_heap_base h + g_heap_size h) as He
    by (apply u64_id; unfold sizeof_header in *; lia).
  destruct (free_block_spec (fun m => block_between m (g_heap_base h) (heap_end_addr h))
              _ _ _ _ _ _ ltac:(by rewrite He) Hr) as (m1&m2&E1&E2&Hr2&_).
  unfold kfree_locked, block_in_heap. rewrite He in *.
  destruct (Z.eqb_spec (g_heap_base h + span pre + sizeof_header) 0) as [?|_];
    [unfold sizeof_header in *; lia|].
  rewrite Z.add_simpl_r, u64_id by (unfold sizeof_header in *; lia).
  rewrite Hb. simpl. rewrite Hm. simpl. rewrite E1. simpl. rewrite Hst, E2. simpl.
  eexists. split_and!; try done. split_and!; [done|done|]. simpl.
  rewrite Hu, live_app. simpl. destruct (Z.leb_spec sz (live pre + (sz + live post))); [|lia].
  destruct (merge_app_free pre sz post) as (s1&f1&bs1&E3&E4).
  rewrite E4, merge_from_live. change ((if f1 then 0 else s1) + live bs1) with (live ((s1, f1) :: bs1)).
  rewrite <- E3, live_app. simpl. lia.
Qed.

Lemma kfree_locked_null h : kfree_locked 0 h = Some h.
Proof. done. Qed.

(** A double free is ignored. *)
Lemma kfree_locked_double h pre sz post :
  heap_repr h (pre ++ (sz, true) :: post) ->
  kfree_locked (g_heap_base h + span pre + sizeof_header) h = Some h.
Proof.
  intros (Hr&Hst&Hu). pose proof (region_tile _ _ _ _ _ _ _ Hr) as (?&?&?&?&?&?&_&Hb&Hm).
  pose proof Hr as (?&?&?&?&?&_).
  unfold kfree_locked, block_in_heap. unfold heap_end_addr.
  rewrite (u64_id (g_heap_base h + g_heap_size h)) by (unfold sizeof_header in *; lia).
  destruct (Z.eqb_spec (g_heap_base h + span pre + sizeof_header) 0) as [?|_];
    [unfold sizeof_header in *; lia|].
  rewrite Z.add_simpl_r, u64_id by (unfold sizeof_header in *; lia).
  rewrite Hb. simpl. by rewrite Hm.
Qed.

(** ** Live payloads *)

Lemma payloads_app p bs1 bs2 :
  payloads p (bs1 ++ bs2) = payloads p bs1 ++ payloads (p + span bs1) bs2.
Proof.
  revert p. induction bs1 as [|[sz fr] bs1 IH]; intros p; simpl; [by rewrite Z.add_0_r|].
  rewrite IH, <- app_assoc. do 3 f_equal. lia.
Qed.

Lemma payloads_merge_from p sz fr bs :
  payloads p (merge_from sz fr bs) = payloads p ((sz, fr) :: bs).
Proof.
  revert p sz fr. induction bs as [|[s f] bs IH]; intros p sz fr; simpl; [done|].
  destruct (fr && f) eqn:E; bools.
  - subst. rewrite IH. simpl. f_equal. lia.
  - simpl. rewrite IH. done.
Qed.

Lemma payloads_merge p bs : payloads p (merge bs) = payloads p bs.
Proof. destruct bs as [|[sz fr] bs]; [done|]. apply payloads_merge_from. Qed.

Lemma payloads_range m stop p bs q n :
  seg m stop p bs -> (q, n) ∈ payloads p bs ->
  p + sizeof_header <= q /\ 0 <= n /\ q + n <= p + span bs /\ (q - p) mod 8 = 0.
Proof.
  revert p. induction bs as [|[sz fr] bs IH]; intros p; simpl; [by intros _ ?%elem_of_nil|].
  intros (?&?&?&Hs) [Hin|Hin]%elem_of_app.
  - pose proof (seg_span_nonneg _ _ _ _ Hs).
    destruct fr; [by apply elem_of_nil in Hin|].
    apply list_elem_of_singleton in Hin as [= -> ->]. split_and!; try lia.
    rewrite Z.add_simpl_l. done.
  - destruct (IH _ Hs Hin) as (?&?&?&?). unfold sizeof_header in *. split_and!; try lia. dlia.
Qed.

Lemma carve_tile_payloads p need sz :
  exists n, payloads p (carve_tile need sz) = [(p + sizeof_header, n)] /\
    (need <= sz -> need <= n).
Proof. unfold carve_tile. case_if; simpl; eexists; (split; [done|lia]). Qed.

(** ** Interface lemmas for the locked entry points *)

Lemma kmalloc_spec h bs size :
  heap_repr h bs -> g_heap_lock h = false -> 0 <= size < 2 ^ 64 - 7 ->
  match alloc_spec (round8 size) (g_heap_base h) bs with
  | None => kmalloc size h = Some (0, h)
  | Some (p, bs') =>
      exists h', kmalloc size h = Some (p, h') /\ heap_repr h' bs' /\
        g_heap_base h' = g_heap_base h /\ g_heap_size h' = g_heap_size h /\
        g_heap_lock h' = false
  end.
Proof.
  intros Hr Hlk Hs. unfold kmalloc, spin_lock. rewrite Hlk. simpl.
  pose proof (kmalloc_locked_spec (set_lock true h) bs size Hr Hs) as Hk. simpl in Hk.
  destruct (alloc_spec _ _ _) as [[p bs']|].
  - destruct Hk as (h'&->&?&?&?&?). eexists. by split_and!.
  - rewrite Hk. destruct h. simpl in *. by subst.
Qed.

Lemma kfree_spec h pre sz post :
  heap_repr h (pre ++ (sz, false) :: post) -> g_heap_lock h = false ->
  exists h', kfree (g_heap_base h + span pre + sizeof_header) h = Some h' /\
    heap_repr h' (merge (pre ++ (sz, true) :: post)) /\
    g_heap_base h' = g_heap_base h /\ g_heap_size h' = g_heap_size h /\
    g_heap_lock h' = false.
Proof.
  intros Hr Hlk. unfold kfree, spin_lock. rewrite Hlk. simpl.
  destruct (kfree_locked_spec (set_lock true h) pre sz post Hr) as (h'&E&?&?&?&?).
  simpl in E. rewrite E. eexists. by split_and!.
Qed.

Lemma kfree_null h : g_heap_lock h = false -> kfree 0 h = Some h.
Proof. intros Hlk. unfold kfree, spin_lock. rewrite Hlk. destruct h; simpl in *; by subst. Qed.

(** A held pointer is the payload of a used tile. *)
Lemma live_addrs_split p bs q :
  q ∈ live_addrs p bs ->
  exists pre sz post, bs = pre ++ (sz, false) :: post /\ q = p + span pre + sizeof_header.
Proof.
  unfold live_addrs. rewrite elem_of_list_to_set, list_elem_of_fmap.
  intros ([q' n]&->&Hin). simpl. revert p Hin.
  induction bs as [|[sz fr] bs IH]; intros p; simpl; [by intros ?%elem_of_nil|].
  intros [Hin|Hin]%elem_of_app.
  - destruct fr; [by apply elem_of_nil in Hin|].
    apply list_elem_of_singleton in Hin as [= -> ->]. exists [], sz, bs. simpl. split; [done|lia].
  - destruct (IH _ Hin) as (pre&s&post&->&->). exists ((sz, fr) :: pre), s, post.
    simpl. split; [done|lia].
Qed.

Lemma live_addrs_app p bs1 bs2 :
  live_addrs p (bs1 ++ bs2) = live_addrs p bs1 ∪ live_addrs (p + span bs1) bs2.
Proof. unfold live_addrs. rewrite payloads_app, fmap_app. apply list_to_set_app_L. Qed.

Lemma live_addrs_merge p bs : live_addrs p (merge bs) = live_addrs p bs.
Proof. unfold live_addrs. by rewrite payloads_merge. Qed.

Lemma live_addrs_cons p sz fr bs :
  live_addrs p ((sz, fr) :: bs) =
    (if (fr : bool) then ∅ else {[p + sizeof_header]}) ∪ live_addrs (p + sizeof_header + sz) bs.
Proof. unfold live_addrs. simpl. rewrite fmap_app, list_to_set_app_L. destruct fr; [done|]. simpl. by rewrite (right_id_L ∅ (∪)). Qed.

Lemma live_addrs_carve p need sz : live_addrs p (carve_tile need sz) = {[p + sizeof_header]}.
Proof.
  destruct (carve_tile_payloads p need sz) as (n&E&_). unfold live_addrs. rewrite E. simpl. by rewrite (right_id_L ∅ (∪)).
Qed.

Lemma live_addrs_range m stop p bs q :
  seg m stop p bs -> q ∈ live_addrs p bs -> p + sizeof_header <= q /\ q <= p + span bs.
Proof.
  unfold live_addrs. rewrite elem_of_list_to_set, list_elem_of_fmap.
  intros Hs ([q' n]&->&Hin). destruct (payloads_range _ _ _ _ _ _ Hs Hin) as (?&?&?&?).
  simpl. lia.
Qed.

(** ** Invariant of client histories *)

Lemma client_inv_init base len h :
  0 < base -> base mod 8 = 0 -> len mod 8 = 0 -> 24 <= len -> base + len < 2 ^ 64 ->
  g_heap_lock h = false ->
  client_inv base len (mk_client (kmalloc_init base len h) ∅).
Proof.
  intros. exists [(len - sizeof_header, true)].
  unfold heap_repr, region_repr, sizeof_header. simpl. unfold sizeof_header.
  split_and!; try done; try lia; try dlia.
  rewrite lookup_insert_eq, u64_id by lia.
  replace (base + 24 + (len - 24)) with (base + len) by lia. by rewrite link_end.
Qed.

Lemma client_inv_kmalloc base len c size :
  client_inv base len c -> 0 <= size < 2 ^ 64 - 7 ->
  exists p h', kmalloc size (cl_heap c) = Some (p, h') /\
    client_inv base len (mk_client h' (if p =? 0 then cl_live c else {[p]} ∪ cl_live c)).
Proof.
  intros (bs&Hr&Hc&<-&<-&Hlk&HL) Hs. pose proof (kmalloc_spec _ bs size Hr Hlk Hs) as Hk.
  unfold alloc_spec in Hk.
  destruct (first_fit (round8 size) bs) as [[[pre sz] post]|] eqn:E; simpl in Hk.
  - destruct Hk as (h'&Hk&Hr'&?&?&?). apply first_fit_Some in E as [-> ?].
    eexists _, h'. split; [done|].
    pose proof Hr as ((?&?&?&?&?&Hseg)&_&_). pose proof (seg_span_nonneg _ _ _ _ Hseg).
    apply seg_app in Hseg as [Hpre _]. pose proof (seg_span_nonneg _ _ _ _ Hpre).
    destruct (Z.eqb_spec (g_heap_base (cl_heap c) + span pre + sizeof_header) 0) as [?|_];
      [unfold sizeof_header in *; lia|].
    exists (pre ++ carve_tile (round8 size) sz ++ post).
    split_and!; try done; simpl; [by apply coalesced_carve|].
    rewrite HL, !live_addrs_app, live_addrs_carve, live_addrs_cons, carve_tile_span.
    replace (g_heap_base (cl_heap c) + span pre + (sizeof_header + sz))
      with (g_heap_base (cl_heap c) + span pre + sizeof_header + sz) by lia.
    clear. set_solver.
  - exists 0, (cl_heap c). split; [done|]. exists bs. by split_and!.
Qed.

Lemma client_inv_kfree base len c ptr :
  client_inv base len c -> ptr = 0 \/ ptr ∈ cl_live c ->
  exists h', kfree ptr (cl_heap c) = Some h' /\
    client_inv base len (mk_client h' (cl_live c ∖ {[ptr]})).
Proof.
  intros (bs&Hr&Hc&<-&<-&Hlk&HL) Hp. pose proof Hr as ((?&?&?&?&?&Hseg)&_&_).
  destruct (decide (ptr = 0)) as [->|Hne].
  { rewrite kfree_null by done. exists (cl_heap c). split; [done|].
    exists bs. split_and!; try done. simpl. rewrite HL.
    assert (0 ∉ live_addrs (g_heap_base (cl_heap c)) bs) as Hz; [|clear - Hz; set_solver].
    intros Hin. eapply live_addrs_range in Hin; [|done]. unfold sizeof_header in *. lia. }
  destruct Hp as [?|Hin]; [done|]. rewrite HL in Hin.
  destruct (live_addrs_split _ _ _ Hin) as (pre&sz&post&->&->).
  destruct (kfree_spec _ _ _ _ Hr Hlk) as (h'&->&Hr'&?&?&?).
  exists h'. split; [done|]. eexists. split_and!; try done; [apply merge_coalesced|]. simpl.
  rewrite HL, live_addrs_merge, !live_addrs_app, !live_addrs_cons.
  apply seg_app in Hseg as [Hpre Hpost]. simpl in Hpost. destruct Hpost as (?&?&?&Hpost).
  set (q := g_heap_base (cl_heap c) + span pre) in *.
  assert (q + sizeof_header ∉ live_addrs (g_heap_base (cl_heap c)) pre) as Hn1.
  { intros Hin1. eapply live_addrs_range in Hin1; [|done]. unfold sizeof_header in *. lia. }
  assert (q + sizeof_header ∉ live_addrs (q + sizeof_header + sz) post) as Hn2.
  { intros Hin1. eapply live_addrs_range in Hin1; [|done]. unfold sizeof_header in *. lia. }
  clear - Hn1 Hn2. set_solver.
Qed.

(** ** The auxiliary heaps refine the same specification *)

Lemma kheap_alloc_spec k m bs size :
  kheap_repr k m bs -> 0 <= size < 2 ^ 32 - 7 ->
  match alloc_spec (round8 size) (kh_base k) bs with
  | None => kheap_alloc k size m = Some (0, m)
  | Some (p, bs') =>
      exists m', kheap_alloc k size m = Some (p, m') /\ kheap_repr k m' bs' /\
        (forall a, a < kh_base k \/ kh_base k + kh_size k <= a -> m' !! a = m !! a)
  end.
Proof.
  intros (Hr&Hst) Hs. unfold kheap_alloc, alloc_spec. rewrite kheap_round by lia.
  rewrite (Z.mod_small (size + 7)) by lia. fold (round8 size).
  pose proof Hr as (?&?&?&?&?&Hseg).
  pose proof (kheap_find_spec k m [] bs (round8 size) (walk_fuel m) Hr
                (seg_fuel _ _ _ _ Hseg)) as Hf.
  cbn [app span] in Hf. rewrite Z.add_0_r in Hf.
  assert (link (kh_base k + kh_size k) (kh_base k) = kh_start k) as Hl.
  { destruct bs as [|[sz fr] bs]; [done|].
    pose proof (region_tile _ _ _ [] _ _ _ Hr) as Ht. simpl in Ht.
    rewrite Z.add_0_r in Ht. rewrite Hst. tauto. }
  rewrite Hl in Hf. rewrite Hf. simpl. unfold fit_addr.
  destruct (Z.eqb_spec (kh_start k) 0); [lia|].
  destruct (first_fit (round8 size) bs) as [[[pre sz] post]|] eqn:E; simpl; [|done].
  apply first_fit_Some in E as [-> ?].
  pose proof (region_tile _ _ _ _ _ _ _ Hr) as (?&?&?&?&?&?&_&_&_).
  destruct (Z.eqb_spec (kh_base k + span pre) 0); [lia|].
  pose proof (round8_bounds size).
  destruct (carve_spec _ _ _ _ _ _ (round8 size) Hr) as (m'&sz'&Hc&Hr'&_&_&Hfr);
    [lia | apply round8_mod |].
  rewrite Hc. simpl. rewrite u64_id by (unfold sizeof_header in *; lia). by exists m'.
Qed.

Lemma kheap_free_spec k m pre sz post :
  kheap_repr k m (pre ++ (sz, false) :: post) ->
  exists m', kheap_free k (kh_base k + span pre + sizeof_header) m = Some m' /\
    kheap_repr k m' (merge (pre ++ (sz, true) :: post)) /\
    (forall a, a < kh_base k \/ kh_base k + kh_size k <= a -> m' !! a = m !! a).
Proof.
  intros (Hr&Hst). pose proof (region_tile _ _ _ _ _ _ _ Hr) as (?&?&?&?&?&?&_&Hb&Hm).
  pose proof Hr as (?&?&?&?&?&_).
  assert (u64 (kh_base k + kh_size k) = kh_base k + kh_size k) as He
    by (apply u64_id; unfold sizeof_header in *; lia).
  destruct (free_block_spec (kheap_block_ok k) _ _ _ _ _ _
              ltac:(intros; unfold kheap_block_ok; by rewrite He) Hr) as (m1&m2&E1&E2&Hr2&Hfr).
  assert (kheap_block_ok k m (kh_base k + span pre) = Some true) as Hb'
    by (unfold kheap_block_ok; by rewrite He).
  unfold kheap_free.
  destruct (Z.eqb_spec (kh_base k + span pre + sizeof_header) 0) as [?|_];
    [unfold sizeof_header in *; lia|].
  rewrite Z.add_simpl_r, u64_id by (unfold sizeof_header in *; lia).
  rewrite Hb'. simpl. rewrite Hm. simpl. rewrite E1. simpl. rewrite Hst, E2. by exists m2.
Qed.

Lemma kheap_repr_frame k m m' bs :
  (forall a, kh_base k <= a < kh_base k + kh_size k -> m' !! a = m !! a) ->
  kheap_repr k m bs -> kheap_repr k m' bs.
Proof.
  intros Hfr ((?&?&?&?&Hsp&Hseg)&?). split; [|done]. split_and!; try done.
  eapply seg_frame, Hseg. rewrite Hsp. done.
Qed.

(** Walk of [kmalloc_get_free] over a represented heap. *)
Lemma free_walk_spec h bs0 bs acc fuel :
  region_repr (mem h) (g_heap_base h) (g_heap_size h) (bs0 ++ bs) ->
  (length bs < fuel)%nat -> 0 <= acc <= span bs0 ->
  free_walk fuel h acc (link (g_heap_base h + g_heap_size h) (g_heap_base h + span bs0)) =
    Some (acc + free_bytes bs).
Proof.
  revert bs0 acc fuel. induction bs as [|[sz fr] bs IH]; intros bs0 acc fuel Hr Hf Ha;
    (destruct fuel as [|fuel]; [simpl in Hf; lia|]).
  - rewrite app_nil_r in Hr. destruct Hr as (?&?&?&?&Hsp&?).
    rewrite Hsp, link_end. simpl. f_equal. lia.
  - pose proof (region_tile _ _ _ _ _ _ _ Hr) as (?&?&?&?&?&?&Hl&Hb&Hm).
    assert (heap_end_addr h = g_heap_base h + g_heap_size h) as Hu
      by (apply u64_id; destruct Hr as (?&?&?&?); unfold sizeof_header in *; lia).
    rewrite Hl. simpl. unfold block_in_heap. rewrite Hu, Hb, Hm.
    destruct (Z.eqb_spec (g_heap_base h + span bs0) 0); [lia|]. simpl.
    destruct Hr as (Hr0&Hr1&Hr2&Hr3&Hr4&Hr5). unfold sizeof_header in *.
    rewrite IH; [|by rewrite <- app_assoc | simpl in Hf; lia | rewrite span_app; simpl; unfold sizeof_header; destruct fr; rewrite ?u64_id by (rewrite ?u64_id; lia); lia].
    f_equal. destruct fr; rewrite ?u64_id by (rewrite ?u64_id; lia); lia.
Qed.

Lemma bytes_conserved bs :
  free_bytes bs + live bs + sizeof_header * Z.of_nat (length (payloads 0 bs)) = span bs.
Proof.
  generalize 0. induction bs as [|[sz fr] bs IH]; intros p; simpl; [unfold sizeof_header; lia|].
  rewrite length_app. specialize (IH (p + sizeof_header + sz)). unfold sizeof_header in *.
  destruct fr; simpl; lia.
Qed.

(** ** Properties *)

(** C2: on a well-formed heap, [kmalloc] never faults, and is first-fit: it
    either finds no free block large enough for the rounded request, returns
    NULL and changes nothing, or it returns the payload of the lowest free block
    that is large enough, carved to the request, and the heap stays well formed. *)
Theorem kmalloc_refines_first_fit h bs size :
  heap_repr h bs -> g_heap_lock h = false -> 0 <= size < 2 ^ 64 - 7 ->
  exists p h', kmalloc size h = Some (p, h') /\
    ((p = 0 /\ h' = h /\ forall sz, (sz, true) ∈ bs -> sz < round8 size) \/
     (exists pre sz post,
        bs = pre ++ (sz, true) :: post /\ round8 size <= sz /\
        (forall s, (s, true) ∈ pre -> s < round8 size) /\
        p = g_heap_base h + span pre + sizeof_header /\
        heap_repr h' (pre ++ carve_tile (round8 size) sz ++ post))).
Proof.
  intros Hr Hlk Hs. pose proof (kmalloc_spec _ _ _ Hr Hlk Hs) as Hk. unfold alloc_spec in Hk.
  destruct (first_fit (round8 size) bs) as [[[pre sz] post]|] eqn:E; simpl in Hk.
  - destruct Hk as (h'&Hk&Hr'&_). eexists _, h'. split; [done|]. right.
    pose proof (first_fit_Some _ _ _ _ _ E) as [-> ?]. exists pre, sz, post.
    split_and!; try done. intros s Hin. by eapply first_fit_pre.
  - exists 0, h. split; [done|]. left. split_and!; try done.
    intros sz. by apply first_fit_None.
Qed.

(** A heap of 256 bytes at 4096 and a client that holds nothing: the concrete
    instance the witnesses below run on. *)
Definition demo_heap : heap :=
  kmalloc_init 4096 256 (mk_heap ∅ 0 0 0 0 0 false).

Lemma demo_heap_inv : client_inv 4096 256 (mk_client demo_heap ∅).
Proof. apply client_inv_init; done. Qed.

Lemma demo_heap_repr : heap_repr demo_heap [(232, true)].
Proof.
  unfold heap_repr, region_repr, demo_heap, kmalloc_init. simpl.
  unfold sizeof_header. rewrite lookup_insert_eq. by split_and!.
Qed.

Lemma kmalloc_refines_first_fit_witness :
  exists p h', kmalloc 20 demo_heap = Some (p, h') /\
    ((p = 0 /\ h' = demo_heap /\ forall sz, (sz, true) ∈ [(232, true)] -> sz < round8 20) \/
     (exists pre sz post,
        [(232, true)] = pre ++ (sz, true) :: post /\ round8 20 <= sz /\
        (forall s, (s, true) ∈ pre -> s < round8 20) /\
        p = g_heap_base demo_heap + span pre + sizeof_header /\
        heap_repr h' (pre ++ carve_tile (round8 20) sz ++ post))).
Proof. apply (kmalloc_refines_first_fit demo_heap [(232, true)] 20); [apply demo_heap_repr | done | done]. Defined.

(** A successful [kmalloc] returns an 8-aligned pointer to at least [size]
    bytes inside the heap, and header and payload of the new block overlap the
    header or payload of no block that was live before; the live blocks
    afterwards are the old ones and the new one. *)
Theorem kmalloc_disjoint_from_live h bs size p h' :
  heap_repr h bs -> g_heap_lock h = false -> 0 <= size < 2 ^ 64 - 7 ->
  kmalloc size h = Some (p, h') -> p <> 0 ->
  p mod 8 = 0 /\ g_heap_base h + sizeof_header <= p /\
  p + size <= g_heap_base h + g_heap_size h /\
  (forall q n, (q, n) ∈ payloads (g_heap_base h) bs ->
     q + n <= p - sizeof_header \/ p + size <= q - sizeof_header) /\
  exists bs' n, heap_repr h' bs' /\ size <= n /\
    payloads (g_heap_base h) bs' ≡ₚ (p, n) :: payloads (g_heap_base h) bs.
Proof.
  intros Hr Hlk Hs Hk Hp0. pose proof (kmalloc_spec _ _ _ Hr Hlk Hs) as Hsp.
  unfold alloc_spec in Hsp.
  destruct (first_fit (round8 size) bs) as [[[pre sz] post]|] eqn:E; simpl in Hsp; [|congruence].
  destruct Hsp as (h2&Hk'&Hr'&_). rewrite Hk in Hk'. injection Hk' as -> <-.
  apply first_fit_Some in E as [-> Hle]. pose proof (round8_bounds size).
  destruct Hr as (Hr&_&_). pose proof (region_tile _ _ _ _ _ _ _ Hr) as (?&?&?&?&?&?&_&_&_).
  destruct Hr as (?&?&?&?&?&Hseg). apply seg_app in Hseg as [Hpre Hpost].
  simpl in Hpost. destruct Hpost as (_&_&_&Hpost).
  pose proof (seg_span_mod _ _ _ _ Hpre) as Hmod. unfold sizeof_header in *.
  split_and!; try lia; [dlia| |].
  - intros q n. rewrite payloads_app. simpl. intros [Hin|Hin]%elem_of_app.
    + destruct (payloads_range _ _ _ _ _ _ Hpre Hin) as (?&?&?&?). left. lia.
    + destruct (payloads_range _ _ _ _ _ _ Hpost Hin) as (?&?&?&?).
      unfold sizeof_header in *. right. lia.
  - destruct (carve_tile_payloads (g_heap_base h + span pre) (round8 size) sz) as (n&En&Hn).
    exists (pre ++ carve_tile (round8 size) sz ++ post), n. split_and!; [done|lia|].
    rewrite !payloads_app, En, carve_tile_span. unfold sizeof_header. simpl.
    replace (g_heap_base h + span pre + (24 + sz)) with (g_heap_base h + span pre + 24 + sz) by lia.
    by rewrite Permutation_middle.
Qed.

Lemma kmalloc_disjoint_from_live_witness :
  exists h1 h2 bs,
    kmalloc 40 demo_heap = Some (4120, h1) /\ kmalloc 8 h1 = Some (4184, h2) /\
    heap_repr h1 bs /\
    forall q n, (q, n) ∈ payloads 4096 bs -> q + n <= 4184 - 24 \/ 4184 + 8 <= q - 24.
Proof.
  destruct (kmalloc_disjoint_from_live demo_heap [(232, true)] 40 4120
              (default demo_heap (snd <$> kmalloc 40 demo_heap)))
    as (_&_&_&_&bs&n&Hr&_&_);
    [apply demo_heap_repr | done | done | vm_compute; done | done |].
  exists (default demo_heap (snd <$> kmalloc 40 demo_heap)).
  exists (default demo_heap (snd <$> kmalloc 8 (default demo_heap (snd <$> kmalloc 40 demo_heap)))).
  exists bs. split_and!; [vm_compute; done | vm_compute; done | done |].
  destruct (kmalloc_disjoint_from_live (default demo_heap (snd <$> kmalloc 40 demo_heap)) bs 8 4184
           (default demo_heap (snd <$> kmalloc 8 (default demo_heap (snd <$> kmalloc 40 demo_heap)))))
    as (_&_&_&Hd&_);
    [done | vm_compute; done | done | vm_compute; done | done | exact Hd].
Defined.

(** Freeing a live block is defined, marks exactly that block free, merges
    it with its free neighbours so that no two adjacent blocks are free, and
    removes exactly its payload from the live ones. *)
Theorem kfree_coalesces h pre sz post :
  heap_repr h (pre ++ (sz, false) :: post) -> g_heap_lock h = false ->
  exists h', kfree (g_heap_base h + span pre + sizeof_header) h = Some h' /\
    heap_repr h' (merge (pre ++ (sz, true) :: post)) /\
    coalesced (merge (pre ++ (sz, true) :: post)) /\
    g_used h' = g_used h - sz /\ g_heap_lock h' = false /\
    payloads (g_heap_base h) (pre ++ (sz, false) :: post) ≡ₚ
      (g_heap_base h + span pre + sizeof_header, sz) ::
      payloads (g_heap_base h) (merge (pre ++ (sz, true) :: post)).
Proof.
  intros Hr Hlk. destruct (kfree_spec _ _ _ _ Hr Hlk) as (h'&Hk&Hr'&Hb&Hs&Hl).
  exists h'. split_and!; try done; [apply merge_coalesced| |].
  - destruct Hr as (_&_&->), Hr' as (_&_&->). destruct (merge_app_free pre sz post) as (s1&f1&bs1&E3&E4).
    rewrite E4, merge_from_live.
    change ((if f1 then 0 else s1) + live bs1) with (live ((s1, f1) :: bs1)).
    rewrite <- E3, !live_app. simpl. lia.
  - rewrite payloads_merge, !payloads_app. simpl. by rewrite <- Permutation_middle.
Qed.

Lemma kfree_coalesces_witness :
  exists h1 h2, kmalloc 40 demo_heap = Some (4120, h1) /\ kfree 4120 h1 = Some h2 /\
    heap_repr h2 [(232, true)].
Proof.
  destruct (kmalloc_spec demo_heap [(232, true)] 40 demo_heap_repr eq_refl ltac:(done))
    as (h1&Hk&Hr&Hb&_&Hl).
  destruct (kfree_coalesces h1 [] 40 [(168, true)] Hr Hl) as (h2&Hf&Hr2&_).
  exists h1, h2. rewrite Hb in Hf. by split_and!.
Defined.

Lemma client_inv_steps base len c c' :
  client_inv base len c -> rtc client_step c c' -> client_inv base len c'.
Proof.
  intros Hi Hrtc. induction Hrtc as [|c1 c2 c3 Hstep Hrtc IH]; [done|]. apply IH.
  destruct Hstep as [size p h h' L Hs Hk|ptr h h' L Hp Hk].
  - destruct (client_inv_kmalloc _ _ _ size Hi Hs) as (p2&h2&Hk2&Hi2).
    simpl in *. rewrite Hk in Hk2. by injection Hk2 as <- <-.
  - destruct (client_inv_kfree _ _ _ ptr Hi Hp) as (h2&Hk2&Hi2).
    simpl in *. rewrite Hk in Hk2. by injection Hk2 as <-.
Qed.

(** C10: from an initialised heap, after every history of client calls (frees
    only of NULL or held pointers): the blocks tile the heap exactly, no two
    adjacent blocks are free, the byte count in use is the sum of the live
    blocks, the held pointers are exactly the live blocks, and the next call of
    either function is defined, whatever its size. *)
Theorem heap_history_safe base len h c :
  0 < base -> base mod 8 = 0 -> len mod 8 = 0 -> 24 <= len -> base + len < 2 ^ 64 ->
  g_heap_lock h = false ->
  rtc client_step (mk_client (kmalloc_init base len h) ∅) c ->
  (exists bs, region_repr (mem (cl_heap c)) base len bs /\ coalesced bs /\
     g_used (cl_heap c) = live bs /\ cl_live c = live_addrs base bs) /\
  (forall size, 0 <= size < 2 ^ 64 - 7 -> exists r, kmalloc size (cl_heap c) = Some r) /\
  (forall ptr, ptr = 0 \/ ptr ∈ cl_live c -> exists h', kfree ptr (cl_heap c) = Some h').
Proof.
  intros ?????? Hrtc. pose proof (client_inv_steps base len _ c (client_inv_init base len h
    ltac:(done) ltac:(done) ltac:(done) ltac:(done) ltac:(done) ltac:(done)) Hrtc) as Hi.
  split_and!.
  - destruct Hi as (bs&(Hr&_&Hu)&Hc&<-&<-&_&HL). by exists bs.
  - intros size Hs. destruct (client_inv_kmalloc _ _ _ size Hi Hs) as (p&h'&->&_). eauto.
  - intros ptr Hp. destruct (client_inv_kfree _ _ _ ptr Hi Hp) as (h'&->&_). eauto.
Qed.

Lemma heap_history_safe_witness :
  exists h1, kmalloc 40 demo_heap = Some (4120, h1) /\
    (exists bs, region_repr (mem h1) 4096 256 bs /\ coalesced bs /\
       g_used h1 = live bs /\ ({[4120]} ∪ ∅ : gset Z) = live_addrs 4096 bs) /\
    (exists h2, kfree 4120 h1 = Some h2).
Proof.
  set (h1 := default demo_heap (snd <$> kmalloc 40 demo_heap)).
  assert (kmalloc 40 demo_heap = Some (4120, h1)) as Hk by (vm_compute; done).
  exists h1. split; [done|].
  destruct (heap_history_safe 4096 256 (mk_heap ∅ 0 0 0 0 0 false)
              (mk_client h1 ({[4120]} ∪ ∅))) as (H1&_&H3); try done.
  - eapply rtc_l; [|apply rtc_refl].
    apply (step_kmalloc 40 4120 demo_heap h1 ∅); [done | done].
  - split; [exact H1 | apply H3; right; simpl; set_solver].
Defined.

(** On a coalesced heap, allocating and then freeing the block gives back
    the same tiling and the same count of used bytes. *)
Theorem kmalloc_kfree_restores h bs size p h1 :
  heap_repr h bs -> coalesced bs -> g_heap_lock h = false ->
  0 <= size < 2 ^ 64 - 7 -> kmalloc size h = Some (p, h1) -> p <> 0 ->
  exists h2, kfree p h1 = Some h2 /\ heap_repr h2 bs /\ g_used h2 = g_used h.
Proof.
  intros Hr Hc Hlk Hs Hk Hp0. pose proof (kmalloc_spec _ _ _ Hr Hlk Hs) as Hsp.
  unfold alloc_spec in Hsp.
  destruct (first_fit (round8 size) bs) as [[[pre sz] post]|] eqn:E; simpl in Hsp; [|congruence].
  destruct Hsp as (h1'&Hk'&Hr1&Hb1&_&Hl1). rewrite Hk in Hk'. injection Hk' as -> <-.
  apply first_fit_Some in E as [-> Hle].
  assert (exists n rest, carve_tile (round8 size) sz ++ post = (n, false) :: rest /\
            merge (pre ++ (n, true) :: rest) = pre ++ (sz, true) :: post) as (n&rest&Ec&Em).
  { unfold carve_tile. case_if; simpl.
    - do 2 eexists. split; [done|].
      replace sz with (round8 size + (sizeof_header + (sz - round8 size - sizeof_header))) in Hc by lia.
      rewrite merge_split by done. do 3 f_equal. lia.
    - do 2 eexists. split; [done|]. by apply merge_id. }
  rewrite Ec in Hr1. destruct (kfree_spec h1 pre n rest Hr1 Hl1) as (h2&Hf&Hr2&_).
  rewrite Em in Hr2. rewrite Hb1 in Hf. exists h2. split_and!; [done|done|].
  destruct Hr as (_&_&->), Hr2 as (_&_&->). done.
Qed.

Lemma kmalloc_kfree_restores_witness :
  exists h1 h2, kmalloc 100 demo_heap = Some (4120, h1) /\ kfree 4120 h1 = Some h2 /\
    heap_repr h2 [(232, true)].
Proof.
  exists (default demo_heap (snd <$> kmalloc 100 demo_heap)).
  destruct (kmalloc_kfree_restores demo_heap [(232, true)] 100 4120
              (default demo_heap (snd <$> kmalloc 100 demo_heap))) as (h2&Hf&Hr&_);
    [apply demo_heap_repr | done | done | done | vm_compute; done | done |].
  exists h2. split_and!; [vm_compute; done | done | done].
Defined.

(** The image heap and the graphics heap are isolated when their regions
    are disjoint: allocating or freeing in one is defined and leaves the tiling
    of the other as it was. *)
Theorem aux_heaps_isolated x gbs ibs size pre sz post :
  kheap_repr (g_gfx_heap x) (aux_mem x) gbs ->
  kheap_repr (g_img_heap x) (aux_mem x) ibs ->
  kh_base (g_gfx_heap x) + kh_size (g_gfx_heap x) <= kh_base (g_img_heap x) \/
  kh_base (g_img_heap x) + kh_size (g_img_heap x) <= kh_base (g_gfx_heap x) ->
  0 <= size < 2 ^ 32 - 7 -> ibs = pre ++ (sz, false) :: post ->
  (exists p x', image_alloc size x = Some (p, x') /\
     kheap_repr (g_gfx_heap x') (aux_mem x') gbs /\
     exists ibs', kheap_repr (g_img_heap x') (aux_mem x') ibs') /\
  (exists x', image_free (kh_base (g_img_heap x) + span pre + sizeof_header) x = Some x' /\
     kheap_repr (g_gfx_heap x') (aux_mem x') gbs /\
     kheap_repr (g_img_heap x') (aux_mem x') (merge (pre ++ (sz, true) :: post))).
Proof.
  intros Hg Hi Hd Hs ->. split.
  - pose proof (kheap_alloc_spec _ _ _ _ Hi Hs) as Hk. unfold image_alloc.
    destruct (alloc_spec _ _ _) as [[p ibs']|].
    + destruct Hk as (m'&->&Hi'&Hfr). simpl. do 2 eexists. split_and!; [done| |by eexists].
      eapply kheap_repr_frame, Hg. simpl. intros a Ha. apply Hfr. lia.
    + rewrite Hk. simpl. do 2 eexists. split_and!; [done|done|by eexists].
  - destruct (kheap_free_spec _ _ _ _ _ Hi) as (m'&Hk&Hi'&Hfr). unfold image_free. rewrite Hk.
    simpl. eexists. split_and!; [done| |done].
    eapply kheap_repr_frame, Hg. simpl. intros a Ha. apply Hfr. lia.
Qed.

(** Two adjacent auxiliary heaps, with one image of 40 bytes allocated. *)
Definition demo_aux : aux_heaps :=
  default (mk_aux ∅ (mk_kheap 0 0 0) (mk_kheap 0 0 0))
    (snd <$> image_alloc 40
       (image_heap_init 8192 256 (gfx_heap_init 4096 256
          (mk_aux ∅ (mk_kheap 0 0 0) (mk_kheap 0 0 0))))).

Lemma demo_aux_repr :
  kheap_repr (g_gfx_heap demo_aux) (aux_mem demo_aux) [(232, true)] /\
  kheap_repr (g_img_heap demo_aux) (aux_mem demo_aux) [(40, false); (168, true)].
Proof.
  unfold kheap_repr, region_repr. simpl. unfold sizeof_header.
  split_and!; try done; vm_compute; done.
Qed.

Lemma aux_heaps_isolated_witness :
  (exists p x', image_alloc 16 demo_aux = Some (p, x') /\
     kheap_repr (g_gfx_heap x') (aux_mem x') [(232, true)]) /\
  (exists x', image_free (kh_base (g_img_heap demo_aux) + span [] + sizeof_header) demo_aux = Some x' /\
     kheap_repr (g_gfx_heap x') (aux_mem x') [(232, true)]).
Proof.
  destruct demo_aux_repr as [Hg Hi].
  destruct (aux_heaps_isolated demo_aux [(232, true)] [(40, false); (168, true)] 16
              [] 40 [(168, true)]) as [(p&x1&H1&H2&_) (x2&H3&H4&_)];
    [done | done | left; vm_compute; done | done | done |].
  split; [exists p, x1; exact (conj H1 H2) | exists x2; exact (conj H3 H4)].
Defined.

(** [kmalloc_get_free] reports the free blocks with their headers, and
    together with the live payloads and their headers they account for every
    byte of the heap. *)
Theorem kmalloc_get_free_accounts h bs :
  heap_repr h bs -> g_heap_lock h = false ->
  kmalloc_get_free h = Some (free_bytes bs) /\
  free_bytes bs + kmalloc_get_used h +
    sizeof_header * Z.of_nat (length (payloads 0 bs)) = kmalloc_get_total h.
Proof.
  intros (Hr&Hst&Hu) Hlk. pose proof Hr as (?&?&?&?&Hsp&Hseg). split.
  - unfold kmalloc_get_free, spin_lock. rewrite Hlk. simpl.
    pose proof (free_walk_spec (set_lock true h) [] bs 0 (walk_fuel (mem h)) Hr
                  (seg_fuel _ _ _ _ Hseg) ltac:(simpl; lia)) as Hf.
    cbn [app span] in Hf. rewrite Z.add_0_r in Hf. cbn [mem g_heap_base g_heap_size set_lock] in Hf.
    rewrite Z.add_0_l in Hf. rewrite <- Hf. f_equal.
    destruct bs as [|[sz fr] bs]; [done|].
    pose proof (region_tile _ _ _ [] _ _ _ Hr) as Ht. simpl in Ht.
    rewrite Z.add_0_r in Ht. rewrite Hst. symmetry. tauto.
  - unfold kmalloc_get_used, kmalloc_get_total. rewrite Hu, <- Hsp. apply bytes_conserved.
Qed.

Lemma kmalloc_get_free_accounts_witness :
  kmalloc_get_free demo_heap = Some (free_bytes [(232, true)]) /\
  free_bytes [(232, true)] + kmalloc_get_used demo_heap +
    sizeof_header * Z.of_nat (length (payloads 0 [(232, true)])) = kmalloc_get_total demo_heap.
Proof. apply (kmalloc_get_free_accounts demo_heap [(232, true)]); [apply demo_heap_repr | done]. Defined.

(** The rounding of a request can drop its upper part: a request within 7
    bytes of the address-space size is served by [kmalloc] as a request for 0
    bytes, and the auxiliary heaps serve a request of [2 ^ 32 + n] bytes with a
    block of [n] bytes. *)
Theorem oversized_requests_alias n size k m h :
  0 <= n < 2 ^ 32 - 7 -> 2 ^ 64 - 7 <= size < 2 ^ 64 ->
  kheap_alloc k (2 ^ 32 + n) m = kheap_alloc k n m /\ kmalloc size h = kmalloc 0 h.
Proof.
  intros Hn Hs. split.
  - unfold kheap_alloc. rewrite !kheap_round by lia.
    replace (2 ^ 32 + n + 7) with (n + 7 + 1 * 2 ^ 32) by lia. by rewrite Z.mod_add by lia.
  - unfold kmalloc, kmalloc_locked. change (u64 (Z.lnot 7)) with (Z.ldiff (Z.ones 64) (Z.ones 3)).
    rewrite !land_round by lia. unfold u64. rewrite !Z.mod_mod by lia.
    replace (size + 7) with (size + 7 - 2 ^ 64 + 1 * 2 ^ 64) by lia. rewrite Z.mod_add by lia.
    rewrite !(Z.mod_small (_ + _)), (Z.mod_small (size + 7 - _)) by lia.
    rewrite (Z.div_small (size + 7 - 2 ^ 64)) by lia. done.
Qed.

Lemma oversized_requests_alias_witness :
  kheap_alloc (g_img_heap demo_aux) (2 ^ 32 + 16) (aux_mem demo_aux) =
    kheap_alloc (g_img_heap demo_aux) 16 (aux_mem demo_aux) /\
  kmalloc (2 ^ 64 - 1) demo_heap = kmalloc 0 demo_heap.
Proof. apply (oversized_requests_alias 16 (2 ^ 64 - 1)); lia. Defined.

End KAlloc.
