(* ===== verification/KString.v ===== *)
(** * KString: the kernel's memory and string routines (kernel/src/string.c)

    Memory is one flat byte array; a pointer is an index into it and 0 is NULL.
    [None] is an access outside memory.  The x86 routines use the string
    instructions: [rep movsb] copies byte by byte upwards, and downwards with the
    direction flag set.

    The theorems relate the copy loops to one-shot block updates ([splice]) and
    the string functions to the C string stored at an address ([cstr]). *)

From Stdlib Require Import ZArith Lia Bool ZifyBool.
From stdpp Require Import base numbers option list list_numbers.
From S2P Require Import Prelude.

Open Scope Z_scope.

Module KString.

Abbreviation bytes := (list Z).

(** ** Block operations *)

(** [rep movsb] with the direction flag clear: [n] bytes, upwards. *)
Definition rep_movsb_up (m : bytes) (dst src n : Z) : option bytes :=
  foldM (fun i m => b ← aget m (src + i); aset m (dst + i) b) (seqZ 0 n) m.

(** [std; rep movsb; cld]: [n] bytes downwards from the last byte of each block. *)
Definition rep_movsb_down (m : bytes) (dst src n : Z) : option bytes :=
  foldM (fun i m => b ← aget m (src + (n - 1 - i)); aset m (dst + (n - 1 - i)) b)
    (seqZ 0 n) m.

Definition memcpy (m : bytes) (dst src n : Z) : option bytes := rep_movsb_up m dst src n.

Definition memmove (m : bytes) (out inp n : Z) : option bytes :=
  if (out =? inp) || (n =? 0) then Some m
  else if (out <? inp) || (inp + n <=? out) then memcpy m out inp n
  else rep_movsb_down m out inp n.

(** The plain C version for ARM64: the direction depends on [d < s] only. *)
Definition memmove_arm64 (m : bytes) (d s n : Z) : option bytes :=
  if (d =? s) || (n =? 0) then Some m
  else if d <? s then rep_movsb_up m d s n
  else rep_movsb_down m d s n.

Definition memset (m : bytes) (dst value n : Z) : option bytes :=
  foldM (fun i m => aset m (dst + i) (u8 value)) (seqZ 0 n) m.

(** [n] 32-bit stores of [value], little endian. *)
Definition memset32 (m : bytes) (dst value n : Z) : option bytes :=
  foldM (fun i m => splice m (dst + 4 * i) (le_enc 4 (u32 value))) (seqZ 0 n) m.

Fixpoint memcmp_from (fuel : nat) (m : bytes) (left right count i : Z) : option Z :=
  match fuel with
  | O => None
  | S fuel' =>
      if i <? count then
        a ← aget m (left + i);
        b ← aget m (right + i);
        if negb (a =? b) then Some (a - b)
        else memcmp_from fuel' m left right count (i + 1)
      else Some 0
  end.

Definition memcmp (m : bytes) (left right count : Z) : option Z :=
  memcmp_from (S (Z.to_nat count)) m left right count 0.

(** ** C strings *)

(** A loop over a string leaves memory before it runs more steps than this. *)
Definition str_fuel (m : bytes) : nat := S (length m).

Fixpoint string_length_from (fuel : nat) (m : bytes) (text length : Z) : option Z :=
  match fuel with
  | O => None
  | S fuel' =>
      c ← aget m (text + length);
      if negb (c =? 0) then string_length_from fuel' m text (length + 1)
      else Some length
  end.

Definition string_length (m : bytes) (text : Z) : option Z :=
  if text =? 0 then Some 0 else string_length_from (str_fuel m) m text 0.

Definition strlen (m : bytes) (text : Z) : option Z := string_length m text.

Fixpoint strcmp_from (fuel : nat) (m : bytes) (left right : Z) : option Z :=
  match fuel with
  | O => None
  | S fuel' =>
      a ← aget m left;
      b ← aget m right;
      if negb (a =? 0) && negb (b =? 0) && (a =? b)
      then strcmp_from fuel' m (left + 1) (right + 1)
      else Some (a - b)
  end.

Definition strcmp (m : bytes) (left right : Z) : option Z :=
  if (left =? 0) && (right =? 0) then Some 0
  else if left =? 0 then Some (-1)
  else if right =? 0 then Some 1
  else strcmp_from (str_fuel m) m left right.

(** Copy bytes up to and including the terminator. *)
Fixpoint strcpy_from (fuel : nat) (m : bytes) (dest src : Z) : option bytes :=
  match fuel with
  | O => None
  | S fuel' =>
      c ← aget m src;
      m' ← aset m dest c;
      if negb (c =? 0) then strcpy_from fuel' m' (dest + 1) (src + 1) else Some m'
  end.

Definition strcpy (m : bytes) (dest src : Z) : option bytes :=
  if (dest =? 0) || (src =? 0) then Some m
  else strcpy_from (str_fuel m) m dest src.

(** The copying loop of [strncpy]; returns memory, [dest] and [count] where it
    stops.  The step that stores the terminator advances [dest] but leaves
    [count] as it is. *)
Fixpoint strncpy_copy (fuel : nat) (m : bytes) (dest src count : Z)
    : option (bytes * Z * Z) :=
  match fuel with
  | O => None
  | S fuel' =>
      if 0 <? count then
        c ← aget m src;
        m' ← aset m dest c;
        if negb (c =? 0) then strncpy_copy fuel' m' (dest + 1) (src + 1) (count - 1)
        else Some (m', dest + 1, count)
      else Some (m, dest, count)
  end.

Definition strncpy (m : bytes) (dest src count : Z) : option bytes :=
  if (dest =? 0) || (src =? 0) then Some m
  else
    '(m', d, c) ← strncpy_copy (S (Z.to_nat count)) m dest src count;
    foldM (fun i m => aset m (d + i) 0) (seqZ 0 c) m'.

Fixpoint strrchr_from (fuel : nat) (m : bytes) (str c last : Z) : option Z :=
  match fuel with
  | O => None
  | S fuel' =>
      b ← aget m str;
      if b =? 0 then Some last
      else strrchr_from fuel' m (str + 1) c (if b =? u8 c then str else last)
  end.

Definition strrchr (m : bytes) (str c : Z) : option Z :=
  if str =? 0 then Some 0 else strrchr_from (str_fuel m) m str c 0.

(** ** Reference definitions *)

(** Copy of a block as one update from the original contents. *)
Definition block_copy (m : bytes) (dst src n : Z) : option bytes :=
  s ← slice m src n; splice m dst s.

(** The string [s] (no zero byte inside) is stored at [p], with its terminator. *)
Fixpoint cstr (m : bytes) (p : Z) (s : list Z) : Prop :=
  match s with
  | [] => aget m p = Some 0
  | c :: s' => c <> 0 /\ aget m p = Some c /\ cstr m (p + 1) s'
  end.

(** Difference at the first position where two strings differ, the terminator
    counting as 0. *)
Fixpoint str_diff (s t : list Z) : Z :=
  match s, t with
  | [], [] => 0
  | a :: _, [] => a
  | [], b :: _ => - b
  | a :: s', b :: t' => if a =? b then str_diff s' t' else a - b
  end.

(** Index of the last occurrence. *)
Fixpoint last_index (c : Z) (s : list Z) : option Z :=
  match s with
  | [] => None
  | a :: s' =>
      match last_index c s' with
      | Some i => Some (i + 1)
      | None => if a =? c then Some 0 else None
      end
  end.

(** ** Lemmas on the copy loops *)

Lemma seqZ_lookup_Z n k i : seqZ 0 n !! k = Some i -> i = Z.of_nat k /\ 0 <= i < n.
Proof. intros [-> ?]%lookup_seqZ. lia. Qed.

(** Memory in which the bytes [dst + lo, dst + hi) have been copied from [src]. *)
Definition copied (m m' : bytes) (dst src lo hi : Z) : Prop :=
  length m' = length m /\
  forall j, aget m' j =
    if (dst + lo <=? j) && (j <? dst + hi) then aget m (src + (j - dst)) else aget m j.

Lemma copied_done m m' dst src n :
  0 <= dst -> 0 <= src -> 0 <= n ->
  dst + n <= Z.of_nat (length m) -> src + n <= Z.of_nat (length m) ->
  copied m m' dst src 0 n -> block_copy m dst src n = Some m'.
Proof.
  intros ????? [Hl Hg]. unfold block_copy.
  assert (slice m src n = Some (take (Z.to_nat n) (drop (Z.to_nat src) m))) as Hs
    by (by apply slice_ok).
  rewrite Hs. simpl. pose proof (slice_length _ _ _ _ Hs) as Hsl.
  assert (exists r, splice m dst (take (Z.to_nat n) (drop (Z.to_nat src) m)) = Some r) as [r Hr]
    by (eexists; apply splice_ok; lia).
  rewrite Hr. f_equal. apply list_eq_aget.
  { rewrite Hl. by eapply splice_length. }
  intros j _. rewrite Hg. rewrite Z.add_0_r. case_if.
  - rewrite (aget_splice_in _ _ _ _ _ Hr) by lia.
    by rewrite (aget_slice _ _ _ _ _ Hs) by lia.
  - apply andb_false_iff in Heqb. eapply aget_splice_out; [done|].
    rewrite Hsl. destruct Heqb; bools; lia.
Qed.

Lemma copied_init m dst src lo : copied m m dst src lo lo.
Proof.
  split; [done|]. intros j.
  destruct (Z.leb_spec (dst + lo) j), (Z.ltb_spec j (dst + lo)); simpl; done || lia.
Qed.

(** One more byte at either end. *)
Lemma copied_step_up m m1 m2 dst src i b :
  0 <= i -> copied m m1 dst src 0 i -> aget m (src + i) = Some b ->
  aset m1 (dst + i) b = Some m2 -> copied m m2 dst src 0 (i + 1).
Proof.
  intros Hi [Hl Hg] Hb Hs. split; [by rewrite (aset_length _ _ _ _ Hs)|]. intros j.
  destruct (decide (j = dst + i)) as [->|Hne].
  - rewrite (aget_aset_eq _ _ _ _ Hs).
    destruct (Z.leb_spec (dst + 0) (dst + i)), (Z.ltb_spec (dst + i) (dst + (i + 1))); try lia.
    simpl. rewrite <- Hb. f_equal. lia.
  - rewrite (aget_aset_ne _ _ _ _ _ Hs) by done. rewrite Hg.
    destruct (Z.leb_spec (dst + 0) j), (Z.ltb_spec j (dst + i)), (Z.ltb_spec j (dst + (i + 1)));
      simpl; done || lia.
Qed.

Lemma copied_step_down m m1 m2 dst src n i b :
  0 <= i < n -> copied m m1 dst src (n - i) n -> aget m (src + (n - 1 - i)) = Some b ->
  aset m1 (dst + (n - 1 - i)) b = Some m2 -> copied m m2 dst src (n - (i + 1)) n.
Proof.
  intros Hi [Hl Hg] Hb Hs. split; [by rewrite (aset_length _ _ _ _ Hs)|]. intros j.
  destruct (decide (j = dst + (n - 1 - i))) as [->|Hne].
  - rewrite (aget_aset_eq _ _ _ _ Hs).
    destruct (Z.leb_spec (dst + (n - (i + 1))) (dst + (n - 1 - i))),
      (Z.ltb_spec (dst + (n - 1 - i)) (dst + n)); try lia.
    simpl. rewrite <- Hb. f_equal. lia.
  - rewrite (aget_aset_ne _ _ _ _ _ Hs) by done. rewrite Hg.
    destruct (Z.leb_spec (dst + (n - i)) j), (Z.ltb_spec j (dst + n)),
      (Z.leb_spec (dst + (n - (i + 1))) j); simpl; done || lia.
Qed.

Section Copy.
Context (m : bytes) (dst src n : Z).
Hypothesis Hdst : 0 <= dst /\ dst + n <= Z.of_nat (length m).
Hypothesis Hsrc : 0 <= src /\ src + n <= Z.of_nat (length m).
Hypothesis Hn : 0 <= n.

(** Upwards is right when the destination starts below the source or behind it. *)
Lemma rep_movsb_up_spec :
  dst <= src \/ src + n <= dst -> rep_movsb_up m dst src n = block_copy m dst src n.
Proof.
  intros Hdir. unfold rep_movsb_up.
  destruct (foldM_inv (fun k m' => copied m m' dst src 0 (Z.of_nat k))
              (fun i m => b ← aget m (src + i); aset m (dst + i) b) (seqZ 0 n) m)
    as (m'&E&Hc).
  - apply copied_init.
  - intros k i m1 [-> Hi]%seqZ_lookup_Z Hc. pose proof Hc as [Hl Hg].
    destruct (aget_lt m (src + Z.of_nat k)) as [b Hb]; [lia|].
    assert (aget m1 (src + Z.of_nat k) = Some b) as ->.
    { rewrite Hg. destruct (Z.leb_spec (dst + 0) (src + Z.of_nat k)),
        (Z.ltb_spec (src + Z.of_nat k) (dst + Z.of_nat k)); simpl; done || lia. }
    simpl. rewrite aset_ok by lia. eexists. split; [done|].
    replace (Z.of_nat (S k)) with (Z.of_nat k + 1) by lia.
    eapply copied_step_up; [lia | done | done | by apply aset_ok; lia].
  - rewrite E. symmetry. rewrite length_seqZ, Z2Nat.id in Hc by lia.
    apply copied_done; try lia. done.
Qed.

(** Downwards is right when the destination starts inside or behind the source. *)
Lemma rep_movsb_down_spec :
  src <= dst -> rep_movsb_down m dst src n = block_copy m dst src n.
Proof.
  intros Hdir. unfold rep_movsb_down.
  destruct (foldM_inv (fun k m' => copied m m' dst src (n - Z.of_nat k) n)
              (fun i m => b ← aget m (src + (n - 1 - i)); aset m (dst + (n - 1 - i)) b)
              (seqZ 0 n) m) as (m'&E&Hc).
  - rewrite Z.sub_0_r. apply copied_init.
  - intros k i m1 [-> Hi]%seqZ_lookup_Z Hc. pose proof Hc as [Hl Hg].
    destruct (aget_lt m (src + (n - 1 - Z.of_nat k))) as [b Hb]; [lia|].
    assert (aget m1 (src + (n - 1 - Z.of_nat k)) = Some b) as ->.
    { rewrite Hg. destruct (Z.leb_spec (dst + (n - Z.of_nat k)) (src + (n - 1 - Z.of_nat k)));
        simpl; [lia|done]. }
    simpl. rewrite aset_ok by lia. eexists. split; [done|].
    replace (Z.of_nat (S k)) with (Z.of_nat k + 1) by lia.
    eapply copied_step_down; [lia | done | done | by apply aset_ok; lia].
  - rewrite E. symmetry. rewrite length_seqZ, Z2Nat.id, Z.sub_diag in Hc by lia.
    apply copied_done; try lia. done.
Qed.

Lemma block_copy_self_or_empty : dst = src \/ n = 0 -> block_copy m dst src n = Some m.
Proof.
  intros Hc. apply copied_done; try lia. split; [done|]. intros j.
  destruct (Z.leb_spec (dst + 0) j), (Z.ltb_spec j (dst + n)); simpl; try done.
  destruct Hc as [->| ->]; [f_equal; lia | lia].
Qed.

Lemma memmove_spec : memmove m dst src n = block_copy m dst src n.
Proof.
  unfold memmove, memcpy. destruct (Z.eqb_spec dst src), (Z.eqb_spec n 0); simpl;
    try (symmetry; apply block_copy_self_or_empty; lia).
  destruct (Z.ltb_spec dst src), (Z.leb_spec (src + n) dst); simpl;
    try (apply rep_movsb_up_spec; lia). apply rep_movsb_down_spec. lia.
Qed.

Lemma memmove_arm64_spec : memmove_arm64 m dst src n = block_copy m dst src n.
Proof.
  unfold memmove_arm64. destruct (Z.eqb_spec dst src), (Z.eqb_spec n 0); simpl;
    try (symmetry; apply block_copy_self_or_empty; lia).
  destruct (Z.ltb_spec dst src); [apply rep_movsb_up_spec | apply rep_movsb_down_spec]; lia.
Qed.
End Copy.

(** ** Lemmas on C strings *)

Lemma cstr_bound m p s : cstr m p s -> 0 <= p /\ p + Z.of_nat (length s) < Z.of_nat (length m).
Proof.
  revert p. induction s as [|c s IH]; intros p; simpl.
  - intros ?%aget_Some_lt. lia.
  - intros (_&?%aget_Some_lt&Hs). apply IH in Hs. lia.
Qed.

Lemma cstr_fuel m p s : cstr m p s -> (length s < str_fuel m)%nat.
Proof. intros ?%cstr_bound. unfold str_fuel. lia. Qed.

Lemma cstr_frame m m' p s :
  (forall i, p <= i <= p + Z.of_nat (length s) -> aget m' i = aget m i) ->
  cstr m p s -> cstr m' p s.
Proof.
  revert p. induction s as [|c s IH]; intros p Hf; simpl.
  - intros. by rewrite Hf by (simpl; lia).
  - intros (?&?&?). simpl in Hf. split_and!; [done | by rewrite Hf by lia |].
    apply IH; [|done]. intros i Hi. apply Hf. lia.
Qed.

Lemma string_length_from_spec fuel m p s n :
  cstr m (p + n) s -> (length s < fuel)%nat ->
  string_length_from fuel m p n = Some (n + Z.of_nat (length s)).
Proof.
  revert n fuel. induction s as [|c s IH]; intros n fuel Hs Hf;
    (destruct fuel as [|fuel]; [simpl in Hf; lia|]); simpl in Hs |- *.
  - rewrite Hs. simpl. f_equal. lia.
  - destruct Hs as (Hc&->&Hs). simpl. destruct (Z.eqb_spec c 0); [done|]. simpl.
    rewrite IH; [f_equal; lia | by rewrite Z.add_assoc | simpl in Hf; lia].
Qed.

Lemma strcmp_from_spec fuel m p q s t :
  cstr m p s -> cstr m q t -> (length s < fuel)%nat ->
  strcmp_from fuel m p q = Some (str_diff s t).
Proof.
  revert p q t fuel. induction s as [|a s IH]; intros p q t fuel Hs Ht Hf;
    (destruct fuel as [|fuel]; [simpl in Hf; lia|]); destruct t as [|b t]; simpl in Hs, Ht |- *.
  - by rewrite Hs, Ht.
  - destruct Ht as (?&->&_). rewrite Hs. simpl. done.
  - destruct Hs as (?&->&_). rewrite Ht. simpl. rewrite andb_false_r. simpl. f_equal. lia.
  - destruct Hs as (?&->&Hs), Ht as (?&->&Ht). simpl.
    destruct (Z.eqb_spec a 0), (Z.eqb_spec b 0); try done. simpl.
    destruct (Z.eqb_spec a b); [|done]. apply IH; [done|done|simpl in Hf; lia].
Qed.

Lemma str_diff_eq s t :
  Forall (fun c => c <> 0) s -> Forall (fun c => c <> 0) t -> str_diff s t = 0 <-> s = t.
Proof.
  intros Hs. revert t. induction Hs as [|a s Ha Hs IH]; intros [|b t] Ht; simpl; try done.
  - apply Forall_cons in Ht as [? ?]. split; [lia | done].
  - apply Forall_cons in Ht as [? Ht]. destruct (Z.eqb_spec a b) as [->|].
    + rewrite IH by done. split; [by intros -> | by intros [= ->]].
    + split; [lia | intros [= -> _]; done].
Qed.

Lemma cstr_nonzero m p s : cstr m p s -> Forall (fun c => c <> 0) s.
Proof.
  revert p. induction s as [|c s IH]; intros p; simpl; [constructor|].
  intros (?&_&?). constructor; [done | by eapply IH].
Qed.

Lemma strrchr_from_spec fuel m p s c last :
  cstr m p s -> (length s < fuel)%nat ->
  strrchr_from fuel m p c last =
    Some (match last_index (u8 c) s with Some i => p + i | None => last end).
Proof.
  revert p fuel last. induction s as [|a s IH]; intros p fuel last Hs Hf;
    (destruct fuel as [|fuel]; [simpl in Hf; lia|]); simpl in Hs |- *.
  - by rewrite Hs.
  - destruct Hs as (?&->&Hs). simpl. destruct (Z.eqb_spec a 0); [done|].
    rewrite IH by (done || simpl in Hf; lia). f_equal.
    destruct (last_index (u8 c) s) as [i|]; [lia|]. destruct (a =? u8 c); [lia|done].
Qed.

(** Bytes the copying loop of [strncpy] stores. *)
Definition strncpy_bytes (s : list Z) (count : Z) : list Z :=
  if Z.of_nat (length s) <? count then s ++ [0] else take (Z.to_nat count) s.

Lemma strncpy_bytes_0 s : strncpy_bytes s 0 = [].
Proof. unfold strncpy_bytes. destruct (Z.ltb_spec (Z.of_nat (length s)) 0); [lia|done]. Qed.

Lemma strncpy_copy_spec fuel m dest src count s :
  cstr m src s -> 0 <= count -> (Z.to_nat count < fuel)%nat ->
  0 <= dest -> dest + Z.of_nat (length (strncpy_bytes s count)) <= Z.of_nat (length m) ->
  dest + Z.of_nat (length (strncpy_bytes s count)) <= src \/ src + Z.of_nat (length s) < dest ->
  exists m', splice m dest (strncpy_bytes s count) = Some m' /\
    strncpy_copy fuel m dest src count =
      Some (m', dest + Z.of_nat (length (strncpy_bytes s count)),
            Z.max 0 (count - Z.of_nat (length s))).
Proof.
  revert fuel m dest src count. induction s as [|c s IH]; intros fuel m dest src count Hs Hc Hf Hd Hb Hdis;
    (destruct fuel as [|fuel]; [lia|]); cbn [strncpy_copy];
    (destruct (Z.ltb_spec 0 count); [|
       assert (count = 0) as -> by lia; rewrite strncpy_bytes_0 in *; simpl in Hb |- *;
       exists m; rewrite splice_nil by lia; split; [done|]; repeat f_equal; lia]).
  - simpl in Hs. rewrite Hs. simpl. unfold strncpy_bytes in *. simpl in *.
    change (Z.of_nat 0) with 0 in *. destruct (Z.ltb_spec 0 count); [|lia]. simpl in *.
    rewrite aset_ok by lia. simpl. eexists. split; [apply aset_splice, aset_ok; lia|].
    repeat f_equal; lia.
  - simpl in Hs. destruct Hs as (Hc0&Hg&Hs). rewrite Hg. simpl.
    assert (strncpy_bytes (c :: s) count = c :: strncpy_bytes s (count - 1)) as Hcons.
    { unfold strncpy_bytes. simpl length.
      destruct (Z.ltb_spec (Z.of_nat (S (length s))) count),
        (Z.ltb_spec (Z.of_nat (length s)) (count - 1)); try lia; [done|].
      replace (Z.to_nat count) with (S (Z.to_nat (count - 1))) by lia. done. }
    rewrite Hcons in *. simpl length in *.
    rewrite aset_ok by lia. simpl. destruct (Z.eqb_spec c 0); [done|]. simpl.
    assert (aset m dest c = Some (<[Z.to_nat dest := c]> m)) as Ha by (apply aset_ok; lia).
    destruct (IH fuel (<[Z.to_nat dest := c]> m) (dest + 1) (src + 1) (count - 1)) as (m'&Hsp&E);
      try lia.
    + eapply cstr_frame, Hs. intros i Hi. eapply aget_aset_ne; [done|lia].
    + rewrite length_insert. lia.
    + rewrite E. exists m'. split; [|do 2 f_equal; [f_equal; lia | lia]].
      change (c :: strncpy_bytes s (count - 1)) with ([c] ++ strncpy_bytes s (count - 1)).
      eapply splice_app; [apply aset_splice, Ha | done].
Qed.

(** ** Properties *)

(** Both versions of [memmove] (x86 string instructions, ARM64 loops) copy
    the block as it was before the call, whatever the overlap of the two blocks,
    and change nothing else. *)
Theorem memmove_overlap_correct m dst src n :
  0 <= n -> 0 <= dst -> dst + n <= Z.of_nat (length m) ->
  0 <= src -> src + n <= Z.of_nat (length m) ->
  exists m', memmove m dst src n = Some m' /\ memmove_arm64 m dst src n = Some m' /\
    slice m' dst n = slice m src n /\
    (forall i, i < dst \/ dst + n <= i -> aget m' i = aget m i).
Proof.
  intros. rewrite memmove_spec, memmove_arm64_spec by lia. unfold block_copy.
  assert (slice m src n = Some (take (Z.to_nat n) (drop (Z.to_nat src) m))) as Hs
    by (apply slice_ok; lia).
  rewrite Hs. simpl. pose proof (slice_length _ _ _ _ Hs) as Hl.
  destruct (splice m dst (take (Z.to_nat n) (drop (Z.to_nat src) m))) as [m'|] eqn:Hsp;
    [|rewrite splice_ok in Hsp by lia; done].
  exists m'. split_and!; try done.
  - apply slice_splice_eq in Hsp. by rewrite Hl in Hsp.
  - intros i Hi. eapply aget_splice_out; [done | lia].
Qed.

Lemma memmove_overlap_correct_witness :
  exists m', memmove [9; 1; 2; 3; 4; 5] 2 1 3 = Some m' /\
    memmove_arm64 [9; 1; 2; 3; 4; 5] 2 1 3 = Some m' /\
    slice m' 2 3 = slice [9; 1; 2; 3; 4; 5] 1 3 /\
    (forall i, i < 2 \/ 2 + 3 <= i -> aget m' i = aget [9; 1; 2; 3; 4; 5] i).
Proof. apply (memmove_overlap_correct [9; 1; 2; 3; 4; 5] 2 1 3); simpl; lia. Defined.

(** On two strings in memory, [strcmp] terminates inside them, returns 0
    exactly when they are equal, and otherwise the difference of the first bytes
    that differ (a terminator counting as 0). *)
Theorem strcmp_correct m p q s t :
  0 < p -> 0 < q -> cstr m p s -> cstr m q t ->
  strcmp m p q = Some (str_diff s t) /\ (str_diff s t = 0 <-> s = t).
Proof.
  intros ?? Hs Ht. unfold strcmp.
  destruct (Z.eqb_spec p 0), (Z.eqb_spec q 0); try lia. cbn [andb]. split.
  - apply strcmp_from_spec; [done | done | by eapply cstr_fuel].
  - apply str_diff_eq; by eapply cstr_nonzero.
Qed.

Lemma strcmp_correct_witness :
  strcmp [0; 104; 105; 0; 104; 106; 0] 1 4 = Some (str_diff [104; 105] [104; 106]) /\
  (str_diff [104; 105] [104; 106] = 0 <-> [104; 105] = [104; 106]).
Proof.
  apply (strcmp_correct [0; 104; 105; 0; 104; 106; 0] 1 4 [104; 105] [104; 106]);
    simpl; try lia; split_and!; done || lia.
Defined.

(** [strncpy] copies the first [count] bytes of a long source, but for a
    source shorter than [count] it stores the string, its terminator and then
    [count] minus its length further zeros: [count + 1] bytes in all, one past
    the buffer. *)
Theorem strncpy_writes m dest src count s :
  0 < dest -> 0 < src -> 0 <= count -> cstr m src s ->
  dest + count + 1 <= Z.of_nat (length m) ->
  dest + count + 1 <= src \/ src + Z.of_nat (length s) < dest ->
  strncpy m dest src count =
    splice m dest
      (if Z.of_nat (length s) <? count
       then s ++ replicate (Z.to_nat (count + 1) - length s) 0
       else take (Z.to_nat count) s).
Proof.
  intros Hd Hs0 Hc Hs Hb Hdis. unfold strncpy.
  destruct (Z.eqb_spec dest 0), (Z.eqb_spec src 0); try lia. cbn [orb].
  assert (Z.of_nat (length (strncpy_bytes s count)) <= count) as Hlen.
  { unfold strncpy_bytes. destruct (Z.ltb_spec (Z.of_nat (length s)) count); len. }
  destruct (strncpy_copy_spec (S (Z.to_nat count)) m dest src count s) as (m'&Hsp&E); try lia; [done|].
  rewrite E. cbn [mbind option_bind]. unfold strncpy_bytes in *.
  pose proof (splice_length _ _ _ _ Hsp) as Hl. destruct (Z.ltb_spec (Z.of_nat (length s)) count).
  - rewrite length_app in *. simpl length in *.
    rewrite fill_spec by lia.
    assert (exists m2, splice m' (dest + Z.of_nat (length s + 1))
              (replicate (Z.to_nat (Z.max 0 (count - Z.of_nat (length s)))) 0) = Some m2) as [m2 Hm2].
    { eexists. apply splice_ok; rewrite ?length_replicate; lia. }
    rewrite Hm2. symmetry.
    replace (s ++ replicate (Z.to_nat (count + 1) - length s) 0)
      with ((s ++ [0]) ++ replicate (Z.to_nat (Z.max 0 (count - Z.of_nat (length s)))) 0).
    + eapply splice_app; [done|]. by rewrite length_app.
    + rewrite <- app_assoc. f_equal.
      replace (Z.to_nat (count + 1) - length s)%nat
        with (S (Z.to_nat (Z.max 0 (count - Z.of_nat (length s))))) by lia. done.
  - rewrite Z.max_l by lia. simpl. by rewrite Hsp.
Qed.

Lemma strncpy_writes_witness :
  strncpy [0; 7; 7; 7; 7; 7; 97; 98; 0] 1 6 4 =
    splice [0; 7; 7; 7; 7; 7; 97; 98; 0] 1
      (if Z.of_nat (length [97; 98]) <? 4
       then [97; 98] ++ replicate (Z.to_nat (4 + 1) - length [97; 98]) 0
       else take (Z.to_nat 4) [97; 98]) /\
  strncpy [0; 7; 7; 7; 7; 7; 97; 98; 0] 1 6 4 = Some [0; 97; 98; 0; 0; 0; 97; 98; 0].
Proof.
  split; [|vm_compute; done].
  apply (strncpy_writes [0; 7; 7; 7; 7; 7; 97; 98; 0] 1 6 4 [97; 98]); simpl; try lia.
  split_and!; done || lia.
Defined.

End KString.
