(* ===== verification/Fd.v ===== *)
(** * Fd: file-descriptor tables and their dispatch (kernel/src/fd.c,
    kernel/src/syscall.c)

    A descriptor table has 16 entries; each used entry names a table of
    operations (the C struct [fd_ops] of function pointers) and an object.  The
    operations are a record of functions over the state [W] of the devices, so
    that the terminal and pseudo-terminal components supply their own; a missing
    operation is [None], as a NULL function pointer is in C.  A NULL table is
    [None] too. *)

From Stdlib Require Import ZArith Lia Bool ZifyBool.
From stdpp Require Import base numbers option list list_numbers.
From S2P Require Import Prelude.

Open Scope Z_scope.

Module Fd.

(** ** Error numbers (enum in syscall.h) *)

Definition SYSCALL_EBADF : Z := 9.
Definition SYSCALL_EINVAL : Z := 22.
Definition SYSCALL_EMFILE : Z := 24.
Definition SYSCALL_ENOSYS : Z := 38.

Definition FD_TABLE_CAPACITY : Z := 16.

Section Fd.
Context {W : Type}.

(** [struct fd_ops].  [op_read obj buffer count w] returns the C result, the
    bytes stored at [buffer] and the new state; [op_write obj data count w]
    reads the [count] bytes [data] ([None] for a NULL buffer); [op_ioctl]
    returns the value stored through [arg], if any.  [None] is undefined
    behaviour of the device. *)
Record fd_ops := mk_ops {
  op_read : option (Z -> Z -> Z -> W -> option (Z * list Z * W));
  op_write : option (Z -> option (list Z) -> Z -> W -> option (Z * W));
  op_ioctl : option (Z -> Z -> Z -> W -> option (Z * option Z * W)) }.

Record fd_entry := mk_entry {
  ops : option fd_ops;
  object : Z;
  used : bool }.

Definition empty_entry : fd_entry := mk_entry None 0 false.

(** Clear every entry, in order. *)
Definition fd_table_init (t : list fd_entry) : option (list fd_entry) :=
  foldM (fun i t => aset t i empty_entry) (seqZ 0 FD_TABLE_CAPACITY) t.

Definition fd_bind (table : option (list fd_entry)) (fd : Z) (o : option fd_ops) (obj : Z)
    : option (Z * option (list fd_entry)) :=
  match table, o with
  | Some t, Some _ =>
      if (fd <? 0) || (FD_TABLE_CAPACITY <=? fd) then Some (- SYSCALL_EINVAL, table)
      else t' ← aset t fd (mk_entry o obj true); Some (fd, Some t')
  | _, _ => Some (- SYSCALL_EINVAL, table)
  end.

(** The scan of [fd_alloc] from [fd] upwards. *)
Fixpoint fd_alloc_from (fuel : nat) (t : list fd_entry) (o : fd_ops) (obj fd : Z)
    : option (Z * list fd_entry) :=
  match fuel with
  | O => None
  | S fuel' =>
      if fd <? FD_TABLE_CAPACITY then
        e ← aget t fd;
        if negb (used e) then
          t' ← aset t fd (mk_entry (Some o) obj true); Some (fd, t')
        else fd_alloc_from fuel' t o obj (fd + 1)
      else Some (- SYSCALL_EMFILE, t)
  end.

Definition fd_alloc (table : option (list fd_entry)) (o : option fd_ops) (obj start_fd : Z)
    : option (Z * option (list fd_entry)) :=
  match table, o with
  | Some t, Some ops' =>
      if start_fd <? 0 then Some (- SYSCALL_EINVAL, table)
      else
        '(r, t') ← fd_alloc_from 17 t ops' obj start_fd;
        Some (r, Some t')
  | _, _ => Some (- SYSCALL_EINVAL, table)
  end.

Definition fd_close (table : option (list fd_entry)) (fd : Z) : option (Z * option (list fd_entry)) :=
  match table with
  | None => Some (- SYSCALL_EBADF, table)
  | Some t =>
      if (fd <? 0) || (FD_TABLE_CAPACITY <=? fd) then Some (- SYSCALL_EBADF, table)
      else
        e ← aget t fd;
        if negb (used e) then Some (- SYSCALL_EBADF, table)
        else t' ← aset t fd empty_entry; Some (0, Some t')
  end.

(** The guard of the dispatching functions: a used entry with an operation. *)
Definition fd_op {F} (table : option (list fd_entry)) (fd : Z) (sel : fd_ops -> option F)
    : option (option (F * Z)) :=
  match table with
  | None => Some None
  | Some t =>
      if (fd <? 0) || (FD_TABLE_CAPACITY <=? fd) then Some None
      else
        e ← aget t fd;
        if negb (used e) then Some None
        else
          match ops e with
          | None => Some None
          | Some o => match sel o with
                      | None => Some None
                      | Some f => Some (Some (f, object e))
                      end
          end
  end.

Definition fd_read (table : option (list fd_entry)) (fd buffer count : Z) (w : W)
    : option (Z * list Z * W) :=
  r ← fd_op table fd op_read;
  match r with
  | None => Some (- SYSCALL_EBADF, [], w)
  | Some (f, obj) => f obj buffer count w
  end.

Definition fd_write (table : option (list fd_entry)) (fd : Z) (data : option (list Z)) (count : Z)
    (w : W) : option (Z * W) :=
  r ← fd_op table fd op_write;
  match r with
  | None => Some (- SYSCALL_EBADF, w)
  | Some (f, obj) => f obj data count w
  end.

Definition fd_ioctl (table : option (list fd_entry)) (fd request arg : Z) (w : W)
    : option (Z * option Z * W) :=
  r ← fd_op table fd op_ioctl;
  match r with
  | None => Some (- SYSCALL_EBADF, None, w)
  | Some (f, obj) => f obj request arg w
  end.

(** ** Well-formed tables *)

Definition table_wf (t : list fd_entry) : Prop := length t = 16%nat.

Lemma table_get t i : table_wf t -> 0 <= i < 16 -> exists e, aget t i = Some e.
Proof. unfold table_wf. intros. apply aget_lt. lia. Qed.

Lemma fd_alloc_from_spec fuel t o obj fd :
  table_wf t -> 0 <= fd -> Z.max 0 (16 - fd) < Z.of_nat fuel ->
  (exists j, fd <= j < 16 /\ used <$> aget t j = Some false /\
     (forall i, fd <= i < j -> used <$> aget t i = Some true) /\
     fd_alloc_from fuel t o obj fd =
       Some (j, <[Z.to_nat j := mk_entry (Some o) obj true]> t)) \/
  ((forall i, fd <= i < 16 -> used <$> aget t i = Some true) /\
     fd_alloc_from fuel t o obj fd = Some (- SYSCALL_EMFILE, t)).
Proof.
  intros Ht. revert fd. induction fuel as [|fuel IH]; intros fd Hfd Hf; [lia|].
  simpl. unfold FD_TABLE_CAPACITY. destruct (Z.ltb_spec fd 16) as [Hlt|Hge].
  - destruct (table_get t fd Ht) as [e He]; [lia|]. rewrite He. simpl.
    destruct (used e) eqn:Hu; simpl.
    + destruct (IH (fd + 1)) as [(j&Hj&Hfree&Hall&E)|(Hall&E)]; [lia|lia| |].
      * left. exists j. rewrite E. split_and!; try lia; try done. intros i Hi.
        destruct (decide (i = fd)) as [->|]; [rewrite He; simpl; by rewrite Hu | apply Hall; lia].
      * right. rewrite E. split; [|done]. intros i Hi.
        destruct (decide (i = fd)) as [->|]; [rewrite He; simpl; by rewrite Hu | apply Hall; lia].
    + left. exists fd. rewrite He. simpl. rewrite Hu.
      rewrite aset_ok by (unfold table_wf in Ht; lia).
      split_and!; try lia; done.
  - right. split; [intros; lia | done].
Qed.

(** ** Properties *)

(** [fd_alloc] on a table hands out the lowest unused descriptor that is at
    least [start_fd], installs the operations and the object there and changes no
    other entry; it fails with -EMFILE, changing nothing, exactly when every
    descriptor from [start_fd] on is in use. *)
Theorem fd_alloc_lowest_free t o obj start_fd :
  table_wf t -> 0 <= start_fd ->
  (exists j t', start_fd <= j < 16 /\ used <$> aget t j = Some false /\
     (forall i, start_fd <= i < j -> used <$> aget t i = Some true) /\
     fd_alloc (Some t) (Some o) obj start_fd = Some (j, Some t') /\
     table_wf t' /\ aget t' j = Some (mk_entry (Some o) obj true) /\
     (forall i, i <> j -> aget t' i = aget t i)) \/
  ((forall i, start_fd <= i < 16 -> used <$> aget t i = Some true) /\
     fd_alloc (Some t) (Some o) obj start_fd = Some (- SYSCALL_EMFILE, Some t)).
Proof.
  intros Ht Hs. unfold fd_alloc. destruct (Z.ltb_spec start_fd 0); [lia|].
  destruct (fd_alloc_from_spec 17 t o obj start_fd) as [(j&Hj&Hfree&Hall&E)|(Hall&E)];
    [done|lia|lia| |]; rewrite E; cbn [mbind option_bind].
  - left. assert (aset t j (mk_entry (Some o) obj true) =
                  Some (<[Z.to_nat j := mk_entry (Some o) obj true]> t)) as Ha
      by (apply aset_ok; unfold table_wf in Ht; lia).
    eexists j, _. split_and!; try lia; try done.
    + unfold table_wf. by rewrite length_insert.
    + by eapply aget_aset_eq.
    + intros i Hi. eapply aget_aset_ne; [done|congruence].
  - right. done.
Qed.
End Fd.

Arguments fd_ops : clear implicits.
Arguments fd_entry : clear implicits.

(** [struct fd_table]. *)
Abbreviation fd_table W := (list (fd_entry W)).

(** ** System calls on descriptors (syscall.c) *)

Definition SYS_READ : Z := 0.
Definition SYS_WRITE : Z := 1.
Definition SYS_IOCTL : Z := 2.

(** Conversion of a 64-bit register to [int]. *)
Definition to_int (x : Z) : Z :=
  let y := u32 x in if y <? 2 ^ 31 then y else y - 2 ^ 32.

(** [syscall_dispatch].  [context] is [None] for a NULL context and holds the
    table pointer otherwise; [umem p n] are the [n] bytes user memory holds at
    [p], read by a write call.  The result carries the bytes a read stores and
    the value an ioctl stores. *)
Definition syscall_dispatch {W} (umem : Z -> Z -> list Z)
    (context : option (option (fd_table W))) (number arg0 arg1 arg2 : Z) (w : W)
    : option (Z * list Z * option Z * W) :=
  match context with
  | None => Some (- SYSCALL_EINVAL, [], None, w)
  | Some table =>
      if number =? SYS_READ then
        '(r, bs, w') ← fd_read table (to_int arg0) arg1 arg2 w;
        Some (r, bs, None, w')
      else if number =? SYS_WRITE then
        '(r, w') ← fd_write table (to_int arg0)
                     (if arg1 =? 0 then None else Some (umem arg1 arg2)) arg2 w;
        Some (r, [], None, w')
      else if number =? SYS_IOCTL then
        '(r, v, w') ← fd_ioctl table (to_int arg0) (u32 arg1) arg2 w;
        Some (r, [], v, w')
      else Some (- SYSCALL_ENOSYS, [], None, w)
  end.

(** Two used descriptors and fourteen free ones. *)
Definition demo_table : fd_table unit :=
  replicate 2 (mk_entry (Some (mk_ops None None None)) 7 true) ++ replicate 14 empty_entry.

Lemma fd_alloc_lowest_free_witness :
  (exists j t', 0 <= j < 16 /\ used <$> aget demo_table j = Some false /\
     (forall i, 0 <= i < j -> used <$> aget demo_table i = Some true) /\
     fd_alloc (Some demo_table) (Some (mk_ops None None None)) 5 0 = Some (j, Some t') /\
     table_wf t' /\ aget t' j = Some (mk_entry (Some (mk_ops None None None)) 5 true) /\
     (forall i, i <> j -> aget t' i = aget demo_table i)) \/
  ((forall i, 0 <= i < 16 -> used <$> aget demo_table i = Some true) /\
     fd_alloc (Some demo_table) (Some (mk_ops None None None)) 5 0 =
       Some (- SYSCALL_EMFILE, Some demo_table)).
Proof. apply (fd_alloc_lowest_free demo_table (mk_ops None None None) 5 0); done. Defined.

End Fd.
