(* ===== verification/Pty.v ===== *)
(** * Pty: pseudo-terminals (kernel/src/pty.c)

    A pseudo-terminal is a pair of byte rings, one per direction, in a pool of
    four.  The head and tail of a ring are free-running 64-bit counters that are
    masked when the data array is indexed, so they may wrap.  A pointer to pool
    entry [i] is [i + 1]; 0 is NULL.

    The rings refine FIFO queues ([ring_repr]); the stream theorem follows any
    interleaving of reads and writes at both ends. *)

From Stdlib Require Import ZArith Lia Bool ZifyBool.
From stdpp Require Import base numbers option list list_numbers.
From S2P Require Import Prelude Fd.
Import Fd.

Open Scope Z_scope.

Module Pty.

Definition PTY_POOL_SIZE : Z := 4.
Definition PTY_RING_SIZE : Z := 16384.
Definition PTY_RING_MASK : Z := 16383.

Definition TTY_IOCTL_CLEAR : Z := 1.
Definition TTY_IOCTL_SET_RAW : Z := 2.
Definition TTY_IOCTL_GET_RAW : Z := 3.

(** ** Data *)

Record pty_ring := mk_ring { data : list Z; head : Z; tail : Z }.

(** [struct pty]; [inp] is the C field [in]. *)
Record pty := mk_pty { inp : pty_ring; out : pty_ring; used : bool; raw_mode : Z }.

Abbreviation pool := (list pty).

(** ** Rings *)

Definition ring_reset (r : pty_ring) : pty_ring := mk_ring (data r) 0 0.

Definition ring_used (r : pty_ring) : Z := u64 (head r - tail r).

Definition ring_put (c : Z) (r : pty_ring) : option pty_ring :=
  d ← aset (data r) (Z.land (head r) PTY_RING_MASK) c;
  Some (mk_ring d (u64 (head r + 1)) (tail r)).

(** Stores up to [count] bytes of [src]; the number stored is the result. *)
Definition ring_write (r : pty_ring) (src : list Z) (count : Z) : option (Z * pty_ring) :=
  let free_space := u64 (PTY_RING_SIZE - ring_used r) in
  let count := if free_space <? count then free_space else count in
  r' ← foldM (fun i r => c ← aget src i; ring_put c r) (seqZ 0 count) r;
  Some (count, r').

Definition ring_take (st : list Z * pty_ring) : option (list Z * pty_ring) :=
  let '(dst, r) := st in
  c ← aget (data r) (Z.land (tail r) PTY_RING_MASK);
  Some (dst ++ [c], mk_ring (data r) (head r) (u64 (tail r + 1))).

(** Removes up to [count] bytes; they are stored from the start of [dst]. *)
Definition ring_read (r : pty_ring) (count : Z) : option (Z * list Z * pty_ring) :=
  let avail := ring_used r in
  let count := if avail <? count then avail else count in
  '(dst, r') ← foldM (fun (_ : Z) st => ring_take st) (seqZ 0 count) ([], r);
  Some (count, dst, r').

(** ** The pool *)

(** First unused entry: taken, both rings reset. *)
Fixpoint pty_alloc_from (fuel : nat) (i : Z) (g : pool) : option (Z * pool) :=
  match fuel with
  | O => None
  | S fuel' =>
      if i <? PTY_POOL_SIZE then
        p ← aget g i;
        if negb (used p) then
          g' ← aset g i (mk_pty (ring_reset (inp p)) (ring_reset (out p)) true (raw_mode p));
          Some (i + 1, g')
        else pty_alloc_from fuel' (i + 1) g
      else Some (0, g)
  end.

Definition pty_alloc (g : pool) : option (Z * pool) := pty_alloc_from 5 0 g.

Definition pty_release (ptr : Z) (g : pool) : option pool :=
  if ptr =? 0 then Some g
  else
    p ← aget g (ptr - 1);
    aset g (ptr - 1) (mk_pty (inp p) (out p) false (raw_mode p)).

(** ** The two endpoints *)

Definition pty_master_read (object buffer count : Z) (g : pool) : option (Z * list Z * pool) :=
  if (object =? 0) || (buffer =? 0) || (count =? 0) then Some (0, [], g)
  else
    p ← aget g (object - 1);
    '(n, bs, r) ← ring_read (out p) count;
    g' ← aset g (object - 1) (mk_pty (inp p) r (used p) (raw_mode p));
    Some (n, bs, g').

Definition pty_master_write (object : Z) (buffer : option (list Z)) (count : Z) (g : pool)
    : option (Z * pool) :=
  match buffer with
  | Some src =>
      if object =? 0 then Some (- SYSCALL_EINVAL, g)
      else
        p ← aget g (object - 1);
        '(n, r) ← ring_write (inp p) src count;
        g' ← aset g (object - 1) (mk_pty r (out p) (used p) (raw_mode p));
        Some (n, g')
  | None => Some (- SYSCALL_EINVAL, g)
  end.

Definition pty_slave_read (object buffer count : Z) (g : pool) : option (Z * list Z * pool) :=
  if (object =? 0) || (buffer =? 0) || (count =? 0) then Some (0, [], g)
  else
    p ← aget g (object - 1);
    '(n, bs, r) ← ring_read (inp p) count;
    g' ← aset g (object - 1) (mk_pty r (out p) (used p) (raw_mode p));
    Some (n, bs, g').

Definition pty_slave_write (object : Z) (buffer : option (list Z)) (count : Z) (g : pool)
    : option (Z * pool) :=
  match buffer with
  | Some src =>
      if object =? 0 then Some (- SYSCALL_EINVAL, g)
      else
        p ← aget g (object - 1);
        '(n, r) ← ring_write (out p) src count;
        g' ← aset g (object - 1) (mk_pty (inp p) r (used p) (raw_mode p));
        Some (n, g')
  | None => Some (- SYSCALL_EINVAL, g)
  end.

(** Terminal ioctls, on either endpoint. *)
Definition pty_ioctl (object request arg : Z) (g : pool) : option (Z * option Z * pool) :=
  if object =? 0 then Some (- SYSCALL_EINVAL, None, g)
  else if request =? TTY_IOCTL_SET_RAW then
    p ← aget g (object - 1);
    g' ← aset g (object - 1)
           (mk_pty (inp p) (out p) (used p) (if negb (arg =? 0) then 1 else 0));
    Some (0, None, g')
  else if request =? TTY_IOCTL_GET_RAW then
    p ← aget g (object - 1);
    if negb (arg =? 0) then Some (0, Some (if truth (raw_mode p) then 1 else 0), g)
    else Some (- SYSCALL_EINVAL, None, g)
  else if request =? TTY_IOCTL_CLEAR then Some (0, None, g)
  else Some (- SYSCALL_ENOSYS, None, g).

Definition PTY_MASTER_FD_OPS : fd_ops pool :=
  mk_ops (Some pty_master_read) (Some pty_master_write) (Some pty_ioctl).
Definition PTY_SLAVE_FD_OPS : fd_ops pool :=
  mk_ops (Some pty_slave_read) (Some pty_slave_write) (Some pty_ioctl).

(** ** Abstract specification: a bounded FIFO queue *)

(** The ring holds the bytes [q], oldest first. *)
Definition ring_repr (r : pty_ring) (q : list Z) : Prop :=
  Z.of_nat (length (data r)) = PTY_RING_SIZE /\ 0 <= head r < 2 ^ 64 /\ 0 <= tail r < 2 ^ 64 /\
  ring_used r = Z.of_nat (length q) /\ Z.of_nat (length q) <= PTY_RING_SIZE /\
  forall i, 0 <= i < Z.of_nat (length q) ->
    aget (data r) ((tail r + i) mod PTY_RING_SIZE) = aget q i.

(** One operation at either end of a pseudo-terminal. *)
Inductive pty_op :=
| MasterWrite (bs : list Z)
| SlaveRead (n : Z)
| SlaveWrite (bs : list Z)
| MasterRead (n : Z).

(** What has been accepted and delivered so far, per direction. *)
Record trace := mk_trace {
  accepted_in : list Z; delivered_in : list Z;
  accepted_out : list Z; delivered_out : list Z }.

(** Run one operation on the pseudo-terminal [ptr] through its endpoint
    functions and log the bytes. *)
Definition pty_step (ptr : Z) (op : pty_op) (st : pool * trace) : option (pool * trace) :=
  let '(g, t) := st in
  match op with
  | MasterWrite bs =>
      '(n, g') ← pty_master_write ptr (Some bs) (Z.of_nat (length bs)) g;
      Some (g', mk_trace (accepted_in t ++ take (Z.to_nat n) bs) (delivered_in t)
                  (accepted_out t) (delivered_out t))
  | SlaveRead n =>
      '(_, bs, g') ← pty_slave_read ptr 1 n g;
      Some (g', mk_trace (accepted_in t) (delivered_in t ++ bs)
                  (accepted_out t) (delivered_out t))
  | SlaveWrite bs =>
      '(n, g') ← pty_slave_write ptr (Some bs) (Z.of_nat (length bs)) g;
      Some (g', mk_trace (accepted_in t) (delivered_in t)
                  (accepted_out t ++ take (Z.to_nat n) bs) (delivered_out t))
  | MasterRead n =>
      '(_, bs, g') ← pty_master_read ptr 1 n g;
      Some (g', mk_trace (accepted_in t) (delivered_in t)
                  (accepted_out t) (delivered_out t ++ bs))
  end.

Definition pty_run (ptr : Z) (ops : list pty_op) (st : pool * trace) : option (pool * trace) :=
  foldM (pty_step ptr) ops st.

(** Sizes a C caller can pass: below 2^64, non-negative. *)
Definition op_ok (op : pty_op) : Prop :=
  match op with
  | MasterWrite bs | SlaveWrite bs => Z.of_nat (length bs) < 2 ^ 64
  | SlaveRead n | MasterRead n => 0 <= n < 2 ^ 64
  end.

(** The contract: two FIFO queues of at most [PTY_RING_SIZE] bytes.  A write
    appends the prefix that fits, a read removes the oldest bytes. *)
Definition fits (q bs : list Z) : list Z :=
  take (Z.to_nat (PTY_RING_SIZE - Z.of_nat (length q))) bs.

Definition spec_step (op : pty_op) (st : (list Z * list Z) * trace)
    : (list Z * list Z) * trace :=
  let '((qi, qo), t) := st in
  match op with
  | MasterWrite bs =>
      ((qi ++ fits qi bs, qo),
       mk_trace (accepted_in t ++ fits qi bs) (delivered_in t) (accepted_out t) (delivered_out t))
  | SlaveRead n =>
      ((drop (Z.to_nat n) qi, qo),
       mk_trace (accepted_in t) (delivered_in t ++ take (Z.to_nat n) qi)
         (accepted_out t) (delivered_out t))
  | SlaveWrite bs =>
      ((qi, qo ++ fits qo bs),
       mk_trace (accepted_in t) (delivered_in t) (accepted_out t ++ fits qo bs) (delivered_out t))
  | MasterRead n =>
      ((qi, drop (Z.to_nat n) qo),
       mk_trace (accepted_in t) (delivered_in t) (accepted_out t)
         (delivered_out t ++ take (Z.to_nat n) qo))
  end.

Definition spec_run (ops : list pty_op) (st : (list Z * list Z) * trace) :=
  fold_left (fun st op => spec_step op st) ops st.

Definition no_trace : trace := mk_trace [] [] [] [].

(** The static pool: four entries with full-size rings. *)
Definition pool_ok (g : pool) : Prop :=
  Z.of_nat (length g) = PTY_POOL_SIZE /\
  Forall (fun p => Z.of_nat (length (data (inp p))) = PTY_RING_SIZE /\
                   Z.of_nat (length (data (out p))) = PTY_RING_SIZE) g.

(** Entry [ptr] of [g] holds the queues [qi] and [qo]; the other entries are
    those of [g0]. *)
Definition pool_repr (g0 : pool) (ptr : Z) (qs : list Z * list Z) (g : pool) : Prop :=
  1 <= ptr /\
  (exists p, aget g (ptr - 1) = Some p /\ used p = true /\
     ring_repr (inp p) qs.1 /\ ring_repr (out p) qs.2) /\
  forall j, j <> ptr - 1 -> aget g j = aget g0 j.

(** ** Rings refine queues *)

Lemma mask_mod x : Z.land x PTY_RING_MASK = x mod PTY_RING_SIZE.
Proof. change PTY_RING_MASK with (Z.ones 14). by rewrite Z.land_ones. Qed.

Lemma u64_ring x : u64 x mod PTY_RING_SIZE = x mod PTY_RING_SIZE.
Proof.
  unfold u64, PTY_RING_SIZE. apply Z.mod_mod_divide. exists (2 ^ 50). done.
Qed.

Lemma u64_sub_succ a b n :
  u64 (a - b) = n -> 0 <= n < 2 ^ 64 - 1 -> u64 (u64 (a + 1) - b) = n + 1.
Proof.
  unfold u64. intros H Hn. rewrite Zminus_mod_idemp_l.
  replace (a + 1 - b) with (a - b + 1) by lia.
  rewrite <- Zplus_mod_idemp_l, H. apply Z.mod_small. lia.
Qed.

Lemma u64_sub_pred a b n :
  u64 (a - b) = n -> 0 < n < 2 ^ 64 -> u64 (a - u64 (b + 1)) = n - 1.
Proof.
  unfold u64. intros H Hn. rewrite Zminus_mod_idemp_r.
  replace (a - (b + 1)) with (a - b - 1) by lia.
  rewrite <- Zminus_mod_idemp_l, H. apply Z.mod_small. lia.
Qed.

Lemma ring_repr_reset r : Z.of_nat (length (data r)) = PTY_RING_SIZE -> ring_repr (ring_reset r) [].
Proof. intros. split_and!; try done. intros i Hi. simpl in Hi. lia. Qed.

(** The masked head does not collide with a stored byte while there is room. *)
Lemma ring_slot_ne h t n i :
  u64 (h - t) = n -> 0 <= i < n -> n < PTY_RING_SIZE ->
  h mod PTY_RING_SIZE <> (t + i) mod PTY_RING_SIZE.
Proof.
  intros Hn Hi Hlt Heq. assert ((h - t) mod PTY_RING_SIZE = n mod PTY_RING_SIZE) as Hm
    by (by rewrite <- Hn, u64_ring).
  assert ((h - t) mod PTY_RING_SIZE = i mod PTY_RING_SIZE) as Hm2.
  { rewrite <- Zminus_mod_idemp_l, Heq, Zminus_mod_idemp_l. f_equal. lia. }
  rewrite Hm2 in Hm. unfold PTY_RING_SIZE in *. rewrite !Z.mod_small in Hm by lia. lia.
Qed.

Lemma aget_app_l {A} (l k : list A) i :
  i < Z.of_nat (length l) -> aget (l ++ k) i = aget l i.
Proof. intros. unfold aget. case_if; [|done]. apply lookup_app_l. lia. Qed.

Lemma ring_put_spec r q c :
  ring_repr r q -> Z.of_nat (length q) < PTY_RING_SIZE ->
  exists r', ring_put c r = Some r' /\ ring_repr r' (q ++ [c]).
Proof.
  intros (Hd&Hh&Ht&Hu&Hq&Hg) Hlt. unfold ring_put. rewrite mask_mod.
  pose proof (Z.mod_pos_bound (head r) PTY_RING_SIZE ltac:(done)) as Hb.
  unfold ring_used in Hu. rewrite aset_ok by lia. simpl. eexists. split; [done|].
  assert (u64 (u64 (head r + 1) - tail r) = Z.of_nat (length (q ++ [c]))) as Hu'.
  { rewrite (u64_sub_succ _ _ _ Hu); unfold PTY_RING_SIZE in *; len. }
  split_and!; cbn [data head tail]; try lia; try apply u64_range; try exact Hu'; [len|len|].
  intros i Hi. rewrite aget_insert by lia. rewrite length_app in Hi. simpl in Hi.
  destruct (decide (i = Z.of_nat (length q))) as [->|Hne].
  - rewrite decide_True.
    + rewrite aget_nat, lookup_app_r, Nat.sub_diag by lia. done.
    + rewrite <- (u64_ring (tail r + _)), <- (u64_ring (head r)). f_equal. rewrite <- Hu.
      unfold u64. rewrite Zplus_mod_idemp_r. f_equal. lia.
  - rewrite decide_False.
    + rewrite Hg, aget_app_l by lia. done.
    + eapply ring_slot_ne; [exact Hu | lia | lia].
Qed.

(** A write stores the longest prefix that fits. *)
Lemma ring_write_spec r q src :
  ring_repr r q ->
  exists r',
    ring_write r src (Z.of_nat (length src)) =
      Some (Z.min (Z.of_nat (length src)) (PTY_RING_SIZE - Z.of_nat (length q)), r') /\
    ring_repr r' (q ++ take (Z.to_nat (PTY_RING_SIZE - Z.of_nat (length q))) src).
Proof.
  intros Hr. pose proof Hr as (_&_&_&Hu&Hq&_). unfold ring_write. rewrite Hu.
  rewrite u64_id by (unfold PTY_RING_SIZE in *; lia).
  set (room := PTY_RING_SIZE - Z.of_nat (length q)) in *.
  replace (if room <? Z.of_nat (length src) then room else Z.of_nat (length src))
    with (Z.min (Z.of_nat (length src)) room) by (case_if; lia).
  foldM_by (fun n r => ring_repr r (q ++ take n src)) as (r'&E&H);
    [|intros n i s Hn Hs|rewrite E; simpl; eexists; split; [done|]].
  - by rewrite app_nil_r.
  - apply lookup_seqZ in Hn as [-> Hn]. destruct (aget_lt src (0 + Z.of_nat n)) as [c Hc]; [lia|].
    rewrite Hc. simpl. edestruct (ring_put_spec s _ c Hs) as (s'&Hs'&Hr'); [len; lia|].
    exists s'. split; [done|]. rewrite Z.add_0_l, aget_nat in Hc.
    by rewrite <- app_assoc, <- take_S_r in Hr'.
  - rewrite length_seqZ in H. destruct (Z.min_spec (Z.of_nat (length src)) room) as [[? E']|[? E']].
    + rewrite E' in H. rewrite take_ge in H by lia. by rewrite take_ge by lia.
    + by rewrite E' in H.
Qed.

Lemma ring_take_spec dst r c q :
  ring_repr r (c :: q) ->
  exists r', ring_take (dst, r) = Some (dst ++ [c], r') /\ ring_repr r' q.
Proof.
  intros (Hd&Hh&Ht&Hu&Hq&Hg). unfold ring_take. rewrite mask_mod.
  pose proof (Hg 0 ltac:(simpl; lia)) as H0. rewrite Z.add_0_r in H0. rewrite H0. simpl.
  eexists. split; [done|]. unfold ring_used in Hu. simpl length in *.
  split_and!; cbn [data head tail]; try lia; try apply u64_range.
  - unfold ring_used. cbn [head tail].
    rewrite (u64_sub_pred _ _ _ Hu); unfold PTY_RING_SIZE in *; lia.
  - intros i Hi. specialize (Hg (i + 1) ltac:(lia)).
    replace (aget (c :: q) (i + 1)) with (aget q i) in Hg.
    + rewrite <- Hg. f_equal. rewrite <- (Zplus_mod_idemp_l (u64 _)), u64_ring, Zplus_mod_idemp_l.
      f_equal. lia.
    + unfold aget. do 2 (case_if; [|lia]). by replace (Z.to_nat (i + 1)) with (S (Z.to_nat i)) by lia.
Qed.

(** A read removes the oldest bytes, in order. *)
Lemma ring_read_spec r q n :
  ring_repr r q -> 0 <= n ->
  exists r',
    ring_read r n =
      Some (Z.min n (Z.of_nat (length q)), take (Z.to_nat n) q, r') /\
    ring_repr r' (drop (Z.to_nat n) q).
Proof.
  intros Hr Hn0. pose proof Hr as (_&_&_&Hu&Hq&_). unfold ring_read. rewrite Hu.
  replace (if Z.of_nat (length q) <? n then Z.of_nat (length q) else n)
    with (Z.min n (Z.of_nat (length q))) by (case_if; lia).
  foldM_by (fun k (st : list Z * pty_ring) =>
      st.1 = take k q /\ ring_repr st.2 (drop k q)) as ([dst r']&E&Ht&H);
    [|intros k i [dst s] Hk [Hd Hs]|rewrite E; simpl].
  - split; [done|]. exact Hr.
  - apply lookup_seqZ in Hk as [-> Hk]. destruct (lookup_lt_is_Some_2 q k) as [c Hc]; [lia|].
    simpl in Hd, Hs. rewrite (drop_S _ _ _ Hc) in Hs.
    destruct (ring_take_spec dst _ _ _ Hs) as (s'&E'&Hs'). exists (dst ++ [c], s').
    split; [done|]. simpl. by rewrite Hd, <- take_S_r.
  - simpl in *. rewrite length_seqZ in Ht, H. exists r'. subst dst.
    destruct (Z.min_spec n (Z.of_nat (length q))) as [[? E']|[? E']]; rewrite E' in *.
    + done.
    + rewrite (take_ge q (Z.to_nat n)), (drop_ge q (Z.to_nat n)) by lia.
      rewrite take_ge, drop_ge in * by lia. done.
Qed.

(** ** The endpoints refine the queues *)

Lemma take_min {A} (l : list A) n :
  take (Z.to_nat (Z.min (Z.of_nat (length l)) n)) l = take (Z.to_nat n) l.
Proof.
  destruct (Z.min_spec (Z.of_nat (length l)) n) as [[? ->]|[? ->]]; [|done].
  by rewrite !take_ge by lia.
Qed.

(** Storing back an entry whose rings hold [qs]. *)
Lemma pool_repr_aset g0 ptr qs g p qs' :
  pool_repr g0 ptr qs g -> used p = true ->
  ring_repr (inp p) qs'.1 -> ring_repr (out p) qs'.2 ->
  exists g', aset g (ptr - 1) p = Some g' /\ pool_repr g0 ptr qs' g'.
Proof.
  intros (Hp&(p0&Hg&_)&Ho) Hu Hi Hout. pose proof (aget_Some_lt _ _ _ Hg).
  exists (<[Z.to_nat (ptr - 1) := p]> g). split; [by apply aset_ok|].
  split; [done|]. split.
  - exists p. rewrite aget_insert, decide_True by (lia || done). done.
  - intros j Hj. rewrite aget_insert, decide_False by (lia || done). by apply Ho.
Qed.

(** One operation follows its specification. *)
Lemma pty_step_refines g0 ptr qs g t op :
  pool_repr g0 ptr qs g -> op_ok op ->
  exists g', pty_step ptr op (g, t) = Some (g', (spec_step op (qs, t)).2) /\
             pool_repr g0 ptr (spec_step op (qs, t)).1 g'.
Proof.
  intros Hr Hop. pose proof Hr as (Hp&(p&Hg&Hu&Hi&Ho)&_). destruct qs as [qi qo].
  assert ((ptr =? 0) = false) as E0 by lia.
  destruct op as [bs|n|bs|n]; cbn [pty_step spec_step fst snd op_ok] in *;
    unfold pty_master_write, pty_slave_write, pty_slave_read, pty_master_read;
    rewrite ?E0; cbn [orb Z.eqb].
  - destruct (ring_write_spec _ _ bs Hi) as (r&Hw&Hr'). rewrite Hg. cbn [mbind option_bind].
    rewrite Hw. cbn [mbind option_bind].
    edestruct (pool_repr_aset _ _ _ _ (mk_pty r (out p) (used p) (raw_mode p))
      (qi ++ fits qi bs, qo) Hr) as (g'&Hs&Hg'); [done..|].
    rewrite Hs. exists g'. cbn [mbind option_bind]. by rewrite take_min.
  - destruct (n =? 0) eqn:En; bools.
    + subst n. exists g. change (Z.to_nat 0) with 0%nat. rewrite take_0, drop_0. by split.
    + destruct (ring_read_spec _ _ n Hi ltac:(lia)) as (r&Hw&Hr'). rewrite Hg. cbn [mbind option_bind].
      rewrite Hw. cbn [mbind option_bind].
      edestruct (pool_repr_aset _ _ _ _ (mk_pty r (out p) (used p) (raw_mode p))
        (drop (Z.to_nat n) qi, qo) Hr) as (g'&Hs&Hg'); [done..|].
      rewrite Hs. by exists g'.
  - destruct (ring_write_spec _ _ bs Ho) as (r&Hw&Hr'). rewrite Hg. cbn [mbind option_bind].
    rewrite Hw. cbn [mbind option_bind].
    edestruct (pool_repr_aset _ _ _ _ (mk_pty (inp p) r (used p) (raw_mode p))
      (qi, qo ++ fits qo bs) Hr) as (g'&Hs&Hg'); [done..|].
    rewrite Hs. exists g'. cbn [mbind option_bind]. by rewrite take_min.
  - destruct (n =? 0) eqn:En; bools.
    + subst n. exists g. change (Z.to_nat 0) with 0%nat. rewrite take_0, drop_0. by split.
    + destruct (ring_read_spec _ _ n Ho ltac:(lia)) as (r&Hw&Hr'). rewrite Hg. cbn [mbind option_bind].
      rewrite Hw. cbn [mbind option_bind].
      edestruct (pool_repr_aset _ _ _ _ (mk_pty (inp p) r (used p) (raw_mode p))
        (qi, drop (Z.to_nat n) qo) Hr) as (g'&Hs&Hg'); [done..|].
      rewrite Hs. by exists g'.
Qed.

Lemma pty_run_refines g0 ptr ops : forall qs g t,
  pool_repr g0 ptr qs g -> Forall op_ok ops ->
  exists g', pty_run ptr ops (g, t) = Some (g', (spec_run ops (qs, t)).2) /\
             pool_repr g0 ptr (spec_run ops (qs, t)).1 g'.
Proof.
  induction ops as [|op ops IH]; intros qs g t Hr Hok; [by exists g|].
  apply Forall_cons in Hok as [Hop Hok].
  destruct (pty_step_refines _ _ _ _ t _ Hr Hop) as (g1&E&Hr1).
  unfold pty_run, spec_run. cbn [foldM fold_left]. rewrite E. cbn [mbind option_bind].
  destruct (spec_step op (qs, t)) as [qs1 t1]. by apply IH.
Qed.

(** Nothing is lost, duplicated or reordered by the specification. *)
Definition balanced (st : (list Z * list Z) * trace) : Prop :=
  accepted_in st.2 = delivered_in st.2 ++ st.1.1 /\
  accepted_out st.2 = delivered_out st.2 ++ st.1.2.

Lemma spec_run_balanced ops : forall st, balanced st -> balanced (spec_run ops st).
Proof.
  induction ops as [|op ops IH]; intros [[qi qo] t] H; [done|]. apply IH.
  destruct H as [Hi Ho]. simpl in Hi, Ho. destruct op; split; cbn; try done.
  all: rewrite ?Hi, ?Ho, <- ?app_assoc; try done; by rewrite take_drop.
Qed.

(** ** Allocation *)

Lemma pty_alloc_from_spec g : pool_ok g -> forall fuel i,
  0 <= i <= PTY_POOL_SIZE -> PTY_POOL_SIZE - i < Z.of_nat fuel ->
  exists ptr g', pty_alloc_from fuel i g = Some (ptr, g') /\
    ((ptr = 0 /\ g' = g /\
      forall j p, i <= j -> aget g j = Some p -> used p = true) \/
     (exists p, i < ptr /\ aget g (ptr - 1) = Some p /\ used p = false /\
      (forall j q, i <= j < ptr - 1 -> aget g j = Some q -> used q = true) /\
      aset g (ptr - 1) (mk_pty (ring_reset (inp p)) (ring_reset (out p)) true (raw_mode p))
        = Some g')).
Proof.
  intros [Hl Hf]. induction fuel as [|fuel IH]; intros i Hi Hfuel; [lia|].
  cbn [pty_alloc_from]. case_if.
  - destruct (aget_lt g i) as [p Hp]; [lia|]. rewrite Hp. cbn [mbind option_bind].
    case_if.
    + rewrite aset_ok by lia. cbn [mbind option_bind]. do 2 eexists. split; [done|].
      right. exists p. replace (i + 1 - 1) with i by lia. split_and!; try done; try lia.
      by apply aset_ok; lia.
    + destruct (IH (i + 1)) as (ptr&g'&E&H); [lia|lia|]. exists ptr, g'. split; [done|].
      destruct H as [(->&->&H)|(q&Hlt&Hq&Hu&H&Hs)]; [left|right; exists q]; split_and!; try done; try lia.
      * intros j q Hj Hq. destruct (decide (j = i)) as [->|]; [|by apply (H j q); [lia|]].
        by simplify_eq.
      * intros j q' Hj Hq'. destruct (decide (j = i)) as [->|]; [|by apply (H j q'); [lia|]].
        by simplify_eq.
  - do 2 eexists. split; [done|]. left. split_and!; try done.
    intros j p Hj Hp. apply aget_Some_lt in Hp. lia.
Qed.

(** ** Properties *)

(** C18: From a freshly allocated pseudo-terminal, any interleaving of reads and
    writes at the two endpoints is defined and behaves as two bounded FIFO
    queues: a write accepts the prefix that fits, a read delivers the oldest
    bytes, and in each direction what was accepted is what was delivered
    followed by what is still queued.  No other pseudo-terminal changes. *)
Theorem pty_streams_are_fifo g ptr g1 ops :
  pool_ok g -> pty_alloc g = Some (ptr, g1) -> ptr <> 0 -> Forall op_ok ops ->
  exists g2 t qi qo,
    pty_run ptr ops (g1, no_trace) = Some (g2, t) /\
    spec_run ops (([], []), no_trace) = ((qi, qo), t) /\
    pool_repr g ptr (qi, qo) g2 /\
    accepted_in t = delivered_in t ++ qi /\
    accepted_out t = delivered_out t ++ qo.
Proof.
  intros Hok Ha Hne Hops.
  destruct (pty_alloc_from_spec g Hok 5 0) as (ptr'&g'&E&H); [done|done|].
  unfold pty_alloc in Ha. rewrite E in Ha. injection Ha as -> ->.
  destruct H as [(?&_)|(p&Hlt&Hp&_&_&Hs)]; [done|].
  assert (pool_repr g ptr ([], []) g1) as Hr.
  { destruct Hok as [_ Hf]. split; [lia|]. pose proof (aget_aset_eq _ _ _ _ Hs) as Hg. split.
    - eexists. split; [exact Hg|]. unfold aget in Hp. destruct (0 <=? ptr - 1); [|done].
      pose proof (Forall_lookup_1 _ _ _ _ Hf Hp) as [? ?].
      split; [done|]. split; by apply ring_repr_reset.
    - intros j Hj. eapply aget_aset_ne; [exact Hs|]. lia. }
  destruct (pty_run_refines _ _ _ _ _ no_trace Hr Hops) as (g2&Er&Hr2).
  pose proof (spec_run_balanced ops (([], []), no_trace) ltac:(done)) as [Hi Ho].
  destruct (spec_run ops _) as [[qi qo] t] eqn:Es. exists g2, t, qi, qo. by split_and!.
Qed.

(** The pool as the kernel starts: all zeroes. *)
Definition ring0 : pty_ring := mk_ring (replicate (Z.to_nat PTY_RING_SIZE) 0) 0 0.
Definition pool0 : pool := replicate 4 (mk_pty ring0 ring0 false 0).
Definition pool1 : pool := match pty_alloc pool0 with Some (_, g) => g | None => [] end.
Definition chat : list pty_op :=
  [MasterWrite [108; 115; 10]; SlaveRead 2; SlaveWrite [111; 107]; SlaveRead 9; MasterRead 1].

Lemma pty_streams_are_fifo_witness :
  exists g2 t qi qo,
    pty_run 1 chat (pool1, no_trace) = Some (g2, t) /\
    spec_run chat (([], []), no_trace) = ((qi, qo), t) /\
    pool_repr pool0 1 (qi, qo) g2 /\
    accepted_in t = delivered_in t ++ qi /\ accepted_out t = delivered_out t ++ qo.
Proof.
  apply (pty_streams_are_fifo pool0 1 pool1 chat).
  - split; [done|]. apply Forall_replicate. split; vm_compute; done.
  - vm_compute. done.
  - done.
  - repeat (constructor; [simpl; lia|]); constructor.
Defined.

(** [pty_alloc] takes the lowest unused entry, marks it used and empties both
    rings, and fails only when all four are in use.  The new owner inherits the
    [raw_mode] the previous owner left. *)
Theorem pty_alloc_lowest g :
  pool_ok g ->
  exists ptr g', pty_alloc g = Some (ptr, g') /\
    ((ptr = 0 /\ g' = g /\ forall j p, 0 <= j -> aget g j = Some p -> used p = true) \/
     (exists p p', 0 < ptr /\ aget g (ptr - 1) = Some p /\ used p = false /\
      (forall j q, 0 <= j < ptr - 1 -> aget g j = Some q -> used q = true) /\
      aget g' (ptr - 1) = Some p' /\ used p' = true /\
      ring_repr (inp p') [] /\ ring_repr (out p') [] /\ raw_mode p' = raw_mode p /\
      forall j, j <> ptr - 1 -> aget g' j = aget g j)).
Proof.
  intros Hok. destruct (pty_alloc_from_spec g Hok 5 0) as (ptr&g'&E&H); [done|done|].
  exists ptr, g'. split; [done|]. destruct H as [H|(p&Hlt&Hp&Hu&H&Hs)]; [by left|right].
  destruct Hok as [_ Hf]. exists p.
  exists (mk_pty (ring_reset (inp p)) (ring_reset (out p)) true (raw_mode p)).
  split_and!; try done.
  - by eapply aget_aset_eq.
  - apply ring_repr_reset. unfold aget in Hp. destruct (0 <=? ptr - 1); [|done].
    by pose proof (Forall_lookup_1 _ _ _ _ Hf Hp) as [? ?].
  - apply ring_repr_reset. unfold aget in Hp. destruct (0 <=? ptr - 1); [|done].
    by pose proof (Forall_lookup_1 _ _ _ _ Hf Hp) as [? ?].
  - intros j Hj. eapply aget_aset_ne; [exact Hs|]. lia.
Qed.

Lemma pty_alloc_lowest_witness : exists ptr g', pty_alloc pool1 = Some (ptr, g') /\ ptr = 2.
Proof.
  destruct (pty_alloc_lowest pool1) as (ptr&g'&E&_).
  - split; [vm_compute; done|]. refine (bool_decide_unpack _ _). vm_compute. done.
  - exists ptr, g'. split; [done|].
    assert (fst <$> pty_alloc pool1 = Some 2) as E2 by (vm_compute; done).
    rewrite E in E2. by injection E2.
Defined.

End Pty.
