(* ===== verification/Tty.v ===== *)
(** * Tty: terminals (kernel/src/tty.c, kernel/include/tty.h)

    A terminal has a scrollback of text lines, an input side (the line being
    edited, the cooked line, the raw queue), a 25x80 virtual screen with a
    cursor, and an ANSI escape-sequence parser.  The C structure is flat; its
    fields are grouped here by the part they belong to.

    Characters are bytes 0..255; where C compares a [char] (signed on this
    target) with an order, [schar] is used.  Signed arithmetic that can overflow
    goes through [i32] and array accesses are checked, so a defined result also
    means that no undefined behaviour happened.

    The process table is reached in three places.  [process_wake_tty_reader] and
    [process_interrupt_terminal] take what they need of it as an [env]: which
    process is blocked in a read of this terminal and for how many bytes, and
    which pids a Ctrl+C kills.  Tracing output on the serial port is left out;
    the echo of [tty_handle_serial_input] is kept. *)

From Stdlib Require Import ZArith Lia Bool ZifyBool.
From stdpp Require Import base numbers option list list_numbers.
From S2P Require Import Prelude Fd.
Import Fd.

Open Scope Z_scope.

Module Tty.

Definition TTY_MAX_LINES : Z := 64.
Definition TTY_MAX_LINE_CHARS : Z := 120.
Definition TTY_INPUT_CAPACITY : Z := 96.
Definition TTY_SCREEN_ROWS : Z := 25.
Definition TTY_SCREEN_COLS : Z := 80.
Definition TTY_ATTR_NORMAL : Z := 0.
Definition TTY_ATTR_INVERSE : Z := 1.
Definition TTY_IOCTL_CLEAR : Z := 1.
Definition TTY_IOCTL_SET_RAW : Z := 2.
Definition TTY_IOCTL_GET_RAW : Z := 3.

Inductive ansi_state_t := ANSI_STATE_NORMAL | ANSI_STATE_ESCAPE | ANSI_STATE_BRACKET | ANSI_STATE_PARAMS.

(** ** Data *)

(** Scrollback and the partial output line. *)
Record scrollback := mk_sb {
  lines : list (list Z); line_count : Z; partial_output : list Z; partial_length : Z }.

(** Input buffers. *)
Record inbuf := mk_ib {
  input : list Z; input_length : Z;
  cooked_line : list Z; cooked_length : Z; line_ready : Z;
  raw_input : list Z; raw_length : Z }.

(** Virtual screen. *)
Record vscreen := mk_vs {
  screen : list (list Z); screen_attr : list (list Z);
  cursor_row : Z; cursor_col : Z; saved_cursor_row : Z; saved_cursor_col : Z;
  current_attr : Z }.

(** ANSI parser. *)
Record ansi := mk_an {
  ansi_state : ansi_state_t; ansi_params : list Z; ansi_param_count : Z; ansi_cmd : Z }.

Record tty := mk_tty {
  sb : scrollback; ib : inbuf; vs : vscreen; an : ansi;
  ansi_mode : Z; revision : Z; waiter_pid : Z; raw_input_mode : Z }.

Definition set_sb s t := mk_tty s (ib t) (vs t) (an t) (ansi_mode t) (revision t) (waiter_pid t) (raw_input_mode t).
Definition set_ib i t := mk_tty (sb t) i (vs t) (an t) (ansi_mode t) (revision t) (waiter_pid t) (raw_input_mode t).
Definition set_vs v t := mk_tty (sb t) (ib t) v (an t) (ansi_mode t) (revision t) (waiter_pid t) (raw_input_mode t).
Definition set_an a t := mk_tty (sb t) (ib t) (vs t) a (ansi_mode t) (revision t) (waiter_pid t) (raw_input_mode t).
Definition set_ansi_mode m t := mk_tty (sb t) (ib t) (vs t) (an t) m (revision t) (waiter_pid t) (raw_input_mode t).
Definition set_waiter w t := mk_tty (sb t) (ib t) (vs t) (an t) (ansi_mode t) (revision t) w (raw_input_mode t).
Definition set_raw_mode r t := mk_tty (sb t) (ib t) (vs t) (an t) (ansi_mode t) (revision t) (waiter_pid t) r.

Definition set_cells s a v := mk_vs s a (cursor_row v) (cursor_col v) (saved_cursor_row v) (saved_cursor_col v) (current_attr v).
Definition set_cursor r c v := mk_vs (screen v) (screen_attr v) r c (saved_cursor_row v) (saved_cursor_col v) (current_attr v).
Definition set_saved r c v := mk_vs (screen v) (screen_attr v) (cursor_row v) (cursor_col v) r c (current_attr v).
Definition set_attr a v := mk_vs (screen v) (screen_attr v) (cursor_row v) (cursor_col v) (saved_cursor_row v) (saved_cursor_col v) a.

Definition tty_touch (t : tty) : tty :=
  mk_tty (sb t) (ib t) (vs t) (an t) (ansi_mode t) (u32 (revision t + 1)) (waiter_pid t) (raw_input_mode t).

(** What the process table answers: [pending pid] is the byte count of the read
    of this terminal that process [pid] is blocked in, if it is; [foreground]
    are the pids [process_interrupt_terminal] kills. *)
Record env := mk_env { pending : Z -> option Z; foreground : list Z }.

(** ** Scrollback *)

(** Bounded copy of a NUL-terminated text; [src] must be terminated if shorter
    than the capacity. *)
Fixpoint tty_copy_loop (fuel : nat) (capacity i : Z) (dest src : list Z) : option (list Z) :=
  match fuel with
  | O => None
  | S fuel' =>
      c ← aget src i;
      if negb (c =? 0) && (i + 1 <? capacity) then
        dest' ← aset dest i c;
        tty_copy_loop fuel' capacity (i + 1) dest' src
      else aset dest i 0
  end.

Definition tty_copy_text (dest : list Z) (capacity : Z) (src : list Z) : option (list Z) :=
  if capacity =? 0 then Some dest else tty_copy_loop (S (Z.to_nat capacity)) capacity 0 dest src.

Definition tty_scroll_lines (i : Z) (ls : list (list Z)) : option (list (list Z)) :=
  d ← aget ls (i - 1);
  s ← aget ls i;
  d' ← tty_copy_text d TTY_MAX_LINE_CHARS s;
  aset ls (i - 1) d'.

Definition tty_append_display_line (text : list Z) (t : tty) : option tty :=
  let s := sb t in
  if line_count s <? TTY_MAX_LINES then
    d ← aget (lines s) (line_count s);
    d' ← tty_copy_text d TTY_MAX_LINE_CHARS text;
    ls ← aset (lines s) (line_count s) d';
    Some (tty_touch (set_sb (mk_sb ls (u64 (line_count s + 1)) (partial_output s) (partial_length s)) t))
  else
    ls ← foldM tty_scroll_lines (seqZ 1 (TTY_MAX_LINES - 1)) (lines s);
    d ← aget ls (TTY_MAX_LINES - 1);
    d' ← tty_copy_text d TTY_MAX_LINE_CHARS text;
    ls' ← aset ls (TTY_MAX_LINES - 1) d';
    Some (tty_touch (set_sb (mk_sb ls' (line_count s) (partial_output s) (partial_length s)) t)).

Definition tty_flush_partial_line (t : tty) : option tty :=
  let s := sb t in
  p ← aset (partial_output s) (partial_length s) 0;
  let t := set_sb (mk_sb (lines s) (line_count s) p (partial_length s)) t in
  t ← (if 0 <? partial_length s then tty_append_display_line p t else Some t);
  p' ← aset (partial_output (sb t)) 0 0;
  Some (set_sb (mk_sb (lines (sb t)) (line_count (sb t)) p' 0) t).

Definition tty_append_output_char (c : Z) (t : tty) : option tty :=
  if c =? 13 then Some t
  else if c =? 10 then tty_flush_partial_line t
  else if c =? 8 then
    let s := sb t in
    if 0 <? partial_length s then
      p ← aset (partial_output s) (partial_length s - 1) 0;
      Some (set_sb (mk_sb (lines s) (line_count s) p (partial_length s - 1)) t)
    else Some t
  else
    t ← (if TTY_MAX_LINE_CHARS <=? partial_length (sb t) + 1
         then tty_flush_partial_line t else Some t);
    let s := sb t in
    p ← aset (partial_output s) (partial_length s) c;
    p' ← aset p (partial_length s + 1) 0;
    Some (set_sb (mk_sb (lines s) (line_count s) p' (partial_length s + 1)) t).

(** ** Input queues *)

Definition set_raw r n b :=
  mk_ib (input b) (input_length b) (cooked_line b) (cooked_length b) (line_ready b) r n.

Definition tty_raw_input_shift_left (count : Z) (b : inbuf) : option inbuf :=
  if raw_length b <=? count then
    r ← aset (raw_input b) 0 0;
    Some (set_raw r 0 b)
  else
    r ← foldM (fun i r => c ← aget r i; aset r (i - count) c)
          (seqZ count (raw_length b - count)) (raw_input b);
    let n := u64 (raw_length b - count) in
    r' ← aset r n 0;
    Some (set_raw r' n b).

(** Stores bytes until the queue holds [TTY_INPUT_CAPACITY - 1]. *)
Definition tty_queue_put (c : Z) (b : inbuf) : option inbuf :=
  if raw_length b + 1 <? TTY_INPUT_CAPACITY then
    r ← aset (raw_input b) (raw_length b) c;
    Some (set_raw r (raw_length b + 1) b)
  else Some b.

Definition tty_queue_raw_input (data : list Z) (b : inbuf) : option inbuf :=
  b ← foldM tty_queue_put data b;
  r ← aset (raw_input b) (raw_length b) 0;
  Some (set_raw r (raw_length b) b).

(** ** Virtual screen *)

Definition put_cell (row col c a : Z) (v : vscreen) : option vscreen :=
  r ← aget (screen v) row;
  r' ← aset r col c;
  s ← aset (screen v) row r';
  ra ← aget (screen_attr v) row;
  ra' ← aset ra col a;
  sa ← aset (screen_attr v) row ra';
  Some (set_cells s sa v).

Definition clear_cell (row col : Z) (v : vscreen) : option vscreen :=
  put_cell row col 32 TTY_ATTR_NORMAL v.

(** The columns [from <= col < till] of a row. *)
Definition clear_cols (row from till : Z) (v : vscreen) : option vscreen :=
  foldM (fun col v => clear_cell row col v) (seqZ from (till - from)) v.

Definition screen_clear (v : vscreen) : option vscreen :=
  foldM (fun row v => clear_cols row 0 TTY_SCREEN_COLS v) (seqZ 0 TTY_SCREEN_ROWS) v.

Definition screen_clear_line (row : Z) (v : vscreen) : option vscreen :=
  if (row <? 0) || (TTY_SCREEN_ROWS <=? row) then Some v
  else clear_cols row 0 TTY_SCREEN_COLS v.

Definition screen_clear_to_eol (v : vscreen) : option vscreen :=
  if (cursor_row v <? 0) || (TTY_SCREEN_ROWS <=? cursor_row v) then Some v
  else clear_cols (cursor_row v) (cursor_col v) TTY_SCREEN_COLS v.

Definition copy_cell_up (row col : Z) (v : vscreen) : option vscreen :=
  r ← aget (screen v) (row + 1);
  c ← aget r col;
  ra ← aget (screen_attr v) (row + 1);
  a ← aget ra col;
  put_cell row col c a v.

Definition screen_scroll_up (v : vscreen) : option vscreen :=
  v ← foldM (fun row v => foldM (fun col v => copy_cell_up row col v) (seqZ 0 TTY_SCREEN_COLS) v)
        (seqZ 0 (TTY_SCREEN_ROWS - 1)) v;
  clear_cols (TTY_SCREEN_ROWS - 1) 0 TTY_SCREEN_COLS v.

(** Scroll when the cursor has left the last row. *)
Definition scroll_if_below (v : vscreen) : option vscreen :=
  if TTY_SCREEN_ROWS <=? cursor_row v then
    v' ← screen_scroll_up v;
    Some (set_cursor (TTY_SCREEN_ROWS - 1) (cursor_col v') v')
  else Some v.

Definition screen_putc (c : Z) (v : vscreen) : option vscreen :=
  v ← scroll_if_below v;
  v ← (if TTY_SCREEN_COLS <=? cursor_col v then
         r ← i32 (cursor_row v + 1);
         scroll_if_below (set_cursor r 0 v)
       else Some v);
  if (0 <=? cursor_row v) && (0 <=? cursor_col v) then
    v' ← put_cell (cursor_row v) (cursor_col v) c (current_attr v) v;
    k ← i32 (cursor_col v' + 1);
    Some (set_cursor (cursor_row v') k v')
  else Some v.

(** ** ANSI parser *)

(** [ansi_params] is left as it is. *)
Definition ansi_reset (a : ansi) : ansi := mk_an ANSI_STATE_NORMAL (ansi_params a) 0 0.

Definition ansi_param (index default_val : Z) (a : ansi) : option Z :=
  if index <=? ansi_param_count a then
    p ← aget (ansi_params a) index;
    if 0 <? p then Some p else Some default_val
  else Some default_val.

(** Copy of the parameters received; the other entries of the C array stay
    uninitialised and reading one is [None]. *)
Definition ansi_copy_params (a : ansi) : option (list Z) :=
  slice (ansi_params a) 0 (Z.min (ansi_param_count a + 1) 8).

Definition clamp_row (r : Z) : Z := if TTY_SCREEN_ROWS <=? r then TTY_SCREEN_ROWS - 1 else r.
Definition clamp_col (c : Z) : Z := if TTY_SCREEN_COLS <=? c then TTY_SCREEN_COLS - 1 else c.
Definition clamp_zero (x : Z) : Z := if x <? 0 then 0 else x.

(** Erase Display. *)
Definition ansi_erase_display (p0 : Z) (v : vscreen) : option vscreen :=
  if p0 =? 0 then
    v' ← screen_clear_to_eol v;
    from ← i32 (cursor_row v' + 1);
    foldM screen_clear_line (seqZ from (TTY_SCREEN_ROWS - from)) v'
  else if p0 =? 1 then
    v' ← foldM screen_clear_line (seqZ 0 (cursor_row v)) v;
    clear_cols (cursor_row v') 0 (cursor_col v') v'
  else if p0 =? 2 then screen_clear v
  else Some v.

(** Erase Line. *)
Definition ansi_erase_line (p0 : Z) (v : vscreen) : option vscreen :=
  if p0 =? 0 then screen_clear_to_eol v
  else if p0 =? 1 then clear_cols (cursor_row v) 0 (cursor_col v) v
  else if p0 =? 2 then screen_clear_line (cursor_row v) v
  else Some v.

(** Select Graphic Rendition, one parameter. *)
Definition ansi_sgr (mode : Z) (v : vscreen) : vscreen :=
  if mode =? 0 then set_attr TTY_ATTR_NORMAL v
  else if mode =? 7 then set_attr TTY_ATTR_INVERSE v
  else if mode =? 27 then set_attr TTY_ATTR_NORMAL v
  else v.

Definition ansi_command (a : ansi) (params : list Z) (v : vscreen) : option vscreen :=
  let cmd := ansi_cmd a in
  if (cmd =? 72) || (cmd =? 102) then
    p0 ← ansi_param 0 1 a;
    r ← i32 (p0 - 1);
    p1 ← ansi_param 1 1 a;
    c ← i32 (p1 - 1);
    Some (set_cursor (clamp_row (clamp_zero r)) (clamp_col (clamp_zero c)) v)
  else if cmd =? 74 then p0 ← aget params 0; ansi_erase_display p0 v
  else if cmd =? 75 then p0 ← aget params 0; ansi_erase_line p0 v
  else if cmd =? 65 then
    p ← ansi_param 0 1 a; r ← i32 (cursor_row v - p);
    Some (set_cursor (clamp_zero r) (cursor_col v) v)
  else if cmd =? 66 then
    p ← ansi_param 0 1 a; r ← i32 (cursor_row v + p);
    Some (set_cursor (clamp_row r) (cursor_col v) v)
  else if cmd =? 67 then
    p ← ansi_param 0 1 a; c ← i32 (cursor_col v + p);
    Some (set_cursor (cursor_row v) (clamp_col c) v)
  else if cmd =? 68 then
    p ← ansi_param 0 1 a; c ← i32 (cursor_col v - p);
    Some (set_cursor (cursor_row v) (clamp_zero c) v)
  else if cmd =? 109 then
    foldM (fun i v => m ← aget params i; Some (ansi_sgr m v))
      (seqZ 0 (ansi_param_count a + 1)) v
  else if cmd =? 115 then Some (set_saved (cursor_row v) (cursor_col v) v)
  else if cmd =? 117 then Some (set_cursor (saved_cursor_row v) (saved_cursor_col v) v)
  else Some v.

Definition ansi_execute (av : ansi * vscreen) : option (ansi * vscreen) :=
  let '(a, v) := av in
  params ← ansi_copy_params a;
  v' ← ansi_command a params v;
  Some (ansi_reset a, v').

Definition set_state s a := mk_an s (ansi_params a) (ansi_param_count a) (ansi_cmd a).
Definition set_cmd c a := mk_an (ansi_state a) (ansi_params a) (ansi_param_count a) c.
Definition set_params p n s a := mk_an s p n (ansi_cmd a).

Definition is_digit (c : Z) : bool := (48 <=? schar c) && (schar c <=? 57).

Definition ansi_normal_char (c : Z) (av : ansi * vscreen) : option (ansi * vscreen) :=
  let '(a, v) := av in
  if c =? 27 then Some (set_state ANSI_STATE_ESCAPE a, v)
  else if c =? 10 then
    r ← i32 (cursor_row v + 1);
    v' ← scroll_if_below (set_cursor r 0 v);
    Some (a, v')
  else if c =? 13 then Some (a, set_cursor (cursor_row v) 0 v)
  else if (c =? 8) || (c =? 127) then
    Some (a, if 0 <? cursor_col v then set_cursor (cursor_row v) (cursor_col v - 1) v else v)
  else if c =? 9 then
    k ← i32 (cursor_col v + 4);
    Some (a, set_cursor (cursor_row v) (clamp_col (Z.land k (Z.lnot 3))) v)
  else if (32 <=? schar c) && (schar c <? 127) then
    v' ← screen_putc c v;
    Some (a, v')
  else Some (a, v).

Definition ansi_escape_char (c : Z) (av : ansi * vscreen) : option (ansi * vscreen) :=
  let '(a, v) := av in
  if c =? 91 then
    p ← aset (ansi_params a) 0 0;
    Some (set_params p 0 ANSI_STATE_BRACKET a, v)
  else if c =? 99 then
    v' ← screen_clear v;
    Some (ansi_reset a, set_cursor 0 0 v')
  else if c =? 55 then Some (ansi_reset a, set_saved (cursor_row v) (cursor_col v) v)
  else if c =? 56 then Some (ansi_reset a, set_cursor (saved_cursor_row v) (saved_cursor_col v) v)
  else if c =? 77 then
    v' ← (if cursor_row v =? 0 then screen_scroll_up v
          else r ← i32 (cursor_row v - 1); Some (set_cursor r (cursor_col v) v));
    Some (ansi_reset a, v')
  else Some (ansi_reset a, v).

Definition ansi_bracket_char (c : Z) (av : ansi * vscreen) : option (ansi * vscreen) :=
  let '(a, v) := av in
  if is_digit c then
    p ← aset (ansi_params a) (ansi_param_count a) (c - 48);
    Some (set_params p (ansi_param_count a) ANSI_STATE_PARAMS a, v)
  else if c =? 63 then
    p ← aset (ansi_params a) 0 0;
    Some (set_params p (ansi_param_count a) ANSI_STATE_PARAMS a, v)
  else if c =? 59 then
    p ← aset (ansi_params a) (ansi_param_count a) 0;
    let a' := set_params p (ansi_param_count a + 1) ANSI_STATE_BRACKET a in
    Some (if 8 <=? ansi_param_count a' then ansi_reset a' else a', v)
  else ansi_execute (set_cmd c a, v).

Definition ansi_params_char (c : Z) (av : ansi * vscreen) : option (ansi * vscreen) :=
  let '(a, v) := av in
  if is_digit c then
    x ← aget (ansi_params a) (ansi_param_count a);
    x10 ← i32 (x * 10);
    y ← i32 (x10 + (c - 48));
    p ← aset (ansi_params a) (ansi_param_count a) y;
    Some (set_params p (ansi_param_count a) ANSI_STATE_PARAMS a, v)
  else if c =? 59 then
    let n := ansi_param_count a + 1 in
    if 8 <=? n then Some (ansi_reset (set_params (ansi_params a) n ANSI_STATE_PARAMS a), v)
    else
      p ← aset (ansi_params a) n 0;
      Some (set_params p n ANSI_STATE_PARAMS a, v)
  else ansi_execute (set_cmd c a, v).

Definition ansi_char (c : Z) (av : ansi * vscreen) : option (ansi * vscreen) :=
  match ansi_state av.1 with
  | ANSI_STATE_NORMAL => ansi_normal_char c av
  | ANSI_STATE_ESCAPE => ansi_escape_char c av
  | ANSI_STATE_BRACKET => ansi_bracket_char c av
  | ANSI_STATE_PARAMS => ansi_params_char c av
  end.

Definition tty_process_ansi_char (c : Z) (t : tty) : option tty :=
  '(a, v) ← ansi_char c (an t, vs t);
  Some (set_an a (set_vs v t)).

(** ** File-descriptor operations *)

(** The echoed line: partial output, then the cooked input, cut at the line
    length. *)
Definition tty_commit_input_line (t : tty) : option tty :=
  let s := sb t in
  p ← slice (partial_output s) 0 (Z.min (partial_length s) (TTY_MAX_LINE_CHARS - 1));
  k ← slice (cooked_line (ib t)) 0
        (Z.min (cooked_length (ib t)) (TTY_MAX_LINE_CHARS - 1 - Z.of_nat (length p)));
  t ← (if 0 <? Z.of_nat (length (p ++ k)) then tty_append_display_line (p ++ k ++ [0]) t else Some t);
  o ← aset (partial_output (sb t)) 0 0;
  Some (set_sb (mk_sb (lines (sb t)) (line_count (sb t)) o 0) t).

(** Hand out up to [count] bytes of the raw queue. *)
Definition tty_take_raw (count : Z) (t : tty) : option (Z * list Z * tty) :=
  let to_copy := if count <? raw_length (ib t) then count else raw_length (ib t) in
  out ← slice (raw_input (ib t)) 0 to_copy;
  b ← tty_raw_input_shift_left to_copy (ib t);
  Some (to_copy, out, set_ib b t).

Definition tty_fd_read (object buffer count : Z) (t : tty) : option (Z * list Z * tty) :=
  if (object =? 0) || (buffer =? 0) || (count =? 0) then Some (0, [], t)
  else if 0 <? raw_length (ib t) then tty_take_raw count t
  else if negb (truth (line_ready (ib t))) then Some (0, [], t)
  else
    t ← tty_commit_input_line t;
    let b := ib t in
    let to_copy := if TTY_INPUT_CAPACITY <? cooked_length b + 1 then TTY_INPUT_CAPACITY - 1
                   else cooked_length b in
    src ← slice (cooked_line b) 0 to_copy;
    r ← splice (raw_input b) 0 src;
    r' ← aset r to_copy 10;
    c ← aset (cooked_line b) 0 0;
    tty_take_raw count
      (set_waiter 0 (set_ib (mk_ib (input b) (input_length b) c 0 0 r' (to_copy + 1)) t)).

(** The switch to screen mode at the first escape character. *)
Definition tty_enter_ansi (text : list Z) (t : tty) : option tty :=
  if negb (truth (ansi_mode t)) && existsb (fun c => c =? 27) text then
    v ← screen_clear (vs t);
    Some (set_ansi_mode 1 (set_vs (set_cursor 0 0 v) t))
  else Some t.

Definition tty_fd_write (object : Z) (buffer : option (list Z)) (count : Z) (t : tty)
    : option (Z * tty) :=
  match buffer with
  | Some src =>
      if object =? 0 then Some (- SYSCALL_EINVAL, t)
      else
        text ← slice src 0 count;
        t ← tty_enter_ansi text t;
        if truth (ansi_mode t) then
          t' ← foldM tty_process_ansi_char text t;
          Some (count, tty_touch t')
        else
          t' ← foldM tty_append_output_char text t;
          Some (count, if 0 <? count then tty_touch t' else t')
  | None => Some (- SYSCALL_EINVAL, t)
  end.

(** The common part of [tty_init] and [tty_reset]. *)
Definition tty_clear_state (t : tty) : option tty :=
  let b := ib t in
  i ← aset (input b) 0 0;
  c ← aset (cooked_line b) 0 0;
  r ← aset (raw_input b) 0 0;
  p ← aset (partial_output (sb t)) 0 0;
  v ← screen_clear (mk_vs (screen (vs t)) (screen_attr (vs t)) 0 0 0 0 TTY_ATTR_NORMAL);
  Some (mk_tty (mk_sb (lines (sb t)) 0 p 0) (mk_ib i 0 c 0 0 r 0) v
          (mk_an ANSI_STATE_NORMAL (ansi_params (an t)) 0 (ansi_cmd (an t)))
          0 (revision t) 0 (raw_input_mode t)).

Definition tty_init (t : tty) : option tty :=
  t ← tty_clear_state t;
  Some (mk_tty (sb t) (ib t) (vs t) (an t) (ansi_mode t) 1 (waiter_pid t) 0).

Definition tty_reset (t : tty) : option tty :=
  t ← tty_clear_state t;
  Some (tty_touch t).

Definition clear_input b i :=
  mk_ib i 0 (cooked_line b) (cooked_length b) (line_ready b) (raw_input b) (raw_length b).

Definition tty_fd_ioctl (object request arg : Z) (t : tty) : option (Z * option Z * tty) :=
  if object =? 0 then Some (- SYSCALL_EINVAL, None, t)
  else if request =? TTY_IOCTL_CLEAR then
    t' ← tty_reset t; Some (0, None, t')
  else if request =? TTY_IOCTL_SET_RAW then
    i ← aset (input (ib t)) 0 0;
    Some (0, None, set_raw_mode (if negb (arg =? 0) then 1 else 0) (set_ib (clear_input (ib t) i) t))
  else if request =? TTY_IOCTL_GET_RAW then
    if negb (arg =? 0) then Some (0, Some (if truth (raw_input_mode t) then 1 else 0), t)
    else Some (- SYSCALL_EINVAL, None, t)
  else Some (- SYSCALL_ENOSYS, None, t).

Definition TTY_FD_OPS : fd_ops tty :=
  mk_ops (Some tty_fd_read) (Some tty_fd_write) (Some tty_fd_ioctl).

(** ** Blocking reads (kernel/src/process.c) *)

(** A read of an empty terminal blocks: the reader is recorded as the waiter. *)
Definition process_try_blocking_tty_read (pid : Z) (t : tty) : bool * tty :=
  if truth (line_ready (ib t)) || (0 <? raw_length (ib t)) then (false, t)
  else (true, set_waiter pid t).

(** The waiter is forgotten; if it is still blocked its read is done here and
    the bytes are delivered to it. *)
Definition process_wake_tty_reader (e : env) (t : tty) : option (list (Z * list Z) * tty) :=
  if waiter_pid t =? 0 then Some ([], t)
  else
    let pid := waiter_pid t in
    let t := set_waiter 0 t in
    match pending e pid with
    | None => Some ([], t)
    | Some count =>
        '(_, bs, t') ← tty_fd_read 1 1 count t;
        Some ([(pid, bs)], t')
    end.

(** Killing a blocked reader also forgets it. *)
Definition process_interrupt_terminal (e : env) (t : tty) : tty :=
  if existsb (Z.eqb (waiter_pid t)) (foreground e) then set_waiter 0 t else t.

(** ** Keyboard input *)

Record keyboard_state := mk_kbd {
  chars : list Z; enter_pressed : Z; backspace_pressed : Z }.

Definition set_input i n b :=
  mk_ib i n (cooked_line b) (cooked_length b) (line_ready b) (raw_input b) (raw_length b).

(** Append to the edited line if it has room. *)
Definition tty_input_char (c : Z) (bd : inbuf * bool) : option (inbuf * bool) :=
  let '(b, dirty) := bd in
  if input_length b + 1 <? TTY_INPUT_CAPACITY then
    i ← aset (input b) (input_length b) c;
    i' ← aset i (input_length b + 1) 0;
    Some (set_input i' (input_length b + 1) b, true)
  else Some (b, dirty).

Definition tty_input_backspace (b : inbuf) : option inbuf :=
  i ← aset (input b) (input_length b - 1) 0;
  Some (set_input i (input_length b - 1) b).

(** Enter: the edited line becomes the cooked line. *)
Definition tty_input_enter (b : inbuf) : option inbuf :=
  src ← slice (input b) 0 (Z.min (input_length b) (TTY_INPUT_CAPACITY - 1));
  c ← splice (cooked_line b) 0 src;
  c' ← aset c (input_length b) 0;
  i ← aset (input b) 0 0;
  Some (mk_ib i 0 c' (input_length b) 1 (raw_input b) (raw_length b)).

(** The bytes of a keyboard poll in raw mode, at most 32. *)
Definition raw_bytes (k : keyboard_state) : list Z :=
  let bs := (if truth (backspace_pressed k) then [8] else []) in
  let bs := bs ++ take (32 - length bs) (chars k) in
  bs ++ (if truth (enter_pressed k) && (Z.of_nat (length bs) <? 32) then [13] else []).

(** Result: the C return value, the bytes delivered to woken readers, the
    terminal. *)
Definition tty_handle_keyboard (e : env) (k : keyboard_state) (t : tty)
    : option (Z * list (Z * list Z) * tty) :=
  if existsb (fun c => c =? 3) (chars k) then Some (0, [], process_interrupt_terminal e t)
  else if truth (ansi_mode t) || truth (raw_input_mode t) then
    let bs := raw_bytes k in
    if 0 <? Z.of_nat (length bs) then
      b ← tty_queue_raw_input bs (ib t);
      '(woken, t') ← process_wake_tty_reader e (set_ib b t);
      Some (1, woken, tty_touch t')
    else Some (0, [], t)
  else
    '(b, dirty) ← (if truth (backspace_pressed k) && (0 <? input_length (ib t))
                   then b ← tty_input_backspace (ib t); Some (b, true)
                   else Some (ib t, false));
    '(b, dirty) ← foldM tty_input_char (chars k) (b, dirty);
    '(woken, t', dirty) ←
      (if truth (enter_pressed k) then
         b ← tty_input_enter b;
         '(woken, t') ← process_wake_tty_reader e (set_ib b t);
         Some (woken, t', true)
       else Some ([], set_ib b t, dirty));
    Some (if (dirty : bool) then (1, woken, tty_touch t') else (0, woken, t')).

(** ** Serial input *)

(** The loop state of [tty_handle_serial_input]. *)
Record serial_io := mk_sio {
  sio_tty : tty; sio_dirty : bool; sio_echo : list Z; sio_woken : list (Z * list Z) }.

(** Echo of a byte in raw mode. *)
Definition raw_echo (c : Z) : list Z :=
  if c =? 13 then [13; 10]
  else if (c =? 127) || (c =? 8) then [8; 32; 8]
  else if (32 <=? schar c) || (c =? 9) || (c =? 10) then [c]
  else [].

Definition tty_serial_byte (e : env) (c : Z) (s : serial_io) : option serial_io :=
  let t := sio_tty s in
  if c =? 3 then
    Some (mk_sio (process_interrupt_terminal e t) (sio_dirty s)
            (sio_echo s ++ [94; 67; 13; 10]) (sio_woken s))
  else if truth (ansi_mode t) || truth (raw_input_mode t) then
    b ← tty_queue_raw_input [c] (ib t);
    '(woken, t') ← process_wake_tty_reader e (set_ib b t);
    Some (mk_sio t' true (sio_echo s ++ raw_echo c) (sio_woken s ++ woken))
  else if (c =? 127) || (c =? 8) then
    if 0 <? input_length (ib t) then
      b ← tty_input_backspace (ib t);
      Some (mk_sio (set_ib b t) true (sio_echo s ++ [8; 32; 8]) (sio_woken s))
    else Some s
  else if (c =? 13) || (c =? 10) then
    b ← tty_input_enter (ib t);
    '(woken, t') ← process_wake_tty_reader e (set_ib b t);
    Some (mk_sio t' true (sio_echo s ++ [13; 10]) (sio_woken s ++ woken))
  else if ((32 <=? schar c) && (schar c <=? 126)) || (c =? 9) then
    '(b, dirty) ← tty_input_char c (ib t, sio_dirty s);
    Some (mk_sio (set_ib b t) dirty
            (sio_echo s ++ (if input_length (ib t) + 1 <? TTY_INPUT_CAPACITY then [c] else []))
            (sio_woken s))
  else Some s.

(** At most 64 of the bytes waiting on the port are taken.  Result: the C return
    value, the echo, the deliveries, the bytes left on the port, the terminal. *)
Definition tty_handle_serial_input (e : env) (port : list Z) (t : tty)
    : option (Z * list Z * list (Z * list Z) * list Z * tty) :=
  s ← foldM (tty_serial_byte e) (take 64 port) (mk_sio t false [] []);
  Some (if sio_dirty s then 1 else 0, sio_echo s, sio_woken s, drop 64 port,
        if sio_dirty s then tty_touch (sio_tty s) else sio_tty s).

(** ** Well-formed terminals *)

Definition dims (s : list (list Z)) : Prop :=
  length s = 25%nat /\ Forall (fun r => length r = 80%nat) s.

(** A cursor is on the screen, or just past the end of a row. *)
Definition cursor_ok (r c : Z) : Prop := 0 <= r < TTY_SCREEN_ROWS /\ 0 <= c <= TTY_SCREEN_COLS.

Definition vs_wf (v : vscreen) : Prop :=
  (dims (screen v) /\ dims (screen_attr v)) /\
  cursor_ok (cursor_row v) (cursor_col v) /\ cursor_ok (saved_cursor_row v) (saved_cursor_col v).

(** The text before the terminating NUL. *)
Fixpoint cstr_of (l : list Z) : list Z :=
  match l with
  | [] => []
  | c :: l' => if c =? 0 then [] else c :: cstr_of l'
  end.

(** The lines on display. *)
Definition shown (s : scrollback) : list (list Z) :=
  cstr_of <$> take (Z.to_nat (line_count s)) (lines s).

Definition lines_ok (ls : list (list Z)) : Prop :=
  length ls = 64%nat /\ Forall (fun l => length l = 120%nat) ls.

Definition sb_wf (s : scrollback) : Prop :=
  lines_ok (lines s) /\ Forall (fun l => (length l <= 119)%nat) (shown s) /\
  0 <= line_count s <= TTY_MAX_LINES /\
  length (partial_output s) = 120%nat /\ 0 <= partial_length s < TTY_MAX_LINE_CHARS.

Definition ib_wf (b : inbuf) : Prop :=
  (length (input b) = 96%nat /\ 0 <= input_length b < TTY_INPUT_CAPACITY) /\
  (length (cooked_line b) = 96%nat /\ 0 <= cooked_length b < TTY_INPUT_CAPACITY) /\
  (length (raw_input b) = 96%nat /\ 0 <= raw_length b < TTY_INPUT_CAPACITY).

(** Control state of the parser: its state, the index of the parameter being
    read and the number of its digits. *)
Record scan := mk_scan { s_state : ansi_state_t; s_pc : Z; s_run : Z }.

Definition scan0 : scan := mk_scan ANSI_STATE_NORMAL 0 0.

(** Follows the output; [None] on a parameter of more than nine digits, and on a
    '?' after a ';', which makes the parser extend a parameter of an earlier
    sequence. *)
Definition scan_step (c : Z) (s : scan) : option scan :=
  match s_state s with
  | ANSI_STATE_NORMAL => Some (if c =? 27 then mk_scan ANSI_STATE_ESCAPE 0 0 else s)
  | ANSI_STATE_ESCAPE => Some (if c =? 91 then mk_scan ANSI_STATE_BRACKET 0 0 else scan0)
  | ANSI_STATE_BRACKET =>
      if is_digit c then Some (mk_scan ANSI_STATE_PARAMS (s_pc s) 1)
      else if c =? 63 then
        if s_pc s =? 0 then Some (mk_scan ANSI_STATE_PARAMS 0 0) else None
      else if c =? 59 then
        Some (if 8 <=? s_pc s + 1 then scan0 else mk_scan ANSI_STATE_BRACKET (s_pc s + 1) 0)
      else Some scan0
  | ANSI_STATE_PARAMS =>
      if is_digit c then
        if s_run s <? 9 then Some (mk_scan ANSI_STATE_PARAMS (s_pc s) (s_run s + 1)) else None
      else if c =? 59 then
        Some (if 8 <=? s_pc s + 1 then scan0 else mk_scan ANSI_STATE_PARAMS (s_pc s + 1) 0)
      else Some scan0
  end.

(** Output whose control sequences are tame in this sense. *)
Definition tame (text : list Z) : bool :=
  match foldM scan_step text scan0 with Some _ => true | None => false end.

(** The parser is in the control state [s], and its parameters are small. *)
Definition an_wf (s : scan) (a : ansi) : Prop :=
  length (ansi_params a) = 8%nat /\ Forall (fun x => INT_MIN <= x <= INT_MAX) (ansi_params a) /\
  0 <= ansi_param_count a < 8 /\ 0 <= s_run s <= 9 /\
  ansi_state a = s_state s /\
  match ansi_state a with
  | ANSI_STATE_NORMAL | ANSI_STATE_ESCAPE => True
  | ANSI_STATE_BRACKET =>
      ansi_param_count a = s_pc s /\
      exists x, aget (ansi_params a) 0 = Some x /\ 0 <= x < 10 ^ 9
  | ANSI_STATE_PARAMS =>
      ansi_param_count a = s_pc s /\
      (exists x, aget (ansi_params a) 0 = Some x /\ 0 <= x < 10 ^ 9) /\
      (exists x, aget (ansi_params a) (ansi_param_count a) = Some x /\ 0 <= x < 10 ^ s_run s)
  end.

Definition tty_wf (s : scan) (t : tty) : Prop :=
  sb_wf (sb t) /\ ib_wf (ib t) /\ vs_wf (vs t) /\ an_wf s (an t) /\
  (ansi_mode t = 0 -> s_state s = ANSI_STATE_NORMAL).

(** ** The screen operations are defined and keep the screen's shape *)

(** [v'] differs from [v] in its cells only. *)
Definition recells (v v' : vscreen) : Prop :=
  exists s a, v' = set_cells s a v /\ dims s /\ dims a.

Definition cells_ok (v : vscreen) : Prop := dims (screen v) /\ dims (screen_attr v).

Lemma recells_refl v : cells_ok v -> recells v v.
Proof. intros [? ?]. exists (screen v), (screen_attr v). by destruct v. Qed.

Lemma recells_trans v1 v2 v3 : recells v1 v2 -> recells v2 v3 -> recells v1 v3.
Proof. intros (s&a&->&_&_) (s'&a'&->&?&?). by exists s', a'. Qed.

Lemma recells_ok v v' : recells v v' -> cells_ok v'.
Proof. intros (s&a&->&?&?). done. Qed.

Lemma dims_row s row :
  dims s -> 0 <= row < 25 -> exists r, aget s row = Some r /\ length r = 80%nat.
Proof.
  intros [Hl Hf] Hr. destruct (aget_lt s row) as [r E]; [lia|]. exists r. split; [done|].
  unfold aget in E. destruct (0 <=? row); [|done]. by apply (Forall_lookup_1 _ _ _ _ Hf E).
Qed.

Lemma dims_set s row r :
  dims s -> 0 <= row < 25 -> length r = 80%nat ->
  exists s', aset s row r = Some s' /\ dims s'.
Proof.
  intros [Hl Hf] Hr Hlen. eexists. split; [apply aset_ok; lia|]. split; [len|].
  by apply Forall_insert.
Qed.

Lemma put_cell_recells row col c a v :
  cells_ok v -> 0 <= row < 25 -> 0 <= col < 80 ->
  exists v', put_cell row col c a v = Some v' /\ recells v v'.
Proof.
  intros [Hs Ha] Hr Hc. unfold put_cell.
  destruct (dims_row _ _ Hs Hr) as (r&->&Hl). destruct (dims_row _ _ Ha Hr) as (ra&Era&Hla).
  cbn [mbind option_bind]. rewrite aset_ok by lia. cbn [mbind option_bind].
  edestruct (dims_set _ row (<[Z.to_nat col := c]> r) Hs Hr) as (s'&->&Hs'); [len|].
  cbn [mbind option_bind]. rewrite Era. cbn [mbind option_bind].
  rewrite aset_ok by lia. cbn [mbind option_bind].
  edestruct (dims_set _ row (<[Z.to_nat col := a]> ra) Ha Hr) as (a'&->&Ha'); [len|].
  cbn [mbind option_bind]. eexists. split; [done|]. by exists s', a'.
Qed.

(** A loop of cell updates updates cells only. *)
Lemma recells_loop (body : Z -> vscreen -> option vscreen) lo n v :
  cells_ok v ->
  (forall i v1, lo <= i < lo + n -> cells_ok v1 ->
     exists v2, body i v1 = Some v2 /\ recells v1 v2) ->
  exists v', foldM body (seqZ lo n) v = Some v' /\ recells v v'.
Proof.
  intros Hok Hb. foldM_by (fun (_ : nat) v' => recells v v') as (v'&E&H).
  - by apply recells_refl.
  - intros k i v1 Hk Hv. apply lookup_seqZ in Hk as [-> Hk].
    destruct (Hb (lo + Z.of_nat k) v1) as (v2&E&H2); [lia|by eapply recells_ok|].
    exists v2. split; [done|]. by eapply recells_trans.
  - rewrite E. by exists v'.
Qed.

Lemma clear_cols_recells row from till v :
  cells_ok v -> 0 <= row < 25 -> 0 <= from -> till <= 80 ->
  exists v', clear_cols row from till v = Some v' /\ recells v v'.
Proof.
  intros. apply recells_loop; [done|]. intros. apply put_cell_recells; [done|done|lia].
Qed.

Lemma screen_clear_recells v :
  cells_ok v -> exists v', screen_clear v = Some v' /\ recells v v'.
Proof.
  intros. apply recells_loop; [done|]. unfold TTY_SCREEN_ROWS. intros.
  apply clear_cols_recells; unfold TTY_SCREEN_COLS; (done || lia).
Qed.

Lemma screen_clear_line_recells row v :
  cells_ok v -> exists v', screen_clear_line row v = Some v' /\ recells v v'.
Proof.
  intros. unfold screen_clear_line, TTY_SCREEN_ROWS.
  case_if; [eexists; split; [done | by apply recells_refl]|].
  apply clear_cols_recells; unfold TTY_SCREEN_COLS; (done || lia).
Qed.

Lemma screen_clear_to_eol_recells v :
  cells_ok v -> 0 <= cursor_col v ->
  exists v', screen_clear_to_eol v = Some v' /\ recells v v'.
Proof.
  intros. unfold screen_clear_to_eol, TTY_SCREEN_ROWS.
  case_if; [eexists; split; [done | by apply recells_refl]|].
  apply clear_cols_recells; unfold TTY_SCREEN_COLS; (done || lia).
Qed.

Lemma copy_cell_up_recells row col v :
  cells_ok v -> 0 <= row < 24 -> 0 <= col < 80 ->
  exists v', copy_cell_up row col v = Some v' /\ recells v v'.
Proof.
  intros Hok Hr Hc. pose proof Hok as [Hs Ha]. unfold copy_cell_up.
  destruct (dims_row _ (row + 1) Hs) as (r&->&Hl); [lia|]. cbn [mbind option_bind].
  destruct (aget_lt r col) as [c ->]; [lia|]. cbn [mbind option_bind].
  destruct (dims_row _ (row + 1) Ha) as (ra&->&Hla); [lia|]. cbn [mbind option_bind].
  destruct (aget_lt ra col) as [a ->]; [lia|]. cbn [mbind option_bind].
  apply put_cell_recells; [done|lia|lia].
Qed.

Lemma screen_scroll_up_recells v :
  cells_ok v -> exists v', screen_scroll_up v = Some v' /\ recells v v'.
Proof.
  intros Hok. unfold screen_scroll_up.
  edestruct (recells_loop (fun row v => foldM (fun col v => copy_cell_up row col v)
    (seqZ 0 TTY_SCREEN_COLS) v) 0 (TTY_SCREEN_ROWS - 1) v Hok) as (v1&->&H1).
  - unfold TTY_SCREEN_ROWS. intros i v1 Hi Hv1. apply recells_loop; [done|].
    unfold TTY_SCREEN_COLS. intros. apply copy_cell_up_recells; [done|lia|lia].
  - cbn [mbind option_bind].
    destruct (clear_cols_recells (TTY_SCREEN_ROWS - 1) 0 TTY_SCREEN_COLS v1) as (v2&->&H2);
      [by eapply recells_ok | done..|].
    exists v2. split; [done|]. by eapply recells_trans.
Qed.

Lemma vs_wf_recells v v' : recells v v' -> vs_wf v -> vs_wf v'.
Proof. intros (s&a&->&?&?) (_&?&?). done. Qed.

Lemma vs_wf_cursor v r c : vs_wf v -> cursor_ok r c -> vs_wf (set_cursor r c v).
Proof. intros (?&_&?) ?. done. Qed.

Lemma vs_wf_saved v r c : vs_wf v -> cursor_ok r c -> vs_wf (set_saved r c v).
Proof. intros (?&?&_) ?. done. Qed.

Lemma vs_wf_attr v a : vs_wf v -> vs_wf (set_attr a v).
Proof. done. Qed.

#[local] Hint Resolve vs_wf_cursor vs_wf_saved vs_wf_attr : vibe.

(** The screen operation [r] is defined and gives a well-formed screen. *)
Definition vs_good (r : option vscreen) : Prop := exists v, r = Some v /\ vs_wf v.

Lemma vs_good_recells v r :
  vs_wf v -> (exists v', r = Some v' /\ recells v v') -> vs_good r.
Proof. intros Hv (v'&->&H). exists v'. split; [done|]. by eapply vs_wf_recells. Qed.

Lemma scroll_if_below_good v r c :
  vs_wf v -> 0 <= r <= TTY_SCREEN_ROWS -> 0 <= c <= TTY_SCREEN_COLS ->
  exists v', scroll_if_below (set_cursor r c v) = Some v' /\ vs_wf v' /\ cursor_col v' = c.
Proof.
  intros Hv Hr Hc. unfold scroll_if_below. cbn [cursor_row set_cursor]. case_if.
  - destruct (screen_scroll_up_recells (set_cursor r c v)) as (v1&->&s&a&->&Hs&Ha); [apply Hv|].
    cbn [mbind option_bind]. eexists. split; [done|]. split; [|done].
    destruct Hv as (_&_&?). done.
  - eexists. split; [done|]. split; [|done]. apply vs_wf_cursor; [done|]. split; lia.
Qed.

Lemma clamp_cursor r c : 0 <= r -> 0 <= c -> cursor_ok (clamp_row r) (clamp_col c).
Proof.
  intros. unfold clamp_row, clamp_col, cursor_ok, TTY_SCREEN_ROWS, TTY_SCREEN_COLS.
  split; case_if; lia.
Qed.

Lemma clamp_zero_ge x : 0 <= clamp_zero x.
Proof. unfold clamp_zero. case_if; lia. Qed.

Lemma i32_small x : -2000000000 <= x <= 2000000000 -> i32 x = Some x.
Proof. intros. apply i32_ok. unfold INT_MIN, INT_MAX. lia. Qed.

Lemma screen_putc_good c v : vs_wf v -> vs_good (screen_putc c v).
Proof.
  intros Hv. pose proof Hv as (_&[Hr Hc]&_). unfold screen_putc.
  unfold TTY_SCREEN_ROWS, TTY_SCREEN_COLS in *.
  assert (scroll_if_below v = Some v) as ->
    by (unfold scroll_if_below, TTY_SCREEN_ROWS; case_if; [lia|done]).
  cbn [mbind option_bind].
  assert (exists v1, (if 80 <=? cursor_col v then r ← i32 (cursor_row v + 1);
      scroll_if_below (set_cursor r 0 v) else Some v) = Some v1 /\ vs_wf v1 /\ cursor_col v1 < 80)
    as (v1&->&Hv1&Hc1).
  { case_if; [|eauto]. rewrite i32_small by lia. cbn [mbind option_bind].
    destruct (scroll_if_below_good v (cursor_row v + 1) 0 Hv) as (v'&E'&Hv'&Hc');
      unfold TTY_SCREEN_ROWS, TTY_SCREEN_COLS; [lia|lia|].
    exists v'. rewrite Hc'. done. }
  pose proof Hv1 as (Hok&[Hr1 Hc1']&_). unfold TTY_SCREEN_ROWS, TTY_SCREEN_COLS in *.
  cbn [mbind option_bind]. case_if; [|lia].
  destruct (put_cell_recells (cursor_row v1) (cursor_col v1) c (current_attr v1) v1) as (v2&->&H2);
    [done|lia|lia|]. cbn [mbind option_bind].
  pose proof (vs_wf_recells _ _ H2 Hv1) as Hv2.
  assert (cursor_col v2 = cursor_col v1 /\ cursor_row v2 = cursor_row v1) as [E1 E2]
    by (by destruct H2 as (?&?&->&_)).
  rewrite i32_small by lia. cbn [mbind option_bind]. eexists. split; [done|].
  apply vs_wf_cursor; [done|]. unfold cursor_ok, TTY_SCREEN_ROWS, TTY_SCREEN_COLS. lia.
Qed.

Lemma erase_display_good p0 v : vs_wf v -> vs_good (ansi_erase_display p0 v).
Proof.
  intros Hv. pose proof Hv as (Hok&[Hr Hc]&_).
  unfold TTY_SCREEN_ROWS, TTY_SCREEN_COLS in *. apply (vs_good_recells v); [done|].
  unfold ansi_erase_display. repeat case_if.
  - destruct (screen_clear_to_eol_recells v) as (v1&->&H1); [done|lia|]. cbn [mbind option_bind].
    pose proof H1 as (s1&a1&E1&_). replace (cursor_row v1) with (cursor_row v) by (by rewrite E1).
    rewrite i32_small by lia. cbn [mbind option_bind].
    edestruct (recells_loop screen_clear_line) as (v2&->&H2);
      [by eapply recells_ok | intros; by apply screen_clear_line_recells |].
    exists v2. split; [done|]. by eapply recells_trans.
  - edestruct (recells_loop screen_clear_line 0 (cursor_row v)) as (v2&->&H2);
      [exact Hok | intros; by apply screen_clear_line_recells |]. cbn [mbind option_bind].
    pose proof H2 as (s1&a1&E1&_).
    destruct (clear_cols_recells (cursor_row v2) 0 (cursor_col v2) v2) as (v3&->&H3);
      [by eapply recells_ok | rewrite E1; simpl; lia | done | rewrite E1; simpl; lia |].
    exists v3. split; [done|]. by eapply recells_trans.
  - by apply screen_clear_recells.
  - eexists. split; [done|]. by apply recells_refl.
Qed.

Lemma erase_line_good p0 v : vs_wf v -> vs_good (ansi_erase_line p0 v).
Proof.
  intros Hv. pose proof Hv as (Hok&[Hr Hc]&_).
  unfold TTY_SCREEN_ROWS, TTY_SCREEN_COLS in *. apply (vs_good_recells v); [done|].
  unfold ansi_erase_line. repeat case_if.
  - apply screen_clear_to_eol_recells; [done|lia].
  - apply clear_cols_recells; [done|lia|lia|lia].
  - by apply screen_clear_line_recells.
  - eexists. split; [done|]. by apply recells_refl.
Qed.

(** The value of a parameter is its array entry or the default. *)
Lemma ansi_param_range index a hi :
  length (ansi_params a) = 8%nat -> 0 <= index < 8 -> 1 <= hi ->
  (index <= ansi_param_count a -> exists x, aget (ansi_params a) index = Some x /\ x <= hi) ->
  exists p, ansi_param index 1 a = Some p /\ 1 <= p <= hi.
Proof.
  intros Hl Hi Hhi Hx. unfold ansi_param. case_if; [|exists 1; split; [done|lia]].
  destruct Hx as (x&->&Hx); [lia|]. cbn [mbind option_bind]. case_if; eexists; (split; [done|lia]).
Qed.

Lemma int_param a i :
  length (ansi_params a) = 8%nat -> Forall (fun x => INT_MIN <= x <= INT_MAX) (ansi_params a) ->
  0 <= i < 8 -> exists x, aget (ansi_params a) i = Some x /\ x <= INT_MAX.
Proof.
  intros Hl Hf Hi. destruct (aget_lt (ansi_params a) i) as [x E]; [lia|]. exists x. split; [done|].
  unfold aget in E. destruct (0 <=? i); [|done]. pose proof (Forall_lookup_1 _ _ _ _ Hf E) as Hx. apply Hx.
Qed.

Lemma sgr_good a params v :
  vs_wf v -> Z.of_nat (length params) = Z.min (ansi_param_count a + 1) 8 ->
  0 <= ansi_param_count a < 8 ->
  vs_good (foldM (fun i v => m ← aget params i; Some (ansi_sgr m v))
             (seqZ 0 (ansi_param_count a + 1)) v).
Proof.
  intros Hv Hl Ha. foldM_by (fun (_ : nat) v => vs_wf v) as (v'&E&H).
  - done.
  - intros k i s Hk Hs. apply lookup_seqZ in Hk as [-> Hk].
    destruct (aget_lt params (0 + Z.of_nat k)) as [m ->]; [lia|]. cbn [mbind option_bind].
    eexists. split; [done|]. unfold ansi_sgr. repeat case_if; done.
  - rewrite E. by exists v'.
Qed.

(** Every command is defined when the first parameter is below a billion. *)
Lemma ansi_command_good a params v :
  vs_wf v -> length (ansi_params a) = 8%nat ->
  Forall (fun x => INT_MIN <= x <= INT_MAX) (ansi_params a) -> 0 <= ansi_param_count a < 8 ->
  (exists x, aget (ansi_params a) 0 = Some x /\ 0 <= x < 10 ^ 9) ->
  Z.of_nat (length params) = Z.min (ansi_param_count a + 1) 8 ->
  vs_good (ansi_command a params v).
Proof.
  intros Hv Hl Hf Hn (x0&Hx0&Hb) Hlen. pose proof Hv as (Hok&[Hr Hc]&[Hsr Hsc]).
  destruct (ansi_param_range 0 a (10 ^ 9) Hl) as (p&Ep&Hp); [lia|lia|intros; exists x0; split; [done|lia]|].
  destruct (aget_lt params 0) as [q Eq]; [lia|].
  unfold TTY_SCREEN_ROWS, TTY_SCREEN_COLS in *.
  unfold ansi_command. repeat case_if; rewrite ?Ep, ?Eq; cbn [mbind option_bind];
    rewrite ?i32_small by lia; cbn [mbind option_bind].
  - destruct (ansi_param_range 1 a INT_MAX Hl) as (p1&->&Hp1); [lia|done|intros; by apply int_param|].
    cbn [mbind option_bind]. rewrite i32_ok by (unfold INT_MIN, INT_MAX in *; lia).
    cbn [mbind option_bind]. eexists. split; [done|].
    apply vs_wf_cursor; [done|]. apply clamp_cursor; apply clamp_zero_ge.
  - by apply erase_display_good.
  - by apply erase_line_good.
  - eexists. split; [done|]. apply vs_wf_cursor; [done|].
    unfold cursor_ok, clamp_zero, TTY_SCREEN_ROWS, TTY_SCREEN_COLS. case_if; lia.
  - eexists. split; [done|]. apply vs_wf_cursor; [done|].
    unfold cursor_ok, clamp_row, TTY_SCREEN_ROWS, TTY_SCREEN_COLS. case_if; lia.
  - eexists. split; [done|]. apply vs_wf_cursor; [done|].
    unfold cursor_ok, clamp_col, TTY_SCREEN_ROWS, TTY_SCREEN_COLS. case_if; lia.
  - eexists. split; [done|]. apply vs_wf_cursor; [done|].
    unfold cursor_ok, clamp_zero, TTY_SCREEN_ROWS, TTY_SCREEN_COLS. case_if; lia.
  - by apply sgr_good.
  - eexists. split; [done|]. by apply vs_wf_saved.
  - eexists. split; [done|]. by apply vs_wf_cursor.
  - by eexists.
Qed.

(** ** The parser keeps its invariant on tame output *)

Definition ints (p : list Z) : Prop :=
  length p = 8%nat /\ Forall (fun x => INT_MIN <= x <= INT_MAX) p.

Lemma ints_set p i x :
  ints p -> 0 <= i < 8 -> 0 <= x < 10 ^ 9 ->
  exists p', aset p i x = Some p' /\ ints p' /\ aget p' i = Some x /\
             (forall j, j <> i -> aget p' j = aget p j).
Proof.
  intros [Hl Hf] Hi Hx. assert (aset p i x = Some (<[Z.to_nat i := x]> p)) as E by (apply aset_ok; lia).
  eexists. split; [exact E|]. split; [split; [len|]|split].
  - apply Forall_insert; [done|]. unfold INT_MIN, INT_MAX. lia.
  - by eapply aget_aset_eq.
  - intros j Hj. eapply aget_aset_ne; [exact E|done].
Qed.

Lemma is_digit_range c : byte_ok c -> is_digit c = true -> 48 <= c <= 57.
Proof. unfold byte_ok, is_digit, schar. intros Hc. case_if; intros ?; bools; lia. Qed.

(** Result of a parser step: defined, and in the control state [s']. *)
Definition step_good (s' : scan) (r : option (ansi * vscreen)) : Prop :=
  exists a' v', r = Some (a', v') /\ an_wf s' a' /\ vs_wf v'.

Lemma reset_good a : ints (ansi_params a) -> an_wf scan0 (ansi_reset a).
Proof. intros [? ?]. unfold an_wf. by split_and!. Qed.

Lemma execute_good a v :
  ints (ansi_params a) -> 0 <= ansi_param_count a < 8 ->
  (exists x, aget (ansi_params a) 0 = Some x /\ 0 <= x < 10 ^ 9) -> vs_wf v ->
  step_good scan0 (ansi_execute (a, v)).
Proof.
  intros Hp Hn H0 Hv. pose proof Hp as [Hl Hf]. unfold ansi_execute, ansi_copy_params.
  rewrite slice_ok by lia. cbn [mbind option_bind].
  edestruct (ansi_command_good a) as (v'&->&Hv'); [done..| |].
  2:{ cbn [mbind option_bind]. do 2 eexists. split; [done|]. split; [by apply reset_good | done]. }
  len.
Qed.

Lemma normal_char_good c s a v s' :
  an_wf s a -> vs_wf v -> s_state s = ANSI_STATE_NORMAL ->
  scan_step c s = Some s' -> step_good s' (ansi_normal_char c (a, v)).
Proof.
  intros Ha Hv Hs Hstep. pose proof Hv as (_&[Hr Hc]&_).
  assert (step_good s (Some (a, v))) as Hid by (by exists a, v).
  unfold TTY_SCREEN_ROWS, TTY_SCREEN_COLS in *.
  unfold scan_step in Hstep. rewrite Hs in Hstep. unfold ansi_normal_char.
  destruct (c =? 27); simplify_eq.
  { do 2 eexists. split; [done|]. split; [|done]. destruct Ha as (?&?&?&?&_). unfold an_wf. split_and!; try done; simpl; lia. }
  assert (forall v', vs_wf v' -> step_good s' (Some (a, v'))) as Hk by (intros v' ?; by exists a, v').
  repeat case_if; try (apply Hk); try done.
  - rewrite i32_small by lia. cbn [mbind option_bind].
    destruct (scroll_if_below_good v (cursor_row v + 1) 0 Hv) as (v'&->&Hv'&_);
      unfold TTY_SCREEN_ROWS, TTY_SCREEN_COLS; [lia|lia|]. by apply Hk.
  - apply vs_wf_cursor; [done|]. split; [done|]. unfold TTY_SCREEN_COLS; lia.
  - apply vs_wf_cursor; [done|].
    unfold cursor_ok, TTY_SCREEN_ROWS, TTY_SCREEN_COLS; lia.
  - rewrite i32_small by lia. cbn [mbind option_bind]. apply Hk, vs_wf_cursor; [done|].
    split; [done|]. unfold clamp_col, TTY_SCREEN_COLS.
    assert (0 <= Z.land (cursor_col v + 4) (Z.lnot 3)) by (apply Z.land_nonneg; lia).
    case_if; lia.
  - destruct (screen_putc_good c v Hv) as (v'&->&Hv'). by apply Hk.
Qed.

Lemma escape_char_good c s a v s' :
  an_wf s a -> vs_wf v -> s_state s = ANSI_STATE_ESCAPE ->
  scan_step c s = Some s' -> step_good s' (ansi_escape_char c (a, v)).
Proof.
  intros Ha Hv Hs Hstep. pose proof Hv as (Hok&[Hr Hc]&Hsv). pose proof Ha as (Hl&Hf&_).
  unfold scan_step in Hstep. rewrite Hs in Hstep. unfold ansi_escape_char.
  destruct (c =? 91); simplify_eq.
  { destruct (ints_set (ansi_params a) 0 0) as (p&->&[Hl' Hf']&E&_); [done|lia|lia|].
    cbn [mbind option_bind]. do 2 eexists. split; [done|]. split; [|done].
    unfold an_wf. split_and!; try done. split; [done|]. exists 0. split; [exact E|lia]. }
  assert (forall v', vs_wf v' -> step_good scan0 (Some (ansi_reset a, v'))) as Hk
    by (intros v' ?; exists (ansi_reset a), v'; split_and!; try done; by apply reset_good).
  repeat case_if; try (apply Hk); try done.
  - destruct (screen_clear_recells v) as (v'&->&H'); [done|]. cbn [mbind option_bind].
    apply Hk, vs_wf_cursor; [by eapply vs_wf_recells|done].
  - destruct (screen_scroll_up_recells v) as (v'&->&H'); [done|]. cbn [mbind option_bind].
    apply Hk. by eapply vs_wf_recells.
  - unfold TTY_SCREEN_ROWS, TTY_SCREEN_COLS in *. rewrite i32_small by lia. cbn [mbind option_bind].
    apply Hk, vs_wf_cursor; [done|]. unfold cursor_ok, TTY_SCREEN_ROWS, TTY_SCREEN_COLS; lia.
Qed.

Lemma bracket_char_good c s a v s' :
  byte_ok c -> an_wf s a -> vs_wf v -> s_state s = ANSI_STATE_BRACKET ->
  scan_step c s = Some s' -> step_good s' (ansi_bracket_char c (a, v)).
Proof.
  intros Hb Ha Hv Hs Hstep. pose proof Ha as (Hl&Hf&Hn&Hrun&Hst&Hm).
  rewrite Hst, Hs in Hm. destruct Hm as [Hpc (x0&H0&Hx0)].
  unfold scan_step in Hstep. rewrite Hs in Hstep. unfold ansi_bracket_char.
  destruct (is_digit c) eqn:Ed; simplify_eq.
  { pose proof (is_digit_range c Hb Ed).
    destruct (ints_set (ansi_params a) (ansi_param_count a) (c - 48)) as (p&->&[Hl' Hf']&E&Eo);
      [done|lia|lia|]. cbn [mbind option_bind]. do 2 eexists. split; [done|]. split; [|done].
    unfold an_wf. split_and!; try done; [simpl; lia..|]. split; [done|]. split.
    - simpl. destruct (decide (ansi_param_count a = 0)) as [E0|E0].
      + exists (c - 48). rewrite E0 in E. split; [done|lia].
      + exists x0. rewrite Eo by done. done.
    - exists (c - 48). split; [exact E|]. simpl. lia. }
  destruct (c =? 63).
  { destruct (s_pc s =? 0) eqn:E0; [|done]. bools. simplify_eq.
    destruct (ints_set (ansi_params a) 0 0) as (p&->&[Hl' Hf']&E&Eo); [done|lia|lia|].
    cbn [mbind option_bind]. do 2 eexists. split; [done|]. split; [|done].
    unfold an_wf. split_and!; try done; [simpl; lia..|]. split; [simpl; lia|].
    split; exists 0; (split; [|simpl; lia]); [exact E|].
    simpl. by rewrite Hpc, E0. }
  destruct (c =? 59); simplify_eq.
  { destruct (ints_set (ansi_params a) (ansi_param_count a) 0) as (p&->&[Hl' Hf']&E&Eo);
      [done|lia|lia|]. cbn [mbind option_bind]. rewrite <- Hpc. cbn [ansi_param_count set_params].
    do 2 eexists. split; [done|]. split; [|done]. case_if; [by apply reset_good|].
    unfold an_wf. split_and!; try done; [simpl; lia..|]. split; [done|]. simpl.
    destruct (decide (ansi_param_count a = 0)) as [E0|E0].
    - exists 0. rewrite E0 in E. split; [done|lia].
    - exists x0. rewrite Eo by done. done. }
  apply execute_good; try done. by exists x0.
Qed.

Lemma params_char_good c s a v s' :
  byte_ok c -> an_wf s a -> vs_wf v -> s_state s = ANSI_STATE_PARAMS ->
  scan_step c s = Some s' -> step_good s' (ansi_params_char c (a, v)).
Proof.
  intros Hb Ha Hv Hs Hstep. pose proof Ha as (Hl&Hf&Hn&Hrun&Hst&Hm).
  rewrite Hst, Hs in Hm. destruct Hm as (Hpc&(x0&H0&Hx0)&(x&Hx&Hxr)).
  unfold scan_step in Hstep. rewrite Hs in Hstep. unfold ansi_params_char.
  destruct (is_digit c) eqn:Ed.
  { destruct (s_run s <? 9) eqn:E9; [|done]. bools. simplify_eq.
    pose proof (is_digit_range c Hb Ed).
    assert (10 ^ (s_run s + 1) = 10 * 10 ^ s_run s) as Ep by (rewrite Z.pow_add_r by lia; lia).
    assert (10 ^ (s_run s + 1) <= 10 ^ 9) by (apply Z.pow_le_mono_r; lia).
    rewrite Hx. cbn [mbind option_bind]. rewrite i32_small by lia. cbn [mbind option_bind].
    rewrite i32_small by lia. cbn [mbind option_bind].
    destruct (ints_set (ansi_params a) (ansi_param_count a) (x * 10 + (c - 48)))
      as (p&->&[Hl' Hf']&E&Eo); [done|lia|lia|]. cbn [mbind option_bind].
    do 2 eexists. split; [done|]. split; [|done].
    unfold an_wf. split_and!; try done; [simpl; lia..|]. split; [done|]. split.
    - simpl. destruct (decide (ansi_param_count a = 0)) as [E0|E0].
      + exists (x * 10 + (c - 48)). rewrite E0 in E. split; [done|lia].
      + exists x0. rewrite Eo by done. done.
    - exists (x * 10 + (c - 48)). split; [exact E|]. cbn [s_run]. lia. }
  destruct (c =? 59); simplify_eq.
  { rewrite <- Hpc. case_if.
    - do 2 eexists. split; [done|]. split; [by apply reset_good | done].
    - destruct (ints_set (ansi_params a) (ansi_param_count a + 1) 0) as (p&->&[Hl' Hf']&E&Eo);
        [done|lia|lia|]. cbn [mbind option_bind]. do 2 eexists. split; [done|]. split; [|done].
      unfold an_wf. split_and!; try done; [simpl; lia..|]. split; [done|]. split.
      + exists x0. simpl. rewrite Eo by lia. done.
      + exists 0. split; [exact E|]. simpl. lia. }
  apply execute_good; try done. by exists x0.
Qed.

Lemma ansi_char_good c s a v s' :
  byte_ok c -> an_wf s a -> vs_wf v -> scan_step c s = Some s' ->
  step_good s' (ansi_char c (a, v)).
Proof.
  intros Hb Ha Hv Hstep. pose proof Ha as (_&_&_&_&Hst&_). unfold ansi_char. simpl.
  destruct (ansi_state a); symmetry in Hst;
    eauto using normal_char_good, escape_char_good, bracket_char_good, params_char_good.
Qed.

(** ** Scrollback operations are defined *)

Lemma take_S_lookup {A} (l k : list A) n x :
  take (S n) l = take (S n) k -> k !! n = Some x -> take n l = take n k /\ l !! n = Some x.
Proof.
  intros H Hx. assert (n < length k)%nat by (by eapply lookup_lt_Some). split.
  - apply (f_equal (take n)) in H. by rewrite !take_take, !Nat.min_l in H by lia.
  - rewrite <- (lookup_take_lt l (S n)), H, lookup_take_lt by lia. done.
Qed.

(** The copy keeps what is left of [i] and stores the text, cut and terminated. *)
Lemma tty_copy_loop_spec fuel capacity (i : nat) dest src :
  (i < capacity)%nat -> (capacity <= length dest)%nat -> (capacity - i <= fuel)%nat ->
  (capacity <= length src \/ exists k, i <= k /\ src !! k = Some 0%Z)%nat ->
  exists d, tty_copy_loop fuel (Z.of_nat capacity) (Z.of_nat i) dest src = Some d /\
    length d = length dest /\ take i d = take i dest /\
    cstr_of (drop i d) = take (capacity - 1 - i) (cstr_of (drop i src)).
Proof.
  revert i dest. induction fuel as [|fuel IH]; intros i dest Hi Hd Hf Hs; [lia|].
  cbn [tty_copy_loop]. destruct (lookup_lt_is_Some_2 src i) as [c Hc].
  { destruct Hs as [?|(k&?&Hk%lookup_lt_Some)]; lia. }
  rewrite aget_nat, Hc. cbn [mbind option_bind]. rewrite !aset_ok, Nat2Z.id by lia.
  rewrite (drop_S _ _ _ Hc). cbn [cstr_of]. case_if.
  - cbn [mbind option_bind]. replace (Z.of_nat i + 1) with (Z.of_nat (S i)) by lia.
    destruct (IH (S i) (<[i := c]> dest)) as (d&->&Hd'&Ht&Hcs); [lia|len|lia| |].
    { destruct Hs as [?|(k&?&Hk)]; [by left|right]. exists k. split; [|done].
      destruct (decide (i = k)); [simplify_eq|lia]. }
    exists d. rewrite length_insert in Hd'. split; [done|]. split; [done|].
    destruct (take_S_lookup _ _ _ c Ht) as [Ht' Hl]; [apply list_lookup_insert_eq; lia|].
    rewrite take_insert_ge in Ht' by lia. split; [done|]. rewrite (drop_S _ _ _ Hl). cbn [cstr_of].
    destruct (c =? 0) eqn:E; [lia|]. rewrite Hcs.
    by replace (capacity - 1 - i)%nat with (S (capacity - 1 - S i)) by lia.
  - eexists. split; [done|]. split; [len|]. split; [by apply take_insert_ge|].
    rewrite (drop_S _ 0 i) by (apply list_lookup_insert_eq; lia). cbn [cstr_of].
    destruct (c =? 0) eqn:E; [by rewrite take_nil|].
    assert (capacity - 1 - i = 0)%nat as -> by lia. done.
Qed.

(** A text that fits in a line or is terminated. *)
Definition text_ok (text : list Z) : Prop :=
  (120 <= length text)%nat \/ exists k, text !! k = Some 0.

Lemma tty_copy_text_spec dest text :
  length dest = 120%nat -> text_ok text ->
  exists d, tty_copy_text dest TTY_MAX_LINE_CHARS text = Some d /\ length d = 120%nat /\
            cstr_of d = take 119 (cstr_of text).
Proof.
  intros Hd Ht. unfold tty_copy_text. change (TTY_MAX_LINE_CHARS =? 0) with false. cbv iota.
  destruct (tty_copy_loop_spec (S (Z.to_nat TTY_MAX_LINE_CHARS)) 120 0 dest text)
    as (d&E&Hl&_&Hc); [lia|lia|unfold TTY_MAX_LINE_CHARS; lia| |exists d; split_and!; [exact E|lia|exact Hc]].
  destruct Ht as [?|[k ?]]; [by left|right]. exists k. split; [lia|done].
Qed.

Lemma lines_row ls i : lines_ok ls -> 0 <= i < 64 -> exists l, aget ls i = Some l /\ length l = 120%nat.
Proof.
  intros [Hl Hf] Hi. destruct (aget_lt ls i) as [l E]; [lia|]. exists l. split; [done|].
  unfold aget in E. destruct (0 <=? i); [|done]. by apply (Forall_lookup_1 _ _ _ _ Hf E).
Qed.

Lemma lines_set ls i l :
  lines_ok ls -> 0 <= i < 64 -> length l = 120%nat ->
  exists ls', aset ls i l = Some ls' /\ lines_ok ls'.
Proof.
  intros [Hl Hf] Hi Hlen. eexists. split; [apply aset_ok; lia|]. split; [len|]. by apply Forall_insert.
Qed.

Definition last64 (l : list (list Z)) : list (list Z) := drop (length l - 64) l.

(** The scrolling loop moves every line up by one. *)
Lemma scroll_lines_spec ls :
  lines_ok ls -> Forall (fun l => (length (cstr_of l) <= 119)%nat) ls ->
  exists ls', foldM tty_scroll_lines (seqZ 1 (TTY_MAX_LINES - 1)) ls = Some ls' /\ lines_ok ls' /\
    forall j : nat, (j < 63)%nat -> cstr_of <$> ls' !! j = cstr_of <$> ls !! S j.
Proof.
  intros Hok Hshort.
  foldM_by (fun (n : nat) ls' => lines_ok ls' /\ forall j : nat,
    cstr_of <$> ls' !! j = cstr_of <$> ls !! (if decide (j < n)%nat then S j else j))
    as (ls'&E&Hok'&H).
  - by split.
  - intros n i ls1 Hn [Hok1 H1]. apply lookup_seqZ in Hn as [-> Hn].
    unfold TTY_MAX_LINES in Hn. unfold tty_scroll_lines.
    destruct (lines_row ls1 (1 + Z.of_nat n - 1) Hok1) as (d&->&Hd); [lia|]. cbn [mbind option_bind].
    destruct (lines_row ls1 (1 + Z.of_nat n) Hok1) as (l&El&Hl); [lia|]. rewrite El. cbn [mbind option_bind].
    destruct (tty_copy_text_spec d l) as (d'&->&Hd'&Hc); [done|left; lia|]. cbn [mbind option_bind].
    destruct (lines_set ls1 (1 + Z.of_nat n - 1) d' Hok1) as (ls2&E2&Hok2); [lia|done|].
    exists ls2. split; [done|]. split; [done|]. intros j.
    replace (1 + Z.of_nat n) with (Z.of_nat (S n)) in El by lia. rewrite aget_nat in El.
    pose proof (H1 (S n)) as HS. rewrite El, decide_False in HS by lia.
    destruct (ls !! S n) as [l0|] eqn:E0; [|done]. cbn in HS. injection HS as HS.
    apply aset_Some in E2 as [_ ->]. replace (Z.to_nat (1 + Z.of_nat n - 1)) with n by lia.
    destruct (decide (j = n)) as [->|Hj].
    + rewrite list_lookup_insert_eq by (destruct Hok1; lia). rewrite decide_True by lia.
      rewrite E0. cbn. rewrite Hc, HS. f_equal. apply take_ge.
      apply (Forall_lookup_1 _ _ _ _ Hshort E0).
    + rewrite list_lookup_insert_ne by done. rewrite H1. by repeat case_decide; try lia.
  - rewrite E. exists ls'. split; [done|]. split; [done|]. intros j Hj. rewrite H.
    rewrite decide_True; [done|]. rewrite length_seqZ. unfold TTY_MAX_LINES. lia.
Qed.

Lemma Forall_shown_full s :
  sb_wf s -> line_count s = 64 -> Forall (fun l => (length (cstr_of l) <= 119)%nat) (lines s).
Proof.
  intros ([Hl _]&Hsh&_) E. unfold shown in Hsh. rewrite E, take_ge in Hsh by lia.
  by rewrite Forall_fmap in Hsh.
Qed.

Lemma append_line_spec text t :
  sb_wf (sb t) -> text_ok text ->
  exists s', tty_append_display_line text t = Some (tty_touch (set_sb s' t)) /\ sb_wf s' /\
    partial_output s' = partial_output (sb t) /\ partial_length s' = partial_length (sb t) /\
    shown s' = last64 (shown (sb t) ++ [take 119 (cstr_of text)]).
Proof.
  intros Hwf Ht. pose proof Hwf as (Hok&Hsh&Hlc&Hpo&[Hp1 Hp2]). unfold tty_append_display_line.
  unfold TTY_MAX_LINES in Hlc |- *. pose proof Hok as [Hl64 _]. case_if.
  - destruct (lines_row _ (line_count (sb t)) Hok) as (d&->&Hd); [lia|]. cbn [mbind option_bind].
    destruct (tty_copy_text_spec d text) as (d'&->&Hd'&Hc); [done..|]. cbn [mbind option_bind].
    destruct (lines_set _ (line_count (sb t)) d' Hok) as (ls&E&Hok'); [lia|done|]. rewrite E.
    cbn [mbind option_bind]. eexists. split; [done|]. rewrite u64_id by lia.
    assert (cstr_of <$> take (Z.to_nat (line_count (sb t) + 1)) ls =
            shown (sb t) ++ [take 119 (cstr_of text)]) as Hs.
    { apply aset_Some in E as [_ ->]. unfold shown.
      replace (Z.to_nat (line_count (sb t) + 1)) with (S (Z.to_nat (line_count (sb t)))) by lia.
      rewrite (take_S_r _ _ d') by (apply list_lookup_insert_eq; lia).
      rewrite take_insert_ge by lia. rewrite fmap_app. by rewrite <- Hc. }
    split; [split_and!; try done|].
    + unfold shown. cbn [lines line_count]. rewrite Hs. apply Forall_app. split; [done|].
      constructor; [rewrite length_take; lia|done].
    + cbn [line_count]. lia.
    + cbn [line_count]. unfold TTY_MAX_LINES. lia.
    + split_and!; try done. unfold shown at 1. cbn [lines line_count]. rewrite Hs. unfold last64.
      replace (length _ - 64)%nat with 0%nat; [done|]. unfold shown. len.
  - assert (line_count (sb t) = 64) as E64 by lia.
    destruct (scroll_lines_spec _ Hok) as (ls&E&Hok'&Hmv); [by apply Forall_shown_full|].
    unfold TTY_MAX_LINES in E. rewrite E. cbn [mbind option_bind].
    destruct (lines_row _ (64 - 1) Hok') as (d&->&Hd); [lia|]. cbn [mbind option_bind].
    destruct (tty_copy_text_spec d text) as (d'&->&Hd'&Hc); [done..|]. cbn [mbind option_bind].
    destruct (lines_set _ (64 - 1) d' Hok') as (ls2&E2&Hok2); [lia|done|]. rewrite E2.
    cbn [mbind option_bind]. eexists. split; [done|].
    assert (cstr_of <$> ls2 = last64 (shown (sb t) ++ [take 119 (cstr_of text)])) as Hs.
    { apply aset_Some in E2 as [_ ->]. unfold last64, shown. rewrite E64, (take_ge (lines _)) by lia.
      rewrite length_app, length_fmap, Hl64. change (64 + length _ - 64)%nat with 1%nat.
      apply list_eq. intros j. rewrite lookup_drop, list_lookup_fmap. simpl (1 + j)%nat.
      destruct Hok' as [Hls _]. destruct (decide (j < 63)%nat) as [Hj|Hj].
      - rewrite list_lookup_insert_ne by lia. rewrite Hmv by done.
        rewrite lookup_app_l by len. by rewrite list_lookup_fmap.
      - destruct (decide (j = 63%nat)) as [->|].
        + rewrite list_lookup_insert_eq by lia. cbn. rewrite lookup_app_r by len.
          rewrite length_fmap, Hl64. simpl. by rewrite Hc.
        + rewrite !lookup_ge_None_2; [done | len | len]. }
    split; [split_and!; try done|].
    + unfold shown. cbn [lines line_count]. rewrite E64, take_ge by (destruct Hok2; lia).
      rewrite Hs. unfold last64. apply Forall_drop, Forall_app. split; [done|].
      constructor; [rewrite length_take; lia|done].
    + cbn [line_count]. lia.
    + cbn [line_count]. rewrite E64. done.
    + split_and!; try done. unfold shown at 1. cbn [lines line_count].
      rewrite E64, take_ge by (destruct Hok2; lia). done.
Qed.

(** ** Plain output refines a log of lines *)

(** The lines shown and the line being written. *)
Definition log : Type := list (list Z) * list Z.

Definition log_flush (l : log) : log :=
  let '(h, p) := l in
  if (length p =? 0)%nat then (h, []) else (last64 (h ++ [cstr_of p]), []).

Definition log_char (l : log) (c : Z) : log :=
  if c =? 13 then l
  else if c =? 10 then log_flush l
  else if c =? 8 then (l.1, take (length l.2 - 1) l.2)
  else
    let '(h, p) := if (119 <=? length l.2)%nat then log_flush l else l in
    (h, p ++ [c]).

Definition log_of (s : scrollback) : log :=
  (shown s, take (Z.to_nat (partial_length s)) (partial_output s)).

(** Only the scrollback and the revision differ. *)
Definition same_io (t t' : tty) : Prop :=
  ib t' = ib t /\ vs t' = vs t /\ an t' = an t /\ ansi_mode t' = ansi_mode t /\
  waiter_pid t' = waiter_pid t /\ raw_input_mode t' = raw_input_mode t.

Lemma same_io_trans t1 t2 t3 : same_io t1 t2 -> same_io t2 t3 -> same_io t1 t3.
Proof. unfold same_io. intuition congruence. Qed.

Lemma cstr_of_app_0 a b : cstr_of (a ++ 0 :: b) = cstr_of a.
Proof. induction a as [|x a IH]; [done|]. simpl. case_if; [done|]. by rewrite IH. Qed.

Lemma cstr_of_length l : (length (cstr_of l) <= length l)%nat.
Proof. induction l as [|x l IH]; [done|]. simpl. case_if; simpl; lia. Qed.

(** The outcome of writing to the log. *)
Definition log_good (l : log) (t : tty) (r : option tty) : Prop :=
  exists t', r = Some t' /\ sb_wf (sb t') /\ same_io t t' /\ log_of (sb t') = l.

Lemma log_good_refl t : sb_wf (sb t) -> log_good (log_of (sb t)) t (Some t).
Proof. intros. exists t. unfold same_io. by split_and!. Qed.

Lemma flush_spec t :
  sb_wf (sb t) -> log_good (log_flush (log_of (sb t))) t (tty_flush_partial_line t).
Proof.
  intros Hwf. pose proof Hwf as (Hok&Hsh&[Hlc1 Hlc2]&Hpo&[Hp1 Hp2]). unfold TTY_MAX_LINE_CHARS in Hp2.
  unfold tty_flush_partial_line. rewrite aset_ok by lia. cbn [mbind option_bind].
  set (n := Z.to_nat (partial_length (sb t))). set (p := <[n := 0]> (partial_output (sb t))).
  assert (length p = 120%nat) as Hlp by (unfold p; len).
  assert (p !! n = Some 0) as Hpn by (apply list_lookup_insert_eq; lia).
  unfold log_of. fold n. unfold log_flush. rewrite length_take, Hpo, Nat.min_l by lia.
  set (t1 := set_sb _ t).
  assert (sb_wf (sb t1)) as Hwf1 by (by split_and!).
  destruct (0 <? partial_length (sb t)) eqn:E0; bools.
  - destruct (append_line_spec p t1 Hwf1) as (s'&E&Hwf'&Epo&Epl&Es); [left; lia|].
    rewrite E. cbn [mbind option_bind]. destruct Hwf' as (?&?&[??]&?&[??]).
    cbn [sb tty_touch set_sb]. rewrite Epo. cbn [partial_output sb set_sb t1].
    rewrite aset_ok by lia. cbn [mbind option_bind]. eexists. split; [done|].
    destruct (n =? 0)%nat eqn:En; [apply Nat.eqb_eq in En; lia|].
    split; [|split; [done|]].
    + split_and!; try done; cbn; try lia. len.
    + unfold log_of. cbn. unfold shown at 1. cbn. f_equal. rewrite <- (take_drop_middle _ _ _ Hpn) in Es.
      rewrite cstr_of_app_0 in Es. unfold p in Es. rewrite take_insert_ge in Es by lia.
      unfold shown at 1 in Es. rewrite Es. f_equal. f_equal. f_equal. apply take_ge.
      pose proof (cstr_of_length (take n (partial_output (sb t)))). rewrite length_take in *. lia.
  - cbn [mbind option_bind]. cbn [sb set_sb t1 partial_output]. rewrite aset_ok by lia. cbn [mbind option_bind]. eexists. split; [done|].
    assert (n = 0%nat) as -> by lia. cbn [Nat.eqb]. split; [|split; [done|done]].
    split_and!; try done; cbn; try lia. len.
Qed.

Lemma output_char_spec c t :
  sb_wf (sb t) -> log_good (log_char (log_of (sb t)) c) t (tty_append_output_char c t).
Proof.
  intros Hwf. unfold tty_append_output_char, log_char. do 2 (case_if; [by apply log_good_refl || by apply flush_spec|]).
  pose proof Hwf as (Hok&Hsh&[Hlc1 Hlc2]&Hpo&[Hp1 Hp2]). unfold TTY_MAX_LINE_CHARS in *.
  cbn [fst snd log_of]. rewrite length_take, Hpo, Nat.min_l by lia.
  set (n := Z.to_nat (partial_length (sb t))). case_if.
  - case_if.
    + rewrite aset_ok by lia. cbn [mbind option_bind]. eexists. split; [done|].
      split; [split_and!; try done; cbn; unfold TTY_MAX_LINE_CHARS; len|]. split; [done|].
      unfold log_of. cbn. f_equal. rewrite take_insert_ge by lia. rewrite take_take. f_equal. lia.
    + eexists. split; [done|]. split; [done|]. split; [done|]. unfold log_of. f_equal.
      rewrite take_take. f_equal. lia.
  - assert (log_good (if (119 <=? n)%nat then log_flush (log_of (sb t)) else log_of (sb t)) t
              (if 120 <=? partial_length (sb t) + 1 then tty_flush_partial_line t else Some t))
      as (t1&->&(Hok1&Hsh1&[Hlc3 Hlc4]&Hpo1&[Hp3 Hp4])&Hio&Hlog).
    { replace (119 <=? n)%nat with (120 <=? partial_length (sb t) + 1) by (unfold n; lia).
      case_if; [by apply flush_spec | by apply log_good_refl]. }
    cbn [mbind option_bind]. unfold log_of in Hlog |- *. fold n in Hlog |- *. rewrite <- Hlog.
    assert (partial_length (sb t1) < 119) as Hlt.
    { apply (f_equal (fun l => length l.2)) in Hlog. cbn [snd] in Hlog.
      rewrite length_take, Hpo1 in Hlog. unfold TTY_MAX_LINE_CHARS in *.
      destruct (119 <=? n)%nat eqn:E.
      - unfold log_flush in Hlog. destruct (length _ =? 0)%nat in Hlog; simpl length in Hlog; lia.
      - cbn [snd] in Hlog. rewrite length_take in Hlog. apply Nat.leb_gt in E. lia. }
    rewrite aset_ok by lia. cbn [mbind option_bind]. rewrite aset_ok by len. cbn [mbind option_bind].
    eexists. split; [done|]. split; [|split; [done|]].
    + split_and!; try done; cbn; unfold TTY_MAX_LINE_CHARS; try lia. len.
    + unfold log_of. cbn. f_equal. replace (Z.to_nat (partial_length (sb t1) + 1))
        with (S (Z.to_nat (partial_length (sb t1)))) by lia.
      rewrite take_insert_ge by lia. rewrite (take_S_r _ _ c) by (apply list_lookup_insert_eq; lia).
      by rewrite take_insert_ge by lia.
Qed.

Lemma output_text_spec text : forall t,
  sb_wf (sb t) ->
  log_good (fold_left log_char text (log_of (sb t))) t (foldM tty_append_output_char text t).
Proof.
  induction text as [|c text IH]; intros t Hwf; [by apply log_good_refl|].
  cbn [foldM fold_left]. destruct (output_char_spec c t Hwf) as (t1&->&Hwf1&Hio&Hl).
  cbn [mbind option_bind]. rewrite <- Hl. destruct (IH t1 Hwf1) as (t2&->&?&?&?).
  exists t2. split_and!; try done. by eapply same_io_trans.
Qed.

(** ** Writes *)

Lemma ansi_text_good text : forall s t s',
  Forall byte_ok text -> tty_wf s t -> ansi_mode t <> 0 -> foldM scan_step text s = Some s' ->
  exists t', foldM tty_process_ansi_char text t = Some t' /\ tty_wf s' t'.
Proof.
  induction text as [|c text IH]; intros s t s' Hb Hwf Hm Hs; cbn [foldM] in *; [simplify_eq; eauto|].
  apply Forall_cons in Hb as [Hc Hb]. destruct Hwf as (Hsb&Hib&Hvs&Han&_).
  destruct (scan_step c s) as [s1|] eqn:E1; [|done]. cbn [mbind option_bind] in Hs.
  destruct (ansi_char_good c s (an t) (vs t) s1) as (a'&v'&Ec&Ha'&Hv'); [done..|].
  assert (tty_process_ansi_char c t = Some (set_an a' (set_vs v' t))) as ->
    by (unfold tty_process_ansi_char; by rewrite Ec).
  cbn [mbind option_bind].
  by apply (IH s1).
Qed.

Lemma scan_plain text s :
  s_state s = ANSI_STATE_NORMAL -> existsb (fun c => c =? 27) text = false ->
  foldM scan_step text s = Some s.
Proof.
  intros Hs. induction text as [|c text IH]; cbn [existsb foldM]; [done|].
  intros [E H]%orb_false_iff.
  assert (scan_step c s = Some s) as -> by (unfold scan_step; by rewrite Hs, E).
  by apply IH.
Qed.

Lemma write_good s t text s' :
  Forall byte_ok text -> tty_wf s t -> foldM scan_step text s = Some s' ->
  exists t', tty_fd_write 1 (Some text) (Z.of_nat (length text)) t =
               Some (Z.of_nat (length text), t') /\ tty_wf s' t'.
Proof.
  intros Hb Hwf Hs. pose proof Hwf as (Hsb&Hib&Hvs&Han&Hmode).
  unfold tty_fd_write. cbn [Z.eqb]. rewrite slice_whole. cbn [mbind option_bind].
  unfold tty_enter_ansi. destruct (truth (ansi_mode t)) eqn:Em; cbn [negb andb].
  - cbn [mbind option_bind]. rewrite Em.
    destruct (ansi_text_good text s t s') as (t'&->&Hwf'); [done..| |done|].
    + unfold truth in Em. bools. done.
    + eexists. split; [done|]. exact Hwf'.
  - destruct (existsb (fun c => c =? 27) text) eqn:Ee.
    + destruct (screen_clear_recells (vs t)) as (v&->&Hv); [apply Hvs|]. cbn [mbind option_bind].
      cbn [ansi_mode set_ansi_mode truth negb Z.eqb].
      edestruct (ansi_text_good text s) as (t'&->&Hwf'); [done| |done|exact Hs|].
      * split_and!; try done. apply vs_wf_cursor; [by eapply vs_wf_recells|done].
      * eexists. split; [done|]. exact Hwf'.
    + cbn [mbind option_bind]. rewrite Em.
      assert (s' = s) as ->.
      { rewrite scan_plain in Hs; [by injection Hs| |done].
        apply Hmode. unfold truth in Em. bools. done. }
      destruct (output_text_spec text t Hsb) as (t'&->&Hsb'&(E1&E2&E3&E4&_)&_).
      cbn [mbind option_bind]. eexists. split; [done|].
      assert (tty_wf s t') by (unfold tty_wf; rewrite E1, E2, E3, E4; by split_and!).
      by case_if.
Qed.

(** Successive writes, as one process or several make them. *)
Definition tty_writes (bufs : list (list Z)) (t : tty) : option tty :=
  foldM (fun text t => '(_, t') ← tty_fd_write 1 (Some text) (Z.of_nat (length text)) t; Some t')
    bufs t.

Lemma writes_good bufs : forall s t s',
  Forall byte_ok (concat bufs) -> tty_wf s t -> foldM scan_step (concat bufs) s = Some s' ->
  exists t', tty_writes bufs t = Some t' /\ tty_wf s' t'.
Proof.
  unfold tty_writes. induction bufs as [|text bufs IH]; intros s t s' Hb Hwf Hs;
    cbn [concat foldM] in *; [simplify_eq; eauto|].
  apply Forall_app in Hb as [Hb1 Hb2]. rewrite foldM_app in Hs.
  destruct (foldM scan_step text s) as [s1|] eqn:E1; [|done]. cbn [mbind option_bind] in Hs.
  destruct (write_good s t text s1) as (t1&->&Hwf1); [done..|]. cbn [mbind option_bind].
  by apply (IH s1).
Qed.

(** ** Properties: output *)

(** C32: Any sequence of writes whose control sequences have parameters of at most
    nine digits and no '?' after a ';' is defined on a well-formed terminal,
    however the output is cut into writes: no array is indexed out of bounds, no
    signed addition overflows, and the terminal stays well formed with its
    cursor and saved cursor on the screen. *)
Theorem tty_write_safe bufs t :
  Forall byte_ok (concat bufs) -> tty_wf scan0 t -> tame (concat bufs) = true ->
  exists t' s', tty_writes bufs t = Some t' /\ tty_wf s' t'.
Proof.
  intros Hb Hwf Ht. unfold tame in Ht. destruct (foldM scan_step _ _) as [s'|] eqn:E; [|done].
  destruct (writes_good bufs scan0 t s') as (t'&E'&Hwf'); [done..|]. by exists t', s'.
Qed.

(** A terminal as the kernel starts it: zero memory, then [tty_init]. *)
Definition blank_tty : tty :=
  mk_tty (mk_sb (replicate 64 (replicate 120 0)) 0 (replicate 120 0) 0)
    (mk_ib (replicate 96 0) 0 (replicate 96 0) 0 0 (replicate 96 0) 0)
    (mk_vs (replicate 25 (replicate 80 0)) (replicate 25 (replicate 80 0)) 0 0 0 0 0)
    (mk_an ANSI_STATE_NORMAL (replicate 8 0) 0 0) 0 0 0 0.

(** The memory of a terminal before [tty_init]: any contents of the right sizes. *)
Definition tty_memory (t : tty) : Prop :=
  lines_ok (lines (sb t)) /\ length (partial_output (sb t)) = 120%nat /\
  length (input (ib t)) = 96%nat /\ length (cooked_line (ib t)) = 96%nat /\
  length (raw_input (ib t)) = 96%nat /\ cells_ok (vs t) /\ ints (ansi_params (an t)).

Lemma tty_clear_state_good t :
  tty_memory t ->
  exists t', tty_clear_state t = Some t' /\ tty_wf scan0 t' /\
    shown (sb t') = [] /\ raw_input_mode t' = raw_input_mode t /\ waiter_pid t' = 0 /\ ansi_mode t' = 0.
Proof.
  intros (Hl&Hp&Hi&Hc&Hr&Hv&Ha). unfold tty_clear_state.
  repeat (rewrite aset_ok by lia; cbn [mbind option_bind]).
  edestruct screen_clear_recells as (v&->&s&a&->&Hs&Ha'); [exact Hv|].
  cbn [mbind option_bind]. destruct Ha. eexists. split; [done|].
  unfold tty_wf, sb_wf, ib_wf, vs_wf, an_wf, cursor_ok.
  cbn [sb ib vs an lines line_count partial_output partial_length input input_length cooked_line
    cooked_length raw_input raw_length]. rewrite !length_insert. by split_and!.
Qed.

(** [tty_init] turns any memory into a well-formed terminal in cooked mode
    with nothing shown, and [tty_reset] (the clear request) does so from any
    well-formed state, keeping the raw mode. *)
Theorem tty_init_reset_wf t :
  tty_memory t ->
  exists t1 t2,
    tty_init t = Some t1 /\ tty_wf scan0 t1 /\ shown (sb t1) = [] /\ raw_input_mode t1 = 0 /\
    tty_reset t = Some t2 /\ tty_wf scan0 t2 /\ shown (sb t2) = [] /\
    raw_input_mode t2 = raw_input_mode t.
Proof.
  intros Hm. destruct (tty_clear_state_good t Hm) as (t'&E&Hwf&Hs&Hr&_).
  unfold tty_init, tty_reset. rewrite E. cbn [mbind option_bind].
  do 2 eexists. split; [done|]. by split_and!.
Qed.

(** C34: In scroll mode, output without escape characters refines the log of
    lines: backspace removes a character of the line being written, carriage
    return is ignored, newline shows a non-empty line, a line of 119 characters
    is shown before the next character, and the last 64 lines stay on display.
    The input side and the screen do not change. *)
Theorem tty_plain_output_refines_log text t s :
  tty_wf s t -> ansi_mode t = 0 -> existsb (fun c => c =? 27) text = false ->
  exists t', tty_fd_write 1 (Some text) (Z.of_nat (length text)) t =
               Some (Z.of_nat (length text), t') /\
    log_of (sb t') = fold_left log_char text (log_of (sb t)) /\ same_io t t'.
Proof.
  intros Hwf Hm He. unfold tty_fd_write. cbn [Z.eqb]. rewrite slice_whole. cbn [mbind option_bind].
  unfold tty_enter_ansi. rewrite He, andb_false_r. cbn [mbind option_bind].
  unfold truth. rewrite Hm. cbn [Z.eqb negb].
  destruct (output_text_spec text t (proj1 Hwf)) as (t'&->&_&Hio&Hl). cbn [mbind option_bind].
  eexists. split; [done|]. by case_if.
Qed.

(** ** Abstract line discipline *)

(** What a terminal's input side means: the line being edited, the line that
    Enter completed, the bytes queued for readers, the log of lines, the blocked
    reader. *)
Record disc := mk_disc {
  d_edit : list Z; d_line : option (list Z); d_queue : list Z; d_log : log; d_wait : Z }.

Definition abs (t : tty) : disc :=
  let b := ib t in
  mk_disc (take (Z.to_nat (input_length b)) (input b))
    (if truth (line_ready b) then Some (take (Z.to_nat (cooked_length b)) (cooked_line b)) else None)
    (take (Z.to_nat (raw_length b)) (raw_input b)) (log_of (sb t)) (waiter_pid t).

(** A line that is read is shown after what was being written. *)
Definition log_commit (line : list Z) (l : log) : log :=
  let text := take 119 (l.2 ++ line) in
  (if (length text =? 0)%nat then l.1 else last64 (l.1 ++ [cstr_of text]), []).

(** A read takes queued bytes; when there are none it takes the completed line
    with its newline and leaves the rest queued. *)
Definition spec_read (n : Z) (d : disc) : list Z * disc :=
  if n =? 0 then ([], d)
  else match d_queue d, d_line d with
  | [], Some l =>
      (take (Z.to_nat n) (l ++ [10]),
       mk_disc (d_edit d) None (drop (Z.to_nat n) (l ++ [10])) (log_commit l (d_log d)) 0)
  | q, line =>
      (take (Z.to_nat n) q,
       mk_disc (d_edit d) line (drop (Z.to_nat n) q) (d_log d) (d_wait d))
  end.

Definition spec_wake (e : env) (d : disc) : list (Z * list Z) * disc :=
  if d_wait d =? 0 then ([], d)
  else
    let d' := mk_disc (d_edit d) (d_line d) (d_queue d) (d_log d) 0 in
    match pending e (d_wait d) with
    | None => ([], d')
    | Some n => let '(bs, d'') := spec_read n d' in ([(d_wait d, bs)], d'')
    end.

Definition spec_interrupt (e : env) (d : disc) : disc :=
  if existsb (Z.eqb (d_wait d)) (foreground e)
  then mk_disc (d_edit d) (d_line d) (d_queue d) (d_log d) 0 else d.

(** Raw bytes are queued as long as 95 are not waiting. *)
Definition spec_queue (bs : list Z) (d : disc) : disc :=
  mk_disc (d_edit d) (d_line d) (d_queue d ++ take (95 - length (d_queue d)) bs) (d_log d) (d_wait d).

(** A typed character, dropped when the line holds 95. *)
Definition spec_edit (d : disc) (c : Z) : disc :=
  if (length (d_edit d) <? 95)%nat
  then mk_disc (d_edit d ++ [c]) (d_line d) (d_queue d) (d_log d) (d_wait d) else d.

Definition spec_backspace (d : disc) : disc :=
  mk_disc (take (length (d_edit d) - 1) (d_edit d)) (d_line d) (d_queue d) (d_log d) (d_wait d).

(** Enter completes the edited line; an unread completed line is replaced. *)
Definition spec_enter (d : disc) : disc :=
  mk_disc [] (Some (d_edit d)) (d_queue d) (d_log d) (d_wait d).

Definition spec_keyboard (raw : bool) (e : env) (k : keyboard_state) (d : disc)
    : list (Z * list Z) * disc :=
  if existsb (fun c => c =? 3) (chars k) then ([], spec_interrupt e d)
  else if raw then
    if (length (raw_bytes k) =? 0)%nat then ([], d) else spec_wake e (spec_queue (raw_bytes k) d)
  else
    let d := if truth (backspace_pressed k) then spec_backspace d else d in
    let d := fold_left spec_edit (chars k) d in
    if truth (enter_pressed k) then spec_wake e (spec_enter d) else ([], d).

Definition spec_serial (raw : bool) (e : env) (c : Z) (d : disc) : list (Z * list Z) * disc :=
  if c =? 3 then ([], spec_interrupt e d)
  else if raw then spec_wake e (spec_queue [c] d)
  else if (c =? 127) || (c =? 8) then ([], spec_backspace d)
  else if (c =? 13) || (c =? 10) then spec_wake e (spec_enter d)
  else if ((32 <=? schar c) && (schar c <=? 126)) || (c =? 9) then ([], spec_edit d c)
  else ([], d).

(** ** The buffers implement the line discipline *)

Definition is_raw (t : tty) : bool := truth (ansi_mode t) || truth (raw_input_mode t).

(** [t'] has the same screen and modes as [t], is well formed and means [d]. *)
Definition means (d : disc) (t t' : tty) : Prop :=
  (sb_wf (sb t') /\ ib_wf (ib t')) /\ abs t' = d /\
  vs t' = vs t /\ an t' = an t /\ ansi_mode t' = ansi_mode t /\ raw_input_mode t' = raw_input_mode t.

Lemma means_trans d1 d2 t1 t2 t3 : means d1 t1 t2 -> means d2 t2 t3 -> means d2 t1 t3.
Proof. unfold means. intuition congruence. Qed.

Lemma take_aset {A} (l : list A) (n : nat) i x l' :
  aset l i x = Some l' -> Z.of_nat n <= i -> take n l' = take n l.
Proof. intros [? ->]%aset_Some ?. apply take_insert_ge. lia. Qed.

(** Shifting the queue drops its first bytes. *)
Lemma shift_loop (r : list Z) (count len : Z) :
  0 <= count <= len -> len <= Z.of_nat (length r) ->
  exists r', foldM (fun i r => c ← aget r i; aset r (i - count) c) (seqZ count (len - count)) r = Some r' /\
    length r' = length r /\
    take (Z.to_nat (len - count)) r' = drop (Z.to_nat count) (take (Z.to_nat len) r).
Proof.
  intros Hc Hl.
  foldM_by (fun (n : nat) r' => length r' = length r /\
    forall j : nat, r' !! j = if decide (j < n)%nat then r !! (j + Z.to_nat count)%nat else r !! j)
    as (r'&E&Hl'&H).
  - split; [done|]. intros j. by rewrite decide_False by lia.
  - intros n i r1 Hn [Hl1 H1]. apply lookup_seqZ in Hn as [-> Hn].
    destruct (aget_lt r1 (count + Z.of_nat n)) as [c Ec]; [lia|]. rewrite Ec. cbn [mbind option_bind].
    rewrite aset_ok by lia. eexists. split; [done|]. split; [len|]. intros j.
    replace (Z.to_nat (count + Z.of_nat n - count)) with n by lia.
    replace (count + Z.of_nat n) with (Z.of_nat (n + Z.to_nat count)) in Ec by lia.
    rewrite aget_nat, H1, decide_False in Ec by lia.
    destruct (decide (j = n)) as [->|].
    + rewrite list_lookup_insert_eq by lia. by rewrite decide_True by lia.
    + rewrite list_lookup_insert_ne by done. rewrite H1. by repeat case_decide; try lia.
  - rewrite E. exists r'. split; [done|]. split; [done|]. rewrite length_seqZ in H.
    apply list_eq. intros j. rewrite lookup_drop.
    destruct (decide (j < Z.to_nat (len - count))%nat).
    + rewrite !lookup_take_lt by lia. rewrite H, decide_True by done. f_equal. lia.
    + rewrite !lookup_ge_None_2; [done | len | len].
Qed.

(** During a read the queue may hold a whole line and its newline. *)
Definition ib_sized (b : inbuf) : Prop :=
  length (input b) = 96%nat /\ 0 <= input_length b < 96 /\
  length (cooked_line b) = 96%nat /\ 0 <= cooked_length b < 96 /\
  length (raw_input b) = 96%nat /\ 0 <= raw_length b <= 96.

Lemma ib_wf_sized b : ib_wf b -> ib_sized b.
Proof. unfold ib_wf, ib_sized, TTY_INPUT_CAPACITY. lia. Qed.

Lemma take_raw_spec n t :
  sb_wf (sb t) -> ib_sized (ib t) -> 0 < n ->
  exists t', tty_take_raw n t =
      Some (Z.of_nat (length (take (Z.to_nat n) (d_queue (abs t)))), take (Z.to_nat n) (d_queue (abs t)), t') /\
    means (mk_disc (d_edit (abs t)) (d_line (abs t)) (drop (Z.to_nat n) (d_queue (abs t)))
             (d_log (abs t)) (d_wait (abs t))) t t'.
Proof.
  intros Hsb (Hi&Hil&Hc&Hcl&Hr&Hrl) Hn. unfold tty_take_raw, tty_raw_input_shift_left.
  cbn [abs d_edit d_line d_queue d_log d_wait]. set (len := raw_length (ib t)) in *.
  destruct (n <? len) eqn:E; bools.
  - rewrite slice_ok by lia. cbn [mbind option_bind]. destruct (Z.leb_spec len n); [lia|].
    destruct (shift_loop (raw_input (ib t)) n len) as (r'&->&Hl'&Ht); [lia|lia|].
    cbn [mbind option_bind]. rewrite u64_id by lia. rewrite aset_ok by lia. cbn [mbind option_bind].
    change (Z.to_nat 0) with 0%nat. rewrite drop_0, take_take, Nat.min_l by lia.
    eexists. split; [repeat f_equal; rewrite length_take; lia|].
    split; [split; [done|]|split_and!; try done].
    + unfold ib_wf, TTY_INPUT_CAPACITY.
      cbn [ib set_ib set_raw input input_length cooked_line cooked_length raw_input raw_length].
      rewrite length_insert. lia.
    + unfold abs. cbn [ib set_ib set_raw input input_length cooked_line cooked_length raw_input
        raw_length line_ready sb waiter_pid]. f_equal. by rewrite take_insert_ge by lia.
  - rewrite slice_ok by lia. cbn [mbind option_bind]. destruct (Z.leb_spec len len); [|lia].
    rewrite aset_ok by lia. cbn [mbind option_bind]. change (Z.to_nat 0) with 0%nat.
    rewrite drop_0. rewrite (take_ge (take _ _)) by (rewrite length_take; lia).
    eexists. split; [repeat f_equal; rewrite length_take; lia|].
    split; [split; [done|]|split_and!; try done].
    + unfold ib_wf, TTY_INPUT_CAPACITY.
      cbn [ib set_ib set_raw input input_length cooked_line cooked_length raw_input raw_length].
      rewrite length_insert. lia.
    + unfold abs. cbn [ib set_ib set_raw input input_length cooked_line cooked_length raw_input
        raw_length line_ready sb waiter_pid]. f_equal. rewrite drop_ge by (rewrite length_take; lia). done.
Qed.

Lemma text_ok_0 a b : text_ok (a ++ b ++ [0]).
Proof.
  right. exists (length a + length b)%nat. rewrite app_assoc, lookup_app_r by (rewrite length_app; lia).
  by replace (_ - _)%nat with 0%nat by (rewrite length_app; lia).
Qed.

Lemma commit_spec t :
  sb_wf (sb t) -> ib_wf (ib t) ->
  exists t', tty_commit_input_line t = Some t' /\ sb_wf (sb t') /\ same_io t t' /\
    log_of (sb t') =
      log_commit (take (Z.to_nat (cooked_length (ib t))) (cooked_line (ib t))) (log_of (sb t)).
Proof.
  intros Hwf (_&[Hc Hcl]&_). pose proof Hwf as (Hok&Hsh&[Hlc1 Hlc2]&Hpo&[Hp1 Hp2]).
  unfold TTY_INPUT_CAPACITY in Hcl. unfold TTY_MAX_LINE_CHARS in Hp2.
  unfold tty_commit_input_line, TTY_MAX_LINE_CHARS.
  rewrite slice_ok by lia. cbn [mbind option_bind]. change (Z.to_nat 0) with 0%nat. rewrite drop_0.
  rewrite length_take, Hpo. rewrite slice_ok by lia. cbn [mbind option_bind].
  change (Z.to_nat 0) with 0%nat. rewrite drop_0.
  unfold log_commit, log_of. cbn [fst snd].
  set (p := take (Z.to_nat (partial_length (sb t))) (partial_output (sb t))).
  set (l := take (Z.to_nat (cooked_length (ib t))) (cooked_line (ib t))).
  replace (take (Z.to_nat (Z.min (partial_length (sb t)) (120 - 1))) (partial_output (sb t)))
    with p by (unfold p; f_equal; lia).
  set (k := take _ (cooked_line (ib t))).
  assert (p ++ k = take 119 (p ++ l)) as Hpk.
  { rewrite take_app. f_equal; [symmetry; apply take_ge; unfold p; rewrite length_take; lia|].
    unfold l, k. rewrite take_take. f_equal. unfold p. rewrite length_take. lia. }
  rewrite <- Hpk. replace (0 <? Z.of_nat (length (p ++ k))) with (negb (length (p ++ k) =? 0)%nat) by lia.
  assert (length (p ++ k) <= 119)%nat by (rewrite Hpk, length_take; lia).
  destruct (length (p ++ k) =? 0)%nat eqn:E0; cbn [negb].
  - cbn [mbind option_bind]. rewrite aset_ok by lia. cbn [mbind option_bind]. eexists. split; [done|].
    split; [split_and!; try done; cbn [sb set_sb partial_output]; by rewrite length_insert|].
    split; [done|]. done.
  - destruct (append_line_spec (p ++ k ++ [0]) t Hwf) as (s'&->&Hwf'&Epo&Epl&Es); [apply text_ok_0|].
    cbn [mbind option_bind sb tty_touch set_sb]. pose proof Hwf' as (?&?&[??]&?&[??]).
    rewrite Epo, aset_ok by lia. cbn [mbind option_bind]. eexists. split; [done|].
    split; [split_and!; try done; cbn [sb set_sb partial_output]; by rewrite length_insert|].
    split; [done|]. cbn [sb set_sb partial_length]. f_equal.
    unfold shown at 1 in Es. unfold shown at 1. cbn [line_count lines]. rewrite Es.
    rewrite app_assoc, cstr_of_app_0. f_equal. f_equal. f_equal. apply take_ge.
    pose proof (cstr_of_length (p ++ k)). lia.
Qed.

(** The read operation follows [spec_read]. *)
Lemma read_spec n t :
  sb_wf (sb t) -> ib_wf (ib t) -> 0 <= n ->
  exists t', tty_fd_read 1 1 n t =
      Some (Z.of_nat (length (spec_read n (abs t)).1), (spec_read n (abs t)).1, t') /\
    means (spec_read n (abs t)).2 t t'.
Proof.
  intros Hsb Hib Hn. unfold tty_fd_read, spec_read. cbn [Z.eqb orb].
  destruct (n =? 0) eqn:E0; [exists t; done|]. bools.
  pose proof Hib as ((Hi&Hil)&(Hc&Hcl)&(Hr&Hrl)). unfold TTY_INPUT_CAPACITY in Hil, Hcl, Hrl.
  assert (d_queue (abs t) = [] <-> raw_length (ib t) = 0) as Hq.
  { cbn [abs d_queue]. split; [intros E%(f_equal length)|intros ->; done].
    rewrite length_take in E. simpl in E. lia. }
  destruct (0 <? raw_length (ib t)) eqn:Er; bools.
  { destruct (take_raw_spec n t Hsb (ib_wf_sized _ Hib)) as (t'&E&H); [lia|]. exists t'.
    destruct (d_queue (abs t)) eqn:Ed; [pose proof (proj1 Hq eq_refl); lia|]. by destruct (d_line (abs t)). }
  rewrite (proj2 Hq) by lia.
  destruct (truth (line_ready (ib t))) eqn:El; cbn [negb].
  2:{ assert (d_line (abs t) = None) as E1 by (cbn [abs d_line]; by rewrite El).
      pose proof (proj2 Hq ltac:(lia)) as E2. rewrite E1.
      exists t. rewrite take_nil, drop_nil. split; [done|]. split_and!; try done.
      cbn [snd]. rewrite <- E2 at 1. rewrite <- E1 at 1. done. }
  destruct (commit_spec t Hsb Hib) as (t1&->&Hsb1&(Eib&Evs&Ean&Em&Ew&Erm)&Hlog).
  cbn [mbind option_bind]. rewrite Eib. change TTY_INPUT_CAPACITY with 96.
  destruct (Z.ltb_spec 96 (cooked_length (ib t) + 1)); [lia|].
  rewrite slice_ok by lia. cbn [mbind option_bind]. change (Z.to_nat 0) with 0%nat. rewrite drop_0.
  set (l := take _ (cooked_line (ib t))) in *.
  assert (Z.of_nat (length l) = cooked_length (ib t)) as Hll by (unfold l; rewrite length_take; lia).
  destruct (splice (raw_input (ib t)) 0 l) as [r|] eqn:Es; [|rewrite splice_ok in Es by lia; done].
  pose proof (splice_length _ _ _ _ Es) as Hlr. cbn [mbind option_bind].
  destruct (aset r (cooked_length (ib t)) 10) as [r'|] eqn:Ea; [|rewrite aset_ok in Ea by lia; done].
  pose proof (aset_length _ _ _ _ Ea) as Hlr'. cbn [mbind option_bind].
  rewrite aset_ok by lia. cbn [mbind option_bind].
  assert (take (Z.to_nat (cooked_length (ib t) + 1)) r' = l ++ [10]) as Hr'.
  { apply splice_Some in Es as (_&_&->). apply aset_Some in Ea as (_&->). simpl.
    rewrite <- Hll, Nat2Z.id. replace (Z.to_nat (Z.of_nat (length l) + 1)) with (S (length l)) by lia.
    rewrite (take_S_r _ _ 10) by (apply list_lookup_insert_eq; len).
    by rewrite take_insert_ge, take_app_length by lia. }
  set (t2 := set_waiter 0 _). assert (ib_sized (ib t2)) as Hib2.
  { unfold ib_sized. cbn [ib t2 set_waiter set_ib input input_length cooked_line cooked_length raw_input
      raw_length]. rewrite length_insert. lia. }
  destruct (take_raw_spec n t2 Hsb1 Hib2) as (t3&E3&Hm); [lia|].
  assert (abs t2 = mk_disc (d_edit (abs t)) None (l ++ [10]) (log_commit l (d_log (abs t))) 0) as Ha.
  { unfold abs at 1. cbn [ib t2 set_waiter set_ib input input_length cooked_line cooked_length raw_input
      raw_length line_ready truth Z.eqb negb sb waiter_pid]. by rewrite Hr', Hlog. }
  assert (d_line (abs t) = Some l) as -> by (cbn [abs d_line]; by rewrite El).
  rewrite Ha in E3, Hm. cbn [d_edit d_line d_queue d_log d_wait] in E3, Hm.
  exists t3. split; [exact E3|]. destruct Hm as (Hw&Hab&Hv&Ha3&Hm3&Hr3).
  cbn [vs an ansi_mode raw_input_mode t2 set_waiter set_ib] in Hv, Ha3, Hm3, Hr3.
  cbn [snd]. split_and!; try done; congruence || apply Hw.
Qed.

Definition env_ok (e : env) : Prop := forall pid n, pending e pid = Some n -> 0 <= n.

Lemma means_refl t : sb_wf (sb t) -> ib_wf (ib t) -> means (abs t) t t.
Proof. intros. by split_and!. Qed.

Lemma wake_spec e t :
  env_ok e -> sb_wf (sb t) -> ib_wf (ib t) ->
  exists t', process_wake_tty_reader e t = Some ((spec_wake e (abs t)).1, t') /\
             means (spec_wake e (abs t)).2 t t'.
Proof.
  intros He Hsb Hib. unfold process_wake_tty_reader, spec_wake. cbn [abs d_wait].
  case_if; [exists t; split; [done | by apply means_refl]|].
  destruct (pending e (waiter_pid t)) as [n|] eqn:Ep.
  - destruct (read_spec n (set_waiter 0 t)) as (t'&->&Hm); [done|done|by eapply He|].
    cbn [mbind option_bind]. change (mk_disc _ _ _ _ 0) with (abs (set_waiter 0 t)).
    destruct (spec_read n (abs (set_waiter 0 t))) as [bs d]. cbn [fst snd]. by exists t'.
  - exists (set_waiter 0 t). split; [done|]. by split_and!.
Qed.

Lemma interrupt_spec e t :
  sb_wf (sb t) -> ib_wf (ib t) -> means (spec_interrupt e (abs t)) t (process_interrupt_terminal e t).
Proof.
  intros. unfold spec_interrupt, process_interrupt_terminal. cbn [abs d_wait].
  case_if; [by split_and! | by apply means_refl].
Qed.

(** Input-buffer updates: the buffer alone changes. *)
Definition ib_means (d : disc) (t : tty) (b : inbuf) : Prop := ib_wf b /\ abs (set_ib b t) = d.

Lemma ib_means_means d t b : sb_wf (sb t) -> ib_means d t b -> means d t (set_ib b t).
Proof. intros ? [? ?]. by split_and!. Qed.

Ltac ib_simpl :=
  cbn [ib set_ib set_raw set_input input input_length cooked_line cooked_length raw_input raw_length
       line_ready sb waiter_pid d_edit d_line d_queue d_log d_wait] in *.

Lemma queue_loop_spec t bs : forall b,
  ib_wf b ->
  exists b', foldM tty_queue_put bs b = Some b' /\ ib_means (spec_queue bs (abs (set_ib b t))) t b'.
Proof.
  induction bs as [|c bs IH]; intros b Hib; cbn [foldM].
  { exists b. split; [done|]. split; [done|]. unfold spec_queue. rewrite take_nil, app_nil_r. done. }
  pose proof Hib as (Hi&Hc&Hr&Hrl). unfold TTY_INPUT_CAPACITY in Hrl.
  destruct (raw_length b + 1 <? 96) eqn:E; bools.
  - assert (tty_queue_put c b = Some (set_raw (<[Z.to_nat (raw_length b) := c]> (raw_input b))
      (raw_length b + 1) b)) as ->
      by (unfold tty_queue_put, TTY_INPUT_CAPACITY; rewrite aset_ok by lia; case_if; [done|lia]).
    cbn [mbind option_bind]. set (b1 := set_raw _ _ b).
    destruct (IH b1) as (b'&->&Hb'&Ha'); [|exists b'; split; [done|]; split; [done|]].
    { split_and!; try apply Hi; try apply Hc; unfold b1, TTY_INPUT_CAPACITY; ib_simpl; try lia.
      by rewrite length_insert. }
    unfold b1 in Ha'.
    rewrite Ha'. unfold spec_queue, abs. ib_simpl. f_equal.
    set (n := Z.to_nat (raw_length b)). replace (Z.to_nat (raw_length b + 1)) with (S n) by lia.
    rewrite (take_S_r _ _ c) by (apply list_lookup_insert_eq; lia). rewrite take_insert_ge by lia.
    rewrite length_app, !length_take, Hr, !Nat.min_l by lia. rewrite <- app_assoc. f_equal.
    cbn [length app]. replace (95 - n)%nat with (S (95 - (n + 1))) by lia. done.
  - assert (tty_queue_put c b = Some b) as ->
      by (unfold tty_queue_put, TTY_INPUT_CAPACITY; case_if; [lia|done]).
    cbn [mbind option_bind]. destruct (IH b Hib) as (b'&->&Hb'&Ha'). exists b'. split; [done|].
    split; [done|]. rewrite Ha'. unfold spec_queue, abs. ib_simpl. f_equal. f_equal.
    rewrite length_take, Hr, Nat.min_l by lia.
    by replace (95 - Z.to_nat (raw_length b))%nat with 0%nat by lia.
Qed.

Lemma queue_spec t bs :
  ib_wf (ib t) ->
  exists b', tty_queue_raw_input bs (ib t) = Some b' /\ ib_means (spec_queue bs (abs t)) t b'.
Proof.
  intros Hib. destruct (queue_loop_spec t bs (ib t) Hib) as (b&E&(Hi&Hc&Hr&Hrl)&Ha).
  unfold tty_queue_raw_input. rewrite E. cbn [mbind option_bind].
  rewrite aset_ok by (unfold TTY_INPUT_CAPACITY in *; lia). cbn [mbind option_bind].
  eexists. split; [done|]. replace (set_ib (ib t) t) with t in Ha by (by destruct t). split.
  - split_and!; ib_simpl; try apply Hi; try apply Hc; try apply Hrl. by rewrite length_insert.
  - rewrite <- Ha. unfold abs. ib_simpl. f_equal. by rewrite take_insert_ge by lia.
Qed.

Lemma input_char_spec t c b dirty :
  ib_wf b ->
  exists b' d', tty_input_char c (b, dirty) = Some (b', d') /\
    ib_means (spec_edit (abs (set_ib b t)) c) t b'.
Proof.
  intros Hib. pose proof Hib as ((Hi&Hil)&Hc&Hr). unfold TTY_INPUT_CAPACITY in Hil.
  unfold tty_input_char, spec_edit, TTY_INPUT_CAPACITY. cbn [abs d_edit]. ib_simpl.
  rewrite length_take, Hi, Nat.min_l by lia.
  replace (Z.to_nat (input_length b) <? 95)%nat with (input_length b + 1 <? 96) by lia. case_if.
  - rewrite aset_ok by lia. cbn [mbind option_bind]. rewrite aset_ok by (rewrite length_insert; lia).
    cbn [mbind option_bind]. do 2 eexists. split; [done|]. split.
    + split_and!; ib_simpl; try apply Hr; try apply Hc; unfold TTY_INPUT_CAPACITY; try lia.
      by rewrite !length_insert.
    + unfold abs. ib_simpl. f_equal.
      replace (Z.to_nat (input_length b + 1)) with (S (Z.to_nat (input_length b))) by lia.
      rewrite take_insert_ge by lia. rewrite (take_S_r _ _ c) by (apply list_lookup_insert_eq; lia).
      by rewrite take_insert_ge by lia.
  - do 2 eexists. by split.
Qed.

Lemma input_chars_spec t cs : forall b dirty,
  ib_wf b ->
  exists b' d', foldM tty_input_char cs (b, dirty) = Some (b', d') /\
    ib_means (fold_left spec_edit cs (abs (set_ib b t))) t b'.
Proof.
  induction cs as [|c cs IH]; intros b dirty Hib; cbn [foldM fold_left]; [by exists b, dirty|].
  destruct (input_char_spec t c b dirty Hib) as (b1&d1&->&Hib1&Ha). cbn [mbind option_bind].
  rewrite <- Ha. by apply IH.
Qed.

Lemma backspace_spec t :
  ib_wf (ib t) -> 0 < input_length (ib t) ->
  exists b, tty_input_backspace (ib t) = Some b /\ ib_means (spec_backspace (abs t)) t b.
Proof.
  intros Hib Hpos. pose proof Hib as ((Hi&Hil)&Hc&Hr). unfold TTY_INPUT_CAPACITY in Hil.
  unfold tty_input_backspace. rewrite aset_ok by lia. cbn [mbind option_bind]. eexists. split; [done|].
  split.
  - split_and!; ib_simpl; try apply Hr; try apply Hc; unfold TTY_INPUT_CAPACITY; try lia.
    by rewrite length_insert.
  - unfold spec_backspace, abs. ib_simpl. f_equal. rewrite take_insert_ge by lia.
    rewrite length_take, take_take. f_equal. lia.
Qed.

Lemma backspace_empty t : input_length (ib t) = 0 -> spec_backspace (abs t) = abs t.
Proof. intros E. unfold spec_backspace, abs. ib_simpl. by rewrite E. Qed.

Lemma enter_spec t b :
  ib_wf b -> exists b', tty_input_enter b = Some b' /\ ib_means (spec_enter (abs (set_ib b t))) t b'.
Proof.
  intros Hib. pose proof Hib as ((Hi&Hil)&(Hc&Hcl)&Hr). unfold TTY_INPUT_CAPACITY in Hil.
  unfold tty_input_enter, TTY_INPUT_CAPACITY. rewrite Z.min_l by lia. rewrite slice_ok by lia.
  cbn [mbind option_bind]. change (Z.to_nat 0) with 0%nat. rewrite drop_0.
  set (l := take _ (input b)). assert (Z.of_nat (length l) = input_length b) as Hl
    by (unfold l; rewrite length_take; lia).
  rewrite splice_ok by lia. cbn [mbind option_bind]. change (Z.to_nat 0) with 0%nat.
  rewrite take_0, app_nil_l.
  repeat (rewrite aset_ok by (rewrite ?length_app, ?length_drop; lia); cbn [mbind option_bind]).
  eexists. split; [done|]. split.
  - split_and!; ib_simpl; try apply Hr; unfold TTY_INPUT_CAPACITY; try lia;
      rewrite ?length_insert, ?length_app, ?length_drop; lia.
  - unfold spec_enter, abs. ib_simpl. fold l. cbn [truth Z.eqb negb]. f_equal. f_equal.
    rewrite take_insert_ge by lia. rewrite <- Hl, Nat2Z.id. apply take_app_length.
Qed.

(** Storing a buffer that means [d] and waking the reader. *)
Lemma store_wake_spec e d t b :
  env_ok e -> sb_wf (sb t) -> ib_means d t b ->
  exists t', process_wake_tty_reader e (set_ib b t) = Some ((spec_wake e d).1, t') /\
             means (spec_wake e d).2 t t'.
Proof.
  intros He Hsb [Hib <-]. destruct (wake_spec e (set_ib b t)) as (t'&E&Hm); [done..|].
  exists t'. split; [done|]. exact Hm.
Qed.

Lemma means_touch d t t' : means d t t' -> means d t (tty_touch t').
Proof. done. Qed.

Lemma set_ib_same t : set_ib (ib t) t = t.
Proof. by destruct t. Qed.

Lemma keyboard_spec e k t :
  env_ok e -> sb_wf (sb t) -> ib_wf (ib t) ->
  exists r t', tty_handle_keyboard e k t = Some (r, (spec_keyboard (is_raw t) e k (abs t)).1, t') /\
               means (spec_keyboard (is_raw t) e k (abs t)).2 t t'.
Proof.
  intros He Hsb Hib. unfold tty_handle_keyboard, spec_keyboard, is_raw.
  case_if; [do 2 eexists; split; [done|by apply interrupt_spec]|].
  destruct (truth (ansi_mode t) || truth (raw_input_mode t)).
  - replace (0 <? Z.of_nat (length (raw_bytes k))) with (negb (length (raw_bytes k) =? 0)%nat) by lia.
    destruct (length (raw_bytes k) =? 0)%nat; cbn [negb].
    { do 2 eexists. split; [done|by apply means_refl]. }
    destruct (queue_spec t (raw_bytes k) Hib) as (b&->&Hb). cbn [mbind option_bind].
    destruct (store_wake_spec e _ t b He Hsb Hb) as (t'&->&Hm). cbn [mbind option_bind].
    do 2 eexists. split; [done|]. by apply means_touch.
  - assert (exists b dirty, (if truth (backspace_pressed k) && (0 <? input_length (ib t))
        then b ← tty_input_backspace (ib t); Some (b, true) else Some (ib t, false)) = Some (b, dirty) /\
      ib_means (if truth (backspace_pressed k) then spec_backspace (abs t) else abs t) t b)
      as (b&dirty&->&Hib1&Hb).
    { pose proof Hib as ((_&?&_)&_). destruct (truth (backspace_pressed k)); cbn [andb].
      - case_if.
        + destruct (backspace_spec t Hib) as (b&->&Hb); [done|]. by exists b, true.
        + rewrite backspace_empty by lia. exists (ib t), false. split; [done|].
          split; [done|by rewrite set_ib_same].
      - exists (ib t), false. split; [done|]. split; [done|by rewrite set_ib_same]. }
    cbn [mbind option_bind]. rewrite <- Hb.
    destruct (input_chars_spec t (chars k) b dirty Hib1) as (b2&dirty2&->&Hib2&Hb2).
    cbn [mbind option_bind]. rewrite <- Hb2. destruct (truth (enter_pressed k)).
    + destruct (enter_spec t b2 Hib2) as (b3&->&Hb3). cbn [mbind option_bind].
      destruct (store_wake_spec e _ t b3 He Hsb Hb3) as (t'&->&Hm). cbn [mbind option_bind].
      do 2 eexists. split; [done|]. by apply means_touch.
    + cbn [mbind option_bind]. destruct dirty2; do 2 eexists; (split; [done|]); by apply ib_means_means.
Qed.

Lemma serial_byte_spec e c t dirty echo woken :
  env_ok e -> sb_wf (sb t) -> ib_wf (ib t) ->
  exists dirty' echo' t',
    tty_serial_byte e c (mk_sio t dirty echo woken) =
      Some (mk_sio t' dirty' echo' (woken ++ (spec_serial (is_raw t) e c (abs t)).1)) /\
    means (spec_serial (is_raw t) e c (abs t)).2 t t'.
Proof.
  intros He Hsb Hib. unfold tty_serial_byte, spec_serial, is_raw.
  cbn [sio_tty sio_dirty sio_echo sio_woken].
  case_if; [do 3 eexists; split; [by rewrite app_nil_r|by apply interrupt_spec]|].
  destruct (truth (ansi_mode t) || truth (raw_input_mode t)).
  { destruct (queue_spec t [c] Hib) as (b&->&Hb). cbn [mbind option_bind].
    destruct (store_wake_spec e _ t b He Hsb Hb) as (t'&->&Hm). cbn [mbind option_bind].
    do 3 eexists. split; [done|]. done. }
  pose proof Hib as ((_&?&_)&_).
  destruct ((c =? 127) || (c =? 8)).
  { destruct (0 <? input_length (ib t)) eqn:E; bools.
    - destruct (backspace_spec t Hib) as (b&->&Hb); [done|]. cbn [mbind option_bind].
      do 3 eexists. split; [by rewrite app_nil_r|]. by apply ib_means_means.
    - rewrite backspace_empty by lia. do 3 eexists. split; [by rewrite app_nil_r|]. by apply means_refl. }
  destruct ((c =? 13) || (c =? 10)).
  { destruct (enter_spec t (ib t) Hib) as (b3&->&Hb3). cbn [mbind option_bind]. rewrite set_ib_same in Hb3.
    destruct (store_wake_spec e _ t b3 He Hsb Hb3) as (t'&->&Hm). cbn [mbind option_bind].
    do 3 eexists. split; [done|]. done. }
  destruct (_ || (c =? 9)).
  { destruct (input_char_spec t c (ib t) dirty Hib) as (b&d&->&Hb). rewrite set_ib_same in Hb.
    cbn [mbind option_bind]. do 3 eexists. split; [by rewrite app_nil_r|]. by apply ib_means_means. }
  do 3 eexists. split; [by rewrite app_nil_r|]. by apply means_refl.
Qed.

(** ** Histories of input and reads *)

(** What can happen to the input side: a keyboard poll, bytes on the serial
    port, a read that returns at once, a read that may block. *)
Inductive event :=
| Keyboard (e : env) (k : keyboard_state)
| Serial (e : env) (port : list Z)
| Read (n : Z)
| BlockingRead (pid n : Z).

Definition event_ok (ev : event) : Prop :=
  match ev with
  | Keyboard e _ | Serial e _ => env_ok e
  | Read n | BlockingRead _ n => 0 <= n
  end.

(** Bytes handed to readers: the pid of a woken reader, 0 for a read that
    returned at once. *)
Abbreviation delivery := (Z * list Z)%type.

Definition tty_event (ev : event) (st : list delivery * tty) : option (list delivery * tty) :=
  let '(out, t) := st in
  match ev with
  | Keyboard e k => '(_, woken, t') ← tty_handle_keyboard e k t; Some (out ++ woken, t')
  | Serial e port => '(_, _, woken, _, t') ← tty_handle_serial_input e port t; Some (out ++ woken, t')
  | Read n => '(_, bs, t') ← tty_fd_read 1 1 n t; Some (out ++ [(0, bs)], t')
  | BlockingRead pid n =>
      let '(blocked, t') := process_try_blocking_tty_read pid t in
      if blocked then Some (out, t')
      else '(_, bs, t'') ← tty_fd_read 1 1 n t'; Some (out ++ [(0, bs)], t'')
  end.

Definition spec_event (raw : bool) (st : list delivery * disc) (ev : event) : list delivery * disc :=
  let '(out, d) := st in
  match ev with
  | Keyboard e k => let '(w, d') := spec_keyboard raw e k d in (out ++ w, d')
  | Serial e port =>
      fold_left (fun st c => let '(w, d') := spec_serial raw e c st.2 in (st.1 ++ w, d'))
        (take 64 port) (out, d)
  | Read n => let '(bs, d') := spec_read n d in (out ++ [(0, bs)], d')
  | BlockingRead pid n =>
      match d_line d, d_queue d with
      | None, [] => (out, mk_disc (d_edit d) None [] (d_log d) pid)
      | _, _ => let '(bs, d') := spec_read n d in (out ++ [(0, bs)], d')
      end
  end.

Lemma serial_bytes_spec e bs : forall out t dirty echo woken,
  env_ok e -> sb_wf (sb t) -> ib_wf (ib t) ->
  exists dirty' echo' woken' t' d',
    foldM (tty_serial_byte e) bs (mk_sio t dirty echo woken) = Some (mk_sio t' dirty' echo' (woken ++ woken')) /\
    fold_left (fun st c => let '(w, d') := spec_serial (is_raw t) e c st.2 in (st.1 ++ w, d'))
      bs (out, abs t) = (out ++ woken', d') /\ means d' t t'.
Proof.
  induction bs as [|c bs IH]; intros out t dirty echo woken He Hsb Hib; cbn [foldM fold_left].
  { exists dirty, echo, [], t, (abs t). rewrite !app_nil_r. split; [done|]. split; [done|by apply means_refl]. }
  destruct (serial_byte_spec e c t dirty echo woken He Hsb Hib) as (dirty1&echo1&t1&->&Hm).
  cbn [mbind option_bind fst snd]. destruct (spec_serial (is_raw t) e c (abs t)) as [w d1]. cbn [fst snd] in *.
  pose proof Hm as ([Hsb1 Hib1]&Habs&_&_&Em&Er).
  destruct (IH (out ++ w) t1 dirty1 echo1 (woken ++ w) He Hsb1 Hib1) as (d2&e2&w2&t2&d'&->&E2&Hm2).
  exists d2, e2, (w ++ w2), t2, d'. rewrite !app_assoc. split; [done|].
  unfold is_raw in *. rewrite Em, Er, Habs in E2. split; [done|]. by eapply means_trans.
Qed.

Lemma event_spec ev out t :
  event_ok ev -> sb_wf (sb t) -> ib_wf (ib t) ->
  exists t', tty_event ev (out, t) = Some ((spec_event (is_raw t) (out, abs t) ev).1, t') /\
             means (spec_event (is_raw t) (out, abs t) ev).2 t t'.
Proof.
  intros Hok Hsb Hib. destruct ev as [e k|e port|n|pid n]; cbn [tty_event spec_event event_ok] in *.
  - destruct (keyboard_spec e k t) as (r&t'&->&Hm); [done..|]. cbn [mbind option_bind].
    destruct (spec_keyboard _ e k (abs t)). by exists t'.
  - destruct (serial_bytes_spec e (take 64 port) out t false [] []) as (d1&e1&w1&t1&d'&E&Es&Hm); [done..|].
    unfold tty_handle_serial_input. rewrite E. cbn [mbind option_bind sio_dirty sio_echo sio_woken sio_tty].
    rewrite Es. cbn [fst snd]. destruct d1; eexists; (split; [done|]); done.
  - destruct (read_spec n t) as (t'&->&Hm); [done..|]. cbn [mbind option_bind].
    destruct (spec_read n (abs t)). by exists t'.
  - assert (exists t', ('(_, bs, t'') ← tty_fd_read 1 1 n t; Some (out ++ [(0, bs)], t'')) =
      Some ((let '(bs, d') := spec_read n (abs t) in (out ++ [(0, bs)], d')).1, t') /\
      means (let '(bs, d') := spec_read n (abs t) in (out ++ [(0, bs)], d')).2 t t') as Hread.
    { destruct (read_spec n t) as (t'&->&Hm); [done..|]. cbn [mbind option_bind].
      destruct (spec_read n (abs t)). by exists t'. }
    pose proof Hib as (_&_&(Hr&Hrl)). unfold TTY_INPUT_CAPACITY in Hrl.
    unfold process_try_blocking_tty_read. cbn [abs d_line d_queue].
    destruct (truth (line_ready (ib t))) eqn:El; cbn [orb]; [exact Hread|].
    destruct (0 <? raw_length (ib t)) eqn:Er; bools.
    + destruct (take _ (raw_input (ib t))) eqn:Et; [|exact Hread].
      apply (f_equal length) in Et. rewrite length_take in Et. simpl in Et. lia.
    + assert (raw_length (ib t) = 0) as E0 by lia. rewrite E0. change (Z.to_nat 0) with 0%nat. rewrite take_0.
      eexists. split; [done|]. split_and!; try done. unfold abs.
      cbn [ib set_waiter sb waiter_pid]. rewrite El, E0. done.
Qed.

Lemma discipline_run evs t :
  Forall event_ok evs -> sb_wf (sb t) -> ib_wf (ib t) ->
  exists out t',
    foldM tty_event evs ([], t) = Some (out, t') /\
    fold_left (spec_event (is_raw t)) evs ([], abs t) = (out, abs t') /\
    sb_wf (sb t') /\ ib_wf (ib t') /\ vs t' = vs t /\ an t' = an t.
Proof.
  intros Hok. generalize (@nil delivery) as out. revert t.
  induction Hok as [|ev evs Hev Hevs IH]; intros t out Hsb Hib; cbn [foldM fold_left]; [by exists out, t|].
  destruct (event_spec ev out t Hev Hsb Hib) as (t1&->&[Hsb1 Hib1]&Habs&Ev&Ea&Em&Er).
  cbn [mbind option_bind]. destruct (spec_event (is_raw t) (out, abs t) ev) as [out1 d1].
  cbn [fst snd] in *. destruct (IH t1 out1 Hsb1 Hib1) as (out2&t2&->&E2&Hw&Hw'&Ev2&Ea2).
  exists out2, t2. unfold is_raw in *. rewrite Em, Er, Habs in E2. by rewrite Ev2, Ea2.
Qed.

(** C15: Under any history of keyboard polls, serial input and reads, blocking or
    not, a terminal implements its line discipline: the code is defined, the
    bytes readers receive are those of the specification, and so are the edited
    line, the completed line, the queue and the log.  The screen is not
    touched. *)
Theorem tty_input_refines_discipline evs t :
  Forall event_ok evs -> sb_wf (sb t) -> ib_wf (ib t) ->
  exists out t',
    foldM tty_event evs ([], t) = Some (out, t') /\
    fold_left (spec_event (is_raw t)) evs ([], abs t) = (out, abs t') /\
    sb_wf (sb t') /\ ib_wf (ib t') /\ vs t' = vs t /\ an t' = an t.
Proof.
  apply discipline_run.
Qed.

(** ** Round trip: what is typed is what is read *)

Definition quiet : env := mk_env (fun _ => None) [].
Definition type_chars (cs : list Z) : event := Keyboard quiet (mk_kbd cs 0 0).
Definition press_enter : event := Keyboard quiet (mk_kbd [] 1 0).

(** What readers will get next. *)
Definition ready_bytes (d : disc) : list Z :=
  match d_queue d, d_line d with
  | [], Some l => l ++ [10]
  | q, _ => q
  end.

Definition total (ns : list Z) : Z := foldr Z.add 0 ns.

Lemma total_nonneg ns : Forall (fun n => 0 <= n) ns -> 0 <= total ns.
Proof. induction 1 as [|n ns Hn H IH]; [done|]. unfold total in *. cbn [foldr]. lia. Qed.

Lemma spec_read_ready n d :
  0 <= n -> d_line d = None \/ d_queue d = [] ->
  (spec_read n d).1 = take (Z.to_nat n) (ready_bytes d) /\
  ready_bytes (spec_read n d).2 = drop (Z.to_nat n) (ready_bytes d) /\
  (d_line (spec_read n d).2 = None \/ d_queue (spec_read n d).2 = []).
Proof.
  intros Hn Hd. unfold spec_read. destruct (n =? 0) eqn:E; bools; [by subst n|].
  unfold ready_bytes. destruct (d_queue d) as [|x q]; destruct (d_line d) as [l|]; cbn [fst snd d_queue d_line].
  - split; [done|]. split; [by destruct (drop _ _)|by left].
  - rewrite take_nil, drop_nil. split; [done|]. split; [done|by left].
  - by destruct Hd.
  - split; [done|]. split; [by destruct (drop _ _)|by left].
Qed.

(** Successive reads cut the ready bytes at the counts asked for. *)
Lemma reads_ready raw ns : forall out d,
  Forall (fun n => 0 <= n) ns -> d_line d = None \/ d_queue d = [] ->
  exists bss d', fold_left (spec_event raw) (Read <$> ns) (out, d) = (out ++ ((fun bs => (0, bs)) <$> bss), d') /\
    concat bss = take (Z.to_nat (total ns)) (ready_bytes d) /\ length bss = length ns.
Proof.
  induction ns as [|n ns IH]; intros out d Hns Hd; cbn [fmap list_fmap fold_left].
  { exists [], d. by rewrite app_nil_r. }
  apply Forall_cons in Hns as [Hn Hns]. cbn [spec_event].
  destruct (spec_read_ready n d Hn Hd) as (E1&E2&Hd'). destruct (spec_read n d) as [bs d1]. cbn [fst snd] in *.
  destruct (IH (out ++ [(0, bs)]) d1 Hns Hd') as (bss&d'&E&Hc&Hl). exists (bs :: bss), d'.
  split; [rewrite E; by rewrite <- app_assoc|]. split; [|cbn; lia]. cbn [concat]. rewrite Hc, E1, E2.
  pose proof (total_nonneg ns Hns). unfold total in *. cbn [foldr].
  rewrite Z2Nat.inj_add by lia. by rewrite take_take_drop.
Qed.

Lemma type_edit cs : forall d,
  (length (d_edit d) + length cs <= 95)%nat ->
  fold_left spec_edit cs d = mk_disc (d_edit d ++ cs) (d_line d) (d_queue d) (d_log d) (d_wait d).
Proof.
  induction cs as [|c cs IH]; intros d Hl; cbn [fold_left length] in *.
  { rewrite app_nil_r. by destruct d. }
  assert (spec_edit d c = mk_disc (d_edit d ++ [c]) (d_line d) (d_queue d) (d_log d) (d_wait d)) as ->.
  { unfold spec_edit. destruct (Nat.ltb_spec (length (d_edit d)) 95); [done|lia]. }
  rewrite IH by (cbn [d_edit]; rewrite length_app; cbn [length]; lia).
  cbn [d_edit d_line d_queue d_log d_wait]. by rewrite <- app_assoc.
Qed.

Lemma type_chunks chunks : forall d,
  Forall (fun c => c <> 3) (concat chunks) -> (length (d_edit d) + length (concat chunks) <= 95)%nat ->
  fold_left (spec_event false) (type_chars <$> chunks) ([], d) =
    ([], mk_disc (d_edit d ++ concat chunks) (d_line d) (d_queue d) (d_log d) (d_wait d)).
Proof.
  induction chunks as [|cs chunks IH]; intros d H3 Hl; cbn [concat fmap list_fmap fold_left] in *.
  { rewrite app_nil_r. by destruct d. }
  apply Forall_app in H3 as [H3 H3']. rewrite length_app in Hl.
  assert (spec_event false ([], d) (type_chars cs) =
    ([], mk_disc (d_edit d ++ cs) (d_line d) (d_queue d) (d_log d) (d_wait d))) as ->.
  { cbn [spec_event type_chars]. unfold spec_keyboard. cbn [chars backspace_pressed enter_pressed].
    assert (existsb (fun c => c =? 3) cs = false) as ->.
    { clear - H3. induction H3 as [|c cs Hc _ IH]; [done|]. cbn. by rewrite IH, (proj2 (Z.eqb_neq c 3)) by done. }
    cbn [truth Z.eqb negb]. by rewrite type_edit by lia. }
  rewrite IH; [|done|cbn [d_edit]; rewrite length_app; lia].
  cbn [d_edit d_line d_queue d_log d_wait]. by rewrite <- app_assoc.
Qed.

(** Round trip of the cooked mode: at most 95 characters, typed over any
    number of keyboard polls and ended by Enter, are what the following reads
    return, with a newline at the end, whatever byte counts the reads ask for;
    reading one byte at a time loses nothing. *)
Theorem tty_line_roundtrip chunks ns t :
  sb_wf (sb t) -> ib_wf (ib t) -> is_raw t = false ->
  d_edit (abs t) = [] -> d_queue (abs t) = [] -> waiter_pid t = 0 ->
  Forall (fun c => c <> 3) (concat chunks) -> (length (concat chunks) <= 95)%nat ->
  Forall (fun n => 0 <= n) ns ->
  exists bss t',
    foldM tty_event ((type_chars <$> chunks) ++ [press_enter] ++ (Read <$> ns)) ([], t) =
      Some ((fun bs => (0, bs)) <$> bss, t') /\
    length bss = length ns /\
    concat bss = take (Z.to_nat (total ns)) (concat chunks ++ [10]).
Proof.
  intros Hsb Hib Hraw He Hq Hw H3 Hl Hns.
  edestruct (discipline_run ((type_chars <$> chunks) ++ [press_enter] ++ (Read <$> ns)) t)
    as (out&t'&E&Es&_); [|done|done|].
  { repeat apply Forall_app_2; [apply Forall_fmap, Forall_true; done|by constructor|by apply Forall_fmap]. }
  rewrite Hraw, !fold_left_app, type_chunks in Es by (rewrite ?He; done). cbn [fold_left] in Es.
  rewrite He, app_nil_l in Es.
  change (spec_event false _ press_enter) with
    (let '(w, d') := spec_wake quiet (mk_disc [] (Some (concat chunks)) (d_queue (abs t)) (d_log (abs t))
       (waiter_pid t)) in ([] ++ w, d')) in Es.
  unfold spec_wake in Es. cbn [d_wait] in Es. rewrite Hw in Es. cbn [Z.eqb app] in Es.
  edestruct (reads_ready false ns []) as (bss&d'&Er&Hc&Hlen); [done| |].
  2:{ rewrite Er in Es. injection Es as <- _. exists bss, t'. rewrite Hc. unfold ready_bytes.
      cbn [d_queue d_line]. rewrite Hq. done. }
  by right.
Qed.

(** ** Concrete runs *)

(** ESC [ [ps] [cmd], with the parameters as characters. *)
Definition csi (ps : list Z) (cmd : Z) : list Z := [27; 91] ++ ps ++ [cmd].

Definition position_after (text : list Z) : option (Z * Z) :=
  t ← tty_init blank_tty;
  '(_, t') ← tty_fd_write 1 (Some text) (Z.of_nat (length text)) t;
  Some (cursor_row (vs t'), cursor_col (vs t')).

(** Two limits of the escape parser.  A parameter of ten digits overflows the
    signed accumulator (undefined behaviour), and so does a cursor movement by
    2147483647 when the cursor is not in the first column.  An omitted parameter
    is not reset: after ESC[5;7H, the sequence ESC[;H, which should go to the top
    left corner, goes to row 1, column 7. *)
Theorem tty_escape_parser_limits :
  position_after (csi [57;57;57;57;57;57;57;57;57;57] 67) = None /\
  position_after ([65] ++ csi [50;49;52;55;52;56;51;54;52;55] 67) = None /\
  position_after (csi [53; 59; 55] 72 ++ csi [59] 72) = Some (0, 6).
Proof. split_and!; vm_compute; reflexivity. Qed.

Lemma blank_memory : tty_memory blank_tty.
Proof.
  assert (forall n (x : list Z) m, length x = m -> Forall (fun r => length r = m) (replicate n x)) as H
    by (intros; by apply Forall_replicate).
  unfold tty_memory. split_and!; try done.
  - split; [done|]. by apply H.
  - split; (split; [done|]); by apply H.
  - split; [done|]. apply Forall_replicate. unfold INT_MIN, INT_MAX. lia.
Qed.

Lemma blank_wf : tty_wf scan0 blank_tty.
Proof.
  pose proof blank_memory as (?&?&?&?&?&?&[? ?]).
  unfold tty_wf, sb_wf, ib_wf, vs_wf, an_wf, cursor_ok. split_and!; try done; by apply blank_memory.
Qed.

(** "ok", newline, then a cleared screen with text, in two writes. *)
Definition demo_writes : list (list Z) :=
  [[111; 107; 10]; csi [50] 74 ++ csi [51; 59] 72 ++ [104; 105; 27]; [91; 75]].

Lemma tty_write_safe_witness :
  exists t' s', tty_writes demo_writes blank_tty = Some t' /\ tty_wf s' t'.
Proof.
  apply tty_write_safe.
  - repeat (constructor; [unfold byte_ok; lia|]). constructor.
  - exact blank_wf.
  - vm_compute. reflexivity.
Defined.

Lemma tty_init_reset_wf_witness :
  exists t1 t2, tty_init blank_tty = Some t1 /\ tty_wf scan0 t1 /\ shown (sb t1) = [] /\
    raw_input_mode t1 = 0 /\ tty_reset blank_tty = Some t2 /\ tty_wf scan0 t2 /\
    shown (sb t2) = [] /\ raw_input_mode t2 = 0.
Proof. exact (tty_init_reset_wf blank_tty blank_memory). Defined.

Lemma tty_plain_output_refines_log_witness :
  exists t', tty_fd_write 1 (Some [104; 105; 8; 111; 10; 120]) 6 blank_tty = Some (6, t') /\
    log_of (sb t') = ([[104; 111]], [120]) /\ same_io blank_tty t'.
Proof.
  destruct (tty_plain_output_refines_log [104; 105; 8; 111; 10; 120] blank_tty scan0) as (t'&E&H&Hs).
  - exact blank_wf.
  - reflexivity.
  - reflexivity.
  - exists t'. split; [exact E|]. split; [|exact Hs]. rewrite H. vm_compute. reflexivity.
Defined.

(** A reader blocks, a line with a correction is typed, and the reader gets its
    first two bytes; a later read gets the rest. *)
Definition demo_events : list event :=
  [BlockingRead 7 2; Keyboard quiet (mk_kbd [97; 98] 0 0);
   Keyboard (mk_env (fun pid => if pid =? 7 then Some 2 else None) []) (mk_kbd [99] 1 1);
   Serial quiet [120; 13]; Read 10; Read 10].

Lemma tty_input_refines_discipline_witness :
  exists out t', foldM tty_event demo_events ([], blank_tty) = Some (out, t') /\
    out = [(7, [97; 99]); (0, [10]); (0, [120; 10])].
Proof.
  destruct (tty_input_refines_discipline demo_events blank_tty) as (out&t'&E&Es&_).
  - repeat apply Forall_cons_2; try apply Forall_nil_2; cbn [event_ok]; try lia;
      intros pid n; cbn; try done. destruct (pid =? 7); intros; simplify_eq; lia.
  - apply blank_wf.
  - apply blank_wf.
  - exists out, t'. split; [exact E|]. apply (f_equal fst) in Es. cbn [fst] in Es. rewrite <- Es.
    vm_compute. reflexivity.
Defined.

Lemma tty_line_roundtrip_witness :
  exists bss t',
    foldM tty_event ((type_chars <$> [[108]; [115; 32]]) ++ [press_enter] ++ (Read <$> [1; 1; 5]))
      ([], blank_tty) = Some ((fun bs => (0, bs)) <$> bss, t') /\
    length bss = 3%nat /\ concat bss = [108; 115; 32; 10].
Proof.
  destruct (tty_line_roundtrip [[108]; [115; 32]] [1; 1; 5] blank_tty) as (bss&t'&E&Hl&Hc);
    try reflexivity; try apply blank_wf.
  - repeat (constructor; [lia|]). constructor.
  - cbn. lia.
  - repeat (constructor; [lia|]). constructor.
  - exists bss, t'. split; [exact E|]. split; [exact Hl|exact Hc].
Defined.

End Tty.
