(* ===== verification/Ramdisk.v ===== *)
(** * Ramdisk: the block-device layer (kernel/src/ramdisk.c)

    A [ramdisk_device] is backed either by memory or by a driver: when [read_fn]
    or [write_fn] is set the request goes to the driver with its context, whose
    type [X] is a parameter.  A read leaves the caller's buffer as it was when it
    fails.

    The file system above relies on [Disk]: an image of bytes that reads return
    and writes update.  The memory-backed device and a sector driver over an
    array both satisfy it. *)

From Stdlib Require Import ZArith Lia Bool ZifyBool.
From stdpp Require Import base numbers option list list_numbers.
From S2P Require Import Prelude.

Open Scope Z_scope.

Module Ramdisk.

Section Device.
Context {X : Type}.

Record ramdisk_device := mk_dev {
  data : option (list Z); size : Z; block_size : Z; block_count : Z;
  read_fn : option (X -> Z -> list Z -> Z -> option (Z * list Z * X));
  write_fn : option (X -> Z -> list Z -> Z -> option (Z * X));
  io_context : X }.

Definition set_data d dev :=
  mk_dev d (size dev) (block_size dev) (block_count dev) (read_fn dev) (write_fn dev) (io_context dev).
Definition set_context c dev :=
  mk_dev (data dev) (size dev) (block_size dev) (block_count dev) (read_fn dev) (write_fn dev) c.

(** [mem] is what [kmalloc] returned. *)
Definition ramdisk_init (mem : Z -> option (list Z)) (size_mb : Z) (dev : ramdisk_device)
    : option (Z * ramdisk_device) :=
  let bs := 4096 in
  let count := u64 (size_mb * 1024 * 1024) / bs in
  let sz := u64 (count * bs) in
  match mem sz with
  | None => Some (-1, mk_dev None sz bs count (read_fn dev) (write_fn dev) (io_context dev))
  | Some m =>
      m' ← splice m 0 (replicate (Z.to_nat sz) 0);
      Some (0, mk_dev (Some m') sz bs count (read_fn dev) (write_fn dev) (io_context dev))
  end.

Definition ramdisk_destroy (dev : ramdisk_device) : ramdisk_device :=
  mk_dev None 0 (block_size dev) 0 (read_fn dev) (write_fn dev) (io_context dev).

(** Result: status, the caller's buffer, the device. *)
Definition ramdisk_read (dev : ramdisk_device) (block_num : Z) (buffer : list Z) (count : Z)
    : option (Z * list Z * ramdisk_device) :=
  match read_fn dev with
  | None =>
      if block_count dev <=? block_num then Some (-1, buffer, dev)
      else
        d ← data dev;
        src ← slice d (u64 (block_num * block_size dev)) count;
        buffer' ← splice buffer 0 src;
        Some (0, buffer', dev)
  | Some f =>
      '(r, buffer', c) ← f (io_context dev) block_num buffer count;
      Some (r, buffer', set_context c dev)
  end.

Definition ramdisk_write (dev : ramdisk_device) (block_num : Z) (buffer : list Z) (count : Z)
    : option (Z * ramdisk_device) :=
  match write_fn dev with
  | Some f =>
      '(r, c) ← f (io_context dev) block_num buffer count;
      Some (r, set_context c dev)
  | None =>
      if block_count dev <=? block_num then Some (-1, dev)
      else
        d ← data dev;
        src ← slice buffer 0 count;
        d' ← splice d (u64 (block_num * block_size dev)) src;
        Some (0, set_data (Some d') dev)
  end.

End Device.
Arguments ramdisk_device X : clear implicits.

(** ** The interface the file system relies on *)

(** A family of devices ([dev_ok]) with an image: whole requests inside the
    image succeed, a read returns the image's bytes and changes nothing, a write
    changes exactly the bytes written. *)
Class Disk (X : Type) (dev_ok : ramdisk_device X -> Prop) (image : ramdisk_device X -> list Z) : Prop := {
  disk_read dev n buf count :
    dev_ok dev -> 0 <= n -> 0 <= count <= Z.of_nat (length buf) ->
    n * block_size dev + count <= Z.of_nat (length (image dev)) ->
    count mod block_size dev = 0 -> 0 < count ->
    exists src buf' dev', slice (image dev) (n * block_size dev) count = Some src /\
      splice buf 0 src = Some buf' /\
      ramdisk_read dev n buf count = Some (0, buf', dev') /\
      dev_ok dev' /\ image dev' = image dev /\ block_size dev' = block_size dev;
  disk_write dev n buf count :
    dev_ok dev -> 0 <= n -> 0 <= count <= Z.of_nat (length buf) ->
    n * block_size dev + count <= Z.of_nat (length (image dev)) ->
    count mod block_size dev = 0 -> 0 < count ->
    exists src dev', slice buf 0 count = Some src /\
      ramdisk_write dev n buf count = Some (0, dev') /\ dev_ok dev' /\
      splice (image dev) (n * block_size dev) src = Some (image dev') /\
      block_size dev' = block_size dev }.

(** ** Memory-backed devices *)

Section Memory.
Context {X : Type}.
Implicit Types dev : ramdisk_device X.

Definition mem_image dev : list Z := default [] (data dev).

Definition mem_ok dev : Prop :=
  read_fn dev = None /\ write_fn dev = None /\ 0 < block_size dev /\
  (exists d, data dev = Some d) /\
  Z.of_nat (length (mem_image dev)) = block_count dev * block_size dev /\
  block_count dev * block_size dev < 2 ^ 64.

Lemma block_in_range n bs count total :
  0 < bs -> 0 < count -> n * bs + count <= total * bs -> n < total.
Proof. nia. Qed.

#[export] Instance mem_disk : Disk X mem_ok mem_image.
Proof.
  split.
  - intros dev n buf count (Hr&Hw&Hb&[d Ed]&Hl&H64) Hn Hc Hin Hm Hpos.
    unfold mem_image in *. rewrite Ed in *. cbn [from_option id] in *. rewrite Hl in Hin.
    pose proof (block_in_range _ _ _ _ Hb Hpos Hin). assert (0 <= n * block_size dev) by nia. unfold ramdisk_read. rewrite Hr.
    destruct (Z.leb_spec (block_count dev) n); [lia|]. rewrite Ed. cbn [mbind option_bind].
    rewrite u64_id by lia.
    destruct (slice d (n * block_size dev) count) as [src|] eqn:Es;
      [|rewrite slice_ok in Es by lia; done].
    pose proof (slice_length _ _ _ _ Es). cbn [mbind option_bind].
    destruct (splice buf 0 src) as [buf'|] eqn:Eb; [|rewrite splice_ok in Eb by lia; done].
    exists src, buf', dev. unfold mem_ok, mem_image. rewrite Ed. split_and!; try done. by exists d.
  - intros dev n buf count (Hr&Hw&Hb&[d Ed]&Hl&H64) Hn Hc Hin Hm Hpos.
    unfold mem_image in *. rewrite Ed in *. cbn [from_option id] in *. rewrite Hl in Hin.
    pose proof (block_in_range _ _ _ _ Hb Hpos Hin). assert (0 <= n * block_size dev) by nia. unfold ramdisk_write. rewrite Hw.
    destruct (Z.leb_spec (block_count dev) n); [lia|]. rewrite Ed. cbn [mbind option_bind].
    rewrite u64_id by lia.
    destruct (slice buf 0 count) as [src|] eqn:Es; [|rewrite slice_ok in Es by lia; done].
    pose proof (slice_length _ _ _ _ Es). cbn [mbind option_bind].
    destruct (splice d (n * block_size dev) src) as [d'|] eqn:Eb; [|rewrite splice_ok in Eb by lia; done].
    pose proof (splice_length _ _ _ _ Eb).
    exists src, (set_data (Some d') dev). split_and!; try done.
    unfold mem_ok, mem_image. cbn. split_and!; try done; [by exists d' | lia].
Qed.
End Memory.

End Ramdisk.
