(* ===== verification/Ext2.v ===== *)
(** * Ext2: the file system (kernel/src/ext2_fs.c, kernel/include/ext2_fs.h)

    All of ext2_fs.c as functions in a state monad over the mounted file system
    [fs]: the device, the superblock, the two bitmaps and the inode table held in
    memory.  A result of [None] is undefined behaviour (an access outside an
    array, a null dereference, a division by zero).

    [kmalloc] is an oracle [alloc]: the [tick]-th allocation either fails or
    returns a buffer with arbitrary contents.  [kfree] has no effect on the model
    and is left out; so are the tracing messages.  A path or name is the list of
    bytes before its NUL. *)

From Stdlib Require Import ZArith Lia Bool ZifyBool.
From stdpp Require Import base numbers option list list_numbers.
From S2P Require Import Prelude Ramdisk.
Import Ramdisk.

Open Scope Z_scope.

Module Ext2.

Definition EXT2_MAGIC : Z := 61267.
Definition EXT2_BLOCK_SIZE : Z := 1024.
Definition EXT2_ROOT_INODE : Z := 2.
Definition EXT2_S_IFMT : Z := 61440.
Definition EXT2_S_IFREG : Z := 32768.
Definition EXT2_S_IFDIR : Z := 16384.
Definition INODE_SIZE : Z := 256.
Definition SUPERBLOCK_SIZE : Z := 1016.

(** ** On-disk structures *)

(** [struct ext2_inode]: the fields the code uses by name, the others as bytes
    ([i_times]: atime to dtime, [i_flags]: flags and osd1, [i_rest]: from
    file_acl on). *)
Record ext2_inode := mk_inode {
  i_mode : Z; i_uid : Z; i_size : Z; i_times : list Z; i_gid : Z; i_links_count : Z;
  i_blocks : Z; i_flags : list Z; i_block : list Z; i_rest : list Z }.

(** [struct ext2_superblock]; [s_reserved]: 0x08, [s_mid]: 0x24 to 0x37, [s_mid2]:
    0x3A to 0x6F, [s_pad]: from 0x78. *)
Record ext2_superblock := mk_super {
  inodes_count : Z; blocks_count : Z; s_reserved : list Z; free_blocks : Z; free_inodes : Z;
  first_data_block : Z; log_block_size : Z; blocks_per_group : Z; inodes_per_group : Z;
  s_mid : list Z; magic : Z; s_mid2 : list Z; bsize : Z; version : Z; s_pad : list Z }.

Definition inode_bytes (i : ext2_inode) : list Z :=
  le_enc 2 (i_mode i) ++ le_enc 2 (i_uid i) ++ le_enc 4 (i_size i) ++ i_times i ++
  le_enc 2 (i_gid i) ++ le_enc 2 (i_links_count i) ++ le_enc 4 (i_blocks i) ++ i_flags i ++
  concat (le_enc 4 <$> i_block i) ++ i_rest i.

(** Cut a list into words of four bytes. *)
Fixpoint words (n : nat) (l : list Z) : list Z :=
  match n with
  | O => []
  | S n' => le_dec (take 4 l) :: words n' (drop 4 l)
  end.

Definition field (l : list Z) (off len : nat) : list Z := take len (drop off l).

Definition inode_of (l : list Z) : ext2_inode :=
  mk_inode (le_dec (field l 0 2)) (le_dec (field l 2 2)) (le_dec (field l 4 4)) (field l 8 16)
    (le_dec (field l 24 2)) (le_dec (field l 26 2)) (le_dec (field l 28 4)) (field l 32 8)
    (words 15 (field l 40 60)) (field l 100 156).

Definition super_bytes (s : ext2_superblock) : list Z :=
  le_enc 4 (inodes_count s) ++ le_enc 4 (blocks_count s) ++ s_reserved s ++ le_enc 4 (free_blocks s) ++
  le_enc 4 (free_inodes s) ++ le_enc 4 (first_data_block s) ++ le_enc 4 (log_block_size s) ++
  le_enc 4 (blocks_per_group s) ++ le_enc 4 (inodes_per_group s) ++ s_mid s ++ le_enc 2 (magic s) ++
  s_mid2 s ++ le_enc 4 (bsize s) ++ le_enc 4 (version s) ++ s_pad s.

Definition super_of (l : list Z) : ext2_superblock :=
  mk_super (le_dec (field l 0 4)) (le_dec (field l 4 4)) (field l 8 4) (le_dec (field l 12 4))
    (le_dec (field l 16 4)) (le_dec (field l 20 4)) (le_dec (field l 24 4)) (le_dec (field l 28 4))
    (le_dec (field l 32 4)) (field l 36 20) (le_dec (field l 56 2)) (field l 58 54)
    (le_dec (field l 112 4)) (le_dec (field l 116 4)) (field l 120 896).

Definition zero_inode : ext2_inode := inode_of (replicate 256 0).
Definition zero_super : ext2_superblock := super_of (replicate 1016 0).

Section FileSystem.
Context {X : Type}.
Context (alloc : nat -> Z -> option (list Z)).

(** [struct ext2_filesystem]; a null pointer is [None].  The four block-number
    fields at its end are never used. *)
Record ext2_filesystem := mk_fs {
  device : ramdisk_device X; superblock : ext2_superblock;
  block_bitmap : option (list Z); inode_bitmap : option (list Z);
  inode_table : option (list ext2_inode); tick : nat }.

(** ** The monad *)

Definition M (A : Type) : Type := ext2_filesystem -> option (A * ext2_filesystem).

#[local] Instance M_ret : MRet M := fun A x fs => Some (x, fs).
#[local] Instance M_bind : MBind M := fun A B k m fs =>
  match m fs with Some (x, fs') => k x fs' | None => None end.

Definition gets {A} (f : ext2_filesystem -> A) : M A := fun fs => Some (f fs, fs).
Definition modify (f : ext2_filesystem -> ext2_filesystem) : M () := fun fs => Some ((), f fs).
(** Undefined behaviour unless the option has a value. *)
Definition need {A} (o : option A) : M A := fun fs => x ← o; Some (x, fs).

Definition set_device d fs := mk_fs d (superblock fs) (block_bitmap fs) (inode_bitmap fs) (inode_table fs) (tick fs).
Definition set_super s fs := mk_fs (device fs) s (block_bitmap fs) (inode_bitmap fs) (inode_table fs) (tick fs).
Definition set_bb b fs := mk_fs (device fs) (superblock fs) b (inode_bitmap fs) (inode_table fs) (tick fs).
Definition set_ibm b fs := mk_fs (device fs) (superblock fs) (block_bitmap fs) b (inode_table fs) (tick fs).
Definition set_table t fs := mk_fs (device fs) (superblock fs) (block_bitmap fs) (inode_bitmap fs) t (tick fs).
Definition set_tick n fs := mk_fs (device fs) (superblock fs) (block_bitmap fs) (inode_bitmap fs) (inode_table fs) n.

Definition set_free_blocks n s := mk_super (inodes_count s) (blocks_count s) (s_reserved s) n (free_inodes s)
  (first_data_block s) (log_block_size s) (blocks_per_group s) (inodes_per_group s) (s_mid s) (magic s)
  (s_mid2 s) (bsize s) (version s) (s_pad s).
Definition set_free_inodes n s := mk_super (inodes_count s) (blocks_count s) (s_reserved s) (free_blocks s) n
  (first_data_block s) (log_block_size s) (blocks_per_group s) (inodes_per_group s) (s_mid s) (magic s)
  (s_mid2 s) (bsize s) (version s) (s_pad s).

Definition kmalloc (size : Z) : M (option (list Z)) := fun fs =>
  Some (alloc (tick fs) size, set_tick (S (tick fs)) fs).

Definition udiv (a b : Z) : option Z := if b =? 0 then None else Some (a / b).
Definition umod (a b : Z) : option Z := if b =? 0 then None else Some (a mod b).

(** ** Blocks *)

Definition ext2_read_block (block_num : Z) (buffer : list Z) : M (Z * list Z) := fun fs =>
  let bs := bsize (superblock fs) in
  let byte_offset := u64 (block_num * bs) in
  n ← udiv byte_offset (block_size (device fs));
  '(r, buffer', dev) ← ramdisk_read (device fs) n buffer bs;
  Some ((r, buffer'), set_device dev fs).

Definition ext2_write_block (block_num : Z) (buffer : list Z) : M Z := fun fs =>
  let bs := bsize (superblock fs) in
  let byte_offset := u64 (block_num * bs) in
  n ← udiv byte_offset (block_size (device fs));
  '(r, dev) ← ramdisk_write (device fs) n buffer bs;
  Some (r, set_device dev fs).

(** ** Bitmaps *)

Definition bit_mask (i : Z) : Z := u8 (Z.shiftl 1 (i mod 8)).

(** First clear bit from [i] on, below [count]. *)
Fixpoint find_clear (fuel : nat) (bitmap : list Z) (i count : Z) : option (option Z) :=
  match fuel with
  | O => None
  | S fuel' =>
      if i <? count then
        byte ← aget bitmap (i / 8);
        if Z.land byte (bit_mask i) =? 0 then Some (Some i)
        else find_clear fuel' bitmap (i + 1) count
      else Some None
  end.

Definition set_bit (bitmap : list Z) (i : Z) : option (list Z) :=
  byte ← aget bitmap (i / 8); aset bitmap (i / 8) (Z.lor byte (bit_mask i)).

Definition clear_bit (bitmap : list Z) (i : Z) : option (list Z) :=
  byte ← aget bitmap (i / 8); aset bitmap (i / 8) (Z.ldiff byte (Z.shiftl 1 (i mod 8))).

Definition ext2_alloc_block : M Z :=
  sb ← gets superblock;
  bm ← gets block_bitmap;
  let start := if first_data_block sb <? 1 then 1 else first_data_block sb in
  let count := blocks_count sb in
  if start <? count then
    bm ← need bm;
    found ← need (find_clear (S (Z.to_nat (count - start))) bm start count);
    match found with
    | Some i =>
        bm' ← need (set_bit bm i);
        _ ← modify (set_bb (Some bm'));
        _ ← modify (set_super (set_free_blocks (u32 (free_blocks sb - 1)) sb));
        mret i
    | None => mret 0
    end
  else mret 0.

Definition ext2_free_block (block_num : Z) : M () :=
  sb ← gets superblock;
  if block_num <? blocks_count sb then
    bm ← gets block_bitmap;
    bm ← need bm;
    bm' ← need (clear_bit bm block_num);
    _ ← modify (set_bb (Some bm'));
    modify (set_super (set_free_blocks (u32 (free_blocks sb + 1)) sb))
  else mret tt.

Definition ext2_alloc_inode_num : M Z :=
  sb ← gets superblock;
  bm ← gets inode_bitmap;
  if 11 <? inodes_count sb then
    bm ← need bm;
    found ← need (find_clear (S (Z.to_nat (inodes_count sb - 11))) bm 11 (inodes_count sb));
    match found with
    | Some i =>
        bm' ← need (set_bit bm i);
        _ ← modify (set_ibm (Some bm'));
        _ ← modify (set_super (set_free_inodes (u32 (free_inodes sb - 1)) sb));
        mret (u32 (i + 1))
    | None => mret 0
    end
  else mret 0.

Definition ext2_free_inode_num (inode_num : Z) : M () :=
  sb ← gets superblock;
  if (0 <? inode_num) && (inode_num <=? inodes_count sb) then
    bm ← gets inode_bitmap;
    bm ← need bm;
    bm' ← need (clear_bit bm (inode_num - 1));
    _ ← modify (set_ibm (Some bm'));
    modify (set_super (set_free_inodes (u32 (free_inodes sb + 1)) sb))
  else mret tt.

(** ** Metadata writes *)

(** Blocks of the block bitmap. *)
Definition bitmap_blocks (sb : ext2_superblock) : option Z :=
  udiv (u32 (u32 (blocks_count sb + u32 (8 * bsize sb)) - 1)) (u32 (8 * bsize sb)).

Definition get_inode (inode_num : Z) : M ext2_inode :=
  t ← gets inode_table;
  t ← need t;
  need (aget t (u32 (inode_num - 1))).

Definition put_inode (inode_num : Z) (i : ext2_inode) : M () :=
  t ← gets inode_table;
  t ← need t;
  t' ← need (aset t (u32 (inode_num - 1)) i);
  modify (set_table (Some t')).

Definition ext2_write_inode (inode_num : Z) : M Z :=
  sb ← gets superblock;
  if (inode_num =? 0) || (inodes_count sb <? inode_num) then mret (-1)
  else
    bb_blks ← need (bitmap_blocks sb);
    q ← need (udiv ((inode_num - 1) * INODE_SIZE) (bsize sb));
    inode_offset ← need (umod ((inode_num - 1) * INODE_SIZE) (bsize sb));
    let inode_block_num := u32 (u32 (2 + bb_blks + 1) + q) in
    block ← kmalloc (bsize sb);
    match block with
    | None => mret (-1)
    | Some block =>
        '(_, block) ← ext2_read_block inode_block_num block;
        i ← get_inode inode_num;
        block ← need (splice block inode_offset (inode_bytes i));
        _ ← ext2_write_block inode_block_num block;
        mret 0
    end.

Definition memset_block (block : list Z) (n : Z) : option (list Z) :=
  splice block 0 (replicate (Z.to_nat n) 0).

Definition ext2_write_superblock : M Z :=
  sb ← gets superblock;
  block ← kmalloc (bsize sb);
  match block with
  | None => mret (-1)
  | Some block =>
      block ← need (memset_block block (bsize sb));
      block ← need (splice block 0 (super_bytes sb));
      ext2_write_block 1 block
  end.

(** One block of the block bitmap. *)
Definition write_bitmap_block (bm : list Z) (size i : Z) (block : list Z) : M (list Z) :=
  sb ← gets superblock;
  let bs := bsize sb in
  let off := u32 (i * bs) in
  let len := if size <? u32 (off + bs) then u32 (size - off) else bs in
  block ← need (memset_block block bs);
  src ← need (slice bm off len);
  block ← need (splice block 0 src);
  _ ← ext2_write_block (u32 (2 + i)) block;
  mret block.

Fixpoint write_bitmap_blocks (fuel : nat) (bm : list Z) (size i n : Z) (block : list Z) : M (list Z) :=
  match fuel with
  | O => fun _ => None
  | S fuel' =>
      if i <? n then
        block ← write_bitmap_block bm size i block;
        write_bitmap_blocks fuel' bm size (i + 1) n block
      else mret block
  end.

Definition ext2_write_bitmaps : M Z :=
  sb ← gets superblock;
  let bs := bsize sb in
  bb_blks ← need (bitmap_blocks sb);
  let ib_blk := u32 (2 + bb_blks) in
  let block_bitmap_size := u32 (blocks_count sb + 7) / 8 in
  let inode_bitmap_size := u32 (inodes_count sb + 7) / 8 in
  block ← kmalloc bs;
  match block with
  | None => mret (-1)
  | Some block =>
      bm ← gets block_bitmap;
      block ← (if 0 <? bb_blks then
                 bm ← need bm;
                 write_bitmap_blocks (S (Z.to_nat bb_blks)) bm block_bitmap_size 0 bb_blks block
               else mret block);
      block ← need (memset_block block bs);
      ibm ← gets inode_bitmap;
      ibm ← need ibm;
      src ← need (slice ibm 0 inode_bitmap_size);
      block ← need (splice block 0 src);
      _ ← ext2_write_block ib_blk block;
      mret 0
  end.

(** ** Paths *)

Fixpoint skip_slashes (path : list Z) : list Z :=
  match path with
  | c :: path' => if c =? 47 then skip_slashes path' else path
  | [] => []
  end.

(** Characters up to the next slash, at most [room]. *)
Fixpoint component_of (room : nat) (path : list Z) : list Z * list Z :=
  match room, path with
  | S room', c :: path' =>
      if c =? 47 then ([], path)
      else let '(comp, rest) := component_of room' path' in (c :: comp, rest)
  | _, _ => ([], path)
  end.

(** Component (empty at the end of the path) and the rest of the path. *)
Definition parse_path_component (path : list Z) (max_len : Z) : list Z * list Z :=
  component_of (Z.to_nat (max_len - 1)) (skip_slashes path).

(** ** Directories *)

Definition get16 (l : list Z) (off : Z) : option Z := b ← slice l off 2; Some (le_dec b).
Definition get32 (l : list Z) (off : Z) : option Z := b ← slice l off 4; Some (le_dec b).
Definition put16 (l : list Z) (off v : Z) : option (list Z) := splice l off (le_enc 2 (u16 v)).
Definition put32 (l : list Z) (off v : Z) : option (list Z) := splice l off (le_enc 4 (u32 v)).

(** [struct ext2_dir_entry] at [off]: inode 0, rec_len 4, name_len 6,
    file_type 7, name 8. *)
Definition de_inode (l : list Z) (off : Z) := get32 l off.
Definition de_rec_len (l : list Z) (off : Z) := get16 l (off + 4).
Definition de_name_len (l : list Z) (off : Z) := aget l (off + 6).
Definition de_file_type (l : list Z) (off : Z) := aget l (off + 7).
Definition de_name (l : list Z) (off len : Z) := slice l (off + 8) len.

(** Bytes before a NUL. *)
Fixpoint cstr (l : list Z) : list Z :=
  match l with
  | [] => []
  | c :: l' => if c =? 0 then [] else c :: cstr l'
  end.

Definition same_name (a b : list Z) : bool := bool_decide (a = b).

(** Search of one directory block from [offset]. *)
Fixpoint find_in_block (fuel : nat) (block : list Z) (offset size bs : Z) (name : list Z)
    : option (option Z) :=
  match fuel with
  | O => None
  | S fuel' =>
      if (offset <? size) && (offset <? bs) then
        ino ← de_inode block offset;
        nlen ← de_name_len block offset;
        hit ← (if negb (ino =? 0) && (0 <? nlen) then
                 n ← de_name block offset nlen;
                 Some (same_name (cstr n) name)
               else Some false);
        if (hit : bool) then Some (Some ino)
        else
          rec ← de_rec_len block offset;
          if rec =? 0 then Some None
          else find_in_block fuel' block (u32 (offset + rec)) size bs name
      else Some None
  end.

(** The direct blocks of a directory, from [i] to the first empty slot. *)
Fixpoint find_in_blocks (ptrs : list Z) (block : list Z) (size : Z) (name : list Z) : M Z :=
  match ptrs with
  | [] => mret 0
  | p :: ptrs' =>
      if p =? 0 then mret 0
      else
        bs ← gets (fun fs => bsize (superblock fs));
        '(_, block) ← ext2_read_block p block;
        found ← need (find_in_block (S (Z.to_nat bs)) block 0 size bs name);
        match found with
        | Some ino => mret ino
        | None => find_in_blocks ptrs' block size name
        end
  end.

Definition is_dir (i : ext2_inode) : bool := Z.land (i_mode i) EXT2_S_IFMT =? EXT2_S_IFDIR.

Definition find_entry_in_dir (dir_inode_num : Z) (name : list Z) : M Z :=
  sb ← gets superblock;
  if inodes_count sb <=? dir_inode_num then mret 0
  else
    dir ← get_inode dir_inode_num;
    if negb (is_dir dir) then mret 0
    else
      block ← kmalloc (bsize sb);
      match block with
      | None => mret 0
      | Some block => find_in_blocks (take 12 (i_block dir)) block (i_size dir) name
      end.

Fixpoint lookup_from (fuel : nat) (current : Z) (path : list Z) : M Z :=
  match fuel with
  | O => fun _ => None
  | S fuel' =>
      let '(comp, rest) := parse_path_component path 256 in
      match comp with
      | [] => mret current
      | _ =>
          next ← find_entry_in_dir current comp;
          if next =? 0 then mret 0 else lookup_from fuel' next rest
      end
  end.

Definition ext2_lookup_inode (path : list Z) : M Z :=
  match path with
  | [] => mret 0
  | _ =>
      if bool_decide (path = [47]) then mret EXT2_ROOT_INODE
      else lookup_from (S (length path)) EXT2_ROOT_INODE path
  end.

(** Length of an entry for a name of [n] bytes. *)
Definition entry_len (n : Z) : Z := Z.land (8 + n + 3) (Z.lnot 3).

Definition put_entry (block : list Z) (off ino nlen ftype : Z) (name : list Z) : option (list Z) :=
  b ← put32 block off ino;
  b ← aset b (off + 6) (u8 nlen);
  b ← aset b (off + 7) (u8 ftype);
  splice b (off + 8) name.

(** Try to place an entry in a block: [Some (Some block')] when placed. *)
Fixpoint place_in_block (fuel : nat) (block : list Z) (offset bs needed ino ftype : Z) (name : list Z)
    : option (option (list Z)) :=
  match fuel with
  | O => None
  | S fuel' =>
      if offset <? bs then
        e_ino ← de_inode block offset;
        e_nlen ← de_name_len block offset;
        rec ← de_rec_len block offset;
        let used := entry_len e_nlen in
        if e_ino =? 0 then
          if needed <=? rec then
            b ← put_entry block offset ino (Z.of_nat (length name)) ftype name; Some (Some b)
          else if rec =? 0 then Some None
          else place_in_block fuel' block (u32 (offset + rec)) bs needed ino ftype name
        else if used + needed <=? rec then
          b ← put16 block (offset + 4) used;
          let off' := u32 (offset + used) in
          b ← put16 b (off' + 4) (rec - used);
          b ← put_entry b off' ino (Z.of_nat (length name)) ftype name;
          Some (Some b)
        else if rec =? 0 then Some None
        else place_in_block fuel' block (u32 (offset + rec)) bs needed ino ftype name
      else Some None
  end.

Definition set_block (i : ext2_inode) (k v : Z) : option ext2_inode :=
  b ← aset (i_block i) k v;
  Some (mk_inode (i_mode i) (i_uid i) (i_size i) (i_times i) (i_gid i) (i_links_count i) (i_blocks i)
          (i_flags i) b (i_rest i)).
Definition set_size (i : ext2_inode) (n : Z) : ext2_inode :=
  mk_inode (i_mode i) (i_uid i) n (i_times i) (i_gid i) (i_links_count i) (i_blocks i)
    (i_flags i) (i_block i) (i_rest i).
Definition set_blocks (i : ext2_inode) (n : Z) : ext2_inode :=
  mk_inode (i_mode i) (i_uid i) (i_size i) (i_times i) (i_gid i) (i_links_count i) n
    (i_flags i) (i_block i) (i_rest i).
Definition set_links (i : ext2_inode) (n : Z) : ext2_inode :=
  mk_inode (i_mode i) (i_uid i) (i_size i) (i_times i) (i_gid i) n (i_blocks i)
    (i_flags i) (i_block i) (i_rest i).
Definition set_owner_mode (i : ext2_inode) (mode : Z) : ext2_inode :=
  mk_inode mode 0 (i_size i) (i_times i) 0 (i_links_count i) (i_blocks i)
    (i_flags i) (i_block i) (i_rest i).

Fixpoint add_entry_slots (fuel : nat) (i dir_inode_num ino ftype : Z) (name block : list Z) : M Z :=
  match fuel with
  | O => fun _ => None
  | S fuel' =>
      if i <? 12 then
        bs ← gets (fun fs => bsize (superblock fs));
        dir ← get_inode dir_inode_num;
        p ← need (aget (i_block dir) i);
        if p =? 0 then
          nb ← ext2_alloc_block;
          if nb =? 0 then mret (-1)
          else
            dir ← need (set_block dir i nb);
            let dir := set_size dir (u32 (i_size dir + bs)) in
            let dir := set_blocks dir (u32 (i_blocks dir + bs / 512)) in
            _ ← put_inode dir_inode_num dir;
            block ← need (memset_block block bs);
            block ← need (put_entry block 0 ino (Z.of_nat (length name)) ftype name);
            block ← need (put16 block 4 bs);
            _ ← ext2_write_block nb block;
            _ ← ext2_write_inode dir_inode_num;
            mret 0
        else
          '(_, block) ← ext2_read_block p block;
          placed ← need (place_in_block (S (Z.to_nat bs)) block 0 bs
                           (entry_len (Z.of_nat (length name))) ino ftype name);
          match placed with
          | Some block' => _ ← ext2_write_block p block'; mret 0
          | None => add_entry_slots fuel' (i + 1) dir_inode_num ino ftype name block
          end
      else mret (-1)
  end.

Definition add_entry_to_dir (dir_inode_num ino : Z) (name : list Z) (ftype : Z) : M Z :=
  sb ← gets superblock;
  if (dir_inode_num =? 0) || (inodes_count sb <=? dir_inode_num) then mret (-1)
  else
    dir ← get_inode dir_inode_num;
    if negb (is_dir dir) then mret (-1)
    else
      block ← kmalloc (bsize sb);
      match block with
      | None => mret (-1)
      | Some block => add_entry_slots 13 0 dir_inode_num ino ftype name block
      end.

(** Position of the last slash. *)
Fixpoint last_slash (path : list Z) : option Z :=
  match path with
  | [] => None
  | c :: path' =>
      match last_slash path' with
      | Some k => Some (k + 1)
      | None => if c =? 47 then Some 0 else None
      end
  end.

(** Parent path and name, each in a buffer of 256 bytes. *)
Definition split_path (path : list Z) : option (list Z * list Z) :=
  k ← last_slash path;
  let name := drop (Z.to_nat (k + 1)) path in
  let parent := if k =? 0 then [47] else take (Z.to_nat k) path in
  if (Z.of_nat (length parent) <? 256) && (Z.of_nat (length name) <? 256) then Some (parent, name) else None.

Definition starts_with_slash (path : list Z) : bool :=
  match path with c :: _ => c =? 47 | [] => false end.

Definition file_mode (mode type : Z) : Z := Z.lor (Z.ldiff mode EXT2_S_IFMT) type.

(** ** Files *)

Definition ext2_create (path : list Z) (mode : Z) : M Z :=
  if negb (starts_with_slash path) then mret 0
  else
    '(parent_path, name) ← need (split_path path);
    match name with
    | [] => mret 0
    | _ =>
        parent ← ext2_lookup_inode parent_path;
        if parent =? 0 then mret 0
        else
          existing ← find_entry_in_dir parent name;
          if negb (existing =? 0) then mret 0
          else
            ino ← ext2_alloc_inode_num;
            if ino =? 0 then mret 0
            else
              i ← get_inode ino;
              let i := set_owner_mode i (file_mode mode EXT2_S_IFREG) in
              let i := set_blocks (set_links (set_size i 0) 1) 0 in
              i ← need (set_block i 0 0);
              _ ← put_inode ino i;
              r ← add_entry_to_dir parent ino name 1;
              if r <? 0 then
                _ ← ext2_free_inode_num ino;
                mret 0
              else
                _ ← ext2_write_inode ino;
                _ ← ext2_write_superblock;
                _ ← ext2_write_bitmaps;
                mret ino
    end.

(** Remove the entry [name] of a block: the target and the changed block. *)
Fixpoint remove_in_block (fuel : nat) (block : list Z) (prev : option Z) (offset bs : Z) (name : list Z)
    : option (option (Z * list Z)) :=
  match fuel with
  | O => None
  | S fuel' =>
      if offset <? bs then
        rec ← de_rec_len block offset;
        if rec =? 0 then Some None
        else
          ino ← de_inode block offset;
          nlen ← de_name_len block offset;
          hit ← (if negb (ino =? 0) && (nlen =? Z.of_nat (length name)) then
                   n ← de_name block offset nlen; Some (bool_decide (n = name))
                 else Some false);
          if (hit : bool) then
            b ← match prev with
                | Some p => prec ← de_rec_len block p; put16 block (p + 4) (prec + rec)
                | None => put32 block offset 0
                end;
            Some (Some (ino, b))
          else remove_in_block fuel' block (Some offset) (u32 (offset + rec)) bs name
      else Some None
  end.

Fixpoint remove_slots (ptrs : list Z) (block : list Z) (name : list Z) : M (Z * list Z) :=
  match ptrs with
  | [] => mret (0, block)
  | p :: ptrs' =>
      if p =? 0 then remove_slots ptrs' block name
      else
        bs ← gets (fun fs => bsize (superblock fs));
        '(_, block) ← ext2_read_block p block;
        removed ← need (remove_in_block (S (Z.to_nat bs)) block None 0 bs name);
        match removed with
        | Some (target, block') => _ ← ext2_write_block p block'; mret (target, block')
        | None => remove_slots ptrs' block name
        end
  end.

Fixpoint count_entries (fuel : nat) (block : list Z) (offset bs n : Z) : option Z :=
  match fuel with
  | O => None
  | S fuel' =>
      if offset <? bs then
        rec ← de_rec_len block offset;
        if rec =? 0 then Some n
        else
          ino ← de_inode block offset;
          count_entries fuel' block (u32 (offset + rec)) bs (if ino =? 0 then n else n + 1)
      else Some n
  end.

(** Free the direct blocks of an inode; the inode is updated in the table as
    the loop goes. *)
Fixpoint free_direct (fuel : nat) (i target : Z) : M () :=
  match fuel with
  | O => fun _ => None
  | S fuel' =>
      if i <? 12 then
        ti ← get_inode target;
        p ← need (aget (i_block ti) i);
        _ ← (if negb (p =? 0) then
               _ ← ext2_free_block p;
               ti ← need (set_block ti i 0);
               put_inode target ti
             else mret tt);
        free_direct fuel' (i + 1) target
      else mret tt
  end.

Definition ext2_unlink (path : list Z) : M Z :=
  if negb (starts_with_slash path) then mret (-1)
  else
    '(parent_path, name) ← need (split_path path);
    match name with
    | [] => mret (-1)
    | _ =>
        parent ← ext2_lookup_inode parent_path;
        if parent =? 0 then mret (-1)
        else
          bs ← gets (fun fs => bsize (superblock fs));
          block ← kmalloc bs;
          match block with
          | None => mret (-1)
          | Some block =>
              dir ← get_inode parent;
              '(target, block) ← remove_slots (take 12 (i_block dir)) block name;
              if target =? 0 then mret (-1)
              else
                ti ← get_inode target;
                entries ← (if is_dir ti then
                             p ← need (aget (i_block ti) 0);
                             if negb (p =? 0) then
                               '(_, block) ← ext2_read_block p block;
                               need (count_entries (S (Z.to_nat bs)) block 0 bs 0)
                             else mret 0
                           else mret 0);
                if 2 <? entries then mret (-2)
                else
                  _ ← free_direct 13 0 target;
                  ti ← get_inode target;
                  _ ← put_inode target (set_blocks (set_size (set_links ti 0) 0) 0);
                  _ ← ext2_write_inode target;
                  _ ← ext2_free_inode_num target;
                  _ ← ext2_write_superblock;
                  _ ← ext2_write_bitmaps;
                  mret 0
          end
    end.

Fixpoint strip_slashes (n : nat) (path : list Z) : list Z :=
  match n with
  | S n' =>
      match path !! n with
      | Some c => if c =? 47 then strip_slashes n' (take n path) else path
      | None => strip_slashes n' path
      end
  | O => path
  end.

(** The "." and ".." entries of a new directory. *)
Definition dot_entries (block : list Z) (bs self parent : Z) : option (list Z) :=
  b ← put_entry block 0 self 1 2 [46];
  b ← put16 b 4 12;
  b ← put_entry b 12 parent 2 2 [46; 46];
  put16 b (12 + 4) (bs - 12).

Definition ext2_mkdir (path : list Z) (mode : Z) : M Z :=
  if negb (starts_with_slash path) then mret 0
  else
    let path := strip_slashes (length path - 1) path in
    if 256 <=? Z.of_nat (length path) then mret 0
    else
      '(parent_path, name) ← need (split_path path);
      match name with
      | [] => mret 0
      | _ =>
          parent ← ext2_lookup_inode parent_path;
          if parent =? 0 then mret 0
          else
            existing ← find_entry_in_dir parent name;
            if negb (existing =? 0) then mret 0
            else
              ino ← ext2_alloc_inode_num;
              if ino =? 0 then mret 0
              else
                nb ← ext2_alloc_block;
                if nb =? 0 then
                  _ ← ext2_free_inode_num ino;
                  mret 0
                else
                  bs ← gets (fun fs => bsize (superblock fs));
                  i ← get_inode ino;
                  let i := set_owner_mode i (file_mode mode EXT2_S_IFDIR) in
                  let i := set_blocks (set_links (set_size i bs) 2) (bs / 512) in
                  i ← need (set_block i 0 nb);
                  _ ← put_inode ino i;
                  block ← kmalloc bs;
                  match block with
                  | None =>
                      _ ← ext2_free_block nb;
                      _ ← ext2_free_inode_num ino;
                      mret 0
                  | Some block =>
                      block ← need (memset_block block bs);
                      block ← need (dot_entries block bs ino parent);
                      _ ← ext2_write_block nb block;
                      r ← add_entry_to_dir parent ino name 2;
                      if r <? 0 then
                        _ ← ext2_free_block nb;
                        _ ← ext2_free_inode_num ino;
                        mret 0
                      else
                        pi ← get_inode parent;
                        _ ← put_inode parent (set_links pi (u16 (i_links_count pi + 1)));
                        _ ← ext2_write_inode ino;
                        _ ← ext2_write_inode parent;
                        _ ← ext2_write_superblock;
                        _ ← ext2_write_bitmaps;
                        mret ino
                  end
      end.

(** ** Reading *)

(** Loop state of [ext2_read]: the caller's buffer and the cached tables. *)
Record read_state := mk_rs {
  r_done : Z; r_out : list Z; r_block : list Z;
  r_ind : option (list Z); r_dind : option (list Z); r_l2 : option (list Z); r_l2_cached : Z }.

Definition set_out o s := mk_rs (r_done s) o (r_block s) (r_ind s) (r_dind s) (r_l2 s) (r_l2_cached s).
Definition set_ind b s := mk_rs (r_done s) (r_out s) (r_block s) (Some b) (r_dind s) (r_l2 s) (r_l2_cached s).
Definition set_dind b s := mk_rs (r_done s) (r_out s) (r_block s) (r_ind s) (Some b) (r_l2 s) (r_l2_cached s).
Definition set_l2 b n s := mk_rs (r_done s) (r_out s) (r_block s) (r_ind s) (r_dind s) (Some b) n.

(** A table read on first use: [None] when it cannot be had. *)
Definition load_table (cached : option (list Z)) (p : Z) : M (option (list Z)) :=
  match cached with
  | Some b => mret (Some b)
  | None =>
      bs ← gets (fun fs => bsize (superblock fs));
      t ← kmalloc bs;
      match t with
      | None => mret None
      | Some t =>
          '(r, t) ← ext2_read_block p t;
          mret (if r <? 0 then None else Some t)
      end
  end.

(** Physical block of a logical index, through the cached tables; [None] makes
    the caller zero-fill and stop, like block 0. *)
Definition read_map (inode : ext2_inode) (ptrs bi : Z) (s : read_state) : M (option Z * read_state) :=
  if bi <? 12 then
    p ← need (aget (i_block inode) bi);
    mret (Some p, s)
  else
    p12 ← need (aget (i_block inode) 12);
    p13 ← need (aget (i_block inode) 13);
    if (bi <? 12 + ptrs) && negb (p12 =? 0) then
      t ← load_table (r_ind s) p12;
      match t with
      | None => mret (None, s)
      | Some t =>
          p ← need (get32 t (4 * (bi - 12)));
          mret (Some p, set_ind t s)
      end
    else if (bi <? u32 (12 + ptrs + ptrs * ptrs)) && negb (p13 =? 0) then
      let di := u32 (bi - 12 - ptrs) in
      l1 ← need (udiv di ptrs);
      l2 ← need (umod di ptrs);
      t ← load_table (r_dind s) p13;
      match t with
      | None => mret (None, s)
      | Some t =>
          l2_block ← need (get32 t (4 * l1));
          let s := set_dind t s in
          if l2_block =? 0 then mret (None, s)
          else
            bs ← gets (fun fs => bsize (superblock fs));
            buf ← match r_l2 s with Some b => mret (Some b) | None => kmalloc bs end;
            match buf with
            | None => mret (None, s)
            | Some b =>
                let s := set_l2 b (r_l2_cached s) s in
                if negb (r_l2_cached s =? l2_block) then
                  '(r, b) ← ext2_read_block l2_block b;
                  if r <? 0 then mret (None, set_l2 b (r_l2_cached s) s)
                  else
                    p ← need (get32 b (4 * l2));
                    mret (Some p, set_l2 b l2_block s)
                else
                  p ← need (get32 b (4 * l2));
                  mret (Some p, s)
            end
      end
    else mret (Some 0, s).

Fixpoint read_loop (fuel : nat) (inode : ext2_inode) (offset size : Z) (s : read_state) : M (Z * list Z) :=
  match fuel with
  | O => fun _ => None
  | S fuel' =>
      if r_done s <? size then
        bs ← gets (fun fs => bsize (superblock fs));
        let pos := u64 (offset + r_done s) in
        bi ← need (udiv pos bs);
        bo ← need (umod pos bs);
        '(p, s) ← read_map inode (bs / 4) (u32 bi) s;
        match p with
        | None | Some 0 =>
            out ← need (splice (r_out s) (r_done s) (replicate (Z.to_nat (size - r_done s)) 0));
            mret (r_done s, out)
        | Some p =>
            '(r, b) ← ext2_read_block p (r_block s);
            if r <? 0 then mret (r_done s, r_out s)
            else
              let chunk := if bs - bo <? size - r_done s then bs - bo else size - r_done s in
              src ← need (slice b bo chunk);
              out ← need (splice (r_out s) (r_done s) src);
              read_loop fuel' inode offset size
                (mk_rs (u64 (r_done s + chunk)) out b (r_ind s) (r_dind s) (r_l2 s) (r_l2_cached s))
        end
      else mret (r_done s, r_out s)
  end.

(** Result: byte count (or -1) and the caller's buffer. *)
Definition ext2_read (inode_num offset size : Z) (buffer : list Z) : M (Z * list Z) :=
  sb ← gets superblock;
  if inodes_count sb <=? inode_num then mret (-1, buffer)
  else
    inode ← get_inode inode_num;
    if i_size inode <=? offset then mret (0, buffer)
    else
      let size := if i_size inode <? u64 (offset + size) then i_size inode - offset else size in
      block ← kmalloc (bsize sb);
      match block with
      | None => mret (-1, buffer)
      | Some b => read_loop (S (Z.to_nat size)) inode offset size (mk_rs 0 buffer b None None None 0)
      end.

(** ** Block maps and writing *)

Definition ext2_ptr_get (table_block idx : Z) : M Z :=
  bs ← gets (fun fs => bsize (superblock fs));
  t ← kmalloc bs;
  match t with
  | None => mret 0
  | Some t =>
      '(r, t) ← ext2_read_block table_block t;
      if r <? 0 then mret 0 else need (get32 t (4 * idx))
  end.

Definition ext2_ptr_set (table_block idx val : Z) : M () :=
  bs ← gets (fun fs => bsize (superblock fs));
  t ← kmalloc bs;
  match t with
  | None => mret tt
  | Some t =>
      '(r, t) ← ext2_read_block table_block t;
      t ← (if r <? 0 then need (memset_block t bs) else mret t);
      t ← need (put32 t (4 * idx) val);
      _ ← ext2_write_block table_block t;
      mret tt
  end.

(** Zero a fresh table block, if a buffer can be had. *)
Definition zero_table (nb : Z) : M () :=
  bs ← gets (fun fs => bsize (superblock fs));
  z ← kmalloc bs;
  match z with
  | None => mret tt
  | Some z => z ← need (memset_block z bs); _ ← ext2_write_block nb z; mret tt
  end.

Definition add_sectors (inode_num : Z) : M () :=
  bs ← gets (fun fs => bsize (superblock fs));
  i ← get_inode inode_num;
  put_inode inode_num (set_blocks i (u32 (i_blocks i + bs / 512))).

Definition set_inode_block (inode_num k v : Z) : M () :=
  i ← get_inode inode_num;
  i ← need (set_block i k v);
  put_inode inode_num i.

Definition inode_block (inode_num k : Z) : M Z :=
  i ← get_inode inode_num;
  need (aget (i_block i) k).

(** The table block in slot [k] of the inode, allocated and zeroed if absent;
    0 on failure. *)
Definition root_table (inode_num k : Z) : M Z :=
  p ← inode_block inode_num k;
  if p =? 0 then
    nb ← ext2_alloc_block;
    if nb =? 0 then mret 0
    else
      _ ← zero_table nb;
      _ ← set_inode_block inode_num k nb;
      _ ← add_sectors inode_num;
      mret nb
  else mret p.

(** The data block in slot [idx] of a table, allocated if absent. *)
Definition table_slot (inode_num table idx : Z) : M Z :=
  db ← ext2_ptr_get table idx;
  if db =? 0 then
    db ← ext2_alloc_block;
    if db =? 0 then mret 0
    else
      _ ← ext2_ptr_set table idx db;
      _ ← add_sectors inode_num;
      mret db
  else mret db.

(** The second-level table in slot [idx], allocated and zeroed if absent. *)
Definition table_slot_table (inode_num table idx : Z) : M Z :=
  t ← ext2_ptr_get table idx;
  if t =? 0 then
    t ← ext2_alloc_block;
    if t =? 0 then mret 0
    else
      _ ← zero_table t;
      _ ← ext2_ptr_set table idx t;
      _ ← add_sectors inode_num;
      mret t
  else mret t.

Definition ext2_bmap_alloc (inode_num bi : Z) : M Z :=
  bs ← gets (fun fs => bsize (superblock fs));
  let ptrs := bs / 4 in
  if bi <? 12 then
    p ← inode_block inode_num bi;
    if p =? 0 then
      nb ← ext2_alloc_block;
      if nb =? 0 then mret 0
      else
        _ ← set_inode_block inode_num bi nb;
        _ ← add_sectors inode_num;
        mret nb
    else mret p
  else if bi <? 12 + ptrs then
    t ← root_table inode_num 12;
    if t =? 0 then mret 0 else table_slot inode_num t (bi - 12)
  else if bi <? u32 (12 + ptrs + ptrs * ptrs) then
    let di := u32 (bi - 12 - ptrs) in
    l1 ← need (udiv di ptrs);
    l2 ← need (umod di ptrs);
    t ← root_table inode_num 13;
    if t =? 0 then mret 0
    else
      t2 ← table_slot_table inode_num t l1;
      if t2 =? 0 then mret 0 else table_slot inode_num t2 l2
  else mret 0.

Definition ext2_truncate (path : list Z) : M Z :=
  inode_num ← ext2_lookup_inode path;
  sb ← gets superblock;
  if (inode_num =? 0) || (inodes_count sb <=? inode_num) then mret (-1)
  else
    i ← get_inode inode_num;
    _ ← put_inode inode_num (set_size i 0);
    _ ← ext2_write_inode inode_num;
    mret 0.

(** [wrote] bytes of [buffer] are already written. *)
Fixpoint write_loop (fuel : nat) (inode_num offset size wrote : Z) (buffer block : list Z) : M Z :=
  match fuel with
  | O => fun _ => None
  | S fuel' =>
      if wrote <? size then
        bs ← gets (fun fs => bsize (superblock fs));
        let pos := u64 (offset + wrote) in
        bi ← need (udiv pos bs);
        bo ← need (umod pos bs);
        p ← ext2_bmap_alloc inode_num (u32 bi);
        if p =? 0 then mret wrote
        else
          block ← (if negb (bo =? 0) || (size - wrote <? bs) then
                     '(_, b) ← ext2_read_block p block; mret b
                   else mret block);
          let chunk := if bs - bo <? size - wrote then bs - bo else size - wrote in
          src ← need (slice buffer wrote chunk);
          block ← need (splice block bo src);
          _ ← ext2_write_block p block;
          write_loop fuel' inode_num offset size (wrote + chunk) buffer block
      else mret wrote
  end.

Definition ext2_write (inode_num offset size : Z) (buffer : list Z) : M Z :=
  sb ← gets superblock;
  if inodes_count sb <=? inode_num then mret (-1)
  else
    inode ← get_inode inode_num;
    if is_dir inode then mret (-1)
    else
      block ← kmalloc (bsize sb);
      match block with
      | None => mret (-1)
      | Some block =>
          wrote ← write_loop (S (Z.to_nat size)) inode_num offset size 0 buffer block;
          inode ← get_inode inode_num;
          _ ← (if i_size inode <? u64 (offset + wrote)
               then put_inode inode_num (set_size inode (u32 (u64 (offset + wrote))))
               else mret tt);
          _ ← ext2_write_inode inode_num;
          _ ← ext2_write_superblock;
          _ ← ext2_write_bitmaps;
          mret wrote
      end.

(** ** Directory listing, stat *)

(** An entry as [ext2_readdir] returns it. *)
Record dirent := mk_dirent { d_inode : Z; d_rec_len : Z; d_name_len : Z; d_file_type : Z; d_name : list Z }.

Fixpoint list_block (fuel : nat) (block : list Z) (offset size bs max : Z) (acc : list dirent)
    : option (list dirent) :=
  match fuel with
  | O => None
  | S fuel' =>
      if (offset <? size) && (offset <? bs) && (Z.of_nat (length acc) <? max) then
        rec ← de_rec_len block offset;
        if rec =? 0 then Some acc
        else
          ino ← de_inode block offset;
          nlen ← de_name_len block offset;
          ft ← de_file_type block offset;
          acc ← (if negb (ino =? 0) && (0 <? nlen) then
                   n ← de_name block offset nlen;
                   Some (acc ++ [mk_dirent ino rec nlen ft n])
                 else Some acc);
          list_block fuel' block (u32 (offset + rec)) size bs max acc
      else Some acc
  end.

Fixpoint list_slots (ptrs : list Z) (block : list Z) (size max : Z) (acc : list dirent) : M (list dirent) :=
  match ptrs with
  | [] => mret acc
  | p :: ptrs' =>
      if negb (p =? 0) && (Z.of_nat (length acc) <? max) then
        bs ← gets (fun fs => bsize (superblock fs));
        '(_, block) ← ext2_read_block p block;
        acc ← need (list_block (S (Z.to_nat bs)) block 0 size bs max acc);
        list_slots ptrs' block size max acc
      else mret acc
  end.

Definition ext2_readdir (inode_num max_entries : Z) : M (list dirent) :=
  sb ← gets superblock;
  if (inodes_count sb <=? inode_num) || (max_entries <=? 0) then mret []
  else
    inode ← get_inode inode_num;
    if negb (is_dir inode) then mret []
    else
      block ← kmalloc (bsize sb);
      match block with
      | None => mret []
      | Some block => list_slots (take 12 (i_block inode)) block (i_size inode) max_entries []
      end.

Definition ext2_stat (inode_num : Z) : M (option ext2_inode) :=
  sb ← gets superblock;
  if inodes_count sb <=? inode_num then mret None
  else i ← get_inode inode_num; mret (Some i).

(** ** Format, mount, unmount *)

Definition ext2_unmount : M () :=
  modify (fun fs => mk_fs (device fs) zero_super None None None (tick fs)).

(** The superblock [ext2_format] builds; the sizes of the inode table in bytes
    and blocks. *)
Definition format_super (dev_size : Z) : option (ext2_superblock * Z * Z) :=
  let bs := EXT2_BLOCK_SIZE in
  let blocks := u32 (dev_size / EXT2_BLOCK_SIZE) in
  let inodes := if blocks / 4 <? 1024 then blocks / 4 else 1024 in
  let table_size := u32 (inodes * INODE_SIZE) in
  let table_blocks := u32 (u32 (table_size + bs) - 1) / bs in
  let z := zero_super in
  let sb0 := mk_super inodes blocks (s_reserved z) blocks inodes 0 0 0 0 (s_mid z) EXT2_MAGIC
               (s_mid2 z) bs 1 (s_pad z) in
  bb_blks ← bitmap_blocks sb0;
  let it_start := u32 (u32 (2 + bb_blks) + 1) in
  Some (mk_super inodes blocks (s_reserved z) blocks inodes (u32 (it_start + table_blocks)) 0 8192 2048
          (s_mid z) EXT2_MAGIC (s_mid2 z) bs 1 (s_pad z), table_size, table_blocks).

Fixpoint set_bits (fuel : nat) (bm : list Z) (i n : Z) : option (list Z) :=
  match fuel with
  | O => None
  | S fuel' => if i <? n then bm' ← set_bit bm i; set_bits fuel' bm' (i + 1) n else Some bm
  end.

(** Write [n] blocks of the inode table. *)
Fixpoint write_table_blocks (fuel : nat) (start i n : Z) : M () :=
  match fuel with
  | O => fun _ => None
  | S fuel' =>
      if i <? n then
        bs ← gets (fun fs => bsize (superblock fs));
        t ← gets inode_table;
        t ← need t;
        src ← need (slice (concat (inode_bytes <$> t)) (u32 (i * bs)) bs);
        _ ← ext2_write_block (u32 (start + i)) src;
        write_table_blocks fuel' start (i + 1) n
      else mret tt
  end.

Definition ascii_slash (l : list Z) : list Z := 47 :: l.
Definition etc_path (l : list Z) : list Z := [47; 101; 116; 99; 47] ++ l.

(** "home", "bin", "etc". *)
Definition format_dirs : list (list Z) :=
  [[104; 111; 109; 101]; [98; 105; 110]; [101; 116; 99]].

(** The files [ext2_format] seeds /etc with: name, contents, mode. *)
Definition format_seeds : list (list Z * list Z * Z) :=
  [([112; 97; 115; 115; 119; 100],
    [114;111;111;116;58;120;58;48;58;48;58;82;111;111;116;58;47;114;111;111;116;58;47;98;105;110;47;115;104;10], 420);
   ([115; 104; 97; 100; 111; 119], [114;111;111;116;58;10], 384);
   ([103; 114; 111; 117; 112], [114;111;111;116;58;120;58;48;58;10], 420);
   ([104; 111; 115; 116; 110; 97; 109; 101], [118;105;98;101;111;115;10], 420);
   ([105; 115; 115; 117; 101],
    [86;105;98;101;79;83;32;92;114;32;40;107;101;114;110;101;108;32;92;118;41;92;10;92;110], 420)].

Fixpoint seed_files (seeds : list (list Z * list Z * Z)) : M () :=
  match seeds with
  | [] => mret tt
  | (name, contents, mode) :: seeds' =>
      ino ← ext2_create (etc_path name) mode;
      _ ← (if negb (ino =? 0)
           then _ ← ext2_write ino 0 (Z.of_nat (length contents)) contents; mret tt
           else mret tt);
      seed_files seeds'
  end.

Fixpoint make_dirs (dirs : list (list Z)) : M () :=
  match dirs with
  | [] => mret tt
  | d :: dirs' => _ ← ext2_mkdir (ascii_slash d) 493; make_dirs dirs'
  end.

Definition ext2_format : M Z :=
  _ ← modify (fun fs => mk_fs (device fs) zero_super None None None (tick fs));
  dev ← gets device;
  '(sb, table_size, table_blocks) ← need (format_super (size dev));
  _ ← modify (set_super sb);
  let bb_size := u32 (blocks_count sb + 7) / 8 in
  bb ← kmalloc bb_size;
  match bb with
  | None => mret (-1)
  | Some bb =>
      bb ← need (memset_block bb bb_size);
      let ib_size := u32 (inodes_count sb + 7) / 8 in
      ib ← kmalloc ib_size;
      match ib with
      | None => _ ← modify (set_bb (Some bb)); mret (-1)
      | Some ib =>
          ib ← need (memset_block ib ib_size);
          table ← kmalloc table_size;
          match table with
          | None => _ ← modify (set_bb (Some bb)); _ ← modify (set_ibm (Some ib)); mret (-1)
          | Some _ =>
              let table := replicate (Z.to_nat (inodes_count sb)) zero_inode in
              bb ← need (set_bits (S (Z.to_nat (first_data_block sb))) bb 0 (first_data_block sb));
              ib ← need (set_bit ib (EXT2_ROOT_INODE - 1));
              _ ← modify (set_bb (Some bb));
              _ ← modify (set_ibm (Some ib));
              _ ← modify (set_table (Some table));
              _ ← modify (set_super (set_free_inodes (u32 (free_inodes sb - 1))
                    (set_free_blocks (u32 (blocks_count sb - first_data_block sb)) sb)));
              root_block ← ext2_alloc_block;
              root ← get_inode EXT2_ROOT_INODE;
              let bs := bsize sb in
              let root := set_owner_mode root (EXT2_S_IFDIR + 493) in
              let root := set_blocks (set_links (set_size root bs) 2) (bs / 512) in
              root ← need (set_block root 0 root_block);
              _ ← put_inode EXT2_ROOT_INODE root;
              dir_block ← kmalloc bs;
              dir_block ← need dir_block;
              dir_block ← need (memset_block dir_block bs);
              dir_block ← need (dot_entries dir_block bs EXT2_ROOT_INODE EXT2_ROOT_INODE);
              _ ← ext2_write_block root_block dir_block;
              _ ← ext2_write_superblock;
              _ ← ext2_write_bitmaps;
              bb_blks ← need (bitmap_blocks sb);
              _ ← write_table_blocks (S (Z.to_nat table_blocks)) (u32 (u32 (2 + bb_blks) + 1)) 0 table_blocks;
              _ ← make_dirs format_dirs;
              _ ← seed_files format_seeds;
              mret 0
          end
      end
  end.

(** One block of the block bitmap, read into its place. *)
Fixpoint read_bitmap_blocks (fuel : nat) (i n size : Z) (bm block : list Z) : M (list Z * list Z) :=
  match fuel with
  | O => fun _ => None
  | S fuel' =>
      if i <? n then
        bs ← gets (fun fs => bsize (superblock fs));
        dev ← gets device;
        let off := u64 (i * bs) in
        let len := if size <? u64 (off + bs) then u64 (size - off) else bs in
        k ← need (udiv (u32 (u32 (2 + i) * bs)) (block_size dev));
        '(_, block, dev) ← need (ramdisk_read dev k block bs);
        _ ← modify (set_device dev);
        src ← need (slice block 0 len);
        bm ← need (splice bm off src);
        read_bitmap_blocks fuel' (i + 1) n size bm block
      else mret (bm, block)
  end.

(** Memory seen as an array of inodes. *)
Definition table_of (m : list Z) : list ext2_inode :=
  (fun k => inode_of (field m (256 * k) 256)) <$> seq 0 (length m / 256).

(** Read the inode table; a block is read when the block number changes. *)
Fixpoint read_table (fuel : nat) (i n start last : Z) (block : list Z) : M () :=
  match fuel with
  | O => fun _ => None
  | S fuel' =>
      if i <? n then
        bs ← gets (fun fs => bsize (superblock fs));
        dev ← gets device;
        q ← need (udiv (i * INODE_SIZE) bs);
        off ← need (umod (i * INODE_SIZE) bs);
        let num := u32 (start + q) in
        block ← (if negb (num =? last) then
                   k ← need (udiv (u32 (num * bs)) (block_size dev));
                   '(_, block, dev) ← need (ramdisk_read dev k block bs);
                   _ ← modify (set_device dev);
                   mret block
                 else mret block);
        src ← need (slice block off INODE_SIZE);
        t ← gets inode_table;
        t ← need t;
        t ← need (aset t i (inode_of src));
        _ ← modify (set_table (Some t));
        read_table fuel' (i + 1) n start num block
      else mret tt
  end.

(** [sb_buffer] is the static buffer [g_ext2_sb_buffer]. *)
Definition ext2_mount (sb_buffer : list Z) : M Z :=
  _ ← modify (fun fs => mk_fs (device fs) zero_super None None None (tick fs));
  dev ← gets device;
  k ← need (udiv 1024 (block_size dev));
  let sb_block := if k =? 0 then 1 else k in
  '(r, block, dev) ← need (ramdisk_read dev sb_block sb_buffer EXT2_BLOCK_SIZE);
  _ ← modify (set_device dev);
  if r <? 0 then mret (-1)
  else
    let s := super_of block in
    if negb (magic s =? EXT2_MAGIC) then ext2_format
    else
      bs ← need (if (0 <=? log_block_size s) && (log_block_size s <? 64)
                 then Some (u32 (u64 (Z.shiftl 1024 (log_block_size s)))) else None);
      let sb := mk_super (inodes_count s) (blocks_count s) (s_reserved s) (free_blocks s) (free_inodes s)
                  (first_data_block s) (log_block_size s) (blocks_per_group s) (inodes_per_group s)
                  (s_mid s) (magic s) (s_mid2 s) bs 1 (s_pad s) in
      _ ← modify (set_super sb);
      let bb_size := u32 (blocks_count sb + 7) / 8 in
      bb ← kmalloc bb_size;
      match bb with
      | None => mret (-1)
      | Some bb =>
          let ib_size := u32 (inodes_count sb + 7) / 8 in
          ib ← kmalloc ib_size;
          match ib with
          | None => _ ← modify (set_bb (Some bb)); mret (-1)
          | Some ib =>
              _ ← modify (set_bb (Some bb));
              _ ← modify (set_ibm (Some ib));
              block ← kmalloc bs;
              match block with
              | None => mret (-1)
              | Some block =>
                  bb_blks ← need (bitmap_blocks sb);
                  '(bb, block) ← read_bitmap_blocks (S (Z.to_nat bb_blks)) 0 bb_blks bb_size bb block;
                  _ ← modify (set_bb (Some bb));
                  dev ← gets device;
                  k ← need (udiv (u32 (u32 (2 + bb_blks) * bs)) (block_size dev));
                  '(_, block, dev) ← need (ramdisk_read dev k block bs);
                  _ ← modify (set_device dev);
                  src ← need (slice block 0 ib_size);
                  ib ← need (splice ib 0 src);
                  _ ← modify (set_ibm (Some ib));
                  table ← kmalloc (u32 (inodes_count sb * INODE_SIZE));
                  match table with
                  | None => mret (-1)
                  | Some table =>
                      _ ← modify (set_table (Some (table_of table)));
                      iblock ← kmalloc bs;
                      match iblock with
                      | None => mret (-1)
                      | Some iblock =>
                          _ ← read_table (S (Z.to_nat (inodes_count sb))) 0 (inodes_count sb)
                                (u32 (u32 (2 + bb_blks) + 1)) 4294967295 iblock;
                          mret 0
                      end
                  end
              end
          end
      end.

End FileSystem.
End Ext2.
