(* ===== verification/Ext2Alloc.v ===== *)
(** * Ext2Alloc: encodings and bitmaps of the file system (kernel/src/ext2_fs.c)

    The on-disk encodings of inodes and superblocks are inverse to their
    decoders.  The allocation functions take the lowest free bit, change no other
    bit, and keep the free counters equal to the number of clear bits. *)

From Stdlib Require Import ZArith Lia Bool ZifyBool.
From stdpp Require Import base numbers option list list_numbers sets.
From S2P Require Import Prelude Ramdisk Ext2.
Import Ramdisk Ext2.

Open Scope Z_scope.

Module Ext2Alloc.

(** ** Encodings *)

Definition u16_ok (x : Z) : Prop := 0 <= x < 2 ^ 16.
Definition u32_ok (x : Z) : Prop := 0 <= x < 2 ^ 32.

Definition inode_wf (i : ext2_inode) : Prop :=
  u16_ok (i_mode i) /\ u16_ok (i_uid i) /\ u32_ok (i_size i) /\ length (i_times i) = 16%nat /\
  u16_ok (i_gid i) /\ u16_ok (i_links_count i) /\ u32_ok (i_blocks i) /\
  length (i_flags i) = 8%nat /\ (length (i_block i) = 15%nat /\ Forall u32_ok (i_block i)) /\
  length (i_rest i) = 156%nat.

Definition super_wf (s : ext2_superblock) : Prop :=
  (u32_ok (inodes_count s) /\ u32_ok (blocks_count s) /\ u32_ok (free_blocks s) /\
   u32_ok (free_inodes s) /\ u32_ok (first_data_block s) /\ u32_ok (log_block_size s) /\
   u32_ok (blocks_per_group s) /\ u32_ok (inodes_per_group s) /\ u16_ok (magic s) /\
   u32_ok (bsize s) /\ u32_ok (version s)) /\
  length (s_reserved s) = 4%nat /\ length (s_mid s) = 20%nat /\ length (s_mid2 s) = 54%nat /\
  length (s_pad s) = 896%nat.

(** The part of a concatenation that starts after [a]. *)
Lemma field_skip (a b : list Z) off n k :
  length a = k -> (k <= off)%nat -> field (a ++ b) off n = field b (off - k) n.
Proof. intros <- H. unfold field. rewrite drop_app_ge by done. done. Qed.

Lemma field_here (a b : list Z) n : length a = n -> field (a ++ b) 0 n = a.
Proof. intros <-. unfold field. rewrite drop_0. apply take_app_length. Qed.

Lemma field_all (a : list Z) n : length a = n -> field a 0 n = a.
Proof. intros <-. unfold field. rewrite drop_0. by apply take_ge. Qed.

Lemma words_enc ws : Forall u32_ok ws -> words (length ws) (concat (le_enc 4 <$> ws)) = ws.
Proof.
  induction 1 as [|w ws Hw Hws IH]; [done|]. cbn [length words fmap list_fmap concat].
  rewrite take_app_length' by (by rewrite le_enc_length). rewrite drop_app_length' by (by rewrite le_enc_length).
  rewrite IH, le_dec_enc_id by done. done.
Qed.

Lemma words_bytes_length ws : length (concat (le_enc 4 <$> ws)) = (4 * length ws)%nat.
Proof.
  induction ws as [|w ws IH]; [done|]. cbn [fmap list_fmap concat length].
  rewrite length_app, le_enc_length. change (list_fmap Z (list Z) (le_enc 4) ws) with (le_enc 4 <$> ws). lia.
Qed.

Lemma inode_bytes_length i : inode_wf i -> length (inode_bytes i) = 256%nat.
Proof.
  intros (_&_&_&Ht&_&_&_&Hf&[Hb _]&Hr). unfold inode_bytes.
  rewrite !length_app, !le_enc_length, words_bytes_length. lia.
Qed.

Lemma super_bytes_length s : super_wf s -> length (super_bytes s) = 1016%nat.
Proof.
  intros (_&Hr&Hm&Hm2&Hp). unfold super_bytes. rewrite !length_app, !le_enc_length. lia.
Qed.

(** Peel the encoded fields one after the other. *)
Ltac peel := repeat (erewrite field_skip; [|first [apply le_enc_length | eassumption]|cbn; lia]);
  cbn [Nat.sub]; first [rewrite field_here by (apply le_enc_length || eassumption)
                       | rewrite field_all by (apply le_enc_length || eassumption)].

Lemma inode_of_bytes i : inode_wf i -> inode_of (inode_bytes i) = i.
Proof.
  intros (Hm&Hu&Hs&Ht&Hg&Hl&Hb&Hf&[Hbl Hbw]&Hr).
  assert (length (concat (le_enc 4 <$> i_block i)) = 60%nat) as Hbb
    by (rewrite words_bytes_length; lia).
  unfold inode_of, inode_bytes. destruct i as [mode uid size times gid links blocks flags block rest].
  cbn [i_mode i_uid i_size i_times i_gid i_links_count i_blocks i_flags i_block i_rest] in *.
  f_equal; peel; try (rewrite le_dec_enc_id; done); try done.
  rewrite <- Hbl. by apply words_enc.
Qed.

Lemma super_of_bytes s : super_wf s -> super_of (super_bytes s) = s.
Proof.
  intros ((H1&H2&H3&H4&H5&H6&H7&H8&H9&H10&H11)&Hr&Hm&Hm2&Hp).
  unfold super_of, super_bytes. destruct s.
  cbn [inodes_count blocks_count s_reserved free_blocks free_inodes first_data_block log_block_size
       blocks_per_group inodes_per_group s_mid magic s_mid2 bsize version s_pad] in *.
  f_equal; peel; try (rewrite le_dec_enc_id; done); done.
Qed.

(** ** Bitmaps *)

Definition bit_set (bm : list Z) (i : Z) : bool :=
  match aget bm (i / 8) with Some b => Z.testbit b (i mod 8) | None => false end.

Definition bitmap_ok (bm : list Z) (count : Z) : Prop :=
  Z.of_nat (length bm) = (count + 7) / 8 /\ Forall byte_ok bm.

Lemma bit_mask_pow i : bit_mask i = 2 ^ (i mod 8).
Proof.
  unfold bit_mask. rewrite Z.shiftl_mul_pow2, Z.mul_1_l by (pose proof (Z.mod_pos_bound i 8); lia).
  apply u8_id. pose proof (Z.mod_pos_bound i 8 ltac:(lia)). split; [apply Z.pow_nonneg; lia|].
  change 256 with (2 ^ 8). apply Z.pow_lt_mono_r; lia.
Qed.

Lemma land_pow_testbit b k : 0 <= k -> (Z.land b (2 ^ k) =? 0) = negb (Z.testbit b k).
Proof.
  intros Hk. destruct (Z.testbit b k) eqn:E; cbn [negb].
  - apply Z.eqb_neq. intros H. apply (f_equal (fun x => Z.testbit x k)) in H.
    rewrite Z.land_spec, E, Z.pow2_bits_true, Z.bits_0 in H by lia. done.
  - apply Z.eqb_eq. apply Z.bits_inj'. intros n Hn. rewrite Z.land_spec, Z.bits_0.
    destruct (decide (n = k)) as [->|]; [by rewrite E|].
    rewrite Z.pow2_bits_false by lia. apply andb_false_r.
Qed.

Lemma byte_bits b : byte_ok b <-> 0 <= b /\ forall l, 8 <= l -> Z.testbit b l = false.
Proof.
  unfold byte_ok. change 256 with (2 ^ 8). split.
  - intros [H0 H]. split; [done|]. by apply Z.bounded_iff_bits_nonneg.
  - intros [H0 H]. split; [done|]. by apply Z.bounded_iff_bits_nonneg.
Qed.

Lemma byte_index i count : 0 <= i < count -> 0 <= i / 8 < (count + 7) / 8.
Proof. intros. dlia. Qed.

Lemma bitmap_get bm count i :
  bitmap_ok bm count -> 0 <= i < count ->
  exists b, aget bm (i / 8) = Some b /\ byte_ok b /\ bit_set bm i = Z.testbit b (i mod 8).
Proof.
  intros [Hl Hf] Hi. pose proof (byte_index _ _ Hi).
  destruct (aget_lt bm (i / 8)) as [b E]; [lia|]. exists b. split; [done|]. unfold bit_set. rewrite E.
  split; [|done]. unfold aget in E. destruct (0 <=? i / 8); [|done]. by apply (Forall_lookup_1 _ _ _ _ Hf E).
Qed.

(** Updating the byte of bit [i] so that only bit [i] changes. *)
Lemma byte_update bm count i b b' v :
  bitmap_ok bm count -> 0 <= i < count -> aget bm (i / 8) = Some b -> byte_ok b' ->
  (forall k, 0 <= k < 8 -> Z.testbit b' k = if k =? i mod 8 then v else Z.testbit b k) ->
  exists bm', aset bm (i / 8) b' = Some bm' /\ bitmap_ok bm' count /\
    forall j, 0 <= j -> bit_set bm' j = if j =? i then v else bit_set bm j.
Proof.
  intros [Hl Hf] Hi Hb Hb' Hk. pose proof (byte_index _ _ Hi).
  assert (aset bm (i / 8) b' = Some (<[Z.to_nat (i / 8) := b']> bm)) as E by (apply aset_ok; lia).
  eexists. split; [exact E|]. split; [split; [len|by apply Forall_insert]|].
  intros j Hj. unfold bit_set. destruct (decide (j / 8 = i / 8)) as [Ej|Ej].
  - rewrite Ej, (aget_aset_eq _ _ _ _ E), Hb, Hk by (apply Z.mod_pos_bound; lia).
    destruct (j =? i) eqn:E1, (j mod 8 =? i mod 8) eqn:E2; bools; try done; dlia.
  - rewrite (aget_aset_ne _ _ _ _ _ E) by done. destruct (j =? i) eqn:E1; bools; [|done]. by subst j.
Qed.

Lemma set_bit_spec bm count i :
  bitmap_ok bm count -> 0 <= i < count ->
  exists bm', set_bit bm i = Some bm' /\ bitmap_ok bm' count /\
    forall j, 0 <= j -> bit_set bm' j = if j =? i then true else bit_set bm j.
Proof.
  intros Hok Hi. destruct (bitmap_get _ _ _ Hok Hi) as (b&Hb&Hbo&_). unfold set_bit. rewrite Hb.
  cbn [mbind option_bind]. rewrite bit_mask_pow. pose proof (Z.mod_pos_bound i 8 ltac:(lia)).
  apply (byte_update bm count i b); try done.
  - apply byte_bits in Hbo as [Hb0 Hb8]. apply byte_bits.
    split; [apply Z.lor_nonneg; split; [lia|apply Z.pow_nonneg; lia]|].
    intros l Hl. rewrite Z.lor_spec, Hb8, Z.pow2_bits_false by lia. done.
  - intros k Hk. rewrite Z.lor_spec. destruct (k =? i mod 8) eqn:E; bools.
    + subst k. rewrite Z.pow2_bits_true by lia. apply orb_true_r.
    + rewrite Z.pow2_bits_false by lia. apply orb_false_r.
Qed.

Lemma clear_bit_spec bm count i :
  bitmap_ok bm count -> 0 <= i < count ->
  exists bm', clear_bit bm i = Some bm' /\ bitmap_ok bm' count /\
    forall j, 0 <= j -> bit_set bm' j = if j =? i then false else bit_set bm j.
Proof.
  intros Hok Hi. destruct (bitmap_get _ _ _ Hok Hi) as (b&Hb&Hbo&_). unfold clear_bit. rewrite Hb.
  cbn [mbind option_bind]. pose proof (Z.mod_pos_bound i 8 ltac:(lia)).
  rewrite Z.shiftl_mul_pow2, Z.mul_1_l by lia.
  apply (byte_update bm count i b); try done.
  - apply byte_bits in Hbo as [Hb0 Hb8]. apply byte_bits. split; [apply Z.ldiff_nonneg; lia|].
    intros l Hl. rewrite Z.ldiff_spec, Hb8 by lia. done.
  - intros k Hk. rewrite Z.ldiff_spec. destruct (k =? i mod 8) eqn:E; bools.
    + subst k. rewrite Z.pow2_bits_true by lia. apply andb_false_r.
    + rewrite Z.pow2_bits_false by lia. apply andb_true_r.
Qed.

Lemma find_clear_spec bm count : bitmap_ok bm count -> forall fuel i,
  0 <= i <= count -> count - i < Z.of_nat fuel ->
  (exists k, find_clear fuel bm i count = Some (Some k) /\ i <= k < count /\ bit_set bm k = false /\
     forall j, i <= j < k -> bit_set bm j = true) \/
  (find_clear fuel bm i count = Some None /\ forall j, i <= j < count -> bit_set bm j = true).
Proof.
  intros Hok. induction fuel as [|fuel IH]; intros i Hi Hf; [lia|].
  cbn [find_clear]. destruct (i <? count) eqn:E; bools; [|right; split; [done|intros; lia]].
  destruct (bitmap_get _ _ i Hok ltac:(lia)) as (b&Hb&_&Hs). rewrite Hb. cbn [mbind option_bind].
  rewrite bit_mask_pow, land_pow_testbit by (apply Z.mod_pos_bound; lia). rewrite <- Hs.
  destruct (bit_set bm i) eqn:Eb; cbn [negb].
  - destruct (IH (i + 1)) as [(k&Ek&Hk&Hc&Hall)|[Ek Hall]]; [lia|lia|left; exists k|right].
    + split; [done|]. split; [lia|]. split; [done|]. intros j Hj.
      destruct (decide (j = i)) as [->|]; [done|apply Hall; lia].
    + split; [done|]. intros j Hj. destruct (decide (j = i)) as [->|]; [done|apply Hall; lia].
  - left. exists i. split; [done|]. split; [lia|]. split; [done|]. intros; lia.
Qed.

(** Number of clear bits among [n] bits from [lo]. *)
Fixpoint clear_count (bm : list Z) (lo : Z) (n : nat) : Z :=
  match n with
  | O => 0
  | S n' => (if bit_set bm lo then 0 else 1) + clear_count bm (lo + 1) n'
  end.

Lemma clear_count_ext bm bm' lo n :
  (forall j, lo <= j < lo + Z.of_nat n -> bit_set bm' j = bit_set bm j) ->
  clear_count bm' lo n = clear_count bm lo n.
Proof.
  revert lo. induction n as [|n IH]; intros lo H; [done|]. cbn [clear_count].
  rewrite H, IH by (intros; try apply H; lia). done.
Qed.

Lemma clear_count_flip bm bm' i v : forall n lo,
  lo <= i < lo + Z.of_nat n -> bit_set bm i = negb v ->
  (forall j, lo <= j -> bit_set bm' j = if j =? i then v else bit_set bm j) ->
  clear_count bm' lo n = clear_count bm lo n + (if v then -1 else 1).
Proof.
  induction n as [|n IH]; intros lo Hi Hv H; [lia|]. cbn [clear_count]. rewrite H by lia.
  destruct (lo =? i) eqn:E; bools.
  - subst lo. rewrite Hv. rewrite (clear_count_ext bm bm').
    + destruct v; cbn [negb]; lia.
    + intros j Hj. rewrite H by lia. destruct (j =? i) eqn:E2; bools; [lia|done].
  - rewrite IH; [|lia|done|intros; apply H; lia]. lia.
Qed.

Lemma clear_count_range bm lo n : 0 <= clear_count bm lo n <= Z.of_nat n.
Proof. revert lo. induction n as [|n IH]; intros lo; cbn [clear_count]; [lia|]. specialize (IH (lo + 1)). case_if; lia. Qed.

Lemma clear_count_pos bm i n lo :
  lo <= i < lo + Z.of_nat n -> bit_set bm i = false -> 0 < clear_count bm lo n.
Proof.
  revert lo. induction n as [|n IH]; intros lo Hi Hb; cbn [clear_count]; [lia|].
  pose proof (clear_count_range bm (lo + 1) n). destruct (decide (lo = i)) as [->|]; [rewrite Hb; lia|].
  specialize (IH (lo + 1) ltac:(lia) Hb). case_if; lia.
Qed.

Lemma clear_count_zero bm n lo :
  (forall j, lo <= j < lo + Z.of_nat n -> bit_set bm j = true) -> clear_count bm lo n = 0.
Proof.
  revert lo. induction n as [|n IH]; intros lo H; cbn [clear_count]; [done|].
  rewrite H, IH by (intros; try apply H; lia). done.
Qed.

(** ** Block and inode numbers *)

Section Numbers.
Context {X : Type}.
Implicit Types fs : ext2_filesystem (X := X).

(** First block [ext2_alloc_block] considers. *)
Definition data_start (sb : ext2_superblock) : Z :=
  if first_data_block sb <? 1 then 1 else first_data_block sb.

Lemma data_start_pos sb : 1 <= data_start sb.
Proof. unfold data_start. case_if; lia. Qed.

Lemma alloc_block_spec fs bm :
  block_bitmap fs = Some bm -> bitmap_ok bm (blocks_count (superblock fs)) ->
  (exists k bm', ext2_alloc_block fs =
       Some (k, set_super (set_free_blocks (u32 (free_blocks (superblock fs) - 1)) (superblock fs))
                  (set_bb (Some bm') fs)) /\
     data_start (superblock fs) <= k < blocks_count (superblock fs) /\
     bit_set bm k = false /\ (forall j, data_start (superblock fs) <= j < k -> bit_set bm j = true) /\
     set_bit bm k = Some bm' /\ bitmap_ok bm' (blocks_count (superblock fs)) /\
     (forall j, 0 <= j -> bit_set bm' j = if j =? k then true else bit_set bm j)) \/
  (ext2_alloc_block fs = Some (0, fs) /\
     forall j, data_start (superblock fs) <= j < blocks_count (superblock fs) -> bit_set bm j = true).
Proof.
  intros Hbm Hok. pose proof (data_start_pos (superblock fs)).
  unfold ext2_alloc_block, mbind, M_bind, gets, need, mret, M_ret. fold (data_start (superblock fs)).
  destruct (data_start (superblock fs) <? blocks_count (superblock fs)) eqn:E; bools.
  - rewrite Hbm. cbn [mbind option_bind].
    destruct (find_clear_spec _ _ Hok (S (Z.to_nat (blocks_count (superblock fs) - data_start (superblock fs))))
      (data_start (superblock fs))) as [(k&->&Hk&Hc&Hall)|[-> Hall]]; [lia|lia| |].
    + left. cbn [mbind option_bind]. destruct (set_bit_spec _ _ k Hok ltac:(lia)) as (bm'&Eb&Hok'&Hb').
      exists k, bm'. rewrite Eb. cbn [mbind option_bind]. split_and!; (done || lia).
    + right. cbn [mbind option_bind]. done.
  - right. split; [done|]. intros; lia.
Qed.

Lemma free_block_clears fs bm n :
  block_bitmap fs = Some bm -> bitmap_ok bm (blocks_count (superblock fs)) ->
  0 <= n < blocks_count (superblock fs) ->
  exists bm', ext2_free_block n fs =
      Some ((), set_super (set_free_blocks (u32 (free_blocks (superblock fs) + 1)) (superblock fs))
                  (set_bb (Some bm') fs)) /\
    bitmap_ok bm' (blocks_count (superblock fs)) /\
    (forall j, 0 <= j -> bit_set bm' j = if j =? n then false else bit_set bm j).
Proof.
  intros Hbm Hok Hn. unfold ext2_free_block, mbind, M_bind, gets, need.
  destruct (Z.ltb_spec n (blocks_count (superblock fs))); [|lia]. rewrite Hbm. cbn [mbind option_bind].
  destruct (clear_bit_spec _ _ n Hok Hn) as (bm'&->&Hok'&Hb'). cbn [mbind option_bind].
  by exists bm'.
Qed.

(** The free counter is the number of clear bits of the data area. *)
Definition blocks_accounted fs : Prop :=
  exists bm, block_bitmap fs = Some bm /\ bitmap_ok bm (blocks_count (superblock fs)) /\
    blocks_count (superblock fs) < 2 ^ 32 /\
    free_blocks (superblock fs) =
      clear_count bm (data_start (superblock fs))
        (Z.to_nat (blocks_count (superblock fs) - data_start (superblock fs))).

(** A block of the data area that is in use. *)
Definition block_used fs (n : Z) : Prop :=
  exists bm, block_bitmap fs = Some bm /\ bit_set bm n = true /\
    data_start (superblock fs) <= n < blocks_count (superblock fs).

(** Allocations, and frees of blocks in use, with the results in order. *)
Inductive block_history fs : list Z -> ext2_filesystem (X := X) -> Prop :=
| bh_nil : block_history fs [] fs
| bh_alloc held fs1 n fs2 :
    block_history fs held fs1 -> ext2_alloc_block fs1 = Some (n, fs2) ->
    block_history fs (if n =? 0 then held else n :: held) fs2
| bh_free held1 n held2 fs1 fs2 :
    block_history fs (held1 ++ n :: held2) fs1 -> ext2_free_block n fs1 = Some ((), fs2) ->
    block_history fs (held1 ++ held2) fs2.

Lemma alloc_accounted fs n fs' :
  blocks_accounted fs -> ext2_alloc_block fs = Some (n, fs') ->
  blocks_accounted fs' /\ (n <> 0 -> block_used fs' n /\ ~ block_used fs n) /\
  (forall m, block_used fs m -> block_used fs' m) /\
  (n = 0 -> fs' = fs /\ free_blocks (superblock fs) = 0).
Proof.
  intros (bm&Hbm&Hok&H32&Hc) E. pose proof (data_start_pos (superblock fs)) as Hs.
  destruct (alloc_block_spec fs bm Hbm Hok) as [(k&bm'&E'&Hk&Hcl&_&_&Hok'&Hb')|[E' Hall]];
    rewrite E in E'; injection E' as -> ->.
  - assert (0 < clear_count bm (data_start (superblock fs))
      (Z.to_nat (blocks_count (superblock fs) - data_start (superblock fs)))) as Hpos
      by (apply (clear_count_pos bm k); [lia|done]).
    pose proof (clear_count_range bm (data_start (superblock fs))
      (Z.to_nat (blocks_count (superblock fs) - data_start (superblock fs)))) as Hrg.
    split; [|split; [|split; [|lia]]].
    + exists bm'. split; [done|]. split; [done|]. split; [done|]. cbn.
      change (data_start (set_free_blocks _ _)) with (data_start (superblock fs)).
      rewrite u32_id by lia. rewrite (clear_count_flip bm bm' k true); [lia|lia|done|].
      intros j Hj. apply Hb'. lia.
    + intros _. split.
      * exists bm'. split; [done|]. split; [|done]. rewrite Hb' by lia. by rewrite Z.eqb_refl.
      * intros (bm2&E2&Hbit&_). rewrite Hbm in E2. simplify_eq. by rewrite Hcl in Hbit.
    + intros m (bm2&E2&Hbit&Hm). rewrite Hbm in E2. injection E2 as <-. exists bm'. split; [done|].
      split; [|done]. rewrite Hb' by lia. by destruct (m =? k).
  - split; [by exists bm|]. split; [done|]. split; [done|]. intros _. split; [done|].
    rewrite Hc. apply clear_count_zero. intros j Hj. apply Hall. lia.
Qed.

Lemma free_accounted fs n fs' :
  blocks_accounted fs -> block_used fs n -> ext2_free_block n fs = Some ((), fs') ->
  blocks_accounted fs' /\ (forall m, m <> n -> block_used fs m -> block_used fs' m).
Proof.
  intros (bm&Hbm&Hok&H32&Hc) (bm2&E2&Hbit&Hn) E. rewrite Hbm in E2. injection E2 as <-.
  pose proof (data_start_pos (superblock fs)) as Hs.
  destruct (free_block_clears fs bm n Hbm Hok) as (bm'&E'&Hok'&Hb'); [lia|].
  rewrite E in E'. injection E' as ->. split.
  - exists bm'. split; [done|]. split; [done|]. split; [done|]. cbn.
    change (data_start (set_free_blocks _ _)) with (data_start (superblock fs)).
    assert (clear_count bm' (data_start (superblock fs))
      (Z.to_nat (blocks_count (superblock fs) - data_start (superblock fs))) =
      clear_count bm (data_start (superblock fs))
      (Z.to_nat (blocks_count (superblock fs) - data_start (superblock fs))) + 1) as Hcc.
    { rewrite (clear_count_flip bm bm' n false); [lia|lia|done|]. intros j Hj. apply Hb'. lia. }
    pose proof (clear_count_range bm' (data_start (superblock fs))
      (Z.to_nat (blocks_count (superblock fs) - data_start (superblock fs)))) as Hrg.
    rewrite u32_id by lia. lia.
  - intros m Hm (bm2&E2&Hbit2&Hm2). rewrite Hbm in E2. injection E2 as <-. exists bm'. split; [done|].
    split; [|done]. rewrite Hb' by lia. by rewrite (proj2 (Z.eqb_neq m n)).
Qed.

Lemma block_history_inv fs held fs' :
  blocks_accounted fs -> block_history fs held fs' ->
  blocks_accounted fs' /\ NoDup held /\ Forall (block_used fs') held.
Proof.
  intros Hacc. induction 1 as [|held fs1 n fs2 H IH E|held1 n held2 fs1 fs2 H IH E].
  - split; [done|]. by split; constructor.
  - destruct IH as (Hacc1&Hnd&Hu). destruct (alloc_accounted _ _ _ Hacc1 E) as (Hacc2&Hnew&Hold&_).
    split; [done|]. destruct (n =? 0) eqn:E0; bools.
    + split; [done|]. eapply Forall_impl; [exact Hu|]. apply Hold.
    + destruct (Hnew E0) as [Hn Hn']. split.
      * constructor; [|done]. intros Hin. rewrite Forall_forall in Hu. by apply Hn', Hu.
      * constructor; [done|]. eapply Forall_impl; [exact Hu|]. apply Hold.
  - destruct IH as (Hacc1&Hnd&Hu). apply Forall_app in Hu as [Hu1 [Hn Hu2]%Forall_cons].
    destruct (free_accounted _ _ _ Hacc1 Hn E) as [Hacc2 Hold]. split; [done|].
    apply NoDup_app in Hnd as (Hnd1&Hd&[Hn2 Hnd2]%NoDup_cons). split.
    + apply NoDup_app. split; [done|]. split; [|done]. intros x Hx. specialize (Hd x Hx). set_solver.
    + apply Forall_app. rewrite Forall_forall in Hu1. rewrite Forall_forall in Hu2. split.
      * apply Forall_forall. intros x Hx. apply Hold; [|by apply Hu1]. intros ->.
        specialize (Hd n Hx). set_solver.
      * apply Forall_forall. intros x Hx. apply Hold; [|by apply Hu2]. intros ->. done.
Qed.

(** ** Properties *)

(** The encoders and decoders of the on-disk structures are inverse: a
    well-formed inode takes 256 bytes and a superblock 1016, and decoding gives
    back every field. *)
Theorem ext2_structures_roundtrip i s :
  inode_wf i -> super_wf s ->
  length (inode_bytes i) = 256%nat /\ inode_of (inode_bytes i) = i /\
  length (super_bytes s) = 1016%nat /\ super_of (super_bytes s) = s.
Proof.
  intros Hi Hs. split_and!;
    auto using inode_bytes_length, super_bytes_length, inode_of_bytes, super_of_bytes.
Qed.

(** [ext2_alloc_block] returns the lowest clear bit of the data area, sets
    exactly that bit and decrements the free counter, or returns 0 and changes
    nothing when every bit of the area is set. *)
Theorem ext2_alloc_block_lowest fs bm :
  block_bitmap fs = Some bm -> bitmap_ok bm (blocks_count (superblock fs)) ->
  (exists k bm', ext2_alloc_block fs =
       Some (k, set_super (set_free_blocks (u32 (free_blocks (superblock fs) - 1)) (superblock fs))
                  (set_bb (Some bm') fs)) /\
     data_start (superblock fs) <= k < blocks_count (superblock fs) /\ bit_set bm k = false /\
     (forall j, data_start (superblock fs) <= j < k -> bit_set bm j = true) /\
     (forall j, 0 <= j -> bit_set bm' j = if j =? k then true else bit_set bm j)) \/
  (ext2_alloc_block fs = Some (0, fs) /\
     forall j, data_start (superblock fs) <= j < blocks_count (superblock fs) -> bit_set bm j = true).
Proof.
  intros Hbm Hok. destruct (alloc_block_spec fs bm Hbm Hok) as [(k&bm'&?&?&?&?&?&?&?)|?]; [left|by right].
  exists k, bm'. split_and!; (done || lia).
Qed.

(** C39: After any history of block allocations and frees of blocks that are
    held, the held blocks are distinct and marked used, the free counter is the
    number of clear bits, and the next allocation is defined: it gives a block
    that nobody holds, or 0 exactly when the counter is 0. *)
Theorem ext2_block_accounting fs held fs' :
  blocks_accounted fs -> block_history fs held fs' ->
  NoDup held /\ Forall (block_used fs') held /\ blocks_accounted fs' /\
  exists n fs'', ext2_alloc_block fs' = Some (n, fs'') /\ ~ (n ∈ held) /\
    (n = 0 <-> free_blocks (superblock fs') = 0).
Proof.
  intros Hacc Hh. destruct (block_history_inv _ _ _ Hacc Hh) as (Hacc'&Hnd&Hu).
  split; [done|]. split; [done|]. split; [done|].
  pose proof Hacc' as (bm&Hbm&Hok&_&Hc).
  assert (exists n fs'', ext2_alloc_block fs' = Some (n, fs'')) as (n&fs''&E)
    by (destruct (alloc_block_spec fs' bm Hbm Hok) as [(k&bm'&E&_)|[E _]]; eauto).
  exists n, fs''. split; [done|].
  destruct (alloc_accounted _ _ _ Hacc' E) as (_&Hnew&_&H0). rewrite Forall_forall in Hu.
  pose proof (data_start_pos (superblock fs')). split.
  - intros Hin. pose proof (Hu n Hin) as Hun. destruct (decide (n = 0)) as [->|Hn].
    + destruct Hun as (?&_&_&?). lia.
    + by apply (Hnew Hn).
  - split; [apply H0|]. intros Hz. destruct (decide (n = 0)) as [|Hn]; [done|].
    destruct (alloc_block_spec fs' bm Hbm Hok) as [(k&bm'&E'&Hk&Hcl&_)|[E' _]]; rewrite E in E'; [|by injection E'].
    pose proof (clear_count_pos bm k (Z.to_nat (blocks_count (superblock fs') - data_start (superblock fs')))
      (data_start (superblock fs')) ltac:(lia) Hcl). lia.
Qed.

(** When every inode but the last is taken, [ext2_alloc_inode_num] hands out
    the number [inodes_count], which [ext2_read], [ext2_stat] and [ext2_readdir]
    refuse: the bound they test is off by one. *)
Theorem ext2_last_inode_unusable alloc fs bm size buf :
  inode_bitmap fs = Some bm -> bitmap_ok bm (inodes_count (superblock fs)) ->
  12 <= inodes_count (superblock fs) < 2 ^ 32 ->
  (forall j, 11 <= j < inodes_count (superblock fs) - 1 -> bit_set bm j = true) ->
  bit_set bm (inodes_count (superblock fs) - 1) = false ->
  exists fs', ext2_alloc_inode_num fs = Some (inodes_count (superblock fs), fs') /\
    ext2_read alloc (inodes_count (superblock fs)) 0 size buf fs' = Some ((-1, buf), fs') /\
    ext2_stat (inodes_count (superblock fs)) fs' = Some (None, fs') /\
    ext2_readdir alloc (inodes_count (superblock fs)) 1 fs' = Some ([], fs').
Proof.
  intros Hbm Hok Hn Hall Hlast. unfold ext2_alloc_inode_num, mbind, M_bind, gets, need, mret, M_ret.
  destruct (Z.ltb_spec 11 (inodes_count (superblock fs))); [|lia]. rewrite Hbm. cbn [mbind option_bind].
  destruct (find_clear_spec _ _ Hok (S (Z.to_nat (inodes_count (superblock fs) - 11))) 11)
    as [(k&->&Hk&Hc&_)|[_ Hno]]; [lia|lia| |].
  2:{ rewrite Hno in Hlast by lia. done. }
  assert (k = inodes_count (superblock fs) - 1) as ->.
  { destruct (decide (k = inodes_count (superblock fs) - 1)); [done|].
    rewrite Hall in Hc by lia. done. }
  cbn [mbind option_bind]. destruct (set_bit_spec _ _ (inodes_count (superblock fs) - 1) Hok ltac:(lia)) as (bm'&->&_). cbn [mbind option_bind modify].
  replace (inodes_count (superblock fs) - 1 + 1) with (inodes_count (superblock fs)) by lia.
  rewrite u32_id by lia. eexists. split; [done|].
  unfold ext2_read, ext2_stat, ext2_readdir, mbind, M_bind, gets, mret, M_ret.
  cbn [superblock set_super set_ibm inodes_count set_free_inodes].
  rewrite Z.leb_refl. done.
Qed.

End Numbers.

(** ** Witnesses *)

Definition demo_super : ext2_superblock :=
  mk_super 16 32 [0; 0; 0; 0] 20 4 12 0 8192 2048 (replicate 20 0) EXT2_MAGIC (replicate 54 0) 1024 1
    (replicate 896 0).

Definition demo_inode : ext2_inode :=
  mk_inode 33188 0 5 (replicate 16 0) 0 1 2 (replicate 8 0) (14 :: replicate 14 0) (replicate 156 7).

Lemma ext2_structures_roundtrip_witness :
  length (inode_bytes demo_inode) = 256%nat /\ inode_of (inode_bytes demo_inode) = demo_inode /\
  length (super_bytes demo_super) = 1016%nat /\ super_of (super_bytes demo_super) = demo_super.
Proof.
  apply ext2_structures_roundtrip.
  - unfold inode_wf, u16_ok, u32_ok, demo_inode. cbn. split_and!; try lia.
    repeat (constructor; [lia|]). constructor.
  - unfold super_wf, u16_ok, u32_ok, demo_super, EXT2_MAGIC. cbn. lia.
Defined.

(** Blocks 0 to 12 in use, 13 to 31 free; inodes 1 to 15 in use. *)
Definition demo_bitmap : list Z := [255; 31; 0; 0].
Definition demo_fs : ext2_filesystem (X := unit) :=
  mk_fs (mk_dev None 0 512 0 None None tt) (set_free_blocks 19 demo_super) (Some demo_bitmap)
    (Some [255; 127]) None 0.

Lemma ext2_alloc_block_lowest_witness :
  exists bm', ext2_alloc_block demo_fs =
    Some (13, set_super (set_free_blocks 18 (superblock demo_fs)) (set_bb (Some bm') demo_fs)).
Proof.
  destruct (ext2_alloc_block_lowest demo_fs demo_bitmap) as [(k&bm'&E&_)|[E _]].
  - reflexivity.
  - split; [reflexivity|]. repeat (constructor; [unfold byte_ok; lia|]). constructor.
  - exists bm'. rewrite E. vm_compute in E. injection E as <- <-. reflexivity.
  - vm_compute in E. discriminate.
Defined.

Definition demo_fs1 : ext2_filesystem (X := unit) :=
  match ext2_alloc_block demo_fs with Some (_, fs) => fs | None => demo_fs end.

Lemma ext2_block_accounting_witness :
  block_history demo_fs [13] demo_fs1 /\
  exists n fs'', ext2_alloc_block demo_fs1 = Some (n, fs'') /\ ~ (n ∈ [13]).
Proof.
  assert (block_history demo_fs [13] demo_fs1) as Hh.
  { change [13] with (if 13 =? 0 then [] else [13]). eapply bh_alloc; [apply bh_nil|]. reflexivity. }
  split; [exact Hh|].
  destruct (ext2_block_accounting demo_fs [13] demo_fs1) as (_&_&_&n&fs''&E&Hn&_).
  - exists demo_bitmap. split; [reflexivity|]. split.
    + split; [reflexivity|]. repeat (constructor; [unfold byte_ok; lia|]). constructor.
    + split; [cbn; lia|]. reflexivity.
  - exact Hh.
  - exists n, fs''. split; [exact E|exact Hn].
Defined.

Lemma ext2_last_inode_unusable_witness :
  exists fs', ext2_alloc_inode_num demo_fs = Some (16, fs') /\
    ext2_read (fun _ _ => None) 16 0 1 [0] fs' = Some ((-1, [0]), fs').
Proof.
  destruct (ext2_last_inode_unusable (fun _ _ => None) demo_fs [255; 127] 1 [0]) as (fs'&E&Er&_).
  - reflexivity.
  - split; [reflexivity|]. repeat (constructor; [unfold byte_ok; lia|]). constructor.
  - cbn. lia.
  - intros j Hj. cbn in Hj. assert (j = 11 \/ j = 12 \/ j = 13 \/ j = 14) as H by lia.
    destruct H as [-> | [-> | [-> | ->]]]; reflexivity.
  - reflexivity.
  - exists fs'. split; [exact E|exact Er].
Defined.

End Ext2Alloc.
