(* ===== verification/Ext2Layer.v ===== *)
(** * Ext2Layer: the file system's state seen as blocks (kernel/src/ext2_fs.c)

    A total-correctness calculus for the monad of [Ext2] ([runs]) and the
    simulation between the concrete file system on any [Disk] and an abstract
    state: superblock, bitmaps, inode table and a function from block numbers to
    block contents.  Each basic operation is given by the abstract state it leads
    to.  The allocator is assumed to succeed: [kmalloc] returns a buffer of the
    requested size with arbitrary contents. *)

From Stdlib Require Import ZArith Lia Bool ZifyBool.
From stdpp Require Import base numbers option list list_numbers.
From S2P Require Import Prelude Ramdisk Ext2 Ext2Alloc.
Import Ramdisk Ext2 Ext2Alloc.

Open Scope Z_scope.

Module Ext2Layer.

(** ** Running a computation *)

Section Runs.
Context {X : Type}.
Abbreviation FS := (ext2_filesystem (X := X)).

(** [m] is defined in [fs] and its result and final state satisfy [Q]. *)
Definition runs {A} (m : M A) (fs : FS) (Q : A -> FS -> Prop) : Prop :=
  exists r fs', m fs = Some (r, fs') /\ Q r fs'.

Lemma runs_bind {A B} (m : M A) (k : A -> M B) fs Q :
  runs m fs (fun x fs1 => runs (k x) fs1 Q) -> runs (@mbind M M_bind A B k m) fs Q.
Proof. intros (x&fs1&E&r&fs'&E'&HQ). exists r, fs'. unfold mbind, M_bind. by rewrite E. Qed.

Lemma runs_ret {A} (x : A) fs (Q : A -> FS -> Prop) : Q x fs -> runs (@mret M M_ret A x) fs Q.
Proof. intros. by exists x, fs. Qed.

Lemma runs_gets {A} (f : FS -> A) fs (Q : A -> FS -> Prop) : Q (f fs) fs -> runs (gets f) fs Q.
Proof. intros. by exists (f fs), fs. Qed.

Lemma runs_modify (f : FS -> FS) fs (Q : unit -> FS -> Prop) : Q tt (f fs) -> runs (modify f) fs Q.
Proof. intros. by exists tt, (f fs). Qed.

Lemma runs_need {A} (o : option A) x fs (Q : A -> FS -> Prop) : o = Some x -> Q x fs -> runs (need o) fs Q.
Proof. intros -> HQ. by exists x, fs. Qed.

Lemma runs_mono {A} (m : M A) fs (P Q : A -> FS -> Prop) :
  runs m fs P -> (forall r fs', P r fs' -> Q r fs') -> runs m fs Q.
Proof. intros (r&fs'&E&HP) H. exists r, fs'. auto. Qed.

Lemma runs_inv {A} (m : M A) fs (Q : A -> FS -> Prop) r fs' : runs m fs Q -> m fs = Some (r, fs') -> Q r fs'.
Proof. intros (r1&fs1&E&HQ) E'. rewrite E in E'. by injection E' as <- <-. Qed.
End Runs.

(** Step over the basic actions of the monad. *)
Ltac mstep :=
  lazymatch goal with
  | |- runs (mbind _ _) _ _ => apply runs_bind
  | |- runs (mret _) _ _ => apply runs_ret
  | |- runs (gets _) _ _ => apply runs_gets
  | |- runs (modify _) _ _ => apply runs_modify
  end; cbn beta iota.

(** Use a specification of the next action. *)
Tactic Notation "muse" uconstr(H) "as" simple_intropattern(p) :=
  try apply runs_bind; eapply runs_mono; [eapply H|intros ? ? p; cbn beta iota].
Tactic Notation "muse" uconstr(H) "giving" ident(r) "as" simple_intropattern(p) :=
  try apply runs_bind; eapply runs_mono; [eapply H|intros r ? p; cbn beta iota].

(** ** Abstract states *)

Record astate := mk_a {
  a_sb : ext2_superblock; a_bm : list Z; a_ibm : list Z; a_tab : list ext2_inode; a_blk : Z -> list Z }.

Definition blocks (a : astate) : Z := blocks_count (a_sb a).
Definition first (a : astate) : Z := first_data_block (a_sb a).
Definition inodes (a : astate) : Z := inodes_count (a_sb a).

(** Blocks of the block bitmap and of the inode table. *)
Definition bitmap_span (n : Z) : Z := (n + 8191) / 8192.
Definition table_span (n : Z) : Z := (n * 256 + 1023) / 1024.

(** The geometry of a mounted file system. *)
Record layout (a : astate) : Prop := {
  l_super : super_wf (a_sb a);
  l_bsize : bsize (a_sb a) = 1024;
  l_blocks : 0 < blocks a < 2 ^ 31;
  l_inodes : 0 < inodes a <= 8192;
  l_first : 3 + bitmap_span (blocks a) + table_span (inodes a) <= first a <= blocks a;
  l_bm : bitmap_ok (a_bm a) (blocks a);
  l_ibm : bitmap_ok (a_ibm a) (inodes a);
  l_tab : Z.of_nat (length (a_tab a)) = inodes a;
  l_wf : Forall inode_wf (a_tab a);
  l_blk : forall n, 0 <= n < blocks a -> Z.of_nat (length (a_blk a n)) = 1024 }.

Definition upd_blk (n : Z) (b : list Z) (a : astate) : astate :=
  mk_a (a_sb a) (a_bm a) (a_ibm a) (a_tab a) (fun m => if m =? n then b else a_blk a m).

Definition upd_tab (ino : Z) (i : ext2_inode) (a : astate) : astate :=
  mk_a (a_sb a) (a_bm a) (a_ibm a) (<[Z.to_nat (ino - 1) := i]> (a_tab a)) (a_blk a).

(** After allocating a block: the new bitmap and the counter. *)
Definition upd_bm (bm : list Z) (a : astate) : astate :=
  mk_a (set_free_blocks (u32 (free_blocks (a_sb a) - 1)) (a_sb a)) bm (a_ibm a) (a_tab a) (a_blk a).

Lemma layout_upd_blk n b a : layout a -> Z.of_nat (length b) = 1024 -> layout (upd_blk n b a).
Proof.
  intros [] Hb. constructor; try done. intros m Hm. cbn. case_if; [done|by auto].
Qed.

Lemma layout_upd_tab ino i a : layout a -> inode_wf i -> layout (upd_tab ino i a).
Proof.
  intros [] Hi. constructor; try done; cbn; [by rewrite length_insert|by apply Forall_insert].
Qed.

Lemma layout_upd_bm bm a : layout a -> bitmap_ok bm (blocks a) -> layout (upd_bm bm a).
Proof.
  intros [] Hb. constructor; try done. cbn. destruct l_super0 as (H&?). split; [|done].
  unfold u32_ok in *. cbn. destruct H as (?&?&?&?). pose proof (u32_range (free_blocks (a_sb a) - 1)). tauto.
Qed.

Section Layer.
Context {X : Type} {dev_ok : ramdisk_device X -> Prop} {image : ramdisk_device X -> list Z}.
Context `{HD : Disk X dev_ok image}.
Context (alloc : nat -> Z -> option (list Z)).
Context (alloc_total : forall t n, 0 <= n -> exists m, alloc t n = Some m /\ Z.of_nat (length m) = n).
Abbreviation FS := (ext2_filesystem (X := X)).
Implicit Types (fs : FS) (a : astate).

(** The concrete state [fs] stands for [a]. *)
Record rep (fs : FS) (a : astate) : Prop := {
  r_layout : layout a;
  r_dev : dev_ok (device fs);
  r_bs : 0 < block_size (device fs) /\ 1024 mod block_size (device fs) = 0;
  r_len : blocks a * 1024 <= Z.of_nat (length (image (device fs)));
  r_super : superblock fs = a_sb a;
  r_bb : block_bitmap fs = Some (a_bm a);
  r_ibm : inode_bitmap fs = Some (a_ibm a);
  r_tab : inode_table fs = Some (a_tab a);
  r_blk : forall n, 0 <= n < blocks a -> slice (image (device fs)) (n * 1024) 1024 = Some (a_blk a n) }.

Lemma rep_bsize fs a : rep fs a -> bsize (superblock fs) = 1024.
Proof. intros []. rewrite r_super0. apply r_layout0. Qed.

Lemma kmalloc_runs fs a n :
  rep fs a -> 0 <= n ->
  runs (kmalloc alloc n) fs (fun o fs' => exists m, o = Some m /\ Z.of_nat (length m) = n /\ rep fs' a).
Proof.
  intros Hr Hn. destruct (alloc_total (tick fs) n Hn) as (m&E&Hm). exists (alloc (tick fs) n).
  eexists. split; [done|]. exists m. split; [done|]. split; [done|]. by destruct Hr.
Qed.

(** The sector a block starts at. *)
Lemma block_sector (n s : Z) :
  0 <= n < 2 ^ 31 -> 0 < s -> 1024 mod s = 0 ->
  udiv (u64 (n * 1024)) s = Some (n * 1024 / s) /\ n * 1024 / s * s = n * 1024 /\ 0 <= n * 1024 / s.
Proof.
  intros Hn Hs Hm. rewrite u64_id by lia. unfold udiv. destruct (Z.eqb_spec s 0); [lia|].
  apply Z.mod_divide in Hm as [k Hk]; [|lia]. rewrite Hk. replace (n * (k * s)) with (n * k * s) by lia.
  rewrite Z.div_mul by lia. split_and!; [done..|]. nia.
Qed.

Lemma read_block_runs fs a n buf :
  rep fs a -> 0 <= n < blocks a -> Z.of_nat (length buf) = 1024 ->
  runs (ext2_read_block n buf) fs (fun r fs' => r = (0, a_blk a n) /\ rep fs' a).
Proof.
  intros Hr Hn Hb. unfold runs, ext2_read_block. rewrite (rep_bsize _ _ Hr).
  destruct Hr as [Hlay Hdev [Hs1 Hs2] Hlen Hsb Hbm Hibm Htab Hblk].
  destruct (block_sector n (block_size (device fs))) as (->&Hk&Hk0); [destruct Hlay; lia|done..|].
  cbn [mbind option_bind].
  destruct (disk_read (device fs) (n * 1024 / block_size (device fs)) buf 1024)
    as (src&buf'&dev'&Hs&Hsp&->&Hok&Himg&Hbs); [done..|lia|lia|done|lia|].
  rewrite Hk, (Hblk n Hn) in Hs. injection Hs as <-. cbn [mbind option_bind].
  do 2 eexists. split; [done|]. split.
  - pose proof (l_blk _ Hlay n Hn). rewrite splice_ok in Hsp by lia. injection Hsp as <-. simpl.
    rewrite drop_ge, app_nil_r by lia. done.
  - constructor; cbn; try done; rewrite ?Hbs, ?Himg; done.
Qed.

Lemma write_block_runs fs a n buf :
  rep fs a -> 0 <= n < blocks a -> Z.of_nat (length buf) = 1024 ->
  runs (ext2_write_block n buf) fs (fun r fs' => r = 0 /\ rep fs' (upd_blk n buf a)).
Proof.
  intros Hr Hn Hb. unfold runs, ext2_write_block. rewrite (rep_bsize _ _ Hr).
  destruct Hr as [Hlay Hdev [Hs1 Hs2] Hlen Hsb Hbm Hibm Htab Hblk].
  destruct (block_sector n (block_size (device fs))) as (->&Hk&Hk0); [destruct Hlay; lia|done..|].
  cbn [mbind option_bind].
  destruct (disk_write (device fs) (n * 1024 / block_size (device fs)) buf 1024)
    as (src&dev'&Hs&->&Hok&Hsp&Hbs); [done..|lia|lia|done|lia|].
  rewrite slice_ok in Hs by lia. rewrite drop_0, take_ge in Hs by lia. injection Hs as <-.
  cbn [mbind option_bind]. do 2 eexists. split; [done|]. split; [done|]. rewrite Hk in Hsp.
  pose proof (splice_length _ _ _ _ Hsp) as Hl.
  constructor; cbn; try done; rewrite ?Hbs; try done; [by apply layout_upd_blk|by rewrite Hl|].
  intros m Hm. case_if.
  - subst m. pose proof (slice_splice_eq _ _ _ _ Hsp) as Hq. by rewrite Hb in Hq.
  - rewrite (slice_splice_disjoint _ _ _ _ _ _ Hsp) by lia. by apply Hblk.
Qed.

(** The inode [ino] of the table. *)
Definition inode_at a ino : option ext2_inode := aget (a_tab a) (ino - 1).

Lemma inode_at_Some a ino : layout a -> 1 <= ino <= inodes a -> exists i, inode_at a ino = Some i /\ inode_wf i.
Proof.
  intros Hl Hi. pose proof (l_tab _ Hl). destruct (aget_lt (a_tab a) (ino - 1)) as [i E]; [lia|].
  exists i. split; [done|]. unfold aget in E. destruct (0 <=? ino - 1); [|done].
  by apply (Forall_lookup_1 _ _ _ _ (l_wf _ Hl) E).
Qed.

Lemma inode_at_upd a ino i ino' :
  layout a -> 1 <= ino <= inodes a ->
  inode_at (upd_tab ino i a) ino' = if ino' =? ino then Some i else inode_at a ino'.
Proof.
  intros Hl Hi. pose proof (l_tab _ Hl). unfold inode_at. cbn. rewrite aget_insert by lia.
  case_decide; case_if; try done; lia.
Qed.

Lemma get_inode_runs fs a ino :
  rep fs a -> 1 <= ino <= inodes a ->
  runs (get_inode ino) fs (fun i fs' => inode_at a ino = Some i /\ inode_wf i /\ fs' = fs).
Proof.
  intros Hr Hi. destruct (inode_at_Some a ino) as (i&E&Hwf); [apply Hr|done|].
  unfold get_inode. do 2 mstep. rewrite (r_tab _ _ Hr). mstep.
  eapply runs_need; [done|]. eapply runs_need; [|done].
  pose proof (l_inodes _ (r_layout _ _ Hr)). by rewrite u32_id by lia.
Qed.

Lemma put_inode_runs fs a ino i :
  rep fs a -> 1 <= ino <= inodes a -> inode_wf i ->
  runs (put_inode ino i) fs (fun _ fs' => rep fs' (upd_tab ino i a)).
Proof.
  intros Hr Hi Hwf. pose proof (l_tab _ (r_layout _ _ Hr)). pose proof (l_inodes _ (r_layout _ _ Hr)).
  unfold put_inode. do 2 mstep. rewrite (r_tab _ _ Hr). mstep. eapply runs_need; [done|].
  mstep. eapply runs_need; [rewrite u32_id by lia; apply aset_ok; lia|]. mstep.
  pose proof (layout_upd_tab ino i a (r_layout _ _ Hr) Hwf). by destruct Hr.
Qed.

(** No free block is left. *)
Definition full a : Prop := forall j, first a <= j < blocks a -> bit_set (a_bm a) j = true.

Lemma alloc_block_runs fs a :
  rep fs a ->
  runs ext2_alloc_block fs (fun p fs' =>
    (p = 0 /\ rep fs' a /\ full a) \/
    (first a <= p < blocks a /\ bit_set (a_bm a) p = false /\
     exists bm, rep fs' (upd_bm bm a) /\ forall j, 0 <= j -> bit_set bm j = if j =? p then true else bit_set (a_bm a) j)).
Proof.
  intros Hr. pose proof (r_super _ _ Hr) as Hsb. pose proof (l_first _ (r_layout _ _ Hr)) as Hf.
  assert (Hs : data_start (superblock fs) = first a).
  { rewrite Hsb. unfold data_start, first. case_if; [|done].
    unfold first, bitmap_span, table_span, blocks, inodes in *. pose proof (l_inodes _ (r_layout _ _ Hr)) as Hin.
    pose proof (l_blocks _ (r_layout _ _ Hr)) as Hbl. unfold blocks, inodes in *. dlia. }
  destruct (alloc_block_spec fs (a_bm a)) as [(k&bm&E&Hk&Hc&_&_&Hok&Hb)|[E Hall]].
  - apply Hr.
  - rewrite Hsb. apply Hr.
  - do 2 eexists. split; [exact E|]. right. rewrite Hs, Hsb in *. split; [done|]. split; [done|].
    exists bm. split; [|done]. pose proof (layout_upd_bm bm a (r_layout _ _ Hr) Hok).
    destruct Hr. by constructor.
  - do 2 eexists. split; [exact E|]. left. rewrite Hs, Hsb in *. done.
Qed.

(** ** Metadata on disk *)

(** [a'] differs from [a] at most in the blocks before the data area. *)
Definition meta_eq a a' : Prop :=
  a_sb a' = a_sb a /\ a_bm a' = a_bm a /\ a_ibm a' = a_ibm a /\ a_tab a' = a_tab a /\
  forall n, first a <= n -> a_blk a' n = a_blk a n.

Lemma meta_eq_refl a : meta_eq a a.
Proof. done. Qed.

Lemma meta_eq_trans a b c : meta_eq a b -> meta_eq b c -> meta_eq a c.
Proof.
  intros (H1&H2&H3&H4&H5) (G1&G2&G3&G4&G5). unfold meta_eq. rewrite G1, G2, G3, G4. split_and!; try done.
  intros n Hn. rewrite G5, H5; [done|done|]. unfold first in *. by rewrite H1.
Qed.

Lemma meta_eq_upd a n b : n < first a -> meta_eq a (upd_blk n b a).
Proof. intros. unfold meta_eq. cbn. split_and!; try done. intros m Hm. case_if; [lia|done]. Qed.

Lemma spans_pos a : layout a -> 1 <= bitmap_span (blocks a) /\ 1 <= table_span (inodes a).
Proof.
  intros Hl. pose proof (l_blocks _ Hl). pose proof (l_inodes _ Hl). unfold bitmap_span, table_span. dlia.
Qed.

Lemma bitmap_blocks_ok a : layout a -> bitmap_blocks (a_sb a) = Some (bitmap_span (blocks a)).
Proof.
  intros Hl. pose proof (l_blocks _ Hl). unfold bitmap_blocks, bitmap_span. fold (blocks a). rewrite (l_bsize _ Hl).
  rewrite (u32_id (8 * 1024)) by lia. rewrite !u32_id by (rewrite ?u32_id; lia).
  unfold udiv. destruct (Z.eqb_spec (8 * 1024) 0); [lia|]. do 2 f_equal. lia.
Qed.

(** Where an inode is stored: block and offset. *)
Definition iblock a (ino : Z) : Z := 3 + bitmap_span (blocks a) + (ino - 1) / 4.
Definition ioff (ino : Z) : Z := (ino - 1) mod 4 * 256.

Lemma iblock_range a ino : layout a -> 1 <= ino <= inodes a -> 3 <= iblock a ino < first a.
Proof.
  intros Hl Hi. pose proof (spans_pos _ Hl). pose proof (l_first _ Hl).
  unfold iblock, bitmap_span, table_span in *. dlia.
Qed.

Lemma write_inode_runs fs a ino :
  rep fs a -> 1 <= ino <= inodes a ->
  runs (ext2_write_inode alloc ino) fs (fun r fs' => r = 0 /\
    exists i b, inode_at a ino = Some i /\ splice (a_blk a (iblock a ino)) (ioff ino) (inode_bytes i) = Some b /\
      rep fs' (upd_blk (iblock a ino) b a)).
Proof.
  intros Hr Hi. pose proof (r_layout _ _ Hr) as Hl. pose proof (iblock_range _ _ Hl Hi) as Hib.
  pose proof (l_first _ Hl) as Hf. pose proof (l_blocks _ Hl) as Hbl. pose proof (l_inodes _ Hl) as Hin.
  unfold ext2_write_inode. do 2 mstep. rewrite (r_super _ _ Hr). fold (inodes a).
  destruct (Z.eqb_spec ino 0); [lia|]. destruct (Z.ltb_spec (inodes a) ino); [lia|]. cbn [orb].
  mstep. eapply runs_need; [by apply bitmap_blocks_ok|]. rewrite (l_bsize _ Hl). unfold udiv, umod. cbn [Z.eqb].
  do 2 (mstep; eapply runs_need; [done|]).
  assert (u32 (u32 (2 + bitmap_span (blocks a) + 1) + (ino - 1) * INODE_SIZE / 1024) = iblock a ino) as ->.
  { unfold INODE_SIZE. replace ((ino - 1) * 256 / 1024) with ((ino - 1) / 4) by dlia.
    assert (0 <= bitmap_span (blocks a) < 2 ^ 31) by (unfold bitmap_span; dlia).
    rewrite (u32_id (2 + _ + 1)) by lia. unfold iblock in *. rewrite u32_id by lia. lia. }
  muse kmalloc_runs as (m&->&Hm&Hr1); [done|lia|].
  muse read_block_runs as (->&Hr2); [exact Hr1|lia|done|].
  muse get_inode_runs giving i as (Hat&Hwf&->); [exact Hr2|done|].
  pose proof (l_blk _ Hl (iblock a ino) ltac:(lia)) as Hlb. pose proof (inode_bytes_length _ Hwf) as Hbytes.
  assert ((ino - 1) * INODE_SIZE mod 1024 = ioff ino) as -> by (unfold INODE_SIZE, ioff; dlia).
  assert (0 <= ioff ino <= 768) by (unfold ioff; dlia).
  destruct (splice (a_blk a (iblock a ino)) (ioff ino) (inode_bytes i)) as [b|] eqn:Eb;
    [|rewrite splice_ok in Eb by lia; done].
  mstep. eapply runs_need; [done|].
  muse write_block_runs as (->&Hr3); [exact Hr2|lia|rewrite (splice_length _ _ _ _ Eb); lia|].
  mstep. split; [done|]. by exists i, b.
Qed.

Lemma memset_ok (block : list Z) n :
  Z.of_nat (length block) = n -> memset_block block n = Some (replicate (Z.to_nat n) 0).
Proof.
  intros Hl. unfold memset_block. rewrite splice_ok by len. simpl. rewrite drop_ge by len. by rewrite app_nil_r.
Qed.

Lemma write_superblock_runs fs a :
  rep fs a ->
  runs (ext2_write_superblock alloc) fs (fun r fs' => exists b,
    splice (replicate (Z.to_nat 1024) 0) 0 (super_bytes (a_sb a)) = Some b /\ rep fs' (upd_blk 1 b a)).
Proof.
  intros Hr. pose proof (r_layout _ _ Hr) as Hl. pose proof (spans_pos _ Hl). pose proof (l_first _ Hl).
  unfold ext2_write_superblock. do 2 mstep. rewrite (r_super _ _ Hr), (l_bsize _ Hl).
  muse kmalloc_runs as (m&->&Hm&Hr1); [done|lia|]. mstep. eapply runs_need; [by apply memset_ok|].
  pose proof (super_bytes_length _ (l_super _ Hl)) as Hsl.
  destruct (splice (replicate (Z.to_nat 1024) 0) 0 (super_bytes (a_sb a))) as [b|] eqn:Eb;
    [|rewrite splice_ok in Eb; [done|lia|rewrite length_replicate; lia]].
  mstep. eapply runs_need; [done|]. eapply runs_mono.
  - apply write_block_runs; [exact Hr1|lia|]. rewrite (splice_length _ _ _ _ Eb), length_replicate. lia.
  - intros ? ? [_ Hr2]. by exists b.
Qed.

(** Bytes of the block bitmap that block [i] of it holds. *)
Definition bitmap_part (size i : Z) : Z := if size <? i * 1024 + 1024 then size - i * 1024 else 1024.

(** The block bitmap's first [i] blocks are on disk, nothing else changed. *)
Definition bitmap_written a a' (i : Z) : Prop :=
  meta_eq a a' /\ (forall n, n < 2 \/ 2 + i <= n -> a_blk a' n = a_blk a n) /\
  (forall k, 0 <= k < i -> slice (a_blk a' (2 + k)) 0 (bitmap_part (Z.of_nat (length (a_bm a))) k) =
     slice (a_bm a) (k * 1024) (bitmap_part (Z.of_nat (length (a_bm a))) k)).

Lemma bitmap_part_range a k :
  layout a -> 0 <= k < bitmap_span (blocks a) ->
  0 < bitmap_part (Z.of_nat (length (a_bm a))) k <= 1024 /\
  k * 1024 + bitmap_part (Z.of_nat (length (a_bm a))) k <= Z.of_nat (length (a_bm a)).
Proof.
  intros Hl Hk. destruct (l_bm _ Hl) as [Hb _]. pose proof (l_blocks _ Hl). unfold bitmap_part, bitmap_span in *.
  assert (k * 1024 < Z.of_nat (length (a_bm a))) by dlia. case_if; lia.
Qed.

(** A source copied to the start of a zeroed block. *)
Lemma splice_zeros (src : list Z) :
  Z.of_nat (length src) <= 1024 ->
  exists b, splice (replicate (Z.to_nat 1024) 0) 0 src = Some b /\ Z.of_nat (length b) = 1024 /\
    slice b 0 (Z.of_nat (length src)) = Some src.
Proof.
  intros Hs. destruct (splice (replicate (Z.to_nat 1024) 0) 0 src) as [b|] eqn:E;
    [|rewrite splice_ok in E; [done|lia|rewrite length_replicate; lia]].
  exists b. split; [done|]. split; [rewrite (splice_length _ _ _ _ E), length_replicate; lia|].
  by eapply slice_splice_eq.
Qed.

Lemma write_bitmap_block_runs fs a a' i block :
  rep fs a' -> layout a -> bitmap_written a a' i -> 0 <= i < bitmap_span (blocks a) ->
  Z.of_nat (length block) = 1024 ->
  runs (write_bitmap_block (a_bm a) (Z.of_nat (length (a_bm a))) i block) fs (fun b fs' =>
    Z.of_nat (length b) = 1024 /\ exists a2, rep fs' a2 /\ bitmap_written a a2 (i + 1)).
Proof.
  intros Hr Hl (Hme&Hout&Hin) Hi Hb. pose proof (bitmap_part_range a i Hl Hi) as [Hp1 Hp2].
  pose proof (l_blocks _ Hl) as Hbl. pose proof (l_first _ Hl) as Hf. pose proof (spans_pos _ Hl).
  destruct (l_bm _ Hl) as [Hbm _].
  assert (0 <= i * 1024 /\ i * 1024 + 1024 < 2 ^ 32) as [Hi1 Hi2] by (unfold bitmap_span in Hi; dlia).
  unfold write_bitmap_block. do 2 mstep. rewrite (rep_bsize _ _ Hr). mstep. eapply runs_need; [by apply memset_ok|].
  rewrite (u32_id (i * 1024)) by lia. rewrite (u32_id (i * 1024 + 1024)) by lia.
  replace (if _ <? i * 1024 + 1024 then u32 _ else 1024) with (bitmap_part (Z.of_nat (length (a_bm a))) i).
  2:{ unfold bitmap_part in *. case_if; [|done]. rewrite u32_id by lia. done. }
  destruct (slice (a_bm a) (i * 1024) (bitmap_part (Z.of_nat (length (a_bm a))) i)) as [src|] eqn:Es;
    [|rewrite slice_ok in Es by lia; done].
  pose proof (slice_length _ _ _ _ Es) as Hsl. destruct (splice_zeros src) as (b&Eb&Hbl2&Hsb); [lia|].
  mstep. eapply runs_need; [done|]. mstep. eapply runs_need; [done|].
  assert (u32 (2 + i) = 2 + i) as -> by (apply u32_id; lia).
  assert (Hbe : blocks a' = blocks a) by (unfold blocks; destruct Hme as [-> _]; done).
  muse write_block_runs as (_&Hr2); [exact Hr|lia|done|]. mstep. split; [done|].
  exists (upd_blk (2 + i) b a'). split; [done|]. split; [|split].
  - eapply meta_eq_trans; [exact Hme|]. apply meta_eq_upd. unfold first, table_span in *.
    destruct Hme as [-> _]. lia.
  - intros n Hn. cbn. case_if; [lia|]. apply Hout. lia.
  - intros k Hk. cbn. case_if.
    + assert (k = i) as -> by lia. rewrite Es, <- Hsl. done.
    + apply Hin. lia.
Qed.

Lemma write_bitmap_blocks_runs a fuel : layout a -> forall fs a' i block,
  rep fs a' -> bitmap_written a a' i -> 0 <= i <= bitmap_span (blocks a) ->
  bitmap_span (blocks a) - i < Z.of_nat fuel -> Z.of_nat (length block) = 1024 ->
  runs (write_bitmap_blocks fuel (a_bm a) (Z.of_nat (length (a_bm a))) i (bitmap_span (blocks a)) block) fs
    (fun b fs' => Z.of_nat (length b) = 1024 /\ exists a2, rep fs' a2 /\ bitmap_written a a2 (bitmap_span (blocks a))).
Proof.
  intros Hl. induction fuel as [|fuel IH]; intros fs a' i block Hr Hw Hi Hf Hb; [lia|].
  cbn [write_bitmap_blocks]. case_if.
  - muse write_bitmap_block_runs as (Hb2&a2&Hr2&Hw2); [exact Hr|done..|lia|done|].
    eapply IH; [exact Hr2|done|lia|lia|done].
  - mstep. split; [done|]. exists a'. split; [done|]. by assert (i = bitmap_span (blocks a)) as <- by lia.
Qed.

(** Both bitmaps are on disk. *)
Definition bitmaps_stored a : Prop :=
  (forall k, 0 <= k < bitmap_span (blocks a) ->
     slice (a_blk a (2 + k)) 0 (bitmap_part (Z.of_nat (length (a_bm a))) k) =
     slice (a_bm a) (k * 1024) (bitmap_part (Z.of_nat (length (a_bm a))) k)) /\
  slice (a_blk a (2 + bitmap_span (blocks a))) 0 (Z.of_nat (length (a_ibm a))) = Some (a_ibm a).

Lemma write_bitmaps_runs fs a :
  rep fs a ->
  runs (ext2_write_bitmaps alloc) fs (fun r fs' => exists a', rep fs' a' /\ meta_eq a a' /\ bitmaps_stored a' /\
    forall n, n < 2 \/ 2 + bitmap_span (blocks a) < n -> a_blk a' n = a_blk a n).
Proof.
  intros Hr. pose proof (r_layout _ _ Hr) as Hl. pose proof (spans_pos _ Hl) as Hsp.
  pose proof (l_first _ Hl) as Hf. pose proof (l_blocks _ Hl) as Hbl. pose proof (l_inodes _ Hl) as Hin.
  destruct (l_bm _ Hl) as [Hbm _]. destruct (l_ibm _ Hl) as [Hibm _].
  unfold ext2_write_bitmaps. do 2 mstep. rewrite (r_super _ _ Hr), (l_bsize _ Hl). fold (blocks a) (inodes a).
  mstep. eapply runs_need; [by apply bitmap_blocks_ok|].
  muse kmalloc_runs as (m&->&Hm&Hr1); [done|lia|]. do 2 mstep.
  destruct (Z.ltb_spec 0 (bitmap_span (blocks a))); [|lia]. rewrite (r_bb _ _ Hr1). do 2 mstep.
  eapply runs_need; [done|]. rewrite (u32_id (blocks a + 7)), (u32_id (inodes a + 7)), <- Hbm, <- Hibm by lia.
  eapply runs_mono; [eapply (write_bitmap_blocks_runs a); [done|exact Hr1| |lia|lia|done]|].
  { split; [done|]. split; [done|]. intros; lia. }
  intros b ? (Hb&a2&Hr2&Hme&Hout&Hst). cbn beta iota. mstep. eapply runs_need; [by apply memset_ok|]. do 2 mstep.
  rewrite (r_ibm _ _ Hr2). destruct Hme as (Hme1&Hme2&Hme3&Hme4&Hme5). rewrite Hme3. mstep.
  eapply runs_need; [done|]. mstep. eapply runs_need; [rewrite slice_ok by lia; done|].
  rewrite drop_0, take_ge by lia. destruct (splice_zeros (a_ibm a)) as (b'&Eb'&Hb'&Hs'); [dlia|].
  mstep. eapply runs_need; [done|]. rewrite u32_id by lia.
  assert (Hbe : blocks a2 = blocks a) by (unfold blocks; by rewrite Hme1).
  muse write_block_runs as (_&Hr3); [exact Hr2|lia|done|]. mstep.
  eexists. split; [exact Hr3|]. split; [|split].
  - eapply meta_eq_trans; [by split_and!|]. apply meta_eq_upd. unfold first. rewrite Hme1. unfold first in Hf. lia.
  - split; cbn; rewrite Hme2 || rewrite Hme3.
    + change (blocks (upd_blk _ _ a2)) with (blocks a2). rewrite Hbe. intros k Hk. case_if; [lia|]. by apply Hst.
    + change (blocks (upd_blk _ _ a2)) with (blocks a2). rewrite Hbe, Z.eqb_refl. done.
  - intros n Hn. cbn. case_if; [lia|]. apply Hout. lia.
Qed.

End Layer.
End Ext2Layer.
