(* ===== verification/Ext2Files.v ===== *)
(** * Ext2Files: the contents of files (kernel/src/ext2_fs.c)

    The block pointers of all inodes form disjoint trees: an inode has slots 0 to
    11 for data blocks, slot 12 for a table of data blocks and slot 13 for a table
    of such tables.  [inv] says that every non-zero pointer refers to a block of
    the data area that is marked used, and that no block is referred to twice.
    Under it [ext2_bmap_alloc], [ext2_write] and [ext2_read] are specified by the
    bytes of the files. *)

From Stdlib Require Import ZArith Lia Bool ZifyBool.
From stdpp Require Import base numbers option list list_numbers.
From S2P Require Import Prelude Ramdisk Ext2 Ext2Alloc Ext2Layer.
Import Ramdisk Ext2 Ext2Alloc Ext2Layer.

Open Scope Z_scope.

Module Ext2Files.

Implicit Types (a : astate) (ino p n t : Z).

(** ** Block pointers *)

(** Where a block pointer is stored: a slot of the inode, an entry of the table in
    slot 12, an entry of the table in slot 13, an entry of a second-level table. *)
Inductive loc := Slot (k : Z) | Ind (i : Z) | Dind (i : Z) | Dleaf (i j : Z).

#[export] Instance loc_eq_dec : EqDecision loc.
Proof. solve_decision. Defined.

Definition loc_ok (l : loc) : Prop :=
  match l with
  | Slot k => 0 <= k < 14
  | Ind i | Dind i => 0 <= i < 256
  | Dleaf i j => 0 <= i < 256 /\ 0 <= j < 256
  end.

(** The pointer refers to a table, not to data. *)
Definition inner (l : loc) : bool :=
  match l with Slot k => 12 <=? k | Dind _ => true | _ => false end.

Definition word a n i : Z := default 0 (get32 (a_blk a n) (4 * i)).

Definition slot a ino (k : Z) : Z :=
  match inode_at a ino with Some i => default 0 (aget (i_block i) k) | None => 0 end.

Definition entry a t i : Z := if t =? 0 then 0 else word a t i.

Definition ref a ino (l : loc) : Z :=
  match l with
  | Slot k => slot a ino k
  | Ind i => entry a (slot a ino 12) i
  | Dind i => entry a (slot a ino 13) i
  | Dleaf i j => entry a (entry a (slot a ino 13) i) j
  end.

Definition in_use a p : Prop := first a <= p < blocks a /\ bit_set (a_bm a) p = true.

Record inv a : Prop := {
  i_layout : layout a;
  i_range : forall ino l, loc_ok l -> ref a ino l <> 0 -> in_use a (ref a ino l);
  i_inj : forall ino l ino' l', loc_ok l -> loc_ok l' -> ref a ino l = ref a ino' l' ->
    ref a ino l <> 0 -> ino = ino' /\ l = l' }.

Definition unref a p : Prop := forall ino l, loc_ok l -> ref a ino l <> p.

Lemma first_pos a : layout a -> 0 < first a.
Proof. intros Hl. pose proof (l_first _ Hl). pose proof (spans_pos _ Hl). lia. Qed.

Lemma word_upd a n b m i : word (upd_blk n b a) m i = if m =? n then default 0 (get32 b (4 * i)) else word a m i.
Proof. unfold word. cbn. by destruct (m =? n). Qed.

(** Pointers depend on the slots and on the tables. *)
Lemma ref_ext a a' :
  (forall ino k, slot a' ino k = slot a ino k) ->
  (forall ino l i, loc_ok l -> inner l = true -> ref a ino l <> 0 -> 0 <= i < 256 ->
     word a' (ref a ino l) i = word a (ref a ino l) i) ->
  forall ino l, loc_ok l -> ref a' ino l = ref a ino l.
Proof.
  intros Hs Hw ino.
  assert (He : forall q i, loc_ok q -> inner q = true -> 0 <= i < 256 ->
    entry a' (ref a ino q) i = entry a (ref a ino q) i).
  { intros q i Hq Hin Hi. unfold entry. case_if; [done|]. by apply Hw. }
  pose proof (fun i => He (Slot 12) i ltac:(done) eq_refl) as H12.
  pose proof (fun i => He (Slot 13) i ltac:(done) eq_refl) as H13. cbn [ref] in H12, H13.
  intros [k|i|i|i j] Hok; cbn [ref]; rewrite ?Hs; [done|by apply H12|by apply H13|].
  destruct Hok as [Hi Hj]. rewrite H13 by done. by apply (He (Dind i)).
Qed.

(** Writing a block that is no table. *)
Lemma upd_blk_refs a p b :
  p <> 0 -> (forall ino l, loc_ok l -> inner l = true -> ref a ino l <> p) ->
  forall ino l, loc_ok l -> ref (upd_blk p b a) ino l = ref a ino l.
Proof.
  intros Hp Hnt. apply ref_ext; [done|]. intros ino l i Hok Hin H0 Hi.
  rewrite word_upd. case_if; [|done]. by destruct (Hnt ino l).
Qed.

Lemma inv_same_refs a a' :
  inv a -> layout a' -> a_bm a' = a_bm a -> blocks a' = blocks a -> first a' = first a ->
  (forall ino l, loc_ok l -> ref a' ino l = ref a ino l) -> inv a'.
Proof.
  intros [Hl Hr Hi] Hl' Hbm Hb Hf Href. constructor; [done| |].
  - intros ino l Hok. rewrite Href by done. intros H0. destruct (Hr ino l Hok H0) as [? ?].
    unfold in_use. by rewrite Hbm, Hb, Hf.
  - intros ino l ino' l' Hok Hok'. rewrite !Href by done. by apply Hi.
Qed.

(** A fresh block becomes the target of one pointer that was 0. *)
Lemma inv_link a a' ino l p :
  inv a -> layout a' -> a_bm a' = a_bm a -> blocks a' = blocks a -> first a' = first a ->
  in_use a p -> unref a p ->
  (forall ino' l', loc_ok l' -> ref a' ino' l' = if decide (ino' = ino /\ l' = l) then p else ref a ino' l') ->
  inv a'.
Proof.
  intros [Hl Hr Hi] Hl' Hbm Hb Hf Hu Hun Href. constructor; [done| |].
  - intros ino' l' Hok. rewrite Href by done. unfold in_use. rewrite Hbm, Hb, Hf.
    case_decide; [done|]. by apply Hr.
  - intros ino1 l1 ino2 l2 Hok1 Hok2. rewrite !Href by done. repeat case_decide.
    + naive_solver.
    + intros E. by destruct (Hun ino2 l2).
    + intros E. by destruct (Hun ino1 l1).
    + by apply Hi.
Qed.

(** ** Steps that only extend the trees of one inode *)

Definition stat a ino : option (Z * Z) :=
  match inode_at a ino with Some i => Some (i_mode i, i_size i) | None => None end.

(** The superblocks agree but for the number of free blocks. *)
Definition same_super a a' : Prop := set_free_blocks 0 (a_sb a') = set_free_blocks 0 (a_sb a).

(** From [a] to [a'] pointers of [ino] that were 0 may have been set; nothing else
    about files has changed. *)
Record ext ino a a' : Prop := {
  e_inv : inv a';
  e_geo : blocks a' = blocks a /\ first a' = first a /\ inodes a' = inodes a;
  e_stat : forall ino', stat a' ino' = stat a ino';
  e_ref : forall ino' l, loc_ok l -> ino' <> ino \/ ref a ino' l <> 0 -> ref a' ino' l = ref a ino' l;
  e_blk : forall ino' l, loc_ok l -> inner l = false -> ref a ino' l <> 0 ->
    a_blk a' (ref a ino' l) = a_blk a (ref a ino' l);
  e_low : forall n, n < first a -> a_blk a' n = a_blk a n;
  e_tab : forall ino', ino' <> ino -> inode_at a' ino' = inode_at a ino';
  e_super : same_super a a';
  e_ibm : a_ibm a' = a_ibm a }.

Lemma ext_refl ino a : inv a -> ext ino a a.
Proof. by constructor. Qed.

Lemma ext_trans ino a b c : ext ino a b -> ext ino b c -> ext ino a c.
Proof.
  intros [H1 H2 H3 H4 H5 H6 H7 H8 H9] [G1 G2 G3 G4 G5 G6 G7 G8 G9]. constructor; [done| | | | | | | |congruence].
  - destruct H2 as (E1&E2&E3), G2 as (F1&F2&F3). by rewrite F1, F2, F3.
  - intros. by rewrite G3, H3.
  - intros ino' l Hok Hd. rewrite G4, H4; try done. rewrite H4 by done. done.
  - intros ino' l Hok Hin H0. rewrite <- (H4 ino' l), G5; try done; rewrite ?H4; auto.
  - intros n Hn. rewrite G6, H6; [done|done|]. by destruct H2 as (_&->&_).
  - intros ino' Hne. by rewrite G7, H7.
  - unfold same_super in *. by rewrite G8, H8.
Qed.

(** The step [ext2_alloc_block] makes. *)
Lemma ext_alloc ino a p bm :
  inv a -> layout (upd_bm bm a) -> first a <= p < blocks a -> bit_set (a_bm a) p = false ->
  (forall j, 0 <= j -> bit_set bm j = if j =? p then true else bit_set (a_bm a) j) ->
  ext ino a (upd_bm bm a) /\ in_use (upd_bm bm a) p /\ unref (upd_bm bm a) p.
Proof.
  intros Hinv Hl Hp Hc Hbm. pose proof (first_pos _ (i_layout _ Hinv)). split_and!.
  - constructor; try done. constructor; [done| |apply Hinv].
    intros ino' l Hok H0. destruct (i_range _ Hinv ino' l Hok H0) as [Hr Hb]. split; [done|].
    cbn. change (ref (upd_bm bm a) ino' l) with (ref a ino' l). rewrite Hbm by lia. by case_if.
  - split; [done|]. cbn. rewrite Hbm by lia. by rewrite Z.eqb_refl.
  - intros ino' l Hok E. change (ref (upd_bm bm a) ino' l) with (ref a ino' l) in E.
    destruct (i_range _ Hinv ino' l Hok ltac:(lia)) as [_ Hb]. rewrite E in Hb. congruence.
Qed.

(** Filling a block nobody refers to. *)
Lemma ext_fill ino a p b :
  inv a -> in_use a p -> unref a p -> Z.of_nat (length b) = 1024 ->
  ext ino a (upd_blk p b a) /\ in_use (upd_blk p b a) p /\ unref (upd_blk p b a) p.
Proof.
  intros Hinv Hu Hun Hb. pose proof (first_pos _ (i_layout _ Hinv)).
  assert (Hp : p <> 0) by (destruct Hu; lia).
  assert (Href : forall ino l, loc_ok l -> ref (upd_blk p b a) ino l = ref a ino l)
    by (apply upd_blk_refs; [done|]; intros; by apply Hun).
  split_and!; [|done|intros ino' l Hok; rewrite Href by done; by apply Hun].
  constructor; try done.
  - eapply inv_same_refs; try done. apply layout_upd_blk; [apply Hinv|done].
  - intros. by apply Href.
  - intros ino' l Hok _ _. cbn. case_if; [|done]. by destruct (Hun ino' l).
  - intros n Hn. cbn. case_if; [|done]. destruct Hu. lia.
Qed.

(** Setting one pointer to a fresh block; [t] is the block that changes, if any. *)
Lemma ext_link ino a a' l p :
  inv a -> layout a' -> a_bm a' = a_bm a -> a_ibm a' = a_ibm a -> a_sb a' = a_sb a ->
  (forall ino', stat a' ino' = stat a ino') ->
  in_use a p -> unref a p -> ref a ino l = 0 ->
  (forall ino' l', loc_ok l' -> ref a' ino' l' = if decide (ino' = ino /\ l' = l) then p else ref a ino' l') ->
  (forall ino' l', loc_ok l' -> inner l' = false -> ref a ino' l' <> 0 ->
     a_blk a' (ref a ino' l') = a_blk a (ref a ino' l')) ->
  (forall n, n < first a -> a_blk a' n = a_blk a n) ->
  (forall ino', ino' <> ino -> inode_at a' ino' = inode_at a ino') ->
  ext ino a a'.
Proof.
  intros Hinv Hl Hbm Hibm Hsb Hst Hu Hun H0 Href Hblk Hlow Htab. constructor; try done.
  - eapply inv_link; try done; unfold blocks, first; by rewrite Hsb.
  - unfold blocks, first, inodes. by rewrite Hsb.
  - intros ino' l' Hok Hd. rewrite Href by done. case_decide as E; [|done].
    destruct E as [-> ->]. by destruct Hd.
  - unfold same_super. by rewrite Hsb.
Qed.

(** ** The two ways a pointer is set *)

(** A slot of the inode; a table must be zeroed. *)
Lemma slot_link_refs a a' ino k p :
  0 <= k < 14 -> slot a ino k = 0 -> p <> 0 ->
  (forall ino' k', slot a' ino' k' = if decide (ino' = ino /\ k' = k) then p else slot a ino' k') ->
  (forall n i, word a' n i = word a n i) ->
  (12 <= k -> forall i, 0 <= i < 256 -> word a p i = 0) ->
  forall ino' l', loc_ok l' ->
    ref a' ino' l' = if decide (ino' = ino /\ l' = Slot k) then p else ref a ino' l'.
Proof.
  intros Hk H0 Hp Hs Hw Hz.
  assert (He : forall t i, entry a' t i = entry a t i) by (intros; unfold entry; by rewrite Hw).
  assert (Hpz : forall i, 12 <= k -> 0 <= i < 256 -> entry a p i = 0).
  { intros i Hk12 Hi. unfold entry. case_if; [done|]. by apply Hz. }
  intros ino' [k'|i|i|i j] Hok; cbn [ref]; rewrite ?He, Hs.
  - repeat case_decide; naive_solver.
  - rewrite (decide_False (P := _ /\ Ind i = _)) by naive_solver. case_decide as E; [|done].
    destruct E as [-> <-]. rewrite H0. by apply Hpz.
  - rewrite (decide_False (P := _ /\ Dind i = _)) by naive_solver. case_decide as E; [|done].
    destruct E as [-> <-]. rewrite H0. by apply Hpz.
  - rewrite (decide_False (P := _ /\ Dleaf i j = _)) by naive_solver. case_decide as E; [|done].
    destruct E as [-> <-]. rewrite H0. destruct Hok. by rewrite Hpz.
Qed.

(** The pointer in entry [i] of the table that [q] refers to. *)
Definition child (q : loc) (i : Z) : option loc :=
  match q with
  | Slot k => if k =? 12 then Some (Ind i) else if k =? 13 then Some (Dind i) else None
  | Dind i' => Some (Dleaf i' i)
  | _ => None
  end.

Lemma child_ref a ino q i l : child q i = Some l -> ref a ino l = entry a (ref a ino q) i.
Proof.
  destruct q as [k|?|i'|? ?]; cbn; try done; [|by intros [= <-]].
  destruct (k =? 12) eqn:E; bools; [subst; by intros [= <-]|].
  destruct (k =? 13) eqn:E2; bools; [subst; by intros [= <-]|done].
Qed.

Lemma child_inj q i q' j l : child q i = Some l -> child q' j = Some l -> q = q' /\ i = j.
Proof.
  destruct q as [k| | |], q' as [k'| | |]; cbn; try done;
    repeat (case_if; subst); intros; simplify_eq; done.
Qed.

Lemma child_ok q i l : loc_ok q -> 0 <= i < 256 -> child q i = Some l -> loc_ok l.
Proof.
  intros Hq Hi. destruct q as [k| | |]; cbn; try done; [|by intros [= <-]].
  repeat case_if; intros; by simplify_eq.
Qed.

Lemma word_link_refs a b ino q i l p :
  inv a -> loc_ok q -> 0 <= i < 256 -> child q i = Some l -> inner q = true ->
  ref a ino q <> 0 -> ref a ino l = 0 -> p <> 0 -> unref a p ->
  (forall j, 0 <= j < 256 -> default 0 (get32 b (4 * j)) = if j =? i then p else word a (ref a ino q) j) ->
  (inner l = true -> forall j, 0 <= j < 256 -> word a p j = 0) ->
  forall ino' l', loc_ok l' ->
    ref (upd_blk (ref a ino q) b a) ino' l' = if decide (ino' = ino /\ l' = l) then p else ref a ino' l'.
Proof.
  intros Hinv Hq Hi Hch Hin Hq0 Hl0 Hp Hun Hb Hz. set (a' := upd_blk (ref a ino q) b a).
  assert (He : forall ino' q' j l', loc_ok q' -> inner q' = true -> 0 <= j < 256 -> child q' j = Some l' ->
    entry a' (ref a ino' q') j = if decide (ino' = ino /\ l' = l) then p else ref a ino' l').
  { intros ino' q' j l' Hq' Hin' Hj Hch'. rewrite (child_ref _ _ _ _ _ Hch'). unfold entry, a'. rewrite word_upd.
    destruct (ref a ino' q' =? 0) eqn:E0; bools.
    - rewrite decide_False; [done|]. intros [-> ->].
      by destruct (child_inj _ _ _ _ _ Hch Hch') as [<- _].
    - destruct (ref a ino' q' =? ref a ino q) eqn:E1; bools.
      + destruct (i_inj _ Hinv ino' q' ino q) as [-> ->]; try done. rewrite Hb by done.
        destruct (j =? i) eqn:E2; bools.
        * subst j. rewrite Hch in Hch'. injection Hch' as <-. by rewrite decide_True.
        * rewrite decide_False; [done|]. intros [_ ->].
          by destruct (child_inj _ _ _ _ _ Hch Hch') as [_ <-].
      + rewrite decide_False; [done|]. intros [-> ->].
        by destruct (child_inj _ _ _ _ _ Hch Hch') as [<- _]. }
  intros ino' [k|j|j|j j'] Hok.
  - cbn [ref]. change (slot a' ino' k) with (slot a ino' k). rewrite decide_False; [done|].
    intros [_ <-]. destruct q; cbn in Hch; try done. by repeat case_match.
  - by apply (He ino' (Slot 12)).
  - by apply (He ino' (Slot 13)).
  - destruct Hok as [Hj Hj']. change (ref a' ino' (Dleaf j j')) with (entry a' (entry a' (slot a ino' 13) j) j').
    pose proof (He ino' (Slot 13) j (Dind j) ltac:(done) eq_refl Hj eq_refl) as H13. cbn [ref] in H13.
    rewrite H13. case_decide as E.
    + destruct E as [-> <-]. rewrite decide_False by naive_solver.
      cbn [ref] in *. rewrite Hl0. unfold entry at 1. rewrite (proj2 (Z.eqb_neq p 0)) by done.
      unfold a'. rewrite word_upd. case_if; [by destruct (Hun ino q)|]. by apply Hz.
    + by apply (He ino' (Dind j)).
Qed.

(** ** Tables as words *)

Lemma get32_ok (b : list Z) j :
  Z.of_nat (length b) = 1024 -> 0 <= j < 256 -> exists v, get32 b (4 * j) = Some v.
Proof. intros Hl Hj. unfold get32. rewrite slice_ok by lia. cbn [mbind option_bind]. eauto. Qed.

Lemma put32_spec (b : list Z) i v :
  Z.of_nat (length b) = 1024 -> 0 <= i < 256 -> 0 <= v < 2 ^ 32 ->
  exists b', put32 b (4 * i) v = Some b' /\ Z.of_nat (length b') = 1024 /\
    forall j, 0 <= j < 256 -> get32 b' (4 * j) = if j =? i then Some v else get32 b (4 * j).
Proof.
  intros Hl Hi Hv. unfold put32. rewrite u32_id by done.
  destruct (splice b (4 * i) (le_enc 4 v)) as [b'|] eqn:E; [|rewrite splice_ok in E; [done|lia|rewrite le_enc_length; lia]].
  exists b'. split; [done|]. split; [rewrite (splice_length _ _ _ _ E); done|].
  intros j Hj. unfold get32. case_if.
  - subst j. pose proof (slice_splice_eq _ _ _ _ E) as Hs. rewrite le_enc_length in Hs. change (Z.of_nat 4) with 4 in Hs.
    rewrite Hs. cbn [mbind option_bind]. by rewrite le_dec_enc_id.
  - rewrite (slice_splice_disjoint _ _ _ _ _ _ E); [done|]. rewrite le_enc_length. lia.
Qed.

Lemma word_zeros a p i : 0 <= i < 256 -> word (upd_blk p (replicate (Z.to_nat 1024) 0) a) p i = 0.
Proof.
  intros Hi. rewrite word_upd, Z.eqb_refl. unfold get32.
  rewrite slice_ok by (rewrite ?length_replicate; lia). cbn [mbind option_bind default].
  rewrite drop_replicate, take_replicate, Nat.min_l by lia. done.
Qed.

(** ** Setting a pointer keeps the trees *)

Lemma link_word_step a ino q i l p :
  inv a -> loc_ok q -> 0 <= i < 256 -> child q i = Some l -> inner q = true ->
  ref a ino q <> 0 -> ref a ino l = 0 -> in_use a p -> unref a p ->
  (inner l = true -> forall j, 0 <= j < 256 -> word a p j = 0) ->
  exists b, put32 (a_blk a (ref a ino q)) (4 * i) p = Some b /\ Z.of_nat (length b) = 1024 /\
    ext ino a (upd_blk (ref a ino q) b a) /\ ref (upd_blk (ref a ino q) b a) ino l = p.
Proof.
  intros Hinv Hq Hi Hch Hin Hq0 Hl0 Hu Hun Hz. pose proof (i_layout _ Hinv) as Hl.
  pose proof (first_pos _ Hl). pose proof (l_blocks _ Hl). destruct (i_range _ Hinv ino q Hq Hq0) as [Hqr _].
  destruct (put32_spec (a_blk a (ref a ino q)) i p) as (b&E&Hb&Hget);
    [apply l_blk; [done|lia]|done|destruct Hu; lia|].
  exists b. split; [done|]. split; [done|].
  assert (Href : forall ino' l', loc_ok l' ->
    ref (upd_blk (ref a ino q) b a) ino' l' = if decide (ino' = ino /\ l' = l) then p else ref a ino' l').
  { apply (word_link_refs _ _ _ _ i); try done; [destruct Hu; lia|]. intros j Hj. rewrite Hget by done.
    by case_if. }
  pose proof (child_ok _ _ _ Hq Hi Hch) as Hlok.
  split; [|rewrite Href by done; by rewrite decide_True].
  apply (ext_link _ _ _ l p); try done.
  - by apply layout_upd_blk.
  - intros ino' l' Hok Hleaf Hne. cbn. case_if; [|done].
    destruct (i_inj _ Hinv ino' l' ino q) as [-> ->]; try done. congruence.
  - intros n Hn. cbn. case_if; [lia|done].
Qed.

Lemma link_slot_step a ino k i i' p :
  inv a -> 1 <= ino <= inodes a -> 0 <= k < 14 -> inode_at a ino = Some i -> set_block i k p = Some i' ->
  ref a ino (Slot k) = 0 -> in_use a p -> unref a p ->
  (12 <= k -> forall j, 0 <= j < 256 -> word a p j = 0) -> inode_wf i' ->
  ext ino a (upd_tab ino i' a) /\ ref (upd_tab ino i' a) ino (Slot k) = p.
Proof.
  intros Hinv Hino Hk Hi Hset H0 Hu Hun Hz Hwf. pose proof (i_layout _ Hinv) as Hl.
  pose proof (first_pos _ Hl). assert (Hp : p <> 0) by (destruct Hu; lia).
  unfold set_block in Hset. destruct (aset (i_block i) k p) as [bl|] eqn:E; [|done]. injection Hset as <-.
  set (i' := mk_inode _ _ _ _ _ _ _ _ _ _) in *.
  assert (Hslot : forall ino' k', slot (upd_tab ino i' a) ino' k' =
    if decide (ino' = ino /\ k' = k) then p else slot a ino' k').
  { intros ino' k'. unfold slot. rewrite inode_at_upd by done. destruct (Z.eqb_spec ino' ino) as [->|].
    - cbn. destruct (decide (k = k')) as [->|Hk'].
      + rewrite (aget_aset_eq _ _ _ _ E). by rewrite decide_True.
      + rewrite (aget_aset_ne _ _ _ _ _ E) by done. rewrite decide_False by naive_solver. by rewrite Hi.
    - by rewrite decide_False by naive_solver. }
  assert (Href := slot_link_refs a (upd_tab ino i' a) ino k p Hk H0 Hp Hslot (fun _ _ => eq_refl) Hz).
  split; [|rewrite Href by done; by rewrite decide_True].
  apply (ext_link _ _ _ (Slot k) p); try done.
  - by apply layout_upd_tab.
  - intros ino'. unfold stat. rewrite inode_at_upd by done. destruct (Z.eqb_spec ino' ino) as [->|]; [|done].
    by rewrite Hi.
  - intros ino' Hne. rewrite inode_at_upd by done. by rewrite (proj2 (Z.eqb_neq _ _)).
Qed.

(** Counting sectors changes no pointer. *)
Lemma sectors_step a ino i n :
  inv a -> 1 <= ino <= inodes a -> inode_at a ino = Some i -> inode_wf (set_blocks i n) ->
  ext ino a (upd_tab ino (set_blocks i n) a) /\
  forall ino' l, ref (upd_tab ino (set_blocks i n) a) ino' l = ref a ino' l.
Proof.
  intros Hinv Hino Hi Hwf. pose proof (i_layout _ Hinv) as Hl. set (a' := upd_tab ino (set_blocks i n) a).
  assert (Hs : forall ino' k, slot a' ino' k = slot a ino' k).
  { intros ino' k. unfold slot, a'. rewrite inode_at_upd by done.
    destruct (Z.eqb_spec ino' ino) as [->|]; [|done]. by rewrite Hi. }
  assert (Href : forall ino' l, ref a' ino' l = ref a ino' l) by (intros ino' []; cbn [ref]; by rewrite ?Hs).
  split; [|done]. constructor; try done.
  - eapply inv_same_refs; try done. by apply layout_upd_tab.
  - intros ino'. unfold stat, a'. rewrite inode_at_upd by done.
    destruct (Z.eqb_spec ino' ino) as [->|]; [|done]. by rewrite Hi.
  - intros ino' Hne. unfold a'. rewrite inode_at_upd by done. by rewrite (proj2 (Z.eqb_neq _ _)).
Qed.

Lemma set_blocks_wf i n : inode_wf i -> u32_ok n -> inode_wf (set_blocks i n).
Proof. intros (?&?&?&?&?&?&?&?&?&?) Hn. by unfold inode_wf. Qed.

Lemma set_size_wf i n : inode_wf i -> u32_ok n -> inode_wf (set_size i n).
Proof. intros (?&?&?&?&?&?&?&?&?&?) Hn. by unfold inode_wf. Qed.

Lemma set_block_ok i k p :
  inode_wf i -> 0 <= k < 15 -> u32_ok p -> exists i', set_block i k p = Some i' /\ inode_wf i'.
Proof.
  intros (?&?&?&?&?&?&?&?&[Hl Hf]&?) Hk Hp. unfold set_block. rewrite aset_ok by lia. cbn [mbind option_bind].
  eexists. split; [done|]. unfold inode_wf. cbn. rewrite length_insert. split_and!; try done.
  by apply Forall_insert.
Qed.

(** Blocks a file can have, and the pointer for block [bi] of a file. *)
Definition MAX_BLOCKS : Z := 65804.

Definition leaf_of (bi : Z) : loc :=
  if bi <? 12 then Slot bi
  else if bi <? 268 then Ind (bi - 12)
  else Dleaf ((bi - 268) / 256) ((bi - 268) mod 256).

Lemma leaf_of_ok bi : 0 <= bi < MAX_BLOCKS -> loc_ok (leaf_of bi) /\ inner (leaf_of bi) = false.
Proof. unfold MAX_BLOCKS, leaf_of. intros. repeat case_if; cbn; split; try done; dlia. Qed.

Lemma leaf_of_inj b b' : 0 <= b < MAX_BLOCKS -> 0 <= b' < MAX_BLOCKS -> leaf_of b = leaf_of b' -> b = b'.
Proof. unfold MAX_BLOCKS, leaf_of. intros Hb Hb'. repeat case_if; intros; simplify_eq; dlia. Qed.

(** ** Bytes of files *)

Definition MAX_SIZE : Z := MAX_BLOCKS * 1024.

(** Byte [pos] of the inode's data; [None] where no block is mapped. *)
Definition byte a ino (pos : Z) : option Z :=
  let p := ref a ino (leaf_of (pos / 1024)) in
  if p =? 0 then None else aget (a_blk a p) (pos mod 1024).

(** From [a] to [a'] the bytes [data] were put at [off] of [ino]: other inodes keep
    all their bytes, [ino] keeps the bytes it had elsewhere. *)
Record put_bytes ino (off : Z) (data : list Z) a a' : Prop := {
  w_inv : inv a';
  w_geo : blocks a' = blocks a /\ first a' = first a /\ inodes a' = inodes a;
  w_super : same_super a a';
  w_ibm : a_ibm a' = a_ibm a;
  w_tab : forall ino', ino' <> ino -> inode_at a' ino' = inode_at a ino';
  w_other : forall ino' pos, ino' <> ino -> 0 <= pos < MAX_SIZE -> byte a' ino' pos = byte a ino' pos;
  w_data : forall i x, aget data i = Some x -> byte a' ino (off + i) = Some x;
  w_rest : forall pos x, 0 <= pos < MAX_SIZE -> ~ (off <= pos < off + Z.of_nat (length data)) ->
    byte a ino pos = Some x -> byte a' ino pos = Some x }.

Lemma byte_block pos : 0 <= pos < MAX_SIZE -> 0 <= pos / 1024 < MAX_BLOCKS.
Proof. unfold MAX_SIZE, MAX_BLOCKS. dlia. Qed.

Lemma ext_bytes ino a a' : ext ino a a' ->
  (forall ino' pos, ino' <> ino -> 0 <= pos < MAX_SIZE -> byte a' ino' pos = byte a ino' pos) /\
  (forall ino' pos x, 0 <= pos < MAX_SIZE -> byte a ino' pos = Some x -> byte a' ino' pos = Some x).
Proof.
  intros He. split.
  - intros ino' pos Hne Hpos. destruct (leaf_of_ok _ (byte_block _ Hpos)) as [Hok Hin].
    unfold byte. rewrite (e_ref _ _ _ He ino' _ Hok) by auto. case_if; [done|]. by rewrite (e_blk _ _ _ He).
  - intros ino' pos x Hpos. destruct (leaf_of_ok _ (byte_block _ Hpos)) as [Hok Hin].
    unfold byte. case_if; [done|]. rewrite (e_ref _ _ _ He ino' _ Hok) by auto.
    rewrite (proj2 (Z.eqb_neq _ 0)) by done. by rewrite (e_blk _ _ _ He).
Qed.

(** Replacing the contents of a data block. *)
Lemma data_write a ino bi b :
  inv a -> 0 <= bi < MAX_BLOCKS -> ref a ino (leaf_of bi) <> 0 -> Z.of_nat (length b) = 1024 ->
  inv (upd_blk (ref a ino (leaf_of bi)) b a) /\
  (forall ino' l, loc_ok l -> ref (upd_blk (ref a ino (leaf_of bi)) b a) ino' l = ref a ino' l) /\
  forall ino' pos, 0 <= pos < MAX_SIZE ->
    byte (upd_blk (ref a ino (leaf_of bi)) b a) ino' pos =
      if decide (ino' = ino /\ pos / 1024 = bi) then aget b (pos mod 1024) else byte a ino' pos.
Proof.
  intros Hinv Hbi H0 Hb. destruct (leaf_of_ok bi Hbi) as [Hok Hin].
  assert (Href : forall ino' l, loc_ok l -> ref (upd_blk (ref a ino (leaf_of bi)) b a) ino' l = ref a ino' l).
  { apply upd_blk_refs; [done|]. intros ino' l Hl Hinn E.
    destruct (i_inj _ Hinv ino' l ino (leaf_of bi)) as [_ ->]; try done; congruence. }
  split; [|split; [done|]].
  - eapply inv_same_refs; try done. apply layout_upd_blk; [apply Hinv|done].
  - intros ino' pos Hpos. destruct (leaf_of_ok _ (byte_block _ Hpos)) as [Hok' _]. unfold byte. rewrite Href by done.
    cbn. case_decide as E.
    + destruct E as [-> <-]. rewrite (proj2 (Z.eqb_neq _ 0)) by done. by rewrite Z.eqb_refl.
    + case_if; [done|]. case_if; [|done].
      destruct (i_inj _ Hinv ino' (leaf_of (pos / 1024)) ino (leaf_of bi)) as [-> El]; try done.
      apply leaf_of_inj in El; [by destruct E|by apply byte_block|done].
Qed.

Lemma aget_take (l : list Z) w i : aget (take (Z.to_nat w) l) i = if i <? w then aget l i else None.
Proof.
  unfold aget. destruct (0 <=? i) eqn:E; bools; [|by case_if]. case_if.
  - by rewrite lookup_take_lt by lia.
  - by rewrite lookup_take_ge by lia.
Qed.

(** One turn of the write loop. *)
Lemma write_turn ino off buf w chunk a0 a a1 base src b :
  put_bytes ino off (take (Z.to_nat w) buf) a0 a -> ext ino a a1 ->
  0 <= off -> 0 <= w -> 0 < chunk -> w + chunk <= Z.of_nat (length buf) -> off + w + chunk <= MAX_SIZE ->
  chunk <= 1024 - (off + w) mod 1024 ->
  let p := ref a1 ino (leaf_of ((off + w) / 1024)) in
  p <> 0 -> base = a_blk a1 p \/ ((off + w) mod 1024 = 0 /\ chunk = 1024) -> Z.of_nat (length base) = 1024 ->
  slice buf w chunk = Some src -> splice base ((off + w) mod 1024) src = Some b ->
  put_bytes ino off (take (Z.to_nat (w + chunk)) buf) a0 (upd_blk p b a1).
Proof.
  intros Hw He Hoff Hw0 Hc Hbuf Hmax Hcb p Hp Hbase Hbl Hsrc Hb. set (pos0 := off + w) in *.
  assert (Hpos0 : 0 <= pos0 < MAX_SIZE) by lia. pose proof (byte_block _ Hpos0) as Hbi.
  pose proof (slice_length _ _ _ _ Hsrc) as Hsl. pose proof (splice_length _ _ _ _ Hb) as Hlb.
  destruct (ext_bytes _ _ _ He) as [Ho Hk].
  destruct (data_write a1 ino (pos0 / 1024) b) as (Hinv&Href&Hbyte); [apply He|done|done|lia|]. fold p in Hinv, Href, Hbyte.
  assert (Hsame : forall pos x, 0 <= pos < MAX_SIZE -> ~ (pos0 <= pos < pos0 + chunk) ->
    byte a1 ino pos = Some x -> byte (upd_blk p b a1) ino pos = Some x).
  { intros pos x Hpos Hn Hx. rewrite Hbyte by done. case_decide as E; [|done]. destruct E as [_ E].
    rewrite (aget_splice_out _ _ _ _ _ Hb) by (rewrite Hsl; clear -Hn E Hcb; dlia).
    destruct Hbase as [->|[H1 H2]]; [|exfalso; clear -Hn E H1 H2; dlia].
    unfold byte in Hx. rewrite E in Hx. fold p in Hx. rewrite (proj2 (Z.eqb_neq p 0)) in Hx by done. done. }
  destruct (e_geo _ _ _ He) as (G1&G2&G3). destruct (w_geo _ _ _ _ _ Hw) as (F1&F2&F3).
  constructor.
  - done.
  - change (blocks a1 = blocks a0 /\ first a1 = first a0 /\ inodes a1 = inodes a0). by rewrite G1, G2, G3.
  - change (same_super a0 a1). unfold same_super. rewrite (e_super _ _ _ He). apply Hw.
  - change (a_ibm a1 = a_ibm a0). rewrite (e_ibm _ _ _ He). apply Hw.
  - intros ino' Hne. change (inode_at a1 ino' = inode_at a0 ino'). rewrite (e_tab _ _ _ He) by done. by apply Hw.
  - intros ino' pos Hne Hpos. rewrite Hbyte by done. rewrite decide_False by naive_solver.
    rewrite Ho by done. by apply Hw.
  - intros i x. rewrite aget_take. destruct (i <? w + chunk) eqn:Hlt; bools; [|done]. intros Hx.
    assert (Hi0 : 0 <= i) by (apply aget_Some_lt in Hx; lia).
    destruct (decide (i < w)) as [Hi|Hi].
    + apply Hsame; [lia|lia|]. apply Hk; [lia|]. apply Hw. rewrite aget_take. case_if; [done|lia].
    + rewrite Hbyte by lia. assert (Hq : (off + i) / 1024 = pos0 / 1024) by (clear -Hi Hcb Hlt Hi0 Hoff Hw0; subst pos0; dlia).
      rewrite decide_True by done. rewrite (aget_splice_in _ _ _ _ _ Hb).
      2:{ rewrite Hsl. clear -Hi Hcb Hlt Hq. subst pos0. dlia. }
      rewrite (aget_slice _ _ _ _ _ Hsrc); [|clear -Hi Hcb Hlt Hq; subst pos0; dlia].
      rewrite <- Hx. f_equal. clear -Hi Hcb Hlt Hq. subst pos0. dlia.
  - intros pos x Hpos Hn Hx. rewrite length_take in Hn. apply Hsame; [done|lia|]. apply Hk; [done|].
    apply Hw; [done| |done]. rewrite length_take. lia.
Qed.

(** ** What is on disk *)

Definition super_stored a : Prop := slice (a_blk a 1) 0 1016 = Some (super_bytes (a_sb a)).

Definition inode_stored a ino : Prop :=
  exists i, inode_at a ino = Some i /\ slice (a_blk a (iblock a ino)) (ioff ino) 256 = Some (inode_bytes i).

(** Superblock, bitmaps and inode table on disk agree with those in memory. *)
Definition synced a : Prop :=
  super_stored a /\ bitmaps_stored a /\ forall ino, 1 <= ino <= inodes a -> inode_stored a ino.

(** Files do not depend on the blocks before the data area. *)
Lemma meta_step a a' :
  inv a -> layout a' -> meta_eq a a' ->
  inv a' /\ (forall ino, inode_at a' ino = inode_at a ino) /\
  forall ino pos, 0 <= pos < MAX_SIZE -> byte a' ino pos = byte a ino pos.
Proof.
  intros Hinv Hl (Hsb&Hbm&Hibm&Htab&Hblk).
  assert (Hat : forall ino, inode_at a' ino = inode_at a ino) by (intros; unfold inode_at; by rewrite Htab).
  assert (Href : forall ino l, loc_ok l -> ref a' ino l = ref a ino l).
  { apply ref_ext; [intros; unfold slot; by rewrite Hat|]. intros ino l i Hok _ H0 _. unfold word.
    rewrite Hblk; [done|]. by apply i_range. }
  split_and!; [|done|].
  - eapply inv_same_refs; try done; unfold blocks, first; by rewrite Hsb.
  - intros ino pos Hpos. destruct (leaf_of_ok _ (byte_block _ Hpos)) as [Hok _]. unfold byte.
    rewrite Href by done. case_if; [done|]. rewrite Hblk; [done|]. by apply i_range.
Qed.

(** Changing fields of an inode other than its pointers. *)
Lemma fields_step a ino i i' :
  inv a -> 1 <= ino <= inodes a -> inode_at a ino = Some i -> inode_wf i' -> i_block i' = i_block i ->
  inv (upd_tab ino i' a) /\ forall ino' pos, byte (upd_tab ino i' a) ino' pos = byte a ino' pos.
Proof.
  intros Hinv Hino Hi Hwf Hbl. pose proof (i_layout _ Hinv) as Hl. set (a' := upd_tab ino i' a).
  assert (Hs : forall ino' k, slot a' ino' k = slot a ino' k).
  { intros ino' k. unfold slot, a'. rewrite inode_at_upd by done.
    destruct (Z.eqb_spec ino' ino) as [->|]; [|done]. by rewrite Hi, Hbl. }
  assert (Href : forall ino' l, ref a' ino' l = ref a ino' l) by (intros ino' []; cbn [ref]; by rewrite ?Hs).
  split; [|intros ino' pos; unfold byte; by rewrite Href].
  eapply inv_same_refs; try done. by apply layout_upd_tab.
Qed.

(** Storing one inode leaves the others in the table blocks alone. *)
Lemma inode_stored_upd a ino i b ino' :
  layout a -> 1 <= ino <= inodes a -> 1 <= ino' <= inodes a -> inode_at a ino = Some i -> inode_wf i ->
  splice (a_blk a (iblock a ino)) (ioff ino) (inode_bytes i) = Some b ->
  ino' = ino \/ inode_stored a ino' -> inode_stored (upd_blk (iblock a ino) b a) ino'.
Proof.
  intros Hl Hino Hino' Hi Hwf Hb Hor. pose proof (inode_bytes_length _ Hwf) as Hlen.
  destruct (decide (ino' = ino)) as [->|Hne].
  - exists i. split; [done|]. cbn. change (iblock (upd_blk _ _ a) ino) with (iblock a ino). rewrite Z.eqb_refl.
    pose proof (slice_splice_eq _ _ _ _ Hb) as Hs. by rewrite Hlen in Hs.
  - destruct Hor as [|(i2&Hi2&Hs2)]; [done|]. exists i2. split; [done|]. cbn.
    change (iblock (upd_blk _ _ a) ino') with (iblock a ino').
    destruct (iblock a ino' =? iblock a ino) eqn:H; bools; [|done]. rewrite <- H in Hb.
    rewrite (slice_splice_disjoint _ _ _ _ _ _ Hb); [done|]. rewrite Hlen.
    unfold iblock, ioff in *. clear -H Hne. dlia.
Qed.

(** ** Block maps *)

Section Operations.
Context {X : Type} {dev_ok : ramdisk_device X -> Prop} {image : ramdisk_device X -> list Z}.
Context `{HD : Disk X dev_ok image}.
Context (alloc : nat -> Z -> option (list Z)).
Context (alloc_total : forall k n, 0 <= n -> exists m, alloc k n = Some m /\ Z.of_nat (length m) = n).
Abbreviation FS := (ext2_filesystem (X := X)).
Abbreviation rep := (rep (dev_ok := dev_ok) (image := image)).
Implicit Types (fs : FS).

Lemma ptr_get_runs fs a t i :
  rep fs a -> 0 <= t < blocks a -> 0 <= i < 256 ->
  runs (ext2_ptr_get alloc t i) fs (fun v fs' => v = word a t i /\ rep fs' a).
Proof.
  intros Hr Ht Hi. unfold ext2_ptr_get. do 2 mstep. rewrite (rep_bsize _ _ Hr).
  muse kmalloc_runs as (m&->&Hm&Hr1); [done|exact Hr|lia|].
  muse read_block_runs as (->&Hr2); [exact Hr1|done|done|]. change (0 <? 0) with false. cbn iota.
  destruct (get32_ok (a_blk a t) i) as [v Ev]; [by apply l_blk, Ht; apply Hr|done|].
  eapply runs_need; [done|]. unfold word. by rewrite Ev.
Qed.

Lemma ptr_set_runs fs a t i v b :
  rep fs a -> 0 <= t < blocks a -> put32 (a_blk a t) (4 * i) v = Some b -> Z.of_nat (length b) = 1024 ->
  runs (ext2_ptr_set alloc t i v) fs (fun _ fs' => rep fs' (upd_blk t b a)).
Proof.
  intros Hr Ht Hb Hl. unfold ext2_ptr_set. do 2 mstep. rewrite (rep_bsize _ _ Hr).
  muse kmalloc_runs as (m&->&Hm&Hr1); [done|exact Hr|lia|].
  muse read_block_runs as (->&Hr2); [exact Hr1|done|done|]. change (0 <? 0) with false. cbn iota. do 3 mstep.
  eapply runs_need; [done|]. muse write_block_runs as (_&Hr3); [exact Hr2|done|done|]. by mstep.
Qed.

Lemma zero_table_runs fs a p :
  rep fs a -> 0 <= p < blocks a ->
  runs (zero_table alloc p) fs (fun _ fs' => rep fs' (upd_blk p (replicate (Z.to_nat 1024) 0) a)).
Proof.
  intros Hr Hp. unfold zero_table. do 2 mstep. rewrite (rep_bsize _ _ Hr).
  muse kmalloc_runs as (m&->&Hm&Hr1); [done|exact Hr|lia|]. mstep. eapply runs_need; [by apply memset_ok|].
  muse write_block_runs as (_&Hr2); [exact Hr1|done|rewrite length_replicate; lia|]. by mstep.
Qed.

Lemma add_sectors_runs fs a ino :
  rep fs a -> inv a -> 1 <= ino <= inodes a ->
  runs (add_sectors ino) fs (fun _ fs' => exists a', rep fs' a' /\ ext ino a a' /\
    forall ino' l, ref a' ino' l = ref a ino' l).
Proof.
  intros Hr Hinv Hi. unfold add_sectors. do 2 mstep.
  muse get_inode_runs giving i as (Hat&Hwf&->); [exact Hr|done|].
  set (n := u32 _). assert (Hwf' : inode_wf (set_blocks i n)) by (apply set_blocks_wf; [done|apply u32_range]).
  eapply runs_mono; [by eapply put_inode_runs; [exact Hr|done|]|]. intros [] fs1 Hr1. eexists. split; [exact Hr1|].
  by apply sectors_step.
Qed.

Lemma inode_block_runs fs a ino k :
  rep fs a -> 1 <= ino <= inodes a -> 0 <= k < 15 ->
  runs (inode_block ino k) fs (fun p fs' => p = slot a ino k /\ fs' = fs).
Proof.
  intros Hr Hi Hk. unfold inode_block.
  muse get_inode_runs giving i as (Hat&Hwf&->); [exact Hr|done|].
  destruct Hwf as (_&_&_&_&_&_&_&_&[Hl _]&_). destruct (aget_lt (i_block i) k) as [p E]; [lia|].
  eapply runs_need; [done|]. unfold slot. by rewrite Hat, E.
Qed.

(** A block was found or allocated for the pointer [l] ([p = 0]: none is left). *)
Definition mapped ino l a p a' : Prop :=
  ext ino a a' /\ ((p = 0 /\ full a') \/ (p <> 0 /\ ref a' ino l = p)).

Lemma mapped_then ino l a a1 p a' : ext ino a a1 -> mapped ino l a1 p a' -> mapped ino l a p a'.
Proof. intros H1 [H2 H3]. split; [by eapply ext_trans|done]. Qed.

(** Allocation: none is left, or a fresh block. *)
Lemma fresh_runs fs a ino :
  rep fs a -> inv a ->
  runs ext2_alloc_block fs (fun p fs' =>
    (p = 0 /\ rep fs' a /\ full a) \/
    (p <> 0 /\ exists a', rep fs' a' /\ ext ino a a' /\ in_use a' p /\ unref a' p /\
       forall ino' l, ref a' ino' l = ref a ino' l)).
Proof.
  intros Hr Hinv. eapply runs_mono; [by eapply alloc_block_runs; exact Hr|].
  intros p fs' [(->&Hr'&Hf)|(Hp&Hc&bm&Hr'&Hbm)]; [by left|right].
  pose proof (first_pos _ (i_layout _ Hinv)). split; [lia|].
  destruct (ext_alloc ino a p bm) as (?&?&?); try done; [apply Hr'|]. by exists (upd_bm bm a).
Qed.

(** The last two steps of every allocation: set the pointer, count sectors. *)
Lemma finish_runs fs a a0 ino l p :
  rep fs a -> 1 <= ino <= inodes a -> ext ino a0 a -> p <> 0 -> ref a ino l = p ->
  runs (@mbind M M_bind _ _ (fun _ => @mret M M_ret _ p) (add_sectors ino)) fs
    (fun r fs' => exists a', rep fs' a' /\ mapped ino l a0 r a').
Proof.
  intros Hr Hi He Hp Hl. muse add_sectors_runs as (a'&Hr'&He'&Href'); [exact Hr|apply He|done|].
  mstep. exists a'. split; [done|]. split; [by eapply ext_trans|]. right. by rewrite Href'.
Qed.

Lemma in_use_range a p : inv a -> in_use a p -> 0 <= p < blocks a /\ u32_ok p.
Proof.
  intros Hinv [Hp _]. pose proof (first_pos _ (i_layout _ Hinv)). pose proof (l_blocks _ (i_layout _ Hinv)).
  unfold u32_ok. lia.
Qed.

(** A zeroed fresh block. *)
Lemma zeroed_runs fs a ino p :
  rep fs a -> inv a -> in_use a p -> unref a p ->
  runs (zero_table alloc p) fs (fun _ fs' => exists a', rep fs' a' /\ ext ino a a' /\ in_use a' p /\ unref a' p /\
    (forall j, 0 <= j < 256 -> word a' p j = 0) /\ forall ino' l, loc_ok l -> ref a' ino' l = ref a ino' l).
Proof.
  intros Hr Hinv Hu Hun. eapply runs_mono; [eapply zero_table_runs; [exact Hr|by apply in_use_range]|].
  intros [] fs1 Hr1. eexists. split; [exact Hr1|].
  destruct (ext_fill ino a p (replicate (Z.to_nat 1024) 0)) as (?&?&?); try done.
  split_and!; try done; [apply word_zeros|]. intros ino' l Hok. apply upd_blk_refs; [|intros; by apply Hun|done].
  destruct Hu. pose proof (first_pos _ (i_layout _ Hinv)). lia.
Qed.

Lemma set_slot_runs fs a ino k p :
  rep fs a -> inv a -> 1 <= ino <= inodes a -> 0 <= k < 14 -> ref a ino (Slot k) = 0 -> in_use a p -> unref a p ->
  (12 <= k -> forall j, 0 <= j < 256 -> word a p j = 0) ->
  runs (set_inode_block ino k p) fs (fun _ fs' => exists a', rep fs' a' /\ ext ino a a' /\ ref a' ino (Slot k) = p).
Proof.
  intros Hr Hinv Hi Hk H0 Hu Hun Hz. unfold set_inode_block.
  muse get_inode_runs giving i as (Hat&Hwf&->); [exact Hr|done|].
  destruct (set_block_ok i k p Hwf) as (i'&Ei&Hwf'); [lia|by apply in_use_range with a|].
  mstep. eapply runs_need; [done|]. eapply runs_mono; [eapply put_inode_runs; [exact Hr|done|exact Hwf']|].
  intros [] fs1 Hr1. eexists. split; [exact Hr1|]. by apply (link_slot_step a ino k i).
Qed.

Lemma ext_inodes ino a a' : ext ino a a' -> inodes a' = inodes a.
Proof. intros He. apply He. Qed.

Lemma root_table_runs fs a ino k :
  rep fs a -> inv a -> 1 <= ino <= inodes a -> k = 12 \/ k = 13 ->
  runs (root_table alloc ino k) fs (fun p fs' => exists a', rep fs' a' /\ mapped ino (Slot k) a p a').
Proof.
  intros Hr Hinv Hi Hk. unfold root_table.
  muse inode_block_runs as (->&->); [exact Hr|done|lia|]. case_if.
  - muse fresh_runs giving p as Hp; [exact Hr|exact Hinv|]. instantiate (1 := ino) in Hp.
    destruct Hp as [(->&Hr1&Hf)|(Hp&a1&Hr1&He1&Hu1&Hun1&Href1)].
    { rewrite Z.eqb_refl. mstep. exists a. split; [done|]. split; [by apply ext_refl|]. by left. }
    rewrite (proj2 (Z.eqb_neq p 0)) by done.
    muse zeroed_runs as (a2&Hr2&He2&Hu2&Hun2&Hz&Href2); [exact Hr1|apply He1|done|done|].
    assert (He12 : ext ino a a2) by (eapply ext_trans; [exact He1|exact He2]).
    muse set_slot_runs as (a3&Hr3&He3&Hr3'); [exact Hr2|apply He2| | | |done|done|intros _; exact Hz|].
    { by rewrite (ext_inodes _ _ _ He12). } { lia. } { rewrite Href2 by (cbn; lia). by rewrite Href1. }
    eapply finish_runs; [exact Hr3| |by eapply ext_trans|done|done].
    by rewrite (ext_inodes _ _ _ He3), (ext_inodes _ _ _ He12).
  - mstep. exists a. split; [done|]. split; [by apply ext_refl|]. by right.
Qed.

(** Entry [i] of the table of [q], whatever is stored there. *)
Lemma slot_of_table_runs (is_table : bool) fs a ino q i l :
  rep fs a -> inv a -> 1 <= ino <= inodes a -> loc_ok q -> inner q = true -> 0 <= i < 256 ->
  child q i = Some l -> ref a ino q <> 0 -> inner l = is_table ->
  runs ((if is_table then table_slot_table alloc else table_slot alloc) ino (ref a ino q) i) fs
    (fun p fs' => exists a', rep fs' a' /\ mapped ino l a p a').
Proof.
  intros Hr Hinv Hi Hq Hin Hi' Hch Hq0 Hl. pose proof (child_ref a ino _ _ _ Hch) as Hcr.
  unfold entry in Hcr. rewrite (proj2 (Z.eqb_neq _ 0)) in Hcr by done.
  destruct (in_use_range a (ref a ino q) Hinv) as [Hqr _]; [by apply i_range|].
  pose proof (child_ok _ _ _ Hq Hi' Hch) as Hlok.
  assert (Hlink : forall fs1 a1 p, rep fs1 a1 -> ext ino a a1 -> in_use a1 p -> unref a1 p -> p <> 0 -> ref a1 ino l = 0 ->
    (is_table = true -> forall j, 0 <= j < 256 -> word a1 p j = 0) ->
    runs (@mbind M M_bind _ _ (fun _ => @mbind M M_bind _ _ (fun _ => @mret M M_ret _ p) (add_sectors ino))
      (ext2_ptr_set alloc (ref a ino q) i p)) fs1
      (fun p fs' => exists a', rep fs' a' /\ mapped ino l a p a')).
  { intros fs1 a1 p Hr1 He1 Hu1 Hun1 Hp Hl1 Hz. pose proof (ext_inodes _ _ _ He1) as Hino.
    pose proof (e_geo _ _ _ He1) as (Hbl&_&_).
    assert (Hq1 : ref a1 ino q = ref a ino q) by (apply He1; auto).
    destruct (link_word_step a1 ino q i l p) as (b&Eb&Hb&He2&Hr2); try done; [apply He1|by rewrite Hq1|by rewrite Hl|].
    rewrite Hq1 in *. muse ptr_set_runs as Hr3; [exact Hr1|by rewrite Hbl|exact Eb|exact Hb|].
    eapply finish_runs; [exact Hr3| |by eapply ext_trans|done|done].
    by rewrite (ext_inodes _ _ _ He2), Hino. }
  assert (Hfull : full a -> mapped ino l a 0 a) by (intros; split; [by apply ext_refl|by left]).
  assert (Hold : forall p, p = ref a ino l -> p <> 0 -> mapped ino l a p a)
    by (intros; split; [by apply ext_refl|by right]).
  destruct is_table; unfold table_slot_table, table_slot;
    (muse ptr_get_runs as (->&Hr0); [exact Hr|done|done|]; rewrite <- Hcr; case_if;
     [|mstep; exists a; split; [done|]; by apply Hold]);
    (muse fresh_runs giving p as Hp; [exact Hr0|exact Hinv|]; instantiate (1 := ino) in Hp;
     destruct Hp as [(->&Hr1&Hf)|(Hp&a1&Hr1&He1&Hu1&Hun1&Href1)];
     [rewrite Z.eqb_refl; mstep; exists a; split; [done|]; by apply Hfull|]); rewrite (proj2 (Z.eqb_neq p 0)) by done.
  - muse zeroed_runs as (a2&Hr2&He2&Hu2&Hun2&Hz&Href2); [exact Hr1|apply He1|done|done|].
    eapply Hlink; [exact Hr2|by eapply ext_trans|done..| |done]. by rewrite Href2, Href1.
  - eapply Hlink; [exact Hr1|done..| |done]. by rewrite Href1.
Qed.

Lemma bmap_alloc_runs fs a ino bi :
  rep fs a -> inv a -> 1 <= ino <= inodes a -> 0 <= bi < MAX_BLOCKS ->
  runs (ext2_bmap_alloc alloc ino bi) fs (fun p fs' => exists a', rep fs' a' /\ mapped ino (leaf_of bi) a p a').
Proof.
  intros Hr Hinv Hi Hb. unfold MAX_BLOCKS in Hb. unfold ext2_bmap_alloc. do 2 mstep. rewrite (rep_bsize _ _ Hr).
  change (1024 / 4) with 256. change (u32 (12 + 256 + 256 * 256)) with 65804. change (12 + 256) with 268.
  unfold leaf_of. case_if; [|case_if; [|case_if; [|lia]]].
  - muse inode_block_runs as (->&->); [exact Hr|done|lia|]. case_if.
    + muse fresh_runs giving p as Hp; [exact Hr|exact Hinv|]. instantiate (1 := ino) in Hp.
      destruct Hp as [(->&Hr1&Hf)|(Hp&a1&Hr1&He1&Hu1&Hun1&Href1)].
      { rewrite Z.eqb_refl. mstep. exists a. split; [done|]. split; [by apply ext_refl|]. by left. }
      rewrite (proj2 (Z.eqb_neq p 0)) by done.
      muse set_slot_runs as (a2&Hr2&He2&Hp2); [exact Hr1|apply He1| |lia| |done|done|lia|].
      { by rewrite (ext_inodes _ _ _ He1). } { by rewrite Href1. }
      eapply finish_runs; [exact Hr2| |by eapply ext_trans|done|done].
      by rewrite (ext_inodes _ _ _ He2), (ext_inodes _ _ _ He1).
    + mstep. exists a. split; [done|]. split; [by apply ext_refl|]. by right.
  - muse root_table_runs giving t as (a1&Hr1&He1&Hm1); [exact Hr|exact Hinv|done|by left|].
    destruct Hm1 as [[-> Hf]|[Ht Href]].
    { rewrite Z.eqb_refl. mstep. exists a1. split; [done|]. split; [done|]. by left. }
    rewrite (proj2 (Z.eqb_neq t 0)) by done. rewrite <- Href.
    eapply runs_mono; [eapply (slot_of_table_runs false _ a1 ino (Slot 12)); try done; [apply He1| |lia|congruence]|].
    { by rewrite (ext_inodes _ _ _ He1). }
    intros p fs2 (a2&Hr2&Hm2). exists a2. split; [done|]. by eapply mapped_then.
  - rewrite u32_id by lia. unfold udiv, umod. cbn [Z.eqb]. do 2 (mstep; eapply runs_need; [done|]).
    replace (bi - 12 - 256) with (bi - 268) by lia.
    muse root_table_runs giving t as (a1&Hr1&He1&Hm1); [exact Hr|exact Hinv|done|by right|].
    destruct Hm1 as [[-> Hf]|[Ht Href]].
    { rewrite Z.eqb_refl. mstep. exists a1. split; [done|]. split; [done|]. by left. }
    rewrite (proj2 (Z.eqb_neq t 0)) by done. rewrite <- Href.
    assert (0 <= (bi - 268) / 256 < 256 /\ 0 <= (bi - 268) mod 256 < 256) as [Hl1 Hl2] by dlia.
    apply runs_bind. eapply runs_mono;
      [eapply (slot_of_table_runs true _ a1 ino (Slot 13)); try done; [apply He1| |congruence]|].
    { by rewrite (ext_inodes _ _ _ He1). }
    intros t2 fs2 (a2&Hr2&He2&Hm2). assert (He12 : ext ino a a2) by by eapply ext_trans.
    cbn beta. destruct Hm2 as [[-> Hf]|[Ht2 Href2]].
    { rewrite Z.eqb_refl. mstep. exists a2. split; [done|]. split; [done|]. by left. }
    rewrite (proj2 (Z.eqb_neq t2 0)) by done. rewrite <- Href2.
    eapply runs_mono; [eapply (slot_of_table_runs false _ a2 ino (Dind ((bi - 268) / 256))); try done;
      [apply He2| |congruence]|].
    { by rewrite (ext_inodes _ _ _ He12). }
    intros p fs3 (a3&Hr3&Hm3). exists a3. split; [done|]. by eapply mapped_then.
Qed.

(** ** Writing *)

(** State of the write loop after [w] bytes. *)
Definition loop_state ino off (buf : list Z) w a0 a : Prop :=
  put_bytes ino off (take (Z.to_nat w) buf) a0 a /\ stat a ino = stat a0 ino /\
  forall n, n < first a0 -> a_blk a n = a_blk a0 n.

Lemma loop_turn ino off buf w chunk a0 a a1 base src b :
  loop_state ino off buf w a0 a -> ext ino a a1 ->
  0 <= off -> 0 <= w -> 0 < chunk -> w + chunk <= Z.of_nat (length buf) -> off + w + chunk <= MAX_SIZE ->
  chunk <= 1024 - (off + w) mod 1024 ->
  let p := ref a1 ino (leaf_of ((off + w) / 1024)) in
  p <> 0 -> base = a_blk a1 p \/ ((off + w) mod 1024 = 0 /\ chunk = 1024) -> Z.of_nat (length base) = 1024 ->
  slice buf w chunk = Some src -> splice base ((off + w) mod 1024) src = Some b ->
  loop_state ino off buf (w + chunk) a0 (upd_blk p b a1).
Proof.
  intros (Hw&Hst&Hlow) He. intros. split; [|split].
  - by eapply write_turn.
  - change (stat a1 ino = stat a0 ino). by rewrite (e_stat _ _ _ He).
  - intros n Hn. cbn. destruct (w_geo _ _ _ _ _ Hw) as (_&Hf&_). destruct (e_geo _ _ _ He) as (_&Hf'&_).
    destruct (leaf_of_ok ((off + w) / 1024)) as [Hok _]; [apply byte_block; lia|].
    destruct (i_range _ (e_inv _ _ _ He) ino _ Hok ltac:(done)) as [Hr _].
    case_if; [lia|]. rewrite (e_low _ _ _ He) by lia. by apply Hlow.
Qed.

Lemma loop_ext ino off buf w a0 a a1 :
  loop_state ino off buf w a0 a -> ext ino a a1 -> 0 <= off -> off + w <= MAX_SIZE ->
  loop_state ino off buf w a0 a1.
Proof.
  intros (Hpb&Hst&Hlow) He Hoff Hmax. destruct (ext_bytes _ _ _ He) as [Ho Hk].
  destruct (e_geo _ _ _ He) as (G1&G2&G3). destruct (w_geo _ _ _ _ _ Hpb) as (F1&F2&F3). split; [|split].
  - constructor; [apply He|by rewrite G1, G2, G3| | | | | |].
    + unfold same_super. rewrite (e_super _ _ _ He). apply Hpb.
    + rewrite (e_ibm _ _ _ He). apply Hpb.
    + intros. rewrite (e_tab _ _ _ He) by done. by apply Hpb.
    + intros. rewrite Ho by done. by apply Hpb.
    + intros i x Hx. apply Hk; [|by apply Hpb]. rewrite aget_take in Hx.
      destruct (i <? w) eqn:Hlt; [|done]. bools. apply aget_Some_lt in Hx. lia.
    + intros. apply Hk; [done|]. by apply Hpb.
  - by rewrite (e_stat _ _ _ He).
  - intros n Hn. rewrite (e_low _ _ _ He) by lia. by apply Hlow.
Qed.

(** The block before the new bytes are put in: its contents, or anything when all
    of it is overwritten. *)
Lemma write_base_runs fs a p bo rest block :
  rep fs a -> 0 <= p < blocks a -> Z.of_nat (length block) = 1024 ->
  runs (if negb (bo =? 0) || (rest <? 1024)
        then @mbind M M_bind _ _ (fun '(_, b) => @mret M M_ret _ b) (ext2_read_block p block)
        else @mret M M_ret _ block) fs
    (fun base fs' => rep fs' a /\ Z.of_nat (length base) = 1024 /\
       (base = a_blk a p \/ (bo = 0 /\ (if 1024 - bo <? rest then 1024 - bo else rest) = 1024))).
Proof.
  intros Hr Hp Hb. destruct (negb (bo =? 0) || (rest <? 1024)) eqn:Ec.
  - muse read_block_runs as (->&Hr2); [exact Hr|done|done|]. mstep. split; [done|].
    split; [by apply l_blk; [apply Hr|]|by left].
  - bools. mstep. split; [done|]. split; [done|]. right. split; [done|]. case_if; lia.
Qed.

Lemma write_loop_runs ino off size buf a0 fuel :
  1 <= ino <= inodes a0 -> 0 <= off -> size <= Z.of_nat (length buf) -> off + size <= MAX_SIZE ->
  forall fs a w block,
  rep fs a -> loop_state ino off buf w a0 a -> 0 <= w <= size -> size - w < Z.of_nat fuel ->
  Z.of_nat (length block) = 1024 ->
  runs (write_loop alloc fuel ino off size w buf block) fs (fun w' fs' => exists a',
    rep fs' a' /\ loop_state ino off buf w' a0 a' /\ 0 <= w' <= size /\ (w' < size -> full a')).
Proof.
  intros Hi Hoff Hsize Hmax. induction fuel as [|fuel IH]; intros fs a w block Hr Hls Hw Hf Hb; [lia|].
  cbn [write_loop]. case_if; [|mstep; exists a; split_and!; (done || lia)].
  assert (Hpos : 0 <= off + w < MAX_SIZE) by lia. pose proof (byte_block _ Hpos) as Hbi.
  assert (Hsm : MAX_SIZE < 2 ^ 32) by done. assert (MAX_BLOCKS < 2 ^ 32) by done.
  do 2 mstep. rewrite (rep_bsize _ _ Hr). rewrite u64_id by lia. unfold udiv, umod. cbn [Z.eqb].
  do 2 (mstep; eapply runs_need; [done|]). rewrite u32_id by lia.
  pose proof Hls as (Hpb&_&_). destruct (w_geo _ _ _ _ _ Hpb) as (Hgb&Hgf&Hgi).
  muse bmap_alloc_runs giving p as (a1&Hr1&He1&Hp); [exact Hr|apply Hpb|by rewrite Hgi|done|].
  destruct Hp as [[-> Hfull]|[Hp Href]].
  { rewrite Z.eqb_refl. mstep. exists a1. split_and!; try done; try lia. eapply loop_ext; try done. lia. }
  rewrite (proj2 (Z.eqb_neq p 0)) by done.
  destruct (e_geo _ _ _ He1) as (Hb1&Hf1&Hi1).
  destruct (leaf_of_ok _ Hbi) as [Hok _].
  assert (0 <= p < blocks a1) as Hpr.
  { rewrite <- Href in *. apply (in_use_range a1); [apply He1|]. apply (i_range _ (e_inv _ _ _ He1)); done. }
  assert (Hmod : 0 <= (off + w) mod 1024 < 1024) by (apply Z.mod_pos_bound; lia).
  set (chunk := if 1024 - (off + w) mod 1024 <? size - w then 1024 - (off + w) mod 1024 else size - w).
  assert (Hch : 0 < chunk <= 1024 - (off + w) mod 1024 /\ w + chunk <= size) by (subst chunk; case_if; lia).
  muse write_base_runs giving base as (Hr2&Hbl&Hbase); [exact Hr1|done|done|].
  destruct (slice buf w chunk) as [src|] eqn:Es; [|rewrite slice_ok in Es by lia; done].
  pose proof (slice_length _ _ _ _ Es) as Hsl.
  destruct (splice base ((off + w) mod 1024) src) as [b|] eqn:Eb; [|rewrite splice_ok in Eb by lia; done].
  pose proof (splice_length _ _ _ _ Eb) as Hlb.
  mstep. eapply runs_need; [done|]. mstep. eapply runs_need; [done|].
  muse write_block_runs as (_&Hr3); [exact Hr2|done|lia|].
  eapply IH; [exact Hr3| |lia|lia|lia]. rewrite <- Href in *.
  eapply loop_turn; try done; lia.
Qed.

(** Writing superblock and bitmaps. *)
Lemma sync_runs fs a {R} (r : R) :
  rep fs a -> inv a ->
  runs (@mbind M M_bind _ _ (fun _ => @mbind M M_bind _ _ (fun _ => @mret M M_ret _ r)
          (ext2_write_bitmaps alloc)) (ext2_write_superblock alloc)) fs
    (fun r' fs' => r' = r /\ exists a', rep fs' a' /\ meta_eq a a' /\ inv a' /\
       ((forall ino', 1 <= ino' <= inodes a -> inode_stored a ino') -> synced a')).
Proof.
  intros Hr Hinv. pose proof (i_layout _ Hinv) as Hl. pose proof (spans_pos _ Hl) as Hsp. pose proof (l_first _ Hl) as Hf.
  muse write_superblock_runs as (b1&Eb1&Hr2); [done|exact Hr|]. set (a2 := upd_blk 1 b1 a) in *.
  muse write_bitmaps_runs as (a3&Hr3&Hme3&Hst3&Hout3); [done|exact Hr2|]. mstep. split; [done|].
  exists a3. split; [done|].
  assert (Hme : meta_eq a a3) by (eapply meta_eq_trans; [|exact Hme3]; apply meta_eq_upd; lia).
  split; [done|]. split; [by apply (meta_step a a3 Hinv (r_layout _ _ Hr3) Hme)|].
  intros Hoth. change (blocks a2) with (blocks a) in *. destruct Hme3 as (Hsb3&_&_&Htab3&_).
  split; [|split; [done|]].
  - unfold super_stored. rewrite Hsb3, Hout3 by lia. cbn.
    pose proof (slice_splice_eq _ _ _ _ Eb1) as Hs. rewrite super_bytes_length in Hs by apply Hl. exact Hs.
  - intros ino' Hino'. unfold inodes in Hino'. rewrite Hsb3 in Hino'. fold (inodes a) in Hino'. pose proof (iblock_range _ _ Hl Hino') as Hib'.
    destruct (Hoth ino' Hino') as (i2&Hi2&Hs2). exists i2. unfold inode_at. rewrite Htab3. split; [done|].
    assert (iblock a3 ino' = iblock a ino') as -> by (unfold iblock, blocks; by rewrite Hsb3).
    assert (2 + bitmap_span (blocks a) < iblock a ino') by (unfold iblock; dlia).
    rewrite Hout3 by lia. cbn. case_if; [lia|]. exact Hs2.
Qed.

(** The metadata writes at the end of an operation on [ino]. *)
Lemma flush_runs fs a ino {R} (r : R) :
  rep fs a -> inv a -> 1 <= ino <= inodes a ->
  runs (@mbind M M_bind _ _ (fun _ => @mbind M M_bind _ _ (fun _ => @mbind M M_bind _ _ (fun _ => @mret M M_ret _ r)
          (ext2_write_bitmaps alloc)) (ext2_write_superblock alloc)) (ext2_write_inode alloc ino)) fs
    (fun r' fs' => r' = r /\ exists a', rep fs' a' /\ meta_eq a a' /\ inv a' /\
       ((forall ino', 1 <= ino' <= inodes a -> ino' <> ino -> inode_stored a ino') -> synced a')).
Proof.
  intros Hr Hinv Hino. pose proof (i_layout _ Hinv) as Hl. pose proof (iblock_range _ _ Hl Hino) as Hib.
  muse write_inode_runs as (->&i&b&Hat&Eb&Hr1); [done|exact Hr|done|]. set (a1 := upd_blk (iblock a ino) b a) in *.
  assert (Hme : meta_eq a a1) by (apply meta_eq_upd; lia).
  destruct (meta_step a a1 Hinv (r_layout _ _ Hr1) Hme) as (Hinv1&_).
  eapply runs_mono; [eapply (sync_runs _ a1); [exact Hr1|exact Hinv1]|].
  intros r' fs2 (->&a2&Hr2&Hme2&Hinv2&Hsy). split; [done|]. exists a2. split; [done|]. split; [by eapply meta_eq_trans|]. split; [done|].
  intros Hoth. apply Hsy. intros ino' Hino'. destruct (inode_at_Some a ino Hl Hino) as (i0&Hi0&Hwf). rewrite Hat in Hi0. injection Hi0 as <-.
  apply (inode_stored_upd a ino i b ino'); try done. destruct (decide (ino' = ino)); [by left|right; by apply Hoth].
Qed.

(** [put_bytes] followed by a step that keeps bytes and the other inodes. *)
Lemma put_bytes_then ino off data a a1 a2 :
  put_bytes ino off data a a1 -> inv a2 ->
  a_sb a2 = a_sb a1 -> a_ibm a2 = a_ibm a1 ->
  (forall ino', ino' <> ino -> inode_at a2 ino' = inode_at a1 ino') ->
  (forall ino' pos, 0 <= pos < MAX_SIZE -> byte a2 ino' pos = byte a1 ino' pos) ->
  0 <= off -> off + Z.of_nat (length data) <= MAX_SIZE ->
  put_bytes ino off data a a2.
Proof.
  intros [H1 H2 H2' H2i H3 H4 H5 H6] Hi Hsb Hib Ht Hby Hoff Hmax. constructor; try done; try congruence.
  - unfold blocks, first, inodes in *. by rewrite Hsb.
  - intros. rewrite Ht by done. by apply H3.
  - intros. rewrite Hby by done. by apply H4.
  - intros i x Hx. rewrite Hby; [by apply H5|]. apply aget_Some_lt in Hx. lia.
  - intros pos x Hpos. rewrite Hby by done. by apply H6.
Qed.

Lemma size_update_runs fs a ino i n :
  rep fs a -> inv a -> 1 <= ino <= inodes a -> 0 <= n < 2 ^ 32 -> inode_at a ino = Some i -> inode_wf i ->
  runs (if i_size i <? n then put_inode ino (set_size i n) else @mret M M_ret _ tt) fs
    (fun _ fs' => exists a', rep fs' a' /\ inv a' /\ a_sb a' = a_sb a /\ a_bm a' = a_bm a /\ a_ibm a' = a_ibm a /\ a_blk a' = a_blk a /\
       stat a' ino = Some (i_mode i, Z.max (i_size i) n) /\
       (forall ino', ino' <> ino -> inode_at a' ino' = inode_at a ino') /\
       (forall ino' pos, byte a' ino' pos = byte a ino' pos)).
Proof.
  intros Hr Hinv Hi Hn Hat Hwf. case_if.
  - assert (Hwf' : inode_wf (set_size i n)) by by apply set_size_wf.
    eapply runs_mono; [eapply put_inode_runs; [exact Hr|done|exact Hwf']|]. intros [] fs1 Hr1.
    destruct (fields_step a ino i (set_size i n)) as [Hinv' Hby]; try done.
    exists (upd_tab ino (set_size i n) a). split_and!; try done.
    + unfold stat. rewrite inode_at_upd by (done || apply Hinv). rewrite Z.eqb_refl. cbn. do 2 f_equal. lia.
    + intros ino' Hne. rewrite inode_at_upd by (done || apply Hinv). by rewrite (proj2 (Z.eqb_neq _ _)).
  - mstep. exists a. split_and!; try done. unfold stat. rewrite Hat. do 2 f_equal. lia.
Qed.

Lemma inode_stored_ext a a' ino :
  blocks a' = blocks a -> inode_at a' ino = inode_at a ino -> a_blk a' (iblock a ino) = a_blk a (iblock a ino) ->
  inode_stored a ino -> inode_stored a' ino.
Proof.
  intros Hsb Hat Hblk (i&Hi&Hs). exists i. rewrite Hat. split; [done|].
  assert (iblock a' ino = iblock a ino) as -> by (unfold iblock; by rewrite Hsb). by rewrite Hblk.
Qed.

Lemma write_runs fs a ino i off size buf :
  rep fs a -> inv a -> 1 <= ino < inodes a -> inode_at a ino = Some i -> is_dir i = false ->
  0 <= off -> 0 <= size <= Z.of_nat (length buf) -> off + size <= MAX_SIZE ->
  runs (ext2_write alloc ino off size buf) fs (fun w fs' => exists a', rep fs' a' /\
    put_bytes ino off (take (Z.to_nat w) buf) a a' /\ 0 <= w <= size /\ (w < size -> full a') /\
    stat a' ino = Some (i_mode i, Z.max (i_size i) (off + w)) /\ (synced a -> synced a')).
Proof.
  intros Hr Hinv Hi Hat Hdir Hoff Hsize Hmax. assert (Hsm : MAX_SIZE < 2 ^ 32) by done.
  unfold ext2_write. do 2 mstep. rewrite (r_super _ _ Hr). fold (inodes a).
  destruct (Z.leb_spec (inodes a) ino); [lia|].
  muse get_inode_runs giving i0 as (Hat0&Hwf&->); [exact Hr|lia|]. rewrite Hat in Hat0. injection Hat0 as <-. rewrite Hdir.
  rewrite (l_bsize _ (r_layout _ _ Hr)). muse kmalloc_runs as (m&->&Hm&Hr1); [done|exact Hr|lia|].
  muse (write_loop_runs ino off size buf a) giving w as (a1&Hr2&Hls&Hw&Hfull);
    [lia|done|lia|done|exact Hr1| |lia|lia|done|].
  { split; [|done]. split; try done. intros j x. by rewrite aget_take; destruct (j <? 0) eqn:?; bools; [intros Hx%aget_Some_lt; lia|]. }
  destruct Hls as (Hpb&Hst&Hlow). destruct (w_geo _ _ _ _ _ Hpb) as (G1&G2&G3).
  rewrite u64_id, u32_id by lia.
  muse get_inode_runs giving i1 as (Hat1&Hwf1&->); [exact Hr2|lia|].
  assert (Hms : i_mode i1 = i_mode i /\ i_size i1 = i_size i).
  { unfold stat in Hst. rewrite Hat, Hat1 in Hst. by injection Hst. }
  muse size_update_runs as (a2&Hr3&Hinv2&Hsb2&Hbm2&Hib2&Hblk2&Hst2&Htab2&Hby2); [exact Hr2|apply Hpb|lia|lia|done|done|].
  assert (Hg2 : blocks a2 = blocks a1 /\ first a2 = first a1 /\ inodes a2 = inodes a1)
    by (unfold blocks, first, inodes; by rewrite Hsb2).
  eapply runs_mono; [eapply flush_runs; [exact Hr3|done|lia]|].
  intros r0 fs3 (->&a3&Hr4&Hme&Hinv3&Hsync). destruct (meta_step a2 a3 Hinv2 (r_layout _ _ Hr4) Hme) as (_&Hat3&Hby3).
  pose proof Hme as (Hsb3&_&Hib3&_&_). exists a3. split; [done|].
  assert (Hg3 : blocks a3 = blocks a2 /\ first a3 = first a2 /\ inodes a3 = inodes a2)
    by (unfold blocks, first, inodes; by rewrite Hsb3).
  split_and!; try lia.
  - eapply put_bytes_then; [exact Hpb|done|by rewrite Hsb3|by rewrite Hib3| | |done|rewrite length_take; lia].
    + intros. rewrite Hat3. by apply Htab2.
    + intros. rewrite Hby3 by done. by apply Hby2.
  - intros Hlt. specialize (Hfull Hlt). destruct Hme as (_&Hbm3&_).
    unfold full. rewrite Hbm3, Hbm2. destruct Hg2 as (G4&G5&_), Hg3 as (G6&G7&_). rewrite G6, G7, G4, G5. exact Hfull.
  - unfold stat. rewrite Hat3. fold (stat a2 ino). rewrite Hst2. destruct Hms as [-> ->]. done.
  - intros (_&_&Hino). apply Hsync. intros ino' Hr' Hne. apply (inode_stored_ext a); [| | |by apply Hino; lia].
    + lia.
    + rewrite Htab2 by done. by apply Hpb.
    + rewrite Hblk2. apply Hlow. apply iblock_range; [apply Hinv|lia].
Qed.

(** ** Reading *)

(** The tables the read loop has cached are those on disk. *)
Record cache_ok a ino (s : read_state) : Prop := {
  c_block : Z.of_nat (length (r_block s)) = 1024;
  c_ind : forall b, r_ind s = Some b -> b = a_blk a (slot a ino 12);
  c_dind : forall b, r_dind s = Some b -> b = a_blk a (slot a ino 13);
  c_l2 : match r_l2 s with
         | None => r_l2_cached s = 0
         | Some b => Z.of_nat (length b) = 1024 /\ (r_l2_cached s = 0 \/ b = a_blk a (r_l2_cached s))
         end }.

Lemma load_table_runs fs a cached p :
  rep fs a -> 0 <= p < blocks a -> (forall b, cached = Some b -> b = a_blk a p) ->
  runs (load_table alloc cached p) fs (fun o fs' => o = Some (a_blk a p) /\ rep fs' a).
Proof.
  intros Hr Hp Hc. unfold load_table. destruct cached as [t|]; [rewrite (Hc t eq_refl); by mstep|].
  do 2 mstep. rewrite (rep_bsize _ _ Hr). muse kmalloc_runs as (m&->&Hm&Hr1); [done|exact Hr|lia|].
  muse read_block_runs as (->&Hr2); [exact Hr1|done|done|]. by mstep.
Qed.

Lemma get32_word a t i :
  layout a -> 0 <= t < blocks a -> 0 <= i < 256 -> get32 (a_blk a t) (4 * i) = Some (word a t i).
Proof.
  intros Hl Ht Hi. destruct (get32_ok (a_blk a t) i) as [v E]; [by apply l_blk|done|]. unfold word. by rewrite E.
Qed.

Definition same_progress (s s' : read_state) : Prop :=
  r_done s' = r_done s /\ r_out s' = r_out s /\ r_block s' = r_block s.

(** The block of a mapped index is found, through the caches. *)
Lemma read_map_runs fs a ino i bi s :
  rep fs a -> inv a -> inode_at a ino = Some i -> inode_wf i -> 0 <= bi < MAX_BLOCKS ->
  ref a ino (leaf_of bi) <> 0 -> cache_ok a ino s ->
  runs (read_map alloc i 256 bi s) fs (fun r fs' => rep fs' a /\ r.1 = Some (ref a ino (leaf_of bi)) /\
    cache_ok a ino r.2 /\ same_progress s r.2).
Proof.
  intros Hr Hinv Hat Hwf Hbi H0 [C1 C2 C3 C4]. pose proof (i_layout _ Hinv) as Hl. unfold MAX_BLOCKS in Hbi.
  assert (Hslot : forall k, 0 <= k < 15 -> aget (i_block i) k = Some (slot a ino k)).
  { intros k Hk. destruct Hwf as (_&_&_&_&_&_&_&_&[Hbl _]&_). destruct (aget_lt (i_block i) k) as [p E]; [lia|].
    unfold slot. by rewrite Hat, E. }
  assert (Hrange : forall l, loc_ok l -> ref a ino l <> 0 -> 0 <= ref a ino l < blocks a)
    by (intros l Hok Hne; apply in_use_range; [done|by apply i_range]).
  unfold read_map, leaf_of in *. destruct (bi <? 12) eqn:E1; bools.
  { mstep. eapply runs_need; [apply Hslot; lia|]. mstep. split_and!; try done. }
  mstep. eapply runs_need; [apply Hslot; lia|]. mstep. eapply runs_need; [apply Hslot; lia|].
  change (12 + 256) with 268. change (u32 (268 + 256 * 256)) with 65804.
  destruct (bi <? 268) eqn:E2; bools; cbn [andb].
  - cbn [ref] in *. unfold entry in *. destruct (slot a ino 12 =? 0) eqn:E3; bools; [done|]. cbn [negb].
    pose proof (Hrange (Slot 12) ltac:(done) E3) as Hr12. cbn [ref] in Hr12.
    muse load_table_runs as (->&Hr1); [exact Hr|exact Hr12|exact C2|].
    mstep. eapply runs_need; [apply get32_word; try done; lia|]. mstep. split_and!; try done.
    constructor; try done. cbn. congruence.
  - destruct (bi <? 65804) eqn:E5; bools; [|lia]. cbn [andb].
    assert (0 <= (bi - 268) / 256 < 256 /\ 0 <= (bi - 268) mod 256 < 256) as [Hl1 Hl2] by dlia.
    cbn [ref] in *. set (t1 := slot a ino 13) in *. set (t2 := entry a t1 ((bi - 268) / 256)) in *.
    assert (t1 <> 0) as Ht1 by (intros E; unfold t2 in H0; by rewrite E in H0).
    assert (t2 <> 0) as Ht2 by (intros E; by rewrite E in H0).
    pose proof (Hrange (Slot 13) ltac:(done) Ht1) as Hr13. cbn [ref] in Hr13. fold t1 in Hr13.
    pose proof (Hrange (Dind ((bi - 268) / 256)) Hl1 Ht2) as Hr2. cbn [ref] in Hr2. fold t1 t2 in Hr2.
    unfold entry in H0 |- *. rewrite (proj2 (Z.eqb_neq t2 0)) in H0 |- * by done.
    rewrite (proj2 (Z.eqb_neq t1 0)) by done. cbn [negb]. rewrite u32_id by lia.
    replace (bi - 12 - 256) with (bi - 268) by lia. unfold udiv, umod. cbn [Z.eqb].
    do 2 (mstep; eapply runs_need; [done|]).
    muse load_table_runs as (->&Hr3); [exact Hr|exact Hr13|exact C3|].
    mstep. eapply runs_need; [apply get32_word; done|].
    assert (word a t1 ((bi - 268) / 256) = t2) as -> by (unfold t2, entry; by rewrite (proj2 (Z.eqb_neq t1 0))).
    rewrite (proj2 (Z.eqb_neq t2 0)) by done. do 2 mstep. cbn [r_l2 set_dind r_l2_cached].
    rewrite (rep_bsize _ _ Hr3). apply runs_bind.
    eapply runs_mono with (P := fun o fs' => exists b, o = Some b /\ rep fs' a /\ Z.of_nat (length b) = 1024 /\
      (r_l2_cached s = 0 \/ b = a_blk a (r_l2_cached s))).
    { destruct (r_l2 s) as [b|].
      - destruct C4 as [Hb Hc]. mstep. by exists b.
      - eapply runs_mono; [eapply kmalloc_runs; [done|exact Hr3|lia]|]. intros o fs5 (m&->&Hm&Hr4). exists m. auto. }
    intros o fs4 (b&->&Hr4&Hb&Hc). cbn beta iota. cbn [r_l2_cached set_l2 set_dind].
    destruct (r_l2_cached s =? t2) eqn:E6; bools; cbn [negb].
    + destruct Hc as [Hc|Hc]; [congruence|]. mstep. eapply runs_need.
      { rewrite Hc, E6. by apply get32_word. }
      mstep. split_and!; try done. constructor; cbn; try done; [by intros ? [= <-]|]. split; [done|]. by right.
    + muse read_block_runs as (->&Hr5); [exact Hr4|done|done|]. change (0 <? 0) with false. cbn iota.
      mstep. eapply runs_need; [by apply get32_word|]. mstep. split_and!; try done.
      constructor; cbn; try done; [by intros ? [= <-]|]. split; [by apply l_blk|]. by right.
Qed.

(** The first [n] bytes of [out] are the file's from [off] on, the rest is [buf]. *)
Definition got a ino off n (buf out : list Z) : Prop :=
  length out = length buf /\
  forall k, 0 <= k < Z.of_nat (length buf) -> aget out k = if k <? n then byte a ino (off + k) else aget buf k.

Lemma got_more a ino off n buf out chunk src out' p :
  got a ino off n buf out -> 0 <= n -> 0 <= off ->
  p = ref a ino (leaf_of ((off + n) / 1024)) -> p <> 0 -> 0 < chunk <= 1024 - (off + n) mod 1024 ->
  slice (a_blk a p) ((off + n) mod 1024) chunk = Some src -> splice out n src = Some out' ->
  got a ino off (n + chunk) buf out'.
Proof.
  intros [Hlen Hget] Hn Hoff Hp Hp0 Hc Hs Hsp. pose proof (slice_length _ _ _ _ Hs) as Hsl.
  split; [by rewrite (splice_length _ _ _ _ Hsp)|]. intros k Hk.
  destruct (decide (n <= k < n + chunk)) as [Hin|Hout].
  - rewrite (aget_splice_in _ _ _ _ _ Hsp) by lia. rewrite (aget_slice _ _ _ _ _ Hs) by lia.
    destruct (Z.ltb_spec k (n + chunk)); [|lia].
    assert ((off + k) / 1024 = (off + n) / 1024 /\ (off + k) mod 1024 = (off + n) mod 1024 + (k - n)) as [Eq Em]
      by (clear -Hin Hc Hoff Hn; dlia).
    unfold byte. rewrite Eq, Em, <- Hp. by rewrite (proj2 (Z.eqb_neq p 0)).
  - rewrite (aget_splice_out _ _ _ _ _ Hsp) by lia. rewrite Hget by done.
    destruct (Z.ltb_spec k n), (Z.ltb_spec k (n + chunk)); (done || lia).
Qed.

Lemma read_loop_runs a ino i off size buf fuel :
  inv a -> inode_at a ino = Some i -> inode_wf i -> 0 <= off -> size <= Z.of_nat (length buf) ->
  off + size <= MAX_SIZE -> (forall k, 0 <= k < size -> byte a ino (off + k) <> None) ->
  forall fs s, rep fs a -> cache_ok a ino s -> 0 <= r_done s <= size -> size - r_done s < Z.of_nat fuel ->
  got a ino off (r_done s) buf (r_out s) ->
  runs (read_loop alloc fuel i off size s) fs (fun r fs' => rep fs' a /\ r.1 = size /\ got a ino off size buf r.2).
Proof.
  intros Hinv Hat Hwf Hoff Hsize Hmax Hmap. pose proof (i_layout _ Hinv) as Hl.
  assert (Hsm : MAX_SIZE < 2 ^ 32) by done. assert (Hbm : MAX_BLOCKS < 2 ^ 32) by done.
  induction fuel as [|fuel IH]; intros fs s Hr Hc Hd Hf Hg; [lia|]. cbn [read_loop].
  destruct (r_done s <? size) eqn:E; bools.
  2:{ mstep. assert (r_done s = size) as <- by lia. done. }
  assert (Hpos : 0 <= off + r_done s < MAX_SIZE) by lia. pose proof (byte_block _ Hpos) as Hbi.
  do 2 mstep. rewrite (rep_bsize _ _ Hr), u64_id by lia. unfold udiv, umod. cbn [Z.eqb].
  do 2 (mstep; eapply runs_need; [done|]). rewrite u32_id by lia. change (1024 / 4) with 256.
  set (p := ref a ino (leaf_of ((off + r_done s) / 1024))).
  assert (Hp : p <> 0).
  { intros E0. apply (Hmap (r_done s)); [lia|]. unfold byte. fold p. by rewrite E0. }
  assert (Hpr : 0 <= p < blocks a).
  { apply in_use_range; [done|]. apply i_range; [done| |done]. by apply leaf_of_ok. }
  muse read_map_runs giving r as (Hr1&Hr2&Hc2&Hsp1&Hsp2&Hsp3); [exact Hr|done|exact Hat|done|exact Hbi|exact Hp|exact Hc|].
  destruct r as [o s']. cbn [fst snd] in *. subst o. fold p. rewrite Hsp1, Hsp2.
  assert (Hpe : p = ref a ino (leaf_of ((off + r_done s) / 1024))) by done. clearbody p.
  destruct p as [|p|p]; [done| |lia].
  muse read_block_runs as (->&Hr3); [exact Hr1|done|by apply Hc2|].
  assert (Hmod : 0 <= (off + r_done s) mod 1024 < 1024) by (apply Z.mod_pos_bound; lia).
  set (chunk := if 1024 - _ <? size - r_done s then _ else _).
  assert (Hch : 0 < chunk <= 1024 - (off + r_done s) mod 1024 /\ r_done s + chunk <= size) by (subst chunk; case_if; lia).
  pose proof (l_blk _ Hl _ Hpr) as Hlb. pose proof Hg as [Hgl _].
  destruct (slice (a_blk a (Z.pos p)) ((off + r_done s) mod 1024) chunk) as [src|] eqn:Es; [|rewrite slice_ok in Es by lia; done].
  pose proof (slice_length _ _ _ _ Es) as Hsl.
  destruct (splice (r_out s) (r_done s) src) as [out|] eqn:Eo; [|rewrite splice_ok in Eo by lia; done].
  change (0 <? 0) with false. cbn iota. mstep. eapply runs_need; [done|]. mstep. eapply runs_need; [done|].
  eapply IH; [exact Hr3| |cbn; rewrite u64_id by lia; lia|cbn; rewrite u64_id by lia; lia|].
  - destruct Hc2. by constructor.
  - cbn. rewrite u64_id by lia. eapply got_more; [exact Hg|lia|done|exact Hpe|done|lia|done|done].
Qed.

Lemma read_runs fs a ino i off size buf :
  rep fs a -> inv a -> 1 <= ino < inodes a -> inode_at a ino = Some i -> 0 <= off < 2 ^ 32 -> 0 <= size < 2 ^ 63 ->
  let n := Z.max 0 (Z.min size (i_size i - off)) in
  n <= Z.of_nat (length buf) -> off + n <= MAX_SIZE ->
  (forall k, 0 <= k < n -> byte a ino (off + k) <> None) ->
  runs (ext2_read alloc ino off size buf) fs (fun r fs' => rep fs' a /\ r.1 = n /\ got a ino off n buf r.2).
Proof.
  intros Hr Hinv Hi Hat Hoff Hsize n Hn Hmax Hmap. unfold ext2_read. do 2 mstep. rewrite (r_super _ _ Hr).
  fold (inodes a). destruct (Z.leb_spec (inodes a) ino); [lia|].
  muse get_inode_runs giving i0 as (Hat0&Hwf&->); [exact Hr|lia|]. rewrite Hat in Hat0. injection Hat0 as <-.
  assert (Hgot0 : got a ino off 0 buf buf) by (split; [done|]; intros k Hk; by case_if; [lia|]).
  pose proof Hwf as (_&_&Hsz&_). unfold u32_ok in Hsz. case_if.
  { mstep. cbn. assert (n = 0) as -> by lia. done. }
  rewrite u64_id by lia. replace (if i_size i <? off + size then i_size i - off else size) with n
    by (subst n; case_if; lia).
  rewrite (l_bsize _ (r_layout _ _ Hr)). muse kmalloc_runs as (m&->&Hm&Hr1); [done|exact Hr|lia|].
  eapply read_loop_runs; try done; cbn; lia.
Qed.

End Operations.

End Ext2Files.
