(* ===== verification/Ext2Mount.v ===== *)
(** * Ext2Mount: mounting gives back the state that was on disk (kernel/src/ext2_fs.c)

    When the superblock, the bitmaps and the inode table on disk agree with those
    in memory ([synced]), [ext2_mount] on the device rebuilds exactly that state,
    whatever the memory it gets from the allocator held before. *)

From Stdlib Require Import ZArith Lia Bool ZifyBool.
From stdpp Require Import base numbers option list list_numbers.
From S2P Require Import Prelude Ramdisk Ext2 Ext2Alloc Ext2Layer Ext2Files.
Import Ramdisk Ext2 Ext2Alloc Ext2Layer Ext2Files.

Open Scope Z_scope.

Module Ext2Mount.

Section Mount.
Context {X : Type} {dev_ok : ramdisk_device X -> Prop} {image : ramdisk_device X -> list Z}.
Context `{HD : Disk X dev_ok image}.
Context (alloc : nat -> Z -> option (list Z)).
Context (alloc_total : forall k n, 0 <= n -> exists m, alloc k n = Some m /\ Z.of_nat (length m) = n).
Abbreviation FS := (ext2_filesystem (X := X)).
Implicit Types (fs : FS) (a : astate) (dev : ramdisk_device X).

(** The device part of [rep]. *)
Record holds dev a : Prop := {
  h_dev : dev_ok dev;
  h_bs : 0 < block_size dev /\ 1024 mod block_size dev = 0;
  h_len : blocks a * 1024 <= Z.of_nat (length (image dev));
  h_blk : forall n, 0 <= n < blocks a -> slice (image dev) (n * 1024) 1024 = Some (a_blk a n) }.

Lemma rep_holds fs a : rep (dev_ok := dev_ok) (image := image) fs a -> holds (device fs) a.
Proof. intros []. by constructor. Qed.

Lemma udiv_ok x y : y <> 0 -> udiv x y = Some (x / y).
Proof. intros. unfold udiv. by rewrite (proj2 (Z.eqb_neq y 0)). Qed.

(** Reading block [n] through the device. *)
Lemma device_read dev a n buf :
  layout a -> holds dev a -> 0 <= n < blocks a -> Z.of_nat (length buf) = 1024 ->
  exists dev', ramdisk_read dev (n * 1024 / block_size dev) buf 1024 = Some (0, a_blk a n, dev') /\
    holds dev' a /\ block_size dev' = block_size dev.
Proof.
  intros Hlay [Hdev [Hs1 Hs2] Hlen Hblk] Hn Hb.
  destruct (block_sector n (block_size dev)) as (_&Hk&Hk0); [destruct Hlay; lia|done..|].
  destruct (disk_read dev (n * 1024 / block_size dev) buf 1024)
    as (src&buf'&dev'&Hs&Hsp&->&Hok&Himg&Hbs); [done..|lia|lia|done|lia|].
  rewrite Hk, (Hblk n Hn) in Hs. injection Hs as <-. exists dev'. split; [|split; [|done]].
  - pose proof (l_blk _ Hlay n Hn). rewrite splice_ok in Hsp by lia. injection Hsp as <-. simpl.
    by rewrite drop_ge, app_nil_r by lia.
  - constructor; rewrite ?Hbs, ?Himg; done.
Qed.

(** The state of [ext2_mount] while it reads the bitmaps: the superblock is set. *)
Record mounting fs a : Prop := {
  m_layout : layout a;
  m_holds : holds (device fs) a;
  m_super : superblock fs = a_sb a }.

(** The first [i] blocks of the block bitmap have been read into [bm]. *)
Definition bitmap_read a (bm : list Z) (i : Z) : Prop :=
  length bm = length (a_bm a) /\ forall j, 0 <= j < i * 1024 -> aget bm j = aget (a_bm a) j.

Lemma bitmap_read_turn a bm i src bm' :
  layout a -> bitmap_read a bm i -> 0 <= i < bitmap_span (blocks a) ->
  slice (a_bm a) (i * 1024) (bitmap_part (Z.of_nat (length (a_bm a))) i) = Some src ->
  splice bm (i * 1024) src = Some bm' -> bitmap_read a bm' (i + 1).
Proof.
  intros Hl [Hlen Hget] Hi Hs Hsp. pose proof (slice_length _ _ _ _ Hs) as Hsl.
  split; [by rewrite (splice_length _ _ _ _ Hsp)|]. intros j Hj.
  destruct (decide (j < i * 1024)).
  { rewrite (aget_splice_out _ _ _ _ _ Hsp) by lia. apply Hget. lia. }
  destruct (decide (j < i * 1024 + bitmap_part (Z.of_nat (length (a_bm a))) i)).
  - rewrite (aget_splice_in _ _ _ _ _ Hsp), (aget_slice _ _ _ _ _ Hs) by lia. f_equal. lia.
  - rewrite (aget_splice_out _ _ _ _ _ Hsp) by lia. unfold aget. case_if; [|done].
    rewrite !lookup_ge_None_2; [done| |]; unfold bitmap_part in *; rewrite ?Hlen; case_match; bools; lia.
Qed.

Lemma read_bitmap_blocks_runs a fuel : layout a -> bitmaps_stored a -> forall fs i bm block,
  mounting fs a -> 0 <= i <= bitmap_span (blocks a) -> bitmap_span (blocks a) - i < Z.of_nat fuel ->
  bitmap_read a bm i -> Z.of_nat (length block) = 1024 ->
  runs (read_bitmap_blocks fuel i (bitmap_span (blocks a)) (Z.of_nat (length (a_bm a))) bm block) fs
    (fun r fs' => r.1 = a_bm a /\ Z.of_nat (length r.2) = 1024 /\ mounting fs' a).
Proof.
  intros Hl [Hst _]. pose proof (l_first _ Hl) as Hf. pose proof (spans_pos _ Hl) as Hsp.
  pose proof (l_blocks _ Hl) as Hbl. destruct (l_bm _ Hl) as [Hbm _].
  induction fuel as [|fuel IH]; intros fs i bm block Hm Hi Hfu Hrd Hb; [lia|]. cbn [read_bitmap_blocks].
  destruct (i <? bitmap_span (blocks a)) eqn:E; bools.
  - pose proof (bitmap_part_range a i Hl ltac:(lia)) as [Hp1 Hp2].
    assert (bitmap_span (blocks a) < 2 ^ 19) by (unfold bitmap_span; dlia).
    do 4 mstep. rewrite (m_super _ _ Hm), (l_bsize _ Hl).
    rewrite (u32_id (2 + i)), (u32_id ((2 + i) * 1024)), (u64_id (i * 1024)), (u64_id (i * 1024 + 1024)) by lia.
    pose proof (h_bs _ _ (m_holds _ _ Hm)) as [Hs1 Hs2].
    mstep. eapply runs_need; [apply udiv_ok; lia|].
    destruct (device_read (device fs) a (2 + i) block Hl (m_holds _ _ Hm)) as (dev'&Er&Hh&_); [lia|done|].
    mstep. eapply runs_need; [exact Er|]. cbn beta iota. do 2 mstep.
    replace (if _ <? i * 1024 + 1024 then u64 _ else 1024) with (bitmap_part (Z.of_nat (length (a_bm a))) i).
    2:{ unfold bitmap_part in *. case_if; [|done]. by rewrite u64_id by lia. }
    destruct (slice (a_bm a) (i * 1024) (bitmap_part (Z.of_nat (length (a_bm a))) i)) as [src|] eqn:Es;
      [|rewrite slice_ok in Es by lia; done].
    mstep. eapply runs_need; [rewrite Hst by lia; exact Es|]. pose proof (slice_length _ _ _ _ Es) as Hsl.
    destruct Hrd as [Hrl Hrg] eqn:Hrd'. clear Hrd'.
    destruct (splice bm (i * 1024) src) as [bm'|] eqn:Eb; [|rewrite splice_ok in Eb by lia; done].
    mstep. eapply runs_need; [done|]. eapply IH; [|lia|lia| |by apply l_blk; [|lia]].
    + by destruct Hm.
    + by eapply bitmap_read_turn; [done|split; [exact Hrl|exact Hrg]|lia|exact Es|].
  - mstep. split; [|done]. destruct Hrd as [Hrl Hrg]. apply list_eq_aget; [done|]. intros j Hj. apply Hrg.
    assert (i = bitmap_span (blocks a)) as -> by lia. cbn [fst] in Hj. rewrite Hrl in Hj. unfold bitmap_span. clear -Hj Hbm Hbl. dlia.
Qed.

(** The first [i] inodes have been read. *)
Definition table_read a fs (i : Z) : Prop :=
  exists t, inode_table fs = Some t /\ length t = length (a_tab a) /\
    forall j, 0 <= j < i -> aget t j = aget (a_tab a) j.

Lemma read_table_runs a fuel : layout a -> (forall ino, 1 <= ino <= inodes a -> inode_stored a ino) ->
  forall fs i last block,
  mounting fs a -> block_bitmap fs = Some (a_bm a) -> inode_bitmap fs = Some (a_ibm a) ->
  table_read a fs i -> 0 <= i <= inodes a -> inodes a - i < Z.of_nat fuel ->
  Z.of_nat (length block) = 1024 -> last = 4294967295 \/ (0 <= last < blocks a /\ block = a_blk a last) ->
  runs (read_table fuel i (inodes a) (3 + bitmap_span (blocks a)) last block) fs
    (fun _ fs' => rep (dev_ok := dev_ok) (image := image) fs' a).
Proof.
  intros Hl Hst. pose proof (l_first _ Hl) as Hf. pose proof (l_blocks _ Hl) as Hbl.
  pose proof (l_inodes _ Hl) as Hin. pose proof (l_tab _ Hl) as Htl.
  induction fuel as [|fuel IH]; intros fs i last block Hm Hbb Hib (t&Ht&Hlen&Hget) Hi Hfu Hb Hlast; [lia|].
  cbn [read_table]. destruct (i <? inodes a) eqn:E; bools.
  - pose proof (iblock_range a (i + 1) Hl ltac:(lia)) as Hibr.
    do 4 mstep. rewrite (m_super _ _ Hm), (l_bsize _ Hl). unfold udiv, umod, INODE_SIZE. cbn [Z.eqb].
    do 2 (mstep; eapply runs_need; [done|]).
    assert (u32 (3 + bitmap_span (blocks a) + i * 256 / 1024) = iblock a (i + 1)) as ->.
    { unfold iblock in *. replace (i * 256 / 1024) with ((i + 1 - 1) / 4) by (clear; dlia). rewrite u32_id by lia. lia. }
    pose proof (h_bs _ _ (m_holds _ _ Hm)) as [Hs1 Hs2].
    apply runs_bind. eapply runs_mono with (P := fun b fs' => b = a_blk a (iblock a (i + 1)) /\ mounting fs' a /\
      block_bitmap fs' = Some (a_bm a) /\ inode_bitmap fs' = Some (a_ibm a) /\ inode_table fs' = Some t).
    { destruct (iblock a (i + 1) =? last) eqn:El; bools; cbn [negb].
      - mstep. destruct Hlast as [->|[_ ->]]; [lia|]. by rewrite El.
      - rewrite (u32_id (_ * 1024)).
        2:{ assert (bitmap_span (blocks a) < 2 ^ 19) by (unfold bitmap_span; dlia). unfold iblock in *. dlia. }
        mstep. eapply runs_need; [rewrite (proj2 (Z.eqb_neq _ 0)) by lia; done|].
        destruct (device_read (device fs) a (iblock a (i + 1)) block Hl (m_holds _ _ Hm)) as (dev'&Er&Hh&_); [lia|done|].
        mstep. eapply runs_need; [exact Er|]. cbn beta iota. do 3 mstep. split_and!; try done. by destruct Hm. }
    intros b fs1 (->&Hm1&Hbb1&Hib1&Ht1). cbn beta.
    destruct (Hst (i + 1)) as (ind&Hind&Hsl); [lia|]. unfold inode_at in Hind. replace (i + 1 - 1) with i in Hind by lia.
    assert (i * 256 mod 1024 = ioff (i + 1)) as -> by (unfold ioff; replace (i + 1 - 1) with i by lia; clear; dlia).
    mstep. eapply runs_need; [exact Hsl|]. do 2 mstep. rewrite Ht1. mstep. eapply runs_need; [done|].
    assert (Hwf : inode_wf ind).
    { unfold aget in Hind. destruct (0 <=? i); [|done]. by apply (Forall_lookup_1 _ _ _ _ (l_wf _ Hl) Hind). }
    rewrite inode_of_bytes by done. mstep. eapply runs_need; [apply aset_ok; lia|]. do 2 mstep.
    eapply IH; try done; [by destruct Hm1| |lia|lia|apply l_blk; [done|lia]|right; split; [lia|done]].
    eexists. split; [done|]. split; [by rewrite length_insert|]. intros j Hj. rewrite aget_insert by lia.
    case_decide; [by subst|]. apply Hget. lia.
  - mstep. destruct Hm as [_ [] ?]. constructor; try done. rewrite Ht. f_equal. apply list_eq_aget; [done|].
    intros j Hj. apply Hget. lia.
Qed.

(** What [ext2_mount] requires of the superblock to keep it as it is. *)
Definition mountable a : Prop :=
  magic (a_sb a) = EXT2_MAGIC /\ log_block_size (a_sb a) = 0 /\ version (a_sb a) = 1.

Lemma field_prefix (l l' : list Z) off n len :
  slice l 0 len = Some l' -> Z.of_nat (off + n) <= len -> field l off n = field l' off n.
Proof.
  intros (_&_&Hb&->)%slice_Some Hle. unfold field. simpl. rewrite drop_0, !take_drop_commute, take_take.
  f_equal. f_equal. lia.
Qed.

Lemma super_of_block a : layout a -> super_stored a -> super_of (a_blk a 1) = a_sb a.
Proof.
  intros Hl Hs. rewrite <- (super_of_bytes (a_sb a)) by apply Hl.
  assert (Hf : forall off n, (off + n <= 1016)%nat -> field (a_blk a 1) off n = field (super_bytes (a_sb a)) off n)
    by (intros off n Hle; eapply field_prefix; [exact Hs|lia]).
  unfold super_of. by rewrite !Hf by lia.
Qed.

Lemma table_of_length m n : 0 <= n -> Z.of_nat (length m) = n * 256 -> Z.of_nat (length (table_of m)) = n.
Proof.
  intros Hn Hm. unfold table_of. rewrite length_fmap, length_seq.
  rewrite Nat2Z.inj_div, Hm. change (Z.of_nat 256) with 256. by rewrite Z.div_mul by lia.
Qed.

Lemma kmalloc_any fs n :
  0 <= n -> runs (kmalloc alloc n) fs (fun o fs' => exists m, o = Some m /\ Z.of_nat (length m) = n /\
    fs' = set_tick (S (tick fs)) fs).
Proof.
  intros Hn. destruct (alloc_total (tick fs) n Hn) as (m&E&Hm). exists (alloc (tick fs) n). eexists.
  split; [done|]. by exists m.
Qed.

Lemma same_super_mountable a a' : same_super a a' -> mountable a -> mountable a'.
Proof.
  unfold same_super, mountable. intros E (H1&H2&H3).
  rewrite <- H1, <- H2, <- H3. destruct (a_sb a), (a_sb a'). cbn in *. by simplify_eq.
Qed.

Lemma mount_runs fs a sb_buffer :
  layout a -> holds (device fs) a -> synced a -> mountable a -> Z.of_nat (length sb_buffer) = 1024 ->
  runs (ext2_mount alloc sb_buffer) fs (fun r fs' => r = 0 /\ rep (dev_ok := dev_ok) (image := image) fs' a).
Proof.
  intros Hl Hh (Hss&Hbs&Hts) (Hmag&Hlog&Hver) Hsb. pose proof (l_first _ Hl) as Hf. pose proof (spans_pos _ Hl) as Hsp.
  pose proof (l_blocks _ Hl) as Hbl. pose proof (l_inodes _ Hl) as Hin. destruct (l_bm _ Hl) as [Hbm _].
  destruct (l_ibm _ Hl) as [Hibm _]. pose proof (h_bs _ _ Hh) as [Hs1 Hs2].
  assert (Hspan : bitmap_span (blocks a) < 2 ^ 19) by (unfold bitmap_span; dlia).
  assert (Hk1 : 1 <= 1024 / block_size (device fs)).
  { apply Z.div_le_lower_bound; [done|]. apply Z.mod_divide in Hs2 as [k Hk]; [|lia]. assert (0 < k) by nia. clear -Hk H Hs1. nia. }
  unfold ext2_mount. do 4 mstep. cbn [device]. mstep. eapply runs_need; [by apply udiv_ok; lia|].
  rewrite (proj2 (Z.eqb_neq (1024 / block_size (device fs)) 0)) by lia.
  destruct (device_read (device fs) a 1 sb_buffer Hl Hh) as (dev1&Er&Hh1&Hbs1); [lia|done|].
  mstep. eapply runs_need; [exact Er|]. cbn beta iota. do 2 mstep. change (0 <? 0) with false. cbn iota zeta.
  rewrite super_of_block by done. rewrite Hmag, Hlog. cbn [Z.eqb negb]. change (EXT2_MAGIC =? EXT2_MAGIC) with true. cbn [negb].
  mstep. eapply runs_need; [done|]. change (u32 (u64 (Z.shiftl 1024 0))) with 1024.
  set (sb := mk_super (inodes_count (a_sb a)) _ _ _ _ _ _ _ _ _ _ _ _ _ _).
  assert (sb = a_sb a) as ->.
  { subst sb. pose proof (l_bsize _ Hl) as Hbsz. destruct (a_sb a). cbn in *. congruence. }
  fold (blocks a) (inodes a). rewrite (u32_id (blocks a + 7)), (u32_id (inodes a + 7)) by lia.
  rewrite <- Hbm, <- Hibm. do 2 mstep.
  muse kmalloc_any as (bb&->&Hbb&->); [lia|]. muse kmalloc_any as (ib&->&Hib&->); [lia|]. do 4 mstep.
  muse kmalloc_any as (blk&->&Hblk&->); [lia|]. mstep. eapply runs_need; [by apply bitmap_blocks_ok|].
  muse (read_bitmap_blocks_runs a) giving r as (Hr1&Hr2&Hm1);
    [done|done|by constructor|lia|lia|split; [lia|intros; lia]|done|].
  destruct r as [bm block]. cbn [fst snd] in *. subst bm. do 4 mstep. cbn [device set_bb].
  pose proof (m_holds _ _ Hm1) as Hh2. pose proof (h_bs _ _ Hh2) as [Hs3 Hs4].
  rewrite (u32_id (2 + _)), (u32_id (_ * 1024)) by lia.
  mstep. eapply runs_need; [apply udiv_ok; lia|].
  destruct (device_read _ a (2 + bitmap_span (blocks a)) block Hl Hh2) as (dev3&Er3&Hh3&Hbs3); [lia|done|].
  mstep. eapply runs_need; [exact Er3|]. cbn beta iota. do 2 mstep. destruct Hbs as [_ Hist].
  mstep. eapply runs_need; [exact Hist|]. mstep. eapply runs_need; [rewrite splice_ok by lia; done|].
  simpl take. rewrite drop_ge, app_nil_r by lia. do 2 mstep. rewrite (u32_id (inodes a * INODE_SIZE)) by (unfold INODE_SIZE; lia).
  muse kmalloc_any as (tb&->&Htb&->); [unfold INODE_SIZE; lia|]. do 2 mstep.
  muse kmalloc_any as (tblk&->&Htblk&->); [lia|]. rewrite u32_id by lia.
  replace (2 + bitmap_span (blocks a) + 1) with (3 + bitmap_span (blocks a)) by lia.
  muse (read_table_runs a) as Hrep;
    [done|exact Hts|by destruct Hm1|done|done| |lia|lia|done|by left|].
  - eexists. split; [done|]. split; [|intros; lia]. apply Nat2Z.inj.
    rewrite (table_of_length _ (inodes a)), (l_tab _ Hl) by (unfold INODE_SIZE in *; lia). done.
  - by mstep.
Qed.

End Mount.
End Ext2Mount.
