(* ===== verification/Ext2Props.v ===== *)
(** * Ext2Props: what the file system promises (kernel/src/ext2_fs.c)

    The properties of reading, writing and mounting on any disk, and a checker
    that decides the invariants of a concrete file system, by which a freshly
    formatted memory disk is seen to satisfy them.  Executions on such disks show
    where the code does not do what it means to. *)

From Stdlib Require Import ZArith Lia Bool ZifyBool.
From stdpp Require Import base numbers option list list_numbers.
From S2P Require Import Prelude Ramdisk Ext2 Ext2Alloc Ext2Layer Ext2Files Ext2Mount.
Import Ramdisk Ext2 Ext2Alloc Ext2Layer Ext2Files Ext2Mount.

Open Scope Z_scope.

Module Ext2Props.

(** ** A checker for concrete memory disks *)

Section Checker.
Context (fs : ext2_filesystem (X := unit)).

(** The abstract state a concrete one stands for. *)
Definition a_of : astate :=
  mk_a (superblock fs) (default [] (block_bitmap fs)) (default [] (inode_bitmap fs)) (default [] (inode_table fs))
    (fun n => default [] (slice (mem_image (device fs)) (n * 1024) 1024)).

#[local] Instance super_wf_dec s : Decision (super_wf s).
Proof. unfold super_wf, u32_ok, u16_ok. apply _. Defined.
#[local] Instance inode_wf_dec i : Decision (inode_wf i).
Proof. unfold inode_wf, u32_ok, u16_ok. apply _. Defined.
#[local] Instance bitmap_ok_dec bm n : Decision (bitmap_ok bm n).
Proof. unfold bitmap_ok, byte_ok. apply _. Defined.

Definition check_layout (a : astate) : bool :=
  bool_decide (super_wf (a_sb a)) && bool_decide (bsize (a_sb a) = 1024) && bool_decide (0 < blocks a < 2 ^ 31) &&
  bool_decide (0 < inodes a <= 8192) &&
  bool_decide (3 + bitmap_span (blocks a) + table_span (inodes a) <= first a <= blocks a) &&
  bool_decide (bitmap_ok (a_bm a) (blocks a)) && bool_decide (bitmap_ok (a_ibm a) (inodes a)) &&
  bool_decide (Z.of_nat (length (a_tab a)) = inodes a) && bool_decide (Forall inode_wf (a_tab a)) &&
  forallb (fun n => Z.of_nat (length (a_blk a n)) =? 1024) (seqZ 0 (blocks a)).

Lemma check_layout_sound a : check_layout a = true -> layout a.
Proof.
  unfold check_layout. intros H. repeat (apply andb_true_iff in H as [H ?]).
  repeat match goal with H : bool_decide _ = true |- _ => apply bool_decide_eq_true in H end.
  constructor; try done. intros n Hn. rewrite forallb_forall in H0. apply Z.eqb_eq, H0.
  apply list_elem_of_In, elem_of_seqZ. lia.
Qed.

(** The slots that hold a pointer. *)
Definition used_slots (a : astate) : list (Z * Z) :=
  filter (fun '(ino, k) => slot a ino k <> 0) (ino ← seqZ 1 (inodes a); k ← seqZ 0 14; [(ino, k)]).

Definition slot_value (a : astate) (ik : Z * Z) : Z := slot a ik.1 ik.2.

Definition check_pointers (a : astate) : bool :=
  forallb (fun ik => (ik.2 <? 12) && (first a <=? slot_value a ik) && (slot_value a ik <? blocks a) &&
                     bit_set (a_bm a) (slot_value a ik)) (used_slots a) &&
  bool_decide (NoDup (slot_value a <$> used_slots a)).

Lemma used_slots_spec a ino k :
  layout a -> 0 <= k < 14 -> slot a ino k <> 0 -> (ino, k) ∈ used_slots a.
Proof.
  intros Hl Hk Hs. apply list_elem_of_filter. split; [done|].
  apply list_elem_of_bind. exists ino. split.
  - apply list_elem_of_bind. exists k. split; [by left|]. apply elem_of_seqZ. lia.
  - apply elem_of_seqZ. unfold slot in Hs. destruct (inode_at a ino) as [i|] eqn:E; [|done].
    unfold inode_at in E. apply aget_Some_lt in E. pose proof (l_tab _ Hl). lia.
Qed.

Lemma NoDup_fmap_inj {A B} (f : A -> B) (l : list A) x y :
  NoDup (f <$> l) -> x ∈ l -> y ∈ l -> f x = f y -> x = y.
Proof.
  intros Hnd [i Hi]%list_elem_of_lookup [j Hj]%list_elem_of_lookup E.
  assert (i = j) as ->; [|congruence].
  eapply (NoDup_lookup _ _ _ (f x)); [done|by rewrite list_lookup_fmap, Hi|by rewrite list_lookup_fmap, Hj, E].
Qed.

Lemma check_pointers_sound a : layout a -> check_pointers a = true -> inv a.
Proof.
  intros Hl [Hall Hnd]%andb_true_iff. apply bool_decide_eq_true in Hnd. rewrite forallb_forall in Hall.
  assert (Hslot : forall ino k, 0 <= k < 14 -> slot a ino k <> 0 ->
    (ino, k) ∈ used_slots a /\ k < 12 /\ in_use a (slot a ino k)).
  { intros ino k Hk Hs. pose proof (used_slots_spec a ino k Hl Hk Hs) as Hin. split; [done|].
    apply list_elem_of_In in Hin as Hin'. specialize (Hall _ Hin'). bools. by cbn in *. }
  assert (Hleaf : forall ino l, loc_ok l -> ref a ino l <> 0 -> exists k, l = Slot k).
  { intros ino [k|i|i|i j] Hok Hr; cbn in Hr; [by exists k| | |]; exfalso; apply Hr; unfold entry.
    - destruct (decide (slot a ino 12 = 0)) as [->|Hn]; [done|]. destruct (Hslot ino 12 ltac:(lia) Hn) as (_&?&_). lia.
    - destruct (decide (slot a ino 13 = 0)) as [->|Hn]; [done|]. destruct (Hslot ino 13 ltac:(lia) Hn) as (_&?&_). lia.
    - destruct (decide (slot a ino 13 = 0)) as [->|Hn]; [done|]. destruct (Hslot ino 13 ltac:(lia) Hn) as (_&?&_). lia. }
  constructor; [done| |].
  - intros ino l Hok Hr. destruct (Hleaf _ _ Hok Hr) as [k ->]. by apply Hslot.
  - intros ino l ino' l' Hok Hok' E Hr. destruct (Hleaf _ _ Hok Hr) as [k ->].
    rewrite E in Hr. destruct (Hleaf _ _ Hok' Hr) as [k' ->]. cbn in E, Hr, Hok, Hok'.
    destruct (Hslot ino' k') as [Hin' _]; [done|done|]. rewrite <- E in Hr. destruct (Hslot ino k) as [Hin _]; [done|done|].
    by pose proof (NoDup_fmap_inj _ _ (ino, k) (ino', k') Hnd Hin Hin' E); simplify_eq.
Qed.

Definition check_synced (a : astate) : bool :=
  bool_decide (slice (a_blk a 1) 0 1016 = Some (super_bytes (a_sb a))) &&
  forallb (fun k => bool_decide (slice (a_blk a (2 + k)) 0 (bitmap_part (Z.of_nat (length (a_bm a))) k) =
                                 slice (a_bm a) (k * 1024) (bitmap_part (Z.of_nat (length (a_bm a))) k)))
    (seqZ 0 (bitmap_span (blocks a))) &&
  bool_decide (slice (a_blk a (2 + bitmap_span (blocks a))) 0 (Z.of_nat (length (a_ibm a))) = Some (a_ibm a)) &&
  forallb (fun ino => match inode_at a ino with
                      | Some i => bool_decide (slice (a_blk a (iblock a ino)) (ioff ino) 256 = Some (inode_bytes i))
                      | None => false
                      end) (seqZ 1 (inodes a)).

Lemma check_synced_sound a : check_synced a = true -> synced a.
Proof.
  unfold check_synced. intros [[[H1 H2]%andb_true_iff H3]%andb_true_iff H4]%andb_true_iff.
  apply bool_decide_eq_true in H1, H3. rewrite forallb_forall in H2, H4. split; [done|]. split; [split; [|done]|].
  - intros k Hk. eapply bool_decide_eq_true_1, H2. apply list_elem_of_In, elem_of_seqZ. lia.
  - intros ino Hi. specialize (H4 ino). destruct (inode_at a ino) as [i|] eqn:E.
    + exists i. split; [done|]. eapply bool_decide_eq_true_1, H4. apply list_elem_of_In, elem_of_seqZ. lia.
    + discriminate H4. apply list_elem_of_In, elem_of_seqZ. lia.
Qed.

(** The device is a memory disk that can hold the file system. *)
Definition check_device : bool :=
  match data (device fs), read_fn (device fs), write_fn (device fs) with
  | Some d, None, None =>
      (0 <? block_size (device fs)) && (1024 mod block_size (device fs) =? 0) &&
      (Z.of_nat (length d) =? block_count (device fs) * block_size (device fs)) &&
      (block_count (device fs) * block_size (device fs) <? 2 ^ 64) &&
      (blocks_count (superblock fs) * 1024 <=? Z.of_nat (length d))
  | _, _, _ => false
  end.

Definition check_memory : bool :=
  match block_bitmap fs, inode_bitmap fs, inode_table fs with Some _, Some _, Some _ => true | _, _, _ => false end.

Definition check : bool :=
  check_device && check_memory && check_layout a_of && check_pointers a_of && check_synced a_of &&
  (magic (superblock fs) =? EXT2_MAGIC) && (log_block_size (superblock fs) =? 0) && (version (superblock fs) =? 1).

Lemma check_sound :
  check = true -> rep (dev_ok := mem_ok) (image := mem_image) fs a_of /\ inv a_of /\ synced a_of /\ mountable a_of.
Proof.
  unfold check, check_device, check_memory.
  destruct (data (device fs)) as [d|] eqn:Ed; [|done]. destruct (read_fn (device fs)) eqn:Er; [done|].
  destruct (write_fn (device fs)) eqn:Ew; [done|].
  destruct (block_bitmap fs) as [bm|] eqn:Ebm; [|by rewrite andb_false_r].
  destruct (inode_bitmap fs) as [ibm|] eqn:Eibm; [|by rewrite andb_false_r].
  destruct (inode_table fs) as [tab|] eqn:Etab; [|by rewrite andb_false_r].
  intros H. bools. pose proof (check_layout_sound _ H5) as Hl.
  split; [|split; [by apply check_pointers_sound|split; [by apply check_synced_sound|done]]].
  assert (Himg : mem_image (device fs) = d) by (unfold mem_image; by rewrite Ed).
  constructor; try done.
  - unfold mem_ok. rewrite Himg. split_and!; try done. by exists d.
  - rewrite Himg. unfold blocks. cbn. lia.
  - cbn. by rewrite Ebm.
  - cbn. by rewrite Eibm.
  - cbn. by rewrite Etab.
  - intros n Hn. cbn. unfold blocks in Hn. cbn in Hn. rewrite Himg. rewrite slice_ok by lia. done.
Qed.
End Checker.

(** ** Memory disks *)

(** An allocator whose memory holds rubbish. *)
Definition junk : nat -> Z -> option (list Z) := fun _ n => Some (replicate (Z.to_nat n) 170).

Lemma junk_total k n : 0 <= n -> exists m, junk k n = Some m /\ Z.of_nat (length m) = n.
Proof. intros Hn. eexists. split; [done|]. rewrite length_replicate. lia. Qed.

(** A blank memory disk of [n] kilobytes with sectors of 512 bytes. *)
Definition blank (n : Z) : ext2_filesystem (X := unit) :=
  mk_fs (mk_dev (Some (replicate (Z.to_nat (n * 1024)) 0)) (n * 1024) 512 (n * 2) None None tt)
    zero_super None None None 0.

Definition formatted (n : Z) : ext2_filesystem (X := unit) :=
  match ext2_format junk (blank n) with Some (_, fs) => fs | None => blank n end.

(** ** Properties *)

Section Properties.
Context {X : Type} {dev_ok : ramdisk_device X -> Prop} {image : ramdisk_device X -> list Z}.
Context `{HD : Disk X dev_ok image}.
Context (alloc : nat -> Z -> option (list Z)).
Context (alloc_total : forall k n, 0 <= n -> exists m, alloc k n = Some m /\ Z.of_nat (length m) = n).
Abbreviation FS := (ext2_filesystem (X := X)).
Abbreviation rep := (rep (dev_ok := dev_ok) (image := image)).
Implicit Types (fs : FS) (a : astate).

(** Two buffers that hold the same bytes of a file are equal. *)
Lemma got_eq a a' ino off n buf out out' :
  (forall k, 0 <= k < n -> byte a' ino (off + k) = byte a ino (off + k)) ->
  got a ino off n buf out -> got a' ino off n buf out' -> out' = out.
Proof.
  intros Hb [Hl Hg] [Hl' Hg']. apply list_eq_aget; [lia|]. intros k Hk. rewrite Hg, Hg' by lia.
  case_if; [apply Hb; lia|done].
Qed.


(** [ext2_read] on any disk.  From a state that satisfies the invariants, when
    every byte of the range up to the file's size lies in a mapped block, it
    returns min(size, file size - offset) (0 past the end) and puts exactly those
    bytes of the file at the front of the buffer, through the direct, indirect and
    double-indirect tables alike; the file system's state is unchanged. *)
Theorem ext2_read_contents fs a ino i off size buf :
  rep fs a -> inv a -> 1 <= ino < inodes a -> inode_at a ino = Some i -> 0 <= off < 2 ^ 32 -> 0 <= size < 2 ^ 63 ->
  let n := Z.max 0 (Z.min size (i_size i - off)) in
  n <= Z.of_nat (length buf) -> off + n <= MAX_SIZE ->
  (forall k, 0 <= k < n -> byte a ino (off + k) <> None) ->
  exists out fs', ext2_read alloc ino off size buf fs = Some ((n, out), fs') /\ rep fs' a /\
    length out = length buf /\
    forall k, 0 <= k < Z.of_nat (length buf) -> aget out k = if k <? n then byte a ino (off + k) else aget buf k.
Proof.
  intros Hr Hinv Hi Hat Hoff Hsize n Hn Hmax Hmap.
  destruct (read_runs alloc alloc_total fs a ino i off size buf) as ([r out]&fs'&E&Hr'&Hr1&Hg); try done.
  cbn in *. subst r. exists out, fs'. done.
Qed.

(** Mounting gives back what was on disk: if the superblock, bitmaps and inode
    table on the device agree with a state, [ext2_mount] on that device rebuilds
    that state from any memory, and so every file has the bytes it had. *)
Theorem ext2_mount_restores fs fs2 a sb_buffer :
  rep fs a -> synced a -> mountable a -> device fs2 = device fs -> Z.of_nat (length sb_buffer) = 1024 ->
  exists fs3, ext2_mount alloc sb_buffer fs2 = Some (0, fs3) /\ rep fs3 a.
Proof.
  intros Hr Hsy Hm Hdev Hb.
  destruct (mount_runs alloc alloc_total fs2 a sb_buffer) as (r&fs3&E&->&Hr3); try done; [apply Hr|..].
  - rewrite Hdev. by apply rep_holds.
  - by exists fs3.
Qed.

(** Bytes that were put in a file can be read back. *)
Lemma read_back fs a0 a ino mode old off buf out :
  rep fs a -> put_bytes ino off buf a0 a -> 1 <= ino < inodes a -> stat a ino = Some (mode, Z.max old (off + Z.of_nat (length buf))) ->
  0 <= off -> off + Z.of_nat (length buf) <= MAX_SIZE -> length out = length buf ->
  exists fs', ext2_read alloc ino off (Z.of_nat (length buf)) out fs = Some ((Z.of_nat (length buf), buf), fs').
Proof.
  intros Hr Hpb Hi Hst Hoff Hmax Hout. assert (Hsm : MAX_SIZE < 2 ^ 32) by done. set (size := Z.of_nat (length buf)) in *.
  unfold stat in Hst. destruct (inode_at a ino) as [i|] eqn:Hat; [|done]. injection Hst as Hmd Hsz.
  assert (Hn : Z.max 0 (Z.min size (i_size i - off)) = size) by lia. assert (Hd := w_data _ _ _ _ _ Hpb).
  assert (Hrd := read_runs alloc alloc_total fs a ino i off size out Hr (w_inv _ _ _ _ _ Hpb) Hi Hat ltac:(lia) ltac:(lia)).
  cbn zeta in Hrd. rewrite Hn in Hrd. destruct Hrd as ([n out']&fs4&Er&_&Hr4&Hl&Hg); [lia|lia| |].
  - intros k Hk. destruct (aget_lt buf k) as [x Hx]; [lia|]. by rewrite (Hd k x Hx).
  - cbn in *. subst n. exists fs4. rewrite Er. do 3 f_equal. apply list_eq_aget; [lia|]. intros k Hk.
    rewrite Hg by lia. destruct (Z.ltb_spec k size); [|lia].
    destruct (aget_lt buf k) as [x Hx]; [lia|]. by rewrite Hx, (Hd k x Hx).
Qed.

(** C3: Written data survives a remount and touches no other file.  After a
    complete [ext2_write], mounting the device from scratch and reading the same
    range returns the data written; and reading any other file's mapped range
    returns what it would have returned before the write. *)
Theorem ext2_write_remount_read fs a ino i off size buf fs1 fs2 sb_buffer :
  rep fs a -> inv a -> synced a -> mountable a ->
  1 <= ino < inodes a -> inode_at a ino = Some i -> is_dir i = false ->
  0 <= off -> 0 <= size -> Z.of_nat (length buf) = size -> off + size <= MAX_SIZE ->
  ext2_write alloc ino off size buf fs = Some (size, fs1) ->
  device fs2 = device fs1 -> Z.of_nat (length sb_buffer) = 1024 ->
  exists fs3, ext2_mount alloc sb_buffer fs2 = Some (0, fs3) /\
    (forall out, length out = length buf ->
       exists fs4, ext2_read alloc ino off size out fs3 = Some ((size, buf), fs4)) /\
    (forall ino' i' off' size' out, ino' <> ino -> 1 <= ino' < inodes a -> inode_at a ino' = Some i' ->
       0 <= off' < 2 ^ 32 -> 0 <= size' < 2 ^ 63 ->
       let n := Z.max 0 (Z.min size' (i_size i' - off')) in
       n <= Z.of_nat (length out) -> off' + n <= MAX_SIZE ->
       (forall k, 0 <= k < n -> byte a ino' (off' + k) <> None) ->
       exists out' fsa fsb, ext2_read alloc ino' off' size' out fs = Some ((n, out'), fsa) /\
         ext2_read alloc ino' off' size' out fs3 = Some ((n, out'), fsb)).
Proof.
  intros Hr Hinv Hsy Hmt Hi Hat Hdir Hoff Hs0 Hbl Hmax Ew Hdev Hsb. assert (Hsm : MAX_SIZE < 2 ^ 32) by done.
  assert (Hw := write_runs alloc alloc_total fs a ino i off size buf Hr Hinv Hi Hat Hdir Hoff ltac:(lia) Hmax).
  destruct (runs_inv _ _ _ _ _ Hw Ew) as (a1&Hr1&Hpb&_&_&Hst&Hsy1).
  rewrite take_ge in Hpb by lia. pose proof (w_geo _ _ _ _ _ Hpb) as (_&_&Hin1).
  assert (Hm := mount_runs alloc alloc_total fs2 a1 sb_buffer (r_layout _ _ Hr1)
    ltac:(rewrite Hdev; by apply rep_holds) (Hsy1 Hsy) (same_super_mountable _ _ (w_super _ _ _ _ _ Hpb) Hmt) Hsb).
  destruct Hm as (r&fs3&Em&->&Hr3). exists fs3. split; [done|]. split.
  - intros out Hout. rewrite <- Hbl in *. by eapply (read_back fs3 a a1 ino (i_mode i) (i_size i)); [exact Hr3|..]; rewrite ?Hin1.
  - intros ino' i' off' size' out Hne Hi' Hat' Hoff' Hsz' n Hn Hmax' Hmap.
    assert (Hsame : forall k, 0 <= k < n -> byte a1 ino' (off' + k) = byte a ino' (off' + k))
      by (intros; apply Hpb; [done|lia]).
    destruct (read_runs alloc alloc_total fs a ino' i' off' size' out) as ([r out1]&fsa&Ea&_&Hra&Hga); try done.
    destruct (read_runs alloc alloc_total fs3 a1 ino' i' off' size' out) as ([r' out2]&fsb&Eb&_&Hrb&Hgb); try done.
    + apply Hpb.
    + by rewrite Hin1.
    + rewrite (w_tab _ _ _ _ _ Hpb) by done. done.
    + intros k Hk. rewrite Hsame by done. by apply Hmap.
    + cbn in *. subst r r'. exists out1, fsa, fsb. split; [done|]. rewrite Eb. do 3 f_equal.
      by eapply got_eq.
Qed.

End Properties.

(** ** Format, and executions on memory disks *)

Definition good_fs (fs : ext2_filesystem) : Prop :=
  rep (dev_ok := mem_ok) (image := mem_image) fs (a_of fs) /\ inv (a_of fs) /\ synced (a_of fs) /\ mountable (a_of fs).

Lemma format_checked n :
  match ext2_format junk (blank n) with Some (r, fs) => (r =? 0) && check fs | None => false end = true ->
  ext2_format junk (blank n) = Some (0, formatted n) /\ good_fs (formatted n).
Proof.
  unfold formatted. destruct (ext2_format junk (blank n)) as [[r fs]|]; [|done].
  intros E. bools. subst r. split; [done|by apply check_sound].
Qed.

(** A 16 KB disk has the inodes 1 to 4; 2 is the root, 3 is free and no directory. *)
Lemma demo_format : ext2_format junk (blank 16) = Some (0, formatted 16) /\ good_fs (formatted 16).
Proof. apply format_checked. vm_compute. reflexivity. Qed.

(** A 64 KB disk has the directories home, bin and etc and two files in the last. *)
Lemma demo64_format : ext2_format junk (blank 64) = Some (0, formatted 64) /\ good_fs (formatted 64).
Proof. apply format_checked. vm_compute. reflexivity. Qed.

(** [ext2_format] on blank memory disks of 16 and 64 kilobytes returns 0 and
    leaves a file system that satisfies the invariants: pointers into the data
    area, each block used once and marked used, metadata on disk equal to memory. *)
Theorem ext2_format_establishes :
  Forall (fun n => ext2_format junk (blank n) = Some (0, formatted n) /\ good_fs (formatted n)) [16; 64].
Proof. apply Forall_cons. split; [apply demo_format|]. apply Forall_cons. split; [apply demo64_format|apply Forall_nil_2]. Qed.

Lemma demo_good : good_fs (formatted 16).
Proof. apply demo_format. Qed.

Definition demo_inode (n : Z) : ext2_inode := default zero_inode (inode_at (a_of (formatted 16)) n).

Lemma demo_at n : 1 <= n <= 4 -> inode_at (a_of (formatted 16)) n = Some (demo_inode n).
Proof.
  intros Hn. destruct demo_good as (Hr&_). destruct (inode_at_Some (a_of (formatted 16)) n) as (i&E&_).
  - apply Hr.
  - replace (inodes (a_of (formatted 16))) with 4 by (vm_compute; reflexivity). done.
  - unfold demo_inode. by rewrite E.
Qed.


(** Bytes [0] to [n] of an inode of the demo disk are mapped. *)
Lemma demo_mapped ino n :
  forallb (fun k => match byte (a_of (formatted 16)) ino k with Some _ => true | None => false end) (seqZ 0 n) = true ->
  forall k, 0 <= k < n -> byte (a_of (formatted 16)) ino (0 + k) <> None.
Proof.
  intros H k Hk. rewrite forallb_forall in H. specialize (H k). rewrite Z.add_0_l.
  destruct (byte (a_of (formatted 16)) ino k); [done|]. discriminate H. apply list_elem_of_In, elem_of_seqZ. lia.
Qed.

Lemma ext2_read_contents_witness :
  exists out fs', ext2_read junk 2 0 2 [0; 0] (formatted 16) = Some ((2, out), fs').
Proof.
  destruct demo_good as (Hr&Hinv&_&_).
  assert (Hn : Z.max 0 (Z.min 2 (i_size (demo_inode 2) - 0)) = 2) by (vm_compute; reflexivity).
  destruct (ext2_read_contents junk junk_total (formatted 16) (a_of (formatted 16)) 2 (demo_inode 2) 0 2 [0; 0])
    as (out&fs'&E&_); [exact Hr|exact Hinv| |apply demo_at; lia|lia|lia|..].
  - replace (inodes (a_of (formatted 16))) with 4 by (vm_compute; reflexivity). lia.
  - rewrite Hn. cbn. lia.
  - rewrite Hn. done.
  - rewrite Hn. apply demo_mapped. vm_compute. reflexivity.
  - exists out, fs'. rewrite Hn in E. exact E.
Defined.

(** Dropping the bitmap from memory leaves the device alone. *)
Lemma device_set_bb b (fs : ext2_filesystem (X := unit)) : device (set_bb b fs) = device fs.
Proof. done. Qed.

Lemma ext2_mount_restores_witness :
  exists fs3, ext2_mount junk (replicate 1024 0) (set_bb None (formatted 16)) = Some (0, fs3) /\
    rep (dev_ok := mem_ok) (image := mem_image) fs3 (a_of (formatted 16)).
Proof.
  destruct demo_good as (Hr&Hinv&Hsy&Hm).
  apply (ext2_mount_restores junk junk_total (formatted 16)); [exact Hr|exact Hsy|exact Hm|apply device_set_bb|reflexivity].
Defined.

Definition final {A} (m : M (X := unit) A) (fs : ext2_filesystem (X := unit)) : ext2_filesystem (X := unit) :=
  match m fs with Some (_, fs') => fs' | None => fs end.

Lemma final_spec m (fs : ext2_filesystem (X := unit)) (r : Z) :
  match m fs with Some (r', _) => r' =? r | None => false end = true -> m fs = Some (r, final m fs).
Proof. unfold final. destruct (m fs) as [[r' fs']|]; [|done]. intros E. bools. by subst. Qed.

(** Writing "ABC" to inode 3. *)
Abbreviation demo_write := (ext2_write (X := unit) junk 3 0 3 [65; 66; 67]).

Lemma ext2_write_remount_read_witness :
  exists fs3 fs4, ext2_mount junk (replicate 1024 0) (set_bb None (final demo_write (formatted 16))) = Some (0, fs3) /\
    ext2_read junk 3 0 3 [0; 0; 0] fs3 = Some ((3, [65; 66; 67]), fs4).
Proof.
  destruct demo_good as (Hr&Hinv&Hsy&Hm).
  assert (Ew : demo_write (formatted 16) = Some (3, final demo_write (formatted 16)))
    by (apply final_spec; vm_compute; reflexivity).
  destruct (ext2_write_remount_read junk junk_total (formatted 16) (a_of (formatted 16)) 3 (demo_inode 3) 0 3
    [65; 66; 67] (final demo_write (formatted 16)) (set_bb None (final demo_write (formatted 16))) (replicate 1024 0))
    as (fs3&Em&Hrd&_);
    [exact Hr|exact Hinv|exact Hsy|exact Hm| |apply demo_at; lia|vm_compute; reflexivity|lia|lia|reflexivity|done|exact Ew|
     apply device_set_bb|reflexivity|].
  - replace (inodes (a_of (formatted 16))) with 4 by (vm_compute; reflexivity). lia.
  - destruct (Hrd [0; 0; 0]) as (fs4&Er); [reflexivity|]. exists fs3, fs4. split; [exact Em|exact Er].
Defined.

(** ** Where the code does not do what it means to *)

#[local] Existing Instance M_bind.
#[local] Existing Instance M_ret.

Definition result {A} (m : M A) (n : Z) : option A :=
  match m (formatted n) with Some (x, _) => Some x | None => None end.

(** "/etc", "/etc/passwd", "/a". *)
Definition etc : list Z := [47; 101; 116; 99].
Definition passwd : list Z := etc ++ [47; 112; 97; 115; 115; 119; 100].
Definition path_a : list Z := [47; 97].

(** Executions on small disks that go wrong.  Formatting a 24 KB disk writes
    inode-table blocks from past the end of the table in memory (its size is no
    multiple of the block size).  Reading a hole of a sparse file in the
    single-indirect range, when only the double-indirect table exists, computes a
    table index by an unsigned underflow and reads outside the table.  A new file
    that is extended by part of a block contains what a deleted file had stored
    there: after writing only '!' at offset 4 its first four bytes are those of the
    deleted /etc/passwd, "root".  Unlinking a directory that is not empty reports
    -2 but has already removed its entry. *)
Theorem ext2_defects :
  ext2_format junk (blank 24) = None /\
  result (_ ← ext2_write junk 3 (268 * 1024) 1 [65]; ext2_read junk 3 (12 * 1024) 1 [0]) 16 = None /\
  result (_ ← ext2_unlink junk passwd; j ← ext2_create junk path_a 420; _ ← ext2_write junk j 4 1 [33];
          out ← ext2_read junk j 0 5 (replicate 5 0);
          e ← ext2_lookup_inode junk etc; r ← ext2_unlink junk etc; e' ← ext2_lookup_inode junk etc;
          mret (out, e, r, e')) 64 = Some ((5, [114; 111; 111; 116; 33]), 14, -2, 0).
Proof. split_and!; vm_compute; reflexivity. Qed.

End Ext2Props.
