(* ===== verification/Ext2Dirs.v ===== *)
(** * Ext2Dirs: directory blocks (kernel/src/ext2_fs.c)

    A directory block is a chain of variable-length entries that tile its 1024
    bytes.  [chain b off es stop] says that the bytes of [b] from [off] to
    [stop] are the entries [es].  The loops of the driver that search a block,
    place an entry in it and remove one are shown to be functions on the list of
    entries. *)

From Stdlib Require Import ZArith Lia Bool ZifyBool.
From stdpp Require Import base numbers option list list_numbers gmap.
From S2P Require Import Prelude Ramdisk Ext2 Ext2Alloc Ext2Layer Ext2Files.

Open Scope Z_scope.
Set Warnings "-clear-no-such-hyp".

Module Ext2Dirs.
Import Ext2 Ext2Alloc Ext2Layer Ext2Files.

(** ** Entries *)

Record dent := Dent { n_ino : Z; n_type : Z; n_name : list Z; n_rec : Z }.

Definition name_ok (n : list Z) : Prop := Forall (fun c => 0 < c < 256) n /\ Z.of_nat (length n) < 256.

Definition nlen (e : dent) : Z := Z.of_nat (length (n_name e)).

(** The bytes at [off] are the entry [e]. *)
Record entry_at (b : list Z) (off : Z) (e : dent) : Prop := {
  ea_ino : de_inode b off = Some (n_ino e);
  ea_rec : de_rec_len b off = Some (n_rec e);
  ea_len : de_name_len b off = Some (nlen e);
  ea_type : de_file_type b off = Some (n_type e);
  ea_name : de_name b off (nlen e) = Some (n_name e) }.

(** An entry is long enough for its name and starts on a multiple of 4. *)
Definition dent_ok (e : dent) : Prop :=
  name_ok (n_name e) /\ 0 <= n_ino e < 2 ^ 32 /\ 0 <= n_type e < 256 /\
  entry_len (nlen e) <= n_rec e <= 1024 /\ n_rec e mod 4 = 0.

Fixpoint chain (b : list Z) (off : Z) (es : list dent) (stop : Z) : Prop :=
  match es with
  | [] => off = stop
  | e :: es' => entry_at b off e /\ dent_ok e /\ chain b (off + n_rec e) es' stop
  end.

Fixpoint recs (es : list dent) : Z := match es with [] => 0 | e :: es' => n_rec e + recs es' end.

(** A directory block. *)
Definition dir_block (b : list Z) (es : list dent) : Prop := Z.of_nat (length b) = 1024 /\ chain b 0 es 1024.

(** ** Entries as values *)

Definition hit (name : list Z) (e : dent) : bool :=
  negb (n_ino e =? 0) && bool_decide (n_name e = name).

Definition find_es (name : list Z) (es : list dent) : option Z := n_ino ∘ snd <$> list_find (hit name) es.

Definition with_rec (n : Z) (e : dent) : dent := Dent (n_ino e) (n_type e) (n_name e) n.
Definition cleared (e : dent) : dent := Dent 0 (n_type e) (n_name e) (n_rec e).

(** Placing an entry: an empty one that is long enough is reused, an entry with
    slack behind its name is split. *)
Fixpoint place_es (new : dent) (es : list dent) : option (list dent) :=
  match es with
  | [] => None
  | e :: es' =>
      if n_ino e =? 0 then
        if entry_len (nlen new) <=? n_rec e then Some (with_rec (n_rec e) new :: es')
        else cons e <$> place_es new es'
      else if entry_len (nlen e) + entry_len (nlen new) <=? n_rec e then
        Some (with_rec (entry_len (nlen e)) e :: with_rec (n_rec e - entry_len (nlen e)) new :: es')
      else cons e <$> place_es new es'
  end.

(** Removing a name: the entry before it grows over it; the first entry of a
    block is cleared. *)
Fixpoint remove_es (name : list Z) (prev : option dent) (es : list dent) : option (Z * list dent) :=
  match es with
  | [] => None
  | e :: es' =>
      if hit name e then
        Some (n_ino e, match prev with Some p => with_rec (n_rec p + n_rec e) p :: es' | None => cleared e :: es' end)
      else
        '(t, l) ← remove_es name (Some e) es';
        Some (t, match prev with Some p => p :: l | None => l end)
  end.

(** ** Lemmas: bytes *)

Lemma entry_len_spec n : 0 <= n -> entry_len n mod 4 = 0 /\ n + 8 <= entry_len n <= n + 11.
Proof.
  intros Hn. unfold entry_len. assert (E : Z.land (8 + n + 3) (Z.lnot 3) = (n + 11) / 4 * 4).
  { change (Z.lnot 3) with (Z.lnot (Z.ones 2)). rewrite <- Z.ldiff_land, Z.ldiff_ones_r by lia.
    rewrite Z.shiftl_mul_pow2, Z.shiftr_div_pow2 by lia. change (2 ^ 2) with 4. do 2 f_equal. lia. }
  rewrite E. dlia.
Qed.

Lemma slice_agree (b b' : list Z) off len : length b' = length b ->
  (forall i, off <= i < off + len -> aget b' i = aget b i) -> slice b' off len = slice b off len.
Proof.
  intros Hl H. unfold slice. rewrite Hl. destruct (_ && _ && _) eqn:E; bools; [|done]. f_equal.
  apply list_eq_aget; [len|]. intros i Hi. rewrite length_take, length_drop in Hi.
  assert (Hs : forall l : list Z, length l = length b -> aget (take (Z.to_nat len) (drop (Z.to_nat off) l)) i = aget l (off + i)).
  { intros l Hl'. eapply aget_slice; [apply slice_ok; lia|lia]. }
  rewrite !Hs by done. apply H. lia.
Qed.

Lemma entry_agree b b' off e : length b' = length b ->
  (forall i, off <= i < off + 8 + nlen e -> aget b' i = aget b i) -> entry_at b off e -> entry_at b' off e.
Proof.
  intros Hl H [H1 H2 H3 H4 H5]. unfold de_inode, de_rec_len, de_name_len, de_file_type, Ext2.de_name, get32, get16 in *.
  assert (0 <= nlen e) by (unfold nlen; lia).
  split; unfold de_inode, de_rec_len, de_name_len, de_file_type, Ext2.de_name, get32, get16.
  - rewrite (slice_agree b b'); [done|done|]. intros i Hi. apply H. lia.
  - rewrite (slice_agree b b'); [done|done|]. intros i Hi. apply H. lia.
  - rewrite H by lia. done.
  - rewrite H by lia. done.
  - rewrite (slice_agree b b'); [done|done|]. intros i Hi. apply H. lia.
Qed.

Lemma dent_rec e : dent_ok e -> 8 <= n_rec e <= 1024 /\ nlen e + 8 <= n_rec e /\ n_rec e mod 4 = 0 /\ 0 <= nlen e < 256.
Proof.
  intros ([_ Hn]&_&_&Hr&H4). destruct (entry_len_spec (nlen e)) as [_ ?]; [unfold nlen; lia|]. unfold nlen in *. lia.
Qed.

Lemma chain_recs b off es stop : chain b off es stop -> stop = off + recs es /\ 8 * Z.of_nat (length es) <= recs es /\ recs es mod 4 = 0.
Proof.
  revert off. induction es as [|e es IH]; intros off; simpl; [intros ->; repeat split; lia|].
  intros (_&Hok&H). destruct (IH _ H) as (?&?&?). pose proof (dent_rec e Hok). split_and!; [lia|lia|dlia].
Qed.

Lemma chain_app b off es1 es2 stop :
  chain b off (es1 ++ es2) stop <-> chain b off es1 (off + recs es1) /\ chain b (off + recs es1) es2 stop.
Proof.
  revert off. induction es1 as [|e es1 IH]; intros off; simpl; [rewrite Z.add_0_r; tauto|].
  rewrite IH, Z.add_assoc. tauto.
Qed.

Lemma chain_agree b b' off es stop : length b' = length b ->
  (forall i, off <= i < stop -> aget b' i = aget b i) -> chain b off es stop -> chain b' off es stop.
Proof.
  intros Hl. revert off. induction es as [|e es IH]; intros off H; simpl; [done|]. intros (He&Hok&Hc).
  destruct (chain_recs _ _ _ _ Hc) as (?&?&_). pose proof (dent_rec e Hok). split_and!; [|done|].
  - eapply entry_agree; [exact Hl| |done]. intros i Hi. apply H. lia.
  - apply IH; [|done]. intros i Hi. apply H. lia.
Qed.

(** ** Searching *)

Lemma cstr_name n : Forall (fun c => 0 < c < 256) n -> cstr n = n.
Proof. induction 1 as [|c n Hc _ IH]; simpl; [done|]. destruct (Z.eqb_spec c 0); [lia|]. by rewrite IH. Qed.

Lemma find_in_block_spec b name size es : name <> [] -> 1024 <= size -> forall fuel off,
  chain b off es 1024 -> 0 <= off -> (length es < fuel)%nat ->
  find_in_block fuel b off size 1024 name = Some (find_es name es).
Proof.
  intros Hne Hs. induction es as [|e es IH]; intros fuel off Hc Ho Hf; (destruct fuel as [|fuel]; [simpl in Hf; lia|]).
  - simpl in Hc. subst off. cbn [find_in_block]. by rewrite Z.ltb_irrefl, andb_false_r.
  - destruct Hc as ([E1 E2 E3 E4 E5]&Hok&Hc). pose proof (dent_rec e Hok) as Hr. destruct (chain_recs _ _ _ _ Hc) as (Hst&?&_).
    cbn [find_in_block]. replace ((off <? size) && (off <? 1024)) with true by lia. rewrite E1, E3. cbn [mbind option_bind].
    destruct Hok as ([Hn _]&_). unfold find_es. cbn [list_find].
    assert (Eh : (if negb (n_ino e =? 0) && (0 <? nlen e) then n ← Ext2.de_name b off (nlen e); Some (same_name (cstr n) name)
                  else Some false) = Some (hit name e)).
    { unfold hit. destruct (n_ino e =? 0); cbn [negb andb]; [done|]. destruct (Z.ltb_spec 0 (nlen e)).
      - rewrite E5. cbn [mbind option_bind]. unfold same_name. by rewrite cstr_name.
      - f_equal. symmetry. apply bool_decide_false. intros E. unfold nlen in *. destruct (n_name e); [done|simpl in *; lia]. }
    rewrite Eh. cbn [mbind option_bind]. destruct (hit name e) eqn:Ehit; [by rewrite decide_True by done|].
    rewrite decide_False by (by intros []). rewrite E2. cbn [mbind option_bind]. destruct (Z.eqb_spec (n_rec e) 0); [lia|].
    rewrite u32_id by lia. rewrite (IH fuel (off + n_rec e)); [|done|lia|simpl in Hf; lia].
    unfold find_es. destruct (list_find (hit name) es) as [[? ?]|]; done.
Qed.

(** ** Changing bytes *)

(** [b'] differs from [b] at most between [lo] and [hi]. *)
Definition agree_out (b b' : list Z) (lo hi : Z) : Prop :=
  length b' = length b /\ forall i, i < lo \/ hi <= i -> aget b' i = aget b i.

Lemma splice_out b off src b' : splice b off src = Some b' -> agree_out b b' off (off + Z.of_nat (length src)).
Proof. intros H. split; [by eapply splice_length|]. intros i Hi. by eapply aget_splice_out. Qed.

Lemma aset_out (b : list Z) i x b' : aset b i x = Some b' -> agree_out b b' i (i + 1).
Proof. intros H. split; [by eapply aset_length|]. intros j Hj. eapply aget_aset_ne; [exact H|lia]. Qed.

Lemma put16_at b off v : 0 <= off -> off + 2 <= Z.of_nat (length b) -> 0 <= v < 2 ^ 16 ->
  exists b', put16 b off v = Some b' /\ agree_out b b' off (off + 2) /\ get16 b' off = Some v.
Proof.
  intros Ho Hb Hv. unfold put16. rewrite u16_id by lia. destruct (splice b off (le_enc 2 v)) as [b'|] eqn:E;
    [|rewrite splice_ok in E by (rewrite ?le_enc_length; lia); done].
  exists b'. split_and!; [done|exact (splice_out _ _ _ _ E)|]. unfold get16. pose proof (slice_splice_eq _ _ _ _ E) as Hs.
  rewrite le_enc_length in Hs. change (Z.of_nat 2) with 2 in Hs. rewrite Hs. cbn [mbind option_bind]. by rewrite le_dec_enc_id.
Qed.

Lemma put32_at b off v : 0 <= off -> off + 4 <= Z.of_nat (length b) -> 0 <= v < 2 ^ 32 ->
  exists b', put32 b off v = Some b' /\ agree_out b b' off (off + 4) /\ get32 b' off = Some v.
Proof.
  intros Ho Hb Hv. unfold put32. rewrite u32_id by lia. destruct (splice b off (le_enc 4 v)) as [b'|] eqn:E;
    [|rewrite splice_ok in E by (rewrite ?le_enc_length; lia); done].
  exists b'. split_and!; [done|exact (splice_out _ _ _ _ E)|]. unfold get32. pose proof (slice_splice_eq _ _ _ _ E) as Hs.
  rewrite le_enc_length in Hs. change (Z.of_nat 4) with 4 in Hs. rewrite Hs. cbn [mbind option_bind]. by rewrite le_dec_enc_id.
Qed.

Lemma get16_agree b b' off : length b' = length b -> (forall i, off <= i < off + 2 -> aget b' i = aget b i) -> get16 b' off = get16 b off.
Proof. intros Hl H. unfold get16. by rewrite (slice_agree b b'). Qed.

Lemma get32_agree b b' off : length b' = length b -> (forall i, off <= i < off + 4 -> aget b' i = aget b i) -> get32 b' off = get32 b off.
Proof. intros Hl H. unfold get32. by rewrite (slice_agree b b'). Qed.

(** An entry whose length field was changed. *)
Lemma entry_rerec b b' off e r : length b' = length b ->
  (forall i, off <= i < off + 4 \/ off + 6 <= i < off + 8 + nlen e -> aget b' i = aget b i) ->
  get16 b' (off + 4) = Some r -> entry_at b off e -> entry_at b' off (with_rec r e).
Proof.
  intros Hl H Hr [H1 H2 H3 H4 H5]. assert (0 <= nlen e) by (unfold nlen; lia).
  unfold de_inode, de_name_len, de_file_type, Ext2.de_name in *.
  split; unfold de_inode, de_rec_len, de_name_len, de_file_type, Ext2.de_name; try done.
  - rewrite (get32_agree b b'); [done|done|]. intros i Hi. apply H. lia.
  - rewrite H by lia. done.
  - rewrite H by lia. done.
  - change (nlen (with_rec r e)) with (nlen e). rewrite (slice_agree b b'); [done|done|]. intros i Hi. apply H. lia.
Qed.

(** An entry whose inode number was cleared. *)
Lemma entry_cleared b b' off e : agree_out b b' off (off + 4) -> get32 b' off = Some 0 -> entry_at b off e -> entry_at b' off (cleared e).
Proof.
  intros [Hl H] Hr [H1 H2 H3 H4 H5]. assert (0 <= nlen e) by (unfold nlen; lia).
  unfold de_rec_len, de_name_len, de_file_type, Ext2.de_name in *.
  split; unfold de_inode, de_rec_len, de_name_len, de_file_type, Ext2.de_name; try done.
  - rewrite (get16_agree b b'); [done|done|]. intros i Hi. apply H. lia.
  - rewrite H by lia. done.
  - rewrite H by lia. done.
  - change (nlen (cleared e)) with (nlen e). rewrite (slice_agree b b'); [done|done|]. intros i Hi. apply H. lia.
Qed.

(** Writing an entry over a place whose length field is set. *)
Lemma put_entry_spec b off e : name_ok (n_name e) -> 0 <= n_ino e < 2 ^ 32 -> 0 <= n_type e < 256 -> 0 <= off -> off + 8 + nlen e <= Z.of_nat (length b) ->
  get16 b (off + 4) = Some (n_rec e) ->
  exists b', put_entry b off (n_ino e) (nlen e) (n_type e) (n_name e) = Some b' /\
    agree_out b b' off (off + 8 + nlen e) /\ entry_at b' off e.
Proof.
  intros [Hn Hl] Hi Ht Ho Hb Hrec. unfold put_entry. unfold nlen in *.
  destruct (put32_at b off (n_ino e)) as (b1&->&A1&G1); [lia..|]. cbn [mbind option_bind]. pose proof (proj1 A1) as L1.
  destruct (aset b1 (off + 6) (u8 (Z.of_nat (length (n_name e))))) as [b2|] eqn:E2; [|rewrite aset_ok in E2 by lia; done].
  cbn [mbind option_bind]. pose proof (aset_out _ _ _ _ E2) as A2. pose proof (proj1 A2) as L2.
  destruct (aset b2 (off + 7) (u8 (n_type e))) as [b3|] eqn:E3; [|rewrite aset_ok in E3 by lia; done].
  cbn [mbind option_bind]. pose proof (aset_out _ _ _ _ E3) as A3. pose proof (proj1 A3) as L3.
  destruct (splice b3 (off + 8) (n_name e)) as [b4|] eqn:E4; [|rewrite splice_ok in E4 by lia; done].
  pose proof (splice_out _ _ _ _ E4) as A4. exists b4. split; [done|]. split.
  - split; [destruct A4; congruence|]. intros j Hj. rewrite (proj2 A4), (proj2 A3), (proj2 A2), (proj2 A1) by lia. done.
  - destruct A1 as [_ A1], A2 as [_ A2], A3 as [_ A3], A4 as [L4 A4].
    split; unfold de_inode, de_rec_len, de_name_len, de_file_type, Ext2.de_name, nlen.
    + rewrite (get32_agree b1); [done|congruence|]. intros i Hx. rewrite A4, A3, A2 by lia. done.
    + rewrite (get16_agree b); [done|congruence|]. intros i Hx. rewrite A4, A3, A2, A1 by lia. done.
    + rewrite A4, A3, (aget_aset_eq _ _ _ _ E2) by lia. by rewrite u8_id by lia.
    + rewrite A4, (aget_aset_eq _ _ _ _ E3) by lia. by rewrite u8_id by lia.
    + exact (slice_splice_eq _ _ _ _ E4).
Qed.

(** ** Placing an entry *)

Lemma dent_with_rec e r : dent_ok e -> entry_len (nlen e) <= r <= 1024 -> r mod 4 = 0 -> dent_ok (with_rec r e).
Proof. intros (H1&H2&H3&_) H4 H5. exact (conj H1 (conj H2 (conj H3 (conj H4 H5)))). Qed.

Lemma place_in_block_spec new es : dent_ok new -> n_ino new <> 0 -> forall fuel b off,
  Z.of_nat (length b) = 1024 -> chain b off es 1024 -> 0 <= off -> (length es < fuel)%nat ->
  match place_es new es with
  | Some es' => exists b', place_in_block fuel b off 1024 (entry_len (nlen new)) (n_ino new) (n_type new) (n_name new) = Some (Some b') /\
      agree_out b b' off 1024 /\ chain b' off es' 1024
  | None => place_in_block fuel b off 1024 (entry_len (nlen new)) (n_ino new) (n_type new) (n_name new) = Some None
  end.
Proof.
  intros Hnew Hnz. induction es as [|e es IH]; intros fuel b off Hb Hc Ho Hf; (destruct fuel as [|fuel]; [simpl in Hf; lia|]).
  { simpl in Hc |- *. subst off. by rewrite Z.ltb_irrefl. }
  destruct Hc as (He&Hok&Hc). pose proof He as [E1 E2 E3 E4 E5]. pose proof (dent_rec e Hok) as Hr. destruct (chain_recs _ _ _ _ Hc) as (Hst&Hle&_).
  pose proof (dent_rec new Hnew) as Hrn. destruct (entry_len_spec (nlen new)) as [Hn4 Hnl]; [lia|]. destruct (entry_len_spec (nlen e)) as [He4 Hel]; [lia|].
  cbn [place_es place_in_block]. replace (off <? 1024) with true by lia. rewrite E1, E3, E2. cbn [mbind option_bind].
  assert (Hnext : match place_es new es with
    | Some es' => exists b', place_in_block fuel b (u32 (off + n_rec e)) 1024 (entry_len (nlen new)) (n_ino new) (n_type new) (n_name new) = Some (Some b') /\
        agree_out b b' off 1024 /\ chain b' off (e :: es') 1024
    | None => place_in_block fuel b (u32 (off + n_rec e)) 1024 (entry_len (nlen new)) (n_ino new) (n_type new) (n_name new) = Some None end).
  { rewrite u32_id by lia. specialize (IH fuel b (off + n_rec e) Hb Hc ltac:(lia) ltac:(simpl in Hf; lia)).
    destruct (place_es new es) as [es'|]; [|done]. destruct IH as (b'&Ep&[Al Ag]&Hc'). exists b'. split; [done|]. split.
    - split; [done|]. intros i Hi. apply Ag. lia.
    - split_and!; [|done|done]. eapply entry_agree; [exact Al| |done]. intros i Hi. apply Ag. lia. }
  assert (Hz : (n_rec e =? 0) = false) by lia. destruct (Z.eqb_spec (n_ino e) 0) as [Hi0|Hi0].
  - destruct (Z.leb_spec (entry_len (nlen new)) (n_rec e)) as [Hfit|_].
    + assert (Hnok : dent_ok (with_rec (n_rec e) new)) by (apply dent_with_rec; [done|lia|lia]).
      destruct (put_entry_spec b off (with_rec (n_rec e) new)) as (b'&Ep&[Al Ag]&Hent); [apply Hnok..|lia|simpl; unfold nlen in *; simpl; lia|exact E2|].
      exists b'. change (nlen (with_rec (n_rec e) new)) with (nlen new) in *. unfold nlen in Ep at 1. simpl in Ep. rewrite Ep. split; [done|]. split.
      * split; [done|]. intros i Hi. apply Ag. lia.
      * split_and!; [done|done|]. simpl. eapply chain_agree; [exact Al| |exact Hc]. intros i Hi. apply Ag. lia.
    + rewrite Hz. destruct (place_es new es); exact Hnext.
  - destruct (Z.leb_spec (entry_len (nlen e) + entry_len (nlen new)) (n_rec e)) as [Hfit|_]; [|rewrite Hz; destruct (place_es new es); exact Hnext].
    set (used := entry_len (nlen e)) in *. set (e2 := with_rec (n_rec e - used) new).
    assert (Hnok : dent_ok e2) by (apply dent_with_rec; [done|lia|dlia]).
    destruct (put16_at b (off + 4) used) as (b1&->&[Al1 Ag1]&G1); [lia..|]. cbn [mbind option_bind]. rewrite u32_id by lia.
    destruct (put16_at b1 (off + used + 4) (n_rec e - used)) as (b2&->&[Al2 Ag2]&G2); [lia..|]. cbn [mbind option_bind].
    destruct (put_entry_spec b2 (off + used) e2) as (b3&Ep&[Al3 Ag3]&Hent); [apply Hnok..|lia|change (nlen e2) with (nlen new); lia|exact G2|].
    unfold nlen in Ep at 1. simpl in Ep. rewrite Ep. cbn [mbind option_bind]. change (nlen e2) with (nlen new) in *.
    exists b3. split; [done|]. split.
    + split; [congruence|]. intros i Hi. rewrite Ag3, Ag2, Ag1 by lia. done.
    + split; [|split; [|split; [|split]]].
      * eapply (entry_rerec b b3); [congruence| | |exact He].
        -- intros i Hi. rewrite Ag3, Ag2, Ag1 by lia. done.
        -- rewrite <- G1. apply get16_agree; [congruence|]. intros i Hi. rewrite Ag3, Ag2 by lia. done.
      * apply dent_with_rec; [done|lia|done].
      * exact Hent.
      * exact Hnok.
      * simpl. replace (off + used + (n_rec e - used)) with (off + n_rec e) by lia. eapply (chain_agree b b3); [congruence| |exact Hc].
        intros i Hi. rewrite Ag3, Ag2, Ag1 by lia. done.
Qed.

(** ** Removing an entry *)

Lemma dent_cleared e : dent_ok e -> dent_ok (cleared e).
Proof. intros (H1&H2&H3&H4). refine (conj H1 (conj _ (conj H3 H4))). simpl. lia. Qed.


Lemma remove_in_block_spec name es : Z.of_nat (length name) < 256 -> forall fuel b prev off,
  Z.of_nat (length b) = 1024 -> chain b off es 1024 -> 0 <= off -> (length es < fuel)%nat ->
  let start := match prev with Some (p, _) => p | None => off end in
  match prev with Some (p, e) => 0 <= p /\ entry_at b p e /\ dent_ok e /\ off = p + n_rec e | None => True end ->
  match remove_es name (snd <$> prev) es with
  | Some (t, es') => exists b', remove_in_block fuel b (fst <$> prev) off 1024 name = Some (Some (t, b')) /\
      length b' = length b /\ chain b' start es' 1024 /\ (forall i, i < start -> aget b' i = aget b i)
  | None => remove_in_block fuel b (fst <$> prev) off 1024 name = Some None
  end.
Proof.
  intros Hname. induction es as [|e es IH]; intros fuel b prev off Hb Hc Ho Hf start Hprev; (destruct fuel as [|fuel]; [simpl in Hf; lia|]).
  { simpl in Hc |- *. subst off. by rewrite Z.ltb_irrefl. }
  destruct Hc as (He&Hok&Hc). pose proof He as [E1 E2 E3 E4 E5]. pose proof (dent_rec e Hok) as Hr. destruct (chain_recs _ _ _ _ Hc) as (Hst&Hle&_).
  cbn [remove_es remove_in_block]. replace (off <? 1024) with true by lia. rewrite E2. cbn [mbind option_bind].
  destruct (Z.eqb_spec (n_rec e) 0); [lia|]. rewrite E1, E3. cbn [mbind option_bind].
  assert (Eh : (if negb (n_ino e =? 0) && (nlen e =? Z.of_nat (length name)) then n ← Ext2.de_name b off (nlen e); Some (bool_decide (n = name))
                else Some false) = Some (hit name e)).
  { unfold hit. destruct (n_ino e =? 0); cbn [negb andb]; [done|]. destruct (Z.eqb_spec (nlen e) (Z.of_nat (length name))).
    - by rewrite E5.
    - f_equal. symmetry. apply bool_decide_false. intros <-. done. }
  rewrite Eh. cbn [mbind option_bind]. destruct (hit name e) eqn:Ehit.
  - destruct prev as [[p q]|]; cbn [fmap option_fmap option_map fst snd mbind option_bind].
    + destruct Hprev as (Hp&Hq&Hqok&Ep). pose proof (dent_rec q Hqok) as Hrq. rewrite (ea_rec _ _ _ Hq). cbn [mbind option_bind].
      destruct (put16_at b (p + 4) (n_rec q + n_rec e)) as (b1&->&[Al Ag]&G1); [lia..|]. cbn [mbind option_bind].
      exists b1. split_and!; [done|done| |].
      * split_and!; [| |simpl; replace (start + (n_rec q + n_rec e)) with (off + n_rec e) by (unfold start; lia)].
        -- eapply entry_rerec; [exact Al| |exact G1|exact Hq]. intros i Hi. apply Ag. lia.
        -- pose proof Hqok as (_&_&_&?&?). apply dent_with_rec; [done|lia|dlia].
        -- eapply chain_agree; [exact Al| |exact Hc]. intros i Hi. apply Ag. lia.
      * intros i Hi. apply Ag. unfold start in Hi. lia.
    + destruct (put32_at b off 0) as (b1&->&A1&G1); [lia..|]. cbn [mbind option_bind]. pose proof A1 as [Al Ag].
      exists b1. split_and!; [done|done| |].
      * split_and!; [by eapply entry_cleared|by apply dent_cleared|].
        eapply chain_agree; [exact Al| |exact Hc]. intros i Hi. apply Ag. simpl in Hi. lia.
      * intros i Hi. apply Ag. unfold start in Hi. lia.
  - rewrite u32_id by lia.
    specialize (IH fuel b (Some (off, e)) (off + n_rec e) Hb Hc ltac:(lia) ltac:(simpl in Hf; lia)). cbn in IH.
    specialize (IH ltac:(by split_and!)). cbn [fmap option_fmap option_map fst snd].
    destruct (remove_es name (Some e) es) as [[t es']|]; cbn [mbind option_bind]; [|exact IH].
    destruct IH as (b'&Er&Al&Hc'&Ag). exists b'. split_and!; [exact Er|done| |].
    + destruct prev as [[p q]|]; cbn [fmap option_fmap option_map snd]; [|exact Hc'].
      destruct Hprev as (Hp&Hq&Hqok&Ep). pose proof (dent_rec q Hqok) as Hrq. split_and!; [|done|unfold start; by rewrite <- Ep].
      eapply entry_agree; [exact Al| |exact Hq]. intros i Hi. apply Ag. lia.
    + intros i Hi. apply Ag. unfold start in Hi. destruct prev as [[p q]|]; [|lia]. destruct Hprev as (?&_&Hqok&->).
      pose proof (dent_rec q Hqok). lia.
Qed.

(** ** Names and inode numbers *)

(** The names of a list of entries with their inode numbers. *)
Definition pairs (es : list dent) : list (list Z * Z) :=
  (fun e => (n_name e, n_ino e)) <$> filter (fun e => n_ino e <> 0) es.

(** The directory a list of entries stands for; the first of two entries with
    the same name counts. *)
Definition names (es : list dent) : gmap (list Z) Z := list_to_map (pairs es).

Lemma pairs_app es1 es2 : pairs (es1 ++ es2) = pairs es1 ++ pairs es2.
Proof. unfold pairs. by rewrite filter_app, fmap_app. Qed.

Lemma pairs_cons e es : pairs (e :: es) = (if n_ino e =? 0 then [] else [(n_name e, n_ino e)]) ++ pairs es.
Proof.
  unfold pairs. rewrite filter_cons. destruct (Z.eqb_spec (n_ino e) 0); [by rewrite decide_False by auto|].
  by rewrite decide_True by done.
Qed.

Lemma pairs_nonzero es n m : (n, m) ∈ pairs es -> m <> 0.
Proof. unfold pairs. by intros (e&[= -> ->]&[? _]%list_elem_of_filter)%list_elem_of_fmap. Qed.

Lemma names_nonzero es n m : names es !! n = Some m -> m <> 0.
Proof. intros H%elem_of_list_to_map_2. by eapply pairs_nonzero. Qed.

Lemma names_app es1 es2 : names (es1 ++ es2) = names es1 ∪ names es2.
Proof. unfold names. by rewrite pairs_app, list_to_map_app. Qed.

(** Searching the entries is looking the name up. *)
Lemma find_es_names name es : find_es name es = names es !! name.
Proof.
  unfold find_es, names. induction es as [|e es IH]; [done|]. rewrite pairs_cons. cbn [list_find].
  destruct (hit name e) eqn:Eh.
  - rewrite decide_True by done. unfold hit in Eh. bools. apply bool_decide_eq_true in H0.
    destruct (Z.eqb_spec (n_ino e) 0); [done|]. cbn [app list_to_map foldr]. rewrite H0. by rewrite lookup_insert_eq.
  - rewrite decide_False by (by intros []). unfold hit in Eh.
    transitivity (list_to_map (M := gmap (list Z) Z) (pairs es) !! name);
      [rewrite <- IH; by destruct (list_find _ es) as [[? ?]|]|].
    destruct (Z.eqb_spec (n_ino e) 0); cbn [negb andb] in Eh; [done|].
    apply bool_decide_eq_false in Eh. cbn [app list_to_map foldr]. by rewrite lookup_insert_ne.
Qed.

Lemma place_es_pairs new es es' : n_ino new <> 0 -> place_es new es = Some es' ->
  pairs es' ≡ₚ (n_name new, n_ino new) :: pairs es.
Proof.
  intros Hn. assert (Ez : (n_ino new =? 0) = false) by lia. revert es'. induction es as [|e es IH]; intros es'; cbn [place_es]; [done|].
  assert (Hrec : cons e <$> place_es new es = Some es' -> pairs es' ≡ₚ (n_name new, n_ino new) :: pairs (e :: es)).
  { destruct (place_es new es) as [l|]; [|done]. intros [= <-]. rewrite !pairs_cons, (IH l) by done. solve_Permutation. }
  destruct (Z.eqb_spec (n_ino e) 0) as [E|E].
  - destruct (_ <=? _); [|exact Hrec]. intros [= <-]. rewrite !pairs_cons. simpl. by rewrite Ez, E.
  - destruct (_ <=? _); [|exact Hrec]. intros [= <-]. rewrite !pairs_cons. simpl. rewrite Ez, (proj2 (Z.eqb_neq _ _) E). simpl. solve_Permutation.
Qed.

Lemma remove_es_pairs name es : forall prev t l, remove_es name prev es = Some (t, l) ->
  pairs (match prev with Some p => p :: es | None => es end) ≡ₚ (name, t) :: pairs l.
Proof.
  induction es as [|e es IH]; intros prev t l; cbn [remove_es]; [done|]. destruct (hit name e) eqn:Eh.
  - unfold hit in Eh. bools. apply bool_decide_eq_true in H0. intros [= <- <-].
    destruct prev as [p|]; rewrite !pairs_cons; simpl; rewrite (proj2 (Z.eqb_neq _ _) H), H0; [solve_Permutation|done].
  - destruct (remove_es name (Some e) es) as [[t' l']|] eqn:Er; [|done]. intros [= <- <-]. pose proof (IH _ _ _ Er) as Hp.
    destruct prev as [p|]; [|done]. rewrite pairs_cons, Hp, (pairs_cons p l'). solve_Permutation.
Qed.

Lemma remove_es_None name es : forall prev, remove_es name prev es = None -> names es !! name = None.
Proof.
  rewrite <- find_es_names. unfold find_es. induction es as [|e es IH]; intros prev; cbn [remove_es list_find]; [done|].
  destruct (hit name e) eqn:Eh; [done|]. destruct (remove_es name (Some e) es) as [[? ?]|] eqn:Er; [done|]. intros _.
  rewrite decide_False by (by intros []). specialize (IH _ Er). by destruct (list_find _ es) as [[? ?]|].
Qed.

End Ext2Dirs.
