(* ===== verification/Ext2Tree.v ===== *)
(** * Ext2Tree: names and paths (kernel/src/ext2_fs.c)

    The directories of a disk as a finite map from inode numbers to finite maps
    from names to inode numbers.  [fs_ok a T] says that the blocks of [a] hold
    the directories [T]; path lookup is shown to be a walk in [T], creating a
    file an insertion and removing one a deletion, whatever the layout of the
    entries in the blocks. *)

From Stdlib Require Import ZArith Lia Bool ZifyBool.
From stdpp Require Import base numbers option list list_numbers gmap.
From S2P Require Import Prelude Ramdisk Ext2 Ext2Alloc Ext2Layer Ext2Files Ext2Mount Ext2Dirs.

Open Scope Z_scope.
Set Warnings "-clear-no-such-hyp".

Module Ext2Tree.
Import Ramdisk Ext2 Ext2Alloc Ext2Layer Ext2Files Ext2Mount Ext2Dirs.

Implicit Types (a : astate).

(** ** Paths *)

Fixpoint components_from (cur path : list Z) : list (list Z) :=
  match path with
  | [] => match cur with [] => [] | _ => [cur] end
  | c :: path' =>
      if c =? 47 then match cur with [] => [] | _ => [cur] end ++ components_from [] path'
      else components_from (cur ++ [c]) path'
  end.

(** The parts of a path between slashes, empty ones left out. *)
Definition components (path : list Z) : list (list Z) := components_from [] path.

Abbreviation tree := (gmap Z (gmap (list Z) Z)).

(** Following names from a directory. *)
Fixpoint walk (T : tree) (cur : Z) (names : list (list Z)) : option Z :=
  match names with
  | [] => Some cur
  | n :: ns => m ← T !! cur; next ← m !! n; walk T next ns
  end.

Lemma walk_app T ns1 ns2 : forall cur, walk T cur (ns1 ++ ns2) = (d ← walk T cur ns1; walk T d ns2).
Proof.
  induction ns1 as [|n ns1 IH]; intros cur; cbn [walk app]; [done|].
  destruct (T !! cur) as [m|]; cbn [mbind option_bind]; [|done]. destruct (m !! n); cbn [mbind option_bind]; [apply IH|done].
Qed.

(** Walks in a larger tree. *)
Lemma walk_mono T T' : (forall d m, T !! d = Some m -> exists m', T' !! d = Some m' /\ m ⊆ m') ->
  forall ns cur n, walk T cur ns = Some n -> walk T' cur ns = Some n.
Proof.
  intros Hsub. induction ns as [|c ns IH]; intros cur n; cbn [walk]; [done|].
  destruct (T !! cur) as [m|] eqn:Em; cbn [mbind option_bind]; [|done]. destruct (Hsub _ _ Em) as (m'&->&Hm).
  cbn [mbind option_bind]. destruct (m !! c) as [x|] eqn:Ec; cbn [mbind option_bind]; [|done].
  rewrite (lookup_weaken _ _ _ _ Ec Hm). cbn [mbind option_bind]. apply IH.
Qed.

Lemma components_from_cons cur path : cur <> [] ->
  components_from cur path = let '(comp, rest) := component_of (length path) path in (cur ++ comp) :: components rest.
Proof.
  revert cur. induction path as [|c path IH]; intros cur Hc; cbn [components_from component_of length].
  - rewrite app_nil_r. by destruct cur.
  - destruct (Z.eqb_spec c 47) as [->|Hne].
    + rewrite app_nil_r. by destruct cur.
    + rewrite IH by (by destruct cur). destruct (component_of (length path) path). by rewrite <- app_assoc.
Qed.

Lemma component_of_room path : forall room, (length path <= room)%nat -> component_of room path = component_of (length path) path.
Proof.
  induction path as [|c path IH]; intros [|room] Hr; cbn [component_of length] in *; try done; [lia|].
  destruct (c =? 47); [done|]. by rewrite (IH room) by lia.
Qed.

Lemma component_of_rest path : forall room comp rest, component_of room path = (comp, rest) -> path = comp ++ rest.
Proof.
  induction path as [|c path IH]; intros [|room] comp rest; cbn [component_of]; try (by intros [= <- <-]).
  destruct (c =? 47); [by intros [= <- <-]|]. destruct (component_of room path) as [co re] eqn:E. intros [= <- <-].
  by rewrite (IH _ _ _ E) at 1.
Qed.

Lemma skip_slashes_components path : components (skip_slashes path) = components path.
Proof.
  induction path as [|c path IH]; [done|]. unfold components in *. cbn [skip_slashes].
  destruct (c =? 47) eqn:E; [cbn [components_from]; rewrite E; exact IH|done].
Qed.

Lemma skip_slashes_length path : (length (skip_slashes path) <= length path)%nat.
Proof. induction path as [|c path IH]; cbn [skip_slashes length]; [done|]. destruct (c =? 47); simpl; lia. Qed.

Lemma skip_slashes_head path c path' : skip_slashes path = c :: path' -> c <> 47.
Proof. induction path as [|x path IH]; cbn [skip_slashes]; [done|]. destruct (Z.eqb_spec x 47); [done|]. by intros [= <- <-]. Qed.

(** One call of [parse_path_component] on a path that fits its buffer. *)
Lemma parse_components path comp rest : (length path < 256)%nat -> parse_path_component path 256 = (comp, rest) ->
  match comp with
  | [] => components path = []
  | _ => components path = comp :: components rest /\ (length rest < length path)%nat
  end.
Proof.
  intros Hl. unfold parse_path_component. change (Z.to_nat (256 - 1)) with 255%nat. pose proof (skip_slashes_length path) as Hs.
  rewrite component_of_room by lia. rewrite <- (skip_slashes_components path). intros E.
  destruct (skip_slashes path) as [|c path'] eqn:Ep; [by injection E as <- <-|].
  pose proof (skip_slashes_head _ _ _ Ep) as Hc. cbn [component_of length] in E. rewrite (proj2 (Z.eqb_neq _ _) Hc) in E.
  destruct (component_of (length path') path') as [co re] eqn:Ec. injection E as <- <-.
  unfold components at 1. cbn [components_from app]. rewrite (proj2 (Z.eqb_neq _ _) Hc), components_from_cons by done. rewrite Ec.
  split; [done|]. pose proof (component_of_rest _ _ _ _ Ec) as Er. apply (f_equal length) in Er. rewrite length_app in Er. simpl in Hs. lia.
Qed.

(** The last component. *)
Lemma components_from_app cur p n : components_from cur (p ++ 47 :: n) = components_from cur p ++ components n.
Proof.
  revert cur. induction p as [|c p IH]; intros cur; cbn [components_from app].
  - done.
  - destruct (c =? 47); [by rewrite IH, app_assoc|apply IH].
Qed.

Lemma components_from_name cur n : 47 ∉ n -> cur ++ n <> [] -> components_from cur n = [cur ++ n].
Proof.
  revert cur. induction n as [|c n IH]; intros cur Hn Hc; cbn [components_from].
  - rewrite app_nil_r in *. by destruct cur.
  - apply not_elem_of_cons in Hn as [Hne Hn]. rewrite (proj2 (Z.eqb_neq c 47)) by done.
    rewrite IH; [by rewrite <- app_assoc|done|by destruct cur].
Qed.

Lemma last_slash_spec path : match last_slash path with
  | None => 47 ∉ path
  | Some k => 0 <= k /\ exists pre name, path = pre ++ 47 :: name /\ k = Z.of_nat (length pre) /\ 47 ∉ name
  end.
Proof.
  induction path as [|c path IH]; cbn [last_slash]; [apply not_elem_of_nil|]. destruct (last_slash path) as [k|].
  - destruct IH as (Hk&pre&name&->&->&Hn). split; [lia|]. exists (c :: pre), name. split; [done|]. split; [simpl; lia|done].
  - destruct (Z.eqb_spec c 47) as [->|Hne]; [|by apply not_elem_of_cons]. split; [done|]. by exists [], path.
Qed.

(** [split_path] on an absolute path: the parent's components, then the name. *)
Lemma split_path_spec path : starts_with_slash path = true -> (length path < 256)%nat ->
  exists parent name, split_path path = Some (parent, name) /\ (47 ∉ name) /\ parent <> [] /\
    (length parent < 256)%nat /\ (length name < 256)%nat /\ name ⊆ path /\
    (name <> [] -> components path = components parent ++ [name]).
Proof.
  intros Hs Hl. pose proof (last_slash_spec path) as H. unfold split_path. destruct (last_slash path) as [k|].
  2:{ destruct path as [|c path]; [done|]. simpl in Hs. apply Z.eqb_eq in Hs as ->. by destruct H; left. }
  destruct H as (Hk&pre&name&->&->&Hn). cbn [mbind option_bind]. rewrite length_app in Hl. simpl in Hl.
  assert (Ed : drop (Z.to_nat (Z.of_nat (length pre) + 1)) (pre ++ 47 :: name) = name).
  { replace (Z.to_nat _) with (length pre + 1)%nat by lia. rewrite drop_app_add. done. }
  assert (Et : take (Z.to_nat (Z.of_nat (length pre))) (pre ++ 47 :: name) = pre).
  { rewrite Nat2Z.id. by rewrite take_app_length. }
  rewrite Ed, Et. set (parent := if _ =? 0 then [47] else pre).
  assert (Hp : parent <> [] /\ (length parent < 256)%nat /\ components parent = components pre).
  { subst parent. destruct (Z.eqb_spec (Z.of_nat (length pre)) 0) as [E|E]; [|split_and!; [by destruct pre|lia|done]].
    destruct pre; [|simpl in E; lia]. split_and!; [done|simpl; lia|done]. }
  destruct Hp as (Hp1&Hp2&Hp3). exists parent, name.
  replace ((Z.of_nat (length parent) <? 256) && (Z.of_nat (length name) <? 256)) with true by lia.
  split_and!; [done|done|done|done|lia|set_solver|]. intros Hne. unfold components in *.
  rewrite components_from_app, Hp3. f_equal. unfold components. by rewrite components_from_name.
Qed.

(** ** Directories *)

(** The inode [d] is a directory whose blocks hold the entries [ess]. *)
Record dir_at a (d : Z) (ess : list (list dent)) : Prop := {
  da_inode : exists i, inode_at a d = Some i /\ is_dir i = true /\ i_size i = 1024 * Z.of_nat (length ess);
  da_length : (length ess <= 12)%nat;
  da_block : forall k es, ess !! k = Some es ->
    slot a d (Z.of_nat k) <> 0 /\ dir_block (a_blk a (slot a d (Z.of_nat k))) es;
  da_empty : forall k, Z.of_nat (length ess) <= k < 12 -> slot a d k = 0 }.

Definition used a (ino : Z) : bool := bit_set (a_ibm a) (ino - 1).

(** The inode is a regular file, or the number that path lookup rejects. *)
Definition leaf a (n : Z) : Prop := inodes a <= n \/ exists i, inode_at a n = Some i /\ is_dir i = false.

(** The disk holds the directories [T]. *)
Record fs_ok a (T : tree) : Prop := {
  t_inv : inv a;
  t_root : is_Some (T !! EXT2_ROOT_INODE);
  t_dir : forall d m, T !! d = Some m -> 1 <= d < inodes a /\ used a d = true /\
    exists ess, dir_at a d ess /\ NoDup (pairs (concat ess)).*1 /\ m = names (concat ess);
  t_entry : forall d m name n, T !! d = Some m -> m !! name = Some n ->
    1 <= n <= inodes a /\ used a n = true /\ (T !! n = None -> leaf a n);
  t_single : forall d m name d' m' name' n, T !! d = Some m -> m !! name = Some n ->
    T !! d' = Some m' -> m' !! name' = Some n -> T !! n = None -> d = d' /\ name = name' }.

(** ** Searching *)

Lemma slot_aget a d i k : inode_at a d = Some i -> inode_wf i -> 0 <= k < 15 -> aget (i_block i) k = Some (slot a d k).
Proof.
  intros Hat (_&_&_&_&_&_&_&_&[Hl _]&_) Hk. destruct (aget_lt (i_block i) k) as [p E]; [lia|]. unfold slot. by rewrite Hat, E.
Qed.

(** The direct slots of an inode, from slot [k]. *)
Lemma slots_from a d i k : inode_at a d = Some i -> inode_wf i -> (k < 12)%nat ->
  drop k (take 12 (i_block i)) = slot a d (Z.of_nat k) :: drop (S k) (take 12 (i_block i)).
Proof.
  intros Hat Hwf Hk. pose proof (slot_aget a d i (Z.of_nat k) Hat Hwf ltac:(lia)) as E.
  assert (El : take 12 (i_block i) !! k = Some (slot a d (Z.of_nat k))).
  { rewrite lookup_take_lt by lia. unfold aget in E. destruct (0 <=? Z.of_nat k); [|done]. by rewrite Nat2Z.id in E. }
  by rewrite (drop_S _ _ _ El).
Qed.

Lemma slot_bounds a d k : inv a -> 0 <= k < 14 -> slot a d k <> 0 -> 0 <= slot a d k < blocks a.
Proof. intros Hinv Hk Hs. eapply in_use_range; [done|]. by apply (i_range _ Hinv d (Slot k)). Qed.

(** ** What a step leaves alone *)

(** From [a] to [a'] only inodes of [D] and their bytes have changed; the inodes
    outside [E] that were stored still are. *)
Record frame (D E : Z -> Prop) a a' : Prop := {
  f_inv : inv a';
  f_geo : blocks a' = blocks a /\ first a' = first a /\ inodes a' = inodes a;
  f_tab : forall x, ~ D x -> inode_at a' x = inode_at a x;
  f_byte : forall x pos, ~ D x -> 0 <= pos < MAX_SIZE -> byte a' x pos = byte a x pos;
  f_stored : forall x, 1 <= x <= inodes a -> ~ E x -> inode_stored a x -> inode_stored a' x;
  f_mount : mountable a -> mountable a' }.

Definition none : Z -> Prop := fun _ => False.
Definition only (d : Z) : Z -> Prop := fun x => x = d.

Lemma frame_refl D E a : inv a -> frame D E a a.
Proof. by constructor. Qed.

Lemma frame_trans D E a b c : frame D E a b -> frame D E b c -> frame D E a c.
Proof.
  intros [A1 (A2&A3&A4) A5 A6 A7 A8] [B1 (B2&B3&B4) B5 B6 B7 B8]. constructor; [done|split_and!; congruence|..].
  - intros x Hx. by rewrite B5, A5.
  - intros x pos Hx Hp. by rewrite B6, A6.
  - intros x Hx He Hs. apply B7; [lia|done|]. by apply A7.
  - auto.
Qed.

Lemma frame_weaken (D E D' E' : Z -> Prop) a a' : (forall x, D x -> D' x) -> (forall x, E x -> E' x) -> frame D E a a' -> frame D' E' a a'.
Proof. intros HD HE [A1 A2 A5 A6 A7 A8]. constructor; auto. Qed.

Lemma frame_compose (D1 E1 D2 E2 D E : Z -> Prop) a b c : frame D1 E1 a b -> frame D2 E2 b c ->
  (forall x, D1 x -> D x) -> (forall x, E1 x -> E x) -> (forall x, D2 x -> D x) -> (forall x, E2 x -> E x) -> frame D E a c.
Proof. intros F1 F2 H1 H2 H3 H4. eapply frame_trans; [by eapply frame_weaken; [..|exact F1]|by eapply frame_weaken; [..|exact F2]]. Qed.

Lemma ext_frame d a a' : inv a -> ext d a a' -> frame (only d) (only d) a a'.
Proof.
  intros Hinv He. destruct (ext_bytes _ _ _ He) as [Hb _]. constructor; try apply He.
  - intros x pos Hx. by apply Hb.
  - intros x Hx Hn. apply inode_stored_ext; [apply He|by apply He|]. apply He. by apply iblock_range; [apply Hinv|].
  - apply same_super_mountable, He.
Qed.

(** Fields of an inode, its pointers kept. *)
Lemma fields_frame a d i i' : inv a -> 1 <= d <= inodes a -> inode_at a d = Some i -> inode_wf i' -> i_block i' = i_block i ->
  frame (only d) (only d) a (upd_tab d i' a).
Proof.
  intros Hinv Hd Hat Hwf Hb. destruct (fields_step a d i i' Hinv Hd Hat Hwf Hb) as [Hinv' Hby].
  assert (Ht : forall x, x <> d -> inode_at (upd_tab d i' a) x = inode_at a x).
  { intros x Hx. rewrite inode_at_upd by (done || apply Hinv). by rewrite (proj2 (Z.eqb_neq _ _)). }
  constructor; try done.
  intros x Hx Hn. by apply inode_stored_ext; [|apply Ht|].
Qed.

(** The contents of a data block of [d]. *)
Lemma data_frame a d bi b : inv a -> 0 <= bi < MAX_BLOCKS -> ref a d (leaf_of bi) <> 0 -> Z.of_nat (length b) = 1024 ->
  frame (only d) none a (upd_blk (ref a d (leaf_of bi)) b a).
Proof.
  intros Hinv Hbi Hne Hb. destruct (data_write a d bi b Hinv Hbi Hne Hb) as (Hinv'&_&Hby). constructor; try done.
  - intros x pos Hx Hp. rewrite Hby by done. by rewrite decide_False by (intros [? _]; done).
  - intros x Hx _. apply inode_stored_ext; [done|done|]. cbn. destruct (iblock a x =? ref a d (leaf_of bi)) eqn:E; [|done]. exfalso.
    pose proof (iblock_range _ _ (i_layout _ Hinv) Hx). destruct (leaf_of_ok bi Hbi) as [Hl _].
    destruct (i_range _ Hinv d _ Hl Hne) as [? _]. bools. lia.
Qed.

(** Storing the inode [d]. *)
Lemma store_frame a d i b : inv a -> 1 <= d <= inodes a -> inode_at a d = Some i ->
  splice (a_blk a (iblock a d)) (ioff d) (inode_bytes i) = Some b ->
  frame none none a (upd_blk (iblock a d) b a) /\ inode_stored (upd_blk (iblock a d) b a) d.
Proof.
  intros Hinv Hd Hat Hb. pose proof (i_layout _ Hinv) as Hl. destruct (inode_at_Some a d Hl Hd) as (i'&Hat'&Hwf).
  rewrite Hat in Hat'. injection Hat' as <-. pose proof (iblock_range _ _ Hl Hd) as Hr.
  assert (Hlb : Z.of_nat (length b) = 1024).
  { rewrite (splice_length _ _ _ _ Hb). apply l_blk; [done|]. pose proof (l_first _ Hl). lia. }
  destruct (meta_step a (upd_blk (iblock a d) b a) Hinv) as (Hinv'&_&Hby); [by apply layout_upd_blk|apply meta_eq_upd; lia|].
  split; [|by eapply inode_stored_upd; eauto]. constructor; try done.
  - intros x pos _ Hp. by apply Hby.
  - intros x Hx _ Hs. eapply inode_stored_upd; eauto.
Qed.

(** ** Directories under a frame *)

(** A block of an inode is determined by its bytes. *)
Lemma block_of_bytes a a' x k : inv a -> inv a' -> 0 <= k < 12 -> slot a x k <> 0 -> slot a' x k = slot a x k ->
  (forall pos, 0 <= pos < MAX_SIZE -> byte a' x pos = byte a x pos) -> a_blk a' (slot a' x k) = a_blk a (slot a x k).
Proof.
  intros Hi Hi' Hk Hs Es Hb. pose proof (slot_bounds a x k Hi ltac:(lia) Hs) as Hr.
  assert (Hs' : slot a' x k <> 0) by congruence. pose proof (slot_bounds a' x k Hi' ltac:(lia) Hs') as Hr'.
  pose proof (l_blk _ (i_layout _ Hi) _ Hr) as Hl. pose proof (l_blk _ (i_layout _ Hi') _ Hr') as Hl'.
  apply list_eq_aget; [lia|]. intros j Hj. specialize (Hb (k * 1024 + j) ltac:(unfold MAX_SIZE, MAX_BLOCKS; lia)).
  unfold byte in Hb. replace ((k * 1024 + j) / 1024) with k in Hb by dlia. replace ((k * 1024 + j) mod 1024) with j in Hb by dlia.
  unfold leaf_of in Hb. replace (k <? 12) with true in Hb by lia. cbn [ref] in Hb.
  by rewrite (proj2 (Z.eqb_neq _ _) Hs), (proj2 (Z.eqb_neq _ _) Hs') in Hb.
Qed.

Lemma dir_at_frame D E a a' x ess : inv a -> frame D E a a' -> ~ D x -> dir_at a x ess -> dir_at a' x ess.
Proof.
  intros Hi F Hx [(i&Hat&Hd) Hl Hb He]. pose proof (f_tab _ _ _ _ F x Hx) as Et.
  assert (Es : forall k, slot a' x k = slot a x k) by (intros k; unfold slot; by rewrite Et). split.
  - exists i. by rewrite Et.
  - done.
  - intros k es Hk. destruct (Hb k es Hk) as [Hs Hbl]. rewrite Es at 1. split; [done|]. apply lookup_lt_Some in Hk.
    rewrite (block_of_bytes a a' x (Z.of_nat k)); [done|done|apply F|lia|done|apply Es|]. intros pos Hp. by apply F.
  - intros k Hk. rewrite Es. by apply He.
Qed.

(** ** Adding an entry *)

(** Owner and permissions. *)
Definition perms a (x : Z) : option (Z * Z * Z) :=
  match inode_at a x with Some i => Some (i_mode i, i_uid i, i_gid i) | None => None end.

(** The directory [d] has got the entry [name] for [ino]. *)
Record entry_added (d : Z) (name : list Z) (ino : Z) (ess : list (list dent)) a a' : Prop := {
  ad_frame : frame (only d) none a a';
  ad_ibm : a_ibm a' = a_ibm a;
  ad_perms : perms a' d = perms a d;
  ad_dir : exists ess', dir_at a' d ess' /\ pairs (concat ess') ≡ₚ (name, ino) :: pairs (concat ess) }.

(** An existing block of the directory is replaced. *)
Lemma dir_at_block a d ess k es es' b : inv a -> dir_at a d ess -> ess !! k = Some es -> dir_block b es' ->
  let a' := upd_blk (slot a d (Z.of_nat k)) b a in
  frame (only d) none a a' /\ dir_at a' d (<[k := es']> ess).
Proof.
  intros Hi Hd Hk Hb a'. pose proof Hd as [(i&Hat&Hdir&Hsz) Hl Hbl He]. destruct (Hbl k es Hk) as [Hs _].
  apply lookup_lt_Some in Hk as Hlt. assert (Hkr : 0 <= Z.of_nat k < 12) by lia.
  assert (El : ref a d (leaf_of (Z.of_nat k)) = slot a d (Z.of_nat k)).
  { unfold leaf_of. by replace (Z.of_nat k <? 12) with true by lia. }
  assert (Hbi : 0 <= Z.of_nat k < MAX_BLOCKS) by (unfold MAX_BLOCKS; lia). destruct Hb as [Hb1 Hb2].
  pose proof (data_frame a d (Z.of_nat k) b Hi Hbi ltac:(by rewrite El) Hb1) as F. rewrite El in F. fold a' in F.
  split; [done|]. split.
  - exists i. rewrite length_insert. split_and!; [exact Hat|done|done].
  - by rewrite length_insert.
  - intros j es0. change (slot a' d (Z.of_nat j)) with (slot a d (Z.of_nat j)). unfold a'. cbn [upd_blk a_blk].
    rewrite list_lookup_insert. case_decide as Ej.
    + destruct Ej as [<- _]. intros [= <-]. by rewrite Z.eqb_refl.
    + intros Hj. destruct (Hbl j es0 Hj) as [Hsj Hbj]. split; [done|]. apply lookup_lt_Some in Hj.
      destruct (Z.eqb_spec (slot a d (Z.of_nat j)) (slot a d (Z.of_nat k))) as [E|E]; [|done]. exfalso.
      destruct (i_inj _ Hi d (Slot (Z.of_nat j)) d (Slot (Z.of_nat k))) as [_ [= ?]]; [cbn; lia|cbn; lia|done|done|].
      apply Ej. split; lia.
  - intros j Hj. rewrite length_insert in Hj. by apply He.
Qed.

(** A fresh block becomes the directory's next block. *)
Lemma dir_at_grow a d i i1 ess es p b : inv a -> 1 <= d <= inodes a -> dir_at a d ess -> (length ess < 12)%nat ->
  inode_at a d = Some i -> inode_wf i -> set_block i (Z.of_nat (length ess)) p = Some i1 -> in_use a p -> unref a p -> dir_block b es ->
  let i2 := set_size i1 (u32 (i_size i1 + 1024)) in
  let i3 := set_blocks i2 (u32 (i_blocks i2 + 1024 / 512)) in
  let a' := upd_blk p b (upd_tab d i3 a) in
  inode_wf i3 /\ frame (only d) (only d) a a' /\ dir_at a' d (ess ++ [es]) /\ perms a' d = perms a d.
Proof.
  intros Hi Hd Hda Hlt Hat Hwf Hset Hu Hun [Hb1 Hb2] i2 i3 a'. set (k := Z.of_nat (length ess)) in *.
  pose proof (in_use_range a p Hi Hu) as [Hpr Hpu]. pose proof (first_pos _ (i_layout _ Hi)) as Hfp. assert (Hp0 : p <> 0) by (destruct Hu; lia).
  destruct (set_block_ok i k p Hwf) as (i1'&Es'&Hwf1); [lia|done|]. rewrite Hset in Es'. injection Es' as <-.
  assert (Hwf3 : inode_wf i3) by (apply set_blocks_wf; [apply set_size_wf; [done|apply u32_range]|apply u32_range]).
  pose proof (da_empty _ _ _ Hda k ltac:(lia)) as Hs0.
  destruct (link_slot_step a d k i i1 p) as [Hext Href]; [done|lia|lia|done|done|done|done|done|lia|done|].
  set (a1 := upd_tab d i1 a) in *. pose proof (e_geo _ _ _ Hext) as (G1&G2&G3).
  assert (Hat1 : inode_at a1 d = Some i1) by (unfold a1; rewrite inode_at_upd by (done || apply Hi); by rewrite Z.eqb_refl).
  assert (F2 := fields_frame a1 d i1 i3 (e_inv _ _ _ Hext) ltac:(lia) Hat1 Hwf3 eq_refl).
  assert (Ea2 : upd_tab d i3 a1 = upd_tab d i3 a) by (unfold a1, upd_tab; cbn; by rewrite list_insert_insert_eq).
  rewrite Ea2 in F2. set (a2 := upd_tab d i3 a) in *.
  assert (Hat2 : inode_at a2 d = Some i3) by (unfold a2; rewrite inode_at_upd by (done || apply Hi); by rewrite Z.eqb_refl).
  assert (Hbl : aset (i_block i) k p = Some (i_block i1)).
  { unfold set_block in Hset. destruct (aset (i_block i) k p); [|done]. by injection Hset as <-. }
  assert (Hfld : i_mode i1 = i_mode i /\ i_uid i1 = i_uid i /\ i_gid i1 = i_gid i /\ i_size i1 = i_size i).
  { unfold set_block in Hset. rewrite Hbl in Hset. injection Hset as E1. by rewrite <- E1. }
  destruct Hfld as (Hmd&Hui&Hgi&Hsi).
  assert (Hsl : forall j, slot a2 d j = if decide (j = k) then p else slot a d j).
  { intros j. unfold slot. rewrite Hat2, Hat. cbn. case_decide as E.
    - subst j. by rewrite (aget_aset_eq _ _ _ _ Hbl).
    - by rewrite (aget_aset_ne _ _ _ _ _ Hbl) by done. }
  assert (El : ref a2 d (leaf_of k) = p).
  { unfold leaf_of. replace (k <? 12) with true by lia. cbn [ref]. rewrite Hsl. by rewrite decide_True. }
  assert (F3 := data_frame a2 d k b (f_inv _ _ _ _ F2) ltac:(unfold MAX_BLOCKS; lia) ltac:(by rewrite El) Hb1). rewrite El in F3.
  fold a' in F3. split; [done|]. split; [|split].
  - eapply frame_trans; [by apply ext_frame|]. eapply frame_trans; [exact F2|]. by eapply frame_weaken; [| |exact F3].
  - destruct Hda as [(i0&Hat0&Hdir&Hsz) Hl Hblk He]. rewrite Hat in Hat0. injection Hat0 as <-.
    assert (Hsm : forall j, slot a' d j = slot a2 d j) by done. split.
    + exists i3. split; [exact Hat2|]. rewrite length_app. split.
      * unfold is_dir in *. cbn. by rewrite Hmd.
      * cbn. rewrite Hsi, Hsz, u32_id by lia. lia.
    + rewrite length_app. simpl. lia.
    + intros j es0 Hj. rewrite Hsm, Hsl. apply lookup_snoc_Some in Hj as [[Hjl Hj]|[-> <-]].
      * rewrite decide_False by lia. destruct (Hblk j es0 Hj) as [Hsj Hbj]. split; [done|]. unfold a'. cbn [upd_blk a_blk].
        destruct (Z.eqb_spec (slot a d (Z.of_nat j)) p) as [E|_]; [|done]. destruct (Hun d (Slot (Z.of_nat j))); [cbn; lia|done].
      * fold k. rewrite decide_True by done. split; [done|]. unfold a'. cbn [upd_blk a_blk]. by rewrite Z.eqb_refl.
    + intros j Hj. rewrite length_app in Hj. simpl in Hj. rewrite Hsm, Hsl, decide_False by lia. apply He. lia.
  - unfold perms. change (inode_at a' d) with (inode_at a2 d). rewrite Hat2, Hat. cbn. by rewrite Hmd, Hui, Hgi.
Qed.

(** ** Inode numbers *)

Definition upd_ibm (n : Z) (ibm : list Z) a : astate :=
  mk_a (set_free_inodes n (a_sb a)) (a_bm a) ibm (a_tab a) (a_blk a).

Lemma layout_upd_ibm n ibm a : layout a -> bitmap_ok ibm (inodes a) -> u32_ok n -> layout (upd_ibm n ibm a).
Proof. intros [H1 H2 H3 H4 H5 H6 H7 H8 H9 H10] Hb Hn. constructor; try done. destruct H1 as (?&?). split; [|done]. cbn. tauto. Qed.

Lemma ibm_frame n ibm a : inv a -> bitmap_ok ibm (inodes a) -> u32_ok n -> frame none none a (upd_ibm n ibm a).
Proof.
  intros Hi Hb Hn. constructor; try done. pose proof (layout_upd_ibm n ibm a (i_layout _ Hi) Hb Hn). by destruct Hi; constructor.
Qed.

(** A direct slot of [ino] is emptied; the block it referred to may be freed. *)
Lemma drop_slot_frame a a' ino k i i' : inv a -> layout a' -> blocks a' = blocks a -> first a' = first a -> inodes a' = inodes a ->
  0 <= k < 12 -> inode_at a ino = Some i -> inode_at a' ino = Some i' -> aset (i_block i) k 0 = Some (i_block i') ->
  (forall x, x <> ino -> inode_at a' x = inode_at a x) -> (forall n, a_blk a' n = a_blk a n) ->
  (forall p, 0 <= p -> p <> slot a ino k -> bit_set (a_bm a) p = true -> bit_set (a_bm a') p = true) ->
  (mountable a -> mountable a') -> frame (only ino) (only ino) a a'.
Proof.
  intros Hi Hl Gb Gf Gi Hk Hat Hat' Hset Htab Hblk Hbm Hmt.
  assert (Hsl : forall x j, slot a' x j = if decide (x = ino /\ j = k) then 0 else slot a x j).
  { intros x j. unfold slot. destruct (decide (x = ino)) as [->|Hx].
    - rewrite Hat, Hat'. case_decide as E; [destruct E as [_ ->]; by rewrite (aget_aset_eq _ _ _ _ Hset)|].
      rewrite (aget_aset_ne _ _ _ _ _ Hset); [done|]. intros ->. by apply E.
    - rewrite Htab by done. rewrite decide_False by naive_solver. done. }
  assert (Hen : forall t j, entry a' t j = entry a t j) by (intros; unfold entry, word; by rewrite Hblk).
  assert (Href : forall x l, loc_ok l -> ref a' x l = if decide (x = ino /\ l = Slot k) then 0 else ref a x l).
  { intros x [j|j|j|j j'] Hok; cbn [ref]; rewrite ?Hen, Hsl.
    - destruct (decide (x = ino /\ j = k)) as [[-> ->]|Hn]; [by rewrite decide_True|]. rewrite decide_False; [done|]. naive_solver.
    - rewrite !decide_False by (intros [_ ?]; (lia || congruence)). done.
    - rewrite !decide_False by (intros [_ ?]; (lia || congruence)). done.
    - rewrite !decide_False by (intros [_ ?]; (lia || congruence)). done. }
  constructor; try done.
  - constructor; [done| |].
    + intros x l Hok. rewrite Href by done. case_decide as E; [done|]. intros Hn. destruct (i_range _ Hi x l Hok Hn) as [Hr Hb].
      unfold in_use. rewrite Gb, Gf. split; [done|]. pose proof (first_pos _ (i_layout _ Hi)). apply Hbm; [lia| |done]. intros Ep.
      apply E. apply (i_inj _ Hi x l ino (Slot k)); [done|cbn; lia|exact Ep|done].
    + intros x l x' l' Hok Hok'. rewrite !Href by done. repeat case_decide; try (intros; congruence). by apply Hi.
  - intros x pos Hx Hp. unfold byte. destruct (leaf_of_ok _ (byte_block _ Hp)) as [Hok _]. rewrite Href by done.
    rewrite decide_False by (intros [? _]; done). by rewrite Hblk.
  - intros x Hx Hn. apply inode_stored_ext; [done|by apply Htab|apply Hblk].
Qed.

(** Emptying a slot in the table only. *)
Lemma new_inode_frame a ino i i' : inv a -> 1 <= ino <= inodes a -> inode_at a ino = Some i -> inode_wf i' ->
  aset (i_block i) 0 0 = Some (i_block i') -> frame (only ino) (only ino) a (upd_tab ino i' a).
Proof.
  intros Hi Hr Hat Hwf Hset. apply (drop_slot_frame _ _ ino 0 i i'); try done; [by apply layout_upd_tab; [apply Hi|]| |].
  - rewrite inode_at_upd by (done || apply Hi). by rewrite Z.eqb_refl.
  - intros x Hx. rewrite inode_at_upd by (done || apply Hi). by rewrite (proj2 (Z.eqb_neq _ _)).
Qed.

(** All direct slots of the inode are taken. *)
Definition dir_full a (d : Z) : Prop := forall k, 0 <= k < 12 -> slot a d k <> 0.

(** ** Directories of the whole disk *)

Definition either (d ino : Z) : Z -> Prop := fun x => x = d \/ x = ino.

(** Nothing a directory refers to has changed. *)
Lemma fs_ok_frame (D E : Z -> Prop) a a' T : fs_ok a T -> frame D E a a' -> (forall x, used a x = true -> ~ D x /\ used a' x = true) -> fs_ok a' T.
Proof.
  intros Hok F Hu. pose proof (f_geo _ _ _ _ F) as (_&_&Gi). split.
  - apply F.
  - apply Hok.
  - intros d m Em. destruct (t_dir _ _ Hok d m Em) as (Hd&Hud&ess&Hda&Hn&Hm). destruct (Hu d Hud) as [Hnd Hud']. rewrite Gi.
    split_and!; [lia|lia|done|]. exists ess. split; [|done]. by eapply dir_at_frame; [apply Hok|..].
  - intros d m name n Em En. destruct (t_entry _ _ Hok _ _ _ _ Em En) as (Hr&Hun&Hl). destruct (Hu n Hun) as [Hnd Hun']. rewrite Gi.
    split_and!; [lia|lia|done|]. intros Hno. destruct (Hl Hno) as [?|(i&Hi)]; [left; lia|right]. exists i. by rewrite (f_tab _ _ _ _ F).
  - apply Hok.
Qed.

(** The directory [d] has got a name for a fresh inode. *)
Lemma fs_ok_create E a a' T d m name ino ess ess' : fs_ok a T -> T !! d = Some m -> m !! name = None -> used a ino = false ->
  1 <= ino <= inodes a -> frame (either d ino) E a a' -> (forall x, 1 <= x -> used a' x = if x =? ino then true else used a x) ->
  NoDup (pairs (concat ess)).*1 -> m = names (concat ess) -> dir_at a' d ess' -> pairs (concat ess') ≡ₚ (name, ino) :: pairs (concat ess) ->
  leaf a' ino -> fs_ok a' (<[d := <[name := ino]> m]> T).
Proof.
  intros Hok Em En Hfree Hino F Hu Hnd Hm Hda Hp Hleaf. pose proof (f_geo _ _ _ _ F) as (_&_&Gi).
  destruct (t_dir _ _ Hok d m Em) as (Hd&Hud&_). assert (Hdi : d <> ino) by congruence.
  assert (Hti : T !! ino = None).
  { destruct (T !! ino) as [mi|] eqn:E1; [|done]. destruct (t_dir _ _ Hok _ _ E1) as (_&?&_). congruence. }
  assert (Hue : forall d1 m1 n1 x, T !! d1 = Some m1 -> m1 !! n1 = Some x -> x <> ino).
  { intros d1 m1 n1 x E1 E2 ->. destruct (t_entry _ _ Hok _ _ _ _ E1 E2) as (_&?&_). congruence. }
  assert (Hnd' : NoDup (pairs (concat ess')).*1).
  { rewrite Hp. cbn. apply NoDup_cons. split; [|done]. subst m. by apply not_elem_of_list_to_map_2. }
  assert (Hm' : <[name := ino]> m = names (concat ess')).
  { unfold names. rewrite (list_to_map_proper _ _ Hnd' Hp). cbn. by rewrite Hm. }
  assert (Hold : forall d1 m1 n1 x, <[d := <[name := ino]> m]> T !! d1 = Some m1 -> m1 !! n1 = Some x ->
    (d1 = d /\ n1 = name /\ x = ino) \/ (x <> ino /\ exists m0, T !! d1 = Some m0 /\ m0 !! n1 = Some x)).
  { intros d1 m1 n1 x [[<- <-]|[Hne E1]]%lookup_insert_Some E2.
    - apply lookup_insert_Some in E2 as [[<- <-]|[Hn E2]]; [by left|right]. split; [by eapply Hue|eauto].
    - right. split; [by eapply Hue|eauto]. }
  assert (Hnone : forall x, <[d := <[name := ino]> m]> T !! x = None -> x <> d /\ T !! x = None).
  { intros x [? ?]%lookup_insert_None. done. }
  split.
  - apply F.
  - apply lookup_insert_is_Some'. right. apply Hok.
  - intros d1 m1 [[<- <-]|[Hne E1]]%lookup_insert_Some.
    + rewrite Gi, Hu by lia. rewrite (proj2 (Z.eqb_neq _ _)) by done. split_and!; [lia|lia|done|]. exists ess'. done.
    + destruct (t_dir _ _ Hok d1 m1 E1) as (Hd1&Hud1&ess1&Hda1&Hn1&Hm1). rewrite Gi, Hu by lia.
      assert (d1 <> ino) by congruence. rewrite (proj2 (Z.eqb_neq _ _)) by done.
      split_and!; [lia|lia|done|]. exists ess1. split; [|done].
      eapply dir_at_frame; [apply Hok|exact F| |done]. intros [?|?]; congruence.
  - intros d1 m1 n1 x E1 E2. rewrite Gi. destruct (Hold _ _ _ _ E1 E2) as [(->&->&->)|(Hx&m0&E1'&E2')].
    + rewrite Hu, Z.eqb_refl by lia. done.
    + destruct (t_entry _ _ Hok _ _ _ _ E1' E2') as (Hr&Hux&Hl). rewrite Hu by lia. rewrite (proj2 (Z.eqb_neq _ _)) by done.
      split_and!; [lia|lia|done|]. intros [Hxd Hno]%Hnone. destruct (Hl Hno) as [?|(i&Hi)]; [left; lia|right]. exists i.
      rewrite (f_tab _ _ _ _ F); [done|]. by intros [?|?].
  - intros d1 m1 n1 d2 m2 n2 x E1 E2 E3 E4 [Hxd Hno]%Hnone.
    destruct (Hold _ _ _ _ E1 E2) as [(->&->&->)|(Hx&m0&E1'&E2')], (Hold _ _ _ _ E3 E4) as [(->&->&?)|(Hx'&m3&E3'&E4')]; try done.
    eapply (t_single _ _ Hok); eauto.
Qed.

(** The directory [d] has lost the name of a regular file. *)
Lemma fs_ok_unlink E a a' T d m name n ess ess' : fs_ok a T -> T !! d = Some m -> m !! name = Some n -> T !! n = None ->
  frame (either d n) E a a' -> (forall x, 1 <= x -> used a' x = if x =? n then false else used a x) ->
  NoDup (pairs (concat ess)).*1 -> m = names (concat ess) -> dir_at a' d ess' -> pairs (concat ess) ≡ₚ (name, n) :: pairs (concat ess') ->
  fs_ok a' (<[d := delete name m]> T).
Proof.
  intros Hok Em En Hno F Hu Hnd Hm Hda Hp. pose proof (f_geo _ _ _ _ F) as (_&_&Gi).
  destruct (t_dir _ _ Hok d m Em) as (Hd&Hud&_). assert (Hdn : d <> n) by congruence.
  assert (Hdom : forall x mx, T !! x = Some mx -> x <> n) by (intros x mx E1 ->; congruence).
  assert (Hnd' : (name ∉ (pairs (concat ess')).*1) /\ NoDup (pairs (concat ess')).*1) by (rewrite Hp in Hnd; by apply NoDup_cons in Hnd).
  assert (Hm' : delete name m = names (concat ess')).
  { rewrite Hm. unfold names. rewrite (list_to_map_proper _ _ Hnd Hp). cbn. apply delete_insert_id. apply not_elem_of_list_to_map_1, Hnd'. }
  assert (Hold : forall d1 m1 n1 x, <[d := delete name m]> T !! d1 = Some m1 -> m1 !! n1 = Some x ->
    x <> n /\ exists m0, T !! d1 = Some m0 /\ m0 !! n1 = Some x).
  { intros d1 m1 n1 x [[<- <-]|[Hne E1]]%lookup_insert_Some E2.
    - apply lookup_delete_Some in E2 as [Hn1 E2]. split; [|eauto]. intros ->. by destruct (t_single _ _ Hok _ _ _ _ _ _ _ Em E2 Em En Hno).
    - split; [|eauto]. intros ->. by destruct (t_single _ _ Hok _ _ _ _ _ _ _ E1 E2 Em En Hno). }
  assert (Hnone : forall x, <[d := delete name m]> T !! x = None -> x <> d /\ T !! x = None) by by intros x [? ?]%lookup_insert_None.
  split.
  - apply F.
  - apply lookup_insert_is_Some'. right. apply Hok.
  - intros d1 m1 [[<- <-]|[Hne E1]]%lookup_insert_Some.
    + rewrite Gi, Hu by lia. rewrite (proj2 (Z.eqb_neq _ _)) by done. split_and!; [lia|lia|done|]. exists ess'. by destruct Hnd'.
    + destruct (t_dir _ _ Hok d1 m1 E1) as (Hd1&Hud1&ess1&Hda1&Hn1&Hm1). pose proof (Hdom _ _ E1). rewrite Gi, Hu by lia.
      rewrite (proj2 (Z.eqb_neq _ _)) by done. split_and!; [lia|lia|done|]. exists ess1. split; [|done].
      eapply dir_at_frame; [apply Hok|exact F| |done]. intros [?|?]; congruence.
  - intros d1 m1 n1 x E1 E2. rewrite Gi. destruct (Hold _ _ _ _ E1 E2) as (Hx&m0&E1'&E2').
    destruct (t_entry _ _ Hok _ _ _ _ E1' E2') as (Hr&Hux&Hl). rewrite Hu by lia. rewrite (proj2 (Z.eqb_neq _ _)) by done.
    split_and!; [lia|lia|done|]. intros [Hxd Hnx]%Hnone. destruct (Hl Hnx) as [?|(i&Hi)]; [left; lia|right]. exists i.
    rewrite (f_tab _ _ _ _ F); [done|]. by intros [?|?].
  - intros d1 m1 n1 d2 m2 n2 x E1 E2 E3 E4 [Hxd Hnx]%Hnone.
    destruct (Hold _ _ _ _ E1 E2) as (Hx&m0&E1'&E2'), (Hold _ _ _ _ E3 E4) as (Hx'&m3&E3'&E4').
    eapply (t_single _ _ Hok); eauto.
Qed.

Section Runs.
Context {X : Type} {dev_ok : ramdisk_device X -> Prop} {image : ramdisk_device X -> list Z}.
Context `{HD : Disk X dev_ok image}.
Context (alloc : nat -> Z -> option (list Z)).
Context (alloc_total : forall k n, 0 <= n -> exists m, alloc k n = Some m /\ Z.of_nat (length m) = n).
Abbreviation FS := (ext2_filesystem (X := X)).
Abbreviation rep := (rep (dev_ok := dev_ok) (image := image)).
Implicit Types (fs : FS).

Lemma dir_block_length b es : dir_block b es -> (length es < S (Z.to_nat 1024))%nat.
Proof. intros [_ Hc]. destruct (chain_recs _ _ _ _ Hc) as (?&?&_). lia. Qed.

Lemma find_in_blocks_runs a d i ess name : inv a -> inode_at a d = Some i -> inode_wf i -> dir_at a d ess -> name <> [] ->
  forall n k fs block, rep fs a -> (k + n = 12)%nat -> Z.of_nat (length block) = 1024 ->
  runs (find_in_blocks (drop k (take 12 (i_block i))) block (i_size i) name) fs
    (fun r fs' => rep fs' a /\ r = default 0 (names (concat (drop k ess)) !! name)).
Proof.
  intros Hinv Hat Hwf Hd Hne. induction n as [|n IH]; intros k fs block Hr Hk Hb.
  { rewrite drop_ge by (rewrite length_take; lia). cbn [find_in_blocks]. mstep. split; [done|].
    rewrite drop_ge by (pose proof (da_length _ _ _ Hd); lia). done. }
  rewrite (slots_from a d i k Hat Hwf) by lia. cbn [find_in_blocks]. destruct (ess !! k) as [es|] eqn:Ek.
  - destruct (da_block _ _ _ Hd k es Ek) as [Hs Hblk]. rewrite (proj2 (Z.eqb_neq _ _) Hs).
    do 2 mstep. rewrite (rep_bsize _ _ Hr).
    muse read_block_runs as (->&Hr2); [exact Hr|apply slot_bounds; [done|lia|done]|done|]. mstep.
    destruct (da_inode _ _ _ Hd) as (i'&Hat'&_&Hsz). rewrite Hat in Hat'. injection Hat' as <-. apply lookup_lt_Some in Ek as Hlt.
    eapply runs_need.
    { apply find_in_block_spec; [done|lia|apply Hblk|lia|by eapply dir_block_length]. }
    rewrite find_es_names, (drop_S _ _ _ Ek). cbn [concat]. rewrite names_app.
    destruct (names es !! name) as [x|] eqn:Ex.
    + mstep. split; [done|]. by rewrite (lookup_union_Some_l _ _ _ _ Ex).
    + rewrite lookup_union_r by done. apply IH; [done|lia|]. apply l_blk; [apply Hinv|apply slot_bounds; [done|lia|done]].
  - apply lookup_ge_None in Ek. rewrite (da_empty _ _ _ Hd (Z.of_nat k)) by lia. rewrite Z.eqb_refl. mstep. split; [done|].
    by rewrite drop_ge.
Qed.

Lemma find_entry_runs fs a T d name : rep fs a -> fs_ok a T -> 1 <= d <= inodes a -> (T !! d = None -> leaf a d) -> name <> [] ->
  runs (find_entry_in_dir alloc d name) fs
    (fun r fs' => rep fs' a /\ r = default 0 (m ← T !! d; m !! name)).
Proof.
  intros Hr Hok Hd Hleaf Hne. unfold find_entry_in_dir. do 2 mstep. rewrite (r_super _ _ Hr). fold (inodes a).
  destruct (T !! d) as [m|] eqn:Em; cbn [mbind option_bind].
  - destruct (t_dir _ _ Hok d m Em) as (Hdr&_&ess&Hda&_&->). destruct (Z.leb_spec (inodes a) d); [lia|].
    muse get_inode_runs giving i as (Hat&Hwf&->); [exact Hr|lia|]. destruct (da_inode _ _ _ Hda) as (i'&Hat'&Hdir&_).
    rewrite Hat in Hat'. injection Hat' as <-. rewrite Hdir. cbn [negb]. rewrite (l_bsize _ (r_layout _ _ Hr)).
    muse kmalloc_runs as (b&->&Hb&Hr1); [done|exact Hr|lia|].
    eapply (find_in_blocks_runs a d i ess name (t_inv _ _ Hok) Hat Hwf Hda Hne 12 0); done.
  - destruct (Z.leb_spec (inodes a) d); [by mstep|]. muse get_inode_runs giving i as (Hat&Hwf&->); [exact Hr|lia|].
    destruct (Hleaf eq_refl) as [?|(i'&Hat'&Hnd)]; [lia|]. rewrite Hat in Hat'. injection Hat' as <-. rewrite Hnd. cbn [negb]. by mstep.
Qed.

(** Every inode a walk reaches is in range. *)
Lemma walk_ok a T ns : fs_ok a T -> forall cur n, 1 <= cur <= inodes a -> used a cur = true -> (T !! cur = None -> leaf a cur) ->
  walk T cur ns = Some n -> 1 <= n <= inodes a /\ used a n = true /\ (T !! n = None -> leaf a n).
Proof.
  intros Hok. induction ns as [|c ns IH]; intros cur n Hc Hu Hl; cbn [walk]; [by intros [= <-]|].
  destruct (T !! cur) as [m|] eqn:Em; cbn [mbind option_bind]; [|done]. destruct (m !! c) as [x|] eqn:Ec; cbn [mbind option_bind]; [|done].
  destruct (t_entry _ _ Hok _ _ _ _ Em Ec) as (Hx&Hux&Hlx). by apply IH.
Qed.

Lemma lookup_from_runs a T : fs_ok a T -> forall fuel path fs cur, rep fs a -> 1 <= cur <= inodes a ->
  (T !! cur = None -> leaf a cur) -> (length path < 256)%nat -> (length path < fuel)%nat ->
  runs (lookup_from alloc fuel cur path) fs (fun r fs' => rep fs' a /\ r = default 0 (walk T cur (components path))).
Proof.
  intros Hok. induction fuel as [|fuel IH]; intros path fs cur Hr Hc Hl Hp Hf; [lia|]. cbn [lookup_from].
  destruct (parse_path_component path 256) as [comp rest] eqn:Ep. pose proof (parse_components _ _ _ Hp Ep) as Hpc.
  destruct comp as [|c comp]; [rewrite Hpc; by mstep|]. destruct Hpc as [-> Hlt].
  muse find_entry_runs giving r as (Hr1&->); [exact Hr|exact Hok|done|done|done|]. cbn [walk].
  destruct (T !! cur) as [m|] eqn:Em; cbn [mbind option_bind from_option id Z.eqb]; [|by mstep].
  destruct (m !! (c :: comp)) as [x|] eqn:Ec; cbn [mbind option_bind from_option id Z.eqb]; [|by mstep].
  destruct (t_entry _ _ Hok _ _ _ _ Em Ec) as (Hx&_&Hlx). destruct (Z.eqb_spec x 0); [lia|]. apply IH; try done; lia.
Qed.

Lemma root_ok a T : fs_ok a T -> 1 <= EXT2_ROOT_INODE <= inodes a /\ used a EXT2_ROOT_INODE = true /\ (T !! EXT2_ROOT_INODE = None -> leaf a EXT2_ROOT_INODE).
Proof.
  intros Hok. destruct (t_root _ _ Hok) as [m Em]. destruct (t_dir _ _ Hok _ _ Em) as (Hd&Hu&_). split; [lia|]. split; [done|]. by rewrite Em.
Qed.

Lemma lookup_runs fs a T path : rep fs a -> fs_ok a T -> path <> [] -> (length path < 256)%nat ->
  runs (ext2_lookup_inode alloc path) fs
    (fun r fs' => rep fs' a /\ r = default 0 (walk T EXT2_ROOT_INODE (components path))).
Proof.
  intros Hr Hok Hne Hl. unfold ext2_lookup_inode. destruct path as [|c path]; [done|].
  destruct (root_ok _ _ Hok) as (Hroot&_&Hrl). case_bool_decide as E.
  - injection E as -> ->. by mstep.
  - apply lookup_from_runs; try done. lia.
Qed.

(** The names after a block's entries were replaced. *)
Lemma pairs_insert (ess : list (list dent)) : forall k es es', ess !! k = Some es ->
  pairs (concat (<[k := es']> ess)) ++ pairs es ≡ₚ pairs es' ++ pairs (concat ess).
Proof.
  induction ess as [|e0 ess IH]; intros [|k] es es' Hk; simpl in Hk; try done.
  - injection Hk as ->. change (<[O := es']> (es :: ess)) with (es' :: ess). cbn [concat]. rewrite !pairs_app. solve_Permutation.
  - change (<[S k := es']> (e0 :: ess)) with (e0 :: <[k := es']> ess). cbn [concat]. rewrite !pairs_app, <- app_assoc, (IH _ _ _ Hk). solve_Permutation.
Qed.

(** A block with a single entry. *)
Lemma new_block_spec ino ftype name : name_ok name -> 0 <= ino < 2 ^ 32 -> 0 <= ftype < 256 ->
  exists b1 b2, put_entry (replicate (Z.to_nat 1024) 0) 0 ino (Z.of_nat (length name)) ftype name = Some b1 /\
    put16 b1 4 1024 = Some b2 /\ dir_block b2 [Dent ino ftype name 1024].
Proof.
  intros Hn Hi Ht. set (z := replicate (Z.to_nat 1024) 0). assert (Hz : Z.of_nat (length z) = 1024) by (unfold z; rewrite length_replicate; lia).
  pose proof Hn as [_ Hl]. set (e := Dent ino ftype name 0). assert (Hnl : nlen e = Z.of_nat (length name)) by done.
  destruct (put_entry_spec z 0 e) as (b1&E1&[L1 A1]&He); [done|done|done|lia|lia|vm_compute; reflexivity|].
  destruct (put16_at b1 4 1024) as (b2&E2&[L2 A2]&G2); [lia|lia|lia|]. exists b1, b2. split; [exact E1|]. split; [done|].
  split; [lia|]. split_and!; [|split; [done|]|done].
  - apply (entry_rerec b1 b2 0 e 1024 L2); [intros i Hx; apply A2; lia|exact G2|exact He].
  - cbn. destruct (entry_len_spec (nlen e)) as [_ ?]; [lia|]. change (nlen (Dent ino ftype name 1024)) with (nlen e). split_and!; lia || done.
Qed.

Lemma add_entry_slots_runs a d i ess name ino ftype : inv a -> 1 <= d <= inodes a -> inode_at a d = Some i -> inode_wf i -> dir_at a d ess ->
  name_ok name -> 0 < ino < 2 ^ 32 -> 0 <= ftype < 256 ->
  forall n k fs block, rep fs a -> (k + n = 12)%nat -> (k <= length ess)%nat -> Z.of_nat (length block) = 1024 ->
  runs (add_entry_slots alloc (S n) (Z.of_nat k) d ino ftype name block) fs (fun r fs' =>
    (r = -1 /\ rep fs' a /\ (full a \/ length ess = 12%nat)) \/
    (r = 0 /\ exists a', rep fs' a' /\ entry_added d name ino ess a a')).
Proof.
  intros Hinv Hd Hat Hwf Hda Hname Hino Hft. induction n as [|n IH]; intros k fs block Hr Hk Hke Hb.
  { cbn [add_entry_slots]. replace (Z.of_nat k <? 12) with false by lia. mstep. left. split; [done|]. split; [done|]. right.
    pose proof (da_length _ _ _ Hda). lia. }
  cbn [add_entry_slots]. replace (Z.of_nat k <? 12) with true by lia. do 2 mstep. rewrite (rep_bsize _ _ Hr).
  muse get_inode_runs giving i0 as (Hat0&_&->); [exact Hr|lia|]. rewrite Hat in Hat0. injection Hat0 as <-.
  mstep. eapply runs_need; [apply (slot_aget a d i (Z.of_nat k) Hat Hwf); lia|].
  destruct (ess !! k) as [es|] eqn:Ek.
  - destruct (da_block _ _ _ Hda k es Ek) as [Hs Hblk]. rewrite (proj2 (Z.eqb_neq _ _) Hs).
    muse read_block_runs as (->&Hr2); [exact Hr|apply slot_bounds; [done|lia|done]|done|]. mstep. apply lookup_lt_Some in Ek as Hlt.
    set (new := Dent ino ftype name 1024). assert (Hnew : dent_ok new).
    { destruct (entry_len_spec (nlen new)) as [_ ?]; [unfold nlen; lia|]. unfold nlen in *. destruct Hname as [? ?]. cbn in *.
      split_and!; try done; unfold nlen; cbn; lia. }
    pose proof Hblk as [Hlen Hch]. assert (Hnz : n_ino new <> 0) by (cbn; lia).
    pose proof (place_in_block_spec new es Hnew Hnz (S (Z.to_nat 1024)) _ 0 Hlen Hch ltac:(lia) ltac:(by eapply dir_block_length)) as Hp.
    unfold nlen in Hp. cbn [n_ino n_type n_name new] in Hp. destruct (place_es new es) as [es'|] eqn:Ep.
    + destruct Hp as (b'&Ep'&[Hl' _]&Hc'). eapply runs_need; [exact Ep'|].
      muse write_block_runs as (->&Hr3); [exact Hr2|apply slot_bounds; [done|lia|done]|lia|]. mstep. right. split; [done|].
      eexists. split; [exact Hr3|]. destruct (dir_at_block a d ess k es es' b' Hinv Hda Ek) as [F Hda']; [split; [lia|done]|].
      split; [done|done|done|]. eexists. split; [exact Hda'|].
      apply (Permutation_app_inv_r (pairs es)). rewrite (pairs_insert _ _ _ _ Ek), (place_es_pairs new es es' Hnz Ep).
      cbn [n_name n_ino new]. solve_Permutation.
    + eapply runs_need; [exact Hp|]. replace (Z.of_nat k + 1) with (Z.of_nat (S k)) by lia.
      apply IH; [done|lia|lia|done].
  - apply lookup_ge_None in Ek. assert (Ekl : k = length ess) by lia. rewrite (da_empty _ _ _ Hda (Z.of_nat k)) by lia. rewrite Z.eqb_refl.
    muse alloc_block_runs giving p as Hp; [exact Hr|].
    destruct Hp as [(->&Hr1&Hf)|(Hp&Hc&bm&Hr1&Hbm)]; [rewrite Z.eqb_refl; mstep; left; auto|].
    pose proof (first_pos _ (i_layout _ Hinv)) as Hfp. rewrite (proj2 (Z.eqb_neq p 0)) by lia.
    destruct (ext_alloc d a p bm Hinv (r_layout _ _ Hr1) Hp Hc Hbm) as (He1&Hu1&Hun1). set (a1 := upd_bm bm a) in *.
    assert (Hda1 : dir_at a1 d ess) by (destruct Hda; by split).
    destruct (set_block_ok i (Z.of_nat k) p Hwf) as (i1&Es&Hwf1); [lia|by apply (in_use_range a1); [apply He1|]|].
    destruct (new_block_spec ino ftype name Hname ltac:(lia) Hft) as (b1&b2&E1&E2&Hbl). subst k.
    destruct (dir_at_grow a1 d i i1 ess _ p b2 (e_inv _ _ _ He1) Hd Hda1 ltac:(lia) Hat Hwf Es Hu1 Hun1 Hbl) as (Hwf3&F1&Hda2&Hpm).
    mstep. eapply runs_need; [exact Es|]. muse put_inode_runs as Hr2; [exact Hr1|exact Hd|exact Hwf3|].
    mstep. eapply runs_need; [by apply memset_ok|]. mstep. eapply runs_need; [exact E1|]. mstep. eapply runs_need; [exact E2|].
    muse write_block_runs as (->&Hr3); [exact Hr2|change (blocks (upd_tab _ _ a1)) with (blocks a); lia|apply Hbl|].
    muse write_inode_runs as (->&i4&b4&Hat4&Eb4&Hr4); [done|exact Hr3|exact Hd|]. mstep. right. split; [done|].
    match type of Hr3 with rep _ ?x => set (a2 := x) in * end.
    destruct (store_frame a2 d i4 b4 (f_inv _ _ _ _ F1) Hd Hat4 Eb4) as [F2 Hst]. eexists. split; [exact Hr4|].
    assert (F : frame (only d) (only d) a (upd_blk (iblock a2 d) b4 a2)).
    { eapply frame_trans; [apply (ext_frame d a a1 Hinv He1)|]. eapply frame_trans; [exact F1|]. by eapply frame_weaken; [| |exact F2]. }
    split.
    + destruct F as [A1 A2 A3 A4 A5 A6]. constructor; try done. intros x Hx _ Hs.
      destruct (decide (x = d)) as [->|Hne]; [exact Hst|by apply A5].
    + done.
    + exact Hpm.
    + exists (ess ++ [[Dent ino ftype name 1024]]). split; [apply (dir_at_frame none none a2); [apply F1|exact F2|by intros []|exact Hda2]|].
      rewrite concat_app, pairs_app. cbn [concat app]. rewrite pairs_cons. cbn [n_ino n_name].
      rewrite (proj2 (Z.eqb_neq ino 0)) by lia. cbn [app]. solve_Permutation.
Qed.

(** No inode number is left. *)
Definition no_inode a : Prop := forall n, 12 <= n <= inodes a -> used a n = true.

Lemma alloc_inode_runs fs a : rep fs a ->
  runs ext2_alloc_inode_num fs (fun r fs' =>
    (r = 0 /\ rep fs' a /\ no_inode a) \/
    (12 <= r <= inodes a /\ used a r = false /\ exists n ibm, rep fs' (upd_ibm n ibm a) /\ bitmap_ok ibm (inodes a) /\ u32_ok n /\
       forall j, 0 <= j -> bit_set ibm j = if j =? r - 1 then true else bit_set (a_ibm a) j)).
Proof.
  intros Hr. pose proof (r_layout _ _ Hr) as Hl. pose proof (l_inodes _ Hl) as Hin. unfold ext2_alloc_inode_num. do 2 mstep. do 2 mstep.
  rewrite (r_super _ _ Hr), (r_ibm _ _ Hr). fold (inodes a). unfold no_inode, used.
  destruct (Z.ltb_spec 11 (inodes a)); [|mstep; left; split_and!; [done|done|intros; lia]].
  mstep. eapply runs_need; [done|].
  destruct (find_clear_spec _ _ (l_ibm _ Hl) (S (Z.to_nat (inodes a - 11))) 11) as [(k&Ek&Hk&Hc&_)|[Ek Hall]]; [lia|lia| |].
  - mstep. eapply runs_need; [exact Ek|]. destruct (set_bit_spec _ _ k (l_ibm _ Hl) ltac:(lia)) as (bm'&Es&Hok&Hb).
    mstep. eapply runs_need; [exact Es|]. do 2 mstep. do 2 mstep. mstep. right. rewrite u32_id by lia. replace (k + 1 - 1) with k by lia.
    split; [lia|]. split; [done|]. exists (u32 (free_inodes (a_sb a) - 1)), bm'.
    pose proof (layout_upd_ibm (u32 (free_inodes (a_sb a) - 1)) bm' a Hl Hok (u32_range _)).
    split; [by destruct Hr|]. split; [done|]. split; [apply u32_range|done].
  - mstep. eapply runs_need; [exact Ek|]. cbn beta iota. mstep. left. split_and!; [done|done|]. intros n Hn. apply Hall. lia.
Qed.

Lemma free_inode_runs fs a ino : rep fs a -> 1 <= ino <= inodes a ->
  runs (ext2_free_inode_num ino) fs (fun _ fs' => exists n ibm, rep fs' (upd_ibm n ibm a) /\ bitmap_ok ibm (inodes a) /\ u32_ok n /\
       forall j, 0 <= j -> bit_set ibm j = if j =? ino - 1 then false else bit_set (a_ibm a) j).
Proof.
  intros Hr Hi. pose proof (r_layout _ _ Hr) as Hl. pose proof (l_inodes _ Hl) as Hin. unfold ext2_free_inode_num. do 2 mstep.
  rewrite (r_super _ _ Hr). fold (inodes a). replace ((0 <? ino) && (ino <=? inodes a)) with true by lia. do 2 mstep.
  rewrite (r_ibm _ _ Hr). mstep. eapply runs_need; [done|].
  destruct (clear_bit_spec _ _ (ino - 1) (l_ibm _ Hl) ltac:(lia)) as (bm'&Es&Hok&Hb).
  mstep. eapply runs_need; [exact Es|]. do 2 mstep. mstep. exists (u32 (free_inodes (a_sb a) + 1)), bm'.
  pose proof (layout_upd_ibm (u32 (free_inodes (a_sb a) + 1)) bm' a Hl Hok (u32_range _)).
  split; [by destruct Hr|]. split; [done|]. split; [apply u32_range|done].
Qed.

Lemma add_entry_runs fs a T d m name ino ftype : rep fs a -> fs_ok a T -> T !! d = Some m ->
  name_ok name -> 0 < ino < 2 ^ 32 -> 0 <= ftype < 256 ->
  runs (add_entry_to_dir alloc d ino name ftype) fs (fun r fs' =>
    (r = -1 /\ rep fs' a /\ (full a \/ dir_full a d)) \/
    (r = 0 /\ exists a' ess, rep fs' a' /\ dir_at a d ess /\ NoDup (pairs (concat ess)).*1 /\ m = names (concat ess) /\
       entry_added d name ino ess a a')).
Proof.
  intros Hr Hok Em Hname Hino Hft. destruct (t_dir _ _ Hok d m Em) as (Hd&_&ess&Hda&Hnd&Hm).
  unfold add_entry_to_dir. do 2 mstep. rewrite (r_super _ _ Hr). fold (inodes a).
  replace ((d =? 0) || (inodes a <=? d)) with false by lia.
  muse get_inode_runs giving i as (Hat&Hwf&->); [exact Hr|lia|]. destruct (da_inode _ _ _ Hda) as (i'&Hat'&Hdir&_).
  rewrite Hat in Hat'. injection Hat' as <-. rewrite Hdir. cbn [negb]. rewrite (l_bsize _ (r_layout _ _ Hr)).
  muse kmalloc_runs as (b&->&Hb&Hr1); [done|exact Hr|lia|].
  eapply runs_mono; [eapply (add_entry_slots_runs a d i ess name ino ftype (t_inv _ _ Hok) ltac:(lia) Hat Hwf Hda Hname Hino Hft 12 0)|]; try done; [lia|].
  intros r fs2 [(->&Hr'&Hwhy)|(->&a'&Hr'&Had)]; [left|right].
  - split; [done|]. split; [done|]. destruct Hwhy as [?|Hl]; [by left|right]. intros k Hk.
    destruct (lookup_lt_is_Some_2 ess (Z.to_nat k)) as [es Ek]; [lia|]. destruct (da_block _ _ _ Hda _ _ Ek) as [Hs _]. by rewrite Z2Nat.id in Hs by lia.
  - split; [done|]. by exists a', ess.
Qed.

Lemma add_entry_refused fs a d name ino ftype : rep fs a -> 1 <= d <= inodes a -> leaf a d ->
  runs (add_entry_to_dir alloc d ino name ftype) fs (fun r fs' => r = -1 /\ rep fs' a).
Proof.
  intros Hr Hd Hl. unfold add_entry_to_dir. do 2 mstep. rewrite (r_super _ _ Hr). fold (inodes a).
  destruct ((d =? 0) || (inodes a <=? d)) eqn:E; [by mstep|]. bools. destruct Hl as [?|(i&Hat&Hnd)]; [lia|].
  muse get_inode_runs giving i' as (Hat'&Hwf&->); [exact Hr|lia|]. rewrite Hat in Hat'. injection Hat' as <-. rewrite Hnd. cbn [negb]. by mstep.
Qed.

End Runs.

End Ext2Tree.
