(* ===== verification/Ext2TreeCheck.v ===== *)
(** * Ext2TreeCheck: deciding that a concrete disk holds a directory tree

    The entries of all directories are read off the blocks and checked, so that
    freshly formatted memory disks are seen to satisfy [fs_ok]. *)

From Stdlib Require Import ZArith Lia Bool ZifyBool.
From stdpp Require Import base numbers option list list_numbers gmap.
From S2P Require Import Prelude Ramdisk Ext2 Ext2Alloc Ext2Layer Ext2Files Ext2Mount Ext2Props Ext2Dirs Ext2Tree.

Open Scope Z_scope.

Module Ext2TreeCheck.
Import Ramdisk Ext2 Ext2Alloc Ext2Layer Ext2Files Ext2Mount Ext2Props Ext2Dirs Ext2Tree.

Implicit Types (a : astate).

(** ** Reading entries *)

Definition read_entry (b : list Z) (off : Z) : option dent :=
  ino ← de_inode b off;
  rec ← de_rec_len b off;
  len ← de_name_len b off;
  ty ← de_file_type b off;
  name ← de_name b off len;
  Some (Dent ino ty name rec).

Fixpoint read_entries (fuel : nat) (b : list Z) (off : Z) : list dent :=
  match fuel with
  | O => []
  | S fuel' =>
      if off <? 1024 then match read_entry b off with Some e => e :: read_entries fuel' b (off + n_rec e) | None => [] end
      else []
  end.

Definition read_dir a (d : Z) : list (list dent) :=
  (fun k => read_entries 130 (a_blk a (slot a d k)) 0) <$> filter (fun k => slot a d k <> 0) (seqZ 0 12).

Definition is_directory a (d : Z) : bool := match inode_at a d with Some i => is_dir i | None => false end.

Definition read_tree a : list (Z * list (list dent)) :=
  (fun d => (d, read_dir a d)) <$> filter (fun d => is_directory a d && used a d = true) (seqZ 1 (inodes a - 1)).

Definition tree_of (l : list (Z * list (list dent))) : tree := list_to_map ((fun x => (x.1, names (concat x.2))) <$> l).

(** ** Checks *)

#[local] Instance entry_at_dec b off e : Decision (entry_at b off e).
Proof.
  destruct (decide (de_inode b off = Some (n_ino e) /\ de_rec_len b off = Some (n_rec e) /\ de_name_len b off = Some (nlen e) /\
    de_file_type b off = Some (n_type e) /\ Ext2.de_name b off (nlen e) = Some (n_name e))) as [H|H];
    [left; by destruct H as (?&?&?&?&?)|right; by intros []; apply H].
Defined.

#[local] Instance dent_ok_dec e : Decision (dent_ok e).
Proof. unfold dent_ok, name_ok. apply _. Defined.

#[local] Instance chain_dec b es : forall off stop, Decision (chain b off es stop).
Proof. induction es as [|e es IH]; intros off stop; simpl; apply _. Defined.

#[local] Instance dir_block_dec b es : Decision (dir_block b es).
Proof. unfold dir_block. apply _. Defined.

Definition check_block a (d : Z) (k : nat) (es : list dent) : bool :=
  negb (slot a d (Z.of_nat k) =? 0) && bool_decide (dir_block (a_blk a (slot a d (Z.of_nat k))) es).

Definition check_dir a (d : Z) (ess : list (list dent)) : bool :=
  match inode_at a d with Some i => is_dir i && (i_size i =? 1024 * Z.of_nat (length ess)) | None => false end &&
  (length ess <=? 12)%nat && forallb id (imap (check_block a d) ess) &&
  forallb (fun k => slot a d k =? 0) (seqZ (Z.of_nat (length ess)) (12 - Z.of_nat (length ess))).

Lemma check_dir_sound a d ess : check_dir a d ess = true -> dir_at a d ess.
Proof.
  unfold check_dir. intros [[[H1 H2]%andb_true_iff H3]%andb_true_iff H4]%andb_true_iff. rewrite forallb_forall in H3, H4. split.
  - destruct (inode_at a d) as [i|]; [|done]. exists i. bools. split_and!; [done|done|lia].
  - by apply Nat.leb_le.
  - intros k es Hk. specialize (H3 (check_block a d k es)).
    assert (H : id (check_block a d k es) = true).
    { apply H3, list_elem_of_In, list_elem_of_lookup. exists k. by rewrite list_lookup_imap, Hk. }
    unfold id, check_block in H. apply andb_true_iff in H as [Hs Hb]. apply bool_decide_eq_true in Hb. split; [|done]. by bools.
  - intros k Hk. apply Z.eqb_eq, H4, list_elem_of_In, elem_of_seqZ. lia.
Qed.

Definition entries_of (l : list (Z * list (list dent))) : list (Z * (list Z * Z)) :=
  x ← l; p ← pairs (concat x.2); [(x.1, p)].

Definition check_entry a (dirs : list Z) (n : Z) : bool :=
  (1 <=? n) && (n <=? inodes a) && used a n &&
  (bool_decide (n ∈ dirs) || (inodes a <=? n) || match inode_at a n with Some i => negb (is_dir i) | None => false end).

Definition check_tree a (l : list (Z * list (list dent))) : bool :=
  let dirs := l.*1 in
  bool_decide (EXT2_ROOT_INODE ∈ dirs) && bool_decide (NoDup dirs) &&
  forallb (fun x => (1 <=? x.1) && (x.1 <? inodes a) && used a x.1 && check_dir a x.1 x.2 && bool_decide (NoDup (pairs (concat x.2)).*1)) l &&
  forallb (fun x => check_entry a dirs x.2.2) (entries_of l) &&
  bool_decide (NoDup ((fun x => x.2.2) <$> filter (fun x => ~ (x.2.2 ∈ dirs)) (entries_of l))).

Lemma tree_of_Some l d m : NoDup l.*1 -> tree_of l !! d = Some m -> exists ess, (d, ess) ∈ l /\ m = names (concat ess).
Proof.
  intros _ H%elem_of_list_to_map_2. apply list_elem_of_fmap in H as ([d' ess]&[= -> ->]&H). by exists ess.
Qed.

Lemma tree_of_None l d : tree_of l !! d = None -> d ∉ l.*1.
Proof.
  intros H%not_elem_of_list_to_map_2. by rewrite <- list_fmap_compose in H.
Qed.

Lemma entries_of_elem l d ess name n : (d, ess) ∈ l -> names (concat ess) !! name = Some n -> (d, (name, n)) ∈ entries_of l.
Proof.
  intros Hl H%elem_of_list_to_map_2. apply list_elem_of_bind. exists (d, ess). split; [|done].
  apply list_elem_of_bind. exists (name, n). split; [by left|done].
Qed.

Lemma check_tree_sound a l : inv a -> check_tree a l = true -> fs_ok a (tree_of l).
Proof.
  intros Hi. unfold check_tree. intros [[[[H1 H2]%andb_true_iff H3]%andb_true_iff H4]%andb_true_iff H5]%andb_true_iff.
  apply bool_decide_eq_true in H1, H2, H5. rewrite forallb_forall in H3, H4.
  assert (He : forall d ess name n, (d, ess) ∈ l -> names (concat ess) !! name = Some n -> check_entry a l.*1 n = true).
  { intros d ess name n Hl Hn. apply (H4 (d, (name, n))), list_elem_of_In. by eapply entries_of_elem. }
  split.
  - done.
  - destruct (tree_of l !! EXT2_ROOT_INODE) as [m|] eqn:E; [by exists m|]. by apply tree_of_None in E.
  - intros d m Em. destruct (tree_of_Some _ _ _ H2 Em) as (ess&Hl&->). apply list_elem_of_In in Hl. specialize (H3 _ Hl).
    apply andb_true_iff in H3 as [H3 Hnd]. apply bool_decide_eq_true in Hnd. apply andb_true_iff in H3 as [H3 Hcd]. cbn in *. bools.
    split_and!; [lia|lia|done|]. exists ess. split; [by apply check_dir_sound|done].
  - intros d m name n Em En. destruct (tree_of_Some _ _ _ H2 Em) as (ess&Hl&->). specialize (He _ _ _ _ Hl En).
    unfold check_entry in He. apply andb_true_iff in He as [He Hlast]. bools. split_and!; [lia|lia|done|].
    intros Hno%tree_of_None. apply orb_true_iff in Hlast as [[Hin|Hge]%orb_true_iff|Hf].
    + by apply bool_decide_eq_true in Hin.
    + left. lia.
    + right. destruct (inode_at a n) as [i|]; [|done]. exists i. split; [done|]. by destruct (is_dir i).
  - intros d m name d' m' name' n E1 E2 E3 E4 Hno%tree_of_None.
    destruct (tree_of_Some _ _ _ H2 E1) as (ess&Hl&->), (tree_of_Some _ _ _ H2 E3) as (ess'&Hl'&->).
    assert (Hf : forall x, x ∈ entries_of l -> x.2.2 = n -> x ∈ filter (fun x => ~ (x.2.2 ∈ l.*1)) (entries_of l)).
    { intros x Hx <-. by apply list_elem_of_filter. }
    pose proof (NoDup_fmap_inj _ _ (d, (name, n)) (d', (name', n)) H5
      (Hf _ (entries_of_elem _ _ _ _ _ Hl E2) eq_refl) (Hf _ (entries_of_elem _ _ _ _ _ Hl' E4) eq_refl) eq_refl) as E. by simplify_eq.
Qed.

End Ext2TreeCheck.
