(* ===== verification/Ext2Names.v ===== *)
(** * Ext2Names: creating and removing files by path (kernel/src/ext2_fs.c)

    [ext2_create] and [ext2_unlink] on the directories of [Ext2Tree]: which map
    they lead to, on every branch, what they leave alone, and that what they did
    is on disk when they return. *)

From Stdlib Require Import ZArith Lia Bool ZifyBool.
From stdpp Require Import base numbers option list list_numbers gmap.
From S2P Require Import Prelude Ramdisk Ext2 Ext2Alloc Ext2Layer Ext2Files Ext2Mount Ext2Dirs Ext2Tree.

Open Scope Z_scope.
Set Warnings "-clear-no-such-hyp".

Module Ext2Names.
Import Ramdisk Ext2 Ext2Alloc Ext2Layer Ext2Files Ext2Mount Ext2Dirs Ext2Tree.

Implicit Types (a : astate).

#[local] Existing Instance M_bind.
#[local] Existing Instance M_ret.

Abbreviation root := EXT2_ROOT_INODE.

(** A path the kernel passes down: absolute, shorter than its buffers, with no
    NUL in it. *)
Definition path_ok (path : list Z) : Prop :=
  starts_with_slash path = true /\ (length path < 256)%nat /\ Forall (fun c => 0 < c < 256) path.

(** The inode a new file starts with. *)
Definition fresh_inode (mode : Z) (i : ext2_inode) : option ext2_inode :=
  set_block (set_blocks (set_links (set_size (set_owner_mode i (file_mode mode EXT2_S_IFREG)) 0) 1) 0) 0 0.

Lemma file_mode_ok mode : 0 <= mode < 2 ^ 16 -> u16_ok (file_mode mode EXT2_S_IFREG) /\
  Z.land (file_mode mode EXT2_S_IFREG) EXT2_S_IFMT = EXT2_S_IFREG.
Proof.
  intros Hm. unfold file_mode. assert (Hn : 0 <= Z.lor (Z.ldiff mode EXT2_S_IFMT) EXT2_S_IFREG).
  { apply Z.lor_nonneg. split; [apply Z.ldiff_nonneg; lia|done]. }
  split.
  - unfold u16_ok. split; [done|]. apply (Z.bounded_iff_bits_nonneg 16); [lia|done|]. intros l Hl.
    assert (Hb : forall v, 0 <= v < 2 ^ 16 -> Z.testbit v l = false) by (intros v Hv; apply (Z.bounded_iff_bits_nonneg 16); lia).
    rewrite Z.lor_spec, Z.ldiff_spec, (Hb mode Hm), (Hb EXT2_S_IFREG) by done. done.
  - rewrite Z.land_lor_distr_l. rewrite Z.ldiff_land, <- Z.land_assoc, (Z.land_comm (Z.lnot _)), Z.land_lnot_diag, Z.land_0_r. done.
Qed.

Lemma fresh_inode_ok mode i : 0 <= mode < 2 ^ 16 -> inode_wf i ->
  exists i', fresh_inode mode i = Some i' /\ inode_wf i' /\ aset (i_block i) 0 0 = Some (i_block i') /\ is_dir i' = false /\
    i_mode i' = file_mode mode EXT2_S_IFREG /\ i_size i' = 0 /\ i_uid i' = 0 /\ i_gid i' = 0.
Proof.
  intros Hm Hwf. destruct (file_mode_ok mode Hm) as [Hmo Hland]. unfold fresh_inode.
  destruct Hwf as (W1&W2&W3&W4&W5&W6&W7&W8&[Hl Hf]&W10). unfold set_block. cbn.
  destruct (aset (i_block i) 0 0) as [bl|] eqn:Eb; [|rewrite aset_ok in Eb by lia; done]. cbn [mbind option_bind].
  eexists. split; [done|]. cbn. split_and!; try done.
  - unfold inode_wf. cbn. rewrite aset_ok in Eb by lia. injection Eb as <-. rewrite length_insert.
    split_and!; try done; apply Forall_insert; done.
  - unfold is_dir. cbn. by rewrite Hland.
Qed.

Definition any : Z -> Prop := fun _ => True.

Lemma meta_frame a a' : inv a -> layout a' -> meta_eq a a' -> frame none any a a'.
Proof.
  intros Hi Hl Hme. destruct (meta_step a a' Hi Hl Hme) as (Hi'&Hat&Hb). destruct Hme as (Hs&_). constructor.
  - done.
  - unfold blocks, first, inodes. by rewrite Hs.
  - intros x _. apply Hat.
  - intros x pos _ Hp. by apply Hb.
  - intros x _ Hn. by destruct Hn.
  - unfold mountable. by rewrite Hs.
Qed.

(** What creating [path] has done, when it returned [r]. *)
Definition unused a : Z -> Prop := fun x => used a x = false.

(** The names of [path] lead to a directory without the last one. *)
Definition absent (T : tree) (path : list Z) (d : Z) (m : gmap (list Z) Z) (name : list Z) : Prop :=
  name <> [] /\ exists parent, split_path path = Some (parent, name) /\ components path = components parent ++ [name] /\
    walk T root (components parent) = Some d /\ T !! d = Some m /\ m !! name = None.

Definition not_created (T : tree) path a a' : Prop :=
  fs_ok a' T /\ frame (unused a) any a a' /\ (forall x, 1 <= x -> used a' x = used a x) /\
  forall d m name, absent T path d m name -> no_inode a \/ full a \/ dir_full a d.

Definition created (T : tree) path mode a r a' : Prop :=
  exists d m name, absent T path d m name /\ 12 <= r <= inodes a /\ used a r = false /\
    fs_ok a' (<[d := <[name := r]> m]> T) /\ frame (either d r) any a a' /\
    perms a' d = perms a d /\ perms a' r = Some (file_mode mode EXT2_S_IFREG, 0, 0) /\
    stat a' r = Some (file_mode mode EXT2_S_IFREG, 0) /\ (synced a -> synced a').

Section Runs.
Context {X : Type} {dev_ok : ramdisk_device X -> Prop} {image : ramdisk_device X -> list Z}.
Context `{HD : Disk X dev_ok image}.
Context (alloc : nat -> Z -> option (list Z)).
Context (alloc_total : forall k n, 0 <= n -> exists m, alloc k n = Some m /\ Z.of_nat (length m) = n).
Abbreviation FS := (ext2_filesystem (X := X)).
Abbreviation rep := (rep (dev_ok := dev_ok) (image := image)).
Implicit Types (fs : FS).

Lemma used_pos a x : used a x = true -> 1 <= x.
Proof.
  unfold used, bit_set. destruct (aget (a_ibm a) ((x - 1) / 8)) eqn:E; [|done]. apply aget_Some_lt in E. intros _. dlia.
Qed.

(** Taking an inode number and filling the inode in. *)
Lemma take_inode a T r i i' n ibm : fs_ok a T -> 1 <= r <= inodes a -> used a r = false -> bitmap_ok ibm (inodes a) -> u32_ok n ->
  (forall j, 0 <= j -> bit_set ibm j = if j =? r - 1 then true else bit_set (a_ibm a) j) ->
  inode_at a r = Some i -> inode_wf i' -> aset (i_block i) 0 0 = Some (i_block i') ->
  let a' := upd_tab r i' (upd_ibm n ibm a) in
  fs_ok a' T /\ frame (only r) (only r) a a' /\ inode_at a' r = Some i' /\
  (forall x, 1 <= x -> used a' x = if x =? r then true else used a x).
Proof.
  intros Hok Hr Hu Hbo Hn Hbm Hat Hwf Hset a'. pose proof (t_inv _ _ Hok) as Hi.
  pose proof (ibm_frame n ibm a Hi Hbo Hn) as F1. pose proof (f_inv _ _ _ _ F1) as Hi1.
  pose proof (new_inode_frame (upd_ibm n ibm a) r i i' Hi1 Hr Hat Hwf Hset) as F2. fold a' in F2.
  assert (F : frame (only r) (only r) a a').
  { eapply frame_trans; [|exact F2]. by eapply frame_weaken; [| |exact F1]. }
  assert (Hus : forall x, 1 <= x -> used a' x = if x =? r then true else used a x).
  { intros x Hx. unfold used, a'. cbn [upd_tab upd_ibm a_ibm]. rewrite Hbm by lia.
    destruct (Z.eqb_spec (x - 1) (r - 1)), (Z.eqb_spec x r); try lia; done. }
  split_and!; [|done| |done].
  - eapply fs_ok_frame; [exact Hok|exact F|]. intros x Hx. split; [intros E; unfold only in E; congruence|].
    rewrite Hus by (by eapply used_pos). by destruct (x =? r).
  - unfold a'. rewrite inode_at_upd; [by rewrite Z.eqb_refl|apply Hi1|exact Hr].
Qed.

(** Giving the number back. *)
Lemma give_inode a0 a T r n ibm : fs_ok a T -> used a0 r = false -> frame (only r) (only r) a0 a -> 1 <= r <= inodes a ->
  (forall x, 1 <= x -> used a x = if x =? r then true else used a0 x) -> fs_ok a0 T ->
  bitmap_ok ibm (inodes a) -> u32_ok n -> (forall j, 0 <= j -> bit_set ibm j = if j =? r - 1 then false else bit_set (a_ibm a) j) ->
  let a' := upd_ibm n ibm a in
  fs_ok a' T /\ frame (only r) (only r) a0 a' /\ (forall x, 1 <= x -> used a' x = used a0 x).
Proof.
  intros Hok Hu0 F Hr Hus Hok0 Hbo Hn Hbm a'. pose proof (t_inv _ _ Hok) as Hi.
  pose proof (ibm_frame n ibm a Hi Hbo Hn) as F1. fold a' in F1.
  assert (F' : frame (only r) (only r) a0 a') by (eapply frame_trans; [exact F|]; by eapply frame_weaken; [| |exact F1]).
  assert (Hus' : forall x, 1 <= x -> used a' x = used a0 x).
  { intros x Hx. unfold used at 1, a'. cbn [upd_ibm a_ibm]. rewrite Hbm by lia. specialize (Hus x Hx). unfold used at 1 in Hus. rewrite Hus.
    destruct (Z.eqb_spec (x - 1) (r - 1)), (Z.eqb_spec x r); try lia; congruence. }
  split_and!; [|done|done]. eapply fs_ok_frame; [exact Hok0|exact F'|]. intros x Hx. split; [intros E; unfold only in E; congruence|].
  rewrite Hus' by (by eapply used_pos). done.
Qed.

(** The end of [ext2_create], once the parent and an inode number are known. *)
Lemma flush_frame fs a T r : rep fs a -> fs_ok a T -> 1 <= r <= inodes a ->
  runs (@mbind M M_bind _ _ (fun _ => @mbind M M_bind _ _ (fun _ => @mbind M M_bind _ _ (fun _ => @mret M M_ret _ r)
          (ext2_write_bitmaps alloc)) (ext2_write_superblock alloc)) (ext2_write_inode alloc r)) fs
    (fun r' fs' => r' = r /\ exists a', rep fs' a' /\ fs_ok a' T /\ frame none any a a' /\ a_tab a' = a_tab a /\
       ((forall x, 1 <= x <= inodes a -> x <> r -> inode_stored a x) -> synced a')).
Proof.
  intros Hr Hok Hi. eapply runs_mono; [eapply flush_runs; [done|exact Hr|apply Hok|done]|].
  intros r' fs' (->&a'&Hr'&Hme&_&Hsy). split; [done|]. exists a'. pose proof (meta_frame a a' (t_inv _ _ Hok) (r_layout _ _ Hr') Hme) as F.
  pose proof Hme as (_&_&Hib&Htab&_). split_and!; [done| |done|done|done].
  eapply fs_ok_frame; [exact Hok|exact F|]. intros x Hx. split; [by intros []|]. unfold used in *. by rewrite Hib.
Qed.

Lemma name_ok_sub name path : (name ⊆ path) -> Forall (fun c => 0 < c < 256) path -> (length name < 256)%nat -> name_ok name.
Proof.
  intros Hs Hf Hl. split; [|lia]. apply Forall_forall. intros c Hc. rewrite Forall_forall in Hf. by apply Hf, Hs.
Qed.

Lemma not_created_same T path a r : fs_ok a T -> (forall d m name, absent T path d m name -> no_inode a \/ full a \/ dir_full a d) ->
  r = 0 -> not_created T path a a.
Proof. intros Hok Hw _. split_and!; [done|by apply frame_refl, Hok|done|done]. Qed.

(** The part of [ext2_create] after the name was not found in [d]. *)
Lemma create_in_runs fs a T d name mode : rep fs a -> fs_ok a T -> name_ok name -> 0 <= mode < 2 ^ 16 ->
  1 <= d <= inodes a -> used a d = true -> (T !! d = None -> leaf a d) -> (forall m, T !! d = Some m -> m !! name = None) ->
  runs (ino ← ext2_alloc_inode_num;
        if ino =? 0 then mret 0
        else
          i ← get_inode ino;
          let i := set_owner_mode i (file_mode mode EXT2_S_IFREG) in
          let i := set_blocks (set_links (set_size i 0) 1) 0 in
          i ← need (set_block i 0 0);
          _ ← put_inode ino i;
          r ← add_entry_to_dir alloc d ino name 1;
          if r <? 0 then _ ← ext2_free_inode_num ino; mret 0
          else _ ← ext2_write_inode alloc ino; _ ← ext2_write_superblock alloc; _ ← ext2_write_bitmaps alloc; mret ino) fs
    (fun r fs' => exists a', rep fs' a' /\
      ((r = 0 /\ fs_ok a' T /\ frame (unused a) any a a' /\ (forall x, 1 <= x -> used a' x = used a x) /\
        forall m, T !! d = Some m -> no_inode a \/ full a \/ dir_full a d) \/
       (exists m, T !! d = Some m /\ 12 <= r <= inodes a /\ used a r = false /\ fs_ok a' (<[d := <[name := r]> m]> T) /\
          frame (either d r) any a a' /\ perms a' d = perms a d /\ perms a' r = Some (file_mode mode EXT2_S_IFREG, 0, 0) /\
          stat a' r = Some (file_mode mode EXT2_S_IFREG, 0) /\ (synced a -> synced a')))).
Proof.
  intros Hr Hok Hname Hmode Hd Hdu Hdl Hnew. pose proof (t_inv _ _ Hok) as Hinv. pose proof (l_inodes _ (i_layout _ Hinv)) as Hin.
  muse alloc_inode_runs giving r as Hal; [exact Hr|]. destruct Hal as [(->&Hr3&Hno)|(Hrr&Hfree&n0&ibm&Hr3&Hbo&Hn0&Hbm)].
  { change (0 =? 0) with true. cbn iota. mstep. exists a. split; [done|]. left. split; [done|]. split; [done|]. split; [by apply frame_refl|]. split; [done|]. intros m _. by left. }
  rewrite (proj2 (Z.eqb_neq r 0)) by lia.
  muse get_inode_runs giving i as (Hat&Hwf&->); [exact Hr3|change (inodes (upd_ibm n0 ibm a)) with (inodes a); lia|].
  destruct (fresh_inode_ok mode i Hmode Hwf) as (i'&Efr&Hwf'&Hset&Hnd&Hmd&Hsz&Hui&Hgi). cbv zeta. mstep. eapply runs_need; [exact Efr|].
  muse put_inode_runs as Hr4; [exact Hr3|change (inodes (upd_ibm n0 ibm a)) with (inodes a); lia|exact Hwf'|].
  destruct (take_inode a T r i i' n0 ibm Hok ltac:(lia) Hfree Hbo Hn0 Hbm Hat Hwf' Hset) as (Hok1&F1&Hat1&Hu1).
  set (a1 := upd_tab r i' (upd_ibm n0 ibm a)) in *. assert (Gi : inodes a1 = inodes a) by done. assert (Hdr : d <> r) by congruence.
  assert (Hback : forall fs5 (why : forall m, T !! d = Some m -> no_inode a \/ full a \/ dir_full a d), rep fs5 a1 ->
    runs (_ ← ext2_free_inode_num r; mret 0) fs5 (fun r' fs' => exists a', rep fs' a' /\
      ((r' = 0 /\ fs_ok a' T /\ frame (unused a) any a a' /\ (forall x, 1 <= x -> used a' x = used a x) /\
        forall m, T !! d = Some m -> no_inode a \/ full a \/ dir_full a d) \/ False))).
  { intros fs5 why Hr5. muse free_inode_runs as (n1&ibm1&Hr6&Hbo1&Hn1&Hbm1); [exact Hr5|lia|]. mstep.
    destruct (give_inode a a1 T r n1 ibm1 Hok1 Hfree F1 ltac:(lia) Hu1 Hok Hbo1 Hn1 Hbm1) as (Hok2&F2&Hu2).
    eexists. split; [exact Hr6|]. left. split_and!; try done. eapply frame_weaken; [| |exact F2]; [by intros x ->|done]. }
  destruct (T !! d) as [m|] eqn:Em.
  - muse add_entry_runs giving rr as Had; [done|exact Hr4|exact Hok1|exact Em|exact Hname|lia|lia|].
    destruct Had as [(->&Hr5&Hwhy)|(->&a2&ess&Hr5&Hda&Hnod&Hm&[F2 Hib2 Hpm2 (ess'&Hda2&Hperm)])].
    + change (-1 <? 0) with true. cbn iota. eapply runs_mono; [apply Hback; [|exact Hr5]|naive_solver].
      intros m' _. destruct Hwhy as [Hf|Hf]; [by right; left|]. right. right. intros k Hk. specialize (Hf k Hk).
      unfold slot in *. by rewrite (f_tab _ _ _ _ F1) in Hf.
    + change (0 <? 0) with false. cbn iota. pose proof (f_geo _ _ _ _ F2) as (_&_&G2).
      assert (F12 : frame (either d r) (only r) a a2) by (eapply frame_compose; [exact F1|exact F2|by right|done|by left|by intros ? []]).
      assert (Hat2 : inode_at a2 r = Some i') by (rewrite (f_tab _ _ _ _ F2); [done|by apply not_eq_sym]).
      assert (Hok2 : fs_ok a2 (<[d := <[name := r]> m]> T)).
      { eapply (fs_ok_create (only r) a a2 T d m name r ess ess'); try done; [by apply Hnew|lia| |right; by exists i'].
        intros x Hx. rewrite <- (Hu1 x Hx). unfold used. by rewrite Hib2. }
      eapply runs_mono; [eapply flush_frame; [exact Hr5|exact Hok2|lia]|]. intros r' fs9 (->&a3&Hr6&Hok3&F3&Htab3&Hsy). exists a3. split; [done|]. right.
      exists m. assert (E3 : forall x, inode_at a3 x = inode_at a2 x) by (intros x; unfold inode_at; by rewrite Htab3). split_and!; try done; try lia.
      * eapply frame_compose; [exact F12|exact F3|done|done|by intros ? []|done].
      * unfold perms in *. rewrite E3, Hpm2. by rewrite (f_tab _ _ _ _ F1).
      * unfold perms. by rewrite E3, Hat2, Hmd, Hui, Hgi.
      * unfold stat. by rewrite E3, Hat2, Hmd, Hsz.
      * intros (_&_&Hst). apply Hsy. intros x Hx Hxr. apply (f_stored _ _ _ _ F12); [lia|done|]. apply Hst. lia.
  - muse add_entry_refused as (->&Hr5); [exact Hr4|lia| |].
    { destruct (Hdl eq_refl) as [?|(j&Hj)]; [left; lia|right; exists j]. by rewrite (f_tab _ _ _ _ F1). }
    change (-1 <? 0) with true. cbn iota. eapply runs_mono; [apply Hback; [done|exact Hr5]|naive_solver].
Qed.

Lemma create_runs fs a T path mode : rep fs a -> fs_ok a T -> path_ok path -> 0 <= mode < 2 ^ 16 ->
  runs (ext2_create alloc path mode) fs (fun r fs' => exists a', rep fs' a' /\
    ((r = 0 /\ not_created T path a a') \/ created T path mode a r a')).
Proof.
  intros Hr Hok (Hs&Hl&Hch) Hmode. destruct (split_path_spec path Hs Hl) as (parent&name&Esp&_&Hpne&Hpl&Hnl&Hsub&Hcomp).
  pose proof (name_ok_sub name path Hsub Hch Hnl) as Hname. pose proof (t_inv _ _ Hok) as Hinv.
  assert (Habs : forall d m nm, absent T path d m nm -> nm = name /\ name <> [] /\ walk T root (components parent) = Some d /\ T !! d = Some m /\ m !! name = None).
  { intros d m nm (Hne&parent'&Esp'&_&Hw&Em&En). rewrite Esp in Esp'. by injection Esp' as <- <-. }
  unfold ext2_create. rewrite Hs. cbn [negb]. mstep. eapply runs_need; [exact Esp|].
  destruct name as [|c0 name0] eqn:Ename.
  { mstep. exists a. split; [done|]. left. split; [done|]. apply (not_created_same _ _ _ 0); try done. intros d m nm Ha%Habs. naive_solver. }
  rewrite <- Ename in *. assert (Hne : name <> []) by congruence. specialize (Hcomp Hne). clear Ename c0 name0.
  muse lookup_runs giving dd as (Hr1&->); [done|exact Hr|exact Hok|done|done|].
  destruct (walk T root (components parent)) as [d|] eqn:Ew; cbn [from_option id].
  2:{ change (0 =? 0) with true. cbn iota. mstep. exists a. split; [done|]. left. split; [done|]. apply (not_created_same _ _ _ 0); try done. intros d m nm Ha%Habs. naive_solver. }
  destruct (root_ok _ _ Hok) as (Hroot&Hru&Hrl). destruct (walk_ok _ _ _ Hok _ _ Hroot Hru Hrl Ew) as (Hd&Hdu&Hdl).
  destruct (Z.eqb_spec d 0); [lia|].
  muse find_entry_runs giving e as (Hr2&->); [done|exact Hr1|exact Hok|done|done|done|].
  destruct (m ← T !! d; m !! name) as [x|] eqn:Ee; cbn [from_option id].
  { assert (x <> 0). { destruct (T !! d) as [m|] eqn:Em; [|done]. cbn in Ee. destruct (t_entry _ _ Hok _ _ _ _ Em Ee). lia. }
    rewrite (proj2 (Z.eqb_neq x 0)) by done. cbn [negb]. mstep. exists a. split; [done|]. left. split; [done|].
    apply (not_created_same _ _ _ 0); try done. intros d' m nm (_&_&[= <-]&Em&En)%Habs. rewrite Em in Ee. cbn in Ee. congruence. }
  change (negb (0 =? 0)) with false. cbn iota.
  eapply runs_mono; [eapply (create_in_runs _ a T d name mode); try done; intros m Em; by rewrite Em in Ee|].
  intros r fs9 (a'&Hr3&Hcr). exists a'. split; [done|]. destruct Hcr as [(->&Hok'&F&Hu&Hwhy)|(m&Em&Hrest)]; [left|right].
  - split; [done|]. split_and!; [done|done|done|]. intros d' m' nm (_&_&[= <-]&Em&_)%Habs. by eapply Hwhy.
  - exists d, m, name. split; [|exact Hrest]. split; [done|]. exists parent. rewrite Em in Ee. by split_and!.
Qed.

(** ** Removing a file *)

(** The search for the name in the blocks of the parent. *)
Lemma remove_slots_runs a d i ess name : inv a -> inode_at a d = Some i -> inode_wf i -> dir_at a d ess -> Z.of_nat (length name) < 256 ->
  forall n k fs block, rep fs a -> (k + n = 12)%nat -> Z.of_nat (length block) = 1024 ->
  runs (remove_slots (drop k (take 12 (i_block i))) block name) fs (fun r fs' =>
    (r.1 = 0 /\ rep fs' a /\ names (concat (drop k ess)) !! name = None) \/
    (exists p b ess', rep fs' (upd_blk p b a) /\ frame (only d) none a (upd_blk p b a) /\ dir_at (upd_blk p b a) d ess' /\
       pairs (concat ess) ≡ₚ (name, r.1) :: pairs (concat ess'))).
Proof.
  intros Hinv Hat Hwf Hda Hname. induction n as [|n IH]; intros k fs block Hr Hk Hb.
  { rewrite drop_ge by (rewrite length_take; lia). cbn [remove_slots]. mstep. left. split; [done|]. split; [done|].
    rewrite drop_ge by (pose proof (da_length _ _ _ Hda); lia). done. }
  rewrite (slots_from a d i k Hat Hwf) by lia. cbn [remove_slots]. destruct (ess !! k) as [es|] eqn:Ek.
  - destruct (da_block _ _ _ Hda k es Ek) as [Hs Hblk]. rewrite (proj2 (Z.eqb_neq _ _) Hs). apply lookup_lt_Some in Ek as Hlt.
    pose proof (slot_bounds a d (Z.of_nat k) Hinv ltac:(lia) Hs) as Hsr. do 2 mstep. rewrite (rep_bsize _ _ Hr).
    muse read_block_runs as (->&Hr2); [exact Hr|exact Hsr|done|]. mstep. pose proof Hblk as [Hlen Hch].
    pose proof (remove_in_block_spec name es Hname (S (Z.to_nat 1024)) _ None 0 Hlen Hch ltac:(lia) ltac:(by eapply dir_block_length) I) as Hp.
    cbn [fmap option_fmap option_map] in Hp. destruct (remove_es name None es) as [[t es']|] eqn:Ep.
    + destruct Hp as (b'&Ep'&Hl'&Hc'&_). eapply runs_need; [exact Ep'|]. cbn beta iota.
      muse write_block_runs as (->&Hr3); [exact Hr2|exact Hsr|lia|]. mstep. right. exists (slot a d (Z.of_nat k)), b', (<[k := es']> ess).
      destruct (dir_at_block a d ess k es es' b' Hinv Hda Ek) as [F Hda']; [split; [lia|done]|]. split_and!; try done.
      apply (Permutation_app_inv_l (pairs es')). rewrite <- (pairs_insert _ _ _ es' Ek), (remove_es_pairs _ _ _ _ _ Ep). solve_Permutation.
    + eapply runs_need; [exact Hp|]. cbn beta iota. eapply runs_mono; [apply (IH (S k)); [done|lia|done]|].
      intros r fs2 [(Hr0&Hr3&Hn)|H]; [left|by right]. split; [done|]. split; [done|].
      rewrite (drop_S _ _ _ Ek). cbn [concat]. rewrite names_app, lookup_union_r; [done|]. by eapply remove_es_None.
  - apply lookup_ge_None in Ek. rewrite (da_empty _ _ _ Hda (Z.of_nat k)) by lia. rewrite Z.eqb_refl.
    eapply runs_mono; [apply (IH (S k)); [done|lia|done]|]. intros r fs2 [(Hr0&Hr3&Hn)|H]; [left|by right].
    split; [done|]. split; [done|]. by rewrite drop_ge.
Qed.

(** The blocks of the first [k] slots of [t] have been given back. *)
Definition freed a (t k : Z) a' : Prop :=
  forall p, 0 < p -> bit_set (a_bm a') p = true <-> (bit_set (a_bm a) p = true /\ forall j, 0 <= j < k -> slot a t j <> p).

Lemma free_direct_runs a t : inv a -> 1 <= t <= inodes a -> forall n k fs a1, rep fs a1 -> Z.of_nat n = 12 - k -> 0 <= k ->
  frame (only t) (only t) a a1 -> a_ibm a1 = a_ibm a -> freed a t k a1 -> (forall j, k <= j < 12 -> slot a1 t j = slot a t j) ->
  runs (free_direct (S n) k t) fs (fun _ fs' => exists a', rep fs' a' /\ frame (only t) (only t) a a' /\ a_ibm a' = a_ibm a /\ freed a t 12 a').
Proof.
  intros Hinv Ht. induction n as [|n IH]; intros k fs a1 Hr Hn Hk F Hib Hfr Hsl; cbn [free_direct].
  { replace (k <? 12) with false by lia. mstep. exists a1. replace k with 12 in Hfr by lia. done. }
  replace (k <? 12) with true by lia. pose proof (f_inv _ _ _ _ F) as Hi1. pose proof (f_geo _ _ _ _ F) as (Gb&Gf&Gi). pose proof (i_layout _ Hi1) as Hl1.
  muse get_inode_runs giving i as (Hat&Hwf&->); [exact Hr|lia|]. mstep. eapply runs_need; [apply (slot_aget a1 t i k Hat Hwf); lia|].
  rewrite Hsl by lia. destruct (Z.eqb_spec (slot a t k) 0) as [E0|E0]; cbn [negb].
  - do 2 mstep. apply (IH (k + 1) _ a1); try done; try lia; [|intros; apply Hsl; lia]. intros p Hp. rewrite (Hfr p Hp). split; intros [H1 H2]; (split; [done|]).
    + intros j Hj. destruct (decide (j = k)) as [->|]; [lia|]. apply H2. lia.
    + intros j Hj. apply H2. lia.
  - assert (Es : slot a1 t k = slot a t k) by (apply Hsl; lia). assert (E1 : slot a1 t k <> 0) by congruence.
    pose proof (slot_bounds a1 t k Hi1 ltac:(lia) E1) as Hpr. rewrite Es in Hpr.
    destruct (free_block_clears _ (a_bm a1) (slot a t k) (r_bb _ _ Hr)) as (bm&Efb&Hbo&Hbm).
    { rewrite (r_super _ _ Hr). apply Hl1. } { rewrite (r_super _ _ Hr). exact Hpr. }
    set (a2 := mk_a (set_free_blocks (u32 (free_blocks (a_sb a1) + 1)) (a_sb a1)) bm (a_ibm a1) (a_tab a1) (a_blk a1)).
    rewrite (r_super _ _ Hr) in Hbo. assert (Hl2 : layout a2).
    { pose proof Hl1 as [L1 L2 L3 L4 L5 L6 L7 L8 L9 L10]. constructor; try done. cbn. destruct L1 as (L1&?). split; [|done]. cbn. unfold u32_ok in *.
      pose proof (u32_range (free_blocks (a_sb a1) + 1)). cbn. tauto. }
    destruct (set_block_ok i k 0 Hwf) as (i'&Ei&Hwf'); [lia|done|].
    assert (Hset : aset (i_block i) k 0 = Some (i_block i')).
    { unfold set_block in Ei. destruct (aset (i_block i) k 0); [|done]. by injection Ei as <-. }
    apply runs_bind. apply runs_bind. eexists _, _. split; [exact Efb|]. mstep. eapply runs_need; [exact Ei|].
    assert (Hr2 : rep (set_super (set_free_blocks (u32 (free_blocks (superblock fs) + 1)) (superblock fs)) (set_bb (Some bm) fs)) a2).
    { pose proof (r_super _ _ Hr) as Hsb. destruct Hr. constructor; try done. cbn. by rewrite Hsb. }
    eapply runs_mono; [eapply (put_inode_runs _ a2 t i'); [exact Hr2|change (inodes a2) with (inodes a1); lia|exact Hwf']|].
    intros [] fs3 Hr3. cbn beta iota.
    assert (Hat3 : forall x, inode_at (upd_tab t i' a2) x = if x =? t then Some i' else inode_at a1 x).
    { intros x. rewrite inode_at_upd; [done|done|]. change (inodes a2) with (inodes a1). lia. }
    assert (F2 : frame (only t) (only t) a1 (upd_tab t i' a2)).
    { apply (drop_slot_frame _ _ t k i i'); try done; [by apply layout_upd_tab|lia| | |].
      - by rewrite Hat3, Z.eqb_refl.
      - intros x Hx. rewrite Hat3. by rewrite (proj2 (Z.eqb_neq _ _)).
      - intros p Hp Hne Hb. cbn. rewrite Hbm by done. rewrite Es in Hne. by rewrite (proj2 (Z.eqb_neq _ _)). }
    apply (IH (k + 1) _ (upd_tab t i' a2)); [exact Hr3|lia|lia|by eapply frame_trans|exact Hib| |].
    + intros p Hp. cbn [upd_tab a_bm a2]. rewrite Hbm by lia. destruct (Z.eqb_spec p (slot a t k)) as [->|Hne].
      * split; [done|]. intros [_ Hj]. by destruct (Hj k ltac:(lia)).
      * rewrite (Hfr p Hp). split; intros [H1 H2]; (split; [done|]).
        -- intros j Hj. destruct (decide (j = k)) as [->|]; [done|]. apply H2. lia.
        -- intros j Hj. apply H2. lia.
    + intros j Hj. rewrite <- (Hsl j) by lia. unfold slot. rewrite Hat3, Z.eqb_refl, Hat. cbn. by rewrite (aget_aset_ne _ _ _ _ _ Hset) by lia.
Qed.

(** Everything after the name is gone: blocks, inode and number are given back. *)
Lemma release_runs fs a n : inv a -> 1 <= n <= inodes a -> rep fs a ->
  runs (_ ← free_direct 13 0 n; ti ← get_inode n; _ ← put_inode n (set_blocks (set_size (set_links ti 0) 0) 0);
        _ ← ext2_write_inode alloc n; _ ← ext2_free_inode_num n; _ ← ext2_write_superblock alloc; _ ← ext2_write_bitmaps alloc; mret 0) fs
    (fun r fs' => r = 0 /\ exists a', rep fs' a' /\ frame (only n) any a a' /\
       (forall x, 1 <= x -> used a' x = if x =? n then false else used a x) /\ freed a n 12 a' /\
       ((forall x, 1 <= x <= inodes a -> x <> n -> inode_stored a x) -> synced a')).
Proof.
  intros Hinv Hn Hr. muse (free_direct_runs a n Hinv Hn 12 0) as (a2&Hr4&F2&Hib2&Hfr2); [exact Hr|done|done|by apply frame_refl|done| |done|].
  { intros q Hq. split; [|by intros [? _]]. intros Hb1. split; [done|]. intros; lia. }
  pose proof (f_geo _ _ _ _ F2) as (_&_&G2).
  muse get_inode_runs giving i2 as (Hat2&Hwf2&->); [exact Hr4|lia|]. set (i3 := set_blocks (set_size (set_links i2 0) 0) 0).
  assert (Hwf3 : inode_wf i3) by (destruct Hwf2 as (?&?&?&?&?&?&?&?&?&?); unfold inode_wf; by cbn).
  muse put_inode_runs as Hr5; [exact Hr4|lia|exact Hwf3|]. pose proof (fields_frame a2 n i2 i3 (f_inv _ _ _ _ F2) ltac:(lia) Hat2 Hwf3 eq_refl) as F3.
  set (a3 := upd_tab n i3 a2) in *.
  muse write_inode_runs as (->&i4&b4&Hat4&Eb4&Hr6); [done|exact Hr5|change (inodes a3) with (inodes a2); lia|].
  destruct (store_frame a3 n i4 b4 (f_inv _ _ _ _ F3) ltac:(change (inodes a3) with (inodes a2); lia) Hat4 Eb4) as [F4 Hst4].
  set (a4 := upd_blk (iblock a3 n) b4 a3) in *.
  muse free_inode_runs as (n5&ibm&Hr7&Hbo&Hn5&Hbm); [exact Hr6|change (inodes a4) with (inodes a2); lia|].
  pose proof (ibm_frame n5 ibm a4 (f_inv _ _ _ _ F4) Hbo Hn5) as F5. set (a5 := upd_ibm n5 ibm a4) in *.
  assert (F : frame (only n) (only n) a a5).
  { eapply frame_compose; [exact F2| |done|done|done|done]. eapply frame_compose; [exact F3| |done|done|done|done].
    eapply frame_compose; [exact F4|exact F5|by intros ? []|by intros ? []|by intros ? []|by intros ? []]. }
  eapply runs_mono; [eapply (sync_runs alloc alloc_total _ a5 0); [exact Hr7|apply F]|].
  intros r9 fs9 (->&a6&Hr8&Hme&Hinv6&Hsy). split; [done|]. exists a6. pose proof (meta_frame a5 a6 (f_inv _ _ _ _ F) (r_layout _ _ Hr8) Hme) as F6.
  pose proof Hme as (_&Hbm6&Hib6&_). split_and!.
  - done.
  - eapply frame_compose; [exact F|exact F6|done|done|by intros ? []|done].
  - intros x Hx. unfold used. rewrite Hib6. unfold a5. cbn [upd_ibm a_ibm]. rewrite Hbm by lia. change (a_ibm a4) with (a_ibm a2). rewrite Hib2.
    destruct (Z.eqb_spec (x - 1) (n - 1)), (Z.eqb_spec x n); (done || lia).
  - unfold freed. rewrite Hbm6. exact Hfr2.
  - intros Hst. apply Hsy. intros x Hx. destruct (decide (x = n)) as [->|Hxn].
    + apply (f_stored _ _ _ _ F5); [change (inodes a4) with (inodes a2); lia|by intros []|exact Hst4].
    + apply (f_stored _ _ _ _ F); [|done|apply Hst; [|done]]; change (inodes a5) with (inodes a2) in Hx; lia.
Qed.

(** The name leads to the regular file [n] in the directory [d]. *)
Definition present (T : tree) (path : list Z) a (d : Z) (m : gmap (list Z) Z) (name : list Z) (n : Z) : Prop :=
  name <> [] /\ exists parent, split_path path = Some (parent, name) /\ components path = components parent ++ [name] /\
    walk T root (components parent) = Some d /\ T !! d = Some m /\ m !! name = Some n /\ T !! n = None /\
    exists i, inode_at a n = Some i /\ is_dir i = false.

Lemma unlink_runs fs a T path d m name n : rep fs a -> fs_ok a T -> path_ok path -> present T path a d m name n ->
  runs (ext2_unlink alloc path) fs (fun r fs' => r = 0 /\ exists a', rep fs' a' /\ fs_ok a' (<[d := delete name m]> T) /\
    frame (either d n) any a a' /\ used a' n = false /\ freed a n 12 a' /\ (synced a -> synced a')).
Proof.
  intros Hr Hok (Hs&Hl&Hch) (Hne&parent&Esp&_&Hw&Em&En&Hno&i&Hi&Hnd). pose proof (t_inv _ _ Hok) as Hinv.
  destruct (split_path_spec path Hs Hl) as (parent'&name'&Esp'&_&Hpne&Hpl&Hnl&_&_). rewrite Esp in Esp'. injection Esp' as <- <-.
  destruct (t_dir _ _ Hok d m Em) as (Hd&Hdu&ess&Hda&Hnod&Hm). destruct (t_entry _ _ Hok _ _ _ _ Em En) as (Hn&Hnu&_).
  unfold ext2_unlink. rewrite Hs. cbn [negb]. mstep. eapply runs_need; [exact Esp|]. destruct name as [|c0 name0] eqn:Ename; [done|].
  rewrite <- Ename in *. clear Ename c0 name0. muse lookup_runs giving dd as (Hr1&->); [done|exact Hr|exact Hok|done|done|].
  rewrite Hw. cbn [from_option id]. destruct (Z.eqb_spec d 0); [lia|]. do 2 mstep. rewrite (rep_bsize _ _ Hr1).
  muse kmalloc_runs as (b&->&Hb&Hr2); [done|exact Hr1|lia|]. muse get_inode_runs giving di as (Hat&Hwf&->); [exact Hr2|lia|].
  muse (remove_slots_runs a d di ess name Hinv Hat Hwf Hda ltac:(lia) 12 0) giving res as Hrm; [exact Hr2|done|done|].
  rewrite drop_0, <- Hm in Hrm. destruct Hrm as [(_&_&?)|(p&b'&ess'&Hr3&F1&Hda1&Hperm)]; [congruence|].
  destruct res as [t blk]. cbn [fst] in Hperm. assert (t = n) as ->.
  { assert (E1 : names (concat ess) !! name = Some t); [|congruence]. apply elem_of_list_to_map_1; [done|]. rewrite Hperm. by left. }
  set (a1 := upd_blk p b' a) in *. destruct (Z.eqb_spec n 0); [lia|].
  muse get_inode_runs giving ti as (Hat1&Hwf1&->); [exact Hr3|exact Hn|]. change (inode_at a1 n) with (inode_at a n) in Hat1. rewrite Hi in Hat1. injection Hat1 as <-.
  rewrite Hnd. do 2 mstep. change (2 <? 0) with false. cbn iota.
  eapply runs_mono; [eapply (release_runs _ a1 n (f_inv _ _ _ _ F1) Hn Hr3)|].
  intros r9 fs9 (->&a2&Hr4&F2&Hus&Hfr&Hsy). split; [done|]. exists a2.
  assert (F : frame (either d n) any a a2) by (eapply frame_compose; [exact F1|exact F2|by left|done|by right|done]).
  split_and!; [done| |done| |done|].
  - eapply (fs_ok_unlink any a a2 T d m name n ess ess'); try done.
    eapply (dir_at_frame (only n) any a1); [apply F1|exact F2|intros E; unfold only in E; congruence|exact Hda1].
  - rewrite Hus by lia. by rewrite Z.eqb_refl.
  - intros (_&_&Hst). apply Hsy. intros x Hx Hxn. apply (f_stored _ _ _ _ F1); [done|by intros []|by apply Hst].
Qed.

End Runs.

End Ext2Names.
