(* ===== verification/Ext2Paths.v ===== *)
(** * Ext2Paths: what the file system promises about paths (kernel/src/ext2_fs.c)

    Lookup, creation and removal of files by path on any disk, their composition
    with writing, mounting and reading, and an execution in which removal treats a
    regular file as a directory. *)

From Stdlib Require Import ZArith Lia Bool ZifyBool.
From stdpp Require Import base numbers option list list_numbers gmap.
From S2P Require Import Prelude Ramdisk Ext2 Ext2Alloc Ext2Layer Ext2Files Ext2Mount Ext2Props Ext2Dirs Ext2Tree Ext2TreeCheck Ext2Names.

Open Scope Z_scope.

Module Ext2Paths.
Import Ramdisk Ext2 Ext2Alloc Ext2Layer Ext2Files Ext2Mount Ext2Props Ext2Dirs Ext2Tree Ext2TreeCheck Ext2Names.

Implicit Types (a : astate).

#[local] Existing Instance M_bind.
#[local] Existing Instance M_ret.

(** The inode a path names. *)
Definition resolve (T : tree) (path : list Z) : option Z := walk T EXT2_ROOT_INODE (components path).

Lemma resolve_insert T d m name n path : T !! d = Some m -> m !! name = None -> forall x,
  resolve T path = Some x -> resolve (<[d := <[name := n]> m]> T) path = Some x.
Proof.
  intros Em En x. apply walk_mono. intros d' m' E. destruct (decide (d = d')) as [<-|Hne].
  - rewrite Em in E. injection E as <-. eexists. split; [apply lookup_insert_eq|]. by apply insert_subseteq.
  - exists m'. by rewrite lookup_insert_ne.
Qed.

Lemma resolve_new T d m name n path parent : T !! d = Some m -> m !! name = None -> components path = components parent ++ [name] ->
  walk T EXT2_ROOT_INODE (components parent) = Some d -> resolve (<[d := <[name := n]> m]> T) path = Some n.
Proof.
  intros Em En Ec Hw. pose proof (resolve_insert T d m name n parent Em En d Hw) as Hr. unfold resolve in *.
  rewrite Ec, walk_app, Hr. cbn [mbind option_bind walk]. rewrite lookup_insert_eq. cbn [mbind option_bind]. by rewrite lookup_insert_eq.
Qed.

(** A walk in a tree grown by one name, to an inode of the old tree. *)
Lemma walk_insert_old T d m name n ns : T !! d = Some m -> m !! name = None -> T !! n = None -> n <> d -> forall cur x,
  walk (<[d := <[name := n]> m]> T) cur ns = Some x -> x <> n -> walk T cur ns = Some x.
Proof.
  intros Em En Hno Hnd. induction ns as [|c ns IH]; intros cur x; cbn [walk]; [done|]. intros Hw Hx.
  destruct (decide (d = cur)) as [<-|Hc].
  - rewrite lookup_insert_eq in Hw. rewrite Em. cbn [mbind option_bind] in *. destruct (decide (name = c)) as [<-|Hn].
    + rewrite lookup_insert_eq in Hw. cbn [mbind option_bind] in Hw. destruct ns as [|c' ns]; cbn [walk] in Hw; [congruence|].
      by rewrite lookup_insert_ne, Hno in Hw by done.
    + rewrite lookup_insert_ne in Hw by done. destruct (m !! c); cbn [mbind option_bind] in *; [by apply IH|done].
  - rewrite lookup_insert_ne in Hw by done. destruct (T !! cur) as [m'|]; cbn [mbind option_bind] in *; [|done].
    destruct (m' !! c); cbn [mbind option_bind] in *; [by apply IH|done].
Qed.

(** A walk that still works after a file's name was deleted gave the same before. *)
Lemma walk_delete T d m name ns : T !! d = Some m -> forall cur x,
  walk (<[d := delete name m]> T) cur ns = Some x -> walk T cur ns = Some x.
Proof.
  intros Em cur x. apply walk_mono. intros d' m' [[<- <-]|[Hne E]]%lookup_insert_Some.
  - exists m. split; [done|]. apply delete_subseteq.
  - by exists m'.
Qed.

Section Properties.
Context {X : Type} {dev_ok : ramdisk_device X -> Prop} {image : ramdisk_device X -> list Z}.
Context `{HD : Disk X dev_ok image}.
Context (alloc : nat -> Z -> option (list Z)).
Context (alloc_total : forall k n, 0 <= n -> exists m, alloc k n = Some m /\ Z.of_nat (length m) = n).
Abbreviation FS := (ext2_filesystem (X := X)).
Abbreviation rep := (rep (dev_ok := dev_ok) (image := image)).
Implicit Types (fs : FS).

(** C19: Path lookup is a walk in the tree of directories.  On any disk that holds
    the directories [T], however their entries are laid out in blocks,
    [ext2_lookup_inode] on a path shorter than 256 characters returns the inode
    that the path's components lead to from the root, and 0 when they lead
    nowhere; the file system is unchanged. *)
Theorem ext2_lookup_walks fs a T path :
  rep fs a -> fs_ok a T -> path <> [] -> (length path < 256)%nat ->
  exists fs', ext2_lookup_inode alloc path fs = Some (default 0 (resolve T path), fs') /\ rep fs' a.
Proof.
  intros Hr Hok Hne Hl. destruct (lookup_runs alloc alloc_total fs a T path Hr Hok Hne Hl) as (r&fs'&E&Hr'&->). by exists fs'.
Qed.

(** C12: [ext2_create] on any disk that holds the directories [T].  It returns 0 or
    the new file's inode.  When it returns an inode, the number was free, the
    parent directory has exactly one more name, the path resolves to the inode,
    every path that resolved before resolves to the same inode, and every path that
    resolves to something else did so before; the new file is an empty regular
    file with the requested permissions; the inodes and bytes of all other files
    and directories but the parent are unchanged, the parent's owner and mode too,
    and if disk and memory agreed before they agree after.  When it returns 0, the
    directories and all files in use are unchanged, and if the parent is a
    directory without the name, no inode or no block is free or the parent has its
    12 blocks. *)
Theorem ext2_create_effect fs a T path mode :
  rep fs a -> fs_ok a T -> path_ok path -> 0 <= mode < 2 ^ 16 ->
  exists ino fs' a', ext2_create alloc path mode fs = Some (ino, fs') /\ rep fs' a' /\
    ((ino = 0 /\ fs_ok a' T /\
      (forall x, used a x = true -> inode_at a' x = inode_at a x) /\
      (forall x pos, used a x = true -> 0 <= pos < MAX_SIZE -> byte a' x pos = byte a x pos) /\
      (forall d m name, absent T path d m name -> no_inode a \/ full a \/ dir_full a d)) \/
     (ino <> 0 /\ exists d m name, absent T path d m name /\ used a ino = false /\
      let T' := <[d := <[name := ino]> m]> T in
      fs_ok a' T' /\ resolve T' path = Some ino /\
      (forall q x, resolve T q = Some x -> resolve T' q = Some x) /\
      (forall q x, resolve T' q = Some x -> x <> ino -> resolve T q = Some x) /\
      perms a' ino = Some (file_mode mode EXT2_S_IFREG, 0, 0) /\ stat a' ino = Some (file_mode mode EXT2_S_IFREG, 0) /\
      perms a' d = perms a d /\
      (forall x, x <> d -> x <> ino -> inode_at a' x = inode_at a x) /\
      (forall x pos, x <> d -> x <> ino -> 0 <= pos < MAX_SIZE -> byte a' x pos = byte a x pos) /\
      (synced a -> synced a'))).
Proof.
  intros Hr Hok Hp Hm. destruct (create_runs alloc alloc_total fs a T path mode Hr Hok Hp Hm) as (ino&fs'&E&a'&Hr'&Hc).
  exists ino, fs', a'. split; [done|]. split; [done|]. destruct Hc as [(->&Hok'&F&_&Hwhy)|(d&m&name&Ha&Hi&Hfree&Hok'&F&Hpd&Hpi&Hst&Hsy)]; [left|right].
  - split_and!; [done|done| | |done].
    + intros x Hx. apply F. unfold unused. congruence.
    + intros x pos Hx. apply F. unfold unused. congruence.
  - split; [lia|]. exists d, m, name. pose proof Ha as (_&parent&_&Ec&Hw&Em&En). cbv zeta. split_and!; try done.
    + by eapply resolve_new.
    + intros q x. by apply resolve_insert.
    + intros q x. unfold resolve. destruct (t_dir _ _ Hok _ _ Em) as (_&Hud&_). apply walk_insert_old; try done; [|congruence].
      destruct (T !! ino) as [mi|] eqn:Ei; [|done]. destruct (t_dir _ _ Hok _ _ Ei) as (_&?&_). congruence.
    + intros x Hxd Hxi. apply F. by intros [?|?].
    + intros x pos Hxd Hxi. apply F. by intros [?|?].
Qed.

(** C20: [ext2_unlink] of a regular file on any disk that holds the directories [T].
    It returns 0; exactly the file's name is gone from its directory, every path
    that still resolves gives the inode it gave before and none gives the file's;
    the inode number and the blocks of its 12 direct slots are free and no other
    block is; all other inodes but the directory's and all bytes of other files
    are unchanged; and if disk and memory agreed before they agree after. *)
Theorem ext2_unlink_effect fs a T path d m name n :
  rep fs a -> fs_ok a T -> path_ok path -> present T path a d m name n ->
  exists fs' a', ext2_unlink alloc path fs = Some (0, fs') /\ rep fs' a' /\
    let T' := <[d := delete name m]> T in
    fs_ok a' T' /\ used a' n = false /\
    (forall q x, resolve T' q = Some x -> resolve T q = Some x /\ x <> n) /\
    (forall p, 0 < p -> bit_set (a_bm a') p = true <-> (bit_set (a_bm a) p = true /\ forall j, 0 <= j < 12 -> slot a n j <> p)) /\
    (forall x, x <> d -> x <> n -> inode_at a' x = inode_at a x) /\
    (forall x pos, x <> d -> x <> n -> 0 <= pos < MAX_SIZE -> byte a' x pos = byte a x pos) /\
    (synced a -> synced a').
Proof.
  intros Hr Hok Hp Hpr. destruct (unlink_runs alloc alloc_total fs a T path d m name n Hr Hok Hp Hpr) as (r&fs'&E&->&a'&Hr'&Hok'&F&Hu&Hfr&Hsy).
  exists fs', a'. split; [done|]. split; [done|]. destruct Hpr as (_&_&_&_&_&Em&_). cbv zeta. split_and!; try done.
  - intros q x Hx. split; [by eapply walk_delete|]. intros ->. destruct (root_ok _ _ Hok') as (Hroot&Hru&Hrl).
    destruct (walk_ok _ _ _ Hok' _ _ Hroot Hru Hrl Hx) as (_&?&_). congruence.
  - intros x Hxd Hxn. apply F. by intros [?|?].
  - intros x pos Hxd Hxn. apply F. by intros [?|?].
Qed.

(** Writing a file leaves the directories alone. *)
Lemma put_bytes_tree ino off data a a' T : put_bytes ino off data a a' -> fs_ok a T -> T !! ino = None ->
  (exists i, inode_at a' ino = Some i /\ is_dir i = false) -> fs_ok a' T.
Proof.
  intros [W1 (W2&W2'&W3) W4 W5 W6 W7 _ _] Hok Hno Hleaf.
  assert (F : frame (only ino) any a a') by (constructor; try done; by apply same_super_mountable).
  assert (Hu : forall x, used a' x = used a x) by (intros x; unfold used; by rewrite W5). split.
  - done.
  - apply Hok.
  - intros d m Em. destruct (t_dir _ _ Hok d m Em) as (Hd&Hud&ess&Hda&Hn). rewrite Hu, W3. split_and!; [lia|lia|done|]. exists ess.
    split; [|done]. eapply dir_at_frame; [apply Hok|exact F| |done]. intros E. unfold only in E. congruence.
  - intros d m name n Em En. destruct (t_entry _ _ Hok _ _ _ _ Em En) as (Hr&Hun&Hl). rewrite Hu, W3. split_and!; [lia|lia|done|].
    intros Hnn. destruct (decide (n = ino)) as [->|Hne]; [by right|].
    destruct (Hl Hnn) as [?|(i&Hi)]; [left; lia|right]. exists i. by rewrite W6.
  - apply Hok.
Qed.

(** C6: A file created by path is there after a restart.  From a disk that agrees
    with memory: create a file, write its contents completely, and mount the
    device from scratch in any memory; then the path resolves to the file, reading
    it gives the data, and every path that resolved to an inode before the file was
    created resolves to the same inode after the restart. *)
Theorem ext2_named_file_survives fs a T path mode ino fs1 buf fs2 fs3 sb_buffer :
  rep fs a -> fs_ok a T -> synced a -> mountable a -> path_ok path -> 0 <= mode < 2 ^ 16 ->
  ext2_create alloc path mode fs = Some (ino, fs1) -> 0 < ino < inodes a ->
  Z.of_nat (length buf) <= MAX_SIZE -> ext2_write alloc ino 0 (Z.of_nat (length buf)) buf fs1 = Some (Z.of_nat (length buf), fs2) ->
  device fs3 = device fs2 -> Z.of_nat (length sb_buffer) = 1024 ->
  exists fs4, ext2_mount alloc sb_buffer fs3 = Some (0, fs4) /\
    (exists fs5, ext2_lookup_inode alloc path fs4 = Some (ino, fs5) /\
      forall out, length out = length buf ->
        exists fs6, ext2_read alloc ino 0 (Z.of_nat (length buf)) out fs5 = Some ((Z.of_nat (length buf), buf), fs6)) /\
    (forall q n fsq, q <> [] -> (length q < 256)%nat -> ext2_lookup_inode alloc q fs = Some (n, fsq) -> n <> 0 ->
       exists fsr, ext2_lookup_inode alloc q fs4 = Some (n, fsr)).
Proof.
  intros Hr Hok Hsy Hmt Hp Hm Ec Hino Hmax Ew Hdev Hsb.
  destruct (runs_inv _ _ _ _ _ (create_runs alloc alloc_total fs a T path mode Hr Hok Hp Hm) Ec) as (a1&Hr1&[(->&_)|Hc]); [lia|].
  destruct Hc as (d&mm&name&(_&parent&_&Ecp&Hw&Em&En)&Hi&Hfree&Hok1&F&_&_&Hst&Hsy1). set (T1 := <[d := <[name := ino]> mm]> T) in *.
  pose proof (f_geo _ _ _ _ F) as (_&_&Gi). destruct (t_dir _ _ Hok _ _ Em) as (Hd&Hud&_).
  assert (Hti : T1 !! ino = None).
  { unfold T1. rewrite lookup_insert_ne by congruence. destruct (T !! ino) as [mi|] eqn:Ei; [|done]. destruct (t_dir _ _ Hok _ _ Ei) as (_&?&_). congruence. }
  unfold stat in Hst. destruct (inode_at a1 ino) as [i1|] eqn:Hat; [|done]. injection Hst as Hmd Hsz.
  assert (Hnd : is_dir i1 = false). { unfold is_dir. rewrite Hmd. destruct (file_mode_ok mode Hm) as [_ ->]. done. }
  assert (Hwr := write_runs alloc alloc_total fs1 a1 ino i1 0 (Z.of_nat (length buf)) buf Hr1 (t_inv _ _ Hok1) ltac:(lia) Hat Hnd ltac:(lia) ltac:(lia) ltac:(lia)).
  destruct (runs_inv _ _ _ _ _ Hwr Ew) as (a2&Hr2&Hpb&_&_&Hst2&Hsy2). rewrite take_ge in Hpb by lia. pose proof (w_geo _ _ _ _ _ Hpb) as (_&_&G2).
  assert (Hmt2 : mountable a2) by (eapply same_super_mountable; [apply Hpb|]; by apply F).
  assert (Hok2 : fs_ok a2 T1).
  { eapply put_bytes_tree; [exact Hpb|exact Hok1|done|]. unfold stat in Hst2. destruct (inode_at a2 ino) as [i2|]; [|done]. injection Hst2 as Hmd2 _.
    exists i2. split; [done|]. unfold is_dir in *. by rewrite Hmd2. }
  destruct (mount_runs alloc alloc_total fs3 a2 sb_buffer (r_layout _ _ Hr2) ltac:(rewrite Hdev; by apply rep_holds) (Hsy2 (Hsy1 Hsy)) Hmt2 Hsb)
    as (r&fs4&E4&->&Hr4).
  exists fs4. split; [done|]. destruct Hp as (Hp1&Hp2&_). split.
  - destruct (lookup_runs alloc alloc_total fs4 a2 T1 path Hr4 Hok2) as (x&fs5&E5&Hr5&Hx); [by destruct path|done|]. exists fs5. split.
    + rewrite E5. pose proof (resolve_new T d mm name ino path parent Em En Ecp Hw) as Hres. unfold resolve in Hres. fold T1 in Hres. rewrite Hres in Hx. by subst x.
    + intros out Hout. eapply (read_back alloc alloc_total fs5 a1 a2 ino (i_mode i1) (i_size i1)); try done; lia.
  - intros q n fsq Hq1 Hq2 Eq Hn. destruct (runs_inv _ _ _ _ _ (lookup_runs alloc alloc_total fs a T q Hr Hok Hq1 Hq2) Eq) as (_&Hx).
    destruct (walk T root (components q)) as [y|] eqn:Ey; cbn in Hx; [|done]. subst y.
    destruct (lookup_runs alloc alloc_total fs4 a2 T1 q Hr4 Hok2 Hq1 Hq2) as (x&fs5&E5&Hr5&Hx). exists fs5. rewrite E5.
    pose proof (resolve_insert T d mm name ino q Em En n Ey) as Hres. unfold resolve in Hres. fold T1 in Hres. rewrite Hres in Hx. by subst x.
Qed.

End Properties.

(** ** The directories of a formatted disk *)

Definition demo_a : astate := a_of (formatted 64).
Definition demo_tree : tree := tree_of (read_tree demo_a).
Definition passwd_name : list Z := [112; 97; 115; 115; 119; 100].

(** The disk holds directories in which /etc/passwd is the regular file 15. *)
Definition demo_facts (a : astate) (l : list (Z * list (list dent))) : bool :=
  check_tree a l && bool_decide (walk (tree_of l) EXT2_ROOT_INODE (components etc) = Some 14) &&
  match tree_of l !! 14 with Some m => bool_decide (m !! passwd_name = Some 15) | None => false end &&
  bool_decide (tree_of l !! 15 = None) && match inode_at a 15 with Some i => negb (is_dir i) | None => false end.

Lemma demo_facts_sound a l : inv a -> demo_facts a l = true ->
  fs_ok a (tree_of l) /\ exists m, present (tree_of l) passwd a 14 m passwd_name 15.
Proof.
  intros Hi H. unfold demo_facts in H. apply andb_true_iff in H as [H Hf]. apply andb_true_iff in H as [H Hno].
  apply andb_true_iff in H as [H Hm]. apply andb_true_iff in H as [Hc Hw]. split; [by apply check_tree_sound|].
  apply bool_decide_eq_true in Hw, Hno. destruct (tree_of l !! 14) as [m|] eqn:Em; [|done]. apply bool_decide_eq_true in Hm.
  exists m. split; [done|]. exists etc. split_and!; try done. destruct (inode_at a 15) as [i|]; [|done].
  exists i. split; [done|]. by apply negb_true_iff.
Qed.

Lemma demo_disk : rep (dev_ok := mem_ok) (image := mem_image) (formatted 64) demo_a /\ synced demo_a /\ mountable demo_a /\ fs_ok demo_a demo_tree /\
  exists m, present demo_tree passwd demo_a 14 m passwd_name 15.
Proof.
  destruct demo64_format as [_ (Hr&Hi&Hsy&Hmt)]. split; [exact Hr|]. split; [exact Hsy|]. split; [exact Hmt|].
  apply (demo_facts_sound demo_a (read_tree demo_a) Hi). vm_compute. reflexivity.
Qed.

Lemma demo_inodes : inodes demo_a = 16.
Proof. vm_compute. reflexivity. Qed.

Lemma demo_path (q : list Z) : (starts_with_slash q && (length q <? 256)%nat && forallb (fun c => (0 <? c) && (c <? 256)) q) = true -> path_ok q.
Proof.
  intros H. bools. split; [done|]. split; [by apply Nat.ltb_lt|]. apply Forall_forall. intros c Hc.
  rewrite forallb_forall in H0. specialize (H0 c (proj1 (list_elem_of_In _ _) Hc)). lia.
Qed.

Lemma ext2_lookup_walks_witness :
  exists fs', ext2_lookup_inode junk passwd (formatted 64) = Some (default 0 (resolve demo_tree passwd), fs').
Proof.
  destruct demo_disk as (Hr&_&_&Hok&_). destruct (ext2_lookup_walks junk junk_total (formatted 64) demo_a demo_tree passwd Hr Hok) as (fs'&E&_);
    [discriminate|cbn; lia|]. exists fs'. exact E.
Defined.

Lemma ext2_create_effect_witness : exists ino fs', ext2_create junk path_a 420 (formatted 64) = Some (ino, fs').
Proof.
  destruct demo_disk as (Hr&_&_&Hok&_).
  destruct (ext2_create_effect junk junk_total (formatted 64) demo_a demo_tree path_a 420 Hr Hok) as (ino&fs'&a'&E&_);
    [apply demo_path; reflexivity|lia|]. exists ino, fs'. exact E.
Defined.

Lemma ext2_unlink_effect_witness : exists fs', ext2_unlink junk passwd (formatted 64) = Some (0, fs').
Proof.
  destruct demo_disk as (Hr&_&_&Hok&m&Hp).
  destruct (ext2_unlink_effect junk junk_total (formatted 64) demo_a demo_tree passwd 14 m passwd_name 15 Hr Hok) as (fs'&a'&E&_);
    [apply demo_path; reflexivity|exact Hp|]. exists fs'. exact E.
Defined.

(** The disk after /etc/passwd was removed has a free inode. *)
Definition demo_less : ext2_filesystem (X := unit) := final (ext2_unlink junk passwd) (formatted 64).
Definition demo_more : ext2_filesystem (X := unit) := final (ext2_create junk path_a 420) demo_less.
Definition demo_written : ext2_filesystem (X := unit) := final (ext2_write junk 15 0 2 [72; 105]) demo_more.

Lemma demo_less_disk : exists a T, rep (dev_ok := mem_ok) (image := mem_image) demo_less a /\ fs_ok a T /\ synced a /\ mountable a /\ inodes a = inodes demo_a.
Proof.
  destruct demo_disk as (Hr&Hsy&Hmt&Hok&m&Hp).
  destruct (unlink_runs junk junk_total (formatted 64) demo_a demo_tree passwd 14 m passwd_name 15 Hr Hok) as (r&fs'&E&->&a'&Hr'&Hok'&F&_&_&Hsy');
    [apply demo_path; reflexivity|exact Hp|].
  exists a', (<[14 := delete passwd_name m]> demo_tree). unfold demo_less, final. rewrite E. split; [exact Hr'|]. split; [exact Hok'|].
  split; [exact (Hsy' Hsy)|]. split; [exact (f_mount _ _ _ _ F Hmt)|]. exact (proj2 (proj2 (f_geo _ _ _ _ F))).
Qed.

Lemma demo_steps : ext2_create junk path_a 420 demo_less = Some (15, demo_more) /\
  ext2_write junk 15 0 2 [72; 105] demo_more = Some (2, demo_written).
Proof.
  assert (H : match ext2_create junk path_a 420 demo_less with
    | Some (r, fs1) => (r =? 15) && match ext2_write junk 15 0 2 [72; 105] fs1 with Some (w, _) => w =? 2 | None => false end
    | None => false end = true) by (vm_compute; reflexivity).
  unfold demo_written, final. unfold demo_more, final. destruct (ext2_create junk path_a 420 demo_less) as [[r fs1]|]; [|discriminate H].
  apply andb_true_iff in H as [H1 H2]. apply Z.eqb_eq in H1. rewrite H1. split; [reflexivity|].
  destruct (ext2_write junk 15 0 2 [72; 105] fs1) as [[w fs2]|]; [|discriminate H2]. apply Z.eqb_eq in H2. rewrite H2. reflexivity.
Qed.

Lemma ext2_named_file_survives_witness :
  exists fs4 fs5 fs6, ext2_mount junk (replicate 1024 0) (set_bb None demo_written) = Some (0, fs4) /\
    ext2_lookup_inode junk path_a fs4 = Some (15, fs5) /\ ext2_read junk 15 0 2 [0; 0] fs5 = Some ((2, [72; 105]), fs6).
Proof.
  destruct demo_less_disk as (a&T&Hr&Hok&Hsy&Hmt&Hin). destruct demo_steps as [Ec Ew].
  pose proof demo_inodes as Hi.
  destruct (ext2_named_file_survives junk junk_total demo_less a T path_a 420 15 demo_more [72; 105] demo_written (set_bb None demo_written)
    (replicate 1024 0) Hr Hok Hsy Hmt) as (fs4&Em&(fs5&El&Hrd)&_);
    [apply demo_path; reflexivity|lia|exact Ec|lia|cbn; unfold MAX_SIZE, MAX_BLOCKS; lia|exact Ew|apply device_set_bb|reflexivity|].
  destruct (Hrd [0; 0]) as (fs6&Er); [reflexivity|]. exists fs4, fs5, fs6. split; [exact Em|]. split; [exact El|exact Er].
Defined.

(** Removal takes a regular file for a directory.  On a formatted disk let the
    regular file /a hold, as its data, one directory entry that names the inode of
    the directory /bin.  [ext2_lookup_inode] does not find the path /a/x of that
    entry, but [ext2_unlink] of it succeeds and destroys /bin: its inode and its
    block are free and its size is 0, while the root directory still lists it. *)
Theorem ext2_unlink_through_file :
  result (_ ← ext2_unlink junk passwd;
          j ← ext2_create junk path_a 420;
          _ ← ext2_write junk j 0 12 [13; 0; 0; 0; 0; 4; 1; 1; 120; 0; 0; 0];
          before ← ext2_stat 13;
          found ← ext2_lookup_inode junk (path_a ++ [47; 120]);
          r ← ext2_unlink junk (path_a ++ [47; 120]);
          after ← ext2_stat 13;
          listed ← ext2_lookup_inode junk [47; 98; 105; 110];
          mret (j, i_size <$> before, found, r, i_size <$> after, listed)) 64 = Some (15, Some 1024, 0, 0, Some 0, 13).
Proof. vm_compute. reflexivity. Qed.

End Ext2Paths.
