(* ===== verification/Vfs.v ===== *)
(** * Vfs: the virtual file system (kernel/src/vfs.c)

    Paths reach files of three kinds: programs and texts embedded in the kernel
    image, files of the mounted ext2 file system, and, when no disk is mounted,
    a table of 32 files kept in memory.  The state is that table, the mounted
    file system and the user id of the calling process; the operations of the
    file system are those of [Ext2].  C strings are lists of characters without
    the terminator, a NULL path is [None]; [None] as a result is undefined
    behaviour.  The bytes of the two embedded programs come from the linker and
    are parameters. *)

From Stdlib Require Import ZArith Lia Bool ZifyBool.
From stdpp Require Import base numbers option list list_numbers gmap.
From S2P Require Import Prelude StateM Ramdisk Ext2.

Open Scope Z_scope.
Set Warnings "-clear-no-such-hyp".

Module Vfs.
Import Ext2.

(** ** Constants and data *)

Definition VFS_USER_MAX_FILES : Z := 32.
Definition VFS_USER_MAX_SIZE : Z := 8192.
Definition VFS_NODE_FILE : Z := 1.
Definition VFS_NODE_DIRECTORY : Z := 2.
Definition SYSCALL_EACCES : Z := 13.

Record vfs_user_file := mk_user_file { f_path : list Z; f_data : list Z; f_size : Z; f_used : bool }.
Record vfs_file := mk_vfs_file { e_path : list Z; e_data : list Z }.
Record vfs_stat := mk_stat { st_kind : Z; st_size : Z; st_mode : Z; st_uid : Z; st_gid : Z }.
Record vfs_dir_entry := mk_entry { de_name : list Z; de_kind : Z; de_size : Z }.

(** Text constants of the source. *)
Definition p_root : list Z := [47].
Definition p_bin : list Z := [47; 98; 105; 110].
Definition p_etc : list Z := [47; 101; 116; 99].
Definition p_home : list Z := [47; 104; 111; 109; 101].
Definition p_sh : list Z := p_bin ++ [47; 115; 104].
Definition p_edit : list Z := p_bin ++ [47; 101; 100; 105; 116].
Definition p_motd : list Z := p_etc ++ [47; 109; 111; 116; 100].

(** [g_motd_data]: the source writes the line ends as a backslash followed by n. *)
Definition g_motd_data : list Z :=
  [87; 69; 76; 67; 79; 77; 69; 32; 84; 79; 32; 86; 73; 66; 69; 79; 83; 92; 110;
   82; 69; 65; 68; 32; 79; 78; 76; 89; 32; 86; 70; 83; 32; 79; 78; 76; 73; 78; 69; 92; 110].

Definition ascii_lower (c : Z) : Z := if (65 <=? c) && (c <=? 90) then c + 32 else c.

Fixpoint string_equals_ci (left right : list Z) : bool :=
  match left, right with
  | a :: left', b :: right' => if ascii_lower a =? ascii_lower b then string_equals_ci left' right' else false
  | [], [] => true
  | _, _ => false
  end.

Section FileSystems.
Context {X : Type} (alloc : nat -> Z -> option (list Z)) (sh_image edit_image : list Z).

Record vfs := mk_vfs {
  g_user_files : list vfs_user_file;
  g_ext2 : option (ext2_filesystem (X := X));
  current_uid : Z }.

Abbreviation V := (ST vfs).

Definition set_files l s := mk_vfs l (g_ext2 s) (current_uid s).
Definition set_ext2 e s := mk_vfs (g_user_files s) e (current_uid s).

(** An operation of the mounted file system. *)
Definition on_disk {A} (m : M A) : V A := fun s =>
  fs ← g_ext2 s; '(r, fs') ← m fs; Some (r, set_ext2 (Some fs') s).

Definition mounted : V bool := reads (fun s => bool_decide (is_Some (g_ext2 s))).

Definition vfs_set_ext2 (fs : option (ext2_filesystem (X := X))) : V () := update (set_ext2 fs).
Definition vfs_get_ext2 : V (option (ext2_filesystem (X := X))) := reads g_ext2.

(** ** Embedded files *)

Definition g_vfs_files : list vfs_file :=
  [mk_vfs_file p_sh sh_image; mk_vfs_file p_edit edit_image; mk_vfs_file p_motd g_motd_data].

Definition vfs_lookup (path : option (list Z)) : option vfs_file :=
  p ← path; snd <$> list_find (fun f => string_equals_ci p (e_path f)) g_vfs_files.

Definition vfs_file_size (file : option vfs_file) : Z :=
  match file with None => 0 | Some f => Z.of_nat (length (e_data f)) end.

(** ** User files *)

Definition same_path (path : option (list Z)) (f : vfs_user_file) : bool :=
  match path with Some p => f_used f && bool_decide (p = f_path f) | None => false end.

Definition find_user_file (path : option (list Z)) : V (option Z) :=
  reads (fun s => Z.of_nat ∘ fst <$> list_find (same_path path) (g_user_files s)).

Definition user_file (i : Z) : V vfs_user_file := fun s => f ← aget (g_user_files s) i; Some (f, s).
Definition put_user_file (i : Z) (f : vfs_user_file) : V () :=
  try_update (fun s => l ← aset (g_user_files s) i f; Some (set_files l s)).

(** ** Permissions *)

Definition perm_ok (inode : ext2_inode) (uid want : Z) : bool :=
  let mode := Z.land (i_mode inode) 511 in
  if uid =? 0 then true
  else
    let shift := if uid =? i_uid inode then 6 else 0 in
    Z.land (Z.shiftr mode shift) want =? want.

Definition vfs_access_ok (path : list Z) (want : Z) : V bool :=
  m ← mounted;
  if negb m then mret true
  else
    ino ← on_disk (ext2_lookup_inode alloc path);
    if ino =? 0 then mret true
    else
      st ← on_disk (ext2_stat ino);
      match st with
      | None => mret true
      | Some inode => uid ← reads current_uid; mret (perm_ok inode uid want)
      end.

(** Index of the last slash, 0 when there is none. *)
Definition last_slash_of (path : list Z) : Z := default 0 (last_slash path).

(** [parent_dir] into a buffer of [cap] bytes. *)
Definition parent_dir (path : list Z) (cap : Z) : list Z :=
  let slash := last_slash_of path in
  if slash =? 0 then [47]
  else
    let slash := if cap - 1 <=? slash then cap - 2 else slash in
    take (Z.to_nat slash) path.

(** The check [vfs_create], [vfs_unlink] and [vfs_mkdir] make of the directory
    that will change. *)
Definition parent_writable (path : list Z) : V bool := vfs_access_ok (parent_dir path 64) 6.

(** ** Stat *)

Definition ext2_vfs_stat (path : list Z) (stat : vfs_stat) : V (Z * vfs_stat) :=
  m ← mounted;
  if negb m then mret (0, stat)
  else
    ino ← on_disk (ext2_lookup_inode alloc path);
    if ino =? 0 then mret (0, stat)
    else
      st ← on_disk (ext2_stat ino);
      match st with
      | None => mret (0, stat)
      | Some inode =>
          let kind := if is_dir inode then VFS_NODE_DIRECTORY else VFS_NODE_FILE in
          mret (1, mk_stat kind (i_size inode) (Z.land (i_mode inode) 511) (i_uid inode) (i_gid inode))
      end.

(** A trailing slash is dropped. *)
Definition drop_slash (path : list Z) : list Z :=
  if (1 <? Z.of_nat (length path)) && bool_decide (last path = Some 47)
  then take (length path - 1) path else path.

Definition with_kind (kind size : Z) (st : vfs_stat) : vfs_stat := mk_stat kind size (st_mode st) (st_uid st) (st_gid st).

(** A user file below the directory [dir]. *)
Definition file_below (dir : list Z) (f : vfs_user_file) : bool :=
  f_used f && (Z.of_nat (length dir) <? Z.of_nat (length (f_path f)))
  && bool_decide (f_path f !! length dir = Some 47) && bool_decide (take (length dir) (f_path f) = dir).

Definition vfs_stat_path (path : option (list Z)) (stat : vfs_stat) : V (Z * vfs_stat) :=
  match path with
  | None => mret (0, stat)
  | Some path =>
      if 64 <=? Z.of_nat (length path) then mret (0, stat)
      else
        let norm := drop_slash path in
        match vfs_lookup (Some norm) with
        | Some f => mret (1, with_kind VFS_NODE_FILE (vfs_file_size (Some f)) stat)
        | None =>
            '(r, stat) ← ext2_vfs_stat norm stat;
            if negb (r =? 0) then mret (1, stat)
            else if existsb (string_equals_ci norm) [p_root; p_bin; p_etc; p_home]
            then mret (1, with_kind VFS_NODE_DIRECTORY 0 stat)
            else
              files ← reads g_user_files;
              if existsb (file_below norm) files then mret (1, with_kind VFS_NODE_DIRECTORY 0 stat)
              else mret (0, stat)
        end
  end.

Definition vfs_file_exists (path : option (list Z)) (stat : vfs_stat) : V bool :=
  '(r, st) ← vfs_stat_path path stat; mret (negb (r =? 0) && (st_kind st =? VFS_NODE_FILE)).

(** ** Directory listing *)

(** The part of [fpath] below the directory of length [n] at the start of [dir];
    [eq] compares characters.  [None] when [fpath] is not below it. *)
Definition name_below (eq : Z -> Z -> bool) (dir : list Z) (n : Z) (fpath : list Z) : option (list Z) :=
  if (Z.of_nat (length fpath) <? n) then None
  else if forallb (fun '(a, b) => eq a b) (zip (take (Z.to_nat n) fpath) dir)
          && bool_decide (fpath !! Z.to_nat n = Some 47)
  then Some (drop (Z.to_nat n + 1) fpath) else None.

(** Length of a directory path without a trailing slash. *)
Definition effective_len (dir : list Z) : Z :=
  let len := Z.of_nat (length dir) in
  if (1 <? len) && bool_decide (last dir = Some 47) then len - 1 else len.

Definition is_root_dir (dir : list Z) : bool := (effective_len dir =? 1) && bool_decide (dir !! 0%nat = Some 47).

(** A name that is not empty and has no slash. *)
Definition plain_name (name : list Z) : bool := negb (bool_decide (name = [])) && forallb (fun c => negb (c =? 47)) name.

Definition same_ci (a b : Z) : bool := ascii_lower a =? ascii_lower b.

Fixpoint embedded_children_from (files : list vfs_file) (dir : list Z) (max : nat) : list vfs_dir_entry :=
  match files, max with
  | [], _ | _, O => []
  | f :: files', S max' =>
      let name := if is_root_dir dir then Some (drop 1 (e_path f))
                  else name_below same_ci dir (effective_len dir) (e_path f) in
      match name with
      | Some n =>
          if plain_name n
          then mk_entry n VFS_NODE_FILE (vfs_file_size (Some f)) :: embedded_children_from files' dir max'
          else embedded_children_from files' dir max
      | None => embedded_children_from files' dir max
      end
  end.

Definition embedded_children (dir : list Z) (max : nat) : list vfs_dir_entry :=
  embedded_children_from g_vfs_files dir max.

Definition g_overlay_dirs : list (list Z) := drop 1 <$> [p_bin; p_etc; p_home].

Definition already_listed (name : list Z) (prev : list vfs_dir_entry) : bool :=
  existsb (fun e => string_equals_ci name (de_name e)) prev.

(** The next entry of a source, unless the array is full or has the name. *)
Definition merge_entry (e : vfs_dir_entry) (merged : list vfs_dir_entry) : list vfs_dir_entry :=
  if (Z.of_nat (length merged) <? 64) && negb (already_listed (de_name e) merged) then merged ++ [e] else merged.

Definition merge_all (es merged : list vfs_dir_entry) : list vfs_dir_entry := foldl (fun m e => merge_entry e m) merged es.

(** Step 1: the entries of the ext2 directory, "." and ".." left out, names cut to
    63 characters. *)
Definition ext2_entry (d : dirent) : option vfs_dir_entry :=
  if bool_decide (d_name_len d = 1) && bool_decide (d_name d !! 0%nat = Some 46) then None
  else if bool_decide (d_name_len d = 2) && bool_decide (d_name d !! 0%nat = Some 46) && bool_decide (d_name d !! 1%nat = Some 46) then None
  else Some (mk_entry (cstr (take 63 (d_name d))) (if d_file_type d =? 2 then VFS_NODE_DIRECTORY else VFS_NODE_FILE) 0).

Definition disk_entries (path : list Z) : V (list vfs_dir_entry) :=
  m ← mounted;
  if negb m then mret []
  else
    ino ← on_disk (ext2_lookup_inode alloc path);
    if ino =? 0 then mret []
    else es ← on_disk (ext2_readdir alloc ino 32); mret (omap ext2_entry es).

(** Step 4: the user files directly below the directory. *)
Definition user_entry (dir : list Z) (f : vfs_user_file) : option vfs_dir_entry :=
  if negb (f_used f) then None
  else
    name ← (if is_root_dir dir
            then (if bool_decide (f_path f !! 0%nat = Some 47) then Some (drop 1 (f_path f)) else None)
            else name_below Z.eqb dir (effective_len dir) (f_path f));
    if plain_name name then Some (mk_entry name VFS_NODE_FILE (f_size f)) else None.

(** The merged list of a directory. *)
Definition vfs_listing (path : list Z) : V (list vfs_dir_entry) :=
  disk ← disk_entries path;
  files ← reads g_user_files;
  let m := disk in
  let m := if string_equals_ci path p_root
           then merge_all ((fun n => mk_entry n VFS_NODE_DIRECTORY 0) <$> g_overlay_dirs) m else m in
  let m := merge_all (embedded_children path 16) m in
  mret (merge_all (omap (user_entry path) files) m).

Definition vfs_readdir (path : option (list Z)) (index : Z) : V (option vfs_dir_entry) :=
  match path with
  | None => mret None
  | Some path => l ← vfs_listing path; mret (aget l index)
  end.

(** ** Creating and removing *)

Definition vfs_create (path : option (list Z)) : V Z :=
  match path with
  | None => mret (-1)
  | Some path =>
      if 64 <=? Z.of_nat (length path) then mret (-1)
      else
        m ← mounted;
        ok ← (if (m : bool) then parent_writable path else mret true);
        if negb ok then mret (- SYSCALL_EACCES)
        else if m && starts_with_slash path then
          ino ← on_disk (ext2_lookup_inode alloc path);
          if negb (ino =? 0) then mret 0
          else new ← on_disk (ext2_create alloc path 420); mret (if new =? 0 then -1 else 0)
        else
          old ← find_user_file (Some path);
          match old with
          | Some _ => mret 0
          | None =>
              files ← reads g_user_files;
              match list_find (fun f => negb (f_used f)) files with
              | Some (i, f) => _ ← put_user_file (Z.of_nat i) (mk_user_file path (f_data f) 0 true); mret 0
              | None => mret (-1)
              end
          end
  end.

Definition vfs_unlink (path : option (list Z)) : V Z :=
  m ← mounted;
  ok ← match path with Some p => if (m : bool) then parent_writable p else mret true | None => mret true end;
  if negb ok then mret (- SYSCALL_EACCES)
  else
    r ← match path with
        | Some p => if m && starts_with_slash p then on_disk (ext2_unlink alloc p) else mret (-1)
        | None => mret (-1)
        end;
    if r =? 0 then mret 0
    else
      f ← find_user_file path;
      match f with
      | None => mret (-1)
      | Some i =>
          f ← user_file i;
          _ ← put_user_file i (mk_user_file (f_path f) (f_data f) (f_size f) false);
          mret 0
      end.

Definition vfs_mkdir (path : option (list Z)) : V Z :=
  match path with
  | None => mret (-1)
  | Some path =>
      if negb (starts_with_slash path) then mret (-1)
      else
        m ← mounted;
        if negb m then mret (-1)
        else
          ok ← parent_writable path;
          if negb ok then mret (- SYSCALL_EACCES)
          else ino ← on_disk (ext2_mkdir alloc path 493); mret (if ino =? 0 then -1 else 0)
  end.

(** ** Reading and writing *)

(** The inode of a path, created when it does not exist. *)
Definition inode_for_write (path : list Z) : V Z :=
  ino ← on_disk (ext2_lookup_inode alloc path);
  if ino =? 0 then on_disk (ext2_create alloc path 420) else mret ino.

(** The user file of a path, created when it does not exist; [None] on failure. *)
Definition user_file_for_write (path : list Z) : V (option Z) :=
  f ← find_user_file (Some path);
  match f with
  | Some i => mret (Some i)
  | None => r ← vfs_create (Some path); if r <? 0 then mret None else find_user_file (Some path)
  end.

Definition vfs_write (path : list Z) (offset : Z) (data : list Z) (count : Z) : V Z :=
  m ← mounted;
  ino ← (if m && starts_with_slash path then inode_for_write path else mret 0);
  if negb (ino =? 0) then on_disk (ext2_write alloc ino (u32 offset) count data)
  else
    f ← user_file_for_write path;
    match f with
    | None => mret (-1)
    | Some i =>
        f ← user_file i;
        let count := if VFS_USER_MAX_SIZE <? u64 (offset + count) then u64 (VFS_USER_MAX_SIZE - offset) else count in
        src ← must (slice data 0 count);
        d ← must (splice (f_data f) offset src);
        let size := if f_size f <? u64 (offset + count) then u64 (offset + count) else f_size f in
        _ ← put_user_file i (mk_user_file (f_path f) d size (f_used f));
        mret count
    end.

Definition vfs_open_ino (path : option (list Z)) : V (Z * Z) :=
  match path with
  | None => mret (0, 0)
  | Some p =>
      match vfs_lookup path with
      | Some _ => mret (1, 0)
      | None =>
          m ← mounted;
          ino ← (if (m : bool) then on_disk (ext2_lookup_inode alloc p) else mret 0);
          if negb (ino =? 0) then mret (1, ino)
          else f ← find_user_file path; mret (if f is Some _ then (1, 0) else (0, 0))
      end
  end.

(** Both read functions copy into the caller's buffer. *)
Definition vfs_read_user (path : option (list Z)) (offset : Z) (buffer : list Z) (count : Z) : V (Z * list Z) :=
  f ← find_user_file path;
  match f with
  | None => mret (-1, buffer)
  | Some i =>
      f ← user_file i;
      if f_size f <=? offset then mret (0, buffer)
      else
        let to_copy := if f_size f <? u64 (offset + count) then f_size f - offset else count in
        src ← must (slice (f_data f) offset to_copy);
        b ← must (splice buffer 0 src);
        mret (to_copy, b)
  end.

Definition vfs_read (path : option (list Z)) (offset : Z) (buffer : list Z) (count : Z) : V (Z * list Z) :=
  match path with
  | None => mret (-1, buffer)
  | Some p =>
      match vfs_lookup path with
      | Some f =>
          let size := vfs_file_size (Some f) in
          if size <=? offset then mret (0, buffer)
          else
            let to_copy := if count <? size - offset then count else size - offset in
            src ← must (slice (e_data f) offset to_copy);
            b ← must (splice buffer 0 src);
            mret (to_copy, b)
      | None =>
          uf ← find_user_file path;
          match uf with
          | Some _ => vfs_read_user path offset buffer count
          | None =>
              m ← mounted;
              if negb m then mret (-1, buffer)
              else
                ino ← on_disk (ext2_lookup_inode alloc p);
                if ino =? 0 then mret (-1, buffer)
                else on_disk (ext2_read alloc ino (u32 offset) count buffer)
          end
      end
  end.

Definition vfs_write_all (path : option (list Z)) (data : list Z) (count : Z) : V Z :=
  match path with
  | None => mret (-1)
  | Some path =>
      m ← mounted;
      ino ← (if (m : bool) then inode_for_write path else mret 0);
      if negb (ino =? 0) then on_disk (ext2_write alloc ino 0 count data)
      else
        f ← user_file_for_write path;
        match f with
        | None => mret (-1)
        | Some i =>
            f ← user_file i;
            _ ← put_user_file i (mk_user_file (f_path f) (f_data f) 0 (f_used f));
            vfs_write path 0 data count
        end
  end.

(** ** Owner and mode *)

Definition chmod_inode (mode : Z) (i : ext2_inode) : ext2_inode :=
  mk_inode (Z.lor (Z.ldiff (i_mode i) 511) (Z.land mode 511)) (i_uid i) (i_size i) (i_times i) (i_gid i) (i_links_count i)
    (i_blocks i) (i_flags i) (i_block i) (i_rest i).
Definition chown_inode (uid gid : Z) (i : ext2_inode) : ext2_inode :=
  mk_inode (i_mode i) uid (i_size i) (i_times i) gid (i_links_count i) (i_blocks i) (i_flags i) (i_block i) (i_rest i).

Definition vfs_chmod (path : option (list Z)) (mode : Z) : V Z :=
  uid ← reads current_uid;
  m ← mounted;
  match path with
  | Some p =>
      if negb m then mret (-1)
      else
        ino ← on_disk (ext2_lookup_inode alloc p);
        if ino =? 0 then mret (-2)
        else
          i ← on_disk (get_inode ino);
          if negb (uid =? 0) && negb (uid =? i_uid i) then mret (-1)
          else
            _ ← on_disk (put_inode ino (chmod_inode mode i));
            _ ← on_disk (ext2_write_inode alloc ino);
            mret 0
  | None => mret (-1)
  end.

Definition vfs_chown (path : option (list Z)) (uid gid : Z) : V Z :=
  caller ← reads current_uid;
  m ← mounted;
  match path with
  | Some p =>
      if negb m then mret (-1)
      else
        ino ← on_disk (ext2_lookup_inode alloc p);
        if ino =? 0 then mret (-2)
        else if negb (caller =? 0) then mret (-1)
        else
          i ← on_disk (get_inode ino);
          _ ← on_disk (put_inode ino (chown_inode uid gid i));
          _ ← on_disk (ext2_write_inode alloc ino);
          mret 0
  | None => mret (-1)
  end.

End FileSystems.
End Vfs.
