(* ===== verification/VfsRam.v ===== *)
(** * VfsRam: files without a disk (kernel/src/vfs.c)

    When no ext2 file system is mounted, vfs.c keeps files in a table of 32
    entries.  Here the table is shown to implement a finite map from paths to
    contents: creating, writing, reading, truncating and removing files are
    defined on every table the operations can produce and have the effect their
    specification [ram_answers] gives on the map.  A write that starts beyond the end
    of a file leaves the bytes in between unspecified; one that starts beyond the
    capacity is excluded. *)

From Stdlib Require Import ZArith Lia Bool ZifyBool.
From stdpp Require Import base numbers option list list_numbers gmap.
From S2P Require Import Prelude StateM Ramdisk Ext2 Vfs.

Open Scope Z_scope.

Module VfsRam.
Import Vfs.

Abbreviation files := (gmap (list Z) (list Z)).

(** ** Abstraction *)

Definition contents (f : vfs_user_file) : list Z := take (Z.to_nat (f_size f)) (f_data f).

(** The file a table entry holds. *)
Definition held (f : vfs_user_file) : list (list Z * list Z) := if f_used f then [(f_path f, contents f)] else [].
Definition all_held (l : list vfs_user_file) : list (list Z * list Z) := l ≫= held.

Definition entry_ok (f : vfs_user_file) : Prop :=
  Z.of_nat (length (f_data f)) = VFS_USER_MAX_SIZE /\ 0 <= f_size f <= VFS_USER_MAX_SIZE /\
  (f_used f = true -> Z.of_nat (length (f_path f)) < 64).

(** The table [l] holds the files [m]. *)
Record table_holds (l : list vfs_user_file) (m : files) : Prop := {
  th_length : Z.of_nat (length l) = VFS_USER_MAX_FILES;
  th_entries : Forall entry_ok l;
  th_distinct : NoDup (all_held l).*1;
  th_map : m = list_to_map (all_held l) }.

(** ** Specification *)

Definition overwrite (c : list Z) (off : Z) (d : list Z) : list Z :=
  take (Z.to_nat off) c ++ d ++ drop (Z.to_nat off + length d) c.

Inductive ram_op :=
  | RCreate (p : list Z)
  | RUnlink (p : list Z)
  | RWrite (p : list Z) (off : Z) (data : list Z)
  | RWriteAll (p : list Z) (data : list Z)
  | RRead (p : list Z) (off : Z) (buffer : list Z).

(** A file can be written when it exists or can be created. *)
Definition room_for (m : files) (p : list Z) : Prop :=
  is_Some (m !! p) \/ Z.of_nat (length p) < 64 /\ Z.of_nat (size m) < VFS_USER_MAX_FILES.

(** The bytes between the end of a file and a write that starts beyond it: as
    many as are missing, of any value. *)
Definition gap_for (m : files) (p : list Z) (off : Z) (gap : list Z) : Prop :=
  Z.of_nat (length gap) = Z.max 0 (off - Z.of_nat (length (default [] (m !! p)))).

(** Result, buffer contents and files after an operation on the files [m]. *)
Inductive ram_answers (m : files) : ram_op -> Z -> list Z -> files -> Prop :=
  | ra_create p : room_for m p -> Z.of_nat (length p) < 64 ->
      ram_answers m (RCreate p) 0 [] (match m !! p with Some _ => m | None => <[p := []]> m end)
  | ra_create_no p : ~ room_for m p -> ram_answers m (RCreate p) (-1) [] m
  | ra_unlink p : is_Some (m !! p) -> ram_answers m (RUnlink p) 0 [] (delete p m)
  | ra_unlink_no p : m !! p = None -> ram_answers m (RUnlink p) (-1) [] m
  | ra_write p off data n gap : room_for m p -> n = Z.min (Z.of_nat (length data)) (VFS_USER_MAX_SIZE - off) ->
      gap_for m p off gap ->
      ram_answers m (RWrite p off data) n []
        (<[p := overwrite (default [] (m !! p) ++ gap) off (take (Z.to_nat n) data)]> m)
  | ra_write_no p off data : ~ room_for m p -> ram_answers m (RWrite p off data) (-1) [] m
  | ra_write_all p data n : room_for m p -> n = Z.min (Z.of_nat (length data)) VFS_USER_MAX_SIZE ->
      ram_answers m (RWriteAll p data) n [] (<[p := take (Z.to_nat n) data]> m)
  | ra_write_all_no p data : ~ room_for m p -> ram_answers m (RWriteAll p data) (-1) [] m
  | ra_read p off buffer c n : m !! p = Some c ->
      n = Z.max 0 (Z.min (Z.of_nat (length buffer)) (Z.of_nat (length c) - off)) ->
      ram_answers m (RRead p off buffer) n (take (Z.to_nat n) (drop (Z.to_nat off) c) ++ drop (Z.to_nat n) buffer) m
  | ra_read_no p off buffer : m !! p = None -> ram_answers m (RRead p off buffer) (-1) buffer m.

(** What the callers must respect: a write starts within the 8192 bytes a file
    can have, sizes are below 2^63, and paths read are not those of embedded
    files. *)
Definition ram_allowed {X} (sh edit : list Z) (s : vfs (X := X)) (m : files) (op : ram_op) : Prop :=
  match op with
  | RCreate p | RUnlink p => True
  | RWrite p off data => 0 <= off <= VFS_USER_MAX_SIZE /\ Z.of_nat (length data) < 2 ^ 63
  | RWriteAll p data => Z.of_nat (length data) < 2 ^ 63
  | RRead p off buffer => vfs_lookup sh edit (Some p) = None /\ 0 <= off < 2 ^ 63 /\ Z.of_nat (length buffer) < 2 ^ 63
  end.

(** ** Table lemmas *)

Lemma held_at l i f :
  l !! i = Some f -> exists others, all_held l ≡ₚ held f ++ others /\
    forall f', all_held (<[i := f']> l) ≡ₚ held f' ++ others.
Proof.
  intros Hi. pose proof (take_drop_middle l i f Hi) as E. exists (all_held (take i l) ++ all_held (drop (S i) l)). split.
  - rewrite <- E at 1. unfold all_held. rewrite bind_app. cbn. solve_Permutation.
  - intros f'. rewrite insert_take_drop by (by eapply lookup_lt_Some). unfold all_held. rewrite bind_app. cbn. solve_Permutation.
Qed.

Lemma all_held_elem l p c : (p, c) ∈ all_held l <-> exists i f, l !! i = Some f /\ f_used f = true /\ f_path f = p /\ contents f = c.
Proof.
  unfold all_held. rewrite list_elem_of_bind. split.
  - intros (f&Hf&[i Hi]%list_elem_of_lookup). unfold held in Hf. destruct (f_used f) eqn:E; [|by apply elem_of_nil in Hf].
    apply list_elem_of_singleton in Hf as [= -> ->]. by exists i, f.
  - intros (i&f&Hi&Hu&<-&<-). exists f. split; [|by apply list_elem_of_lookup; exists i]. unfold held. rewrite Hu. by left.
Qed.

Lemma holds_lookup l m p c : table_holds l m ->
  m !! p = Some c <-> exists i f, l !! i = Some f /\ f_used f = true /\ f_path f = p /\ contents f = c.
Proof. intros [_ _ Hd ->]. rewrite <- all_held_elem. symmetry. by apply elem_of_list_to_map. Qed.

(** Changing one entry. *)
Lemma holds_update l m i f f' : table_holds l m -> l !! i = Some f -> entry_ok f' ->
  (f_used f' = true -> if f_used f then f_path f' = f_path f else m !! f_path f' = None) ->
  table_holds (<[i := f']> l)
    (let m1 := if f_used f then delete (f_path f) m else m in
     if f_used f' then <[f_path f' := contents f']> m1 else m1).
Proof.
  intros [Hlen Hent Hd Hm] Hi Hok Hp. destruct (held_at l i f Hi) as (others&Ho&Hn). specialize (Hn f').
  rewrite Ho, fmap_app in Hd. apply NoDup_app in Hd as (_&Hdis&Hdo).
  assert (Hm1 : (if f_used f then delete (f_path f) m else m) = list_to_map others).
  { rewrite Hm, (list_to_map_proper (all_held l) (held f ++ others)); [|rewrite Ho, fmap_app|done].
    - unfold held. destruct (f_used f) eqn:E; [|done]. simpl. apply delete_insert_id.
      apply not_elem_of_list_to_map_1. intros Hin. apply (Hdis (f_path f)); [|done]. unfold held. rewrite E. by left.
    - apply NoDup_app. split_and!; [|done|done]. unfold held. destruct (f_used f); [apply NoDup_singleton|constructor]. }
  assert (Hfresh : f_used f' = true -> f_path f' ∉ others.*1).
  { intros Hu Hin. specialize (Hp Hu). destruct (f_used f) eqn:E.
    - apply (Hdis (f_path f)); [unfold held; rewrite E; by left|congruence].
    - rewrite Hm1 in Hp. by apply not_elem_of_list_to_map_2 in Hp. }
  assert (Hnd : NoDup (held f' ++ others).*1).
  { rewrite fmap_app. apply NoDup_app. unfold held in *. destruct (f_used f') eqn:E; [|split_and!; [constructor|set_solver|done]].
    split_and!; [apply NoDup_singleton| |done]. intros x Hx%list_elem_of_singleton. subst x. auto. }
  assert (Hnd' : NoDup (all_held (<[i := f']> l)).*1) by by rewrite Hn.
  split; [by rewrite length_insert|by apply Forall_insert|done|].
  cbv zeta. rewrite Hm1, (list_to_map_proper _ _ Hnd' Hn). unfold held. by destruct (f_used f').
Qed.

(** A search for a path finds its entry. *)
Lemma find_path l m p : table_holds l m ->
  match list_find (same_path (Some p)) l with
  | Some (i, f) => l !! i = Some f /\ f_used f = true /\ f_path f = p /\ m !! p = Some (contents f)
  | None => m !! p = None
  end.
Proof.
  intros Hh. destruct (list_find _ l) as [[i f]|] eqn:E.
  - apply list_find_Some in E as (Hi&Hs&_). simpl in Hs. apply Is_true_true, andb_prop in Hs as [Hu Hp].
    apply bool_decide_eq_true in Hp. split_and!; try done. eapply holds_lookup; [done|]. by exists i, f.
  - apply list_find_None in E. destruct (m !! p) as [c|] eqn:Em; [|done].
    apply (holds_lookup l m p c Hh) in Em as (i&f&Hi&Hu&Hp&_). rewrite Forall_lookup in E. destruct (E i f Hi). simpl.
    rewrite Hu. apply Is_true_true. by rewrite bool_decide_true.
Qed.

(** A free entry exists exactly when fewer than 32 files do. *)
Lemma find_free l m : table_holds l m ->
  match list_find (fun f => negb (f_used f)) l with
  | Some (i, f) => l !! i = Some f /\ f_used f = false /\ Z.of_nat (size m) < VFS_USER_MAX_FILES
  | None => Z.of_nat (size m) = VFS_USER_MAX_FILES
  end.
Proof.
  intros [Hlen _ Hd ->]. rewrite map_size_list_to_map by done.
  assert (Hle : forall l, (length (all_held l) <= length l)%nat).
  { clear. induction l as [|f l IH]; [done|]. unfold all_held in *. cbn. rewrite length_app. unfold held at 1.
    destruct (f_used f); simpl; lia. }
  destruct (list_find _ l) as [[i f]|] eqn:E.
  - apply list_find_Some in E as (Hi&Hs&_). apply Is_true_true, negb_true_iff in Hs. split_and!; try done.
    pose proof (take_drop_middle l i f Hi) as Eq. rewrite <- Eq in Hlen |- *. unfold all_held. rewrite bind_app.
    cbn. unfold held at 2. rewrite Hs. cbn. rewrite length_app in *. simpl in Hlen. pose proof (Hle (take i l)). pose proof (Hle (drop (S i) l)).
    unfold all_held in *. lia.
  - apply list_find_None in E. rewrite <- Hlen. f_equal. clear -E. induction E as [|f l Hf _ IH]; [done|].
    unfold all_held in *. cbn. rewrite length_app. unfold held at 1. destruct (f_used f); [simpl; by rewrite IH|by destruct Hf].
Qed.

(** ** Operations *)

Section Operations.
Context {X : Type} (alloc : nat -> Z -> option (list Z)) (sh edit : list Z).
Abbreviation state := (vfs (X := X)).
Implicit Types (s : state) (m : files).

(** No disk, and the table holds [m]. *)
Definition ram s m : Prop := g_ext2 s = None /\ table_holds (g_user_files s) m.

Definition ram_run (op : ram_op) : ST state (Z * list Z) :=
  match op with
  | RCreate p => r ← vfs_create alloc (Some p); mret (r, [])
  | RUnlink p => r ← vfs_unlink alloc (Some p); mret (r, [])
  | RWrite p off data => r ← vfs_write alloc p off data (Z.of_nat (length data)); mret (r, [])
  | RWriteAll p data => r ← vfs_write_all alloc (Some p) data (Z.of_nat (length data)); mret (r, [])
  | RRead p off buffer => vfs_read alloc sh edit (Some p) off buffer (Z.of_nat (length buffer))
  end.

Lemma wp_mounted s (Q : bool -> state -> Prop) : g_ext2 s = None -> Q false s -> wp mounted Q s.
Proof. intros E HQ. apply wp_reads. rewrite E. by rewrite bool_decide_false by (by intros [? [=]]). Qed.

(** The search for a file. *)
Lemma wp_find s m p (Q : option Z -> state -> Prop) : ram s m ->
  (forall i f, g_user_files s !! i = Some f -> f_used f = true -> f_path f = p -> m !! p = Some (contents f) ->
     Q (Some (Z.of_nat i)) s) ->
  (m !! p = None -> Q None s) -> wp (find_user_file (Some p)) Q s.
Proof.
  intros [_ Hh] HS HN. apply wp_reads. pose proof (find_path _ m p Hh) as Hf.
  destruct (list_find _ _) as [[i f]|]; [|by apply HN]. destruct Hf as (?&?&?&?). by eapply HS.
Qed.

Lemma wp_user_file s i f (Q : vfs_user_file -> state -> Prop) :
  g_user_files s !! i = Some f -> Q f s -> wp (user_file (Z.of_nat i)) Q s.
Proof. intros Hi HQ. exists f, s. unfold user_file. by rewrite aget_nat, Hi. Qed.

Lemma wp_put s i f f' (Q : () -> state -> Prop) :
  g_user_files s !! i = Some f -> Q tt (set_files (<[i := f']> (g_user_files s)) s) -> wp (put_user_file (Z.of_nat i) f') Q s.
Proof.
  intros Hi HQ. eexists tt, _. unfold put_user_file, try_update. apply lookup_lt_Some in Hi.
  rewrite aset_ok by lia. by rewrite Nat2Z.id.
Qed.

Lemma ram_set s m i f f' : ram s m -> g_user_files s !! i = Some f -> entry_ok f' ->
  (f_used f' = true -> if f_used f then f_path f' = f_path f else m !! f_path f' = None) ->
  ram (set_files (<[i := f']> (g_user_files s)) s)
    (let m1 := if f_used f then delete (f_path f) m else m in
     if f_used f' then <[f_path f' := contents f']> m1 else m1).
Proof. intros [He Hh] Hi Hok Hp. split; [done|]. by apply holds_update. Qed.

Lemma entry_at s m i f : ram s m -> g_user_files s !! i = Some f -> entry_ok f.
Proof. intros [_ Hh] Hi. exact (Forall_lookup_1 _ _ _ _ (th_entries _ _ Hh) Hi). Qed.

Lemma wp_create s m p (Q : Z -> state -> Prop) : ram s m ->
  (forall s', room_for m p -> Z.of_nat (length p) < 64 ->
     ram s' (match m !! p with Some _ => m | None => <[p := []]> m end) -> Q 0 s') ->
  (~ room_for m p -> Q (-1) s) -> wp (vfs_create alloc (Some p)) Q s.
Proof.
  intros Hs HS HN. pose proof Hs as [He Hh]. unfold vfs_create.
  destruct (Z.leb_spec 64 (Z.of_nat (length p))) as [Hp|Hp].
  { apply wp_ret, HN. intros [[c Hc]|[? _]]; [|lia]. apply (holds_lookup _ _ _ _ Hh) in Hc as (i&f&Hi&Hu&<-&_).
    pose proof (entry_at s m i f Hs Hi) as (_&_&Hl). specialize (Hl Hu). lia. }
  wstep. apply wp_mounted; [done|]. wstep. apply wp_ret. cbn [negb andb].
  wstep. apply (wp_find s m p); [done| |].
  - intros i f Hi Hu Hpp Hm. apply wp_ret. apply HS; [left; by eexists|lia|by rewrite Hm].
  - intros Hm. wstep. apply wp_reads. pose proof (find_free _ m Hh) as Hf. destruct (list_find _ _) as [[i f]|].
    + destruct Hf as (Hi&Hu&Hsz). wstep. eapply wp_put; [exact Hi|]. apply wp_ret. apply HS; [right; split; [lia|done]|lia|].
      rewrite Hm. pose proof (entry_at s m i f Hs Hi) as (Hd&_&_).
      assert (R := ram_set s m i f (mk_user_file p (f_data f) 0 true) Hs Hi). rewrite Hu in R. apply R; [|done].
      split; [done|split; [simpl; unfold VFS_USER_MAX_SIZE; lia|done]].
    + apply wp_ret, HN. intros [[c Hc]|[_ ?]]; [congruence|lia].
Qed.

Lemma wp_for_write s m p (Q : option Z -> state -> Prop) : ram s m ->
  (forall s' i f, room_for m p -> ram s' (match m !! p with Some _ => m | None => <[p := []]> m end) ->
     g_user_files s' !! i = Some f -> f_used f = true -> f_path f = p -> contents f = default [] (m !! p) ->
     Q (Some (Z.of_nat i)) s') ->
  (~ room_for m p -> Q None s) -> wp (user_file_for_write alloc p) Q s.
Proof.
  intros Hs HS HN. unfold user_file_for_write. wstep. apply (wp_find s m p); [done| |].
  - intros i f Hi Hu Hp Hm. apply wp_ret. apply (HS s i f); try done; [left; by eexists|by rewrite Hm|by rewrite Hm].
  - intros Hm. wstep. eapply wp_create; [exact Hs| |].
    + intros s' Hr _ Hs'. cbn [Z.ltb Z.compare]. eapply wp_find; [exact Hs'| |].
      * intros i f Hi Hu Hp Hm'. apply (HS s' i f); try done. rewrite Hm in Hm' |- *. rewrite lookup_insert_eq in Hm'. by injection Hm'.
      * rewrite Hm, lookup_insert_eq. done.
    + intros Hr. by apply wp_ret, HN.
Qed.

(** The bytes of an entry after a store that starts inside its contents. *)
Lemma contents_write f off src d n :
  entry_ok f -> splice (f_data f) off src = Some d -> 0 <= off <= f_size f -> n = off + Z.of_nat (length src) ->
  take (Z.to_nat (if f_size f <? n then n else f_size f)) d = overwrite (contents f) off src.
Proof.
  intros (Hd&Hs&_) Hsp Ho ->. pose proof (splice_length _ _ _ _ Hsp) as Hl. pose proof (splice_Some _ _ _ _ Hsp) as (_&Hb&->).
  unfold overwrite, contents. rewrite take_take, Nat.min_l by lia.
  case_if.
  - rewrite take_app_ge by len. f_equal. rewrite take_app_ge by len. f_equal. rewrite length_take.
    replace (_ - _ - _)%nat with 0%nat by lia. rewrite (drop_ge (take _ _)) by (rewrite length_take; lia). done.
  - rewrite take_app_ge by len. f_equal. rewrite take_app_ge by len. f_equal. rewrite skipn_firstn_comm, length_take. f_equal. lia.
Qed.

(** The same anywhere: what lies beyond the end becomes part of the file. *)
Lemma contents_write_gap f off src d n :
  entry_ok f -> splice (f_data f) off src = Some d -> 0 <= off <= VFS_USER_MAX_SIZE -> n = off + Z.of_nat (length src) ->
  exists gap, Z.of_nat (length gap) = Z.max 0 (off - f_size f) /\
    take (Z.to_nat (if f_size f <? n then n else f_size f)) d = overwrite (contents f ++ gap) off src.
Proof.
  intros Hok Hsp Ho ->. destruct (Z.le_gt_cases off (f_size f)) as [Hle|Hgt].
  { exists []. rewrite app_nil_r. split; [simpl; lia|]. apply contents_write; [done|done|lia|done]. }
  pose proof Hok as (Hd&Hs&Hp). exists (take (Z.to_nat (off - f_size f)) (drop (Z.to_nat (f_size f)) (f_data f))). split; [len|].
  assert (E := contents_write (mk_user_file (f_path f) (f_data f) off (f_used f)) off src d _ (conj Hd (conj Ho Hp)) Hsp ltac:(simpl; lia) eq_refl).
  simpl in E. replace (f_size f <? off + Z.of_nat (length src)) with true by lia.
  replace (if off <? off + Z.of_nat (length src) then off + Z.of_nat (length src) else off) with (off + Z.of_nat (length src)) in E by (case_if; lia).
  rewrite E. f_equal. unfold contents. simpl. rewrite <- (take_drop (Z.to_nat (f_size f)) (take (Z.to_nat off) (f_data f))).
  rewrite take_take, Nat.min_l, skipn_firstn_comm by lia. do 2 f_equal. lia.
Qed.

(** The store of [vfs_write] into entry [i]. *)
Lemma wp_store s m i f off data (Q : Z -> state -> Prop) :
  ram s m -> g_user_files s !! i = Some f -> f_used f = true -> 0 <= off <= VFS_USER_MAX_SIZE -> Z.of_nat (length data) < 2 ^ 63 ->
  (forall s' n gap, n = Z.min (Z.of_nat (length data)) (VFS_USER_MAX_SIZE - off) ->
     Z.of_nat (length gap) = Z.max 0 (off - f_size f) ->
     ram s' (<[f_path f := overwrite (contents f ++ gap) off (take (Z.to_nat n) data)]> m) -> Q n s') ->
  wp (f ← user_file (Z.of_nat i);
      let count := if VFS_USER_MAX_SIZE <? u64 (off + Z.of_nat (length data)) then u64 (VFS_USER_MAX_SIZE - off) else Z.of_nat (length data) in
      src ← must (slice data 0 count);
      d ← must (splice (f_data f) off src);
      let size := if f_size f <? u64 (off + count) then u64 (off + count) else f_size f in
      _ ← put_user_file (Z.of_nat i) (mk_user_file (f_path f) d size (f_used f));
      mret count) Q s.
Proof.
  intros Hs Hi Hu Ho Hd HQ. pose proof (entry_at s m i f Hs Hi) as Hok. pose proof Hok as (Hdl&Hsz&Hpl).
  unfold VFS_USER_MAX_SIZE in *. wstep. eapply wp_user_file; [exact Hi|]. cbv zeta. rewrite (u64_id (off + _)), (u64_id (8192 - off)) by lia.
  set (n := Z.min (Z.of_nat (length data)) (8192 - off)) in *.
  replace (if 8192 <? off + Z.of_nat (length data) then 8192 - off else Z.of_nat (length data)) with n by (case_if; lia).
  wstep. eapply wp_must; [apply slice_ok; lia|]. change (Z.to_nat 0) with 0%nat. rewrite drop_0.
  set (src := take (Z.to_nat n) data). assert (Hsl : Z.of_nat (length src) = n) by (unfold src; rewrite length_take; lia).
  destruct (splice (f_data f) off src) as [d|] eqn:Esp; [|rewrite splice_ok in Esp by lia; done].
  wstep. eapply wp_must; [reflexivity|]. rewrite u64_id by lia. wstep. eapply wp_put; [exact Hi|]. apply wp_ret.
  destruct (contents_write_gap f off src d (off + n)) as (gap&Hgap&E); [done|done|unfold VFS_USER_MAX_SIZE; lia|lia|].
  apply (HQ _ _ gap); [done|done|]. set (f' := mk_user_file _ _ _ _).
  assert (R := ram_set s m i f f' Hs Hi). simpl in R. rewrite Hu in R. simpl in R. rewrite insert_delete_eq in R.
  change (contents f' = overwrite (contents f ++ gap) off src) in E. fold src. rewrite <- E. apply R; [|done]. split; [simpl; by rewrite (splice_length _ _ _ _ Esp)|split; [simpl; case_if; unfold VFS_USER_MAX_SIZE; lia|done]].
Qed.

Lemma contents_length f : entry_ok f -> Z.of_nat (length (contents f)) = f_size f.
Proof. intros (Hd&Hs&_). unfold contents. len. Qed.

Lemma wp_write s m p off data (Q : Z -> state -> Prop) : ram s m ->
  0 <= off <= VFS_USER_MAX_SIZE -> Z.of_nat (length data) < 2 ^ 63 ->
  (forall s' n gap, room_for m p -> n = Z.min (Z.of_nat (length data)) (VFS_USER_MAX_SIZE - off) -> gap_for m p off gap ->
     ram s' (<[p := overwrite (default [] (m !! p) ++ gap) off (take (Z.to_nat n) data)]> m) -> Q n s') ->
  (~ room_for m p -> Q (-1) s) -> wp (vfs_write alloc p off data (Z.of_nat (length data))) Q s.
Proof.
  intros Hs Ho Hd HS HN. unfold vfs_write. wstep. apply wp_mounted; [apply Hs|]. wstep. apply wp_ret. cbn [negb Z.eqb].
  wstep. eapply wp_for_write; [exact Hs| |].
  - intros s' i f Hr Hs' Hi Hu Hp Hc. pose proof (contents_length f (entry_at _ _ _ _ Hs' Hi)) as Hl. rewrite Hc in Hl.
    eapply wp_store; [exact Hs'|exact Hi|done|lia|done|]. intros s2 n gap Hn Hg Hs2.
    apply (HS _ _ gap); [done|done|unfold gap_for; lia|].
    rewrite Hc, Hp in Hs2. destruct (m !! p) eqn:Em; [done|]. by rewrite insert_insert_eq in Hs2.
  - intros Hr. by apply wp_ret, HN.
Qed.

Lemma overwrite_all c d : (length c <= length d)%nat -> overwrite c 0 d = d.
Proof. intros. unfold overwrite. simpl. rewrite drop_ge by lia. by rewrite app_nil_r. Qed.

Lemma wp_write_all s m p data (Q : Z -> state -> Prop) : ram s m -> Z.of_nat (length data) < 2 ^ 63 ->
  (forall s' n, room_for m p -> n = Z.min (Z.of_nat (length data)) VFS_USER_MAX_SIZE ->
     ram s' (<[p := take (Z.to_nat n) data]> m) -> Q n s') ->
  (~ room_for m p -> Q (-1) s) -> wp (vfs_write_all alloc (Some p) data (Z.of_nat (length data))) Q s.
Proof.
  intros Hs Hd HS HN. unfold vfs_write_all. wstep. apply wp_mounted; [apply Hs|]. wstep. apply wp_ret. cbn [negb Z.eqb].
  wstep. eapply wp_for_write; [exact Hs| |].
  - intros s' i f Hr Hs' Hi Hu Hp Hc. wstep. eapply wp_user_file; [exact Hi|]. wstep. eapply wp_put; [exact Hi|].
    pose proof (entry_at _ _ _ _ Hs' Hi) as (Hdl&_&Hpl). set (f' := mk_user_file _ _ _ _).
    assert (R := ram_set _ _ i f f' Hs' Hi). simpl in R. rewrite Hu in R. simpl in R. rewrite insert_delete_eq in R.
    assert (R' := R ltac:(split; [done|split; [simpl; unfold VFS_USER_MAX_SIZE; lia|done]]) ltac:(done)). clear R.
    change (contents f') with (@nil Z) in R'. rewrite Hp in R'.
    assert (E : <[p := []]> (match m !! p with Some _ => m | None => <[p := []]> m end) = <[p := []]> m).
    { destruct (m !! p); [done|]. by rewrite insert_insert_eq. }
    rewrite E in R'. eapply wp_write; [exact R'|unfold VFS_USER_MAX_SIZE; lia|done| |].
    + intros s2 n gap _ Hn Hg Hs2. apply HS; [done|lia|]. unfold gap_for in Hg. rewrite lookup_insert_eq in Hg, Hs2. simpl in Hg, Hs2.
      destruct gap; [|simpl in Hg; lia].
      rewrite overwrite_all in Hs2 by (simpl; lia). by rewrite insert_insert_eq in Hs2.
    + intros Hno. destruct Hno. left. rewrite lookup_insert_eq. by eexists.
  - intros Hr. by apply wp_ret, HN.
Qed.

Lemma wp_unlink s m p (Q : Z -> state -> Prop) : ram s m ->
  (forall s', is_Some (m !! p) -> ram s' (delete p m) -> Q 0 s') -> (m !! p = None -> Q (-1) s) ->
  wp (vfs_unlink alloc (Some p)) Q s.
Proof.
  intros Hs HS HN. unfold vfs_unlink. wstep. apply wp_mounted; [apply Hs|]. wstep. apply wp_ret. cbn [negb andb]. wstep. apply wp_ret. cbn [Z.eqb].
  wstep. apply (wp_find s m p); [done| |intros; by apply wp_ret, HN].
  intros i f Hi Hu Hp Hm. wstep. eapply wp_user_file; [exact Hi|]. wstep. eapply wp_put; [exact Hi|]. apply wp_ret.
  apply HS; [by eexists|]. assert (R := ram_set s m i f (mk_user_file (f_path f) (f_data f) (f_size f) false) Hs Hi).
  simpl in R. rewrite Hu, Hp in R. rewrite Hp. apply R; [|done]. pose proof (entry_at s m i f Hs Hi) as (?&?&_). split; [done|split; [done|by simpl]].
Qed.

Lemma wp_read s m p off buffer (Q : Z * list Z -> state -> Prop) : ram s m ->
  vfs_lookup sh edit (Some p) = None -> 0 <= off < 2 ^ 63 -> Z.of_nat (length buffer) < 2 ^ 63 ->
  (forall c n, m !! p = Some c -> n = Z.max 0 (Z.min (Z.of_nat (length buffer)) (Z.of_nat (length c) - off)) ->
     Q (n, take (Z.to_nat n) (drop (Z.to_nat off) c) ++ drop (Z.to_nat n) buffer) s) ->
  (m !! p = None -> Q (-1, buffer) s) ->
  wp (vfs_read alloc sh edit (Some p) off buffer (Z.of_nat (length buffer))) Q s.
Proof.
  intros Hs Hl Ho Hb HS HN. unfold vfs_read. rewrite Hl. wstep. apply (wp_find s m p); [done| |].
  2:{ intros Hm. wstep. apply wp_mounted; [apply Hs|]. by apply wp_ret, HN. }
  intros i f Hi Hu Hp Hm. unfold vfs_read_user. wstep. apply (wp_find s m p); [done| |congruence].
  intros i' f' Hi' Hu' Hp' Hm'. pose proof (entry_at s m i' f' Hs Hi') as Hok. pose proof Hok as (Hd&Hsz&_).
  pose proof (contents_length f' Hok) as Hcl. unfold VFS_USER_MAX_SIZE in *. wstep. eapply wp_user_file; [exact Hi'|].
  destruct (Z.leb_spec (f_size f') off).
  { apply wp_ret. specialize (HS _ 0 Hm'). simpl in HS. apply HS. lia. }
  rewrite u64_id by lia. set (n := if f_size f' <? off + Z.of_nat (length buffer) then _ else _).
  assert (Hn : n = Z.min (Z.of_nat (length buffer)) (f_size f' - off)) by (unfold n; case_if; lia). clearbody n.
  wstep. eapply wp_must; [apply slice_ok; lia|]. set (src := take _ (drop _ (f_data f'))).
  assert (Hsl : Z.of_nat (length src) = n) by (unfold src; len).
  wstep. eapply wp_must; [apply splice_ok; lia|]. apply wp_ret. simpl.
  replace src with (take (Z.to_nat n) (drop (Z.to_nat off) (contents f'))).
  - replace (length _) with (Z.to_nat n) by (unfold contents; len). apply HS; [done|lia].
  - unfold src, contents. rewrite skipn_firstn_comm, take_take. f_equal. lia.
Qed.

(** C24: Without a disk the table of user files implements a map from paths to
    contents: creating, writing, truncating, reading and removing files are
    defined on every table and answer as the map does - a write that starts at
    any of the first 8192 bytes changes only the named file and stops at 8192
    bytes, a read returns the bytes last written, creation fails only on a long
    path or a full table.  When a write starts beyond the end of the file, the
    bytes between become part of the file with unspecified values (they may be
    those of a removed file); a write that starts beyond 8192 is excluded: it is
    undefined ([vfs_write_past_capacity_undefined]). *)
Theorem ram_files_refine_map s m op :
  ram s m -> ram_allowed sh edit s m op ->
  wp (ram_run op) (fun '(r, buf) s' => exists m', ram_answers m op r buf m' /\ ram s' m') s.
Proof.
  intros Hs Ha. destruct op as [p|p|p off data|p data|p off buffer]; cbn [ram_run ram_allowed] in *.
  - wstep. eapply wp_create; [exact Hs|intros s' ? ? ?|intros ?]; apply wp_ret; eexists; (split; [by constructor|done]).
  - wstep. eapply wp_unlink; [exact Hs|intros s' ? ?|intros ?]; apply wp_ret; eexists; (split; [by constructor|done]).
  - destruct Ha as [? ?]. wstep.
    eapply wp_write; [exact Hs|done|done|intros s' n ? ? ? ? ?|intros ?]; apply wp_ret; eexists; (split; [by constructor|done]).
  - wstep. eapply wp_write_all; [exact Hs|done|intros s' n ? ? ?|intros ?]; apply wp_ret; eexists; (split; [by constructor|done]).
  - destruct Ha as (?&?&?). eapply wp_read; [exact Hs|done..|intros c n ? ?|intros ?]; eexists; (split; [by econstructor|done]).
Qed.
End Operations.

End VfsRam.
