(* ===== verification/VfsProps.v ===== *)
(** * VfsProps: permissions, listings and limits of the virtual file system

    Theorems about kernel/src/vfs.c that do not depend on the layout of the
    mounted disk: who may create and remove names, what a directory listing
    contains, and what happens at the limits of the user-file table. *)

From Stdlib Require Import ZArith Lia Bool ZifyBool.
From stdpp Require Import base numbers option list list_numbers gmap sorting.
From S2P Require Import Prelude StateM Ramdisk Ext2 Vfs VfsRam.

Open Scope Z_scope.

Module VfsProps.
Import Ramdisk Ext2 Vfs VfsRam.

(** ** Permission bits *)

(** The bits of [want] (read 4, write 2, execute 1) are all set in the class of
    bits that applies to [uid]. *)
Definition class_allows (inode : ext2_inode) (uid want : Z) : Prop :=
  forall b, 0 <= b < 3 -> Z.testbit want b = true ->
    Z.testbit (i_mode inode) (b + if uid =? i_uid inode then 6 else 0) = true.

Lemma perm_ok_spec inode uid want : 0 <= want < 8 ->
  perm_ok inode uid want = true <-> uid = 0 \/ class_allows inode uid want.
Proof.
  intros Hw. unfold perm_ok, class_allows. destruct (Z.eqb_spec uid 0) as [->|Hu]; [split; [by left|done]|].
  set (sh := if uid =? i_uid inode then 6 else 0). assert (Hsh : 0 <= sh <= 6) by (unfold sh; case_if; lia).
  assert (Hhigh : forall b, 3 <= b -> Z.testbit want b = false).
  { intros b Hb. apply Z.testbit_false; [lia|]. rewrite Z.div_small; [done|]. split; [lia|].
    apply Z.lt_le_trans with (2 ^ 3); [lia|]. apply Z.pow_le_mono_r; lia. }
  assert (Hbit : forall b, 0 <= b -> Z.testbit (Z.land (Z.shiftr (Z.land (i_mode inode) 511) sh) want) b =
    Z.testbit (i_mode inode) (b + sh) && Z.testbit want b).
  { intros b Hb. rewrite Z.land_spec, Z.shiftr_spec, Z.land_spec by lia. change 511 with (Z.ones 9).
    destruct (Z.ltb_spec b 3).
    - rewrite Z.ones_spec_low by lia. by rewrite andb_true_r.
    - by rewrite Hhigh, !andb_false_r by lia. }
  rewrite Z.eqb_eq. split.
  - intros E. right. intros b Hb Ht. rewrite <- E, Hbit in Ht by lia. by apply andb_prop in Ht as [? _].
  - intros [?|H]; [done|]. apply Z.bits_inj'. intros b Hb. rewrite Hbit by lia.
    destruct (Z.testbit want b) eqn:Ew; [|by rewrite andb_false_r]. rewrite andb_true_r.
    apply H; [|done]. split; [lia|]. destruct (Z.ltb_spec b 3); [done|]. by rewrite Hhigh in Ew by lia.
Qed.

Section Checks.
Context {X : Type} (alloc : nat -> Z -> option (list Z)).
Abbreviation state := (vfs (X := X)).
Abbreviation FS := (ext2_filesystem (X := X)).
Implicit Types (s : state) (fs : FS).

(** ** Operations that only look *)

(** The parts of a mounted file system that say what is on it. *)
Definition metadata fs := (superblock fs, block_bitmap fs, inode_bitmap fs, inode_table fs).

Definition looks {A} (m : M (X := X) A) : Prop := forall fs x fs', m fs = Some (x, fs') -> metadata fs' = metadata fs.

Lemma looks_ret {A} (x : A) : looks (@mret M M_ret A x).
Proof. by intros fs y fs' [= _ <-]. Qed.
Lemma looks_bind {A B} (m : M A) (k : A -> M B) : looks m -> (forall x, looks (k x)) -> looks (@mbind M M_bind A B k m).
Proof.
  intros Hm Hk fs y fs'. unfold mbind, M_bind. destruct (m fs) as [[x fs1]|] eqn:E; [|done]. intros E2.
  rewrite (Hk _ _ _ _ E2). by eapply Hm.
Qed.
Lemma looks_gets {A} (f : FS -> A) : looks (gets f).
Proof. by intros fs y fs' [= _ <-]. Qed.
Lemma looks_need {A} (o : option A) : looks (need o).
Proof. intros fs y fs'. unfold need. by destruct o; [intros [= _ <-]|]. Qed.
Lemma looks_kmalloc n : looks (kmalloc alloc n).
Proof. by intros fs y fs' [= _ <-]. Qed.
Lemma looks_read_block n buf : looks (ext2_read_block n buf).
Proof.
  intros fs y fs'. unfold ext2_read_block. destruct (udiv _ _) as [k|]; simpl; [|done].
  destruct (ramdisk_read _ _ _ _) as [[[r b] d]|]; simpl; [|done]. by intros [= _ <-].
Qed.

End Checks.

Create HintDb looks.
#[export] Hint Resolve looks_ret looks_bind looks_gets looks_need looks_kmalloc looks_read_block : looks.

(** Step through a computation that only looks. *)
Ltac look :=
  repeat first
    [ apply looks_bind; [|intros ?] | progress (auto with looks)
    | match goal with |- context [let '(_, _) := ?x in _] => destruct x
                    | |- looks (if ?b then _ else _) => destruct b
                    | |- looks (match ?x with _ => _ end) => destruct x end ].

Section Paths.
Context {X : Type} (alloc : nat -> Z -> option (list Z)).
Abbreviation state := (vfs (X := X)).
Abbreviation FS := (ext2_filesystem (X := X)).
Implicit Types (s : state) (fs : FS).

Lemma looks_get_inode ino : looks (X := X) (get_inode ino).
Proof. unfold get_inode. look. Qed.
#[local] Hint Resolve looks_get_inode : looks.

Lemma looks_find_blocks ptrs block size name : looks (X := X) (find_in_blocks ptrs block size name).
Proof. revert block. induction ptrs as [|p ptrs IH]; intros block; cbn [find_in_blocks]; look. Qed.
#[local] Hint Resolve looks_find_blocks : looks.

Lemma looks_lookup path : looks (X := X) (ext2_lookup_inode alloc path).
Proof.
  assert (Hf : forall d n, looks (X := X) (find_entry_in_dir alloc d n)).
  { intros d n. unfold find_entry_in_dir. look. }
  assert (Hl : forall fuel c p, looks (X := X) (lookup_from alloc fuel c p)).
  { induction fuel as [|fuel IH]; intros c p; cbn [lookup_from]; [by intros ? ? ?|]. look; apply Hf || apply IH. }
  unfold ext2_lookup_inode. look.
Qed.

Lemma looks_stat ino : looks (X := X) (ext2_stat ino).
Proof. unfold ext2_stat. look. Qed.

(** ** Who may change a directory *)

(** The inode the check of a path's parent directory looks at. *)
Definition parent_inode (path : list Z) fs (inode : ext2_inode) fs' : Prop :=
  exists ino fs1, ext2_lookup_inode alloc (parent_dir path 64) fs = Some (ino, fs1) /\ ino <> 0 /\
    ext2_stat ino fs1 = Some (Some inode, fs').

Lemma on_disk_run {A} (m : M (X := X) A) s fs r fs' :
  g_ext2 s = Some fs -> m fs = Some (r, fs') -> on_disk m s = Some (r, set_ext2 (Some fs') s).
Proof. intros E Em. unfold on_disk. rewrite E. simpl. by rewrite Em. Qed.

Lemma on_disk_inv {A} (m : M (X := X) A) s r s' :
  on_disk m s = Some (r, s') -> exists fs fs', g_ext2 s = Some fs /\ m fs = Some (r, fs') /\ s' = set_ext2 (Some fs') s.
Proof.
  unfold on_disk. destruct (g_ext2 s) as [fs|]; simpl; [|done]. destruct (m fs) as [[x fs']|] eqn:E; simpl; [|done].
  intros [= -> <-]. by exists fs, fs'.
Qed.

Lemma parent_writable_run path s fs inode fs' :
  g_ext2 s = Some fs -> parent_inode path fs inode fs' ->
  parent_writable alloc path s = Some (perm_ok inode (current_uid s) 6, set_ext2 (Some fs') s).
Proof.
  intros He (ino&fs1&E1&Hne&E2). unfold parent_writable, vfs_access_ok, mounted, reads.
  unfold mbind, ST_bind. rewrite He, bool_decide_true by by eexists. cbn [negb].
  rewrite (on_disk_run _ s fs ino fs1) by done. destruct (Z.eqb_spec ino 0); [done|].
  by rewrite (on_disk_run _ _ fs1 (Some inode) fs') by done.
Qed.

Lemma mounted_run s fs : g_ext2 s = Some fs -> mounted s = Some (true, s).
Proof. intros E. unfold mounted, reads. rewrite E. by rewrite bool_decide_true by by eexists. Qed.

Lemma class_allows_sub inode uid w v : (forall b, 0 <= b < 3 -> Z.testbit w b = true -> Z.testbit v b = true) ->
  class_allows inode uid v -> class_allows inode uid w.
Proof. intros Hs Hv b Hb Hw. apply Hv; [done|]. by apply Hs. Qed.

(** Create, unlink and mkdir with the outcome of the permission check. *)
Lemma parent_check_denies path s fs inode fs' :
  g_ext2 s = Some fs -> parent_inode path fs inode fs' -> starts_with_slash path = true -> Z.of_nat (length path) < 64 ->
  perm_ok inode (current_uid s) 6 = false ->
  let denied := Some (- SYSCALL_EACCES, set_ext2 (Some fs') s) in
  vfs_create alloc (Some path) s = denied /\ vfs_unlink alloc (Some path) s = denied /\ vfs_mkdir alloc (Some path) s = denied.
Proof.
  intros He Hp Hsl Hlen Hd. assert (Hw := parent_writable_run path s fs inode fs' He Hp). rewrite Hd in Hw.
  unfold vfs_create, vfs_unlink, vfs_mkdir, mbind, ST_bind. destruct (Z.leb_spec 64 (Z.of_nat (length path))); [lia|].
  rewrite Hsl. cbn [negb]. rewrite !(mounted_run s fs He). cbn [negb]. rewrite !Hw. by split_and!.
Qed.

Lemma parent_check_passes path s fs inode fs' r s' :
  g_ext2 s = Some fs -> parent_inode path fs inode fs' -> starts_with_slash path = true -> Z.of_nat (length path) < 64 ->
  perm_ok inode (current_uid s) 6 = true ->
  vfs_create alloc (Some path) s = Some (r, s') \/ vfs_unlink alloc (Some path) s = Some (r, s') \/
  vfs_mkdir alloc (Some path) s = Some (r, s') -> r = 0 \/ r = -1.
Proof.
  intros He Hp Hsl Hlen Hd. assert (Hw := parent_writable_run path s fs inode fs' He Hp). rewrite Hd in Hw.
  unfold vfs_create, vfs_unlink, vfs_mkdir, mbind, ST_bind. destruct (Z.leb_spec 64 (Z.of_nat (length path))); [lia|].
  rewrite Hsl. cbn [negb]. rewrite !(mounted_run s fs He). cbn [negb]. rewrite !Hw. cbn [negb andb]. intros [H1|[H1|H1]].
  - destruct (on_disk _ _) as [[ino s1]|]; [|done]. destruct (negb (ino =? 0)); [injection H1 as <- <-; by left|].
    destruct (on_disk _ s1) as [[new s2]|]; [|done]. injection H1 as <- <-. destruct (new =? 0); auto.
  - destruct (on_disk _ _) as [[u s1]|]; [|done]. destruct (u =? 0); [injection H1 as <- <-; by left|].
    destruct (find_user_file _ s1) as [[[i|] s2]|]; [|injection H1 as <- <-; by right|done].
    destruct (user_file i s2) as [[g s3]|]; [|done]. destruct (put_user_file i _ s3) as [[[] s4]|]; [|done].
    injection H1 as <- <-. by left.
  - destruct (on_disk _ _) as [[ino s1]|]; [|done]. injection H1 as <- <-. destruct (ino =? 0); auto.
Qed.

(** C22: The directory permissions on a mounted disk, for an absolute path of less
    than 64 characters whose parent directory exists.  A process that is not
    root and whose class lacks the write bit of that directory can neither create
    nor remove a name in it nor make a directory there: the three operations
    return EACCES and change nothing.  Root, and a process whose class has all
    three bits, is never refused: the operations return 0 or -1.  (What the other
    combinations of bits do is the subject of [vfs_parent_read_for_execute].) *)
Theorem vfs_parent_permission path s fs inode fs' :
  g_ext2 s = Some fs -> parent_inode path fs inode fs' -> starts_with_slash path = true -> Z.of_nat (length path) < 64 ->
  metadata fs' = metadata fs /\
  (current_uid s <> 0 -> ~ class_allows inode (current_uid s) 2 ->
     let denied := Some (- SYSCALL_EACCES, set_ext2 (Some fs') s) in
     vfs_create alloc (Some path) s = denied /\ vfs_unlink alloc (Some path) s = denied /\
     vfs_mkdir alloc (Some path) s = denied) /\
  (current_uid s = 0 \/ class_allows inode (current_uid s) 7 ->
     forall r s', vfs_create alloc (Some path) s = Some (r, s') \/ vfs_unlink alloc (Some path) s = Some (r, s') \/
       vfs_mkdir alloc (Some path) s = Some (r, s') -> r = 0 \/ r = -1).
Proof.
  intros He Hp Hsl Hlen. split_and!.
  - destruct Hp as (ino&fs1&E1&_&E2). rewrite (looks_stat _ _ _ _ E2). by apply looks_lookup in E1.
  - intros Hu Hc. apply (parent_check_denies path s fs inode fs' He Hp Hsl Hlen).
    apply not_true_iff_false. intros [?|Hx]%perm_ok_spec; [done| |lia]. apply Hc. revert Hx. apply class_allows_sub.
    intros b Hb. assert (b = 0 \/ b = 1 \/ b = 2) as [->|[->| ->]] by lia; done.
  - intros Hc r s'. apply (parent_check_passes path s fs inode fs' r s' He Hp Hsl Hlen).
    apply perm_ok_spec; [lia|]. destruct Hc as [|Hc]; [by left|right]. revert Hc. apply class_allows_sub.
    intros b Hb. assert (b = 0 \/ b = 1 \/ b = 2) as [->|[->| ->]] by lia; done.
Qed.

(** The comments at vfs_create and vfs_unlink promise a check of the write and
    execute bits; the code tests write and read.  A class with write and execute
    but not read is refused, and one with read and write but not execute is not. *)
Theorem vfs_parent_read_for_execute path s fs inode fs' :
  g_ext2 s = Some fs -> parent_inode path fs inode fs' -> starts_with_slash path = true -> Z.of_nat (length path) < 64 ->
  current_uid s <> 0 -> class_allows inode (current_uid s) 2 ->
  (class_allows inode (current_uid s) 1 -> ~ class_allows inode (current_uid s) 4 ->
     vfs_create alloc (Some path) s = Some (- SYSCALL_EACCES, set_ext2 (Some fs') s)) /\
  (~ class_allows inode (current_uid s) 1 -> class_allows inode (current_uid s) 4 ->
     forall r s', vfs_create alloc (Some path) s = Some (r, s') -> r = 0 \/ r = -1).
Proof.
  intros He Hp Hsl Hlen Hu Hw. split.
  - intros _ Hr. apply (parent_check_denies path s fs inode fs' He Hp Hsl Hlen).
    apply not_true_iff_false. intros [?|Hx]%perm_ok_spec; [done| |lia]. apply Hr. revert Hx. apply class_allows_sub.
    intros b Hb. assert (b = 0 \/ b = 1 \/ b = 2) as [->|[->| ->]] by lia; done.
  - intros _ Hr r s' E. apply (parent_check_passes path s fs inode fs' r s' He Hp Hsl Hlen); [|by left].
    apply perm_ok_spec; [lia|]. right. intros b Hb Hb6. assert (b = 0 \/ b = 1 \/ b = 2) as [->|[->| ->]] by lia; [done|by apply Hw|by apply Hr].
Qed.

(** The directory whose permission is checked is cut to 62 characters: when
    the last slash of a path is at position 63 or later, [vfs_unlink] and
    [vfs_mkdir] look at a different directory than the one they change, and allow
    the change when that other path does not exist. *)
Theorem vfs_long_parent_unchecked path k s fs fs' :
  last_slash path = Some k -> 63 <= k -> g_ext2 s = Some fs ->
  ext2_lookup_inode alloc (take 62 path) fs = Some (0, fs') ->
  parent_dir path 64 = take 62 path /\ parent_dir path 64 <> take (Z.to_nat k) path /\
  parent_writable alloc path s = Some (true, set_ext2 (Some fs') s).
Proof.
  intros Hk Hge He El.
  assert (Hp : parent_dir path 64 = take 62 path).
  { unfold parent_dir, last_slash_of. rewrite Hk. cbn [default from_option]. unfold id. destruct (Z.eqb_spec k 0); [lia|].
    replace (64 - 1 <=? k) with true by lia. reflexivity. }
  split; [done|]. rewrite Hp. split.
  - intros E%(f_equal length). rewrite !length_take in E. assert (k < Z.of_nat (length path)); [|lia].
    clear -Hk. revert k Hk. induction path as [|c path IH]; intros k Hk; simpl in Hk; [done|].
    destruct (last_slash path) as [j|]; [injection Hk as <-; specialize (IH j eq_refl); simpl; lia|].
    destruct (c =? 47); [injection Hk as <-; simpl; lia|done].
  - unfold parent_writable, vfs_access_ok, mbind, ST_bind. rewrite (mounted_run s fs He). cbn [negb]. rewrite Hp.
    by rewrite (on_disk_run _ s fs 0 fs') by done.
Qed.

(** C36: Outside the capacity the user files are unsafe: a write that starts after
    the 8192nd byte of a file computes its length by a subtraction that wraps,
    and stores outside the file's buffer. *)
Theorem vfs_write_past_capacity_undefined s m p off data :
  ram s m -> is_Some (m !! p) -> VFS_USER_MAX_SIZE < off -> off + Z.of_nat (length data) < 2 ^ 64 ->
  vfs_write alloc p off data (Z.of_nat (length data)) s = None.
Proof.
  intros Hs [c Hc] Ho Hlt. unfold vfs_write, mbind, ST_bind. destruct Hs as [He Hh].
  assert (Em : mounted s = Some (false, s)).
  { unfold mounted, reads. rewrite He. by rewrite bool_decide_false by by intros [? [=]]. }
  rewrite Em. cbn [andb mret ST_ret negb Z.eqb]. unfold user_file_for_write, mbind, ST_bind.
  pose proof (find_path _ m p Hh) as Hf. unfold find_user_file, reads. destruct (list_find _ _) as [[i f]|]; [|congruence].
  destruct Hf as (Hi&Hu&Hp&_). cbn [fmap option_fmap option_map fst compose mret ST_ret].
  unfold user_file. rewrite aget_nat, Hi. cbn [mbind option_bind].
  pose proof (Forall_lookup_1 _ _ _ _ (th_entries _ _ Hh) Hi) as (Hd&_&_).
  unfold VFS_USER_MAX_SIZE in *. rewrite (u64_id (off + _)) by lia. destruct (Z.ltb_spec 8192 (off + Z.of_nat (length data))); [|lia].
  unfold must. destruct (slice data 0 _) as [src|]; cbn [mbind option_bind]; [|done].
  unfold splice. destruct ((0 <=? off) && _) eqn:E; [bools; lia|done].
Qed.

End Paths.

(** ** Listings *)

(** Names are compared without regard to case. *)
Definition key (e : vfs_dir_entry) : list Z := ascii_lower <$> de_name e.

Lemma string_equals_ci_spec a b : string_equals_ci a b = true <-> ascii_lower <$> a = ascii_lower <$> b.
Proof.
  revert b. induction a as [|x a IH]; intros [|y b]; cbn [string_equals_ci]; try (split; done). rewrite !fmap_cons.
  destruct (Z.eqb_spec (ascii_lower x) (ascii_lower y)) as [E|E].
  - rewrite IH. split; [by intros ->; rewrite E|by intros [= _ ?]].
  - split; [done|]. by intros [= ? _].
Qed.

Lemma already_listed_spec n l : already_listed n l = true <-> (ascii_lower <$> n) ∈ key <$> l.
Proof.
  unfold already_listed. rewrite existsb_exists. setoid_rewrite string_equals_ci_spec. rewrite list_elem_of_fmap. unfold key.
  split; intros (e&?&?); exists e; [split; [done|by apply list_elem_of_In]|]. by rewrite <- list_elem_of_In.
Qed.

(** What merging the entries [es] after [m] adds. *)
Lemma merge_all_spec es : forall m, exists added,
  merge_all es m = m ++ added /\ sublist added es /\ NoDup (key <$> added) /\
  (forall e, e ∈ added -> key e ∉ key <$> m) /\
  (forall e, e ∈ es -> key e ∈ key <$> m ++ added \/ 64 <= Z.of_nat (length (m ++ added))) /\
  (Z.of_nat (length m) <= 64 -> Z.of_nat (length (m ++ added)) <= 64).
Proof.
  induction es as [|e es IH]; intros m.
  { exists []. rewrite app_nil_r. split_and!; try done; [constructor|by intros ? ?%elem_of_nil..]. }
  unfold merge_all. cbn [foldl]. fold (merge_all es (merge_entry e m)). unfold merge_entry.
  destruct (Z.ltb_spec (Z.of_nat (length m)) 64) as [Hl|Hl]; cbn [andb];
    [destruct (already_listed (de_name e) m) eqn:Ea; cbn [negb]|].
  - destruct (IH m) as (added&->&Hs&Hn&Hd&Hc&Hlen). exists added. split_and!; try done; [by constructor|].
    intros x [->|Hx]%elem_of_cons; [|by apply Hc]. left. rewrite fmap_app, elem_of_app. left. by apply already_listed_spec.
  - destruct (IH (m ++ [e])) as (added&->&Hs&Hn&Hd&Hc&Hlen). exists (e :: added).
    assert (Hne : key e ∉ key <$> m) by (intros H%already_listed_spec; congruence).
    rewrite <- app_assoc in *. cbn [app] in *. split_and!; try done.
    + by constructor.
    + cbn. constructor; [|done]. intros (x&Ex&Hx)%list_elem_of_fmap. apply (Hd x Hx). rewrite fmap_app, elem_of_app. right.
      rewrite <- Ex. by left.
    + intros x [->|Hx]%elem_of_cons; [done|]. intros Hk. apply (Hd x Hx). rewrite fmap_app, elem_of_app. by left.
    + intros x [->|Hx]%elem_of_cons; [|by apply Hc]. left. rewrite fmap_app, elem_of_app. right. by left.
    + intros Hm. apply Hlen. rewrite length_app. simpl. lia.
  - destruct (IH m) as (added&->&Hs&Hn&Hd&Hc&Hlen). exists added. split_and!; try done; [by constructor|].
    intros x [->|Hx]%elem_of_cons; [|by apply Hc]. right. rewrite length_app. lia.
Qed.

Section Listing.
Context {X : Type} (alloc : nat -> Z -> option (list Z)) (sh edit : list Z).
Abbreviation state := (vfs (X := X)).
Implicit Types s : state.

(** The names a directory has besides those on disk. *)
Definition candidates (path : list Z) s : list vfs_dir_entry :=
  (if string_equals_ci path p_root then (fun n => mk_entry n VFS_NODE_DIRECTORY 0) <$> g_overlay_dirs else []) ++
  embedded_children sh edit path 16 ++ omap (user_entry path) (g_user_files s).

Lemma merge_all_app a b m : merge_all b (merge_all a m) = merge_all (a ++ b) m.
Proof. unfold merge_all. by rewrite foldl_app. Qed.

Lemma disk_entries_files path s l s' : disk_entries alloc path s = Some (l, s') -> g_user_files s' = g_user_files s.
Proof.
  unfold disk_entries, mounted, reads, mbind, ST_bind. destruct (negb _); [by intros [= _ <-]|].
  destruct (on_disk _ s) as [[ino s1]|] eqn:E1; [|done]. apply on_disk_inv in E1 as (?&?&_&_&->).
  destruct (ino =? 0); [by intros [= _ <-]|]. destruct (on_disk _ _) as [[es s2]|] eqn:E2; [|done].
  apply on_disk_inv in E2 as (?&?&_&_&->). by intros [= _ <-].
Qed.

(** ext2_readdir returns at most as many entries as it is asked for. *)
Lemma list_block_length fuel : forall block off size bs max acc out,
  Z.of_nat (length acc) <= max -> list_block fuel block off size bs max acc = Some out -> Z.of_nat (length out) <= max.
Proof.
  induction fuel as [|fuel IH]; intros block off size bs max acc out Ha; cbn [list_block]; [done|].
  destruct (_ && _) eqn:E; [|by intros [= <-]]. bools. intros (rec&_&E1)%bind_Some. destruct (rec =? 0); [by injection E1 as <-|].
  apply bind_Some in E1 as (ino&_&E1). apply bind_Some in E1 as (nlen&_&E1). apply bind_Some in E1 as (ft&_&E1).
  apply bind_Some in E1 as (acc'&Ea&E1). revert E1. apply IH. destruct (_ && _).
  - apply bind_Some in Ea as (n&_&[= <-]). rewrite length_app. cbn [length]. lia.
  - by injection Ea as <-.
Qed.

Lemma list_slots_length ptrs : forall block size max acc (fs : ext2_filesystem (X := X)) out fs',
  Z.of_nat (length acc) <= max -> list_slots ptrs block size max acc fs = Some (out, fs') -> Z.of_nat (length out) <= max.
Proof.
  induction ptrs as [|p ptrs IH]; intros block size max acc fs out fs' Ha; cbn [list_slots]; [by intros [= <- _]|].
  destruct (_ && _); [|by intros [= <- _]]. unfold mbind, M_bind, gets.
  destruct (ext2_read_block p block fs) as [[[u b] fs1]|]; [|done]. unfold need.
  destruct (list_block _ _ _ _ _ _ _) as [acc'|] eqn:E; [|done]. apply IH. by eapply list_block_length.
Qed.

Lemma readdir_length ino n (fs : ext2_filesystem (X := X)) out fs' :
  0 <= n -> ext2_readdir alloc ino n fs = Some (out, fs') -> Z.of_nat (length out) <= n.
Proof.
  intros Hn. unfold ext2_readdir, mbind, M_bind, gets. destruct (_ || _); [by intros [= <- _]|].
  destruct (get_inode _ fs) as [[inode fs1]|]; [|done]. destruct (negb _); [by intros [= <- _]|].
  destruct (kmalloc alloc _ fs1) as [[[block|] fs2]|]; [|by intros [= <- _]|done]. apply list_slots_length. done.
Qed.

Lemma disk_entries_length path s l s' : disk_entries alloc path s = Some (l, s') -> Z.of_nat (length l) <= 32.
Proof.
  unfold disk_entries, mounted, reads, mbind, ST_bind. destruct (negb _); [by intros [= <- _]|].
  destruct (on_disk _ s) as [[ino s1]|] eqn:E1; [|done]. destruct (ino =? 0); [by intros [= <- _]|].
  destruct (on_disk _ s1) as [[es s2]|] eqn:E2; [|done]. apply on_disk_inv in E2 as (?&?&_&E2&_). intros [= <- _].
  apply readdir_length in E2; [|lia]. etrans; [|exact E2]. apply inj_le. clear. induction es as [|e es IH]; [done|].
  cbn [omap list_omap]. destruct (ext2_entry e); cbn [length]; lia.
Qed.

(** C28: A directory listing merges the entries on disk (as many as ext2_readdir
    returns, which is at most 32), the overlay directories, the embedded files
    and the user files.  The index argument of [vfs_readdir] enumerates one list,
    which holds entries of these sources in this order and nothing else; every
    name of every source is in it (ignoring case) unless its 64 places are used
    up; and of the entries of one name, however many sources have it, only one
    is listed (two only if the disk itself lists the name twice). *)
Theorem vfs_readdir_enumerates path index s r s' :
  vfs_readdir alloc sh edit (Some path) index s = Some (r, s') ->
  exists disk listing, disk_entries alloc path s = Some (disk, s') /\ r = aget listing index /\
    sublist listing (disk ++ candidates path s) /\
    (forall e, e ∈ disk ++ candidates path s -> key e ∈ key <$> listing \/ 64 <= Z.of_nat (length listing)) /\
    (forall i j e e', i <> j -> listing !! i = Some e -> listing !! j = Some e' -> key e = key e' -> e ∈ disk /\ e' ∈ disk) /\
    (NoDup (key <$> disk) -> NoDup (key <$> listing)) /\
    Z.of_nat (length disk) <= 32 /\ Z.of_nat (length listing) <= 64.
Proof.
  unfold vfs_readdir, vfs_listing, mbind, ST_bind. destruct (disk_entries alloc path s) as [[disk s1]|] eqn:Ed; [|done].
  cbn [reads]. unfold mret, ST_ret. intros [= <- <-].
  destruct (merge_all_spec (candidates path s) disk) as (added&Em&Hsub&Hnd&Hnew&Hall&Hlen). exists disk, (disk ++ added).
  split_and!; try done.
  - rewrite <- Em. unfold candidates. rewrite (disk_entries_files _ _ _ _ Ed). rewrite <- !merge_all_app. by destruct (string_equals_ci path p_root).
  - by apply sublist_app.
  - intros e [He|He]%elem_of_app; [|by apply Hall]. left. apply list_elem_of_fmap_2. set_solver.
  - intros i j e e' Hij Hi Hj Hk. apply lookup_app_Some in Hi as [Hi|[Hli Hi]], Hj as [Hj|[Hlj Hj]].
    + split; by eapply list_elem_of_lookup_2.
    + exfalso. apply (Hnew e'); [by eapply list_elem_of_lookup_2|]. rewrite <- Hk. apply list_elem_of_fmap_2. by eapply list_elem_of_lookup_2.
    + exfalso. apply (Hnew e); [by eapply list_elem_of_lookup_2|]. rewrite Hk. apply list_elem_of_fmap_2. by eapply list_elem_of_lookup_2.
    + exfalso. apply Hij. enough (i - length disk = j - length disk)%nat by lia.
      eapply (NoDup_lookup (key <$> added)); [done|by rewrite list_lookup_fmap, Hi|by rewrite list_lookup_fmap, Hj, Hk].
  - intros Hd. rewrite fmap_app. apply NoDup_app. split_and!; [done| |done]. intros n Hn (e&->&He)%list_elem_of_fmap.
    by apply (Hnew e He).
  - by eapply disk_entries_length.
  - apply Hlen. apply disk_entries_length in Ed. lia.
Qed.

(** The comment at vfs_readdir says that overlay and embedded entries win over
    entries on disk with the same name; it is the entry on disk that is listed. *)
Theorem vfs_readdir_disk_wins path index s r s' :
  vfs_readdir alloc sh edit (Some path) index s = Some (r, s') ->
  exists disk, disk_entries alloc path s = Some (disk, s') /\
    (0 <= index < Z.of_nat (length disk) -> r = aget disk index) /\
    (Z.of_nat (length disk) <= index -> forall e, r = Some e -> key e ∉ key <$> disk).
Proof.
  unfold vfs_readdir, vfs_listing, mbind, ST_bind. destruct (disk_entries alloc path s) as [[disk s1]|] eqn:Ed; [|done].
  cbn [reads]. unfold mret, ST_ret. intros [= <- <-]. exists disk.
  destruct (merge_all_spec (candidates path s) disk) as (added&Em&Hsub&Hnd&Hnew&Hall&Hlen).
  match goal with |- context [aget ?m index] => assert (m = disk ++ added) as -> end.
  { rewrite <- Em. unfold candidates. rewrite (disk_entries_files _ _ _ _ Ed). rewrite <- !merge_all_app. by destruct (string_equals_ci path p_root). }
  split_and!; [done|..]; unfold aget; intros Hi; destruct (Z.leb_spec 0 index); try done.
  - by rewrite lookup_app_l by lia.
  - rewrite lookup_app_r by lia. intros e He. apply Hnew. by eapply list_elem_of_lookup_2.
Qed.
End Listing.

(** ** Concrete states *)

Definition no_data : list Z := replicate (Z.to_nat VFS_USER_MAX_SIZE) 0.

(** A table of files with one empty file of the given name. *)
Definition demo_files (p : list Z) : list vfs_user_file :=
  mk_user_file p no_data 0 true :: replicate 31 (mk_user_file [] no_data 0 false).

Definition demo_ram (p : list Z) : vfs (X := unit) := mk_vfs (demo_files p) None 0.

Lemma demo_ram_holds p : Z.of_nat (length p) < 64 -> ram (demo_ram p) {[p := []]}.
Proof.
  intros Hp. split; [done|]. cbn [demo_ram g_user_files]. assert (Hl : Z.of_nat (length no_data) = VFS_USER_MAX_SIZE) by (unfold no_data; rewrite length_replicate; done).
  assert (Hh : forall n, all_held (replicate n (mk_user_file [] no_data 0 false)) = []) by (induction n as [|n IH]; [done|exact IH]).
  assert (Ha : all_held (demo_files p) = [(p, [])]).
  { unfold demo_files, all_held. cbn [mbind list_bind]. fold (all_held (replicate 31 (mk_user_file [] no_data 0 false))).
    unfold held at 1. cbn [f_used]. by rewrite Hh. }
  split.
  - unfold demo_files. cbn [length]. rewrite length_replicate. done.
  - apply Forall_cons. split; [split_and!; [exact Hl|cbn; lia|cbn; unfold VFS_USER_MAX_SIZE; lia|done]|].
    apply Forall_replicate. split_and!; [exact Hl|cbn; lia|cbn; unfold VFS_USER_MAX_SIZE; lia|done].
  - rewrite Ha. apply NoDup_singleton.
  - by rewrite Ha.
Qed.

(** "a". *)
Definition name_a : list Z := [97].

Lemma ram_files_refine_map_witness :
  exists r s', ram_run (fun _ _ => None) [] [] (RWrite name_a 0 [72; 105]) (demo_ram name_a) = Some (r, s').
Proof.
  destruct (ram_files_refine_map (fun _ _ => None) [] [] (demo_ram name_a) {[name_a := []]} (RWrite name_a 0 [72; 105])) as (r&s'&E&_).
  - apply demo_ram_holds. cbn. lia.
  - cbn. unfold VFS_USER_MAX_SIZE. lia.
  - exists r, s'. exact E.
Defined.

Lemma vfs_write_past_capacity_undefined_witness : vfs_write (fun _ _ => None) name_a 9000 [72] 1 (demo_ram name_a) = None.
Proof.
  apply (vfs_write_past_capacity_undefined (fun _ _ => None) (demo_ram name_a) {[name_a := []]} name_a 9000 [72]).
  - apply demo_ram_holds. cbn. lia.
  - exists []. apply lookup_singleton_eq.
  - unfold VFS_USER_MAX_SIZE. lia.
  - cbn. lia.
Defined.

Lemma vfs_readdir_enumerates_witness :
  exists disk listing, disk_entries (fun _ _ => None) p_etc (mk_vfs (X := unit) [] None 0) = Some (disk, mk_vfs [] None 0) /\
    aget listing 0 = Some (mk_entry [109; 111; 116; 100] VFS_NODE_FILE 41) /\
    sublist listing (disk ++ candidates [] [] p_etc (mk_vfs (X := unit) [] None 0)).
Proof.
  destruct (vfs_readdir_enumerates (X := unit) (fun _ _ => None) [] [] p_etc 0 (mk_vfs [] None 0)
    (Some (mk_entry [109; 111; 116; 100] VFS_NODE_FILE 41)) (mk_vfs [] None 0)) as (disk&listing&Ed&Er&Hn&_); [reflexivity|].
  exists disk, listing. split; [exact Ed|]. split; [exact (eq_sym Er)|exact Hn].
Defined.

(** A file system without inodes, and a path whose last slash is at position 71. *)
Definition no_inodes : ext2_filesystem (X := unit) :=
  mk_fs (mk_dev None 0 512 0 None None tt) zero_super None None None 0.
Definition long_path : list Z := 47 :: replicate 70 97 ++ [47; 98].

Lemma vfs_long_parent_unchecked_witness :
  parent_writable (fun _ _ => None) long_path (mk_vfs [] (Some no_inodes) 1000) = Some (true, mk_vfs [] (Some no_inodes) 1000).
Proof.
  apply (vfs_long_parent_unchecked (fun _ _ => None) long_path 71 (mk_vfs [] (Some no_inodes) 1000) no_inodes no_inodes).
  - reflexivity.
  - lia.
  - reflexivity.
  - reflexivity.
Defined.

End VfsProps.
