(* ===== verification/VfsDisk.v ===== *)
(** * VfsDisk: the virtual file system on a mounted disk (kernel/src/vfs.c)

    The path operations of vfs.c when an ext2 file system is mounted, on every
    disk that holds a tree of directories: creating, writing and reading files by
    path, and changing their mode and owner. *)

From Stdlib Require Import ZArith Lia Bool ZifyBool.
From stdpp Require Import base numbers option list list_numbers gmap.
From S2P Require Import Prelude StateM Ramdisk Ext2 Ext2Alloc Ext2Layer Ext2Files Ext2Mount Ext2Props Ext2Dirs Ext2Tree Ext2Names Ext2Paths Vfs VfsProps.

Open Scope Z_scope.
Set Warnings "-clear-no-such-hyp".

Module VfsDisk.
Import Ramdisk Ext2 Ext2Alloc Ext2Layer Ext2Files Ext2Mount Ext2Props Ext2Dirs Ext2Tree Ext2Names Ext2Paths Vfs VfsProps.

Implicit Types (a : astate).

(** ** Changing fields of an inode *)

(** Everything but the pointers, the size and the kind of an inode may change
    without a change of the directories. *)
Lemma fs_ok_fields a T ino i i' : fs_ok a T -> 1 <= ino <= inodes a -> inode_at a ino = Some i -> inode_wf i' ->
  i_block i' = i_block i -> i_size i' = i_size i -> is_dir i' = is_dir i -> fs_ok (upd_tab ino i' a) T.
Proof.
  intros Hok Hr Hat Hwf Hb Hs Hd. pose proof (t_inv _ _ Hok) as Hi. destruct (fields_step a ino i i' Hi Hr Hat Hwf Hb) as [Hi' _].
  assert (Hat' : forall x, inode_at (upd_tab ino i' a) x = if x =? ino then Some i' else inode_at a x) by (intros; apply inode_at_upd; [apply Hi|done]).
  assert (Hsl : forall x k, slot (upd_tab ino i' a) x k = slot a x k).
  { intros x k. unfold slot. rewrite Hat'. destruct (Z.eqb_spec x ino) as [->|]; [by rewrite Hat, Hb|done]. }
  split; [done|apply Hok| | |apply Hok].
  - intros d m Em. destruct (t_dir _ _ Hok d m Em) as (Hdr&Hu&ess&[(j&Hj&Hjd&Hjs) D2 D3 D4]&Hn). split; [done|]. split; [done|]. exists ess. split; [|done]. split.
    + rewrite Hat'. destruct (Z.eqb_spec d ino) as [->|]; [|by exists j]. rewrite Hat in Hj. injection Hj as <-. exists i'. by rewrite Hd, Hs.
    + done.
    + intros k es Hk. rewrite !Hsl. by apply D3.
    + intros k Hk. rewrite Hsl. by apply D4.
  - intros d m name n Em En. destruct (t_entry _ _ Hok _ _ _ _ Em En) as (Hnr&Hu&Hl). split; [done|]. split; [done|]. intros Hno.
    destruct (Hl Hno) as [?|(j&Hj&Hjd)]; [by left|right]. rewrite Hat'. destruct (Z.eqb_spec n ino) as [->|]; [|by exists j].
    rewrite Hat in Hj. injection Hj as <-. exists i'. by rewrite Hd.
Qed.

(** The mode bits [vfs_chmod] keeps decide the kind of the inode. *)
Lemma chmod_mode m mode : 0 <= m < 2 ^ 16 ->
  u16_ok (Z.lor (Z.ldiff m 511) (Z.land mode 511)) /\
  Z.land (Z.lor (Z.ldiff m 511) (Z.land mode 511)) EXT2_S_IFMT = Z.land m EXT2_S_IFMT.
Proof.
  intros Hm. assert (Hb : forall v, 0 <= v < 2 ^ 16 -> forall l, 16 <= l -> Z.testbit v l = false)
    by (intros v Hv l Hl; apply (Z.bounded_iff_bits_nonneg 16); lia).
  assert (H5 : forall l, 9 <= l -> Z.testbit 511 l = false) by (intros l Hl; change 511 with (Z.ones 9); apply Z.ones_spec_high; lia).
  assert (Hn : 0 <= Z.lor (Z.ldiff m 511) (Z.land mode 511)) by (apply Z.lor_nonneg; split; [apply Z.ldiff_nonneg; lia|apply Z.land_nonneg; by right]).
  split.
  - split; [done|]. apply (Z.bounded_iff_bits_nonneg 16); [lia|done|]. intros l Hl.
    rewrite Z.lor_spec, Z.ldiff_spec, Z.land_spec, (Hb m Hm l Hl), H5 by lia. by rewrite andb_false_r.
  - apply Z.bits_inj'. intros l Hl. rewrite !Z.land_spec, Z.lor_spec, Z.ldiff_spec, Z.land_spec.
    destruct (Z.testbit EXT2_S_IFMT l) eqn:E; [|by rewrite !andb_false_r]. rewrite !andb_true_r.
    destruct (Z.testbit 511 l) eqn:E5; [|by rewrite !andb_false_r, !andb_true_r, orb_false_r].
    exfalso. destruct (decide (l < 9)) as [H9|H9]; [|by rewrite H5 in E5 by lia].
    assert (Hz : Z.land EXT2_S_IFMT (Z.ones 9) = 0) by done. apply (f_equal (fun z => Z.testbit z l)) in Hz.
    rewrite Z.land_spec, E, Z.ones_spec_low, Z.bits_0 in Hz by lia. done.
Qed.

Section Disk.
Context {X : Type} {dev_ok : ramdisk_device X -> Prop} {image : ramdisk_device X -> list Z}.
Context `{HD : Disk X dev_ok image}.
Context (alloc : nat -> Z -> option (list Z)).
Context (alloc_total : forall k n, 0 <= n -> exists m, alloc k n = Some m /\ Z.of_nat (length m) = n).
Context (sh edit : list Z).
Abbreviation rep := (rep (dev_ok := dev_ok) (image := image)).
Abbreviation state := (vfs (X := X)).
Implicit Types (s : state).

(** A disk that holds the directories [T] is mounted. *)
Definition disk s a (T : tree) : Prop := exists fs, g_ext2 s = Some fs /\ rep fs a /\ fs_ok a T.

(** The operation only changed the mounted disk. *)
Definition same_rest s s' : Prop := g_user_files s' = g_user_files s /\ current_uid s' = current_uid s.

Lemma on_disk_wp {A} (m : M (X := X) A) s fs (Q : A -> ext2_filesystem -> Prop) :
  g_ext2 s = Some fs -> runs m fs Q -> wp (on_disk m) (fun r s' => exists fs', s' = set_ext2 (Some fs') s /\ Q r fs') s.
Proof. intros E (r&fs'&Em&HQ). exists r, (set_ext2 (Some fs') s). split; [by eapply on_disk_run|]. by exists fs'. Qed.

Lemma mounted_wp s a T : disk s a T -> wp mounted (fun b s' => b = true /\ s' = s) s.
Proof. intros (fs&E&_). exists true, s. split; [by eapply mounted_run|done]. Qed.

Lemma lookup_wp s a T path : disk s a T -> path_ok path ->
  wp (on_disk (ext2_lookup_inode alloc path)) (fun r s' => r = default 0 (resolve T path) /\ disk s' a T /\ same_rest s s') s.
Proof.
  intros (fs&E&Hr&Hok) (Hs&Hl&_). assert (Hne : path <> []) by by destruct path.
  eapply wp_mono; [eapply on_disk_wp; [exact E|by apply (lookup_runs alloc alloc_total fs a T path)]|].
  intros r s' (fs'&->&Hr'&->). split; [done|]. split; [|done]. by exists fs'.
Qed.

(** The inode a path resolves to. *)
Lemma resolve_range a T path ino : fs_ok a T -> resolve T path = Some ino -> 1 <= ino <= inodes a /\ (T !! ino = None -> leaf a ino).
Proof.
  intros Hok Hres. destruct (root_ok _ _ Hok) as (Hroot&Hru&Hrl). destruct (walk_ok _ _ _ Hok _ _ Hroot Hru Hrl Hres) as (?&_&?). done.
Qed.

(** ** Reading *)

(** The path is not that of an embedded file or of a file in the table. *)
Definition only_on_disk s (path : list Z) : Prop :=
  vfs_lookup sh edit (Some path) = None /\ list_find (same_path (Some path)) (g_user_files s) = None.

Lemma read_wp s a T path ino i off buffer count :
  disk s a T -> path_ok path -> only_on_disk s path -> resolve T path = Some ino -> ino < inodes a -> inode_at a ino = Some i ->
  0 <= off < 2 ^ 32 -> 0 <= count < 2 ^ 63 ->
  let n := Z.max 0 (Z.min count (i_size i - off)) in
  n <= Z.of_nat (length buffer) -> off + n <= MAX_SIZE -> (forall k, 0 <= k < n -> byte a ino (off + k) <> None) ->
  wp (vfs_read alloc sh edit (Some path) off buffer count) (fun r s' => r.1 = n /\ got a ino off n buffer r.2 /\ disk s' a T /\ same_rest s s') s.
Proof.
  intros Hd Hp [Hemb Huf] Hres Hlt Hat Hoff Hcnt n Hn Hmax Hmap. unfold vfs_read. rewrite Hemb.
  wstep. unfold find_user_file. wstep. rewrite Huf. cbn [fmap option_fmap option_map].
  wuse mounted_wp as (->&->); [exact Hd|]. cbn [negb]. wuse lookup_wp giving r as (->&Hd1&Hs1); [exact Hd|done|].
  rewrite Hres. cbn [from_option id]. destruct Hd1 as (fs1&E1&Hr1&Hok1). destruct (resolve_range a T path ino Hok1 Hres) as [Hr _].
  destruct (Z.eqb_spec ino 0); [lia|]. rewrite u32_id by lia. eapply wp_mono.
  - eapply on_disk_wp; [exact E1|]. apply (read_runs alloc alloc_total fs1 a ino i off count buffer); try done; [apply Hok1|lia].
  - intros [r out] s2 (fs2&->&Hr2&Hx&Hg). split; [done|]. split; [done|]. split; [by exists fs2|]. done.
Qed.

(** ** Writing *)

(** The inode a path resolves to is a regular file. *)
Definition names_file a (T : tree) (path : list Z) (ino : Z) : Prop :=
  resolve T path = Some ino /\ T !! ino = None /\ ino < inodes a.

Lemma present_names a T path d m name n : present T path a d m name n -> n < inodes a -> names_file a T path n.
Proof.
  intros (_&parent&_&Ec&Hw&Em&En&Hno&_) Hlt. split; [|done]. unfold resolve. rewrite Ec, walk_app, Hw.
  cbn [mbind option_bind walk]. rewrite Em. cbn [mbind option_bind]. by rewrite En.
Qed.

Lemma write_wp s a T path ino off data :
  disk s a T -> path_ok path -> names_file a T path ino -> 0 <= off -> off + Z.of_nat (length data) <= MAX_SIZE ->
  wp (vfs_write alloc path off data (Z.of_nat (length data))) (fun w s' => exists a' i, disk s' a' T /\ same_rest s s' /\
    inode_at a ino = Some i /\ put_bytes ino off (take (Z.to_nat w) data) a a' /\ 0 <= w <= Z.of_nat (length data) /\
    (w < Z.of_nat (length data) -> full a') /\ stat a' ino = Some (i_mode i, Z.max (i_size i) (off + w)) /\ (synced a -> synced a')) s.
Proof.
  intros Hd Hp (Hres&Hno&Hlt) Hoff Hmax. assert (Hsm : MAX_SIZE < 2 ^ 32) by done. pose proof Hp as (Hsl&_).
  unfold vfs_write. wuse mounted_wp as (->&->); [exact Hd|]. rewrite Hsl. cbn [andb]. wstep.
  unfold inode_for_write. wuse lookup_wp giving r as (->&Hd1&Hs1); [exact Hd|done|]. rewrite Hres. cbn [from_option id].
  destruct Hd1 as (fs1&E1&Hr1&Hok1). destruct (resolve_range a T path ino Hok1 Hres) as [Hr Hl]. destruct (Z.eqb_spec ino 0); [lia|].
  wstep. rewrite (proj2 (Z.eqb_neq ino 0)) by done. cbn [negb]. rewrite u32_id by lia.
  destruct (Hl Hno) as [?|(i&Hat&Hnd)]; [lia|]. eapply wp_mono.
  - eapply on_disk_wp; [exact E1|]. apply (write_runs alloc alloc_total fs1 a ino i off (Z.of_nat (length data)) data); try done; [apply Hok1|lia|lia].
  - intros w s2 (fs2&->&a'&Hr2&Hpb&Hw&Hfull&Hst&Hsy). exists a', i. split_and!; try done; try lia.
    exists fs2. split; [done|]. split; [done|]. eapply put_bytes_tree; [exact Hpb|exact Hok1|done|].
    unfold stat in Hst. destruct (inode_at a' ino) as [i'|]; [|done]. injection Hst as Hmd _. exists i'. split; [done|]. unfold is_dir in *. by rewrite Hmd.
Qed.

(** C13: Files by path on a mounted disk.  Writing to a path that names a regular
    file is defined and stores all bytes unless every data block is in use; reading
    the same range by path then gives exactly the bytes written; and reading any
    mapped range of a path that names a different inode gives what it gave before.
    The directories, the table of user files and the caller's identity are
    unchanged, and what was on disk before still agrees with memory. *)
Theorem vfs_disk_write_read s a T path ino off data :
  disk s a T -> path_ok path -> names_file a T path ino -> only_on_disk s path ->
  0 <= off -> off + Z.of_nat (length data) <= MAX_SIZE ->
  exists w s' a', vfs_write alloc path off data (Z.of_nat (length data)) s = Some (w, s') /\
    disk s' a' T /\ same_rest s s' /\ 0 <= w <= Z.of_nat (length data) /\ (w < Z.of_nat (length data) -> full a') /\ (synced a -> synced a') /\
    (forall buffer, Z.of_nat (length buffer) = w ->
       exists s2, vfs_read alloc sh edit (Some path) off buffer w s' = Some ((w, take (Z.to_nat w) data), s2)) /\
    (forall q ino' i' off' buffer count, path_ok q -> only_on_disk s q -> resolve T q = Some ino' -> ino' <> ino -> ino' < inodes a ->
       inode_at a ino' = Some i' -> 0 <= off' < 2 ^ 32 -> 0 <= count < 2 ^ 63 ->
       let n := Z.max 0 (Z.min count (i_size i' - off')) in
       n <= Z.of_nat (length buffer) -> off' + n <= MAX_SIZE -> (forall k, 0 <= k < n -> byte a ino' (off' + k) <> None) ->
       exists out s1 s2, vfs_read alloc sh edit (Some q) off' buffer count s = Some ((n, out), s1) /\
         vfs_read alloc sh edit (Some q) off' buffer count s' = Some ((n, out), s2)).
Proof.
  intros Hd Hp Hnf Hod Hoff Hmax. assert (Hsm : MAX_SIZE < 2 ^ 32) by done.
  destruct (write_wp s a T path ino off data Hd Hp Hnf Hoff Hmax) as (w&s'&Ew&a'&i&Hd'&Hs'&Hat&Hpb&Hw&Hfull&Hst&Hsy).
  destruct Hnf as (Hres&Hno&Hlt). pose proof (w_geo _ _ _ _ _ Hpb) as (_&_&Gi).
  assert (Hod' : forall q, only_on_disk s q -> only_on_disk s' q) by (intros q [? ?]; split; [done|]; destruct Hs' as [-> _]; done).
  exists w, s', a'. split_and!; try done; try lia.
  - intros buffer Hbl. unfold stat in Hst. destruct (inode_at a' ino) as [i2|] eqn:Hat2; [|done]. injection Hst as Hmd Hsz.
    assert (Hlen : Z.of_nat (length (take (Z.to_nat w) data)) = w) by (rewrite length_take; lia).
    assert (Hn : Z.max 0 (Z.min w (i_size i2 - off)) = w) by lia. assert (Hby := w_data _ _ _ _ _ Hpb).
    assert (Hrd := read_wp s' a' T path ino i2 off buffer w Hd' Hp (Hod' _ Hod) Hres ltac:(lia) Hat2 ltac:(lia) ltac:(unfold MAX_SIZE, MAX_BLOCKS in *; lia)).
    cbn zeta in Hrd. rewrite Hn in Hrd. destruct Hrd as ([n out]&s2&Er&Hn1&[Hgl Hg]&_); [lia|lia| |].
    + intros k Hk. destruct (aget_lt (take (Z.to_nat w) data) k) as [x Hx]; [lia|]. by rewrite (Hby k x Hx).
    + cbn in Hn1, Hgl, Hg. subst n. exists s2. rewrite Er. do 3 f_equal. apply list_eq_aget; [lia|]. intros k Hk. rewrite Hg by lia.
      destruct (Z.ltb_spec k w); [|lia]. destruct (aget_lt (take (Z.to_nat w) data) k) as [x Hx]; [lia|]. by rewrite Hx, (Hby k x Hx).
  - intros q ino' i' off' buffer count Hq Hqd Hqr Hne Hql Hqi Hqo Hqc n Hn Hmaxq Hmap. destruct Hd as (fs&E&Hr&Hok).
    assert (Hsame : forall k, 0 <= k < n -> byte a' ino' (off' + k) = byte a ino' (off' + k)) by (intros; apply Hpb; [done|lia]).
    destruct (read_wp s a T q ino' i' off' buffer count) as ([n1 out1]&s1&Er1&Hn1&Hg1&_); try done; [by exists fs|].
    destruct (read_wp s' a' T q ino' i' off' buffer count) as ([n2 out2]&s2&Er2&Hn2&Hg2&_); try done; [by apply Hod'|lia| | |].
    + by rewrite (w_tab _ _ _ _ _ Hpb).
    + intros k Hk. rewrite Hsame by done. by apply Hmap.
    + cbn in Hn1, Hn2, Hg1, Hg2. subst n1 n2. exists out1, s1, s2. split; [done|]. rewrite Er2. do 3 f_equal. by eapply got_eq.
Qed.

(** ** Mode and owner *)

(** Storing a changed inode. *)
Lemma store_wp s a T ino i i' : disk s a T -> 1 <= ino <= inodes a -> inode_at a ino = Some i -> inode_wf i' ->
  i_block i' = i_block i -> i_size i' = i_size i -> is_dir i' = is_dir i ->
  wp (_ ← on_disk (put_inode ino i'); _ ← on_disk (ext2_write_inode alloc ino); mret 0)
    (fun r s' => r = 0 /\ same_rest s s' /\ exists a', disk s' a' T /\ frame (only ino) none a a' /\ inode_at a' ino = Some i') s.
Proof.
  intros (fs&E&Hr&Hok) Hi Hat Hwf Hb Hs Hk. pose proof (t_inv _ _ Hok) as Hinv.
  wuse (on_disk_wp _ s fs) as (fs1&->&Hr1); [exact E|eapply put_inode_runs; [exact Hr|exact Hi|exact Hwf]|].
  pose proof (fs_ok_fields a T ino i i' Hok Hi Hat Hwf Hb Hs Hk) as Hok1. pose proof (fields_frame a ino i i' Hinv Hi Hat Hwf Hb) as F1.
  set (a1 := upd_tab ino i' a) in *.
  apply wp_bind. eapply wp_mono; [eapply (on_disk_wp _ _ fs1); [done|eapply write_inode_runs; [done|exact Hr1|exact Hi]]|].
  intros r s2 (fs2&->&->&i2&b&Hat2&Eb&Hr2). cbn beta.
  destruct (store_frame a1 ino i2 b (t_inv _ _ Hok1) Hi Hat2 Eb) as [F2 Hst]. wstep. split; [done|]. split; [done|]. eexists. split; [|split].
  - exists fs2. split; [done|]. split; [exact Hr2|]. eapply fs_ok_frame; [exact Hok1|exact F2|]. intros y Hy. split; [by intros []|exact Hy].
  - pose proof (frame_compose _ _ _ _ (only ino) (only ino) _ _ _ F1 F2) as F. destruct F as [A1 A2 A3 A4 A5 A6]; [done|done|by intros ? []|by intros ? []|].
    constructor; try done. intros y Hy _ Hsx. destruct (decide (y = ino)) as [->|Hne]; [exact Hst|by apply A5].
  - assert (Hat1 : inode_at a1 ino = Some i') by (unfold a1; rewrite inode_at_upd by (done || apply Hinv); by rewrite Z.eqb_refl). exact Hat1.
Qed.

(** What a caller sees of an operation that changes the inode of [path] to
    [change i] when [allowed i] holds. *)
Definition changed s a (T : tree) (path : list Z) (allowed : ext2_inode -> bool) (change : ext2_inode -> ext2_inode) (r : Z) s' : Prop :=
  same_rest s s' /\
  match resolve T path with
  | None => r = -2 /\ disk s' a T
  | Some ino => exists i a', inode_at a ino = Some i /\ r = (if allowed i then 0 else -1) /\ disk s' a' T /\
      if allowed i then frame (only ino) none a a' /\ inode_at a' ino = Some (change i) else a' = a
  end.

Lemma get_inode_wp s a T ino i : disk s a T -> 1 <= ino <= inodes a -> inode_at a ino = Some i ->
  wp (on_disk (get_inode ino)) (fun j s' => j = i /\ s' = s) s.
Proof.
  intros (fs&E&Hr&_) Hi Hat. eapply wp_mono; [eapply on_disk_wp; [exact E|eapply get_inode_runs; [exact Hr|exact Hi]]|].
  intros j s' (fs'&->&Hj&_&->). rewrite Hat in Hj. injection Hj as <-. split; [done|]. destruct s. cbn in *. by subst.
Qed.

Lemma same_rest_trans s1 s2 s3 : same_rest s1 s2 -> same_rest s2 s3 -> same_rest s1 s3.
Proof. intros [? ?] [? ?]. split; congruence. Qed.

Lemma resolved_inode a T path ino : fs_ok a T -> resolve T path = Some ino ->
  1 <= ino <= inodes a /\ exists i, inode_at a ino = Some i /\ inode_wf i.
Proof.
  intros Hok Hres. destruct (resolve_range a T path ino Hok Hres) as [Hi _]. split; [done|].
  apply inode_at_Some; [apply Hok|done].
Qed.

Lemma chmod_wp s a T path mode : disk s a T -> path_ok path ->
  wp (vfs_chmod alloc (Some path) mode)
    (changed s a T path (fun i => (current_uid s =? 0) || (current_uid s =? i_uid i)) (chmod_inode mode)) s.
Proof.
  intros Hd Hp. unfold vfs_chmod, changed. do 2 wstep. wuse mounted_wp as (->&->); [exact Hd|]. cbn [negb].
  wuse lookup_wp giving r as (->&Hd1&Hs1); [exact Hd|done|]. destruct (resolve T path) as [ino|] eqn:Hres; cbn [from_option id Z.eqb].
  2:{ by wstep. }
  pose proof Hd1 as (fs&_&_&Hok). destruct (resolved_inode a T path ino Hok Hres) as (Hi&i&Hat&Hwf).
  rewrite (proj2 (Z.eqb_neq ino 0)) by lia. wuse get_inode_wp giving j as (->&->); [exact Hd1|done|exact Hat|].
  rewrite <- negb_orb. destruct (_ || _) eqn:Ea; cbn [negb].
  - pose proof Hwf as (W1&W2). destruct (chmod_mode (i_mode i) mode W1) as [Hm1 Hm2].
    eapply wp_mono; [eapply (store_wp _ a T ino i (chmod_inode mode i)); try done; unfold is_dir; cbn; by rewrite Hm2|].
    intros r s2 (->&Hs2&a'&Hd2&F&Hat2). split; [by eapply same_rest_trans|]. exists i, a'. by rewrite Ea.
  - wstep. split; [done|]. exists i, a. by rewrite Ea.
Qed.

Lemma chown_wp s a T path uid gid : disk s a T -> path_ok path -> 0 <= uid < 2 ^ 16 -> 0 <= gid < 2 ^ 16 ->
  wp (vfs_chown alloc (Some path) uid gid) (changed s a T path (fun _ => current_uid s =? 0) (chown_inode uid gid)) s.
Proof.
  intros Hd Hp Hu Hg. unfold vfs_chown, changed. do 2 wstep. wuse mounted_wp as (->&->); [exact Hd|]. cbn [negb].
  wuse lookup_wp giving r as (->&Hd1&Hs1); [exact Hd|done|]. destruct (resolve T path) as [ino|] eqn:Hres; cbn [from_option id Z.eqb].
  2:{ by wstep. }
  pose proof Hd1 as (fs&_&_&Hok). destruct (resolved_inode a T path ino Hok Hres) as (Hi&i&Hat&Hwf).
  rewrite (proj2 (Z.eqb_neq ino 0)) by lia. destruct (current_uid s =? 0); cbn [negb].
  - wuse get_inode_wp giving j as (->&->); [exact Hd1|done|exact Hat|].
    eapply wp_mono; [eapply (store_wp _ a T ino i (chown_inode uid gid i)); try done|].
    { destruct Hwf as (W1&W2&W3&W4&W5&W6). exact (conj W1 (conj Hu (conj W3 (conj W4 (conj Hg W6))))). }
    intros r s2 (->&Hs2&a'&Hd2&F&Hat2). split; [by eapply same_rest_trans|]. by exists i, a'.
  - wstep. split; [done|]. by exists i, a.
Qed.

(** C27: [vfs_chmod] and [vfs_chown] on a mounted disk.  For a path that resolves,
    root and (for the mode) the owner get 0: the nine permission bits, or user and
    group, are those requested and on disk; the kind of the file, its contents, all
    other inodes and the directories are unchanged.  Any other caller gets -1 and
    nothing changes.  A path that does not resolve gives -2. *)
Theorem vfs_chmod_chown_effect s a T path mode uid gid :
  disk s a T -> path_ok path -> 0 <= uid < 2 ^ 16 -> 0 <= gid < 2 ^ 16 ->
  (exists r s', vfs_chmod alloc (Some path) mode s = Some (r, s') /\
     changed s a T path (fun i => (current_uid s =? 0) || (current_uid s =? i_uid i)) (chmod_inode mode) r s') /\
  (exists r s', vfs_chown alloc (Some path) uid gid s = Some (r, s') /\
     changed s a T path (fun _ => current_uid s =? 0) (chown_inode uid gid) r s') /\
  (forall i, inode_wf i -> is_dir (chmod_inode mode i) = is_dir i /\
     forall b, Z.testbit (i_mode (chmod_inode mode i)) b = Z.testbit (if (0 <=? b) && (b <? 9) then mode else i_mode i) b).
Proof.
  intros Hd Hp Hu Hg. split; [exact (chmod_wp s a T path mode Hd Hp)|]. split; [exact (chown_wp s a T path uid gid Hd Hp Hu Hg)|].
  intros i (Hm&_). unfold is_dir. cbn [chmod_inode i_mode]. split; [by rewrite (proj2 (chmod_mode _ mode Hm))|]. intros b.
  destruct (decide (0 <= b)) as [Hb|Hb]; [|rewrite !Z.testbit_neg_r by lia; done].
  rewrite Z.lor_spec, Z.ldiff_spec, Z.land_spec. change 511 with (Z.ones 9). replace (0 <=? b) with true by lia. cbn [andb].
  destruct (Z.ltb_spec b 9); [rewrite Z.ones_spec_low by lia|rewrite Z.ones_spec_high by lia].
  - by rewrite andb_false_r, andb_true_r.
  - by rewrite andb_true_r, andb_false_r, orb_false_r.
Qed.

(** ** Creating *)

(** The permission check of the parent directory, as a function of the disk. *)
Definition parent_allows a (T : tree) (path : list Z) (uid : Z) : bool :=
  match resolve T (parent_dir path 64) with
  | None => true
  | Some ino => if inodes a <=? ino then true else match inode_at a ino with Some i => perm_ok i uid 6 | None => true end
  end.

Lemma parent_dir_ok path : path_ok path -> Z.of_nat (length path) < 64 -> path_ok (parent_dir path 64).
Proof.
  intros (Hs&Hl&Hf) H64. unfold parent_dir, last_slash_of. pose proof (last_slash_spec path) as H.
  assert (Hroot : path_ok [47]) by (split_and!; [done|cbn; lia|repeat constructor; lia]).
  destruct (last_slash path) as [k|]; [|exact Hroot]. destruct H as (Hk&pre&name&Ep&Ek&_). cbn [from_option id].
  destruct (Z.eqb_spec k 0) as [|Hk0]; [exact Hroot|].
  assert (Hlen : Z.of_nat (length path) = k + 1 + Z.of_nat (length name)) by (rewrite Ep, length_app; simpl; lia).
  replace (64 - 1 <=? k) with false by lia. split_and!.
  - destruct path as [|c path]; [done|]. destruct (Z.to_nat k) eqn:E; [lia|]. exact Hs.
  - rewrite length_take. lia.
  - by apply Forall_take.
Qed.

Lemma stat_runs fs a ino : rep fs a -> 1 <= ino <= inodes a ->
  runs (ext2_stat ino) fs (fun o fs' => fs' = fs /\ o = if inodes a <=? ino then None else inode_at a ino).
Proof.
  intros Hr Hi. unfold ext2_stat. do 2 mstep. rewrite (r_super _ _ Hr). fold (inodes a). destruct (inodes a <=? ino); [by mstep|].
  muse get_inode_runs giving i as (Hat&_&->); [exact Hr|done|]. mstep. by rewrite Hat.
Qed.

Lemma parent_writable_wp s a T path : disk s a T -> path_ok path -> Z.of_nat (length path) < 64 ->
  wp (parent_writable alloc path) (fun b s' => b = parent_allows a T path (current_uid s) /\ disk s' a T /\ same_rest s s') s.
Proof.
  intros Hd Hp H64. unfold parent_writable, vfs_access_ok, parent_allows. wuse mounted_wp as (->&->); [exact Hd|]. cbn [negb].
  wuse lookup_wp giving r as (->&Hd1&Hs1); [exact Hd|by apply parent_dir_ok|].
  destruct (resolve T (parent_dir path 64)) as [ino|] eqn:Hres; cbn [from_option id Z.eqb]; [|by wstep].
  pose proof Hd1 as (fs&E&Hr&Hok). destruct (resolve_range a T _ ino Hok Hres) as [Hi _]. rewrite (proj2 (Z.eqb_neq ino 0)) by lia.
  apply wp_bind. eapply wp_mono; [eapply on_disk_wp; [exact E|by apply (stat_runs fs a ino)]|]. intros o s2 (fs2&->&->&->). cbn beta.
  assert (Hd2 : forall s1, g_ext2 s1 = Some fs -> disk s1 a T) by (intros s1 E1; by exists fs).
  destruct (inodes a <=? ino); [wstep; split; [done|]; split; [by apply Hd2|]; exact Hs1|].
  destruct (inode_at a ino) as [i|]; [|wstep; split; [done|]; split; [by apply Hd2|]; exact Hs1].
  do 3 wstep. cbn [current_uid set_ext2]. split; [by destruct Hs1 as [_ ->]|]. split; [by apply Hd2|]. exact Hs1.
Qed.

(** The root directory is what the check for "/a" looks at. *)
Lemma root_parent fs a T : rep fs a -> fs_ok a T -> exists inode fs', parent_inode alloc path_a fs inode fs'.
Proof.
  intros Hr Hok. destruct (lookup_runs alloc alloc_total fs a T [47] Hr Hok) as (r&fs1&E1&Hr1&->); [done|cbn; lia|].
  destruct (t_root _ _ Hok) as [m Em]. destruct (t_dir _ _ Hok _ _ Em) as (Hi&_). unfold EXT2_ROOT_INODE in Hi.
  destruct (stat_runs fs1 a 2 Hr1) as (o&fs2&E2&->&Ho); [lia|]. replace (inodes a <=? 2) with false in Ho by lia.
  destruct (inode_at_Some a 2) as (i&Hat&_); [apply Hok|lia|]. rewrite Hat in Ho. subst o. exists i, fs1. exists 2, fs1. done.
Qed.

(** Who is let into the parent directory whatever execute and read are taken to
    mean: root and those with all three bits.  Who is not: a process that is not
    root and has no write bit. *)
Definition parent_grants a (T : tree) (path : list Z) (uid : Z) : Prop :=
  forall ino i, resolve T (parent_dir path 64) = Some ino -> inode_at a ino = Some i -> uid = 0 \/ class_allows i uid 7.
Definition parent_forbids a (T : tree) (path : list Z) (uid : Z) : Prop :=
  exists ino i, resolve T (parent_dir path 64) = Some ino /\ ino < inodes a /\ inode_at a ino = Some i /\
    uid <> 0 /\ ~ class_allows i uid 2.

Lemma parent_grants_allows a T path uid : parent_grants a T path uid -> parent_allows a T path uid = true.
Proof.
  unfold parent_grants, parent_allows. intros H. destruct (resolve _ _) as [ino|]; [|done]. destruct (_ <=? _); [done|].
  destruct (inode_at a ino) as [i|] eqn:Ei; [|done]. apply perm_ok_spec; [lia|].
  destruct (H ino i eq_refl Ei) as [|Hc]; [by left|right]. revert Hc. apply class_allows_sub.
  intros b Hb. assert (b = 0 \/ b = 1 \/ b = 2) as [->|[->| ->]] by lia; done.
Qed.

Lemma parent_forbids_denies a T path uid : parent_forbids a T path uid -> parent_allows a T path uid = false.
Proof.
  intros (ino&i&Hr&Hlt&Hi&Hu&Hn). unfold parent_allows. rewrite Hr, Hi. replace (inodes a <=? ino) with false by lia.
  apply not_true_iff_false. intros [?|Hx]%perm_ok_spec; [done| |lia]. apply Hn. revert Hx. apply class_allows_sub.
  intros b Hb. assert (b = 0 \/ b = 1 \/ b = 2) as [->|[->| ->]] by lia; done.
Qed.

(** What creating [path] can do once it is permitted: nothing, the path naming a
    file or directory already; a new empty file as [ext2_create] makes it; or
    fail with -1, directories and files in use as they were. *)
Definition create_outcome (path : list Z) (r : Z) a (T : tree) a' (T' : tree) : Prop :=
  (r = 0 /\ a' = a /\ T' = T /\ is_Some (resolve T path)) \/
  (r = 0 /\ exists ino, resolve T path = None /\ resolve T' path = Some ino /\ created T path 420 a ino a') \/
  (r = -1 /\ T' = T /\ resolve T path = None /\ not_created T path a a').

(** C21: [vfs_create] on a mounted disk, for an absolute path of less than 64
    characters.  It always returns.  Root, and a process whose class has all
    three bits on the parent directory, gets 0 and a path that resolves: to what
    it named before, nothing being changed, or to a new empty file as
    [ext2_create] makes it; or it gets -1, the path resolves neither before nor
    after, and directories and files in use are unchanged.  A process that is not
    root and lacks the write bit on the parent gets EACCES, and anybody who gets
    neither of these outcomes gets EACCES; then nothing is changed. *)
Theorem vfs_create_effect s a T path :
  disk s a T -> path_ok path -> Z.of_nat (length path) < 64 ->
  exists r s' a' T', vfs_create alloc (Some path) s = Some (r, s') /\ disk s' a' T' /\ same_rest s s' /\
    (parent_grants a T path (current_uid s) -> create_outcome path r a T a' T') /\
    (parent_forbids a T path (current_uid s) -> r = - SYSCALL_EACCES) /\
    (create_outcome path r a T a' T' \/ r = - SYSCALL_EACCES /\ a' = a /\ T' = T).
Proof.
  intros Hd Hp H64. assert (H : wp (vfs_create alloc (Some path)) (fun r s' => exists a' T', disk s' a' T' /\ same_rest s s' /\
    if parent_allows a T path (current_uid s) then create_outcome path r a T a' T'
    else r = - SYSCALL_EACCES /\ a' = a /\ T' = T) s).
  2:{ destruct H as (r&s'&E&a'&T'&H1&H2&H3). exists r, s', a', T'. split_and!; try done.
      - intros Hg. by rewrite parent_grants_allows in H3.
      - intros Hf. rewrite parent_forbids_denies in H3 by done. by destruct H3.
      - destruct (parent_allows _ _ _ _); [by left|by right]. }
  unfold vfs_create. replace (64 <=? Z.of_nat (length path)) with false by lia. wuse mounted_wp as (->&->); [exact Hd|].
  wuse parent_writable_wp giving b as (->&Hd1&Hs1); [exact Hd|done|done|]. destruct (parent_allows a T path (current_uid s)); cbn [negb].
  2:{ wstep. by exists a, T. }
  pose proof Hp as (Hsl&_). rewrite Hsl. cbn [andb]. wuse lookup_wp giving r as (->&Hd2&Hs2); [exact Hd1|done|].
  pose proof (same_rest_trans _ _ _ Hs1 Hs2) as Hs. destruct (resolve T path) as [ino|] eqn:Hres; cbn [from_option id].
  - pose proof Hd2 as (fs&E&Hr&Hok). destruct (resolve_range a T _ ino Hok Hres) as [Hi _]. rewrite (proj2 (Z.eqb_neq ino 0)) by lia. cbn [negb]. wstep.
    exists a, T. split; [done|]. split; [done|]. left. by split_and!.
  - cbn [Z.eqb negb]. destruct Hd2 as (fs&E&Hr&Hok). apply wp_bind.
    eapply wp_mono; [eapply on_disk_wp; [exact E|by apply (create_runs alloc alloc_total fs a T path 420)]|].
    intros r s2 (fs2&->&a'&Hr2&[(->&Hnc)|Hc]); cbn beta; wstep.
    + exists a', T. split; [exists fs2; split_and!; [done|done|apply Hnc]|]. split; [exact Hs|]. right. right. done.
    + pose proof Hc as (d&m&name&(_&parent&_&Ec&Hw&Em&En)&Hi&Hfree&Hok'&_). rewrite (proj2 (Z.eqb_neq r 0)) by lia.
      exists a', (<[d := <[name := r]> m]> T). split; [by exists fs2|]. split; [exact Hs|]. right. left. split; [done|]. exists r.
      split; [done|]. split; [by eapply resolve_new|done].
Qed.

End Disk.

(** ** A formatted disk *)

Definition demo_vfs : vfs (X := unit) := mk_vfs [] (Some (formatted 64)) 1000.

Lemma demo_vfs_disk : disk (dev_ok := mem_ok) (image := mem_image) demo_vfs demo_a demo_tree.
Proof. destruct demo_disk as (Hr&_&_&Hok&_). exists (formatted 64). split; [reflexivity|]. split; [exact Hr|exact Hok]. Qed.

Lemma demo_passwd : names_file demo_a demo_tree passwd 15.
Proof.
  destruct demo_disk as (_&_&_&_&m&Hp). apply (present_names _ _ _ _ _ _ _ Hp). rewrite demo_inodes. lia.
Qed.

Lemma vfs_disk_write_read_witness :
  exists w s', vfs_write junk passwd 4 [72; 105] 2 demo_vfs = Some (w, s') /\ 0 <= w <= 2.
Proof.
  destruct (vfs_disk_write_read junk junk_total [] [] demo_vfs demo_a demo_tree passwd 15 4 [72; 105]) as (w&s'&a'&E&_&_&Hw&_).
  - exact demo_vfs_disk.
  - apply demo_path. reflexivity.
  - exact demo_passwd.
  - split; reflexivity.
  - lia.
  - cbn. unfold MAX_SIZE, MAX_BLOCKS. lia.
  - exists w, s'. split; [exact E|exact Hw].
Defined.

Lemma vfs_chmod_chown_effect_witness : exists r s', vfs_chmod junk (Some passwd) 384 demo_vfs = Some (r, s').
Proof.
  destruct (vfs_chmod_chown_effect junk junk_total demo_vfs demo_a demo_tree passwd 384 1000 1000) as [(r&s'&E&_) _].
  - exact demo_vfs_disk.
  - apply demo_path. reflexivity.
  - lia.
  - lia.
  - exists r, s'. exact E.
Defined.

Lemma vfs_create_effect_witness :
  let root := mk_vfs (X := unit) [] (Some (formatted 64)) 0 in
  exists r s' a' T', vfs_create junk (Some path_a) root = Some (r, s') /\ create_outcome path_a r demo_a demo_tree a' T'.
Proof.
  set (root := mk_vfs (X := unit) [] (Some (formatted 64)) 0).
  destruct (vfs_create_effect junk junk_total root demo_a demo_tree path_a) as (r&s'&a'&T'&E&_&_&Ho&_).
  - destruct demo_disk as (Hr&_&_&Hok&_). exists (formatted 64). split; [reflexivity|]. split; [exact Hr|exact Hok].
  - apply demo_path. reflexivity.
  - cbn. lia.
  - exists r, s', a', T'. split; [exact E|]. apply Ho. intros ino i _ _. left. reflexivity.
Defined.

Lemma vfs_parent_permission_witness :
  exists inode fs', metadata fs' = metadata (formatted 64) /\ parent_inode junk path_a (formatted 64) inode fs'.
Proof.
  destruct demo_disk as (Hr&_&_&Hok&_). destruct (root_parent junk junk_total (formatted 64) demo_a demo_tree Hr Hok) as (inode&fs'&Hp). exists inode, fs'. split; [|exact Hp].
  apply (vfs_parent_permission junk path_a demo_vfs (formatted 64) inode fs').
  - reflexivity.
  - exact Hp.
  - reflexivity.
  - cbn. lia.
Defined.

End VfsDisk.
