(* ===== verification/Journal.v ===== *)
(** * Journal: the kernel event journal (kernel/src/journal.c)

    A ring of 256 records, numbered by a 64-bit sequence counter, and a text
    rendering of the ring into a bounded buffer.  Timer readings are arguments;
    the mirror on the serial port is left out.  A message is the list of bytes
    before its NUL. *)

From Stdlib Require Import ZArith Lia Bool ZifyBool.
From stdpp Require Import base numbers option list list_numbers.
From S2P Require Import Prelude.

Open Scope Z_scope.

Module Journal.

Definition JOURNAL_CAPACITY : Z := 256.
Definition JOURNAL_MSG_MAX : Z := 96.

Inductive journal_level := JOURNAL_INFO | JOURNAL_WARN | JOURNAL_ERROR | JOURNAL_FAULT | JOURNAL_APP.

Definition level_num (l : journal_level) : Z :=
  match l with
  | JOURNAL_INFO => 0 | JOURNAL_WARN => 1 | JOURNAL_ERROR => 2 | JOURNAL_FAULT => 3 | JOURNAL_APP => 4
  end.

Record journal_entry := mk_entry {
  seq : Z; e_tick : Z; boot_id : Z; hz : Z; level : Z; pid : Z; msg : list Z }.

(** [g_ring], [g_next_seq], [g_boot_id], [g_persist_pending]. *)
Record journal := mk_journal {
  ring : list journal_entry; next_seq : Z; g_boot_id : Z; persist_pending : Z }.

(** [sample] is the address of a local variable. *)
Definition journal_init (sample tick : Z) (j : journal) : journal :=
  mk_journal (ring j) 0 (Z.lxor (Z.lxor 6217573626012696576 sample) tick) 0.

Definition journal_persist_pending (j : journal) : Z := persist_pending j.
Definition journal_persist_clear (j : journal) : journal :=
  mk_journal (ring j) (next_seq j) (g_boot_id j) 0.

(** The array [dst] after the copy; what follows the NUL is kept. *)
Fixpoint copy_msg_from (fuel : nat) (i : Z) (dst src : list Z) : option (list Z) :=
  match fuel with
  | O => None
  | S fuel' =>
      match aget src i with
      | Some c =>
          if i + 1 <? JOURNAL_MSG_MAX then dst' ← aset dst i c; copy_msg_from fuel' (i + 1) dst' src
          else aset dst i 0
      | None => aset dst i 0
      end
  end.

Definition copy_msg (dst src : list Z) : option (list Z) :=
  copy_msg_from (Z.to_nat JOURNAL_MSG_MAX) 0 dst src.

Definition wants_persist (l : journal_level) : bool :=
  match l with
  | JOURNAL_WARN | JOURNAL_ERROR | JOURNAL_FAULT | JOURNAL_APP => true
  | JOURNAL_INFO => false
  end.

Definition journal_log (tick freq : Z) (l : journal_level) (p : Z) (text : list Z) (j : journal)
    : option journal :=
  let k := next_seq j mod JOURNAL_CAPACITY in
  e ← aget (ring j) k;
  m ← copy_msg (msg e) text;
  r ← aset (ring j) k (mk_entry (next_seq j) tick (g_boot_id j) freq (level_num l) p m);
  Some (mk_journal r (u64 (next_seq j + 1)) (g_boot_id j)
          (if wants_persist l then 1 else persist_pending j)).

Definition hex_digit (x : Z) : Z := if x <? 10 then 48 + x else 87 + x.

(** Hexadecimal digits, least significant first, at most [n]. *)
Fixpoint hex_rev (n : nat) (v : Z) : list Z :=
  match n with
  | O => []
  | S n' => if v =? 0 then [] else hex_digit (Z.land v 15) :: hex_rev n' (Z.shiftr v 4)
  end.

(** The message with the value appended, cut to the message size. *)
Definition hex_message (text : list Z) (value : Z) : list Z :=
  let cut := Z.to_nat (JOURNAL_MSG_MAX - 1) in
  let buf := take cut text in
  let buf := if Z.of_nat (length buf) + 3 <? JOURNAL_MSG_MAX then buf ++ [48; 120] else buf in
  let digits := if value =? 0 then [48] else hex_rev 16 value in
  buf ++ take (cut - length buf) (rev digits).

Definition journal_log_hex (tick freq : Z) (l : journal_level) (p : Z) (text : list Z) (value : Z)
    (j : journal) : option journal :=
  journal_log tick freq l p (hex_message text value) j.

Definition journal_total (j : journal) : Z := next_seq j.

Definition journal_get (s : Z) (j : journal) : option (option journal_entry) :=
  if next_seq j <=? s then Some None
  else if (JOURNAL_CAPACITY <? next_seq j) && (s <? next_seq j - JOURNAL_CAPACITY) then Some None
  else e ← aget (ring j) (s mod JOURNAL_CAPACITY); Some (Some e).

(** ** Text rendering *)

(** Append the bytes that fit; position and buffer. *)
Fixpoint put_bytes (b : list Z) (pos cap : Z) (s : list Z) : option (Z * list Z) :=
  match s with
  | [] => Some (pos, b)
  | c :: s' =>
      if pos + 1 <? cap then b' ← aset b pos c; put_bytes b' (pos + 1) cap s'
      else Some (pos, b)
  end.

Definition put_str := put_bytes.

(** Decimal digits, least significant first, at most [n]. *)
Fixpoint dec_rev (n : nat) (v : Z) : list Z :=
  match n with
  | O => []
  | S n' => if v =? 0 then [] else (48 + v mod 10) :: dec_rev n' (v / 10)
  end.

Definition put_dec (b : list Z) (pos cap v : Z) : option (Z * list Z) :=
  if v =? 0 then put_bytes b pos cap [48] else put_bytes b pos cap (rev (dec_rev 24 v)).

Definition put_hex (b : list Z) (pos cap v : Z) : option (Z * list Z) :=
  '(pos, b) ← (if pos + 2 <? cap then b' ← aset b pos 48; b'' ← aset b' (pos + 1) 120; Some (pos + 2, b'')
               else Some (pos, b));
  if v =? 0 then put_bytes b pos cap [48] else put_bytes b pos cap (rev (hex_rev 16 v)).

(** Bytes before the NUL of a message array. *)
Fixpoint text_of (l : list Z) : list Z :=
  match l with
  | [] => []
  | c :: l' => if c =? 0 then [] else c :: text_of l'
  end.

Definition tag_of (l : Z) : list Z :=
  match l with
  | 0 => [73; 78; 70; 79; 32] | 1 => [87; 65; 82; 78; 32] | 2 => [69; 82; 82; 79; 82]
  | 3 => [70; 65; 85; 76; 84] | 4 => [65; 80; 80; 32; 32] | _ => [63; 63; 63; 63; 63]
  end.

(** One item of the rendering. *)
Inductive piece := PStr (s : list Z) | PDec (v : Z) | PHex (v : Z).

Definition put_piece (cap : Z) (p : piece) (st : Z * list Z) : option (Z * list Z) :=
  let '(pos, b) := st in
  match p with
  | PStr s => put_str b pos cap s
  | PDec v => put_dec b pos cap v
  | PHex v => put_hex b pos cap v
  end.

Definition header_pieces (freq : Z) (j : journal) : list piece :=
  [PStr [35;32;86;105;98;101;79;83;32;106;111;117;114;110;97;108;32;98;111;111;116;61];
   PHex (g_boot_id j); PStr [32;104;122;61]; PDec freq; PStr [32;116;111;116;97;108;61];
   PDec (next_seq j); PStr [10]].

Definition entry_pieces (freq : Z) (e : journal_entry) : list piece :=
  let h := if negb (hz e =? 0) then hz e else freq in
  let ms := if negb (h =? 0) then u64 (e_tick e mod h * 1000) / h else 0 in
  [PStr [91;98;111;111;116;61]; PHex (boot_id e); PStr [32;115;101;113;61]; PDec (seq e);
   PStr [32;116;105;99;107;61]; PDec (e_tick e); PStr [32;116;61];
   PDec (if negb (h =? 0) then e_tick e / h else e_tick e); PStr [46]] ++
  (if ms <? 100 then [PStr [48]] else []) ++ (if ms <? 10 then [PStr [48]] else []) ++
  [PDec ms; PStr [115;93;32]; PStr (tag_of (level e)); PStr [32;112;105;100;61]; PDec (pid e);
   PStr [32;32]; PStr (text_of (msg e)); PStr [10]].

Fixpoint format_entries (fuel : nat) (freq s cap : Z) (j : journal) (st : Z * list Z)
    : option (Z * list Z) :=
  match fuel with
  | O => None
  | S fuel' =>
      if (s <? next_seq j) && (st.1 + 1 <? cap) then
        e ← aget (ring j) (s mod JOURNAL_CAPACITY);
        st ← foldM (put_piece cap) (entry_pieces freq e) st;
        format_entries fuel' freq (s + 1) cap j st
      else Some st
  end.

Definition journal_format_all (freq : Z) (buf : list Z) (cap : Z) (j : journal) : option (Z * list Z) :=
  let start := if JOURNAL_CAPACITY <? next_seq j then next_seq j - JOURNAL_CAPACITY else 0 in
  st ← foldM (put_piece cap) (header_pieces freq j) (0, buf);
  '(pos, b) ← format_entries (S (Z.to_nat (next_seq j - start))) freq start cap j st;
  b' ← aset b (if pos <? cap then pos else u64 (cap - 1)) 0;
  Some (pos, b').

(** ** The ring holds the last 256 records *)

Lemma copy_msg_from_spec src : Forall (fun c => c <> 0) src -> forall fuel (i : nat) dst,
  length dst = 96%nat -> (i < 96)%nat -> (96 - i <= fuel)%nat ->
  exists d, copy_msg_from fuel (Z.of_nat i) dst src = Some d /\ length d = 96%nat /\
    take i d = take i dst /\ text_of (drop i d) = take (95 - i) (drop i src).
Proof.
  intros Hnz. induction fuel as [|fuel IH]; intros i dst Hl Hi Hf; [lia|]. cbn [copy_msg_from].
  rewrite aget_nat. assert (aset dst (Z.of_nat i) 0 = Some (<[i := 0]> dst)) as Ez
    by (rewrite aset_ok, Nat2Z.id by lia; done).
  assert (text_of (drop i (<[i := 0]> dst)) = []) as Et
    by (rewrite (drop_S _ 0 i) by (apply list_lookup_insert_eq; lia); done).
  unfold JOURNAL_MSG_MAX. destruct (src !! i) as [c|] eqn:Ec.
  - case_if.
    + rewrite aset_ok, Nat2Z.id by lia. cbn [mbind option_bind].
      replace (Z.of_nat i + 1) with (Z.of_nat (S i)) by lia.
      destruct (IH (S i) (<[i := c]> dst)) as (d&->&Hd&Ht&Hx); [len|lia|lia|].
      exists d. split; [done|]. split; [done|].
      assert (d !! i = Some c) as Hdi.
      { rewrite <- (lookup_take_lt d (S i)), Ht, lookup_take_lt by lia. apply list_lookup_insert_eq. lia. }
      apply (f_equal (take i)) in Ht. rewrite !take_take, !Nat.min_l, take_insert_ge in Ht by lia.
      split; [done|]. rewrite (drop_S _ _ _ Hdi), (drop_S _ _ _ Ec). cbn [text_of].
      pose proof (Forall_lookup_1 _ _ _ _ Hnz Ec) as Hc0. cbn in Hc0.
      destruct (c =? 0) eqn:E0; [lia|]. rewrite Hx.
      by replace (95 - i)%nat with (S (95 - S i)) by lia.
    + exists (<[i := 0]> dst). split; [done|]. split; [len|]. split; [by apply take_insert_ge|].
      rewrite Et. by replace (95 - i)%nat with 0%nat by lia.
  - exists (<[i := 0]> dst). split; [done|]. split; [len|]. split; [by apply take_insert_ge|].
    rewrite Et, drop_ge by (by apply lookup_ge_None). by rewrite take_nil.
Qed.

Lemma copy_msg_spec dst src :
  length dst = 96%nat -> Forall (fun c => c <> 0) src ->
  exists d, copy_msg dst src = Some d /\ length d = 96%nat /\ text_of d = take 95 src.
Proof.
  intros Hl Hnz. destruct (copy_msg_from_spec src Hnz 96 0 dst) as (d&E&Hd&_&Ht); [done|lia|lia|].
  exists d. split; [exact E|]. split; [done|]. exact Ht.
Qed.

(** A call of [journal_log]. *)
Record call := mk_call { c_tick : Z; c_freq : Z; c_level : journal_level; c_pid : Z; c_text : list Z }.

Definition log_call (c : call) (j : journal) : option journal :=
  journal_log (c_tick c) (c_freq c) (c_level c) (c_pid c) (c_text c) j.

(** [e] is the record of call [c] with number [k]; the message is cut to 95
    bytes. *)
Definition records (boot k : Z) (c : call) (e : journal_entry) : Prop :=
  seq e = k /\ e_tick e = c_tick c /\ boot_id e = boot /\ hz e = c_freq c /\
  level e = level_num (c_level c) /\ pid e = c_pid c /\ text_of (msg e) = take 95 (c_text c).

Definition ring_ok (j : journal) : Prop :=
  length (ring j) = 256%nat /\ Forall (fun e => length (msg e) = 96%nat) (ring j).

(** The ring after the calls [cs]. *)
Definition holds (cs : list call) (j : journal) : Prop :=
  ring_ok j /\ next_seq j = Z.of_nat (length cs) /\
  (forall k c, cs !! k = Some c -> Z.of_nat (length cs) - 256 <= Z.of_nat k ->
     exists e, aget (ring j) (Z.of_nat k mod 256) = Some e /\ records (g_boot_id j) (Z.of_nat k) c e) /\
  persist_pending j = (if existsb (fun c => wants_persist (c_level c)) cs then 1 else 0).

Lemma holds_log cs j c :
  holds cs j -> Forall (fun x => x <> 0) (c_text c) -> Z.of_nat (length cs) < 2 ^ 64 - 1 ->
  exists j', log_call c j = Some j' /\ holds (cs ++ [c]) j' /\ g_boot_id j' = g_boot_id j.
Proof.
  intros ([Hl Hm]&Hn&Hk&Hp) Hc Hlt. unfold log_call, journal_log. rewrite Hn. unfold JOURNAL_CAPACITY.
  set (n := Z.of_nat (length cs)) in *. pose proof (Z.mod_pos_bound n 256 ltac:(lia)) as Hmod.
  destruct (aget_lt (ring j) (n mod 256)) as [e Ee]; [lia|]. rewrite Ee. cbn [mbind option_bind].
  assert (length (msg e) = 96%nat) as Hme.
  { unfold aget in Ee. destruct (0 <=? n mod 256); [|done]. by apply (Forall_lookup_1 _ _ _ _ Hm Ee). }
  destruct (copy_msg_spec (msg e) (c_text c) Hme Hc) as (m&->&Hlm&Ht). cbn [mbind option_bind].
  set (e' := mk_entry _ _ _ _ _ _ _).
  assert (aset (ring j) (n mod 256) e' = Some (<[Z.to_nat (n mod 256) := e']> (ring j))) as Ea
    by (apply aset_ok; lia).
  rewrite Ea. cbn [mbind option_bind]. eexists. split; [done|]. split; [|done].
  split; [split; [cbn; len|cbn; by apply Forall_insert]|]. cbn [next_seq ring g_boot_id persist_pending].
  rewrite length_app. cbn [length]. rewrite u64_id by lia. split; [lia|]. split.
  - intros k c' Hc' Hge. destruct (decide (k = length cs)) as [->|Hne].
    + rewrite lookup_app_r, Nat.sub_diag in Hc' by lia. injection Hc' as <-. fold n.
      exists e'. split; [by eapply aget_aset_eq|]. by split_and!.
    + assert (k < length cs)%nat by (apply lookup_lt_Some in Hc'; rewrite length_app in Hc'; cbn in Hc'; lia).
      rewrite lookup_app_l in Hc' by lia.
      destruct (Hk k c' Hc' ltac:(lia)) as (e1&He1&Hr). exists e1. split; [|done].
      rewrite <- He1. eapply aget_aset_ne; [exact Ea|]. intros Heq.
      assert ((n - Z.of_nat k) mod 256 = 0) as Hz
        by (rewrite Zminus_mod, Heq, Z.sub_diag; done).
      rewrite Z.mod_small in Hz by lia. lia.
  - rewrite existsb_app. cbn [existsb]. rewrite Hp. destruct (wants_persist (c_level c)).
    + by rewrite orb_true_r.
    + by rewrite !orb_false_r.
Qed.

Lemma holds_run cs : forall done j,
  holds done j -> Forall (fun c => Forall (fun x => x <> 0) (c_text c)) cs ->
  Z.of_nat (length done + length cs) < 2 ^ 64 ->
  exists j', foldM log_call cs j = Some j' /\ holds (done ++ cs) j' /\ g_boot_id j' = g_boot_id j.
Proof.
  induction cs as [|c cs IH]; intros done j Hj Hcs Hlen; cbn [foldM].
  { exists j. by rewrite app_nil_r. }
  apply Forall_cons in Hcs as [Hc Hcs]. cbn [length] in Hlen.
  destruct (holds_log done j c Hj Hc ltac:(lia)) as (j1&->&Hj1&Hb1). cbn [mbind option_bind].
  destruct (IH (done ++ [c]) j1 Hj1 Hcs) as (j2&E2&Hj2&Hb2); [rewrite length_app; cbn [length]; lia|].
  exists j2. rewrite <- app_assoc in Hj2. split; [done|]. split; [done|]. congruence.
Qed.

(** C35: From [journal_init], after any sequence of log calls, [journal_get]
    returns the record of call [k], with its message cut to 95 bytes, exactly
    when it is among the last 256; the total is the number of calls, and the
    persistence flag is set exactly when a call was above INFO. *)
Theorem journal_keeps_last_256 sample tick cs j k :
  ring_ok j -> Forall (fun c => Forall (fun x => x <> 0) (c_text c)) cs ->
  Z.of_nat (length cs) < 2 ^ 64 -> 0 <= k ->
  exists j', foldM log_call cs (journal_init sample tick j) = Some j' /\
    journal_total j' = Z.of_nat (length cs) /\
    journal_persist_pending j' = (if existsb (fun c => wants_persist (c_level c)) cs then 1 else 0) /\
    match aget cs k with
    | Some c =>
        if k <? Z.of_nat (length cs) - 256 then journal_get k j' = Some None
        else exists e, journal_get k j' = Some (Some e) /\ records (g_boot_id j') k c e
    | None => journal_get k j' = Some None
    end.
Proof.
  intros Hr Hcs Hlen Hk.
  destruct (holds_run cs [] (journal_init sample tick j)) as (j'&E&(Hok&Hn&Hh&Hp)&_); [|done|done|].
  { split; [done|]. split; [done|]. split; [|done]. intros i c Hc. by rewrite lookup_nil in Hc. }
  cbn [app] in *. exists j'. split; [done|]. split; [done|]. split; [done|].
  unfold journal_get. rewrite Hn. unfold JOURNAL_CAPACITY. destruct (aget cs k) as [c|] eqn:Ec.
  - pose proof (aget_Some_lt _ _ _ Ec). destruct (Z.leb_spec (Z.of_nat (length cs)) k); [lia|].
    destruct (k <? Z.of_nat (length cs) - 256) eqn:E1; bools.
    + destruct (Z.ltb_spec 256 (Z.of_nat (length cs))); [done|lia].
    + rewrite andb_false_r. rewrite <- (Z2Nat.id k) in Ec by lia. rewrite aget_nat in Ec.
      destruct (Hh _ _ Ec ltac:(lia)) as (e&He&Hrec). rewrite Z2Nat.id in He, Hrec by lia.
      rewrite He. by exists e.
  - destruct (Z.leb_spec (Z.of_nat (length cs)) k); [done|].
    destruct (aget_lt cs k) as [c Hc]; [lia|]. by rewrite Hc in Ec.
Qed.

Lemma journal_keeps_last_256_witness :
  exists j', foldM log_call [mk_call 5 100 JOURNAL_INFO 3 [104; 105]; mk_call 6 100 JOURNAL_APP 4 [120]]
      (journal_init 0 0 (mk_journal (replicate 256 (mk_entry 0 0 0 0 0 0 (replicate 96 0))) 9 9 9)) = Some j' /\
    journal_persist_pending j' = 1 /\
    exists e, journal_get 1 j' = Some (Some e) /\ text_of (msg e) = [120].
Proof.
  destruct (journal_keeps_last_256 0 0
    [mk_call 5 100 JOURNAL_INFO 3 [104; 105]; mk_call 6 100 JOURNAL_APP 4 [120]]
    (mk_journal (replicate 256 (mk_entry 0 0 0 0 0 0 (replicate 96 0))) 9 9 9) 1) as (j'&E&_&Hp&H).
  - split; [reflexivity|]. apply Forall_replicate. reflexivity.
  - repeat (constructor; [repeat (constructor; [cbn; lia|]); constructor|]). constructor.
  - cbn. lia.
  - lia.
  - exists j'. split; [exact E|]. split; [exact Hp|]. cbn in H. destruct H as (e&He&Hr).
    exists e. split; [exact He|]. apply Hr.
Defined.

(** ** Rendering *)

Definition dec_text (v : Z) : list Z := if v =? 0 then [48] else rev (dec_rev 24 v).
Definition hex_text (v : Z) : list Z := if v =? 0 then [48] else rev (hex_rev 16 v).

(** The text of a piece when there is room. *)
Definition piece_text (p : piece) : list Z :=
  match p with PStr s => s | PDec v => dec_text v | PHex v => [48; 120] ++ hex_text v end.

(** [st'] extends the text [t] of [st] by [s], or by a prefix of [s] when the
    buffer of [cap] bytes is full; nothing else changes. *)
Definition extends (cap : Z) (st st' : Z * list Z) (s : list Z) : Prop :=
  length st'.2 = length st.2 /\ st.1 <= st'.1 < cap /\
  take (Z.to_nat st.1) st'.2 = take (Z.to_nat st.1) st.2 /\
  drop (Z.to_nat cap) st'.2 = drop (Z.to_nat cap) st.2 /\
  (st.1 + Z.of_nat (length s) < cap ->
     st'.1 = st.1 + Z.of_nat (length s) /\
     take (Z.to_nat st'.1) st'.2 = take (Z.to_nat st.1) st.2 ++ s).

Definition room (cap : Z) (st : Z * list Z) : Prop :=
  0 <= st.1 < cap /\ cap <= Z.of_nat (length st.2).

Lemma extends_trans cap st1 st2 st3 s1 s2 :
  room cap st1 -> extends cap st1 st2 s1 -> extends cap st2 st3 s2 -> extends cap st1 st3 (s1 ++ s2).
Proof.
  intros [Hp _] (L1&P1&T1&D1&F1) (L2&P2&T2&D2&F2). split_and!; try congruence; try lia.
  - apply (f_equal (take (Z.to_nat st1.1))) in T2. rewrite !take_take, !Nat.min_l in T2 by lia. congruence.
  - intros Hlt. rewrite length_app in *. destruct F1 as [E1 G1]; [lia|]. destruct F2 as [E2 G2]; [lia|].
    split; [lia|]. rewrite G2, G1. by rewrite app_assoc.
Qed.

Lemma extends_refl cap st : room cap st -> extends cap st st [].
Proof. intros [? ?]. split_and!; try done; try lia. intros _. rewrite app_nil_r. cbn. split; [lia|done]. Qed.

Lemma put_bytes_spec cap s : forall b pos,
  room cap (pos, b) -> exists st', put_bytes b pos cap s = Some st' /\ extends cap (pos, b) st' s.
Proof.
  induction s as [|c s IH]; intros b pos Hr; cbn [put_bytes].
  { eexists. split; [done|]. by apply extends_refl. }
  pose proof Hr as [Hp Hl]. cbn [fst snd] in *. case_if.
  - rewrite aset_ok by lia. cbn [mbind option_bind].
    destruct (IH (<[Z.to_nat pos := c]> b) (pos + 1)) as (st'&E&Hx).
    { split; cbn [fst snd]; [lia|len]. }
    exists st'. split; [done|]. change (c :: s) with ([c] ++ s). eapply extends_trans; [exact Hr| |exact Hx].
    split_and!; cbn [fst snd length]; try lia; [len|by apply take_insert_ge|apply drop_insert_lt; lia|].
    intros _. split; [lia|]. replace (Z.to_nat (pos + 1)) with (S (Z.to_nat pos)) by lia.
    rewrite (take_S_r _ _ c) by (apply list_lookup_insert_eq; lia). by rewrite take_insert_ge by lia.
  - eexists. split; [done|]. split_and!; cbn [fst snd length]; try done; lia.
Qed.

Lemma extends_room cap st st' s : room cap st -> extends cap st st' s -> room cap st'.
Proof. intros [? ?] (?&?&_). split; lia. Qed.

Lemma put_piece_spec cap p st :
  room cap st -> exists st', put_piece cap p st = Some st' /\ extends cap st st' (piece_text p).
Proof.
  intros Hr. destruct st as [pos b]. destruct p as [s|v|v]; cbn [put_piece piece_text].
  - by apply put_bytes_spec.
  - unfold put_dec, dec_text. case_if; by apply put_bytes_spec.
  - unfold put_hex. pose proof Hr as [Hp Hl]. cbn [fst snd] in *.
    assert (forall pos b, room cap (pos, b) ->
      exists st', (if v =? 0 then put_bytes b pos cap [48] else put_bytes b pos cap (rev (hex_rev 16 v))) = Some st' /\
        extends cap (pos, b) st' (hex_text v)) as Hd
      by (intros pos0 b0 Hr0; unfold hex_text; destruct (v =? 0); exact (put_bytes_spec _ _ _ _ Hr0)).
    destruct (pos + 2 <? cap) eqn:E; bools.
    + rewrite aset_ok by lia. cbn [mbind option_bind]. rewrite aset_ok by (rewrite length_insert; lia). cbn [mbind option_bind].
      assert (extends cap (pos, b) (pos + 2, <[Z.to_nat (pos + 1) := 120]> (<[Z.to_nat pos := 48]> b)) [48; 120]) as Hx.
      { split_and!; cbn [fst snd length]; try lia.
        - by rewrite !length_insert.
        - by rewrite !take_insert_ge by lia.
        - by rewrite !drop_insert_lt by lia.
        - intros _. split; [lia|]. replace (Z.to_nat (pos + 2)) with (S (Z.to_nat (pos + 1))) by lia.
          rewrite (take_S_r _ _ 120) by (apply list_lookup_insert_eq; rewrite length_insert; lia).
          rewrite take_insert_ge by lia. replace (Z.to_nat (pos + 1)) with (S (Z.to_nat pos)) by lia.
          rewrite (take_S_r _ _ 48) by (apply list_lookup_insert_eq; lia).
          rewrite take_insert_ge by lia. by rewrite <- app_assoc. }
      destruct (Hd _ _ (extends_room _ _ _ _ Hr Hx)) as (st'&E'&Hx'). exists st'. split; [done|].
      by eapply extends_trans.
    + cbn [mbind option_bind]. destruct (Hd pos b Hr) as (st'&E'&(L&P&T&D&_)). exists st'. split; [done|].
      split_and!; try done; cbn [fst snd] in *; try lia. rewrite length_app. cbn [length]. lia.
Qed.

Lemma put_pieces_spec cap ps : forall st,
  room cap st -> exists st', foldM (put_piece cap) ps st = Some st' /\
    extends cap st st' (concat (piece_text <$> ps)).
Proof.
  induction ps as [|p ps IH]; intros st Hr; cbn [foldM fmap list_fmap concat].
  { eexists. split; [done|]. by apply extends_refl. }
  destruct (put_piece_spec cap p st Hr) as (st1&->&Hx). cbn [mbind option_bind].
  destruct (IH st1 (extends_room _ _ _ _ Hr Hx)) as (st2&->&Hx2). exists st2. split; [done|].
  by eapply extends_trans.
Qed.

(** Text of the records [s] to [s + n - 1]. *)
Fixpoint entries_text (freq s : Z) (n : nat) (j : journal) : list Z :=
  match n with
  | O => []
  | S n' =>
      match aget (ring j) (s mod JOURNAL_CAPACITY) with
      | Some e => concat (piece_text <$> entry_pieces freq e) ++ entries_text freq (s + 1) n' j
      | None => []
      end
  end.

Lemma format_entries_spec freq cap j : ring_ok j -> forall n fuel s st,
  room cap st -> next_seq j - s = Z.of_nat n -> (n < fuel)%nat ->
  exists st', format_entries fuel freq s cap j st = Some st' /\
    extends cap st st' (entries_text freq s n j).
Proof.
  intros [Hl _]. induction n as [|n IH]; intros [|fuel] s st Hr Hn Hf; try lia; cbn [format_entries entries_text].
  { destruct (Z.ltb_spec s (next_seq j)); [lia|]. cbn [andb]. eexists. split; [done|]. by apply extends_refl. }
  destruct (Z.ltb_spec s (next_seq j)); [|lia]. cbn [andb].
  pose proof (Z.mod_pos_bound s JOURNAL_CAPACITY ltac:(done)) as Hm. unfold JOURNAL_CAPACITY in *.
  destruct (aget_lt (ring j) (s mod 256)) as [e Ee]; [lia|]. rewrite Ee.
  destruct (st.1 + 1 <? cap) eqn:E; bools.
  - cbn [mbind option_bind]. destruct (put_pieces_spec cap (entry_pieces freq e) st Hr) as (st1&->&Hx).
    cbn [mbind option_bind].
    destruct (IH fuel (s + 1) st1 (extends_room _ _ _ _ Hr Hx)) as (st2&->&Hx2); [lia|lia|].
    exists st2. split; [done|]. by eapply extends_trans.
  - eexists. split; [done|]. destruct Hr. split_and!; try done; try lia.
    intros Hlt. exfalso. rewrite length_app in Hlt. unfold entry_pieces in Hlt.
    cbn [app fmap list_fmap concat piece_text] in Hlt. cbn [length] in Hlt. lia.
Qed.

(** The whole rendering. *)
Definition journal_text (freq : Z) (j : journal) : list Z :=
  let start := if JOURNAL_CAPACITY <? next_seq j then next_seq j - JOURNAL_CAPACITY else 0 in
  concat (piece_text <$> header_pieces freq j) ++ entries_text freq start (Z.to_nat (next_seq j - start)) j.

(** [journal_format_all] stays inside the first [cap] bytes of its buffer
    and terminates the text; when the rendering of the header and of the records
    in the ring is shorter than [cap], it is stored completely. *)
Theorem journal_format_bounded freq buf cap j :
  ring_ok j -> 0 <= next_seq j < 2 ^ 64 -> 0 < cap <= Z.of_nat (length buf) -> cap < 2 ^ 64 ->
  exists pos b, journal_format_all freq buf cap j = Some (pos, b) /\
    0 <= pos < cap /\ length b = length buf /\ aget b pos = Some 0 /\
    drop (Z.to_nat cap) b = drop (Z.to_nat cap) buf /\
    (Z.of_nat (length (journal_text freq j)) < cap ->
       pos = Z.of_nat (length (journal_text freq j)) /\ take (Z.to_nat pos) b = journal_text freq j).
Proof.
  intros Hok Hseq Hcap H64. unfold journal_format_all, journal_text.
  set (start := if JOURNAL_CAPACITY <? next_seq j then next_seq j - JOURNAL_CAPACITY else 0). assert (0 <= start <= next_seq j) as Hs.
  { unfold start, JOURNAL_CAPACITY. case_if; lia. }
  assert (room cap (0, buf)) as Hr by (split; cbn [fst snd]; lia).
  destruct (put_pieces_spec cap (header_pieces freq j) _ Hr) as (st1&->&Hx1). cbn [mbind option_bind].
  destruct (format_entries_spec freq cap j Hok (Z.to_nat (next_seq j - start))
    (S (Z.to_nat (next_seq j - start))) start st1) as (st2&->&Hx2);
    [by eapply extends_room|lia|lia|].
  pose proof (extends_trans _ _ _ _ _ _ Hr Hx1 Hx2) as (L&P&_&D&F). cbn [mbind option_bind fst snd] in *.
  destruct st2 as [pos b]. cbn [fst snd] in *. destruct (Z.ltb_spec pos cap); [|lia].
  assert (aset b pos 0 = Some (<[Z.to_nat pos := 0]> b)) as Ea by (apply aset_ok; lia).
  rewrite Ea. cbn [mbind option_bind]. do 2 eexists. split; [done|]. split; [lia|]. split; [len|].
  split; [by eapply aget_aset_eq|]. split; [rewrite drop_insert_lt by lia; done|].
  intros Hlt. destruct F as [E1 E2]; [lia|]. split; [lia|].
  rewrite take_insert_ge by lia. rewrite E2. done.
Qed.

Definition demo_journal : journal :=
  mk_journal (<[0%nat := mk_entry 0 250 5 100 1 7 ([111; 107] ++ replicate 94 0)]>
                (replicate 256 (mk_entry 0 0 0 0 0 0 (replicate 96 0)))) 1 5 1.

Lemma journal_format_bounded_witness :
  exists pos b, journal_format_all 100 (replicate 200 255) 160 demo_journal = Some (pos, b) /\
    take (Z.to_nat pos) b = journal_text 100 demo_journal /\ drop 160 b = replicate 40 255.
Proof.
  destruct (journal_format_bounded 100 (replicate 200 255) 160 demo_journal)
    as (pos&b&E&_&_&_&D&F).
  - split; [reflexivity|]. apply Forall_insert; [|reflexivity]. apply Forall_replicate. reflexivity.
  - cbn. lia.
  - cbn. lia.
  - lia.
  - exists pos, b. split; [exact E|]. split; [|exact D]. apply F. vm_compute. reflexivity.
Defined.

(** ** Numbers *)

Definition dec_value (l : list Z) : Z := fold_left (fun a d => a * 10 + (d - 48)) l 0.
Definition hex_digit_value (d : Z) : Z := if d <? 58 then d - 48 else d - 87.
Definition hex_value (l : list Z) : Z := fold_left (fun a d => a * 16 + hex_digit_value d) l 0.

Lemma dec_rev_value n v :
  0 <= v < 10 ^ Z.of_nat n -> foldr (fun d a => a * 10 + (d - 48)) 0 (dec_rev n v) = v.
Proof.
  revert v. induction n as [|n IH]; intros v Hv; cbn [dec_rev].
  { change (10 ^ Z.of_nat 0) with 1 in Hv. cbn. lia. }
  case_if; [cbn; lia|]. cbn [foldr]. rewrite IH; [dlia|].
  rewrite Nat2Z.inj_succ, Z.pow_succ_r in Hv by lia. split; [apply Z.div_pos; lia|].
  apply Z.div_lt_upper_bound; lia.
Qed.

Lemma hex_digit_back x : 0 <= x < 16 -> hex_digit_value (hex_digit x) = x.
Proof. intros. unfold hex_digit_value, hex_digit. repeat case_if; lia. Qed.

Lemma hex_rev_value n v :
  0 <= v < 16 ^ Z.of_nat n -> foldr (fun d a => a * 16 + hex_digit_value d) 0 (hex_rev n v) = v.
Proof.
  revert v. induction n as [|n IH]; intros v Hv; cbn [hex_rev].
  { change (16 ^ Z.of_nat 0) with 1 in Hv. cbn. lia. }
  case_if; [cbn; lia|]. cbn [foldr]. change 15 with (Z.ones 4).
  rewrite Z.land_ones, Z.shiftr_div_pow2 by lia. change (2 ^ 4) with 16.
  rewrite IH, hex_digit_back; [dlia|dlia|].
  rewrite Nat2Z.inj_succ, Z.pow_succ_r in Hv by lia. split; [apply Z.div_pos; lia|].
  apply Z.div_lt_upper_bound; lia.
Qed.

(** The digits [put_dec] and [put_hex] print for a 64-bit value read back as
    that value. *)
Theorem journal_numbers_roundtrip v :
  0 <= v < 2 ^ 64 -> dec_value (dec_text v) = v /\ hex_value (hex_text v) = v.
Proof.
  intros Hv. unfold dec_value, dec_text, hex_value, hex_text.
  destruct (v =? 0) eqn:E; bools; [subst; done|]. rewrite <- !fold_left_rev_right, !rev_involutive. split.
  - apply dec_rev_value. change (10 ^ Z.of_nat 24) with 1000000000000000000000000. lia.
  - apply hex_rev_value. change (16 ^ Z.of_nat 16) with (2 ^ 64). lia.
Qed.

Lemma journal_numbers_roundtrip_witness :
  dec_text 65535 = [54; 53; 53; 51; 53] /\ hex_text 65535 = [102; 102; 102; 102] /\
  dec_value (dec_text 65535) = 65535 /\ hex_value (hex_text 65535) = 65535.
Proof.
  split; [reflexivity|]. split; [reflexivity|]. apply journal_numbers_roundtrip. lia.
Defined.

End Journal.
