(* ===== verification/Clipboard.v ===== *)
(** * Clipboard: the system clipboard (kernel/src/clipboard.c)

    One buffer of 64 KiB and the length of its contents. *)

From Stdlib Require Import ZArith Lia Bool ZifyBool.
From stdpp Require Import base numbers option list list_numbers.
From S2P Require Import Prelude.

Open Scope Z_scope.

Module Clipboard.

Definition CLIPBOARD_MAX_BYTES : Z := 65536.

Record clipboard := mk_clip { g_buf : list Z; g_len : Z }.

(** [data] is the memory the caller's pointer refers to, [None] for NULL. *)
Definition clipboard_set (data : option (list Z)) (len : Z) (c : clipboard) : option (Z * clipboard) :=
  match data with
  | None => Some (-1, c)
  | Some d =>
      if CLIPBOARD_MAX_BYTES <? len then Some (-1, c)
      else
        src ← slice d 0 len;
        b ← splice (g_buf c) 0 src;
        Some (0, mk_clip b len)
  end.

Definition clipboard_get (buf : option (list Z)) (cap : Z) (c : clipboard) : option (Z * option (list Z)) :=
  match buf with
  | None => Some (0, None)
  | Some b =>
      if cap =? 0 then Some (0, Some b)
      else
        let n := if g_len c <? cap - 1 then g_len c else cap - 1 in
        src ← slice (g_buf c) 0 n;
        b ← splice b 0 src;
        b ← aset b n 0;
        Some (n, Some b)
  end.

Definition clipboard_len (c : clipboard) : Z := g_len c.

Definition clip_ok (c : clipboard) : Prop :=
  Z.of_nat (length (g_buf c)) = CLIPBOARD_MAX_BYTES /\ 0 <= g_len c <= CLIPBOARD_MAX_BYTES.

Lemma clipboard_set_spec d len c :
  clip_ok c -> 0 <= len <= CLIPBOARD_MAX_BYTES -> len <= Z.of_nat (length d) ->
  exists c', clipboard_set (Some d) len c = Some (0, c') /\ clip_ok c' /\ g_len c' = len /\
    slice (g_buf c') 0 len = Some (take (Z.to_nat len) d).
Proof.
  intros [Hb Hl] Hlen Hd. unfold clipboard_set. destruct (Z.ltb_spec CLIPBOARD_MAX_BYTES len); [lia|].
  destruct (slice d 0 len) as [src|] eqn:Es; [|rewrite slice_ok in Es by lia; done].
  pose proof (slice_length _ _ _ _ Es) as Hsl. cbn [mbind option_bind].
  destruct (splice (g_buf c) 0 src) as [b|] eqn:Eb; [|rewrite splice_ok in Eb by lia; done].
  cbn [mbind option_bind]. eexists. split; [done|]. pose proof (splice_length _ _ _ _ Eb) as Hbl.
  split; [split; cbn [g_buf g_len]; lia|]. split; [done|]. cbn [g_buf].
  pose proof (slice_splice_eq _ _ _ _ Eb) as Hs. rewrite Hsl in Hs. rewrite Hs.
  apply slice_Some in Es as (_&_&_&->). change (Z.to_nat 0) with 0%nat. by rewrite drop_0.
Qed.

(** What is put on the clipboard is what is got from it, cut to the reader's
    capacity less one and terminated; the length is that of the data, and bytes
    past the terminator are left alone. *)
Theorem clipboard_roundtrip d len buf cap c :
  clip_ok c -> 0 <= len <= CLIPBOARD_MAX_BYTES -> len <= Z.of_nat (length d) ->
  0 < cap <= Z.of_nat (length buf) ->
  exists c' b, clipboard_set (Some d) len c = Some (0, c') /\ clipboard_len c' = len /\
    clipboard_get (Some buf) cap c' = Some (Z.min len (cap - 1), Some b) /\
    b = take (Z.to_nat (Z.min len (cap - 1))) d ++ [0] ++ drop (Z.to_nat (Z.min len (cap - 1)) + 1) buf.
Proof.
  intros Hc Hlen Hd Hcap. destruct (clipboard_set_spec d len c Hc Hlen Hd) as (c'&E&[Hb Hl]&El&Hs).
  pose proof (slice_Some _ _ _ _ Hs) as (_&_&_&Ht). change (Z.to_nat 0) with 0%nat in Ht. rewrite drop_0 in Ht.
  exists c'. unfold clipboard_get. destruct (cap =? 0) eqn:E0; [lia|]. rewrite El.
  replace (if len <? cap - 1 then len else cap - 1) with (Z.min len (cap - 1)) by (case_if; lia).
  set (n := Z.min len (cap - 1)). rewrite slice_ok by lia. cbn [mbind option_bind].
  change (Z.to_nat 0) with 0%nat. rewrite drop_0.
  replace (take (Z.to_nat n) (g_buf c')) with (take (Z.to_nat n) d).
  2:{ apply (f_equal (take (Z.to_nat n))) in Ht. rewrite !take_take, !Nat.min_l in Ht by lia. done. }
  assert (length (take (Z.to_nat n) d) = Z.to_nat n) as Hn by (rewrite length_take; lia).
  rewrite splice_ok by lia. cbn [mbind option_bind]. change (Z.to_nat 0) with 0%nat.
  rewrite take_0, app_nil_l, Nat.add_0_l, Hn.
  rewrite aset_ok by (rewrite length_app, length_drop, Hn; lia). cbn [mbind option_bind].
  eexists. split; [done|]. split; [done|]. split; [done|].
  rewrite insert_app_r_alt by lia. rewrite Hn, Nat.sub_diag. f_equal.
  destruct (drop (Z.to_nat n) buf) as [|x rest] eqn:Er.
  - apply (f_equal length) in Er. rewrite length_drop in Er. cbn in Er. lia.
  - cbn. f_equal. rewrite Nat.add_1_r. replace (S (Z.to_nat n)) with (Z.to_nat n + 1)%nat by lia.
    rewrite <- drop_drop, Er. done.
Qed.

Lemma clipboard_roundtrip_witness :
  exists c' b, clipboard_set (Some [104; 101; 121]) 3
      (mk_clip (replicate (Z.to_nat CLIPBOARD_MAX_BYTES) 0) 0) = Some (0, c') /\
    clipboard_get (Some [9; 9; 9; 9; 9; 9]) 3 c' = Some (2, Some b) /\ b = [104; 101; 0; 9; 9; 9].
Proof.
  destruct (clipboard_roundtrip [104; 101; 121] 3 [9; 9; 9; 9; 9; 9] 3
    (mk_clip (replicate (Z.to_nat CLIPBOARD_MAX_BYTES) 0) 0)) as (c'&b&E&_&Eg&Eb).
  - split; [vm_compute; reflexivity|]. cbn [g_len]. unfold CLIPBOARD_MAX_BYTES. lia.
  - unfold CLIPBOARD_MAX_BYTES. lia.
  - cbn. lia.
  - cbn. lia.
  - exists c', b. split; [exact E|]. split; [exact Eg|exact Eb].
Defined.

End Clipboard.
