(* ===== verification/Settings.v ===== *)
(** * Settings: the settings file (kernel/src/settings.c)

    Four numbers kept as "key=value" lines in /etc/vibeos.conf.  What the virtual
    file system answers is an argument of [settings_init]; what is written is part
    of the result of [settings_save].  Strings are the bytes before their NUL. *)

From Stdlib Require Import ZArith Lia Bool ZifyBool.
From stdpp Require Import base numbers option list list_numbers.
From S2P Require Import Prelude.

Open Scope Z_scope.

Module Settings.

(** [struct os_settings]; the magic, version and reserved fields are not used by
    settings.c. *)
Record os_settings := mk_settings {
  audio_sample_rate : Z; audio_buffer_size : Z; dma_buffer_count : Z; master_volume : Z }.

(** "sample_rate", "buffer_size", "buffer_count", "master_vol". *)
Definition k_rate : list Z := [115;97;109;112;108;101;95;114;97;116;101].
Definition k_size : list Z := [98;117;102;102;101;114;95;115;105;122;101].
Definition k_count : list Z := [98;117;102;102;101;114;95;99;111;117;110;116].
Definition k_vol : list Z := [109;97;115;116;101;114;95;118;111;108].

(** ** Text to settings *)

(** The part before the first [c] and the part after it. *)
Fixpoint my_strchr (s : list Z) (c : Z) : option (list Z * list Z) :=
  match s with
  | [] => None
  | x :: s' =>
      if x =? c then Some ([], s')
      else match my_strchr s' c with Some (a, b) => Some (x :: a, b) | None => None end
  end.

(** Value of the leading digits; [int] arithmetic. *)
Fixpoint my_atoi_from (val : Z) (s : list Z) : option Z :=
  match s with
  | x :: s' =>
      if (48 <=? schar x) && (schar x <=? 57) then
        v10 ← i32 (val * 10);
        v ← i32 (v10 + (x - 48));
        my_atoi_from v s'
      else Some val
  | [] => Some val
  end.

Definition my_atoi (s : list Z) : option Z := my_atoi_from 0 s.

(** The tokens successive calls of [my_strtok] return for delimiter [d]. *)
Fixpoint my_strtok_from (tok : list Z) (s : list Z) (d : Z) : list (list Z) :=
  match s with
  | [] => match tok with [] => [] | _ => [tok] end
  | x :: s' =>
      if x =? d then
        match tok with [] => my_strtok_from [] s' d | _ => tok :: my_strtok_from [] s' d end
      else my_strtok_from (tok ++ [x]) s' d
  end.

Definition my_strtok (s : list Z) (d : Z) : list (list Z) := my_strtok_from [] s d.

Definition same (a b : list Z) : bool := bool_decide (a = b).

Definition parse_line (line : list Z) (g : os_settings) : option os_settings :=
  match my_strchr line 61 with
  | None => Some g
  | Some (key, val) =>
      if same key k_rate then
        v ← my_atoi val;
        Some (mk_settings (u32 v) (audio_buffer_size g) (dma_buffer_count g) (master_volume g))
      else if same key k_size then
        v ← my_atoi val;
        Some (mk_settings (audio_sample_rate g) (u32 v) (dma_buffer_count g) (master_volume g))
      else if same key k_count then
        v ← my_atoi val;
        Some (mk_settings (audio_sample_rate g) (audio_buffer_size g) (u32 v) (master_volume g))
      else if same key k_vol then
        v ← my_atoi val;
        Some (mk_settings (audio_sample_rate g) (audio_buffer_size g) (dma_buffer_count g) (u32 v))
      else Some g
  end.

(** Bytes before the first NUL. *)
Fixpoint text_of (l : list Z) : list Z :=
  match l with
  | [] => []
  | c :: l' => if c =? 0 then [] else c :: text_of l'
  end.

Definition parse_settings (buf : list Z) (g : os_settings) : option os_settings :=
  foldM parse_line (my_strtok (text_of buf) 10) g.

(** ** Settings to text *)

(** Digits, least significant first. *)
Fixpoint digits_rev (fuel : nat) (val : Z) : list Z :=
  match fuel with
  | O => []
  | S fuel' => if 0 <? val then (val mod 10 + 48) :: digits_rev fuel' (val / 10) else []
  end.

(** A 32-bit value has at most ten digits. *)
Definition int_to_str (val : Z) : list Z :=
  if val =? 0 then [48] else rev (digits_rev 10 val).

(** Store the bytes that fit below [size]. *)
Fixpoint put_all (buf : list Z) (pos size : Z) (s : list Z) : option (Z * list Z) :=
  match s with
  | [] => Some (pos, buf)
  | c :: s' => if pos <? size then b ← aset buf pos c; put_all b (pos + 1) size s' else Some (pos, buf)
  end.

Definition write_line (size : Z) (key : list Z) (val : Z) (st : Z * list Z) : option (Z * list Z) :=
  let '(pos, buf) := st in
  if size <=? pos then Some (pos, buf)
  else
    '(pos, buf) ← put_all buf pos size key;
    '(pos, buf) ← put_all buf pos size [61];
    '(pos, buf) ← put_all buf pos size (int_to_str val);
    put_all buf pos size [10].

Definition format_settings (g : os_settings) (buf : list Z) (size : Z) : option (list Z) :=
  st ← write_line size k_rate (audio_sample_rate g) (0, buf);
  st ← write_line size k_size (audio_buffer_size g) st;
  st ← write_line size k_count (dma_buffer_count g) st;
  '(pos, buf) ← write_line size k_vol (master_volume g) st;
  if pos <? size then aset buf pos 0 else Some buf.

(** The bytes handed to [vfs_write_all]; [buf] is the stack buffer of 512
    bytes, in which [strlen] looks for a NUL. *)
Definition settings_save (g : os_settings) (buf : list Z) : option (list Z) :=
  b ← format_settings g buf 512;
  if existsb (fun c => c =? 0) b then Some (text_of b) else None.

(** What the virtual file system answers for the settings file: the return value
    of [vfs_stat_path] with the size, and the bytes [vfs_read] delivers. *)
Record vfs_answer := mk_answer { stat_result : Z; stat_size : Z; file_bytes : list Z }.

Definition defaults : os_settings := mk_settings 48000 512 32 100.

(** Result: the settings and, when the defaults are installed, the file text. *)
Definition settings_init (a : vfs_answer) (stack : list Z) (g : os_settings)
    : option (os_settings * option (list Z)) :=
  if (stat_result a =? 0) && (0 <? stat_size a) && (Z.of_nat (length (file_bytes a)) =? stat_size a) then
    g' ← parse_settings (file_bytes a) g;
    Some (g', None)
  else
    text ← settings_save defaults stack;
    Some (defaults, Some text).

(** ** Round trip *)

Lemma digits_rev_spec fuel v :
  0 <= v < 10 ^ Z.of_nat fuel ->
  foldr (fun d a => a * 10 + (d - 48)) 0 (digits_rev fuel v) = v /\
  Forall (fun d => 48 <= d <= 57) (digits_rev fuel v) /\ (length (digits_rev fuel v) <= fuel)%nat.
Proof.
  revert v. induction fuel as [|fuel IH]; intros v Hv; cbn [digits_rev].
  { change (10 ^ Z.of_nat 0) with 1 in Hv. cbn. split; [lia|]. by split; [constructor|]. }
  case_if; [|cbn; split; [lia|]; split; [constructor|lia]].
  rewrite Nat2Z.inj_succ, Z.pow_succ_r in Hv by lia.
  destruct (IH (v / 10)) as (E&F&L).
  { split; [apply Z.div_pos; lia|]. apply Z.div_lt_upper_bound; lia. }
  cbn [foldr length]. rewrite E. split; [dlia|]. split; [|lia]. constructor; [dlia|done].
Qed.

(** The printed number: digits only, at most ten, with the value [v]. *)
Lemma int_to_str_spec v :
  0 <= v < 2 ^ 32 ->
  fold_left (fun a d => a * 10 + (d - 48)) (int_to_str v) 0 = v /\
  Forall (fun d => 48 <= d <= 57) (int_to_str v) /\ (1 <= length (int_to_str v) <= 10)%nat.
Proof.
  intros Hv. unfold int_to_str. destruct (v =? 0) eqn:E; bools.
  { subst. split; [done|]. split; [|cbn; lia]. by repeat constructor. }
  destruct (digits_rev_spec 10 v) as (E1&F&L); [change (10 ^ Z.of_nat 10) with 10000000000; lia|].
  rewrite <- fold_left_rev_right, rev_involutive, length_rev. split; [done|].
  split; [by apply Forall_rev|]. split; [|done]. cbn [digits_rev]. destruct (0 <? v) eqn:E0; [cbn; lia|lia].
Qed.

Lemma atoi_mono s : forall a,
  0 <= a -> Forall (fun d => 48 <= d <= 57) s -> a <= fold_left (fun a d => a * 10 + (d - 48)) s a.
Proof.
  induction s as [|d s IH]; intros a Ha Hs; cbn [fold_left]; [lia|].
  apply Forall_cons in Hs as [Hd Hs]. specialize (IH (a * 10 + (d - 48)) ltac:(lia) Hs). lia.
Qed.

Lemma atoi_digits s : forall a,
  0 <= a -> Forall (fun d => 48 <= d <= 57) s ->
  fold_left (fun a d => a * 10 + (d - 48)) s a <= INT_MAX ->
  my_atoi_from a s = Some (fold_left (fun a d => a * 10 + (d - 48)) s a).
Proof.
  induction s as [|d s IH]; intros a Ha Hs Hmax; cbn [fold_left my_atoi_from] in *; [done|].
  apply Forall_cons in Hs as [Hd Hs]. unfold schar. destruct (Z.ltb_spec d 128); [|lia].
  destruct ((48 <=? d) && (d <=? 57)) eqn:E; [|lia].
  pose proof (atoi_mono s (a * 10 + (d - 48)) ltac:(lia) Hs).
  rewrite !i32_ok by (unfold INT_MIN, INT_MAX in *; lia). cbn [mbind option_bind].
  rewrite i32_ok by (unfold INT_MIN, INT_MAX in *; lia). cbn [mbind option_bind].
  apply IH; [lia|done|done].
Qed.

Lemma strtok_line tok line rest :
  Forall (fun c => c <> 10) line -> tok ++ line <> [] ->
  my_strtok_from tok (line ++ 10 :: rest) 10 = (tok ++ line) :: my_strtok_from [] rest 10.
Proof.
  revert tok. induction line as [|c line IH]; intros tok Hl Hne; cbn [app my_strtok_from].
  - rewrite app_nil_r in *. by destruct tok.
  - apply Forall_cons in Hl as [Hc Hl]. rewrite (proj2 (Z.eqb_neq c 10)) by done.
    rewrite IH; [by rewrite <- app_assoc|done|]. by destruct tok.
Qed.

Lemma strchr_key key val : Forall (fun c => c <> 61) key -> my_strchr (key ++ 61 :: val) 61 = Some (key, val).
Proof.
  induction 1 as [|c key Hc _ IH]; [done|]. cbn [app my_strchr].
  rewrite (proj2 (Z.eqb_neq c 61)) by done. by rewrite IH.
Qed.

(** The text of one line. *)
Definition line_text (key : list Z) (v : Z) : list Z := key ++ 61 :: int_to_str v.

Definition settings_text (g : os_settings) : list Z :=
  line_text k_rate (audio_sample_rate g) ++ 10 :: line_text k_size (audio_buffer_size g) ++ 10 ::
  line_text k_count (dma_buffer_count g) ++ 10 :: line_text k_vol (master_volume g) ++ [10].

Lemma put_all_spec size s : forall buf (pos : nat),
  Z.of_nat (pos + length s) <= size -> size <= Z.of_nat (length buf) ->
  exists b, put_all buf (Z.of_nat pos) size s = Some (Z.of_nat (pos + length s), b) /\
    length b = length buf /\ take (pos + length s) b = take pos buf ++ s.
Proof.
  induction s as [|c s IH]; intros buf pos Hp Hb; cbn [put_all length] in *.
  { exists buf. rewrite Nat.add_0_r, app_nil_r. done. }
  destruct (Z.ltb_spec (Z.of_nat pos) size); [|lia]. rewrite aset_ok, Nat2Z.id by lia. cbn [mbind option_bind].
  replace (Z.of_nat pos + 1) with (Z.of_nat (S pos)) by lia.
  destruct (IH (<[pos := c]> buf) (S pos)) as (b&->&Hl&Ht); [lia|rewrite length_insert; lia|].
  exists b. rewrite Nat.add_succ_r. split; [done|]. rewrite length_insert in Hl. split; [done|].
  rewrite Nat.add_succ_l in Ht. rewrite Ht. rewrite (take_S_r _ _ c) by (apply list_lookup_insert_eq; lia).
  rewrite take_insert_ge by lia. by rewrite <- app_assoc.
Qed.

Lemma write_line_spec size key v buf (pos : nat) :
  Z.of_nat (pos + length (line_text key v ++ [10])) < size -> size <= Z.of_nat (length buf) ->
  exists b, write_line size key v (Z.of_nat pos, buf) =
      Some (Z.of_nat (pos + length (line_text key v ++ [10])), b) /\
    length b = length buf /\
    take (pos + length (line_text key v ++ [10])) b = take pos buf ++ line_text key v ++ [10].
Proof.
  intros Hp Hb. unfold line_text in *. rewrite !length_app in *. cbn [length] in *.
  unfold write_line. destruct (Z.leb_spec size (Z.of_nat pos)); [lia|].
  destruct (put_all_spec size key buf pos) as (b1&->&L1&T1); [lia|lia|]. cbn [mbind option_bind].
  destruct (put_all_spec size [61] b1 (pos + length key)) as (b2&->&L2&T2); [cbn [length]; lia|lia|].
  cbn [mbind option_bind].
  destruct (put_all_spec size (int_to_str v) b2 (pos + length key + length [61])) as (b3&->&L3&T3);
    [cbn [length] in *; lia|lia|]. cbn [mbind option_bind].
  destruct (put_all_spec size [10] b3 (pos + length key + length [61] + length (int_to_str v)))
    as (b4&->&L4&T4); [cbn [length] in *; lia|lia|].
  exists b4. cbn [length] in *. split; [f_equal; f_equal; lia|]. split; [lia|].
  replace (pos + (length key + S (length (int_to_str v)) + 1))%nat
    with (pos + length key + 1 + length (int_to_str v) + 1)%nat by lia.
  rewrite T4, T3, T2, T1. rewrite <- !app_assoc. done.
Qed.

Definition values_ok (g : os_settings) (hi : Z) : Prop :=
  0 <= audio_sample_rate g < hi /\ 0 <= audio_buffer_size g < hi /\
  0 <= dma_buffer_count g < hi /\ 0 <= master_volume g < hi.

Lemma line_text_length key v : 0 <= v < 2 ^ 32 -> (length (line_text key v) <= length key + 11)%nat.
Proof.
  intros Hv. destruct (int_to_str_spec v Hv) as (_&_&?). unfold line_text. rewrite length_app. cbn [length]. lia.
Qed.

Lemma line_text_plain key v c :
  0 <= v < 2 ^ 32 -> Forall (fun x => x <> c) key -> c < 48 -> c <> 61 -> Forall (fun x => x <> c) (line_text key v).
Proof.
  intros Hv Hk Hc Hc'. unfold line_text. apply Forall_app. split; [done|]. constructor; [lia|].
  destruct (int_to_str_spec v Hv) as (_&F&_). eapply Forall_impl; [exact F|]. cbn. lia.
Qed.

Lemma text_of_app l rest : Forall (fun x => x <> 0) l -> text_of (l ++ 0 :: rest) = l.
Proof. induction 1 as [|c l Hc _ IH]; [done|]. cbn [app text_of]. rewrite (proj2 (Z.eqb_neq c 0)) by done. by rewrite IH. Qed.

Lemma text_of_id l : Forall (fun x => x <> 0) l -> text_of l = l.
Proof. induction 1 as [|c l Hc _ IH]; [done|]. cbn [text_of]. rewrite (proj2 (Z.eqb_neq c 0)) by done. by rewrite IH. Qed.

Lemma settings_text_nonzero g : values_ok g (2 ^ 32) -> Forall (fun x => x <> 0) (settings_text g).
Proof.
  intros (H1&H2&H3&H4). unfold settings_text.
  pose proof (fun k v Hv Hk => line_text_plain k v 0 Hv Hk ltac:(lia) ltac:(lia)) as Hline.
  repeat (apply Forall_app_2; [apply Hline; [done|]; by repeat constructor|apply Forall_cons_2; [lia|]]).
  constructor.
Qed.
Lemma settings_save_text g buf :
  values_ok g (2 ^ 32) -> length buf = 512%nat -> settings_save g buf = Some (settings_text g).
Proof.
  intros Hg Hl. pose proof Hg as (H1&H2&H3&H4). unfold settings_save, format_settings.
  pose proof (line_text_length k_rate _ H1) as L1. pose proof (line_text_length k_size _ H2) as L2.
  pose proof (line_text_length k_count _ H3) as L3. pose proof (line_text_length k_vol _ H4) as L4.
  cbn [length k_rate k_size k_count k_vol] in L1, L2, L3, L4.
  change (0, buf) with (Z.of_nat 0, buf).
  destruct (write_line_spec 512 k_rate (audio_sample_rate g) buf 0) as (b1&->&B1&T1);
    [rewrite length_app; cbn [length]; lia|lia|]. cbn [mbind option_bind].
  destruct (write_line_spec 512 k_size (audio_buffer_size g) b1
    (0 + length (line_text k_rate (audio_sample_rate g) ++ [10]))) as (b2&->&B2&T2);
    [rewrite !length_app; cbn [length]; lia|lia|]. cbn [mbind option_bind].
  edestruct (write_line_spec 512 k_count (dma_buffer_count g) b2) as (b3&E3&B3&T3);
    [|lia|rewrite E3]; [rewrite !length_app; cbn [length]; lia|]. cbn [mbind option_bind].
  edestruct (write_line_spec 512 k_vol (master_volume g) b3) as (b4&E4&B4&T4);
    [|lia|rewrite E4]; [rewrite !length_app; cbn [length]; lia|]. cbn [mbind option_bind].
  rewrite T3, T2, T1 in T4. clear E3 E4 T1 T2 T3.
  set (n := (_ + length (line_text k_vol (master_volume g) ++ [10%Z]))%nat) in *.
  assert (n < 512)%nat as Hn by (unfold n; rewrite !length_app; cbn [length]; lia).
  change (take 0 buf) with (@nil Z) in T4. rewrite app_nil_l in T4.
  assert (take n b4 = settings_text g) as Ht.
  { rewrite T4. unfold settings_text. rewrite <- !app_assoc. done. }
  destruct (Z.ltb_spec (Z.of_nat n) 512); [|lia]. rewrite aset_ok, Nat2Z.id by lia. cbn [mbind option_bind].
  assert (<[n := 0]> b4 = settings_text g ++ 0 :: drop (S n) b4) as ->
    by (rewrite insert_take_drop by lia; by rewrite Ht).
  rewrite existsb_app. cbn [existsb]. rewrite Z.eqb_refl, orb_true_r.
  by rewrite text_of_app by (by apply settings_text_nonzero).
Qed.

Lemma parse_line_text key v g g' :
  0 <= v <= INT_MAX -> Forall (fun c => c <> 61) key ->
  (v' ← my_atoi (int_to_str v);
   if same key k_rate then Some (mk_settings (u32 v') (audio_buffer_size g) (dma_buffer_count g) (master_volume g))
   else if same key k_size then Some (mk_settings (audio_sample_rate g) (u32 v') (dma_buffer_count g) (master_volume g))
   else if same key k_count then Some (mk_settings (audio_sample_rate g) (audio_buffer_size g) (u32 v') (master_volume g))
   else if same key k_vol then Some (mk_settings (audio_sample_rate g) (audio_buffer_size g) (dma_buffer_count g) (u32 v'))
   else Some g) = Some g' ->
  parse_line (line_text key v) g = Some g'.
Proof.
  intros Hv Hk. unfold parse_line, line_text. rewrite strchr_key by done.
  destruct (int_to_str_spec v) as (E&F&_); [unfold INT_MAX in Hv; lia|].
  unfold my_atoi. rewrite atoi_digits by (try done; rewrite ?E; lia). cbn [mbind option_bind]. rewrite E.
  repeat case_if; done.
Qed.

Lemma strtok_text key v rest :
  0 <= v < 2 ^ 31 -> Forall (fun c => c <> 10) key ->
  my_strtok_from [] (line_text key v ++ 10 :: rest) 10 = line_text key v :: my_strtok_from [] rest 10.
Proof.
  intros Hv Hk. rewrite strtok_line; [done|by apply line_text_plain; try lia|].
  unfold line_text. by destruct key.
Qed.

Lemma atoi_text v : 0 <= v < 2 ^ 31 -> my_atoi (int_to_str v) = Some v.
Proof.
  intros Hv. destruct (int_to_str_spec v) as (E&F&_); [lia|]. unfold my_atoi.
  rewrite atoi_digits by (try done; rewrite ?E; unfold INT_MAX; lia). by rewrite E.
Qed.

(** The settings file round-trips: whatever the stack buffer held, saving
    writes the four "key=value" lines completely, and parsing that text restores
    the four values, provided they fit in a signed int; the parser accumulates in
    an [int]. *)
Theorem settings_roundtrip g g0 buf :
  values_ok g (2 ^ 31) -> length buf = 512%nat ->
  settings_save g buf = Some (settings_text g) /\ parse_settings (settings_text g) g0 = Some g.
Proof.
  intros Hg Hl. assert (values_ok g (2 ^ 32)) as Hg32 by (unfold values_ok in *; lia).
  split; [by apply settings_save_text|]. unfold parse_settings.
  rewrite text_of_id by (by apply settings_text_nonzero). unfold my_strtok, settings_text.
  destruct Hg as (H1&H2&H3&H4).
  rewrite !strtok_text by (first [lia | by apply (bool_decide_unpack _)]).
  cbn [app my_strtok_from foldM].
  do 4 (erewrite parse_line_text;
    [|unfold INT_MAX; lia|by apply (bool_decide_unpack _)|rewrite atoi_text by done; reflexivity];
    cbn [mbind option_bind]).
  cbn [mbind option_bind audio_sample_rate audio_buffer_size dma_buffer_count master_volume].
  rewrite !u32_id by lia. by destruct g.
Qed.

Lemma settings_roundtrip_witness :
  settings_save (mk_settings 44100 256 8 0) (replicate 512 7) =
    Some (settings_text (mk_settings 44100 256 8 0)) /\
  parse_settings (settings_text (mk_settings 44100 256 8 0)) defaults = Some (mk_settings 44100 256 8 0).
Proof.
  apply settings_roundtrip.
  - unfold values_ok. cbn [audio_sample_rate audio_buffer_size dma_buffer_count master_volume]. lia.
  - reflexivity.
Defined.

(** [settings_init] expects 0 from [vfs_stat_path], which returns 1 for a file
    that exists: whatever the saved file holds, the defaults are installed and
    the file is overwritten with them. *)
Theorem settings_init_ignores_file size bytes stack g :
  length stack = 512%nat ->
  settings_init (mk_answer 1 size bytes) stack g = Some (defaults, Some (settings_text defaults)).
Proof.
  intros Hl. unfold settings_init. cbn [stat_result Z.eqb andb].
  rewrite settings_save_text; [done| |done].
  unfold values_ok, defaults. cbn [audio_sample_rate audio_buffer_size dma_buffer_count master_volume]. lia.
Qed.

Lemma settings_init_ignores_file_witness :
  settings_init (mk_answer 1 5 [120; 61; 49; 48; 10]) (replicate 512 0) (mk_settings 1 2 3 4) =
    Some (defaults, Some (settings_text defaults)).
Proof. apply settings_init_ignores_file. reflexivity. Defined.

End Settings.
