(* ===== verification/LibcStdlib.v ===== *)
(** * LibcStdlib: stdlib.c of the user-space C library (user/libc/stdlib.c)

    Sorting, number parsing, the environment, exit handlers, calloc and rand.
    [qsort] works on an array of elements of any type with a comparison function;
    one element stands for [size] bytes.  Strings are the bytes before their NUL,
    so reading the character after the last one gives 0.  Floating-point parsing
    and the stubs at the end of the file are not modelled. *)

From Stdlib Require Import ZArith Lia Bool ZifyBool.
From stdpp Require Import base numbers option list list_numbers sorting gmap fin_maps.
From S2P Require Import Prelude.

Open Scope Z_scope.

Module LibcStdlib.

(** ** qsort *)

Section Sort.
Context {A : Type} (cmp : A -> A -> Z).

Definition qs_swap (l : list A) (i j : Z) : option (list A) :=
  a ← aget l i;
  b ← aget l j;
  l' ← aset l i b;
  aset l' j a.

(** One step of the partition loop: [i] is the next slot of the small side. *)
Definition partition_step (lo j : Z) (st : Z * list A) : option (Z * list A) :=
  let '(i, l) := st in
  x ← aget l j;
  pivot ← aget l lo;
  if cmp x pivot <? 0 then l' ← qs_swap l i j; Some (i + 1, l') else Some (i, l).

Definition qs_partition (lo hi : Z) (l : list A) : option (Z * list A) :=
  '(i, l) ← foldM (partition_step lo) (seqZ (lo + 1) (hi - lo)) (lo + 1, l);
  l' ← qs_swap l lo (i - 1);
  Some (i - 1, l').

Fixpoint qs_rec (fuel : nat) (lo hi : Z) (l : list A) : option (list A) :=
  match fuel with
  | O => None
  | S fuel' =>
      if hi <=? lo then Some l
      else
        '(p, l) ← qs_partition lo hi l;
        l ← qs_rec fuel' lo (p - 1) l;
        qs_rec fuel' (p + 1) hi l
  end.

(** The fuel is the depth of the recursion, at most the number of elements. *)
Definition qsort (l : list A) : option (list A) :=
  let nmemb := Z.of_nat (length l) in
  if nmemb <=? 1 then Some l else qs_rec (S (length l)) 0 (nmemb - 1) l.

End Sort.

(** ** Number parsing *)

Definition char_at (s : list Z) (i : Z) : Z := default 0 (aget s i).

Definition digit_val (c : Z) : Z :=
  if (48 <=? c) && (c <=? 57) then c - 48
  else if (97 <=? c) && (c <=? 122) then c - 97 + 10
  else if (65 <=? c) && (c <=? 90) then c - 65 + 10
  else -1.

Definition is_space (c : Z) : bool := (c =? 32) || (c =? 9) || (c =? 10) || (c =? 13).

Fixpoint skip_spaces (s : list Z) : list Z :=
  match s with c :: s' => if is_space c then skip_spaces s' else s | [] => [] end.

(** Digits of [base]: the value modulo 2^64 and the rest of the string. *)
Fixpoint digits (base v : Z) (s : list Z) : Z * list Z :=
  match s with
  | c :: s' =>
      let d := digit_val c in
      if (d <? 0) || (base <=? d) then (v, s) else digits base (u64 (u64 (v * base) + d)) s'
  | [] => (v, [])
  end.

(** Prefix and base: 0x, 0 or decimal. *)
Definition number_base (base : Z) (s : list Z) : Z * list Z :=
  if ((base =? 0) || (base =? 16)) && (char_at s 0 =? 48) && ((char_at s 1 =? 120) || (char_at s 1 =? 88))
  then (16, drop 2 s)
  else if (base =? 0) && (char_at s 0 =? 48) then (8, s)
  else if base =? 0 then (10, s)
  else (base, s).

Definition parse_ull (s : list Z) (base : Z) : Z * list Z :=
  let '(base, s) := number_base base s in digits base 0 s.

Definition skip_plus (s : list Z) : list Z :=
  match s with c :: s' => if c =? 43 then s' else s | [] => [] end.

Definition strtoul (s : list Z) (base : Z) : Z * list Z := parse_ull (skip_plus (skip_spaces s)) base.
Definition strtoull (s : list Z) (base : Z) : Z * list Z := parse_ull (skip_plus (skip_spaces s)) base.

(** A 64-bit pattern as a signed [long]. *)
Definition to_long (v : Z) : Z := if v <? 2 ^ 63 then v else v - 2 ^ 64.

(** Negation of a [long]: undefined for the smallest one. *)
Definition neg_long (v : Z) : option Z := if v =? - 2 ^ 63 then None else Some (- v).

Definition strip_sign (s : list Z) : bool * list Z :=
  match s with
  | c :: s' => if c =? 45 then (true, s') else if c =? 43 then (false, s') else (false, s)
  | [] => (false, [])
  end.

Definition strtol (s : list Z) (base : Z) : option (Z * list Z) :=
  let '(neg, s) := strip_sign (skip_spaces s) in
  let '(v, rest) := strtoul s base in
  r ← (if (neg : bool) then neg_long (to_long v) else Some (to_long v));
  Some (r, rest).

Definition strtoll (s : list Z) (base : Z) : option (Z * list Z) :=
  let '(neg, s) := strip_sign (skip_spaces s) in
  let '(v, rest) := parse_ull s base in
  r ← (if (neg : bool) then neg_long (to_long v) else Some (to_long v));
  Some (r, rest).

(** Conversion to [int] keeps the low 32 bits. *)
Definition to_int (v : Z) : Z := let x := u32 v in if x <? 2 ^ 31 then x else x - 2 ^ 32.

Definition atoi (s : list Z) : option Z := '(v, _) ← strtol s 10; Some (to_int v).

Definition abs (v : Z) : option Z := if v <? 0 then i32 (- v) else Some v.

(** ** calloc and rand *)

(** [umalloc] is an oracle; the result is the zeroed memory. *)
Definition calloc (umalloc : Z -> option (list Z)) (nmemb size : Z) : option (option (list Z)) :=
  let total := u64 (nmemb * size) in
  if negb (nmemb =? 0) && negb (total / nmemb =? size) then Some None
  else
    match umalloc total with
    | None => Some None
    | Some m => m' ← splice m 0 (replicate (Z.to_nat total) 0); Some (Some m')
    end.

Definition rand (seed : Z) : Z * Z :=
  let seed := u64 (seed * 1103515245 + 12345) in (Z.rem (to_int (seed / 65536)) 32768, seed).

Definition srand (seed : Z) : Z := u32 seed.

(** ** Exit handlers *)

Definition ATEXIT_MAX : Z := 64.

(** The handler table; a handler is a number, and running one may register
    others. *)
Definition atexit (func : option Z) (hs : list Z) : Z * list Z :=
  match func with
  | None => (-1, hs)
  | Some f => if ATEXIT_MAX <=? Z.of_nat (length hs) then (-1, hs) else (0, hs ++ [f])
  end.

(** [registers f] are the handlers that running [f] passes to [atexit].  The
    result is the handlers run, in order. *)
Fixpoint exit_from (registers : Z -> list Z) (i : nat) (hs : list Z) : option (list Z) :=
  match i with
  | O => Some []
  | S i' =>
      f ← hs !! i';
      let hs' := fold_left (fun hs g => (atexit (Some g) hs).2) (registers f) hs in
      r ← exit_from registers i' hs';
      Some (f :: r)
  end.

Definition exit (registers : Z -> list Z) (hs : list Z) : option (list Z) :=
  exit_from registers (length hs) hs.

(** ** Environment *)

(** [environ]: the "NAME=VALUE" strings in use, and the capacity. *)
Record environment := mk_environ { entries : list (list Z); environ_cap : Z }.

(** Value when the entry is for [name]: what follows "NAME=". *)
Fixpoint match_entry (name entry : list Z) : option (list Z) :=
  match name, entry with
  | [], c :: v => if c =? 61 then Some v else None
  | n :: name', c :: entry' => if c =? n then match_entry name' entry' else None
  | _, [] => None
  end.

Fixpoint find_entry (name : list Z) (es : list (list Z)) : option (nat * list Z) :=
  match es with
  | [] => None
  | e :: es' =>
      match match_entry name e with
      | Some v => Some (O, v)
      | None => match find_entry name es' with Some (i, v) => Some (S i, v) | None => None end
      end
  end.

Definition getenv (name : list Z) (env : environment) : option (list Z) :=
  match find_entry name (entries env) with Some (_, v) => Some v | None => None end.

(** [entry_mem], [array_mem]: whether the allocations succeed. *)
Definition setenv (entry_mem array_mem : bool) (name value : list Z) (overwrite : Z) (env : environment)
    : Z * environment :=
  match name with
  | [] => (-1, env)
  | _ =>
      if (overwrite =? 0) && match getenv name env with Some _ => true | None => false end then (0, env)
      else if negb entry_mem then (-1, env)
      else
        let entry := name ++ 61 :: value in
        match find_entry name (entries env) with
        | Some (i, _) => (0, mk_environ (<[i := entry]> (entries env)) (environ_cap env))
        | None =>
            if environ_cap env <=? Z.of_nat (length (entries env)) then
              if array_mem then
                (0, mk_environ (entries env ++ [entry])
                      (if negb (environ_cap env =? 0) then environ_cap env * 2 else 8))
              else (-1, env)
            else (0, mk_environ (entries env ++ [entry]) (environ_cap env))
        end
  end.

(** The part before the first '=' and the part after it. *)
Fixpoint split_eq (s : list Z) : option (list Z * list Z) :=
  match s with
  | [] => None
  | c :: s' =>
      if c =? 61 then Some ([], s')
      else match split_eq s' with Some (a, b) => Some (c :: a, b) | None => None end
  end.

Definition putenv (name_mem entry_mem array_mem : bool) (string : list Z) (env : environment)
    : Z * environment :=
  match split_eq string with
  | None => (-1, env)
  | Some (name, value) => if name_mem then setenv entry_mem array_mem name value 1 env else (-1, env)
  end.

(** [environ] is NULL until something was set. *)
Definition unsetenv (name : list Z) (env : environment) : Z * environment :=
  match name with
  | [] => (-1, env)
  | _ =>
      if environ_cap env =? 0 then (-1, env)
      else
        match find_entry name (entries env) with
        | Some (i, _) => (0, mk_environ (delete i (entries env)) (environ_cap env))
        | None => (0, env)
        end
  end.

(** ** Sorting *)

(** Lengths of concatenations, then linear arithmetic. *)
Ltac llia := rewrite ?length_app; simpl; rewrite ?length_app; simpl; lia.

Section Sorting.
Context {A : Type} (cmp : A -> A -> Z).
Implicit Types (x a b pivot : A) (l seg pre post : list A).

(** [x] may stand before [y]. *)
Definition cmp_le x y : Prop := ~ cmp y x < 0.

Lemma aget_mid l1 x l2 i : i = Z.of_nat (length l1) -> aget (l1 ++ x :: l2) i = Some x.
Proof. intros ->. rewrite aget_nat. by apply list_lookup_middle. Qed.

Lemma aset_mid l1 x y l2 i :
  i = Z.of_nat (length l1) -> aset (l1 ++ x :: l2) i y = Some (l1 ++ y :: l2).
Proof.
  intros ->. rewrite aset_ok by llia. rewrite Nat2Z.id.
  by rewrite insert_app_r_alt, Nat.sub_diag by lia.
Qed.

Lemma qs_swap_same l1 x l2 i : i = Z.of_nat (length l1) -> qs_swap (l1 ++ x :: l2) i i = Some (l1 ++ x :: l2).
Proof. intros ->. unfold qs_swap. rewrite !aget_mid by done. cbn. rewrite !aset_mid by done. cbn. by rewrite aset_mid. Qed.

Lemma qs_swap_spec l1 a l2 b l3 i j :
  i = Z.of_nat (length l1) -> j = Z.of_nat (length (l1 ++ a :: l2)) ->
  qs_swap (l1 ++ a :: l2 ++ b :: l3) i j = Some (l1 ++ b :: l2 ++ a :: l3).
Proof.
  intros -> ->. unfold qs_swap.
  assert (Hsplit : forall x y, l1 ++ x :: l2 ++ y :: l3 = (l1 ++ x :: l2) ++ y :: l3)
    by (intros; by rewrite <- app_assoc).
  rewrite (aget_mid l1 a _ (Z.of_nat (length l1))) by done. cbn [mbind option_bind].
  rewrite Hsplit, (aget_mid (l1 ++ a :: l2) b) by done. cbn [mbind option_bind].
  rewrite <- Hsplit, (aset_mid l1) by done. cbn [mbind option_bind].
  rewrite !Hsplit. by rewrite (aset_mid (l1 ++ b :: l2)) by llia.
Qed.

(** A step of the partition loop: the segment is the pivot, a small side, a large
    side and what is still to be scanned. *)
Lemma partition_step_spec pre pivot small large x rest lo :
  lo = Z.of_nat (length pre) ->
  exists small' large',
    partition_step cmp lo (lo + 1 + Z.of_nat (length small + length large))
      (lo + 1 + Z.of_nat (length small), pre ++ pivot :: small ++ large ++ x :: rest) =
      Some (lo + 1 + Z.of_nat (length small'), pre ++ pivot :: small' ++ large' ++ rest) /\
    small' ++ large' ≡ₚ small ++ large ++ [x] /\
    (Forall (fun x => cmp x pivot < 0) small -> Forall (fun x => cmp x pivot < 0) small') /\
    (Forall (cmp_le pivot) large -> Forall (cmp_le pivot) large').
Proof.
  intros Hlo. unfold partition_step.
  assert (Hmid : forall l3, pre ++ pivot :: small ++ large ++ l3 = (pre ++ pivot :: small ++ large) ++ l3)
    by (intros; by rewrite <- !app_assoc, <- !app_comm_cons, <- !app_assoc).
  rewrite Hmid, (aget_mid _ x _ (lo + 1 + Z.of_nat (length small + length large))) by llia.
  cbn [mbind option_bind]. rewrite <- Hmid, aget_mid by done. cbn [mbind option_bind]. destruct (cmp x pivot <? 0) eqn:Ex; bools.
  - assert (Hs : forall l3, pre ++ pivot :: small ++ l3 = (pre ++ pivot :: small) ++ l3)
      by (intros; by rewrite <- app_assoc).
    exists (small ++ [x]). destruct large as [|b large].
    + exists []. simpl. rewrite Hs, Nat.add_0_r, qs_swap_same by llia. cbn [mbind option_bind].
      rewrite <- Hs, <- app_assoc. split_and!; [do 2 f_equal; llia | by rewrite app_nil_r | | done].
      intros. apply Forall_app. auto.
    + exists (large ++ [b]). rewrite Hs. simpl. rewrite qs_swap_spec by llia. cbn [mbind option_bind].
      rewrite <- Hs, <- !app_assoc. split_and!; [do 2 f_equal; llia | solve_Permutation | |].
      * intros. apply Forall_app. auto.
      * intros Hl. rewrite Permutation_app_comm. done.
  - exists small, (large ++ [x]). rewrite <- app_assoc. split_and!; [done | done | done |].
    intros. apply Forall_app. split; [done|]. constructor; [|done]. unfold cmp_le. lia.
Qed.

Lemma partition_loop pre pivot small large rest post lo :
  lo = Z.of_nat (length pre) ->
  exists small' large',
    foldM (partition_step cmp lo)
      (seqZ (lo + 1 + Z.of_nat (length small + length large)) (Z.of_nat (length rest)))
      (lo + 1 + Z.of_nat (length small), pre ++ pivot :: small ++ large ++ rest ++ post) =
      Some (lo + 1 + Z.of_nat (length small'), pre ++ pivot :: small' ++ large' ++ post) /\
    small' ++ large' ≡ₚ small ++ large ++ rest /\
    (Forall (fun x => cmp x pivot < 0) small -> Forall (fun x => cmp x pivot < 0) small') /\
    (Forall (cmp_le pivot) large -> Forall (cmp_le pivot) large').
Proof.
  intros Hlo. revert small large. induction rest as [|x rest IH]; intros small large.
  - exists small, large. by rewrite app_nil_r.
  - rewrite seqZ_cons by (simpl; lia). cbn [foldM].
    destruct (partition_step_spec pre pivot small large x (rest ++ post) lo Hlo) as (s1&l1&E&Hp&Hs&Hl).
    cbn [app length]. rewrite E. cbn [mbind option_bind]. pose proof (Permutation_length Hp) as Hlen.
    rewrite !length_app in Hlen. simpl in Hlen.
    replace (Z.pred (Z.of_nat (S (length rest)))) with (Z.of_nat (length rest)) by lia.
    replace (Z.succ (lo + 1 + Z.of_nat (length small + length large)))
      with (lo + 1 + Z.of_nat (length s1 + length l1)) by lia.
    destruct (IH s1 l1) as (s'&l'&->&Hp'&Hs'&Hl'). exists s', l'. split_and!; [done| |auto..].
    rewrite Hp', app_assoc, Hp. by rewrite <- !app_assoc.
Qed.

Lemma qs_partition_spec pre pivot rest post lo hi :
  lo = Z.of_nat (length pre) -> hi = lo + Z.of_nat (length rest) ->
  exists small large,
    qs_partition cmp lo hi (pre ++ pivot :: rest ++ post) =
      Some (lo + Z.of_nat (length small), pre ++ small ++ pivot :: large ++ post) /\
    small ++ large ≡ₚ rest /\ Forall (fun x => cmp x pivot < 0) small /\ Forall (cmp_le pivot) large.
Proof.
  intros Hlo ->. destruct (partition_loop pre pivot [] [] rest post lo Hlo) as (s&l&E&Hp&Hs&Hl).
  specialize (Hs (Forall_nil_2 _)). specialize (Hl (Forall_nil_2 _)). unfold qs_partition.
  simpl in E. rewrite !Z.add_0_r in E.
  replace (lo + Z.of_nat (length rest) - lo) with (Z.of_nat (length rest)) by lia. rewrite E.
  cbn [mbind option_bind].
  destruct s as [|s1 s _] using rev_ind.
  - exists [], l. simpl. replace (lo + 1 + Z.of_nat 0 - 1) with lo by lia.
    rewrite qs_swap_same by done. simpl. by rewrite Z.add_0_r.
  - exists (s1 :: s), l. rewrite <- app_assoc. cbn [app].
    rewrite qs_swap_spec by llia. cbn [mbind option_bind].
    rewrite Permutation_app_comm in Hs. split_and!.
    + do 2 f_equal. llia.
    + rewrite <- Hp. simpl. solve_Permutation.
    + exact Hs.
    + done.
Qed.

Context (cmp_total : forall x y, cmp_le x y \/ cmp_le y x).
Context (cmp_trans : forall x y z, cmp_le x y -> cmp_le y z -> cmp_le x z).

Lemma sorted_around small pivot large :
  StronglySorted cmp_le small -> StronglySorted cmp_le large ->
  Forall (fun x => cmp_le x pivot) small -> Forall (cmp_le pivot) large ->
  StronglySorted cmp_le (small ++ pivot :: large).
Proof.
  intros Hs Hl Hlt Hge. induction Hs as [|x s Hs IH Hx]; simpl.
  - by constructor.
  - apply Forall_cons in Hlt as [Hxp Hlt]. constructor; [by apply IH|].
    apply Forall_app. split; [done|]. constructor; [done|].
    eapply Forall_impl; [exact Hge|]. eauto.
Qed.

Lemma qs_rec_spec fuel pre seg post lo hi :
  (length seg < fuel)%nat -> lo = Z.of_nat (length pre) -> hi = lo + Z.of_nat (length seg) - 1 ->
  exists seg', qs_rec cmp fuel lo hi (pre ++ seg ++ post) = Some (pre ++ seg' ++ post) /\
    seg' ≡ₚ seg /\ StronglySorted cmp_le seg'.
Proof.
  revert pre seg post lo hi. induction fuel as [|fuel IH]; intros pre seg post lo hi Hf Hlo Hhi; [lia|].
  simpl. case_if.
  - exists seg. split_and!; [done..|]. destruct seg as [|x [|y seg]]; [constructor|repeat constructor|simpl in *; lia].
  - destruct seg as [|pivot rest]; [simpl in *; lia|].
    destruct (qs_partition_spec pre pivot rest post lo hi) as (small&large&E&Hp&Hs&Hl);
      [done|simpl in *; lia|].
    simpl in E |- *. rewrite E. cbn [mbind option_bind].
    pose proof (Permutation_length Hp) as Hlen. rewrite length_app in Hlen. simpl in Hf, Hhi.
    destruct (IH pre small (pivot :: large ++ post) lo (lo + Z.of_nat (length small) - 1)) as (s'&->&Hps&Hss);
      [lia|done|lia|]. cbn [mbind option_bind].
    replace (pre ++ s' ++ pivot :: large ++ post) with ((pre ++ s' ++ [pivot]) ++ large ++ post)
      by by rewrite <- !app_assoc.
    destruct (IH (pre ++ s' ++ [pivot]) large post (lo + Z.of_nat (length small) + 1) hi) as (l'&->&Hpl&Hsl).
    { lia. } { rewrite !length_app. pose proof (Permutation_length Hps). simpl. lia. } { lia. }
    exists (s' ++ pivot :: l'). split_and!.
    + by rewrite <- !app_assoc.
    + rewrite Hps, Hpl, <- Hp. solve_Permutation.
    + apply sorted_around; [done|done| |by rewrite Hpl].
      rewrite Hps. eapply Forall_impl; [exact Hs|]. intros x Hx. unfold cmp_le in *. simpl in Hx.
      destruct (cmp_total x pivot); [done|]. by exfalso.
Qed.

(** C30: qsort sorts: with a comparison function that is a total preorder, whatever
    the input, it returns (the recursion depth never exceeds the number of
    elements, no access leaves the array) a permutation of the array in which
    every element may stand before all later ones. *)
Theorem qsort_sorts l :
  exists l', qsort cmp l = Some l' /\ l' ≡ₚ l /\ StronglySorted cmp_le l'.
Proof.
  unfold qsort. case_if.
  - exists l. split_and!; [done..|]. destruct l as [|x [|y l]]; [constructor|repeat constructor|simpl in *; lia].
  - destruct (qs_rec_spec (S (length l)) [] l [] 0 (Z.of_nat (length l) - 1)) as (l'&E&?&?); [lia|done|lia|].
    simpl in E. rewrite !app_nil_r in E. exists l'. done.
Qed.

End Sorting.

Lemma qsort_sorts_witness :
  exists l', qsort Z.sub [3; 1; 2; 1] = Some l' /\ l' ≡ₚ [3; 1; 2; 1] /\ StronglySorted (cmp_le Z.sub) l'.
Proof. apply (qsort_sorts Z.sub); unfold cmp_le; lia. Defined.

(** ** The environment as a finite map *)

(** A name [setenv] is meant for: not empty, without '='. *)
Definition name_ok (name : list Z) : Prop := name <> [] /\ 61 ∉ name.

Definition entry_of (kv : list Z * list Z) : list Z := kv.1 ++ 61 :: kv.2.

Definition env_wf (env : environment) : Prop :=
  Z.of_nat (length (entries env)) <= environ_cap env /\
  exists kvs, entries env = entry_of <$> kvs /\ NoDup kvs.*1 /\ Forall name_ok kvs.*1.

(** What the environment stands for. *)
Definition env_map (env : environment) : gmap (list Z) (list Z) :=
  list_to_map (omap split_eq (entries env)).

Definition env_empty : environment := mk_environ [] 0.

Lemma match_entry_spec name n v :
  61 ∉ name -> 61 ∉ n -> match_entry name (entry_of (n, v)) = if decide (name = n) then Some v else None.
Proof.
  unfold entry_of. cbn [fst snd]. revert n.
  induction name as [|a name IH]; intros [|b n] Hn Hm; cbn [app match_entry];
    rewrite ?not_elem_of_cons in Hn; rewrite ?not_elem_of_cons in Hm.
  - done.
  - destruct (Z.eqb_spec b 61); [lia|]. by rewrite decide_False.
  - destruct (Z.eqb_spec 61 a); [lia|]. by rewrite decide_False.
  - destruct (Z.eqb_spec b a) as [->|]; [|rewrite decide_False; naive_solver].
    rewrite IH by naive_solver. repeat case_decide; naive_solver.
Qed.

Lemma split_eq_entry n v : 61 ∉ n -> split_eq (entry_of (n, v)) = Some (n, v).
Proof.
  unfold entry_of. simpl. induction n as [|a n IH]; intros Hn; simpl; [done|].
  rewrite not_elem_of_cons in Hn. destruct (Z.eqb_spec a 61); [lia|]. by rewrite IH by naive_solver.
Qed.

Lemma split_eq_Some s n v : split_eq s = Some (n, v) -> s = entry_of (n, v) /\ 61 ∉ n.
Proof.
  unfold entry_of. simpl. revert n. induction s as [|c s IH]; intros n; simpl; [done|].
  destruct (Z.eqb_spec c 61) as [->|Hc]; [intros [= <- <-]; split; [done|apply not_elem_of_nil]|].
  destruct (split_eq s) as [[a b]|]; [|done]. intros [= <- <-].
  destruct (IH a eq_refl) as [-> ?]. rewrite not_elem_of_cons. auto.
Qed.

Lemma omap_split kvs : Forall name_ok kvs.*1 -> omap split_eq (entry_of <$> kvs) = kvs.
Proof.
  induction kvs as [|[n v] kvs IH]; [done|]. intros [[_ Hn] Hk]%Forall_cons.
  rewrite fmap_cons. cbn [omap list_omap]. rewrite split_eq_entry by done. by rewrite IH.
Qed.

Lemma find_entry_spec name kvs :
  name_ok name -> Forall name_ok kvs.*1 ->
  match find_entry name (entry_of <$> kvs) with
  | Some (i, v) => exists a b, kvs = a ++ (name, v) :: b /\ i = length a
  | None => name ∉ kvs.*1
  end.
Proof.
  intros Hname. induction kvs as [|[n v] kvs IH]; [intros; apply not_elem_of_nil|].
  rewrite !fmap_cons. cbn [find_entry fst]. intros [Hn Hk]%Forall_cons. rewrite match_entry_spec by (apply Hname || apply Hn).
  case_decide as E; [subst; by exists [], kvs|]. specialize (IH Hk).
  destruct (find_entry name (entry_of <$> kvs)) as [[i v']|].
  - destruct IH as (a&b&->&->). by exists ((n, v) :: a), b.
  - by rewrite not_elem_of_cons.
Qed.

(** The map and the invariant depend on the pairs only up to order. *)
Lemma env_map_pairs kvs cap : Forall name_ok kvs.*1 -> env_map (mk_environ (entry_of <$> kvs) cap) = list_to_map kvs.
Proof. intros. unfold env_map. cbn [entries]. by rewrite omap_split. Qed.

Lemma env_perm kvs kvs' cap :
  kvs ≡ₚ kvs' -> NoDup kvs'.*1 -> Forall name_ok kvs'.*1 -> Z.of_nat (length kvs') <= cap ->
  env_wf (mk_environ (entry_of <$> kvs) cap) /\ env_map (mk_environ (entry_of <$> kvs) cap) = list_to_map kvs'.
Proof.
  intros Hp Hnd Hok Hcap. assert (Hp1 : kvs.*1 ≡ₚ kvs'.*1) by by rewrite Hp. split.
  - split; [cbn; rewrite length_fmap, Hp; done|]. exists kvs. split_and!; [done| |]; by rewrite Hp1.
  - rewrite env_map_pairs by by rewrite Hp1. apply list_to_map_proper; [by rewrite Hp1 | done].
Qed.

Section EnvOps.
Context (env : environment) (name : list Z) (Hwf : env_wf env) (Hname : name_ok name).

Lemma getenv_lookup : getenv name env = env_map env !! name.
Proof.
  destruct env as [es cap]. destruct Hwf as (_&kvs&Hes&Hnd&Hok). cbn in Hes. subst es.
  rewrite env_map_pairs by done. unfold getenv. cbn [entries].
  pose proof (find_entry_spec name kvs Hname Hok) as Hf. destruct (find_entry _ _) as [[i v]|].
  - destruct Hf as (a&b&->&_). symmetry. apply elem_of_list_to_map_1; [done|].
    apply elem_of_app. right. left.
  - symmetry. by apply not_elem_of_list_to_map_1.
Qed.

Lemma setenv_insert value overwrite :
  (overwrite =? 0) && match getenv name env with Some _ => true | None => false end = false ->
  exists env', setenv true true name value overwrite env = (0, env') /\ env_wf env' /\
    env_map env' = <[name := value]> (env_map env).
Proof.
  intros Ho. unfold setenv. destruct name as [|c name'] eqn:En; [by destruct Hname|]. rewrite <- En in *.
  rewrite Ho. clear Ho. destruct env as [es cap]. destruct Hwf as (Hcap&kvs&Hes&Hnd&Hok). cbn in Hes, Hcap. subst es.
  rewrite (env_map_pairs kvs) by done. cbn [entries environ_cap negb].
  pose proof (find_entry_spec name kvs Hname Hok) as Hf. destruct (find_entry _ _) as [[i v]|].
  - destruct Hf as (a&b&->&->). eexists. split; [done|].
    replace (<[length a := name ++ 61 :: value]> (entry_of <$> a ++ (name, v) :: b))
      with (entry_of <$> a ++ (name, value) :: b).
    2:{ rewrite !fmap_app, !fmap_cons, insert_app_r_alt, length_fmap, Nat.sub_diag by by rewrite length_fmap. done. }
    rewrite !length_fmap, length_app in Hcap. simpl in Hcap.
    assert (Hp : forall v, a ++ (name, v) :: b ≡ₚ (name, v) :: a ++ b) by (intros; by rewrite Permutation_middle).
    assert (Hd : NoDup (name :: (a ++ b).*1)).
    { rewrite <- (Permutation_middle a b) in Hnd. by rewrite fmap_cons in Hnd. }
    destruct (env_perm _ _ cap (Hp value)) as [? ->]; [done| |simpl; rewrite length_app; lia|].
    { rewrite <- (Permutation_middle a b) in Hok. done. }
    split; [done|]. rewrite (list_to_map_proper (a ++ (name, v) :: b) _ Hnd (Hp v)). simpl.
    by rewrite insert_insert_eq.
  - rewrite length_fmap in *.
    assert (Hgo : forall cap', Z.of_nat (length kvs) < cap' ->
      env_wf (mk_environ (entry_of <$> kvs ++ [(name, value)]) cap') /\
      env_map (mk_environ (entry_of <$> kvs ++ [(name, value)]) cap') = <[name := value]> (list_to_map kvs)).
    { intros cap' Hc. apply (env_perm _ ((name, value) :: kvs)); [by rewrite Permutation_app_comm| |by constructor|simpl; lia].
      rewrite fmap_cons. by constructor. }
    change [name ++ 61 :: value] with (entry_of <$> [(name, value)]). rewrite <- fmap_app.
    case_if; (eexists; split; [done|]); apply Hgo; [|lia].
    destruct (Z.eqb_spec cap 0); simpl; lia.
Qed.

Lemma unsetenv_delete :
  exists r env', unsetenv name env = (r, env') /\ env_wf env' /\ env_map env' = delete name (env_map env) /\
    (r = if environ_cap env =? 0 then -1 else 0).
Proof.
  unfold unsetenv. destruct name as [|c name'] eqn:En; [by destruct Hname|]. rewrite <- En in *.
  destruct env as [es cap]. pose proof Hwf as (Hcap&kvs&Hes&Hnd&Hok). cbn in Hes, Hcap. subst es.
  rewrite (env_map_pairs kvs) by done. cbn [entries environ_cap].
  destruct (Z.eqb_spec cap 0) as [->|].
  - do 2 eexists. split; [done|]. split_and!; [done| |done]. rewrite env_map_pairs by done.
    destruct kvs; [|rewrite length_fmap in Hcap; simpl in Hcap; lia]. simpl. by rewrite delete_empty.
  - pose proof (find_entry_spec name kvs Hname Hok) as Hf. destruct (find_entry _ _) as [[i v]|].
    + destruct Hf as (a&b&->&->). do 2 eexists. split; [done|].
      replace (delete (length a) (entry_of <$> a ++ (name, v) :: b)) with (entry_of <$> a ++ b).
      2:{ rewrite !fmap_app, fmap_cons. rewrite <- (length_fmap entry_of a) at 1. by rewrite delete_middle. }
      rewrite length_fmap, length_app in Hcap. simpl in Hcap.
      assert (Hp : a ++ (name, v) :: b ≡ₚ (name, v) :: a ++ b) by by rewrite Permutation_middle.
      assert (Hd : NoDup (name :: (a ++ b).*1)) by (rewrite Hp in Hnd; by rewrite fmap_cons in Hnd).
      assert (Ho : Forall name_ok (name :: (a ++ b).*1)) by (rewrite Hp in Hok; done).
      apply NoDup_cons in Hd as [Hni Hd]. apply Forall_cons in Ho as [_ Ho].
      destruct (env_perm (a ++ b) (a ++ b) cap) as [? ->]; [done..|rewrite length_app; lia|].
      split_and!; [done| |done]. rewrite (list_to_map_proper _ _ Hnd Hp). simpl.
      rewrite delete_insert_id; [done|]. by apply not_elem_of_list_to_map_1.
    + do 2 eexists. split; [done|]. split_and!; [done| |done]. rewrite env_map_pairs by done.
      symmetry. apply delete_id. by apply not_elem_of_list_to_map_1.
Qed.
End EnvOps.

(** C31: The environment refines a finite map from names to values.  From any
    well-formed environment (the initial one is, and every operation preserves
    it), for a non-empty name without '=': getenv looks the name up; setenv
    without overwrite on a bound name changes nothing, otherwise with memory it
    returns 0 and inserts; without memory for the entry it returns -1 and changes
    nothing; putenv of "name=value" inserts; unsetenv deletes (and reports -1
    only while nothing was ever set). *)
Theorem environment_refines_map (env : environment) (name value : list Z) (overwrite : Z)
    (Hwf : env_wf env) (Hname : name_ok name) :
  (env_wf env_empty /\ env_map env_empty = ∅) /\
  getenv name env = env_map env !! name /\
  (is_Some (env_map env !! name) -> setenv true true name value 0 env = (0, env)) /\
  (overwrite <> 0 \/ env_map env !! name = None ->
     exists env', setenv true true name value overwrite env = (0, env') /\ env_wf env' /\
       env_map env' = <[name := value]> (env_map env)) /\
  setenv false true name value 1 env = (-1, env) /\
  (exists env', putenv true true true (entry_of (name, value)) env = (0, env') /\ env_wf env' /\
     env_map env' = <[name := value]> (env_map env)) /\
  (exists r env', unsetenv name env = (r, env') /\ env_wf env' /\
     env_map env' = delete name (env_map env) /\ (r = if environ_cap env =? 0 then -1 else 0)).
Proof.
  pose proof (getenv_lookup env name Hwf Hname) as Hg.
  assert (Hne : forall X (a b : X), match name with [] => a | _ => b end = b) by (by destruct name, Hname).
  split_and!.
  - split; [done|]. exists []. split_and!; [done|constructor|constructor].
  - done.
  - done.
  - intros [v Hv]. unfold setenv. rewrite Hne, Hg, Hv. done.
  - intros Ho. apply setenv_insert; [done..|]. rewrite Hg. destruct Ho as [Ho|Ho].
    + by destruct (Z.eqb_spec overwrite 0).
    + rewrite Ho. by rewrite andb_false_r.
  - unfold setenv. by rewrite Hne.
  - unfold putenv. rewrite split_eq_entry by apply Hname. by apply setenv_insert.
  - by apply unsetenv_delete.
Qed.

Lemma environment_refines_map_witness :
  getenv [72; 79] (mk_environ [[72; 79; 61; 47]] 8) = env_map (mk_environ [[72; 79; 61; 47]] 8) !! [72; 79].
Proof.
  apply (environment_refines_map (mk_environ [[72; 79; 61; 47]] 8) [72; 79] [47] 1).
  - split; [cbn; lia|]. exists [([72; 79], [47])]. split_and!; [done|apply NoDup_singleton|].
    constructor; [|constructor]. split; [done|]. by apply (bool_decide_unpack _).
  - split; [done|]. by apply (bool_decide_unpack _).
Defined.

(** ** Number parsing *)

(** The number a digit string denotes. *)
Definition digits_value (base : Z) (ds : list Z) : Z :=
  fold_left (fun v c => v * base + digit_val c) ds 0.

Definition is_digit (base c : Z) : Prop := 0 <= digit_val c < base.

Definition no_digit (base : Z) (rest : list Z) : Prop :=
  match rest with c :: _ => ~ is_digit base c | [] => True end.

Lemma digits_spec base v ds rest :
  Forall (is_digit base) ds -> no_digit base rest ->
  digits base v (ds ++ rest) = (if ds is [] then v else u64 (fold_left (fun v c => v * base + digit_val c) ds v), rest).
Proof.
  intros Hds Hrest. assert (Hnil : forall v, digits base v rest = (v, rest)).
  { intros w. destruct rest as [|c rest]; [done|]. simpl in Hrest |- *. unfold is_digit in Hrest.
    case_if; [done|lia]. }
  assert (Hcong : forall ds a b, u64 a = u64 b ->
    u64 (fold_left (fun v c => v * base + digit_val c) ds a) = u64 (fold_left (fun v c => v * base + digit_val c) ds b)).
  { clear. induction ds as [|c ds IH]; intros a b Hab; [done|]. simpl. apply IH. unfold u64 in *.
    rewrite Z.add_mod, (Z.mul_mod a), Hab, <- Z.mul_mod, <- Z.add_mod by lia. done. }
  revert v. induction Hds as [|c ds Hc Hds IH]; intros v; [apply Hnil|].
  simpl. unfold is_digit in Hc. case_if; [lia|]. rewrite IH. f_equal.
  destruct ds as [|c' ds]; [|apply Hcong]; unfold u64; rewrite ?Z.mod_mod by lia;
    rewrite Z.add_mod, Z.mod_mod, <- Z.add_mod by lia; done.
Qed.

Lemma skip_spaces_app sp s :
  Forall (fun c => is_space c = true) sp -> (if s is c :: _ then is_space c = false else True) ->
  skip_spaces (sp ++ s) = s.
Proof.
  induction 1 as [|c sp Hc Hsp IH]; intros Hs; simpl.
  - destruct s as [|c s]; [done|]. simpl. by rewrite Hs.
  - rewrite Hc. by apply IH.
Qed.

(** A digit is neither a space nor a sign. *)
Lemma digit_plain base c : is_digit base c -> is_space c = false /\ c <> 43 /\ c <> 45.
Proof.
  unfold is_digit, digit_val, is_space. intros [H _]. repeat (case_if; [lia|]). 
  repeat match type of H with context [if ?b then _ else _] => destruct b eqn:? end; bools; lia.
Qed.

Lemma number_base_id base s :
  base <> 0 -> (base = 16 -> ~ (char_at s 0 = 48 /\ (char_at s 1 = 120 \/ char_at s 1 = 88))) ->
  number_base base s = (base, s).
Proof.
  intros H0 Hx. unfold number_base. destruct (Z.eqb_spec base 0); [done|]. simpl.
  case_if; [|done]. apply orb_true_iff in H1 as [?|?]; bools; exfalso; apply Hx; auto.
Qed.

Definition sign_chars (sign : option bool) : list Z :=
  match sign with None => [] | Some false => [43] | Some true => [45] end.

Definition signed (sign : option bool) (v : Z) : Z := if sign is Some true then - v else v.

Lemma parse_plain base ds rest :
  ds <> [] -> base <> 0 ->
  (base = 16 -> ~ (char_at (ds ++ rest) 0 = 48 /\ (char_at (ds ++ rest) 1 = 120 \/ char_at (ds ++ rest) 1 = 88))) ->
  Forall (is_digit base) ds -> no_digit base rest ->
  parse_ull (ds ++ rest) base = (u64 (digits_value base ds), rest).
Proof.
  intros Hne H0 Hx Hds Hrest. unfold parse_ull. rewrite number_base_id by done.
  rewrite digits_spec by done. by destruct ds.
Qed.

Lemma digits_value_nonneg base ds : 0 < base -> Forall (is_digit base) ds -> 0 <= digits_value base ds.
Proof.
  intros Hb Hds. unfold digits_value.
  enough (Hgen : forall v, 0 <= v -> 0 <= fold_left (fun v c => v * base + digit_val c) ds v) by (apply Hgen; lia).
  induction Hds as [|c ds Hc Hds IH]; intros v Hv; simpl; [done|]. apply IH. unfold is_digit in Hc. nia.
Qed.

(** Number parsing is correct: for white space, an optional sign and digits of
    the base (2 to 36, no 0x prefix) up to something that is no digit, strtol and
    strtoll return the number the digits denote with its sign and the rest of the
    string, as long as it fits in a long; strtoul and strtoull return the digits'
    value modulo 2^64. *)
Theorem strtol_value (sp ds rest : list Z) (sign : option bool) (base : Z)
    (Hsp : Forall (fun c => is_space c = true) sp) (Hbase : 2 <= base <= 36)
    (Hne : ds <> []) (Hds : Forall (is_digit base) ds) (Hrest : no_digit base rest)
    (Hx : base = 16 -> ~ (char_at (ds ++ rest) 0 = 48 /\
                          (char_at (ds ++ rest) 1 = 120 \/ char_at (ds ++ rest) 1 = 88))) :
  let s := sp ++ sign_chars sign ++ ds ++ rest in
  (digits_value base ds < 2 ^ 63 ->
     strtol s base = Some (signed sign (digits_value base ds), rest) /\
     strtoll s base = Some (signed sign (digits_value base ds), rest)) /\
  (sign <> Some true ->
     strtoul s base = (u64 (digits_value base ds), rest) /\
     strtoull s base = (u64 (digits_value base ds), rest)).
Proof.
  intros s. pose proof (parse_plain base ds rest Hne ltac:(lia) Hx Hds Hrest) as Hp.
  pose proof (digits_value_nonneg base ds ltac:(lia) Hds) as Hpos.
  destruct ds as [|c ds]; [done|]. pose proof (Forall_inv Hds) as Hc. apply digit_plain in Hc as (Hcs&Hc1&Hc2).
  assert (Hskip : skip_spaces s = sign_chars sign ++ (c :: ds) ++ rest).
  { apply skip_spaces_app; [done|]. by destruct sign as [[|]|]. }
  assert (Hskip' : skip_spaces ((c :: ds) ++ rest) = (c :: ds) ++ rest) by by apply (skip_spaces_app []).
  assert (Hplus : skip_plus ((c :: ds) ++ rest) = (c :: ds) ++ rest).
  { simpl. by destruct (Z.eqb_spec c 43). }
  assert (Hstrip : strip_sign (skip_spaces s) =
    (match sign with Some true => true | _ => false end, (c :: ds) ++ rest)).
  { rewrite Hskip. destruct sign as [[|]|]; [done|done|]. simpl.
    destruct (Z.eqb_spec c 45); [done|]. by destruct (Z.eqb_spec c 43). }
  split.
  - intros Hlt. assert (Hl : u64 (digits_value base (c :: ds)) = digits_value base (c :: ds)) by (apply u64_id; lia).
    assert (Hlong : to_long (digits_value base (c :: ds)) = digits_value base (c :: ds))
      by (unfold to_long; case_if; lia).
    unfold strtol, strtoll, strtoul. rewrite Hstrip, Hskip', Hplus, Hp, Hl, Hlong.
    unfold neg_long. destruct sign as [[|]|]; cbn [signed]; [|done|done].
    case_if; [lia|done].
  - intros Hs. unfold strtoul, strtoull. rewrite Hskip.
    destruct sign as [[|]|]; [done| |]; simpl sign_chars.
    + change (skip_plus ([43] ++ (c :: ds) ++ rest)) with ((c :: ds) ++ rest). by rewrite Hp.
    + change ([] ++ (c :: ds) ++ rest) with ((c :: ds) ++ rest). by rewrite Hplus, Hp.
Qed.

Lemma strtol_value_witness : strtol [32; 45; 52; 50; 120] 10 = Some (-42, [120]).
Proof.
  refine (proj1 (proj1 (strtol_value [32] [52; 50] [120] (Some true) 10 _ _ _ _ _ _) _));
    [by repeat constructor | lia | done | by repeat constructor | by intros [] | done | done].
Defined.

(** Parsing and generation at the edge of the machine types: the text of the
    smallest long makes strtol negate it, which is undefined, and rand, which
    promises 0 to 32767, can return a negative number. *)
Theorem stdlib_integer_edges :
  strtol [45; 57; 50; 50; 51; 51; 55; 50; 48; 51; 54; 56; 53; 52; 55; 55; 53; 56; 48; 56] 10 = None /\
  (exists seed, 0 <= seed < 2 ^ 32 /\ (rand (srand seed)).1 < 0).
Proof. split; [by vm_compute|]. exists 130000. split; [lia|]. by vm_compute. Qed.

(** ** Exit handlers *)

Lemma atexit_keeps hs gs :
  exists more, fold_left (fun hs g => (atexit (Some g) hs).2) gs hs = hs ++ more.
Proof.
  revert hs. induction gs as [|g gs IH]; intros hs; [exists []; by rewrite app_nil_r|].
  cbn [fold_left]. destruct (IH (atexit (Some g) hs).2) as [more ->]. unfold atexit.
  case_if; cbn [snd]; [by exists more|]. exists (g :: more). by rewrite <- app_assoc.
Qed.

Lemma exit_from_spec registers hs more :
  exit_from registers (length hs) (hs ++ more) = Some (reverse hs).
Proof.
  revert more. induction hs as [|f hs IH] using rev_ind; intros more; [done|].
  rewrite length_app, Nat.add_1_r. cbn [exit_from]. rewrite <- app_assoc. cbn [app].
  rewrite list_lookup_middle by done. cbn [mbind option_bind].
  destruct (atexit_keeps (hs ++ f :: more) (registers f)) as [more' ->].
  rewrite <- app_assoc, IH. cbn [mbind option_bind]. by rewrite reverse_snoc.
Qed.

(** Exit runs exactly the handlers that were registered when it was called, in
    reverse order of registration, each once: a handler that a running handler
    registers is never run, whatever the handlers register. *)
Theorem exit_reverse_order (registers : Z -> list Z) (hs : list Z) :
  exit registers hs = Some (reverse hs).
Proof. unfold exit. rewrite <- (app_nil_r hs) at 2. apply exit_from_spec. Qed.

End LibcStdlib.
