(* ===== verification/Net.v ===== *)
(** * Net: the network stack of kernel/src/net.c

    Ethernet, ARP, IPv4, ICMP echo, DNS over UDP, the TCP client with its four
    connection slots, the HTTP/1.1 client with keep-alive, and the TCP stream
    below the TLS layer, as functions on one state record in the [ST] monad.

    - The globals of net.c are fields of [net].  A pointer into [g_arp_cache] or
      [g_tcp_conns] is the index of the entry, so that what is stored through it
      later is seen by everyone who holds it.
    - A frame handler's pointer is an offset into [g_rxframe]; every access is
      checked against the 2048 bytes of that array.
    - Memory a connection delivers into is [mem]: a user buffer is found under
      the page tables (CR3) that are active at the access, the kernel's
      [g_tcp_stream_rx] under all of them.
    - What happens outside of net.c is [env], a list of rounds: in a round the
      timer, the driver's transmit status and the set of living processes are
      constant and [r_frames] wait in the card.  [net_wait_yield] ends a round;
      while the caller is parked the main loop polls the card ([r_parked]) under
      the page tables of another process ([r_cr3]) and others may take or release
      the lock.  An empty [env] is [None]: the computation needs more rounds than
      are given.
    - [sent] collects the frames handed to the driver, oldest first. *)

From Stdlib Require Import ZArith Lia Bool ZifyBool.
From stdpp Require Import base numbers option list list_numbers gmap strings.
From S2P Require Import Prelude StateM.

Open Scope Z_scope.

Module Net.

(** ** Constants *)

Definition NET_IP : Z := 0x0A000210.
Definition NET_NETMASK : Z := 0xFFFFFF00.
Definition NET_GATEWAY : Z := 0x0A000202.
Definition NET_DNS : Z := 0x0A000203.
Definition ETHERTYPE_ARP : Z := 0x0806.
Definition ETHERTYPE_IP : Z := 0x0800.
Definition IP_PROTO_ICMP : Z := 1.
Definition IP_PROTO_UDP : Z := 17.
Definition IP_PROTO_TCP : Z := 6.
Definition DNS_PORT : Z := 53.
Definition DNS_SRC_PORT : Z := 0xC000.
Definition TCP_FIN : Z := 1.
Definition TCP_SYN : Z := 2.
Definition TCP_RST : Z := 4.
Definition TCP_PSH : Z := 8.
Definition TCP_ACK : Z := 16.
Definition TCP_CLOSED : Z := 0.
Definition TCP_SYN_SENT : Z := 1.
Definition TCP_ESTABLISHED : Z := 2.
Definition TCP_CLOSING : Z := 3.
Definition TCP_DONE : Z := 4.
Definition ARP_CACHE_SIZE : Z := 8.
Definition NET_MAX_CONNS : Z := 4.
Definition BROADCAST_MAC : list Z := replicate 6 255.

(** ** State *)

Record arp_entry := ArpEntry { ae_ip : Z; ae_mac : list Z; ae_valid : Z }.

Record tcp_conn := TcpConn {
  c_state : Z;
  c_remote_ip : Z;
  c_local_port : Z;
  c_remote_port : Z;
  c_snd_nxt : Z;
  c_rcv_nxt : Z;
  c_mac : list Z;
  c_rx_buf : Z;               (* pointer, 0 is null *)
  c_rx_cap : Z;
  c_rx_len : Z;
  c_rx_owner_cr3 : Z;
  c_peer_fin : Z;
  c_in_use : Z;
  c_idle : Z }.

Record round := Round {
  r_tick : Z;                 (* timer_tick_count *)
  r_tx : Z;                   (* result of the driver's transmit *)
  r_alive : list Z;           (* pids for which process_pid_alive holds *)
  r_frames : list (list Z);   (* frames waiting in the card *)
  r_parked : list (list Z);   (* frames the main loop polled while we were parked *)
  r_cr3 : Z;                  (* page tables it ran under *)
  r_lock : option (Z * Z) }.  (* g_net_locked, g_net_owner_pid as others left them *)

Record net := Net {
  g_mac : list Z;
  g_net_present : Z;
  g_net_locked : Z;
  g_net_owner_pid : Z;
  g_arp_cache : list arp_entry;
  g_last_reply_ip : Z;
  g_last_reply_id : Z;
  g_last_reply_seq : Z;
  g_got_reply : Z;
  g_dns_id : Z;
  g_dns_result_ip : Z;
  g_dns_got : Z;
  g_tcp_conns : list tcp_conn;
  g_conn_lock : bool;
  g_txframe : list Z;         (* 1518 bytes *)
  g_rxframe : list Z;         (* 2048 bytes *)
  g_stream_conn : option Z;   (* a slot of g_tcp_conns *)
  mem : gmap (Z * Z) (list Z);
  cr3 : Z;
  cur_pid : Z;                (* process_current_pid *)
  timer_hz : Z;               (* timer_frequency_hz *)
  sent : list (list Z);
  env : list round }.

Definition arp_empty : arp_entry := ArpEntry 0 (replicate 6 0) 0.
Definition conn_zero : tcp_conn := TcpConn 0 0 0 0 0 0 (replicate 6 0) 0 0 0 0 0 0 0.

(** ** Field updates *)

Definition set_c_state v (c : tcp_conn) : tcp_conn := TcpConn v (c_remote_ip c) (c_local_port c)
    (c_remote_port c) (c_snd_nxt c) (c_rcv_nxt c) (c_mac c) (c_rx_buf c) (c_rx_cap c) (c_rx_len c)
    (c_rx_owner_cr3 c) (c_peer_fin c) (c_in_use c) (c_idle c).
Definition set_c_remote_ip v (c : tcp_conn) : tcp_conn := TcpConn (c_state c) v (c_local_port c)
    (c_remote_port c) (c_snd_nxt c) (c_rcv_nxt c) (c_mac c) (c_rx_buf c) (c_rx_cap c) (c_rx_len c)
    (c_rx_owner_cr3 c) (c_peer_fin c) (c_in_use c) (c_idle c).
Definition set_c_local_port v (c : tcp_conn) : tcp_conn := TcpConn (c_state c) (c_remote_ip c) v
    (c_remote_port c) (c_snd_nxt c) (c_rcv_nxt c) (c_mac c) (c_rx_buf c) (c_rx_cap c) (c_rx_len c)
    (c_rx_owner_cr3 c) (c_peer_fin c) (c_in_use c) (c_idle c).
Definition set_c_remote_port v (c : tcp_conn) : tcp_conn := TcpConn (c_state c) (c_remote_ip c)
    (c_local_port c) v (c_snd_nxt c) (c_rcv_nxt c) (c_mac c) (c_rx_buf c) (c_rx_cap c) (c_rx_len c)
    (c_rx_owner_cr3 c) (c_peer_fin c) (c_in_use c) (c_idle c).
Definition set_c_snd_nxt v (c : tcp_conn) : tcp_conn := TcpConn (c_state c) (c_remote_ip c)
    (c_local_port c) (c_remote_port c) v (c_rcv_nxt c) (c_mac c) (c_rx_buf c) (c_rx_cap c) (c_rx_len
    c) (c_rx_owner_cr3 c) (c_peer_fin c) (c_in_use c) (c_idle c).
Definition set_c_rcv_nxt v (c : tcp_conn) : tcp_conn := TcpConn (c_state c) (c_remote_ip c)
    (c_local_port c) (c_remote_port c) (c_snd_nxt c) v (c_mac c) (c_rx_buf c) (c_rx_cap c) (c_rx_len
    c) (c_rx_owner_cr3 c) (c_peer_fin c) (c_in_use c) (c_idle c).
Definition set_c_mac v (c : tcp_conn) : tcp_conn := TcpConn (c_state c) (c_remote_ip c)
    (c_local_port c) (c_remote_port c) (c_snd_nxt c) (c_rcv_nxt c) v (c_rx_buf c) (c_rx_cap c)
    (c_rx_len c) (c_rx_owner_cr3 c) (c_peer_fin c) (c_in_use c) (c_idle c).
Definition set_c_rx_buf v (c : tcp_conn) : tcp_conn := TcpConn (c_state c) (c_remote_ip c)
    (c_local_port c) (c_remote_port c) (c_snd_nxt c) (c_rcv_nxt c) (c_mac c) v (c_rx_cap c)
    (c_rx_len c) (c_rx_owner_cr3 c) (c_peer_fin c) (c_in_use c) (c_idle c).
Definition set_c_rx_cap v (c : tcp_conn) : tcp_conn := TcpConn (c_state c) (c_remote_ip c)
    (c_local_port c) (c_remote_port c) (c_snd_nxt c) (c_rcv_nxt c) (c_mac c) (c_rx_buf c) v
    (c_rx_len c) (c_rx_owner_cr3 c) (c_peer_fin c) (c_in_use c) (c_idle c).
Definition set_c_rx_len v (c : tcp_conn) : tcp_conn := TcpConn (c_state c) (c_remote_ip c)
    (c_local_port c) (c_remote_port c) (c_snd_nxt c) (c_rcv_nxt c) (c_mac c) (c_rx_buf c) (c_rx_cap
    c) v (c_rx_owner_cr3 c) (c_peer_fin c) (c_in_use c) (c_idle c).
Definition set_c_rx_owner_cr3 v (c : tcp_conn) : tcp_conn := TcpConn (c_state c) (c_remote_ip c)
    (c_local_port c) (c_remote_port c) (c_snd_nxt c) (c_rcv_nxt c) (c_mac c) (c_rx_buf c) (c_rx_cap
    c) (c_rx_len c) v (c_peer_fin c) (c_in_use c) (c_idle c).
Definition set_c_peer_fin v (c : tcp_conn) : tcp_conn := TcpConn (c_state c) (c_remote_ip c)
    (c_local_port c) (c_remote_port c) (c_snd_nxt c) (c_rcv_nxt c) (c_mac c) (c_rx_buf c) (c_rx_cap
    c) (c_rx_len c) (c_rx_owner_cr3 c) v (c_in_use c) (c_idle c).
Definition set_c_in_use v (c : tcp_conn) : tcp_conn := TcpConn (c_state c) (c_remote_ip c)
    (c_local_port c) (c_remote_port c) (c_snd_nxt c) (c_rcv_nxt c) (c_mac c) (c_rx_buf c) (c_rx_cap
    c) (c_rx_len c) (c_rx_owner_cr3 c) (c_peer_fin c) v (c_idle c).
Definition set_c_idle v (c : tcp_conn) : tcp_conn := TcpConn (c_state c) (c_remote_ip c)
    (c_local_port c) (c_remote_port c) (c_snd_nxt c) (c_rcv_nxt c) (c_mac c) (c_rx_buf c) (c_rx_cap
    c) (c_rx_len c) (c_rx_owner_cr3 c) (c_peer_fin c) (c_in_use c) v.

Definition set_g_mac v (s : net) : net := Net v (g_net_present s) (g_net_locked s) (g_net_owner_pid
    s) (g_arp_cache s) (g_last_reply_ip s) (g_last_reply_id s) (g_last_reply_seq s) (g_got_reply s)
    (g_dns_id s) (g_dns_result_ip s) (g_dns_got s) (g_tcp_conns s) (g_conn_lock s) (g_txframe s)
    (g_rxframe s) (g_stream_conn s) (mem s) (cr3 s) (cur_pid s) (timer_hz s) (sent s) (env s).
Definition set_g_net_present v (s : net) : net := Net (g_mac s) v (g_net_locked s) (g_net_owner_pid
    s) (g_arp_cache s) (g_last_reply_ip s) (g_last_reply_id s) (g_last_reply_seq s) (g_got_reply s)
    (g_dns_id s) (g_dns_result_ip s) (g_dns_got s) (g_tcp_conns s) (g_conn_lock s) (g_txframe s)
    (g_rxframe s) (g_stream_conn s) (mem s) (cr3 s) (cur_pid s) (timer_hz s) (sent s) (env s).
Definition set_g_net_locked v (s : net) : net := Net (g_mac s) (g_net_present s) v (g_net_owner_pid
    s) (g_arp_cache s) (g_last_reply_ip s) (g_last_reply_id s) (g_last_reply_seq s) (g_got_reply s)
    (g_dns_id s) (g_dns_result_ip s) (g_dns_got s) (g_tcp_conns s) (g_conn_lock s) (g_txframe s)
    (g_rxframe s) (g_stream_conn s) (mem s) (cr3 s) (cur_pid s) (timer_hz s) (sent s) (env s).
Definition set_g_net_owner_pid v (s : net) : net := Net (g_mac s) (g_net_present s) (g_net_locked s)
    v (g_arp_cache s) (g_last_reply_ip s) (g_last_reply_id s) (g_last_reply_seq s) (g_got_reply s)
    (g_dns_id s) (g_dns_result_ip s) (g_dns_got s) (g_tcp_conns s) (g_conn_lock s) (g_txframe s)
    (g_rxframe s) (g_stream_conn s) (mem s) (cr3 s) (cur_pid s) (timer_hz s) (sent s) (env s).
Definition set_g_arp_cache v (s : net) : net := Net (g_mac s) (g_net_present s) (g_net_locked s)
    (g_net_owner_pid s) v (g_last_reply_ip s) (g_last_reply_id s) (g_last_reply_seq s) (g_got_reply
    s) (g_dns_id s) (g_dns_result_ip s) (g_dns_got s) (g_tcp_conns s) (g_conn_lock s) (g_txframe s)
    (g_rxframe s) (g_stream_conn s) (mem s) (cr3 s) (cur_pid s) (timer_hz s) (sent s) (env s).
Definition set_g_last_reply_ip v (s : net) : net := Net (g_mac s) (g_net_present s) (g_net_locked s)
    (g_net_owner_pid s) (g_arp_cache s) v (g_last_reply_id s) (g_last_reply_seq s) (g_got_reply s)
    (g_dns_id s) (g_dns_result_ip s) (g_dns_got s) (g_tcp_conns s) (g_conn_lock s) (g_txframe s)
    (g_rxframe s) (g_stream_conn s) (mem s) (cr3 s) (cur_pid s) (timer_hz s) (sent s) (env s).
Definition set_g_last_reply_id v (s : net) : net := Net (g_mac s) (g_net_present s) (g_net_locked s)
    (g_net_owner_pid s) (g_arp_cache s) (g_last_reply_ip s) v (g_last_reply_seq s) (g_got_reply s)
    (g_dns_id s) (g_dns_result_ip s) (g_dns_got s) (g_tcp_conns s) (g_conn_lock s) (g_txframe s)
    (g_rxframe s) (g_stream_conn s) (mem s) (cr3 s) (cur_pid s) (timer_hz s) (sent s) (env s).
Definition set_g_last_reply_seq v (s : net) : net := Net (g_mac s) (g_net_present s) (g_net_locked
    s) (g_net_owner_pid s) (g_arp_cache s) (g_last_reply_ip s) (g_last_reply_id s) v (g_got_reply s)
    (g_dns_id s) (g_dns_result_ip s) (g_dns_got s) (g_tcp_conns s) (g_conn_lock s) (g_txframe s)
    (g_rxframe s) (g_stream_conn s) (mem s) (cr3 s) (cur_pid s) (timer_hz s) (sent s) (env s).
Definition set_g_got_reply v (s : net) : net := Net (g_mac s) (g_net_present s) (g_net_locked s)
    (g_net_owner_pid s) (g_arp_cache s) (g_last_reply_ip s) (g_last_reply_id s) (g_last_reply_seq s)
    v (g_dns_id s) (g_dns_result_ip s) (g_dns_got s) (g_tcp_conns s) (g_conn_lock s) (g_txframe s)
    (g_rxframe s) (g_stream_conn s) (mem s) (cr3 s) (cur_pid s) (timer_hz s) (sent s) (env s).
Definition set_g_dns_id v (s : net) : net := Net (g_mac s) (g_net_present s) (g_net_locked s)
    (g_net_owner_pid s) (g_arp_cache s) (g_last_reply_ip s) (g_last_reply_id s) (g_last_reply_seq s)
    (g_got_reply s) v (g_dns_result_ip s) (g_dns_got s) (g_tcp_conns s) (g_conn_lock s) (g_txframe
    s) (g_rxframe s) (g_stream_conn s) (mem s) (cr3 s) (cur_pid s) (timer_hz s) (sent s) (env s).
Definition set_g_dns_result_ip v (s : net) : net := Net (g_mac s) (g_net_present s) (g_net_locked s)
    (g_net_owner_pid s) (g_arp_cache s) (g_last_reply_ip s) (g_last_reply_id s) (g_last_reply_seq s)
    (g_got_reply s) (g_dns_id s) v (g_dns_got s) (g_tcp_conns s) (g_conn_lock s) (g_txframe s)
    (g_rxframe s) (g_stream_conn s) (mem s) (cr3 s) (cur_pid s) (timer_hz s) (sent s) (env s).
Definition set_g_dns_got v (s : net) : net := Net (g_mac s) (g_net_present s) (g_net_locked s)
    (g_net_owner_pid s) (g_arp_cache s) (g_last_reply_ip s) (g_last_reply_id s) (g_last_reply_seq s)
    (g_got_reply s) (g_dns_id s) (g_dns_result_ip s) v (g_tcp_conns s) (g_conn_lock s) (g_txframe s)
    (g_rxframe s) (g_stream_conn s) (mem s) (cr3 s) (cur_pid s) (timer_hz s) (sent s) (env s).
Definition set_g_tcp_conns v (s : net) : net := Net (g_mac s) (g_net_present s) (g_net_locked s)
    (g_net_owner_pid s) (g_arp_cache s) (g_last_reply_ip s) (g_last_reply_id s) (g_last_reply_seq s)
    (g_got_reply s) (g_dns_id s) (g_dns_result_ip s) (g_dns_got s) v (g_conn_lock s) (g_txframe s)
    (g_rxframe s) (g_stream_conn s) (mem s) (cr3 s) (cur_pid s) (timer_hz s) (sent s) (env s).
Definition set_g_conn_lock v (s : net) : net := Net (g_mac s) (g_net_present s) (g_net_locked s)
    (g_net_owner_pid s) (g_arp_cache s) (g_last_reply_ip s) (g_last_reply_id s) (g_last_reply_seq s)
    (g_got_reply s) (g_dns_id s) (g_dns_result_ip s) (g_dns_got s) (g_tcp_conns s) v (g_txframe s)
    (g_rxframe s) (g_stream_conn s) (mem s) (cr3 s) (cur_pid s) (timer_hz s) (sent s) (env s).
Definition set_g_txframe v (s : net) : net := Net (g_mac s) (g_net_present s) (g_net_locked s)
    (g_net_owner_pid s) (g_arp_cache s) (g_last_reply_ip s) (g_last_reply_id s) (g_last_reply_seq s)
    (g_got_reply s) (g_dns_id s) (g_dns_result_ip s) (g_dns_got s) (g_tcp_conns s) (g_conn_lock s) v
    (g_rxframe s) (g_stream_conn s) (mem s) (cr3 s) (cur_pid s) (timer_hz s) (sent s) (env s).
Definition set_g_rxframe v (s : net) : net := Net (g_mac s) (g_net_present s) (g_net_locked s)
    (g_net_owner_pid s) (g_arp_cache s) (g_last_reply_ip s) (g_last_reply_id s) (g_last_reply_seq s)
    (g_got_reply s) (g_dns_id s) (g_dns_result_ip s) (g_dns_got s) (g_tcp_conns s) (g_conn_lock s)
    (g_txframe s) v (g_stream_conn s) (mem s) (cr3 s) (cur_pid s) (timer_hz s) (sent s) (env s).
Definition set_g_stream_conn v (s : net) : net := Net (g_mac s) (g_net_present s) (g_net_locked s)
    (g_net_owner_pid s) (g_arp_cache s) (g_last_reply_ip s) (g_last_reply_id s) (g_last_reply_seq s)
    (g_got_reply s) (g_dns_id s) (g_dns_result_ip s) (g_dns_got s) (g_tcp_conns s) (g_conn_lock s)
    (g_txframe s) (g_rxframe s) v (mem s) (cr3 s) (cur_pid s) (timer_hz s) (sent s) (env s).
Definition set_mem v (s : net) : net := Net (g_mac s) (g_net_present s) (g_net_locked s)
    (g_net_owner_pid s) (g_arp_cache s) (g_last_reply_ip s) (g_last_reply_id s) (g_last_reply_seq s)
    (g_got_reply s) (g_dns_id s) (g_dns_result_ip s) (g_dns_got s) (g_tcp_conns s) (g_conn_lock s)
    (g_txframe s) (g_rxframe s) (g_stream_conn s) v (cr3 s) (cur_pid s) (timer_hz s) (sent s) (env
    s).
Definition set_cr3 v (s : net) : net := Net (g_mac s) (g_net_present s) (g_net_locked s)
    (g_net_owner_pid s) (g_arp_cache s) (g_last_reply_ip s) (g_last_reply_id s) (g_last_reply_seq s)
    (g_got_reply s) (g_dns_id s) (g_dns_result_ip s) (g_dns_got s) (g_tcp_conns s) (g_conn_lock s)
    (g_txframe s) (g_rxframe s) (g_stream_conn s) (mem s) v (cur_pid s) (timer_hz s) (sent s) (env
    s).
Definition set_sent v (s : net) : net := Net (g_mac s) (g_net_present s) (g_net_locked s)
    (g_net_owner_pid s) (g_arp_cache s) (g_last_reply_ip s) (g_last_reply_id s) (g_last_reply_seq s)
    (g_got_reply s) (g_dns_id s) (g_dns_result_ip s) (g_dns_got s) (g_tcp_conns s) (g_conn_lock s)
    (g_txframe s) (g_rxframe s) (g_stream_conn s) (mem s) (cr3 s) (cur_pid s) (timer_hz s) v (env
    s).
Definition set_env v (s : net) : net := Net (g_mac s) (g_net_present s) (g_net_locked s)
    (g_net_owner_pid s) (g_arp_cache s) (g_last_reply_ip s) (g_last_reply_id s) (g_last_reply_seq s)
    (g_got_reply s) (g_dns_id s) (g_dns_result_ip s) (g_dns_got s) (g_tcp_conns s) (g_conn_lock s)
    (g_txframe s) (g_rxframe s) (g_stream_conn s) (mem s) (cr3 s) (cur_pid s) (timer_hz s) (sent s)
    v.
(** ** Accessors of the monad *)

Definition here : ST net round := s ← reads env; must (head s).
Definition timer_tick_count : ST net Z := r ← here; mret (r_tick r).

Definition conn (i : Z) : ST net tcp_conn := cs ← reads g_tcp_conns; must (aget cs i).
Definition on_conn (i : Z) (f : tcp_conn -> tcp_conn) : ST net () :=
  c ← conn i; try_update (fun s => cs ← aset (g_tcp_conns s) i (f c); Some (set_g_tcp_conns cs s)).

(** The buffer at pointer [p]; [STREAM_RX] is the address of g_tcp_stream_rx. *)
Definition STREAM_RX : Z := 1.
Definition mkey (space p : Z) : Z * Z := if p =? STREAM_RX then (0, p) else (space, p).
Definition buffer (p : Z) : ST net (list Z) := s ← reads (fun s => mem s !! mkey (cr3 s) p); must s.
(** Store [bs] at [p + off]. *)
Definition poke (p off : Z) (bs : list Z) : ST net () :=
  try_update (fun s =>
    b ← mem s !! mkey (cr3 s) p; b' ← splice b off bs;
    Some (set_mem (<[mkey (cr3 s) p := b']> (mem s)) s)).

(** ** Byte order *)

Definition hton16 (v : Z) : Z := u16 (Z.lor (Z.shiftr v 8) (Z.shiftl v 8)).
Definition ntoh16 (v : Z) : Z := hton16 v.
Definition hton32 (v : Z) : Z :=
  Z.lor (Z.lor (Z.lor (u32 (Z.shiftl (Z.land v 0xff) 24)) (u32 (Z.shiftl (Z.land v 0xff00) 8)))
               (Z.shiftr (Z.land v 0xff0000) 8)) (Z.land (Z.shiftr v 24) 0xff).
Definition ntoh32 (v : Z) : Z := hton32 v.

Definition rd8 (buf : list Z) (p : Z) : option Z := aget buf p.
Definition rd16 (buf : list Z) (p : Z) : option Z :=
  a ← aget buf p; b ← aget buf (p + 1); Some (u16 (Z.lor (Z.shiftl a 8) b)).
Definition rd32 (buf : list Z) (p : Z) : option Z :=
  a ← aget buf p; b ← aget buf (p + 1); c ← aget buf (p + 2); d ← aget buf (p + 3);
  Some (Z.lor (Z.lor (Z.lor (u32 (Z.shiftl a 24)) (Z.shiftl b 16)) (Z.shiftl c 8)) d).

Definition be16 (v : Z) : list Z := [u8 (Z.shiftr v 8); u8 v].
Definition be32 (v : Z) : list Z := [u8 (Z.shiftr v 24); u8 (Z.shiftr v 16); u8 (Z.shiftr v 8); u8 v].

(** Stores into g_txframe. *)
Definition tx_put (off : Z) (bs : list Z) : ST net () :=
  try_update (fun s => f ← splice (g_txframe s) off bs; Some (set_g_txframe f s)).
Definition wr8 (p v : Z) : ST net () := tx_put p [u8 v].
Definition wr16 (p v : Z) : ST net () := tx_put p (be16 v).
Definition wr32 (p v : Z) : ST net () := tx_put p (be32 v).

(** ** Checksums *)

(** The summation loop over the bytes of the buffer, with its odd last byte. *)
Fixpoint sum_words (sum : Z) (bs : list Z) : Z :=
  match bs with
  | a :: b :: bs' => sum_words (u32 (sum + Z.lor (Z.shiftl a 8) b)) bs'
  | [a] => u32 (sum + Z.shiftl a 8)
  | [] => sum
  end.

(** [while (sum >> 16) sum = (sum & 0xffff) + (sum >> 16)] *)
Definition fold_carries (sum : Z) : option Z :=
  loop 3 (fun sum =>
    if truth (Z.shiftr sum 16) then Some (inl (u32 (Z.land sum 0xffff + Z.shiftr sum 16)))
    else Some (inr sum)) sum.

Definition complement16 (sum : Z) : Z := u16 (Z.land (Z.lnot sum) 0xffff).

Definition ip_checksum (buf : list Z) (p length : Z) : option Z :=
  bs ← slice buf p length; sum ← fold_carries (sum_words 0 bs); Some (complement16 sum).

Definition tcp_checksum (src_ip dst_ip : Z) (buf : list Z) (seg seg_len : Z) : option Z :=
  let sum := u32 (Z.land (Z.shiftr src_ip 16) 0xffff) in
  let sum := u32 (sum + Z.land src_ip 0xffff) in
  let sum := u32 (sum + Z.land (Z.shiftr dst_ip 16) 0xffff) in
  let sum := u32 (sum + Z.land dst_ip 0xffff) in
  let sum := u32 (sum + IP_PROTO_TCP) in
  let sum := u32 (sum + seg_len) in
  bs ← slice buf seg seg_len; sum ← fold_carries (sum_words sum bs); Some (complement16 sum).

(** ** ARP cache *)

Definition arp_hit (ip : Z) (e : arp_entry) : bool := truth (ae_valid e) && (ae_ip e =? ip).

Fixpoint arp_lookup_from (cache : list arp_entry) (ip i : Z) : option Z :=
  match cache with
  | [] => None
  | e :: cache' => if arp_hit ip e then Some i else arp_lookup_from cache' ip (i + 1)
  end.

(** The index of the entry whose mac field the C function points to. *)
Definition arp_lookup (ip : Z) : ST net (option Z) :=
  reads (fun s => arp_lookup_from (g_arp_cache s) ip 0).

(** The bytes behind a pointer that arp_lookup returned. *)
Definition mac_at (slot : Z) : ST net (list Z) :=
  cache ← reads g_arp_cache; e ← must (aget cache slot); mret (ae_mac e).

Fixpoint arp_slot_from (cache : list arp_entry) (ip i slot : Z) : Z :=
  match cache with
  | [] => slot
  | e :: cache' =>
      if arp_hit ip e then i
      else arp_slot_from cache' ip (i + 1) (if truth (ae_valid e) then slot else i)
  end.

Definition arp_store (ip : Z) (mac : list Z) (cache : list arp_entry) : option (list arp_entry) :=
  aset cache (arp_slot_from cache ip 0 0) (ArpEntry ip mac 1).

Definition arp_insert (ip : Z) (mac : list Z) : ST net () :=
  try_update (fun s => cache ← arp_store ip mac (g_arp_cache s); Some (set_g_arp_cache cache s)).

(** ** Frame construction *)

Definition netdev_transmit (length : Z) : ST net Z :=
  f ← reads g_txframe; bs ← must (slice f 0 length);
  _ ← update (fun s => set_sent (sent s ++ [bs]) s);
  r ← here; mret (r_tx r).

Definition eth_build_header (dst_mac : list Z) (ethertype : Z) : ST net () :=
  _ ← tx_put 0 dst_mac; m ← reads g_mac; _ ← tx_put 6 m; wr16 12 ethertype.

Definition arp_header (oper : Z) : ST net () :=
  _ ← wr16 (14 + 0) 1; _ ← wr16 (14 + 2) ETHERTYPE_IP; _ ← wr8 (14 + 4) 6; _ ← wr8 (14 + 5) 4;
  _ ← wr16 (14 + 6) oper; m ← reads g_mac; _ ← tx_put (14 + 8) m; wr32 (14 + 14) NET_IP.

Definition send_arp_request (target_ip : Z) : ST net () :=
  _ ← eth_build_header BROADCAST_MAC ETHERTYPE_ARP; _ ← arp_header 1;
  _ ← tx_put (14 + 18) (replicate 6 0); _ ← wr32 (14 + 24) target_ip;
  _ ← netdev_transmit (14 + 28); mret tt.

Definition send_arp_reply (target_ip : Z) (target_mac : list Z) : ST net () :=
  _ ← eth_build_header target_mac ETHERTYPE_ARP; _ ← arp_header 2;
  _ ← tx_put (14 + 18) target_mac; _ ← wr32 (14 + 24) target_ip;
  _ ← netdev_transmit (14 + 28); mret tt.

(** The IPv4 header at offset 14, written after the payload; the last store is
    the checksum over the 20 bytes. *)
Definition ip_header (ip_total proto dst_ip : Z) : ST net () :=
  _ ← wr8 14 0x45; _ ← wr8 (14 + 1) 0; _ ← wr16 (14 + 2) ip_total; _ ← wr16 (14 + 4) 0;
  _ ← wr16 (14 + 6) 0x4000; _ ← wr8 (14 + 8) 64; _ ← wr8 (14 + 9) proto; _ ← wr16 (14 + 10) 0;
  _ ← wr32 (14 + 12) NET_IP; _ ← wr32 (14 + 16) dst_ip;
  f ← reads g_txframe; sum ← must (ip_checksum f 14 20); wr16 (14 + 10) sum.

Definition flag (flags bit : Z) : bool := truth (Z.land flags bit).

Definition free_window (c : tcp_conn) : option Z :=
  free_space ← i32 (c_rx_cap c - c_rx_len c);
  let free_space := if free_space <? 0 then 0 else free_space in
  Some (u16 (if 0xFFFF <? free_space then 0xFFFF else free_space)).

Definition tcp_send (i flags : Z) (payload : list Z) (payload_len : Z) : ST net Z :=
  let tcp := 14 + 20 in
  let seg_len := u16 (20 + payload_len) in
  let ip_total := u16 (20 + seg_len) in
  c ← conn i;
  _ ← eth_build_header (c_mac c) ETHERTYPE_IP;
  _ ← wr16 (tcp + 0) (c_local_port c); _ ← wr16 (tcp + 2) (c_remote_port c);
  _ ← wr32 (tcp + 4) (c_snd_nxt c);
  _ ← wr32 (tcp + 8) (if flag flags TCP_ACK then c_rcv_nxt c else 0);
  _ ← wr8 (tcp + 12) 0x50; _ ← wr8 (tcp + 13) flags;
  w ← must (free_window c); _ ← wr16 (tcp + 14) w;
  _ ← wr16 (tcp + 16) 0; _ ← wr16 (tcp + 18) 0;
  bs ← must (slice payload 0 payload_len); _ ← tx_put (tcp + 20) bs;
  f ← reads g_txframe; sum ← must (tcp_checksum NET_IP (c_remote_ip c) f tcp seg_len);
  _ ← wr16 (tcp + 16) sum;
  _ ← ip_header ip_total IP_PROTO_TCP (c_remote_ip c);
  netdev_transmit (u16 (14 + ip_total)).

Definition send_icmp_echo (dst_ip : Z) (dst_mac : list Z) (id seq : Z) : ST net () :=
  let icmp := 14 + 20 in
  _ ← eth_build_header dst_mac ETHERTYPE_IP;
  _ ← wr8 (icmp + 0) 8; _ ← wr8 (icmp + 1) 0; _ ← wr16 (icmp + 2) 0;
  _ ← wr16 (icmp + 4) id; _ ← wr16 (icmp + 6) seq;
  _ ← tx_put (icmp + 8) (map (fun i => u8 (97 + i mod 26)) (seqZ 0 32));
  f ← reads g_txframe; sum ← must (ip_checksum f icmp (8 + 32)); _ ← wr16 (icmp + 2) sum;
  _ ← ip_header (20 + 8 + 32) IP_PROTO_ICMP dst_ip;
  _ ← netdev_transmit (14 + (20 + 8 + 32)); mret tt.

(** ** Inbound TCP *)

(** Copy into a connection's sink under the owner's page tables. *)
Definition net_copy_to_rx (owner dst off : Z) (bs : list Z) : ST net () :=
  if truth owner then
    prev ← reads cr3; _ ← update (set_cr3 owner); _ ← poke dst off bs; update (set_cr3 prev)
  else poke dst off bs.

Definition conn_matches (src_ip src_port dst_port : Z) (c : tcp_conn) : bool :=
  truth (c_in_use c) && negb (c_state c =? TCP_CLOSED) && (c_remote_ip c =? src_ip) &&
  (c_remote_port c =? src_port) && (c_local_port c =? dst_port).

Fixpoint find_conn (cs : list tcp_conn) (src_ip src_port dst_port i : Z) : option Z :=
  match cs with
  | [] => None
  | c :: cs' => if conn_matches src_ip src_port dst_port c then Some i
                else find_conn cs' src_ip src_port dst_port (i + 1)
  end.

(** In-order data: copy what fits, advance past all of it, acknowledge. *)
Definition accept_data (i payload payload_len : Z) : ST net () :=
  c ← conn i; f ← reads g_rxframe;
  sum ← must (i32 (c_rx_len c + payload_len));
  copy ← (if c_rx_cap c <? sum then must (i32 (c_rx_cap c - c_rx_len c)) else mret payload_len);
  _ ← (if 0 <? copy then
         bs ← must (slice f payload copy);
         _ ← net_copy_to_rx (c_rx_owner_cr3 c) (c_rx_buf c) (c_rx_len c) bs;
         on_conn i (set_c_rx_len (c_rx_len c + copy))
       else mret tt);
  _ ← on_conn i (fun c => set_c_rcv_nxt (u32 (c_rcv_nxt c + payload_len)) c);
  _ ← tcp_send i TCP_ACK [] 0; mret tt.

(** A segment for connection [i]: reset, handshake, data, end of stream. *)
Definition tcp_input (i seq flags payload payload_len : Z) : ST net () :=
  c ← conn i;
  if flag flags TCP_RST then on_conn i (set_c_state TCP_DONE)
  else if c_state c =? TCP_SYN_SENT then
    if flag flags TCP_SYN && flag flags TCP_ACK then
      _ ← on_conn i (set_c_rcv_nxt (u32 (seq + 1)));
      _ ← on_conn i (fun c => set_c_snd_nxt (u32 (c_snd_nxt c + 1)) c);
      _ ← tcp_send i TCP_ACK [] 0;
      on_conn i (set_c_state TCP_ESTABLISHED)
    else mret tt
  else
    _ ← (if (0 <? payload_len) && (seq =? c_rcv_nxt c) then accept_data i payload payload_len
         else mret tt);
    if flag flags TCP_FIN then
      _ ← on_conn i (fun c => set_c_rcv_nxt (u32 (c_rcv_nxt c + 1)) c);
      _ ← on_conn i (set_c_peer_fin 1);
      _ ← tcp_send i (Z.lor TCP_ACK TCP_FIN) [] 0;
      _ ← on_conn i (fun c => set_c_snd_nxt (u32 (c_snd_nxt c + 1)) c);
      on_conn i (set_c_state TCP_DONE)
    else mret tt.

Definition handle_tcp (ip tcp seg_len : Z) : ST net () :=
  f ← reads g_rxframe;
  src_port ← must (rd16 f (tcp + 0)); dst_port ← must (rd16 f (tcp + 2));
  seq ← must (rd32 f (tcp + 4)); flags ← must (rd8 f (tcp + 13)); off ← must (rd8 f (tcp + 12));
  let data_off := u8 (Z.shiftr off 4 * 4) in
  let payload_len := if data_off <? seg_len then u16 (seg_len - data_off) else 0 in
  let payload := tcp + data_off in
  src_ip ← must (rd32 f (ip + 12));
  cs ← reads g_tcp_conns;
  match find_conn cs src_ip src_port dst_port 0 with
  | None => mret tt
  | Some i => tcp_input i seq flags payload payload_len
  end.

(** ** Inbound processing *)

Definition handle_arp (len : Z) : ST net () :=
  if len <? 14 + 28 then mret tt
  else
    f ← reads g_rxframe;
    oper ← must (rd16 f (14 + 6)); sender_ip ← must (rd32 f (14 + 14));
    target_ip ← must (rd32 f (14 + 24)); sender_mac ← must (slice f (14 + 8) 6);
    _ ← arp_insert sender_ip sender_mac;
    if (oper =? 1) && (target_ip =? NET_IP) then send_arp_reply sender_ip sender_mac else mret tt.

(** The answer to an echo request, built from the request in g_rxframe. *)
Definition send_icmp_reply (src_ip icmp icmp_len : Z) : ST net () :=
  let ip_total := u16 (20 + icmp_len) in
  if 1518 <? ip_total + 14 then mret tt
  else
    f ← reads g_rxframe;
    src_mac ← must (slice f 6 6); _ ← eth_build_header src_mac ETHERTYPE_IP;
    body ← must (slice f icmp icmp_len); _ ← tx_put 34 body;
    _ ← wr8 34 0; _ ← wr16 (34 + 2) 0;
    g ← reads g_txframe; sum ← must (ip_checksum g 34 icmp_len); _ ← wr16 (34 + 2) sum;
    _ ← ip_header ip_total IP_PROTO_ICMP src_ip;
    _ ← netdev_transmit (14 + ip_total); mret tt.

Definition handle_icmp (ip icmp icmp_len : Z) : ST net () :=
  f ← reads g_rxframe;
  type ← must (rd8 f icmp); src_ip ← must (rd32 f (ip + 12));
  if type =? 0 then
    id ← must (rd16 f (icmp + 4)); seq ← must (rd16 f (icmp + 6));
    update (fun s => set_g_got_reply 1 (set_g_last_reply_seq seq
                       (set_g_last_reply_id id (set_g_last_reply_ip src_ip s))))
  else if type =? 8 then send_icmp_reply src_ip icmp icmp_len
  else mret tt.

(** Step over labels until the zero byte; with [stop], a compression pointer ends the
    name.  A name of more than 2048 labels leaves the frame first. *)
Definition skip_name (f : list Z) (stop : bool) (p : Z) : option Z :=
  loop 2049 (fun p =>
    b ← rd8 f p;
    if b =? 0 then Some (inr (p + 1))
    else if stop && (Z.land b 0xC0 =? 0xC0) then Some (inr (p + 2))
    else Some (inl (p + (b + 1)))) p.

Fixpoint skip_questions (f : list Z) (qdcount : nat) (p : Z) : option Z :=
  match qdcount with
  | O => Some p
  | S n => p ← skip_name f true p; skip_questions f n (p + 4)
  end.

(** The address of the first A record. *)
Fixpoint first_a_record (f : list Z) (ancount : nat) (p : Z) : option (option Z) :=
  match ancount with
  | O => Some None
  | S n =>
      b ← rd8 f p;
      p ← (if Z.land b 0xC0 =? 0xC0 then Some (p + 2) else skip_name f false p);
      type ← rd16 f (p + 0); rdlength ← rd16 f (p + 8);
      if (type =? 1) && (rdlength =? 4) then a ← rd32 f (p + 10); Some (Some a)
      else first_a_record f n (p + (10 + rdlength))
  end.

Definition handle_dns (dns : Z) : ST net () :=
  f ← reads g_rxframe;
  id ← must (rd16 f (dns + 0)); ancount ← must (rd16 f (dns + 6)); qdcount ← must (rd16 f (dns + 4));
  p ← must (skip_questions f (Z.to_nat qdcount) (dns + 12));
  a ← must (first_a_record f (Z.to_nat ancount) p);
  match a with
  | Some addr => update (fun s => set_g_dns_got 1 (set_g_dns_id id (set_g_dns_result_ip addr s)))
  | None => mret tt
  end.

Definition handle_udp (udp : Z) : ST net () :=
  f ← reads g_rxframe;
  src_port ← must (rd16 f (udp + 0));
  if negb (src_port =? DNS_PORT) then mret tt
  else dst_port ← must (rd16 f (udp + 2));
    if negb (dst_port =? DNS_SRC_PORT) then mret tt else handle_dns (udp + 8).

Definition handle_ip (len : Z) : ST net () :=
  let ip := 14 in
  if len <? 14 + 20 then mret tt
  else
    f ← reads g_rxframe;
    b0 ← must (rd8 f ip);
    let ihl := u8 (Z.land b0 0x0f * 4) in
    total ← must (rd16 f (ip + 2)); dst_ip ← must (rd32 f (ip + 16)); proto ← must (rd8 f (ip + 9));
    if negb (dst_ip =? NET_IP) then mret tt
    else if (proto =? IP_PROTO_ICMP) && (ihl + 8 <=? total) then
      handle_icmp ip (ip + ihl) (u16 (total - ihl))
    else if (proto =? IP_PROTO_TCP) && (ihl + 20 <=? total) then
      handle_tcp ip (ip + ihl) (u16 (total - ihl))
    else if (proto =? IP_PROTO_UDP) && (ihl + 8 <=? total) then handle_udp (ip + ihl)
    else mret tt.

(** One frame, as the body of net_poll's loop treats it. *)
Definition receive (frame : list Z) : ST net () :=
  let n := Z.of_nat (length frame) in
  _ ← try_update (fun s => f ← splice (g_rxframe s) 0 frame; Some (set_g_rxframe f s));
  if n <? 14 then mret tt
  else
    f ← reads g_rxframe; ethertype ← must (rd16 f 12);
    if ethertype =? ETHERTYPE_ARP then handle_arp (u16 n)
    else if ethertype =? ETHERTYPE_IP then handle_ip (u16 n)
    else mret tt.

Definition set_waiting (fs : list (list Z)) (s : net) : net :=
  match env s with
  | r :: rs => set_env (Round (r_tick r) (r_tx r) (r_alive r) fs (r_parked r) (r_cr3 r) (r_lock r) :: rs) s
  | [] => s
  end.

(** The driver delivers at most 2048 bytes of a frame; an empty one ends the loop. *)
Fixpoint poll_frames (fs : list (list Z)) : ST net () :=
  match fs with
  | [] => mret tt
  | f :: fs' =>
      _ ← update (set_waiting fs');
      match f with
      | [] => mret tt
      | _ => _ ← receive (take 2048 f); poll_frames fs'
      end
  end.

Definition net_poll : ST net () :=
  present ← reads g_net_present;
  if negb (truth present) then mret tt else r ← here; poll_frames (r_frames r).

(** [nic]: the card's address, when netdev_init finds a card. *)
Definition net_init (nic : option (list Z)) : ST net () :=
  _ ← update (fun s => set_g_got_reply 0 (set_g_arp_cache (replicate 8 arp_empty) s));
  match nic with
  | None => mret tt
  | Some m => update (fun s => set_g_net_present 1 (set_g_mac m s))
  end.

Record net_info := NetInfo { ni_up : Z; ni_mac : list Z; ni_ip : Z; ni_netmask : Z; ni_gateway : Z }.
Definition net_get_info : ST net net_info :=
  reads (fun s => NetInfo (g_net_present s) (g_mac s) NET_IP NET_NETMASK NET_GATEWAY).

(** ** Waiting *)

(** The next round: the main loop polls while the caller is parked. *)
Definition net_wait_yield : ST net () :=
  e ← reads env;
  match e with
  | _ :: r :: rs =>
      own ← reads cr3;
      _ ← update (fun s => set_cr3 (r_cr3 r) (set_env
             (Round (r_tick r) (r_tx r) (r_alive r) (r_parked r) [] (r_cr3 r) (r_lock r) :: rs) s));
      _ ← net_poll;
      update (fun s =>
        let s := set_cr3 own (set_env
          (Round (r_tick r) (r_tx r) (r_alive r) (r_frames r) [] (r_cr3 r) (r_lock r) :: rs) s) in
        match r_lock r with
        | Some (l, o) => set_g_net_owner_pid o (set_g_net_locked l s)
        | None => s
        end)
  | _ => undefined
  end.

(** A loop of the wait functions: each turn that goes on ends in
    net_wait_yield, so one turn per round is enough fuel. *)
Fixpoint turns {A B} (fuel : nat) (step : A -> ST net (A + B)) (a : A) : ST net B :=
  match fuel with
  | O => undefined
  | S n => r ← step a; match r with inl a' => turns n step a' | inr b => mret b end
  end.
Definition waiting {A B} (step : A -> ST net (A + B)) (a : A) : ST net B :=
  e ← reads env; turns (S (length e)) step a.

Definition deadline_after (timeout_ms : Z) : ST net Z :=
  hz ← reads timer_hz; t ← timer_tick_count;
  mret (u64 (t + u64 (u64 timeout_ms * hz) / 1000 + 1)).
Definition spin_limit (timeout_ms : Z) : Z := u64 (u64 (u64 timeout_ms * 200000) + 1000000).

(** [while (timer_tick_count() < deadline && spins-- > 0)
      { net_poll(); if (test) return; net_wait_yield(); }] *)
Definition wait_until {R} (deadline spins : Z) (test : ST net (option R)) : ST net (option R) :=
  waiting (fun spins =>
    t ← timer_tick_count;
    if negb (t <? deadline) then mret (inr None)
    else if negb (0 <? spins) then mret (inr None)
    else
      _ ← net_poll; r ← test;
      match r with
      | Some x => mret (inr (Some x))
      | None => _ ← net_wait_yield; mret (inl (u64 (spins - 1)))
      end) spins.

Definition net_lock : ST net () :=
  _ ← waiting (fun _ : () =>
    l ← reads g_net_locked;
    if negb (truth l) then mret (inr tt)
    else
      o ← reads g_net_owner_pid; r ← here;
      if truth o && negb (bool_decide (o ∈ r_alive r)) then mret (inr tt)
      else _ ← net_poll; _ ← net_wait_yield; mret (inl tt)) tt;
  update (fun s => set_g_net_owner_pid (cur_pid s) (set_g_net_locked 1 s)).

Definition net_unlock : ST net () :=
  update (fun s => set_g_net_locked 0 (set_g_net_owner_pid 0 s)).

Definition next_hop (dst_ip : Z) : Z :=
  if Z.land dst_ip NET_NETMASK =? Z.land NET_IP NET_NETMASK then dst_ip else NET_GATEWAY.

Definition resolve_mac (dst_ip timeout_ms : Z) : ST net (option Z) :=
  m ← arp_lookup (next_hop dst_ip);
  match m with
  | Some slot => mret (Some slot)
  | None =>
      _ ← send_arp_request (next_hop dst_ip);
      deadline ← deadline_after timeout_ms;
      wait_until deadline (spin_limit timeout_ms) (arp_lookup (next_hop dst_ip))
  end.

(** ** Ping *)

(** Conversion to int. *)
Definition to_int (v : Z) : Z := if u32 v <? 2 ^ 31 then u32 v else u32 v - 2 ^ 32.

Definition ping_one (dst_ip slot seq timeout_ms : Z) : ST net (option Z) :=
  hz ← reads timer_hz; start ← timer_tick_count; deadline ← deadline_after timeout_ms;
  _ ← update (set_g_got_reply 0);
  mac ← mac_at slot; _ ← send_icmp_echo dst_ip mac 0x1234 (u16 seq);
  wait_until deadline (spin_limit timeout_ms)
    (s ← reads id;
     if truth (g_got_reply s) && (g_last_reply_ip s =? dst_ip) && (g_last_reply_seq s =? u16 seq) then
       t ← timer_tick_count;
       if hz =? 0 then undefined
       else mret (Some (to_int (u64 (u64 (t - start) * 1000) / hz)))
     else mret None).

(** Replies so far and the last round-trip time. *)
Fixpoint ping_from (dst_ip slot timeout_ms seq : Z) (n : nat) (acc : Z * option Z) : ST net (Z * option Z) :=
  match n with
  | O => mret acc
  | S n' =>
      r ← ping_one dst_ip slot seq timeout_ms;
      ping_from dst_ip slot timeout_ms (seq + 1) n'
        (match r with Some rtt => (acc.1 + 1, Some rtt) | None => acc end)
  end.

(** Returns the replies and what was stored through rtt_ms_out. *)
Definition net_ping (dst_ip count timeout_ms : Z) : ST net (Z * option Z) :=
  present ← reads g_net_present;
  if negb (truth present) then mret (-1, None)
  else
    m ← resolve_mac dst_ip 1000;
    match m with
    | None => mret (-2, None)
    | Some slot => ping_from dst_ip slot timeout_ms 0 (Z.to_nat count) (0, None)
    end.

(** ** DNS client *)

(** The label [seg] that ends here, after the [out] bytes stored so far. *)
Definition close_label (cap : Z) (out seg : list Z) : option (list Z) :=
  let len := Z.of_nat (length seg) in
  if (len <=? 0) || (63 <? len) || (cap <=? Z.of_nat (length out) + len + 1) then None
  else Some (out ++ u8 len :: map u8 seg).

(** The loop of dns_encode_name: [rest] from [p], [seg] the bytes from [seg] to
    [p], [out] what has been stored.  Returns the result and the stored bytes. *)
Fixpoint dns_encode_from (cap : Z) (rest seg out : list Z) : Z * list Z :=
  match rest with
  | [] =>
      match close_label cap out seg with
      | None => (0, out)
      | Some out => if cap <=? Z.of_nat (length out) + 1 then (0, out)
                    else (Z.of_nat (length out) + 1, out ++ [0])
      end
  | c :: rest' =>
      if c =? 46 then
        match close_label cap out seg with
        | None => (0, out)
        | Some out => dns_encode_from cap rest' [] out
        end
      else dns_encode_from cap rest' (seg ++ [c]) out
  end.

Definition dns_encode_name (host : list Z) (dst_cap : Z) : Z * list Z := dns_encode_from dst_cap host [] [].

Definition send_dns_query (host : list Z) (id : Z) (dst_mac : list Z) : ST net Z :=
  let udp := 14 + 20 in
  let dns := udp + 8 in
  _ ← eth_build_header dst_mac ETHERTYPE_IP;
  _ ← wr16 (dns + 0) id; _ ← wr16 (dns + 2) 0x0100; _ ← wr16 (dns + 4) 1; _ ← wr16 (dns + 6) 0;
  _ ← wr16 (dns + 8) 0; _ ← wr16 (dns + 10) 0;
  let '(qname_len, name) := dns_encode_name host 256 in
  _ ← tx_put (dns + 12) name;
  if qname_len <=? 0 then mret (-1)
  else
    _ ← wr16 (dns + 12 + qname_len + 0) 1; _ ← wr16 (dns + 12 + qname_len + 2) 1;
    let udp_len := u16 (8 + 12 + qname_len + 4) in
    _ ← wr16 (udp + 0) DNS_SRC_PORT; _ ← wr16 (udp + 2) DNS_PORT; _ ← wr16 (udp + 4) udp_len;
    _ ← wr16 (udp + 6) 0;
    let ip_total := u16 (20 + udp_len) in
    _ ← ip_header ip_total IP_PROTO_UDP NET_DNS;
    netdev_transmit (u16 (14 + ip_total)).

(** The address stored through out_ip, when the result is 1. *)
Definition net_resolve (hostname : option (list Z)) (timeout_ms : Z) : ST net (option Z) :=
  present ← reads g_net_present;
  match hostname with
  | Some host =>
      if negb (truth present) then mret None
      else
        m ← resolve_mac NET_DNS 1000;
        match m with
        | None => mret None
        | Some slot =>
            _ ← update (set_g_dns_got 0);
            mac ← mac_at slot; ok ← send_dns_query host 0xABCD mac;
            if ok <? 0 then mret None
            else
              deadline ← deadline_after timeout_ms;
              wait_until deadline (spin_limit timeout_ms)
                (s ← reads id;
                 mret (if truth (g_dns_got s) && (g_dns_id s =? 0xABCD) then Some (g_dns_result_ip s)
                       else None))
        end
  | None => mret None
  end.

Fixpoint parse_ipv4_from (text : list Z) (parts : list Z) (idx digits : Z) : option (option Z) :=
  match text with
  | [] =>
      if negb (idx =? 3) || (digits =? 0) then Some None
      else
        a ← aget parts 0; b ← aget parts 1; c ← aget parts 2; d ← aget parts 3;
        Some (Some (Z.lor (Z.lor (Z.lor (u32 (Z.shiftl a 24)) (u32 (Z.shiftl b 16))) (u32 (Z.shiftl c 8))) d))
  | ch :: text' =>
      if (48 <=? ch) && (ch <=? 57) then
        v ← aget parts idx;
        let v := u32 (u32 (v * 10) + (ch - 48)) in
        parts ← aset parts idx v;
        if 255 <? v then Some None
        else digits ← i32 (digits + 1); parse_ipv4_from text' parts idx digits
      else if ch =? 46 then
        if (digits =? 0) || (idx =? 3) then Some None
        else parse_ipv4_from text' parts (idx + 1) 0
      else Some None
  end.

(** [Some None] is the result 0, [Some (Some ip)] the result 1 with [ip] stored. *)
Definition net_parse_ipv4 (text : option (list Z)) : option (option Z) :=
  match text with
  | None => Some None
  | Some t => parse_ipv4_from t (replicate 4 0) 0 0
  end.

(** ** Connection slots *)

Definition conn_lock : ST net () :=
  l ← reads g_conn_lock; if (l : bool) then undefined else update (set_g_conn_lock true).
Definition conn_unlock : ST net () := update (set_g_conn_lock false).

(** The first free and the first idle slot, -1 when there is none. *)
Fixpoint scan_slots (cs : list tcp_conn) (i free_slot idle_slot : Z) : Z * Z :=
  match cs with
  | [] => (free_slot, idle_slot)
  | c :: cs' =>
      if negb (truth (c_in_use c)) then
        scan_slots cs' (i + 1) (if free_slot <? 0 then i else free_slot) idle_slot
      else scan_slots cs' (i + 1) free_slot
             (if truth (c_idle c) && (idle_slot <? 0) then i else idle_slot)
  end.

Definition fresh_conn (slot : Z) : tcp_conn :=
  set_c_state TCP_CLOSED (set_c_local_port (u16 (0xD100 + slot)) (set_c_in_use 1 conn_zero)).

Definition tcp_alloc : ST net (option Z) :=
  _ ← conn_lock;
  cs ← reads g_tcp_conns;
  let '(free_slot, idle_slot) := scan_slots cs 0 (-1) (-1) in
  let slot := if 0 <=? free_slot then free_slot else idle_slot in
  r ← (if 0 <=? slot then _ ← on_conn slot (fun _ => fresh_conn slot); mret (Some slot) else mret None);
  _ ← conn_unlock; mret r.

Definition tcp_free (i : Z) : ST net () :=
  on_conn i (fun c => set_c_rx_owner_cr3 0 (set_c_rx_buf 0
                        (set_c_state TCP_CLOSED (set_c_idle 0 (set_c_in_use 0 c))))).

Definition reusable (ip port : Z) (c : tcp_conn) : bool :=
  truth (c_in_use c) && truth (c_idle c) && (c_state c =? TCP_ESTABLISHED) &&
  (c_remote_ip c =? ip) && (c_remote_port c =? port).

Fixpoint find_idle (cs : list tcp_conn) (ip port i : Z) : option Z :=
  match cs with
  | [] => None
  | c :: cs' => if reusable ip port c then Some i else find_idle cs' ip port (i + 1)
  end.

(** The receive sink of a connection. *)
Definition set_sink (buf cap len owner : Z) (c : tcp_conn) : tcp_conn :=
  set_c_rx_owner_cr3 owner (set_c_rx_len len (set_c_rx_cap cap (set_c_rx_buf buf c))).

Definition tcp_find_idle (ip port out out_cap : Z) : ST net (option Z) :=
  _ ← conn_lock;
  cs ← reads g_tcp_conns;
  r ← (match find_idle cs ip port 0 with
       | Some i => owner ← reads cr3;
                   _ ← on_conn i (fun c => set_sink out out_cap 0 owner (set_c_idle 0 c)); mret (Some i)
       | None => mret None
       end);
  _ ← conn_unlock; mret r.

Definition tcp_wait_state (i want_min_state timeout_ms : Z) : ST net Z :=
  deadline ← deadline_after timeout_ms;
  r ← wait_until deadline (spin_limit timeout_ms)
        (c ← conn i; mret (if want_min_state <=? c_state c then Some tt else None));
  mret (match r with Some _ => 1 | None => 0 end).

(** The fields a new connection gets before its SYN. *)
Definition start_conn (dst_ip port : Z) (mac : list Z) (c : tcp_conn) : tcp_conn :=
  set_c_mac mac (set_c_rcv_nxt 0 (set_c_snd_nxt 0x2000
    (set_c_remote_port port (set_c_remote_ip dst_ip (set_c_state TCP_SYN_SENT c))))).

(** ** HTTP framing *)

Definition text (s : string) : list Z := map (fun a => Z.of_N (Ascii.N_of_ascii a)) (String.list_ascii_of_string s).
Definition CRLF : list Z := [13; 10].

Definition lower (c : Z) : Z := if (65 <=? c) && (c <=? 90) then c + 32 else c.

Fixpoint ci_match (hay : list Z) (i : Z) (needle : list Z) : option bool :=
  match needle with
  | [] => Some true
  | b :: needle' =>
      a ← aget hay i;
      if lower (schar a) =? lower (schar b) then ci_match hay (i + 1) needle' else Some false
  end.

Definition ci_find (hay : list Z) (n : Z) (needle : list Z) : option Z :=
  if Z.of_nat (length needle) =? 0 then Some 0
  else loop (S (Z.to_nat n)) (fun i =>
    if i + Z.of_nat (length needle) <=? n then
      m ← ci_match hay i needle;
      if (m : bool) then Some (inr i) else Some (inl (i + 1))
    else Some (inr (-1))) 0.

(** The end of the header block: the first CR LF CR LF, or -1. *)
Definition find_header_end (buf : list Z) (len : Z) : option Z :=
  loop (S (Z.to_nat len)) (fun i =>
    if i + 3 <? len then
      q ← slice buf i 4;
      Some (if bool_decide (q = [13; 10; 13; 10]) then inr i else inl (i + 1))
    else Some (inr (-1))) 0.

(** Result of a [long] operation. *)
Definition i64 (x : Z) : option Z := if (- 2 ^ 63 <=? x) && (x <? 2 ^ 63) then Some x else None.

Definition skip_blanks (buf : list Z) (hdr_end j : Z) : option Z :=
  loop (S (Z.to_nat hdr_end)) (fun j =>
    if j <? hdr_end then
      b ← aget buf j; Some (if (b =? 32) || (b =? 9) then inl (j + 1) else inr j)
    else Some (inr j)) j.

(** The decimal number at [j]: its value and whether there was a digit. *)
Definition read_length (buf : list Z) (hdr_end j : Z) : option (Z * bool) :=
  loop (S (Z.to_nat hdr_end)) (fun '(j, n, have) =>
    if j <? hdr_end then
      b ← aget buf j;
      if (48 <=? b) && (b <=? 57) then
        n ← i64 (n * 10); n ← i64 (n + (b - 48)); Some (inl (j + 1, n, true))
      else Some (inr (n, have))
    else Some (inr (n, have))) (j, 0, false).

(** Result and want_close. *)
Definition http_response_complete (buf : list Z) (len : Z) : option (Z * Z) :=
  hdr_end ← find_header_end buf len;
  if hdr_end <? 0 then Some (0, 0)
  else
    let body_off := hdr_end + 4 in
    v10 ← ci_find buf (if hdr_end <? 16 then hdr_end else 16) (text "http/1.0");
    cls ← ci_find buf hdr_end (text "connection: close");
    kal ← ci_find buf hdr_end (text "connection: keep-alive");
    let want_close := if (0 <=? cls) || ((0 <=? v10) && negb (0 <=? kal)) then 1 else 0 in
    chunked ← ci_find buf hdr_end (text "transfer-encoding: chunked");
    if 0 <=? chunked then Some (0, 1)
    else
      cl ← ci_find buf hdr_end (text "content-length:");
      n ← (if 0 <=? cl then
             j ← skip_blanks buf hdr_end (cl + 15); r ← read_length buf hdr_end j;
             Some (if r.2 : bool then Some r.1 else None)
           else Some None);
      match n with
      | Some n => Some (if n <=? len - body_off then 1 else 0, want_close)
      | None => Some (0, 1)
      end.

(** [REQ_PUT]: append to the 640-byte request. *)
Fixpoint req_put (req s : list Z) : list Z :=
  match s with
  | [] => req
  | c :: s' => if Z.of_nat (length req) <? 640 then req_put (req ++ [c]) s' else req
  end.

Definition build_request (path host_header : list Z) (user_agent : option (list Z)) : list Z :=
  let req := req_put (req_put [] (text "GET ")) path in
  let req := req_put (req_put req (text " HTTP/1.1" ++ CRLF ++ text "Host: ")) host_header in
  let req := match user_agent with
             | Some (a :: ua) => req_put (req_put req (CRLF ++ text "User-Agent: ")) (a :: ua)
             | _ => req
             end in
  req_put req (CRLF ++ text "Connection: keep-alive" ++ CRLF ++ CRLF).

(** ** HTTP client *)

(** A connection for the request: an idle one to the same peer, or a new one
    after ARP and the handshake.  [inl] is the error result. *)
Definition http_connect (dst_ip port out out_cap timeout_ms : Z) : ST net (Z + Z) :=
  k ← tcp_find_idle dst_ip port out out_cap;
  match k with
  | Some i => mret (inr i)
  | None =>
      a ← tcp_alloc;
      match a with
      | None => mret (inl (-1))
      | Some i =>
          m ← resolve_mac dst_ip 1000;
          match m with
          | None => _ ← tcp_free i; mret (inl (-2))
          | Some slot =>
              mac ← mac_at slot; owner ← reads cr3;
              _ ← on_conn i (fun c => set_sink out out_cap 0 owner (start_conn dst_ip port mac c));
              _ ← tcp_send i TCP_SYN [] 0;
              up ← tcp_wait_state i TCP_ESTABLISHED timeout_ms;
              if negb (truth up) then _ ← tcp_free i; mret (inl (-3)) else mret (inr i)
          end
      end
  end.

(** The receive loop: until the response is framed, the peer closes, the buffer
    is full, or nothing has arrived for the timeout.  Returns want_close. *)
Definition http_receive (i timeout_ms : Z) : ST net Z :=
  c ← conn i; deadline ← deadline_after timeout_ms;
  waiting (fun '(last_len, deadline, spins, want_close) =>
    t ← timer_tick_count;
    if negb (t <? deadline) then mret (inr want_close)
    else if negb (0 <? spins) then mret (inr want_close)
    else
      _ ← net_poll;
      c ← conn i; buf ← buffer (c_rx_buf c);
      r ← must (http_response_complete buf (c_rx_len c));
      let '(done, want_close) := r in
      if truth done then mret (inr want_close)
      else if (c_state c =? TCP_DONE) || (c_rx_cap c <=? c_rx_len c) then mret (inr 1)
      else if negb (c_rx_len c =? last_len) then
        deadline ← deadline_after timeout_ms;
        _ ← net_wait_yield; mret (inl (c_rx_len c, deadline, spin_limit timeout_ms, want_close))
      else _ ← net_wait_yield; mret (inl (last_len, deadline, u64 (spins - 1), want_close)))
    (c_rx_len c, deadline, spin_limit timeout_ms, 0).

Definition net_http_get (dst_ip port : Z) (host_header path : list Z) (user_agent : option (list Z))
    (out out_cap timeout_ms : Z) : ST net Z :=
  present ← reads g_net_present;
  if negb (truth present) || (out =? 0) || (out_cap <=? 0) then mret (-1)
  else
    k ← http_connect dst_ip port out out_cap timeout_ms;
    match k with
    | inl e => mret e
    | inr i =>
        let req := build_request path host_header user_agent in
        let rlen := Z.of_nat (length req) in
        _ ← tcp_send i (Z.lor TCP_PSH TCP_ACK) req (u16 rlen);
        _ ← on_conn i (fun c => set_c_snd_nxt (u32 (c_snd_nxt c + rlen)) c);
        want_close ← http_receive i timeout_ms;
        c ← conn i;
        let result := c_rx_len c in
        if negb (truth want_close) && (c_state c =? TCP_ESTABLISHED) then
          _ ← on_conn i (fun c => set_sink 0 0 0 0 (set_c_idle 1 c)); mret result
        else
          _ ← (if c_state c =? TCP_ESTABLISHED then
                 _ ← tcp_send i (Z.lor TCP_FIN TCP_ACK) [] 0;
                 on_conn i (fun c => set_c_snd_nxt (u32 (c_snd_nxt c + 1)) c)
               else mret tt);
          c ← conn i; _ ← tcp_free i; mret (c_rx_len c)
    end.

(** ** The stream below TLS *)

Definition tcp_open (dst_ip port timeout_ms : Z) : ST net Z :=
  present ← reads g_net_present;
  if negb (truth present) then mret (-1)
  else
    a ← tcp_alloc;
    match a with
    | None => mret (-1)
    | Some i =>
        _ ← update (set_g_stream_conn (Some i));
        m ← resolve_mac dst_ip 1000;
        match m with
        | None => _ ← tcp_free i; _ ← update (set_g_stream_conn None); mret (-2)
        | Some slot =>
            mac ← mac_at slot;
            _ ← on_conn i (fun c => set_c_rx_len 0 (set_c_rx_cap 32768 (set_c_rx_buf STREAM_RX
                                      (start_conn dst_ip port mac c))));
            _ ← tcp_send i TCP_SYN [] 0;
            up ← tcp_wait_state i TCP_ESTABLISHED timeout_ms;
            if negb (truth up) then
              _ ← tcp_free i; _ ← update (set_g_stream_conn None); mret (-3)
            else mret 0
        end
    end.

Fixpoint stream_send_from (i : Z) (data : list Z) (len : Z) (fuel : nat) (off : Z) : ST net () :=
  match fuel with
  | O => undefined
  | S n =>
      if off <? len then
        let chunk := if 1400 <? len - off then 1400 else len - off in
        bs ← must (slice data off chunk);
        _ ← tcp_send i (Z.lor TCP_PSH TCP_ACK) bs (u16 chunk);
        _ ← on_conn i (fun c => set_c_snd_nxt (u32 (c_snd_nxt c + chunk)) c);
        _ ← net_poll; _ ← net_wait_yield;
        stream_send_from i data len n (off + chunk)
      else mret tt
  end.

Definition tcp_stream_send (data : option (list Z)) (len : Z) : ST net Z :=
  c ← reads g_stream_conn;
  match c, data with
  | Some i, Some bs =>
      if len <? 0 then mret (-1)
      else _ ← stream_send_from i bs len (S (Z.to_nat len)) 0; mret len
  | _, _ => mret (-1)
  end.

(** Take [n] bytes from the front of the connection's buffer into [buf]. *)
Definition stream_take (i buf len : Z) : ST net Z :=
  c ← conn i;
  let was := c_rx_len c in
  let n := if len <? was then len else was in
  b ← buffer (c_rx_buf c);
  bs ← must (slice b 0 n); _ ← poke buf 0 bs;
  _ ← (if 0 <? was - n then
         b ← buffer (c_rx_buf c); rest ← must (slice b n (was - n)); poke (c_rx_buf c) 0 rest
       else mret tt);
  _ ← on_conn i (set_c_rx_len (was - n));
  room ← must (i32 (c_rx_cap c - 2048));
  _ ← (if (c_state c =? TCP_ESTABLISHED) && (room <=? was) then
         _ ← tcp_send i TCP_ACK [] 0; mret tt
       else mret tt);
  mret n.

Definition tcp_stream_recv (buf len timeout_ms : Z) : ST net Z :=
  k ← reads g_stream_conn; deadline ← deadline_after timeout_ms;
  match k with
  | None => mret (-1)
  | Some i =>
      if (buf =? 0) || (len <=? 0) then mret (-1)
      else
        waiting (fun spins =>
          _ ← net_poll; c ← conn i;
          if 0 <? c_rx_len c then n ← stream_take i buf len; mret (inr n)
          else if c_state c =? TCP_DONE then mret (inr 0)
          else
            t ← timer_tick_count;
            if (deadline <=? t) || (spins =? 0) then mret (inr (-1))
            else _ ← net_wait_yield; mret (inl (u64 (spins - 1)))) (spin_limit timeout_ms)
  end.

Definition tcp_close : ST net () :=
  k ← reads g_stream_conn;
  match k with
  | None => mret tt
  | Some i =>
      c ← conn i;
      _ ← (if c_state c =? TCP_ESTABLISHED then
             _ ← tcp_send i (Z.lor TCP_FIN TCP_ACK) [] 0;
             on_conn i (fun c => set_c_snd_nxt (u32 (c_snd_nxt c + 1)) c)
           else mret tt);
      _ ← tcp_free i; update (set_g_stream_conn None)
  end.

Definition tcp_stream_alive : ST net Z :=
  _ ← net_poll; k ← reads g_stream_conn;
  match k with
  | None => mret 0
  | Some i => c ← conn i; mret (if c_state c =? TCP_ESTABLISHED then 1 else 0)
  end.


End Net.
