(* ===== verification/NetFrames.v ===== *)
(** * NetFrames: checksums and the frames the stack sends

    The checksum loops compute the one's-complement sum of RFC 1071; each sender
    of net.c emits exactly the frame a declarative encoder gives, with checksums
    that a receiver accepts. *)

From Stdlib Require Import ZArith Lia Bool ZifyBool.
From stdpp Require Import base numbers option list list_numbers gmap.
From S2P Require Import Prelude StateM Net.

Open Scope Z_scope.

Module NetFrames.
Import Net.

(** ** Checksum arithmetic *)

(** The bytes as big-endian 16-bit words, an odd last byte padded with zero. *)
Fixpoint word_sum (bs : list Z) : Z :=
  match bs with
  | a :: b :: bs' => (a * 256 + b) + word_sum bs'
  | [a] => a * 256
  | [] => 0
  end.

(** The one's-complement representative of a sum: 0 only for the sum 0. *)
Definition ones_norm (s : Z) : Z := if s =? 0 then 0 else (s - 1) mod 65535 + 1.

(** The checksum RFC 1071 defines. *)
Definition inet_checksum (s : Z) : Z := 65535 - ones_norm s.

Lemma list_pair_ind {A} (P : list A -> Prop) :
  P [] -> (forall a, P [a]) -> (forall a b l, P l -> P (a :: b :: l)) -> forall l, P l.
Proof.
  intros H0 H1 H2. fix IH 1. intros [|a [|b l]]; [done|apply H1|apply H2, IH].
Qed.

Lemma word_sum_range bs : Forall byte_ok bs -> 0 <= word_sum bs /\ 2 * word_sum bs <= 65535 * (Z.of_nat (length bs) + 1).
Proof.
  induction bs as [|a|a b l IH] using list_pair_ind; intros H; simpl; [lia| |].
  - inversion H; subst. unfold byte_ok in *. lia.
  - do 2 (inversion H as [|? ? ? H']; subst; clear H; rename H' into H).
    specialize (IH H). unfold byte_ok in *. lia.
Qed.

Lemma word_sum_app bs cs : Nat.even (length bs) = true -> word_sum (bs ++ cs) = word_sum bs + word_sum cs.
Proof.
  induction bs as [|a|a b l IH] using list_pair_ind; simpl; intros H; [done|done|].
  rewrite IH by done. lia.
Qed.

Lemma word_be16 v : 0 <= v < 65536 -> word_sum (be16 v) = v.
Proof.
  intros. unfold be16, u8. simpl. rewrite Z.shiftr_div_pow2 by lia. change (2 ^ 8) with 256. dlia.
Qed.

Lemma byte_word a b : byte_ok a -> byte_ok b -> Z.lor (Z.shiftl a 8) b = a * 256 + b.
Proof. unfold byte_ok. intros. by apply lor_shiftl. Qed.

Lemma sum_words_value bs s :
  Forall byte_ok bs -> 0 <= s -> 2 * s + 65535 * (Z.of_nat (length bs) + 1) < 2 ^ 33 -> sum_words s bs = s + word_sum bs.
Proof.
  revert s. induction bs as [|a|a b l IH] using list_pair_ind; intros s H Hs Hl; simpl; [lia| |].
  - apply Forall_cons in H as [H _]. unfold byte_ok in H.
    simpl in Hl. rewrite Z.shiftl_mul_pow2 by lia. apply u32_id. lia.
  - apply Forall_cons in H as [Ha H]. apply Forall_cons in H as [Hb H].
    rewrite byte_word by done. simpl length in Hl. unfold byte_ok in *.
    rewrite u32_id, IH by (done || lia). lia.
Qed.

Lemma ones_norm_fold s : 0 <= s -> ones_norm (s mod 65536 + s / 65536) = ones_norm s.
Proof.
  intros. unfold ones_norm.
  destruct (Z.eqb_spec s 0) as [->|]; [done|].
  destruct (Z.eqb_spec (s mod 65536 + s / 65536) 0); [dlia|].
  replace (s - 1) with ((s mod 65536 + s / 65536 - 1) + (s / 65536) * 65535) by dlia.
  by rewrite Z.mod_add.
Qed.

Lemma ones_norm_id s : 0 <= s < 65536 -> ones_norm s = s.
Proof. intros. unfold ones_norm. destruct (Z.eqb_spec s 0); [done|]. rewrite Z.mod_small; lia. Qed.

Lemma ones_norm_range s : 0 <= s -> 0 <= ones_norm s < 65536.
Proof. intros. unfold ones_norm. destruct (Z.eqb_spec s 0); [lia|]. dlia. Qed.

Lemma fold_turn s : 0 <= s < 2 ^ 32 ->
  u32 (Z.land s 0xffff + Z.shiftr s 16) = s mod 65536 + s / 65536 /\ truth (Z.shiftr s 16) = (65536 <=? s).
Proof.
  intros. change 0xffff with (Z.ones 16). rewrite Z.land_ones, Z.shiftr_div_pow2 by lia.
  change (2 ^ 16) with 65536. split; [apply u32_id; dlia|]. unfold truth.
  destruct (Z.eqb_spec (s / 65536) 0), (Z.leb_spec 65536 s); simpl; dlia.
Qed.

Lemma fold_carries_value s : 0 <= s < 2 ^ 32 -> fold_carries s = Some (ones_norm s).
Proof.
  intros Hs. unfold fold_carries.
  assert (turn : forall n s, 0 <= s < 2 ^ 32 ->
    loop (S n) (fun sum => if truth (Z.shiftr sum 16)
      then Some (inl (u32 (Z.land sum 0xffff + Z.shiftr sum 16))) else Some (inr sum)) s =
    if 65536 <=? s then loop n (fun sum => if truth (Z.shiftr sum 16)
      then Some (inl (u32 (Z.land sum 0xffff + Z.shiftr sum 16))) else Some (inr sum))
      (s mod 65536 + s / 65536) else Some (ones_norm s)).
  { intros n t Ht. cbn [loop]. destruct (fold_turn t Ht) as [-> ->].
    destruct (Z.leb_spec 65536 t); [done|]. simpl. f_equal. symmetry. apply ones_norm_id. lia. }
  do 3 (rewrite turn by dlia;
    match goal with |- (if 65536 <=? ?t then _ else _) = _ => destruct (Z.leb_spec 65536 t) end;
    [|by rewrite ?ones_norm_fold by dlia]).
  exfalso. dlia.
Qed.

Lemma complement_value s : 0 <= s < 65536 -> complement16 s = 65535 - s.
Proof.
  intros. unfold complement16, Z.lnot, Z.pred. change 0xffff with (Z.ones 16). rewrite Z.land_ones by lia.
  change (2 ^ 16) with 65536. replace ((- s + -1) mod 65536) with (65535 - s) by dlia. apply (u16_id (65535 - s)). lia.
Qed.

Lemma inet_checksum_range s : 0 <= s -> 0 <= inet_checksum s < 65536.
Proof. intros. unfold inet_checksum. pose proof (ones_norm_range s). lia. Qed.

(** Adding a checksum to the sum it was computed from gives the checksum 0. *)
Lemma inet_checksum_verifies s : 0 <= s -> inet_checksum (s + inet_checksum s) = 0.
Proof.
  intros. unfold inet_checksum, ones_norm.
  destruct (Z.eqb_spec s 0) as [->|]; [done|].
  destruct (Z.eqb_spec (s + (65535 - ((s - 1) mod 65535 + 1))) 0); [dlia|].
  replace (s + (65535 - ((s - 1) mod 65535 + 1)) - 1) with (65534 + ((s - 1) / 65535) * 65535) by dlia.
  rewrite Z.mod_add by lia. done.
Qed.

(** The two checksum functions on a buffer. *)
Lemma ip_checksum_value buf p n bs :
  slice buf p n = Some bs -> Forall byte_ok bs -> n <= 65536 ->
  ip_checksum buf p n = Some (inet_checksum (word_sum bs)).
Proof.
  intros E Hb Hn. pose proof (slice_length _ _ _ _ E). pose proof (word_sum_range bs Hb).
  unfold ip_checksum. rewrite E. cbn [mbind option_bind]. rewrite sum_words_value, fold_carries_value by (done || lia). simpl.
  rewrite complement_value; [done|]. apply ones_norm_range. lia.
Qed.

(** The pseudo-header of a TCP segment. *)
Definition pseudo_sum (src dst len : Z) : Z :=
  src / 65536 + src mod 65536 + dst / 65536 + dst mod 65536 + IP_PROTO_TCP + len.

Lemma tcp_checksum_value src dst buf p n bs :
  0 <= src < 2 ^ 32 -> 0 <= dst < 2 ^ 32 -> 0 <= n < 65536 ->
  slice buf p n = Some bs -> Forall byte_ok bs ->
  tcp_checksum src dst buf p n = Some (inet_checksum (pseudo_sum src dst n + word_sum bs)).
Proof.
  intros Hs Hd Hn E Hb. pose proof (slice_length _ _ _ _ E). pose proof (word_sum_range bs Hb).
  unfold tcp_checksum, IP_PROTO_TCP. change 0xffff with (Z.ones 16).
  rewrite !Z.land_ones, !Z.shiftr_div_pow2 by lia. change (2 ^ 16) with 65536.
  rewrite E. cbn [mbind option_bind].
  match goal with |- context [sum_words ?s] => replace s with (pseudo_sum src dst n) end.
  - rewrite sum_words_value, fold_carries_value by (unfold pseudo_sum, IP_PROTO_TCP; done || dlia). simpl.
    rewrite complement_value; [done|]. apply ones_norm_range. unfold pseudo_sum, IP_PROTO_TCP. dlia.
  - assert (Hh : forall x, 0 <= x < 2 ^ 32 ->
      x / 65536 mod 65536 = x / 65536 /\ 0 <= x / 65536 < 65536 /\ 0 <= x mod 65536 < 65536) by (intros; dlia).
    destruct (Hh src Hs) as (->&?&?), (Hh dst Hd) as (->&?&?). unfold pseudo_sum, IP_PROTO_TCP.
    set (a := src / 65536) in *. set (b := src mod 65536) in *.
    set (c := dst / 65536) in *. set (d := dst mod 65536) in *. clearbody a b c d.
    rewrite (u32_id a), (u32_id (a + b)), (u32_id (a + b + c)), (u32_id (a + b + c + d)),
      (u32_id (a + b + c + d + 6)), u32_id; lia.
Qed.

(** ** Frames as fields

    The transmit buffer is the concatenation of its header fields; each store of
    a sender replaces one of them. *)

Definition cat (fs : list (list Z)) : list Z := concat fs.

Lemma fields_exist (ws : list nat) (l : list Z) :
  length l = sum_list ws -> exists fs, cat fs = l /\ map length fs = ws.
Proof.
  revert l. induction ws as [|w ws IH]; intros l H; simpl in H.
  - exists []. by apply nil_length_inv in H as ->.
  - destruct (IH (drop w l)) as (fs&E&Hw); [rewrite length_drop; lia|].
    exists (take w l :: fs). unfold cat in *. simpl. rewrite E, Hw, take_drop.
    split; [done|]. rewrite length_take. f_equal. lia.
Qed.

Lemma cat_split (fs : list (list Z)) (k : nat) (f : list Z) :
  fs !! k = Some f -> fs = take k fs ++ f :: drop (S k) fs.
Proof. intros H. by rewrite take_drop_middle. Qed.

Lemma splice_field fs (k : nat) (old : list Z) off bs :
  fs !! k = Some old -> length old = length bs -> off = Z.of_nat (length (cat (take k fs))) ->
  splice (cat fs) off bs = Some (cat (<[k := bs]> fs)).
Proof.
  intros Hk Hl ->. pose proof (lookup_lt_Some _ _ _ Hk).
  rewrite (insert_take_drop fs k bs) by done.
  rewrite (cat_split fs k old Hk) at 1. unfold cat. rewrite !concat_app. simpl.
  rewrite splice_ok; [|lia|rewrite !length_app; lia].
  f_equal. rewrite Nat2Z.id, take_app_length.
  rewrite (drop_app_ge _ (old ++ _)) by lia. rewrite drop_app_ge by lia.
  by replace (_ + _ - _ - length old)%nat with 0%nat by lia.
Qed.

Lemma slice_fields fs k m off n :
  off = Z.of_nat (length (cat (take k fs))) -> n = Z.of_nat (length (cat (take m (drop k fs)))) ->
  slice (cat fs) off n = Some (cat (take m (drop k fs))).
Proof.
  intros -> ->.
  assert (cat fs = cat (take k fs) ++ cat (take m (drop k fs)) ++ cat (drop m (drop k fs))) as ->.
  { unfold cat. by rewrite <- !concat_app, !take_drop. }
  rewrite slice_ok; [|lia|lia|rewrite !length_app; lia].
  by rewrite !Nat2Z.id, drop_app_length, take_app_length.
Qed.

Lemma slice_fields_as fs k m bs off n :
  bs = cat (take m (drop k fs)) -> off = Z.of_nat (length (cat (take k fs))) -> n = Z.of_nat (length bs) ->
  slice (cat fs) off n = Some bs.
Proof. intros -> -> ->. by apply slice_fields. Qed.

(** [s] with the fields [fs] in the transmit buffer. *)
Definition with_tx (fs : list (list Z)) (s : net) : net := set_g_txframe (cat fs) s.

Lemma with_tx_with fs fs' s : with_tx fs (with_tx fs' s) = with_tx fs s.
Proof. done. Qed.

Lemma tx_with fs s : g_txframe (with_tx fs s) = cat fs.
Proof. done. Qed.

Lemma with_tx_id fs s : cat fs = g_txframe s -> s = with_tx fs s.
Proof. intros E. unfold with_tx. rewrite E. by destruct s. Qed.

Lemma wp_field (k : nat) fs off bs (old : list Z) Q s :
  fs !! k = Some old -> length old = length bs -> off = Z.of_nat (length (cat (take k fs))) ->
  Q tt (with_tx (<[k := bs]> fs) s) -> wp (tx_put off bs) Q (with_tx fs s).
Proof.
  intros Hk Hl Ho HQ. eapply wp_try; [|apply HQ]. simpl.
  by rewrite (splice_field fs k old off bs).
Qed.

Lemma wp_transmit m fs n bs r rs Q s :
  env s = r :: rs -> cat (take m fs) = bs -> n = Z.of_nat (length bs) ->
  Q (r_tx r) (set_sent (sent s ++ [bs]) (with_tx fs s)) -> wp (netdev_transmit n) Q (with_tx fs s).
Proof.
  intros He <- -> HQ. unfold netdev_transmit. wstep. wstep. wstep. eapply wp_must.
  { rewrite (slice_fields fs 0 m); [by rewrite drop_0|by rewrite take_0|by rewrite drop_0]. }
  wstep. wstep. wstep. unfold here. wstep. wstep. eapply wp_must; [by cbn; rewrite He|].
  wstep. apply HQ.
Qed.

(** ** The headers *)

Definition eth_fields (dst src : list Z) (ethertype : Z) : list (list Z) := [dst; src; be16 ethertype].

Definition ip_fields (total proto csum dst : Z) : list (list Z) :=
  [[0x45]; [0]; be16 total; be16 0; be16 0x4000; [64]; [proto]; be16 csum; be32 NET_IP; be32 dst].

(** The IPv4 header with the checksum that makes its 20 bytes verify. *)
Definition ip_fields_summed (total proto dst : Z) : list (list Z) :=
  ip_fields total proto (inet_checksum (word_sum (cat (ip_fields total proto 0 dst)))) dst.

Definition widths (ws : list nat) (fs : list (list Z)) : Prop := map length fs = ws.
Definition eth_widths : list nat := [6; 6; 2]%nat.
Definition ip_widths : list nat := [1; 1; 2; 2; 2; 1; 1; 2; 4; 4]%nat.

Lemma be16_bytes v : Forall byte_ok (be16 v).
Proof. repeat constructor; apply u8_range. Qed.
Lemma be32_bytes v : Forall byte_ok (be32 v).
Proof. repeat constructor; apply u8_range. Qed.
Lemma cat_bytes fs : Forall (Forall byte_ok) fs -> Forall byte_ok (cat fs).
Proof. apply Forall_concat. Qed.

Ltac each_field :=
  repeat (apply Forall_cons; split;
    [first [apply be16_bytes | apply be32_bytes | done
           | by repeat constructor | apply Forall_cons; split; [unfold byte_ok in *; lia|constructor]]|]);
  by apply Forall_nil.

(** Name the fields of a list of known widths. *)
Ltac name_fields H :=
  repeat match type of H with
  | widths (_ :: _) ?fs =>
      let f := fresh "f" in let Hf := fresh "Hf" in
      destruct fs as [|f fs]; [discriminate H|];
      injection H as Hf H
  | map length ?fs = _ :: _ =>
      let f := fresh "f" in let Hf := fresh "Hf" in
      destruct fs as [|f fs]; [discriminate H|];
      injection H as Hf H
  end.

Ltac flen := unfold cat; simpl; repeat (rewrite length_app; simpl); try lia.
(** Store into field [k]. *)
Ltac fld k :=
  try wstep; unfold wr8, wr16, wr32; eapply (wp_field k); [reflexivity|simpl; try lia|flen|cbn [insert list_insert]].

Lemma wp_eth fs rest dst t Q s :
  widths eth_widths fs -> length dst = 6%nat -> length (g_mac s) = 6%nat ->
  Q tt (with_tx (eth_fields dst (g_mac s) t ++ rest) s) ->
  wp (eth_build_header dst t) Q (with_tx (fs ++ rest) s).
Proof.
  intros H Hd Hm HQ. unfold eth_widths in H. name_fields H. apply map_eq_nil in H as ->. simpl app.
  unfold eth_build_header. fld 0%nat. wstep. wstep. fld 1%nat. fld 2%nat. apply HQ.
Qed.

Lemma ip_fields_bytes total proto c dst : byte_ok proto -> Forall byte_ok (cat (ip_fields total proto c dst)).
Proof.
  intros Hp. apply cat_bytes.
  each_field.
Qed.

Lemma wp_ip_header e fs rest total proto dst Q s :
  widths eth_widths e -> widths ip_widths fs -> byte_ok proto ->
  Q tt (with_tx (e ++ ip_fields_summed total proto dst ++ rest) s) ->
  wp (ip_header total proto dst) Q (with_tx (e ++ fs ++ rest) s).
Proof.
  intros He H Hp HQ. unfold eth_widths, ip_widths in *. name_fields He. apply map_eq_nil in He as ->.
  name_fields H. apply map_eq_nil in H as ->. simpl app. unfold ip_header.
  fld 3%nat. fld 4%nat. fld 5%nat. fld 6%nat. fld 7%nat. fld 8%nat. fld 9%nat. fld 10%nat.
  fld 11%nat. fld 12%nat. wstep. wstep. wstep. eapply wp_must.
  { apply (ip_checksum_value _ _ _ (cat (ip_fields total proto 0 dst))); [|by apply ip_fields_bytes|lia].
    rewrite tx_with, (slice_fields _ 3 10); [|flen|flen]. unfold ip_fields.
    rewrite (u8_id proto) by done. reflexivity. }
  rewrite (u8_id proto) by done. fld 10%nat. apply HQ.
Qed.

(** ** TCP segments *)

Definition tcp_fields (c : tcp_conn) (flags window csum : Z) (payload : list Z) : list (list Z) :=
  [be16 (c_local_port c); be16 (c_remote_port c); be32 (c_snd_nxt c);
   be32 (if flag flags TCP_ACK then c_rcv_nxt c else 0); [0x50]; [flags]; be16 window;
   be16 csum; be16 0; payload].

(** The free receive space, as advertised. *)
Definition window_of (c : tcp_conn) : Z := Z.min 65535 (Z.max 0 (c_rx_cap c - c_rx_len c)).

Definition tcp_sum (c : tcp_conn) (flags : Z) (payload : list Z) : Z :=
  pseudo_sum NET_IP (c_remote_ip c) (20 + Z.of_nat (length payload)) +
  word_sum (cat (tcp_fields c flags (window_of c) 0 payload)).

(** The frame of a segment of connection [c] from the card [m]. *)
Definition tcp_frame (m : list Z) (c : tcp_conn) (flags : Z) (payload : list Z) : list Z :=
  cat (eth_fields (c_mac c) m ETHERTYPE_IP ++
       ip_fields_summed (40 + Z.of_nat (length payload)) IP_PROTO_TCP (c_remote_ip c) ++
       tcp_fields c flags (window_of c) (inet_checksum (tcp_sum c flags payload)) payload).

Definition tcp_widths (n : nat) : list nat := [2; 2; 4; 4; 1; 1; 2; 2; 2; n]%nat.

Lemma tcp_fields_bytes c flags w csum payload :
  byte_ok flags -> Forall byte_ok payload -> Forall byte_ok (cat (tcp_fields c flags w csum payload)).
Proof.
  intros Hf Hp. apply cat_bytes.
  each_field.
Qed.

Lemma cat_app fs gs : cat (fs ++ gs) = cat fs ++ cat gs.
Proof. apply concat_app. Qed.

Lemma window_value c :
  INT_MIN <= c_rx_cap c - c_rx_len c <= INT_MAX -> free_window c = Some (window_of c).
Proof.
  intros H. unfold free_window, window_of. rewrite i32_ok by done. simpl.
  destruct (Z.ltb_spec (c_rx_cap c - c_rx_len c) 0); [f_equal; change (0 = Z.min 65535 (Z.max 0 (c_rx_cap c - c_rx_len c))); lia|].
  destruct (Z.ltb_spec 65535 (c_rx_cap c - c_rx_len c)); f_equal; rewrite u16_id; lia.
Qed.

(** The state can send: the arrays have their sizes and a driver is there. *)
Record can_send (s : net) : Prop := {
  cs_tx : length (g_txframe s) = 1518%nat;
  cs_mac : length (g_mac s) = 6%nat;
  cs_env : env s <> [] }.

(** A connection whose fields have their types. *)
Record conn_ok (c : tcp_conn) : Prop := {
  ck_mac : length (c_mac c) = 6%nat;
  ck_ip : 0 <= c_remote_ip c < 2 ^ 32;
  ck_window : INT_MIN <= c_rx_cap c - c_rx_len c <= INT_MAX }.

Lemma tcp_send_spec i flags payload c s :
  can_send s -> aget (g_tcp_conns s) i = Some c -> conn_ok c -> byte_ok flags ->
  Forall byte_ok payload -> (length payload <= 1464)%nat ->
  exists tx, length tx = 1518%nat /\
  wp (tcp_send i flags payload (Z.of_nat (length payload)))
     (fun _ s' => s' = set_sent (sent s ++ [tcp_frame (g_mac s) c flags payload]) (set_g_txframe tx s)) s.
Proof.
  intros [Htx Hm He] Hc [Hmac Hip Hw] Hf Hp Hl. set (n := length payload) in *.
  destruct (env s) as [|r rs] eqn:Ee; [done|]. clear He.
  destruct (fields_exist (eth_widths ++ ip_widths ++ tcp_widths n ++ [1464 - n]%nat) (g_txframe s))
    as (fs&E&W); [rewrite Htx; simpl; lia|].
  rewrite (with_tx_id fs s E). clear E.
  unfold eth_widths, ip_widths, tcp_widths in W. cbn [app] in W. name_fields W. apply map_eq_nil in W as ->.
  eexists. split; cycle 1.
  - unfold tcp_send. wstep. unfold conn. wstep. wstep. eapply wp_must; [exact Hc|].
    wstep. eapply (wp_eth [f; f0; f1]); [by unfold widths; simpl; rewrite Hf0, Hf1, Hf2|done|done|].
    cbn [eth_fields app]. fld 13%nat. fld 14%nat. fld 15%nat. fld 16%nat. fld 17%nat. fld 18%nat.
    wstep. eapply wp_must; [by apply window_value|]. fld 19%nat. fld 20%nat. fld 21%nat.
    wstep. eapply wp_must; [apply slice_whole|]. fld 22%nat.
    rewrite (u8_id flags) by done. wstep. wstep. wstep.
    assert (Hseg : u16 (20 + Z.of_nat n) = 20 + Z.of_nat n) by (apply u16_id; lia). rewrite Hseg.
    eapply wp_must.
    { rewrite tx_with. apply (tcp_checksum_value _ _ _ _ _ (cat (tcp_fields c flags (window_of c) 0 payload)));
        [by unfold NET_IP|done|lia| |by apply tcp_fields_bytes].
      rewrite (slice_fields _ 13 10); [|flen|flen]. unfold tcp_fields. reflexivity. }
    fold (tcp_sum c flags payload). fld 20%nat. wstep.
    replace (u16 (20 + (20 + Z.of_nat n))) with (40 + Z.of_nat n) by (rewrite u16_id; lia).
    eapply (wp_ip_header [c_mac c; g_mac s; be16 ETHERTYPE_IP] [f2; f3; f4; f5; f6; f7; f8; f9; f10; f11]);
      [unfold widths, eth_widths, ip_widths; simpl; congruence..|done|].
    rewrite (u16_id (14 + _)) by lia. eapply (wp_transmit 23); [exact Ee|reflexivity|flen|].
    reflexivity.
  - flen.
Qed.

(** ** ARP packets *)

Definition arp_fields (oper : Z) (smac tmac : list Z) (target_ip : Z) : list (list Z) :=
  [be16 1; be16 ETHERTYPE_IP; [6]; [4]; be16 oper; smac; be32 NET_IP; tmac; be32 target_ip].

Definition arp_frame (dst m tmac : list Z) (oper target_ip : Z) : list Z :=
  cat (eth_fields dst m ETHERTYPE_ARP ++ arp_fields oper m tmac target_ip).

Definition arp_widths : list nat := [2; 2; 1; 1; 2; 6; 4; 6; 4]%nat.

(** Both ARP senders: header, addresses, 42 bytes to the card. *)
Lemma arp_send_spec dst tmac oper ip s :
  can_send s -> length dst = 6%nat -> length tmac = 6%nat ->
  exists tx, length tx = 1518%nat /\
  wp (_ ← eth_build_header dst ETHERTYPE_ARP; _ ← arp_header oper;
      _ ← tx_put (14 + 18) tmac; _ ← wr32 (14 + 24) ip; _ ← netdev_transmit (14 + 28); mret tt)
     (fun _ s' => s' = set_sent (sent s ++ [arp_frame dst (g_mac s) tmac oper ip]) (set_g_txframe tx s)) s.
Proof.
  intros [Htx Hm He] Hd Ht. destruct (env s) as [|r rs] eqn:Ee; [done|]. clear He.
  destruct (fields_exist (eth_widths ++ arp_widths ++ [1476]%nat) (g_txframe s))
    as (fs&E&W); [rewrite Htx; simpl; lia|].
  rewrite (with_tx_id fs s E). clear E.
  unfold eth_widths, arp_widths in W. cbn [app] in W. name_fields W. apply map_eq_nil in W as ->.
  eexists. split; cycle 1.
  - wstep. eapply (wp_eth [f; f0; f1]); [by unfold widths; simpl; rewrite Hf, Hf0, Hf1|done|done|].
    cbn [eth_fields app]. wstep. unfold arp_header.
    fld 3%nat. fld 4%nat. fld 5%nat. fld 6%nat. fld 7%nat. wstep. wstep. fld 8%nat. fld 9%nat.
    fld 10%nat. fld 11%nat. wstep. eapply (wp_transmit 12); [exact Ee|reflexivity|flen|].
    wstep. reflexivity.
  - flen.
Qed.

Lemma send_arp_request_spec ip s :
  can_send s -> exists tx, length tx = 1518%nat /\
  wp (send_arp_request ip) (fun _ s' =>
    s' = set_sent (sent s ++ [arp_frame BROADCAST_MAC (g_mac s) (replicate 6 0) 1 ip]) (set_g_txframe tx s)) s.
Proof. intros H. exact (arp_send_spec BROADCAST_MAC (replicate 6 0) 1 ip s H eq_refl eq_refl). Qed.

Lemma send_arp_reply_spec ip mac s :
  can_send s -> length mac = 6%nat -> exists tx, length tx = 1518%nat /\
  wp (send_arp_reply ip mac) (fun _ s' =>
    s' = set_sent (sent s ++ [arp_frame mac (g_mac s) mac 2 ip]) (set_g_txframe tx s)) s.
Proof. intros H Hm. exact (arp_send_spec mac mac 2 ip s H Hm Hm). Qed.

(** ** Reading fields back *)

Lemma aget_field fs (k : nat) (f : list Z) (j : nat) off :
  fs !! k = Some f -> (j < length f)%nat -> off = Z.of_nat (length (cat (take k fs)) + j) ->
  aget (cat fs) off = f !! j.
Proof.
  intros Hk Hj ->. rewrite aget_nat.
  assert (cat fs = cat (take k fs) ++ f ++ cat (drop (S k) fs)) as ->.
  { rewrite (cat_split fs k f Hk) at 1. apply cat_app. }
  rewrite lookup_app_r by lia. rewrite lookup_app_l by lia. f_equal. lia.
Qed.

Lemma be16_value v : 0 <= v < 65536 -> u16 (Z.lor (Z.shiftl (u8 (Z.shiftr v 8)) 8) (u8 v)) = v.
Proof.
  intros. rewrite byte_word by apply u8_range. rewrite Z.shiftr_div_pow2 by lia. change (2 ^ 8) with 256.
  unfold u8. change (2 ^ 8) with 256. rewrite u16_id; dlia.
Qed.

Lemma be32_value v : 0 <= v < 2 ^ 32 ->
  Z.lor (Z.lor (Z.lor (u32 (Z.shiftl (u8 (Z.shiftr v 24)) 24)) (Z.shiftl (u8 (Z.shiftr v 16)) 16))
    (Z.shiftl (u8 (Z.shiftr v 8)) 8)) (u8 v) = v.
Proof.
  intros Hv. unfold u8. rewrite !Z.shiftr_div_pow2 by lia.
  rewrite (u32_id (Z.shiftl _ 24)) by (rewrite Z.shiftl_mul_pow2 by lia; change (2 ^ 8) with 256; change (2 ^ 24) with 16777216; dlia).
  apply Z.bits_inj'. intros k Hk. rewrite !Z.lor_spec, !Z.shiftl_spec, <- !Z.shiftr_div_pow2 by lia.
  destruct (Z.ltb_spec k 8) as [H8|H8].
  { rewrite !(Z.testbit_neg_r _ (_ - _)) by lia. simpl. by rewrite Z.mod_pow2_bits_low by lia. }
  rewrite (Z.mod_pow2_bits_high v) by lia. rewrite orb_false_r.
  destruct (Z.ltb_spec k 16).
  { rewrite (Z.testbit_neg_r _ (k - 24)), (Z.testbit_neg_r _ (k - 16)) by lia. simpl.
    rewrite Z.mod_pow2_bits_low, Z.shiftr_spec by lia. f_equal. lia. }
  rewrite (Z.mod_pow2_bits_high _ _ (k - 8)) by lia. rewrite orb_false_r.
  destruct (Z.ltb_spec k 24).
  { rewrite (Z.testbit_neg_r _ (k - 24)) by lia. simpl.
    rewrite Z.mod_pow2_bits_low, Z.shiftr_spec by lia. f_equal. lia. }
  rewrite (Z.mod_pow2_bits_high _ _ (k - 16)) by lia. rewrite orb_false_r.
  destruct (Z.ltb_spec k 32).
  { rewrite Z.mod_pow2_bits_low, Z.shiftr_spec by lia. f_equal. lia. }
  rewrite Z.mod_pow2_bits_high by lia. symmetry.
  destruct (Z.eq_dec v 0) as [->|]; [apply Z.bits_0|]. apply Z.bits_above_log2; [lia|].
  apply Z.log2_lt_pow2; [lia|]. eapply Z.lt_le_trans; [apply Hv|]. apply Z.pow_le_mono_r; lia.
Qed.

Lemma rd16_field k fs off v :
  fs !! k = Some (be16 v) -> 0 <= v < 65536 -> off = Z.of_nat (length (cat (take k fs))) ->
  rd16 (cat fs) off = Some v.
Proof.
  intros Hk Hv ->. unfold rd16. set (p := Z.of_nat (length (cat (take k fs)))).
  rewrite (aget_field fs k (be16 v) 0 p), (aget_field fs k (be16 v) 1 (p + 1)) by first [done | lia | simpl; lia]. simpl.
  by rewrite be16_value.
Qed.

Lemma rd32_field k fs off v :
  fs !! k = Some (be32 v) -> 0 <= v < 2 ^ 32 -> off = Z.of_nat (length (cat (take k fs))) ->
  rd32 (cat fs) off = Some v.
Proof.
  intros Hk Hv ->. unfold rd32. set (p := Z.of_nat (length (cat (take k fs)))).
  rewrite (aget_field fs k (be32 v) 0 p), (aget_field fs k (be32 v) 1 (p + 1)),
    (aget_field fs k (be32 v) 2 (p + 2)), (aget_field fs k (be32 v) 3 (p + 3)) by first [done | lia | simpl; lia]. cbn [be32 lookup list_lookup mbind option_bind].
  by rewrite be32_value.
Qed.

(** ** Theorems *)

Lemma word_sum_field a c b :
  Nat.even (length a) = true -> 0 <= c < 65536 ->
  word_sum (a ++ be16 c ++ b) = word_sum (a ++ be16 0 ++ b) + c.
Proof.
  intros Ha Hc. rewrite !(word_sum_app a), !(word_sum_app (be16 _)), (word_be16 c), (word_be16 0) by (done || lia). lia.
Qed.

Lemma ip_fields_verify total proto dst :
  byte_ok proto -> inet_checksum (word_sum (cat (ip_fields_summed total proto dst))) = 0.
Proof.
  intros Hp. unfold ip_fields_summed.
  assert (E : forall c, cat (ip_fields total proto c dst) =
    cat (take 7 (ip_fields total proto 0 dst)) ++ be16 c ++ cat (drop 8 (ip_fields total proto 0 dst))) by done.
  pose proof (word_sum_range _ (ip_fields_bytes total proto 0 dst Hp)) as [? _].
  rewrite (E (inet_checksum _)), word_sum_field, <- E by (done || by apply inet_checksum_range).
  by apply inet_checksum_verifies.
Qed.

Lemma pseudo_sum_nonneg src dst n : 0 <= src -> 0 <= dst -> 0 <= n -> 0 <= pseudo_sum src dst n.
Proof. intros. unfold pseudo_sum, IP_PROTO_TCP. dlia. Qed.

Lemma tcp_fields_verify c flags payload :
  conn_ok c -> byte_ok flags -> Forall byte_ok payload ->
  inet_checksum (pseudo_sum NET_IP (c_remote_ip c) (20 + Z.of_nat (length payload)) +
    word_sum (cat (tcp_fields c flags (window_of c) (inet_checksum (tcp_sum c flags payload)) payload))) = 0.
Proof.
  intros Hc Hf Hp.
  assert (E : forall x, cat (tcp_fields c flags (window_of c) x payload) =
    cat (take 7 (tcp_fields c flags (window_of c) 0 payload)) ++ be16 x ++
    cat (drop 8 (tcp_fields c flags (window_of c) 0 payload))) by done.
  pose proof (word_sum_range _ (tcp_fields_bytes c flags (window_of c) 0 payload Hf Hp)) as [? _].
  pose proof (pseudo_sum_nonneg NET_IP (c_remote_ip c) (20 + Z.of_nat (length payload)) ltac:(done) ltac:(apply Hc) ltac:(lia)).
  assert (0 <= tcp_sum c flags payload) by (unfold tcp_sum; lia).
  rewrite (E (inet_checksum _)), word_sum_field, <- E by (done || by apply inet_checksum_range).
  rewrite Z.add_assoc. fold (tcp_sum c flags payload). by apply inet_checksum_verifies.
Qed.

(** C33: ip_checksum and tcp_checksum compute the Internet checksum of RFC 1071,
    the complement of the one's-complement sum of the big-endian words (with the
    pseudo-header for TCP), for every buffer of up to 65,000 bytes: their 32-bit
    sums do not wrap and the carry loop ends.  Storing the computed checksum in
    the zeroed field at any even offset makes the checksum of the whole 0, which
    is what a receiver tests. *)
Theorem checksums_match_rfc1071 (pre post : list Z) (src dst : Z) :
  Forall byte_ok pre -> Forall byte_ok post -> Nat.even (length pre) = true ->
  0 <= src < 2 ^ 32 -> 0 <= dst < 2 ^ 32 -> Z.of_nat (length pre + 2 + length post) <= 65000 ->
  let n := Z.of_nat (length pre + 2 + length post) in
  let zeroed := pre ++ be16 0 ++ post in
  let s := word_sum zeroed in
  ip_checksum zeroed 0 n = Some (inet_checksum s) /\
  ip_checksum (pre ++ be16 (inet_checksum s) ++ post) 0 n = Some 0 /\
  tcp_checksum src dst zeroed 0 n = Some (inet_checksum (pseudo_sum src dst n + s)) /\
  tcp_checksum src dst (pre ++ be16 (inet_checksum (pseudo_sum src dst n + s)) ++ post) 0 n = Some 0.
Proof.
  intros Hpre Hpost He Hs Hd Hl n zeroed s.
  assert (Hb : forall c, Forall byte_ok (pre ++ be16 c ++ post))
    by (intros; rewrite !Forall_app; repeat split; auto using be16_bytes).
  assert (Hw : forall c, slice (pre ++ be16 c ++ post) 0 n = Some (pre ++ be16 c ++ post)).
  { intros c. replace n with (Z.of_nat (length (pre ++ be16 c ++ post))); [apply slice_whole|].
    rewrite !length_app. simpl. lia. }
  assert (0 <= s) by apply (word_sum_range _ (Hb 0)).
  pose proof (pseudo_sum_nonneg src dst n ltac:(lia) ltac:(lia) ltac:(lia)).
  split_and!.
  - apply ip_checksum_value; [apply Hw|apply Hb|lia].
  - rewrite (ip_checksum_value _ _ _ _ (Hw _)) by (apply Hb || lia).
    rewrite word_sum_field by (done || by apply inet_checksum_range). f_equal. by apply inet_checksum_verifies.
  - apply tcp_checksum_value; [done|done|lia|apply Hw|apply Hb].
  - assert (Hn : 0 <= n < 65536) by lia.
    rewrite (tcp_checksum_value _ _ _ _ _ _ Hs Hd Hn (Hw _)) by apply Hb.
    rewrite word_sum_field by (done || apply inet_checksum_range; lia).
    rewrite Z.add_assoc. f_equal. apply inet_checksum_verifies. lia.
Qed.

Lemma checksums_match_rfc1071_witness :
  ip_checksum [0x45; 0; 0; 0x73; 0; 0; 0x40; 0; 0x40; 0x11; 0xb8; 0x61; 0xc0; 0xa8; 0; 1; 0xc0; 0xa8; 0; 0xc7]
    0 20 = Some 0.
Proof.
  apply (checksums_match_rfc1071 [0x45; 0; 0; 0x73; 0; 0; 0x40; 0; 0x40; 0x11]
    [0xc0; 0xa8; 0; 1; 0xc0; 0xa8; 0; 0xc7] 0 0);
    first [reflexivity | lia | apply bytes_check; reflexivity | by vm_compute].
Defined.

(** C29: a segment that tcp_send emits for a connection whose fields have their
    types is a correct packet: nothing but the transmit buffer and the list of
    sent frames changes, the IP header checksum and the TCP checksum over the
    pseudo-header verify, the addresses, ports, sequence and acknowledgement
    numbers, flags and payload are the connection's, and the window is the free
    receive space clamped to 16 bits. *)
Theorem tcp_send_emits (i flags : Z) (payload : list Z) (c : tcp_conn) (s : net) :
  can_send s -> aget (g_tcp_conns s) i = Some c -> conn_ok c -> byte_ok flags ->
  Forall byte_ok payload -> (length payload <= 1464)%nat ->
  0 <= c_local_port c < 2 ^ 16 -> 0 <= c_remote_port c < 2 ^ 16 ->
  0 <= c_snd_nxt c < 2 ^ 32 -> 0 <= c_rcv_nxt c < 2 ^ 32 ->
  exists f tx st,
    tcp_send i flags payload (Z.of_nat (length payload)) s =
      Some (st, set_sent (sent s ++ [f]) (set_g_txframe tx s)) /\ length tx = 1518%nat /\
    length f = (54 + length payload)%nat /\ slice f 0 6 = Some (c_mac c) /\ slice f 6 6 = Some (g_mac s) /\
    ip_checksum f 14 20 = Some 0 /\
    tcp_checksum NET_IP (c_remote_ip c) f 34 (20 + Z.of_nat (length payload)) = Some 0 /\
    rd16 f 12 = Some ETHERTYPE_IP /\ rd16 f 16 = Some (40 + Z.of_nat (length payload)) /\
    rd8 f 23 = Some IP_PROTO_TCP /\ rd32 f 26 = Some NET_IP /\ rd32 f 30 = Some (c_remote_ip c) /\
    rd16 f 34 = Some (c_local_port c) /\ rd16 f 36 = Some (c_remote_port c) /\
    rd32 f 38 = Some (c_snd_nxt c) /\
    rd32 f 42 = Some (if flag flags TCP_ACK then c_rcv_nxt c else 0) /\
    rd8 f 47 = Some flags /\ rd16 f 48 = Some (window_of c) /\
    slice f 54 (Z.of_nat (length payload)) = Some payload.
Proof.
  intros Hs Hc Hok Hf Hp Hl Hlp Hrp Hsn Hrn.
  destruct (tcp_send_spec i flags payload c s Hs Hc Hok Hf Hp Hl) as (tx&Htx&st&s'&E&->).
  pose proof (ck_mac _ Hok) as Hmac. pose proof (cs_mac _ Hs) as Hm. pose proof (ck_ip _ Hok).
  exists (tcp_frame (g_mac s) c flags payload), tx, st. split; [done|]. split; [done|].
  assert (Hw : 0 <= window_of c < 65536) by (unfold window_of; lia).
  assert (Hip : slice (tcp_frame (g_mac s) c flags payload) 14 20 = Some (cat
      (ip_fields_summed (40 + Z.of_nat (length payload)) IP_PROTO_TCP (c_remote_ip c))))
    by (apply (slice_fields_as _ 3 10); [done|flen..]).
  assert (Htcp : slice (tcp_frame (g_mac s) c flags payload) 34 (20 + Z.of_nat (length payload)) = Some (cat
      (tcp_fields c flags (window_of c) (inet_checksum (tcp_sum c flags payload)) payload)))
    by (apply (slice_fields_as _ 13 10); [done|flen..]).
  unfold tcp_frame in *. split_and!.
  - flen.
  - apply (slice_fields_as _ 0 1); [by unfold cat; simpl; rewrite app_nil_r|flen..].
  - apply (slice_fields_as _ 1 1); [by unfold cat; simpl; rewrite app_nil_r|flen..].
  - rewrite (ip_checksum_value _ _ _ _ Hip) by (apply ip_fields_bytes || lia; done). f_equal. by apply ip_fields_verify.
  - assert (Hn : 0 <= 20 + Z.of_nat (length payload) < 65536) by lia.
    rewrite (tcp_checksum_value NET_IP (c_remote_ip c) _ _ _ _ ltac:(done) ltac:(done) Hn Htcp) by (by apply tcp_fields_bytes).
    f_equal. by apply tcp_fields_verify.
  - apply (rd16_field 2); [done|done|flen].
  - apply (rd16_field 5); [done|lia|flen].
  - unfold rd8. by rewrite (aget_field _ 9 [IP_PROTO_TCP] 0) by (done || flen).
  - apply (rd32_field 11); [done|done|flen].
  - apply (rd32_field 12); [done|done|flen].
  - apply (rd16_field 13); [done|done|flen].
  - apply (rd16_field 14); [done|done|flen].
  - apply (rd32_field 15); [done|done|flen].
  - apply (rd32_field 16); [done|by case_if|flen].
  - unfold rd8. by rewrite (aget_field _ 18 [flags] 0) by (done || flen).
  - apply (rd16_field 19); [done|done|flen].
  - apply (slice_fields_as _ 22 1); [by unfold cat; simpl; rewrite app_nil_r|flen..].
Qed.

(** A state with an established connection in slot 0. *)
Definition demo_conn : tcp_conn :=
  TcpConn TCP_ESTABLISHED 0x0A000202 0xD100 80 0x2001 1001 [2; 0; 0; 0; 0; 1] 7 4096 0 5 0 1 0.
Definition demo_net : net :=
  Net [2; 0; 0; 0; 0; 9] 1 0 0 (replicate 8 arp_empty) 0 0 0 0 0 0 0 [demo_conn; conn_zero; conn_zero; conn_zero]
    false (replicate 1518 0) (replicate 2048 0) None {[ (5, 7) := replicate 4096 0 ]} 5 3 100 []
    [Round 0 0 [] [] [] 0 None].

Lemma demo_can_send : can_send demo_net.
Proof. by split; [apply length_replicate|..]. Qed.

Lemma demo_conn_ok : conn_ok demo_conn.
Proof. by split. Qed.

Lemma tcp_send_emits_witness :
  exists f tx st, tcp_send 0 (Z.lor TCP_PSH TCP_ACK) [71; 69; 84] 3 demo_net =
      Some (st, set_sent [f] (set_g_txframe tx demo_net)) /\
    ip_checksum f 14 20 = Some 0 /\ tcp_checksum NET_IP 0x0A000202 f 34 23 = Some 0 /\
    rd32 f 42 = Some 1001 /\ rd16 f 48 = Some 4096 /\ slice f 54 3 = Some [71; 69; 84].
Proof.
  destruct (tcp_send_emits 0 (Z.lor TCP_PSH TCP_ACK) [71; 69; 84] demo_conn demo_net
    demo_can_send eq_refl demo_conn_ok ltac:(by vm_compute) ltac:(by apply bytes_check) ltac:(simpl; lia)
    ltac:(by vm_compute) ltac:(by vm_compute) ltac:(by vm_compute) ltac:(by vm_compute))
    as (f&tx&st&E&_&_&_&_&Hi&Ht&_&_&_&_&_&_&_&_&Ha&_&Hw&Hp).
  exists f, tx, st. exact (conj E (conj Hi (conj Ht (conj Ha (conj Hw Hp))))).
Defined.


End NetFrames.
