(* ===== verification/NetTcp.v ===== *)
(** * NetTcp: the receive side of the TCP client

    What arrives in a connection's buffer is a prefix of the peer's byte stream,
    whatever the network does to the order and number of the segments. *)

From Stdlib Require Import ZArith Lia Bool ZifyBool.
From stdpp Require Import base numbers option list list_numbers gmap.
From S2P Require Import Prelude StateM Net NetFrames.

Open Scope Z_scope.

Module NetTcp.
Import Net NetFrames.

(** ** Reading a received frame *)

Lemma aget_prefix (f t : list Z) p b : aget f p = Some b -> aget (f ++ t) p = Some b.
Proof.
  intros H. pose proof (aget_Some_lt _ _ _ H). unfold aget in *. case_if; [|done]. by apply lookup_app_l_Some.
Qed.

Lemma rd16_prefix f t p v : rd16 f p = Some v -> rd16 (f ++ t) p = Some v.
Proof.
  unfold rd16. destruct (aget f p) eqn:E1; [|done]. destruct (aget f (p + 1)) eqn:E2; [|done]. simpl. intros <-.
  by rewrite (aget_prefix _ _ _ _ E1), (aget_prefix _ _ _ _ E2).
Qed.

Lemma rd32_prefix f t p v : rd32 f p = Some v -> rd32 (f ++ t) p = Some v.
Proof.
  unfold rd32. destruct (aget f p) eqn:E1; [|done]. destruct (aget f (p + 1)) eqn:E2; [|done].
  destruct (aget f (p + 2)) eqn:E3; [|done]. destruct (aget f (p + 3)) eqn:E4; [|done].
  cbn [mbind option_bind]. intros <-.
  by rewrite (aget_prefix _ _ _ _ E1), (aget_prefix _ _ _ _ E2), (aget_prefix _ _ _ _ E3), (aget_prefix _ _ _ _ E4).
Qed.

Lemma slice_prefix (f t : list Z) p n d : slice f p n = Some d -> slice (f ++ t) p n = Some d.
Proof.
  intros (?&?&?&->)%slice_Some. rewrite slice_ok by (rewrite ?length_app; lia).
  f_equal. rewrite drop_app_le by lia. rewrite take_app_le; [done|]. rewrite length_drop. lia.
Qed.

(** ** Slots *)

(** Every slot in use has the local port of its index. *)
Definition slots_ok (cs : list tcp_conn) : Prop :=
  length cs = 4%nat /\
  forall i c, aget cs i = Some c -> truth (c_in_use c) = true -> c_local_port c = 0xD100 + i.

Lemma find_conn_spec cs ip rp lp k i :
  find_conn cs ip rp lp k = Some i ->
  exists c, aget cs (i - k) = Some c /\ conn_matches ip rp lp c = true /\ k <= i.
Proof.
  revert k. induction cs as [|c cs IH]; intros k; simpl; [done|].
  destruct (conn_matches ip rp lp c) eqn:E.
  - intros [= <-]. exists c. rewrite Z.sub_diag. split; [done|]. split; [done|lia].
  - intros (c'&Hc&Hm&Hk)%IH. exists c'. split; [|split; [done|lia]].
    unfold aget in *. destruct (Z.leb_spec 0 (i - (k + 1))); [|done]. destruct (Z.leb_spec 0 (i - k)); [|lia].
    replace (Z.to_nat (i - k)) with (S (Z.to_nat (i - (k + 1)))) by lia. done.
Qed.

Lemma find_conn_None cs ip rp lp k :
  find_conn cs ip rp lp k = None -> forall i c, aget cs i = Some c -> conn_matches ip rp lp c = false.
Proof.
  revert k. induction cs as [|c cs IH]; intros k; simpl; [intros _ i c H; apply aget_Some_lt in H; simpl in H; lia|].
  destruct (conn_matches ip rp lp c) eqn:E; [done|]. intros H i c' Hi.
  unfold aget in Hi. destruct (Z.leb_spec 0 i); [|done].
  destruct (Z.to_nat i) as [|n] eqn:En; simpl in Hi; [by injection Hi as <-|].
  apply (IH _ H (Z.of_nat n)). by rewrite aget_nat.
Qed.

Lemma conn_matches_port ip rp lp c : conn_matches ip rp lp c = true -> truth (c_in_use c) = true /\ c_local_port c = lp.
Proof. unfold conn_matches. intros. bools. by split; [|lia]. Qed.

(** With distinct ports the first match is the only one. *)
Lemma find_conn_at cs ip rp lp i c :
  slots_ok cs -> aget cs i = Some c -> conn_matches ip rp lp c = true -> find_conn cs ip rp lp 0 = Some i.
Proof.
  intros [_ Hs] Hc Hm. destruct (find_conn cs ip rp lp 0) as [j|] eqn:E.
  - apply find_conn_spec in E as (c'&Hc'&Hm'&_). rewrite Z.sub_0_r in Hc'.
    apply conn_matches_port in Hm as [Hu Hp], Hm' as [Hu' Hp'].
    pose proof (Hs _ _ Hc Hu). pose proof (Hs _ _ Hc' Hu'). f_equal. lia.
  - by rewrite (find_conn_None _ _ _ _ _ E _ _ Hc) in Hm.
Qed.

(** ** Steps of the receive path *)

(** Reduce the connection table of an updated state. *)
Ltac conns := cbn [g_tcp_conns mem cr3 set_g_tcp_conns set_mem set_env set_sent set_g_txframe set_g_rxframe].

Lemma wp_conn i c Q s : aget (g_tcp_conns s) i = Some c -> Q c s -> wp (conn i) Q s.
Proof. intros H HQ. unfold conn. wstep. wstep. by eapply wp_must. Qed.

Lemma wp_on_conn i f c Q s :
  aget (g_tcp_conns s) i = Some c ->
  Q tt (set_g_tcp_conns (<[Z.to_nat i := f c]> (g_tcp_conns s)) s) -> wp (on_conn i f) Q s.
Proof.
  intros H HQ. unfold on_conn. wstep. eapply wp_conn; [done|]. eapply wp_try; [|exact HQ].
  rewrite aset_ok by (by eapply aget_Some_lt). done.
Qed.

Lemma wp_poke p off bs b b' Q s :
  mem s !! mkey (cr3 s) p = Some b -> splice b off bs = Some b' ->
  Q tt (set_mem (<[mkey (cr3 s) p := b']> (mem s)) s) -> wp (poke p off bs) Q s.
Proof. intros H1 H2 HQ. eapply wp_try; [|exact HQ]. by rewrite H1; simpl; rewrite H2. Qed.

(** Where a connection's data goes when page tables [space] are active. *)
Definition sink_key (space : Z) (c : tcp_conn) : Z * Z :=
  mkey (if truth (c_rx_owner_cr3 c) then c_rx_owner_cr3 c else space) (c_rx_buf c).

Lemma wp_copy_to_rx c off bs b b' Q s :
  mem s !! sink_key (cr3 s) c = Some b -> splice b off bs = Some b' ->
  Q tt (set_mem (<[sink_key (cr3 s) c := b']> (mem s)) s) ->
  wp (net_copy_to_rx (c_rx_owner_cr3 c) (c_rx_buf c) off bs) Q s.
Proof.
  unfold sink_key, net_copy_to_rx. destruct (truth (c_rx_owner_cr3 c)); intros H1 H2 HQ.
  - wstep. wstep. wstep. wstep. wstep. eapply wp_poke; [exact H1|done|]. wstep. exact HQ.
  - by eapply wp_poke.
Qed.

(** The frame [f] is a segment for connection [c] with the given sequence number,
    flags and data: an IPv4 packet without options and a TCP header without
    options; bytes after the packet (padding) are allowed. *)
Record tcp_segment (c : tcp_conn) (f : list Z) (seq fl : Z) (d : list Z) : Prop := {
  ds_len : (length f <= 2048)%nat;
  ds_type : rd16 f 12 = Some ETHERTYPE_IP;
  ds_ihl : rd8 f 14 = Some 0x45;
  ds_total : rd16 f 16 = Some (40 + Z.of_nat (length d));
  ds_proto : rd8 f 23 = Some IP_PROTO_TCP;
  ds_src : rd32 f 26 = Some (c_remote_ip c);
  ds_dst : rd32 f 30 = Some NET_IP;
  ds_sport : rd16 f 34 = Some (c_remote_port c);
  ds_dport : rd16 f 36 = Some (c_local_port c);
  ds_seq : rd32 f 38 = Some seq;
  ds_off : rd8 f 46 = Some 0x50;
  ds_flags : rd8 f 47 = Some fl;
  ds_data : slice f 54 (Z.of_nat (length d)) = Some d }.

(** The connection takes part in the demultiplexing. *)
Definition listening (c : tcp_conn) : Prop := truth (c_in_use c) = true /\ c_state c <> TCP_CLOSED.

Lemma listening_matches c : listening c -> conn_matches (c_remote_ip c) (c_remote_port c) (c_local_port c) c = true.
Proof.
  intros [Hu Hs]. unfold conn_matches. rewrite Hu, !Z.eqb_refl.
  by destruct (Z.eqb_spec (c_state c) TCP_CLOSED).
Qed.

Lemma splice_front (rx f : list Z) :
  (length f <= length rx)%nat -> splice rx 0 f = Some (f ++ drop (length f) rx).
Proof. intros. rewrite splice_ok by lia. done. Qed.

(** From the card to the connection: a segment reaches tcp_input of its slot
    with the fields of its headers. *)
Lemma wp_receive_segment i c f seq fl d Q s :
  tcp_segment c f seq fl d -> aget (g_tcp_conns s) i = Some c -> slots_ok (g_tcp_conns s) -> listening c ->
  length (g_rxframe s) = 2048%nat ->
  wp (tcp_input i seq fl 54 (Z.of_nat (length d))) Q (set_g_rxframe (f ++ drop (length f) (g_rxframe s)) s) ->
  wp (receive f) Q s.
Proof.
  intros [Hlen Hty Hih Htot Hpr Hsrc Hdst Hsp Hdp Hsq Hoff Hfl Hdat] Hc Hslots Hlis Hrx HQ.
  pose proof (slice_Some _ _ _ _ Hdat) as (_&_&Hend&_). set (t := drop (length f) (g_rxframe s)) in *.
  assert (Hdl : Z.of_nat (length d) <= 1994) by lia.
  unfold receive. wstep. eapply (wp_try _ (set_g_rxframe (f ++ t) s)); [by rewrite splice_front by lia|].
  destruct (Z.ltb_spec (Z.of_nat (length f)) 14); [lia|].
  wstep. wstep. change (g_rxframe (set_g_rxframe (f ++ t) s)) with (f ++ t).
  wstep. eapply wp_must; [by apply rd16_prefix|].
  change (ETHERTYPE_IP =? ETHERTYPE_ARP) with false. change (ETHERTYPE_IP =? ETHERTYPE_IP) with true. cbn iota.
  unfold handle_ip. rewrite u16_id by lia. destruct (Z.ltb_spec (Z.of_nat (length f)) (14 + 20)); [lia|].
  wstep. wstep. change (g_rxframe (set_g_rxframe (f ++ t) s)) with (f ++ t).
  wstep. eapply wp_must; [by apply aget_prefix|]. change (u8 (Z.land 69 15 * 4)) with 20.
  wstep. eapply wp_must; [by apply rd16_prefix|]. wstep. eapply wp_must; [by apply rd32_prefix|].
  wstep. eapply wp_must; [by apply aget_prefix|].
  rewrite Z.eqb_refl. change (IP_PROTO_TCP =? IP_PROTO_ICMP) with false. rewrite Z.eqb_refl. cbn [negb andb].
  destruct (Z.leb_spec (20 + 20) (40 + Z.of_nat (length d))); [|lia].
  replace (u16 (40 + Z.of_nat (length d) - 20)) with (20 + Z.of_nat (length d)) by (rewrite u16_id; lia).
  unfold handle_tcp. wstep. wstep. change (g_rxframe (set_g_rxframe (f ++ t) s)) with (f ++ t).
  wstep. eapply wp_must; [by apply rd16_prefix|]. wstep. eapply wp_must; [by apply rd16_prefix|].
  wstep. eapply wp_must; [by apply rd32_prefix|]. wstep. eapply wp_must; [by apply aget_prefix|].
  wstep. eapply wp_must; [by apply aget_prefix|]. wstep. eapply wp_must; [by apply rd32_prefix|].
  change (u8 (Z.shiftr 80 4 * 4)) with 20.
  assert ((if 20 <? 20 + Z.of_nat (length d) then u16 (20 + Z.of_nat (length d) - 20) else 0)
    = Z.of_nat (length d)) as ->.
  { destruct (Z.ltb_spec 20 (20 + Z.of_nat (length d))); [rewrite u16_id|]; lia. }
  wstep. wstep. change (g_tcp_conns (set_g_rxframe (f ++ t) s)) with (g_tcp_conns s).
  rewrite (find_conn_at _ _ _ _ i c Hslots Hc (listening_matches c Hlis)). exact HQ.
Qed.

(** The frame carries the bytes [d] at sequence number [seq] and neither FIN nor RST. *)
Definition data_segment (c : tcp_conn) (f : list Z) (seq : Z) (d : list Z) : Prop :=
  exists fl, tcp_segment c f seq fl d /\ flag fl TCP_RST = false /\ flag fl TCP_FIN = false.

Section Stream.
Context (s0 : net) (i : Z) (c0 : tcp_conn) (b0 stream : list Z) (base : Z).

Definition conn_at (k : nat) : tcp_conn := set_c_rcv_nxt (u32 (base + Z.of_nat k)) (set_c_rx_len (Z.of_nat k) c0).
Definition buf_at (k : nat) : list Z := take k stream ++ drop k b0.
Definition ack_at (k : nat) : list Z := tcp_frame (g_mac s0) (conn_at k) TCP_ACK [].

(** [s0] after the first [k] bytes of the stream have arrived and the frames
    [out] have been sent. *)
Definition point (k : nat) (out : list (list Z)) (tx rx : list Z) (e : list round) : net :=
  set_env e (set_sent (sent s0 ++ out) (set_g_txframe tx (set_g_rxframe rx
    (set_mem (<[sink_key (cr3 s0) c0 := buf_at k]> (mem s0))
      (set_g_tcp_conns (<[Z.to_nat i := conn_at k]> (g_tcp_conns s0)) s0))))).

Record receiving : Prop := {
  rv_send : can_send s0;
  rv_slots : slots_ok (g_tcp_conns s0);
  rv_conn : aget (g_tcp_conns s0) i = Some c0;
  rv_use : truth (c_in_use c0) = true;
  rv_state : c_state c0 = TCP_ESTABLISHED;
  rv_ok : conn_ok c0;
  rv_buf : mem s0 !! sink_key (cr3 s0) c0 = Some b0;
  rv_cap : Z.of_nat (length stream) <= c_rx_cap c0 <= Z.of_nat (length b0);
  rv_int : c_rx_cap c0 <= INT_MAX }.
Context (HR : receiving).

Lemma idx_range : 0 <= i < Z.of_nat (length (g_tcp_conns s0)).
Proof. eapply aget_Some_lt, HR. Qed.

Lemma point_conn k out tx rx e : aget (g_tcp_conns (point k out tx rx e)) i = Some (conn_at k).
Proof.
  pose proof idx_range. change (aget (<[Z.to_nat i := conn_at k]> (g_tcp_conns s0)) i = Some (conn_at k)).
  rewrite aget_insert by done. by rewrite decide_True.
Qed.

Lemma conn_at_ok k : (k <= length stream)%nat -> conn_ok (conn_at k).
Proof.
  intros Hk. destruct HR as [_ _ _ _ _ [? ? ?] _ ? ?]. split; [done|done|].
  cbn. unfold INT_MIN, INT_MAX in *. lia.
Qed.

Lemma slots_ok_at k : slots_ok (<[Z.to_nat i := conn_at k]> (g_tcp_conns s0)).
Proof.
  destruct HR as [_ [Hl Hp] Hc Hu _ _ _ _ _]. pose proof idx_range. split; [by rewrite length_insert|].
  intros j c. rewrite aget_insert by done. destruct (decide (i = j)) as [<-|]; [|apply Hp].
  intros [= <-] _. exact (Hp i c0 Hc Hu).
Qed.

Lemma buf_length k : (k <= length stream)%nat -> length (buf_at k) = length b0.
Proof. intros. destruct HR. unfold buf_at. rewrite length_app, length_take, length_drop. lia. Qed.

Lemma buf_step k d :
  slice stream (Z.of_nat k) (Z.of_nat (length d)) = Some d ->
  splice (buf_at k) (Z.of_nat k) d = Some (buf_at (k + length d)).
Proof.
  intros (_&_&Hl&Hd)%slice_Some. destruct HR as [_ _ _ _ _ _ _ [Hc1 Hc2] _].
  rewrite splice_ok by (rewrite ?buf_length by lia; lia).
  f_equal. rewrite !Nat2Z.id in *. unfold buf_at.
  rewrite take_app_le, take_take by (rewrite length_take; lia).
  rewrite drop_app_ge by (rewrite length_take; lia). rewrite drop_drop, length_take.
  rewrite app_assoc. f_equal; [|f_equal; lia].
  rewrite Nat.min_id. rewrite Hd at 1. by rewrite take_take_drop.
Qed.
Lemma conn_at_step k n :
  set_c_rcv_nxt (u32 (c_rcv_nxt (conn_at k) + Z.of_nat n))
    (set_c_rx_len (Z.of_nat k + Z.of_nat n) (conn_at k)) = conn_at (k + n).
Proof.
  unfold conn_at. cbn. unfold set_c_rcv_nxt, set_c_rx_len, u32. cbn.
  rewrite Zplus_mod_idemp_l. by rewrite <- Z.add_assoc, <- Nat2Z.inj_add.
Qed.

Lemma point_can_send k out tx rx e : length tx = 1518%nat -> e <> [] -> can_send (point k out tx rx e).
Proof. intros. destruct HR as [[? ? ?] _ _ _ _ _ _ _ _]. by split. Qed.

(** In-order data is stored and acknowledged. *)
Lemma accept_data_point k d out tx rx e :
  slice stream (Z.of_nat k) (Z.of_nat (length d)) = Some d -> (0 < length d)%nat ->
  slice rx 54 (Z.of_nat (length d)) = Some d -> length tx = 1518%nat -> e <> [] ->
  exists tx', length tx' = 1518%nat /\
  wp (accept_data i 54 (Z.of_nat (length d)))
     (fun _ s' => s' = point (k + length d) (out ++ [ack_at (k + length d)]) tx' rx e) (point k out tx rx e).
Proof.
  intros Hd Hpos Hrx Htx He. pose proof (slice_Some _ _ _ _ Hd) as (_&_&Hl&_).
  pose proof idx_range as Hi. pose proof (rv_cap HR) as [Hcap _]. pose proof (rv_int HR) as Hint.
  set (k' := (k + length d)%nat).
  destruct (tcp_send_spec i TCP_ACK [] (conn_at k') (point k' out tx rx e)) as (tx'&Htx'&Hsend);
    [by apply point_can_send|apply point_conn|apply conn_at_ok; lia|done|done|simpl; lia|].
  exists tx'. split; [done|]. unfold accept_data.
  wstep. eapply wp_conn; [apply point_conn|]. wstep. wstep. wstep.
  eapply wp_must; [apply i32_ok; cbn; unfold INT_MIN; lia|].
  cbn [c_rx_cap c_rx_len conn_at set_c_rcv_nxt set_c_rx_len].
  destruct (Z.ltb_spec (c_rx_cap c0) (Z.of_nat k + Z.of_nat (length d))); [lia|].
  wstep. wstep. wstep. destruct (Z.ltb_spec 0 (Z.of_nat (length d))); [|lia].
  wstep. eapply wp_must; [exact Hrx|]. wstep.
  eapply (wp_copy_to_rx c0); [apply lookup_insert_eq|by apply buf_step|].
  eapply wp_on_conn; [unfold point; conns; by apply aget_insert_eq|]. wstep.
  eapply wp_on_conn; [apply aget_insert_eq; unfold point; conns; by rewrite !length_insert|].
  match goal with |- wp _ _ ?S => replace S with (point k' out tx rx e) end.
  - wuse Hsend as ->. wstep. unfold ack_at, point, k'. by rewrite app_assoc.
  - unfold point, k'. rewrite <- conn_at_step. conns.
    by rewrite !list_insert_insert_eq, insert_insert_eq.
Qed.


(** The position after a segment with [n] bytes at offset [o]. *)
Definition advance (k o n : nat) : nat := if decide (o = k /\ n <> 0%nat) then (k + n)%nat else k.
Definition acks (k o n : nat) : list (list Z) := if decide (o = k /\ n <> 0%nat) then [ack_at (k + n)] else [].

Lemma seq_hits k o : (k <= length stream)%nat -> (o <= length stream)%nat ->
  (u32 (base + Z.of_nat o) =? c_rcv_nxt (conn_at k)) = bool_decide (o = k).
Proof.
  intros Hk Ho. destruct HR as [_ _ _ _ _ _ _ ? Hi]. unfold INT_MAX in Hi.
  change (c_rcv_nxt (conn_at k)) with (u32 (base + Z.of_nat k)).
  destruct (Z.eqb_spec (u32 (base + Z.of_nat o)) (u32 (base + Z.of_nat k))) as [E|E].
  - rewrite bool_decide_true; [done|]. unfold u32 in E. change (2 ^ 32) with 4294967296 in E. dlia.
  - rewrite bool_decide_false; [done|]. by intros ->.
Qed.

(** A data segment is taken exactly when it is the next one. *)
Lemma data_point k o d rx out tx e :
  slice stream (Z.of_nat o) (Z.of_nat (length d)) = Some d -> (k <= length stream)%nat ->
  slice rx 54 (Z.of_nat (length d)) = Some d -> length tx = 1518%nat -> e <> [] ->
  wp (if (0 <? Z.of_nat (length d)) && (u32 (base + Z.of_nat o) =? c_rcv_nxt (conn_at k))
      then accept_data i 54 (Z.of_nat (length d)) else mret tt)
     (fun _ s' => exists tx', length tx' = 1518%nat /\
        s' = point (advance k o (length d)) (out ++ acks k o (length d)) tx' rx e)
     (point k out tx rx e).
Proof.
  intros Hd Hk Hrx Htx He. pose proof (slice_Some _ _ _ _ Hd) as (_&_&Hl&_).
  rewrite seq_hits by lia. unfold advance, acks.
  destruct (decide (o = k /\ length d <> 0%nat)) as [[-> Hnz]|Hno].
  - rewrite bool_decide_true by done. destruct (Z.ltb_spec 0 (Z.of_nat (length d))); [|lia]. cbn [andb].
    destruct (accept_data_point k d out tx rx e) as (tx'&Htx'&Hacc); [done|lia|done..|].
    eapply wp_mono; [exact Hacc|]. intros [] ? ->. by exists tx'.
  - replace (_ && _) with false; [wstep; exists tx; by rewrite app_nil_r|].
    symmetry. destruct (Z.ltb_spec 0 (Z.of_nat (length d))); [|done]. cbn [andb].
    rewrite bool_decide_false; [done|]. intros ->. apply Hno. split; [done|lia].
Qed.

Lemma set_waiting_env fs r rs s :
  set_waiting fs (set_env (r :: rs) s) =
  set_env (Round (r_tick r) (r_tx r) (r_alive r) fs (r_parked r) (r_cr3 r) (r_lock r) :: rs) s.
Proof. reflexivity. Qed.

Lemma set_waiting_point fs k out tx rx r rs :
  set_waiting fs (point k out tx rx (r :: rs)) = point k out tx rx
    (Round (r_tick r) (r_tx r) (r_alive r) fs (r_parked r) (r_cr3 r) (r_lock r) :: rs).
Proof. unfold point. apply set_waiting_env. Qed.

Lemma rx_point k out tx rx e f :
  set_g_rxframe (f ++ drop (length f) (g_rxframe (point k out tx rx e))) (point k out tx rx e) =
  point k out tx (f ++ drop (length f) rx) e.
Proof. reflexivity. Qed.

(** A segment of [c0] is a segment of the connection at any point. *)
Lemma segment_at k f seq fl d : tcp_segment c0 f seq fl d -> tcp_segment (conn_at k) f seq fl d.
Proof. intros []. by split. Qed.

Lemma listening_at k : listening (conn_at k).
Proof. split; [apply HR|]. change (c_state c0 <> TCP_CLOSED). by rewrite (rv_state HR). Qed.

(** One frame of the stream through the receive path. *)
Lemma receive_point k o d f out tx rx e :
  data_segment c0 f (u32 (base + Z.of_nat o)) d ->
  slice stream (Z.of_nat o) (Z.of_nat (length d)) = Some d -> (k <= length stream)%nat ->
  length tx = 1518%nat -> length rx = 2048%nat -> e <> [] ->
  wp (receive f)
     (fun _ s' => exists tx' rx', length tx' = 1518%nat /\ length rx' = 2048%nat /\
        s' = point (advance k o (length d)) (out ++ acks k o (length d)) tx' rx' e)
     (point k out tx rx e).
Proof.
  intros (fl&Hf&Hrst&Hfin) Hd Hk Htx Hrx He. set (t := drop (length f) rx).
  eapply (wp_receive_segment i (conn_at k)); [by apply segment_at|apply point_conn| |apply listening_at|done|].
  { unfold point. conns. apply slots_ok_at. }
  unfold tcp_input. wstep. eapply wp_conn; [unfold point; conns; by apply aget_insert_eq, idx_range|].
  rewrite Hrst, Hfin.
  change (c_state (conn_at k)) with (c_state c0). rewrite (rv_state HR). change (TCP_ESTABLISHED =? TCP_SYN_SENT) with false. cbn iota.
  wstep. rewrite rx_point.
  eapply wp_mono; [by apply data_point; [..|apply slice_prefix; apply Hf|done|done]|].
  intros [] s' (tx'&Htx'&->). wstep. exists tx', (f ++ t). split; [done|]. split; [|done].
  pose proof (ds_len _ _ _ _ _ Hf). unfold t. rewrite length_app, length_drop. lia.
Qed.

(** A frame together with what it carries: the offset in the stream and the bytes. *)
Definition segment : Type := list Z * (nat * list Z).
Definition honest (x : segment) : Prop :=
  let '(f, (o, d)) := x in
  data_segment c0 f (u32 (base + Z.of_nat o)) d /\
  slice stream (Z.of_nat o) (Z.of_nat (length d)) = Some d.

(** The receiver as it should be: the position after the segments and the
    acknowledgements sent on the way. *)
Fixpoint reassemble (k : nat) (xs : list segment) : nat :=
  match xs with
  | [] => k
  | (_, (o, d)) :: xs' => reassemble (advance k o (length d)) xs'
  end.
Fixpoint ack_trace (k : nat) (xs : list segment) : list (list Z) :=
  match xs with
  | [] => []
  | (_, (o, d)) :: xs' => acks k o (length d) ++ ack_trace (advance k o (length d)) xs'
  end.

Lemma advance_bound k o d :
  slice stream (Z.of_nat o) (Z.of_nat (length d)) = Some d -> (k <= length stream)%nat ->
  (k <= advance k o (length d) <= length stream)%nat.
Proof. intros (_&_&?&_)%slice_Some ?. unfold advance. destruct (decide _) as [[-> _]|]; lia. Qed.

Lemma poll_point xs k out tx rx r rs :
  Forall honest xs -> (k <= length stream)%nat -> length tx = 1518%nat -> length rx = 2048%nat ->
  wp (poll_frames (map fst xs))
     (fun _ s' => exists tx' rx' e', length tx' = 1518%nat /\ length rx' = 2048%nat /\
        s' = point (reassemble k xs) (out ++ ack_trace k xs) tx' rx' e')
     (point k out tx rx (r :: rs)).
Proof.
  intros H. revert k out tx rx r. induction H as [|[f [o d]] xs [Hf Hd] _ IH]; intros k out tx rx r Hk Htx Hrx.
  - cbn. wstep. exists tx, rx, (r :: rs). by rewrite app_nil_r.
  - cbn [map fst poll_frames]. wstep. wstep. rewrite set_waiting_point.
    pose proof Hf as (fl&Hseg&_). pose proof (ds_len _ _ _ _ _ Hseg).
    pose proof (slice_Some _ _ _ _ (ds_data _ _ _ _ _ Hseg)) as (_&_&Hfl&_).
    destruct f as [|b f]; [simpl in Hfl; lia|]. rewrite take_ge by done.
    wstep. eapply wp_mono; [by apply (receive_point k o d)|].
    intros [] ? (tx'&rx'&Htx'&Hrx'&->). cbn [reassemble ack_trace]. rewrite app_assoc.
    apply IH; [by apply advance_bound|done|done].
Qed.


Lemma point_start (k : nat) :
  c_rx_len c0 = Z.of_nat k -> c_rcv_nxt c0 = u32 (base + Z.of_nat k) -> take k b0 = take k stream ->
  s0 = point k [] (g_txframe s0) (g_rxframe s0) (env s0).
Proof.
  intros Hl Hr Hb. pose proof idx_range.
  assert (Hc : conn_at k = c0) by (unfold conn_at; rewrite <- Hr, <- Hl; by destruct c0).
  assert (Hbuf : buf_at k = b0) by (unfold buf_at; by rewrite <- Hb, take_drop).
  pose proof (rv_conn HR) as Hi. unfold aget in Hi. destruct (Z.leb_spec 0 i); [|done].
  unfold point. rewrite Hc, Hbuf, list_insert_id, insert_id, app_nil_r by (done || apply HR). by destruct s0.
Qed.


End Stream.

(** C7: let a connection be established with a receive buffer, and let the card
    hold any number of TCP segments of the peer's byte stream, each the bytes at
    some offset of the stream with the sequence number of that offset, in any
    order, with any losses and any number of repetitions.  One net_poll then is
    defined and leaves in the buffer exactly a prefix of the stream: the position
    is the one an ideal receiver that takes the next segment and ignores all
    others reaches, the bytes behind it and all other memory are untouched, one
    acknowledgement frame goes out for each accepted segment and no other frame,
    and of the rest of the state only the two frame buffers and the rounds
    change.  The data go to the address space that owns the buffer, whichever
    page tables are active. *)
Theorem tcp_delivers_stream (s0 : net) (i : Z) (c0 : tcp_conn) (b0 stream : list Z) (base : Z)
    (k0 : nat) (xs : list segment) (r : round) (rs : list round) :
  receiving s0 i c0 b0 stream ->
  c_rx_len c0 = Z.of_nat k0 -> c_rcv_nxt c0 = u32 (base + Z.of_nat k0) -> take k0 b0 = take k0 stream ->
  (k0 <= length stream)%nat -> Forall (honest c0 stream base) xs ->
  env s0 = r :: rs -> r_frames r = map fst xs -> length (g_rxframe s0) = 2048%nat ->
  truth (g_net_present s0) = true ->
  let k := reassemble k0 xs in
  let key := sink_key (cr3 s0) c0 in
  exists s' tx rx e b,
    net_poll s0 = Some (tt, s') /\
    s' = point s0 i c0 b0 stream base k (ack_trace s0 c0 base k0 xs) tx rx e /\
    (k0 <= k <= length stream)%nat /\
    mem s' !! key = Some b /\ take k b = take k stream /\ drop k b = drop k b0 /\
    (forall q, q <> key -> mem s' !! q = mem s0 !! q) /\
    (exists c, aget (g_tcp_conns s') i = Some c /\ c_rx_len c = Z.of_nat k /\
       c_rcv_nxt c = u32 (base + Z.of_nat k) /\ c_state c = TCP_ESTABLISHED) /\
    (forall j, j <> i -> aget (g_tcp_conns s') j = aget (g_tcp_conns s0) j).
Proof.
  intros HR Hl Hr Hb Hk Hxs He Hfr Hrx Hp k key.
  assert (Hkb : forall xs k0, Forall (honest c0 stream base) xs -> (k0 <= length stream)%nat ->
    (k0 <= reassemble k0 xs <= length stream)%nat).
  { clear -HR. induction xs as [|[f [o d]] xs IH]; intros k0 H Hk; cbn [reassemble]; [lia|].
    apply Forall_cons in H as [[_ Hd] H]. pose proof (advance_bound stream k0 o d Hd Hk).
    specialize (IH (advance k0 o (length d)) H). lia. }
  specialize (Hkb xs k0 Hxs Hk). fold k in Hkb.
  assert (Hrun : wp net_poll (fun _ s' => exists tx rx e, length tx = 1518%nat /\ length rx = 2048%nat /\
      s' = point s0 i c0 b0 stream base k (ack_trace s0 c0 base k0 xs) tx rx e) s0).
  { unfold net_poll. wstep. wstep. rewrite Hp. cbn [negb]. unfold here. wstep. wstep. wstep.
    eapply wp_must; [by rewrite He|]. rewrite Hfr.
    pose proof (poll_point s0 i c0 b0 stream base HR xs k0 [] (g_txframe s0) (g_rxframe s0) r rs Hxs Hk
      (cs_tx _ (rv_send _ _ _ _ _ HR)) Hrx) as H.
    rewrite <- He, <- (point_start s0 i c0 b0 stream base HR k0 Hl Hr Hb) in H. exact H. }
  destruct Hrun as ([]&s'&Ev&tx&rx&e&_&_&->).
  pose proof (buf_length s0 i c0 b0 stream HR k ltac:(lia)) as Hbl.
  pose proof (aget_Some_lt _ _ _ (rv_conn _ _ _ _ _ HR)) as Hi.
  exists (point s0 i c0 b0 stream base k (ack_trace s0 c0 base k0 xs) tx rx e), tx, rx, e, (buf_at b0 stream k).
  split_and!; [done|done|lia|lia|apply lookup_insert_eq| | | | |].
  - unfold buf_at. rewrite take_app_le, take_take, Nat.min_id; [done|rewrite length_take; lia].
  - unfold buf_at. rewrite drop_app_ge, length_take by (rewrite length_take; lia).
    by replace (k - _)%nat with 0%nat by lia.
  - intros q Hq. by apply lookup_insert_ne.
  - eexists. split; [apply (point_conn s0 i c0 b0 stream base HR)|]. split_and!; [done|done|apply HR].
  - intros j Hj. unfold point. conns. rewrite aget_insert by done. by rewrite decide_False.
Qed.

(** A segment from port [rp] of 10.0.2.2 to our port [lp]. *)
Definition peer_segment (rp lp flags seq : Z) (d : list Z) : list Z :=
  cat [[2; 0; 0; 0; 0; 9]; [2; 0; 0; 0; 0; 1]; be16 ETHERTYPE_IP; [0x45]; [0]; be16 (40 + Z.of_nat (length d));
       be16 0; be16 0; [64]; [IP_PROTO_TCP]; be16 0; be32 0x0A000202; be32 NET_IP; be16 rp; be16 lp;
       be32 seq; be32 0x2001; [0x50]; [flags]; be16 8192; be16 0; be16 0; d].
(** A segment of the peer of [demo_conn]. *)
Definition peer_frame : Z -> Z -> list Z -> list Z := peer_segment 80 0xD100.

Definition demo_stream : list Z := [72; 84; 84; 80; 47; 49].
Definition demo_segments : list segment :=
  [(peer_frame 24 1005 [47; 49], (4%nat, [47; 49])); (peer_frame 24 1001 [72; 84], (0%nat, [72; 84]));
   (peer_frame 24 1001 [72; 84], (0%nat, [72; 84])); (peer_frame 24 1003 [84; 80], (2%nat, [84; 80]))].
Definition demo_round : round := Round 0 0 [] (map fst demo_segments) [] 0 None.
Definition demo_receiving : net := set_env [demo_round] (set_cr3 9 demo_net).

Lemma demo_receiving_ok : receiving demo_receiving 0 demo_conn (replicate 4096 0) demo_stream.
Proof.
  split; try done. split; [done|]. intros i c Hc. unfold aget in Hc. destruct (Z.leb_spec 0 i); [|done]. revert Hc.
  destruct (Z.to_nat i) as [|[|[|[|n]]]] eqn:E; cbn; [..|done]; intros [= <-]; try done.
  intros _. cbn. lia.
Qed.

Lemma tcp_delivers_stream_witness :
  exists s' b, net_poll demo_receiving = Some (tt, s') /\ reassemble 0 demo_segments = 4%nat /\
    mem s' !! (5, 7) = Some b /\ take 4 b = [72; 84; 84; 80] /\ drop 4 b = replicate 4092 0.
Proof.
  destruct (tcp_delivers_stream demo_receiving 0 demo_conn (replicate 4096 0) demo_stream 1001 0%nat
    demo_segments demo_round [] demo_receiving_ok)
    as (s'&tx&rx&e&b&E&_&_&Hm&Ht&Hd&_); try reflexivity; [simpl; lia| |].
  - repeat (apply Forall_cons; split; [split; [exists 24; split; [split; first [reflexivity | simpl; lia]|done]|reflexivity]|]).
    apply Forall_nil_2.
  - exists s', b. split; [exact E|]. split; [reflexivity|]. split; [exact Hm|]. split; [exact Ht|].
    etransitivity; [exact Hd|]. reflexivity.
Defined.


End NetTcp.
