(* ===== verification/NetInv.v ===== *)
(** * NetInv: the well-formedness invariant of the network stack

    A Hoare-style calculus for "whenever the code returns, the invariant holds",
    the ARP cache as a finite map, and the invariant of every operation of the
    network interface, for arbitrary frames from the network. *)

From Stdlib Require Import ZArith Lia Bool ZifyBool.
From stdpp Require Import base numbers option list list_numbers gmap.
From S2P Require Import Prelude StateM Net NetFrames NetTcp.

Open Scope Z_scope.

Module NetInv.
Import Net NetFrames NetTcp.

(** ** The ARP cache *)

Definition entry_ip (e : arp_entry) : option Z := if truth (ae_valid e) then Some (ae_ip e) else None.

(** Eight entries with six-byte addresses; no address twice. *)
Definition cache_ok (cache : list arp_entry) : Prop :=
  length cache = 8%nat /\ Forall (fun e => length (ae_mac e) = 6%nat) cache /\
  forall i j a b, aget cache i = Some a -> aget cache j = Some b -> i <> j ->
    truth (ae_valid a) = true -> truth (ae_valid b) = true -> ae_ip a <> ae_ip b.

(** The mapping the cache holds. *)
Definition cache_find (cache : list arp_entry) (ip : Z) : option (list Z) :=
  i ← arp_lookup_from cache ip 0; e ← aget cache i; Some (ae_mac e).

Lemma arp_lookup_from_Some cache ip k i :
  arp_lookup_from cache ip k = Some i ->
  k <= i /\ exists e, aget cache (i - k) = Some e /\ arp_hit ip e = true.
Proof.
  revert k. induction cache as [|e cache IH]; intros k; simpl; [done|].
  destruct (arp_hit ip e) eqn:E.
  - intros [= <-]. rewrite Z.sub_diag. split; [lia|]. by exists e.
  - intros (?&e'&He&Hh)%IH. split; [lia|]. exists e'. split; [|done].
    unfold aget in *. destruct (Z.leb_spec 0 (i - (k + 1))); [|done]. destruct (Z.leb_spec 0 (i - k)); [|lia].
    by replace (Z.to_nat (i - k)) with (S (Z.to_nat (i - (k + 1)))) by lia.
Qed.

Lemma arp_lookup_from_None cache ip k :
  arp_lookup_from cache ip k = None -> forall i e, aget cache i = Some e -> arp_hit ip e = false.
Proof.
  revert k. induction cache as [|e cache IH]; intros k; simpl.
  - intros _ i e H. apply aget_Some_lt in H. simpl in H. lia.
  - destruct (arp_hit ip e) eqn:E; [done|]. intros H i e' Hi.
    unfold aget in Hi. destruct (Z.leb_spec 0 i); [|done].
    destruct (Z.to_nat i) as [|n] eqn:En; simpl in Hi; [by injection Hi as <-|].
    apply (IH _ H (Z.of_nat n)). by rewrite aget_nat.
Qed.

Lemma arp_hit_iff ip e : arp_hit ip e = true <-> truth (ae_valid e) = true /\ ae_ip e = ip.
Proof. unfold arp_hit. rewrite andb_true_iff, Z.eqb_eq. done. Qed.

(** In a cache without duplicates, a hit is found wherever it is. *)
Lemma cache_find_hit cache ip i e :
  cache_ok cache -> aget cache i = Some e -> arp_hit ip e = true -> cache_find cache ip = Some (ae_mac e).
Proof.
  intros (_&_&Hd) Hi Hh. unfold cache_find. destruct (arp_lookup_from cache ip 0) as [j|] eqn:E.
  - apply arp_lookup_from_Some in E as (_&e'&He'&Hh'). rewrite Z.sub_0_r in He'. simpl. rewrite He'. simpl.
    apply arp_hit_iff in Hh as [Hv <-], Hh' as [Hv' Hip].
    destruct (decide (i = j)) as [<-|Hne]; [congruence|]. by destruct (Hd i j e e').
  - by rewrite (arp_lookup_from_None _ _ _ E _ _ Hi) in Hh.
Qed.

Lemma cache_find_None cache ip :
  cache_find cache ip = None <-> forall i e, aget cache i = Some e -> arp_hit ip e = false.
Proof.
  unfold cache_find. destruct (arp_lookup_from cache ip 0) as [j|] eqn:E.
  - apply arp_lookup_from_Some in E as (_&e'&He'&Hh'). rewrite Z.sub_0_r in He'. simpl. rewrite He'. simpl.
    split; [done|]. intros H. by rewrite (H _ _ He') in Hh'.
  - split; [|done]. intros _. by apply (arp_lookup_from_None _ _ _ E).
Qed.

(** The slot arp_insert chooses: the entry of the address if there is one, else
    the last invalid entry, else the given default. *)
Lemma arp_slot_from_spec cache ip k slot :
  let i := arp_slot_from cache ip k slot in
  (exists e, aget cache (i - k) = Some e /\ k <= i /\ arp_hit ip e = true) \/
  ((forall j e, aget cache j = Some e -> arp_hit ip e = false) /\
   ((exists e, aget cache (i - k) = Some e /\ k <= i /\ truth (ae_valid e) = false) \/
    (i = slot /\ forall j e, aget cache j = Some e -> truth (ae_valid e) = true))).
Proof.
  revert k slot. induction cache as [|e cache IH]; intros k slot; cbn [arp_slot_from].
  - right. split; [|right; split; [done|]]; intros j e H; apply aget_Some_lt in H; simpl in H; lia.
  - destruct (arp_hit ip e) eqn:Eh.
    { left. exists e. rewrite Z.sub_diag. split; [done|]. split; [lia|done]. }
    specialize (IH (k + 1) (if truth (ae_valid e) then slot else k)). cbn zeta in IH |- *.
    set (i := arp_slot_from cache ip (k + 1) (if truth (ae_valid e) then slot else k)) in *.
    assert (Hsh : forall e', aget cache (i - (k + 1)) = Some e' -> k + 1 <= i -> aget (e :: cache) (i - k) = Some e').
    { intros e' He Hk. unfold aget in *. destruct (Z.leb_spec 0 (i - (k + 1))); [|done].
      destruct (Z.leb_spec 0 (i - k)); [|lia].
      by replace (Z.to_nat (i - k)) with (S (Z.to_nat (i - (k + 1)))) by lia. }
    assert (Hall : forall P : arp_entry -> Prop, P e -> (forall j x, aget cache j = Some x -> P x) ->
      forall j x, aget (e :: cache) j = Some x -> P x).
    { intros P He H j x Hj. unfold aget in Hj. destruct (Z.leb_spec 0 j); [|done].
      destruct (Z.to_nat j) as [|n]; simpl in Hj; [by injection Hj as <-|].
      apply (H (Z.of_nat n)). by rewrite aget_nat. }
    destruct IH as [(e'&He&Hk&Hh)|[Hno [(e'&He&Hk&Hv)|[Hi Hv]]]].
    + left. exists e'. split; [by apply Hsh|]. split; [lia|done].
    + right. split; [by apply Hall|]. left. exists e'. split; [by apply Hsh|]. split; [lia|done].
    + right. split; [by apply Hall|]. destruct (truth (ae_valid e)) eqn:Ev.
      * right. split; [done|]. by apply Hall.
      * left. exists e. rewrite Hi, Z.sub_diag. split; [done|]. split; [lia|done].
Qed.

(** arp_insert on the cache: an update of the map that may drop one other
    address, and only when all entries are in use. *)
Lemma arp_store_spec cache ip mac :
  cache_ok cache -> length mac = 6%nat ->
  exists cache', arp_store ip mac cache = Some cache' /\ cache_ok cache' /\
    cache_find cache' ip = Some mac /\
    (forall ip', ip' <> ip -> cache_find cache' ip' = cache_find cache ip' \/
       (cache_find cache' ip' = None /\ cache_find cache ip = None /\
        forall j e, aget cache j = Some e -> truth (ae_valid e) = true)).
Proof.
  intros Hok Hm. pose proof Hok as (Hl&Hf&Hd). pose proof (arp_slot_from_spec cache ip 0 0) as Hs. cbn zeta in Hs.
  unfold arp_store. set (i := arp_slot_from cache ip 0 0) in *. rewrite !Z.sub_0_r in Hs.
  assert (Hi : 0 <= i < Z.of_nat (length cache)).
  { destruct Hs as [(e&He&_)|[_ [(e&He&_)|[-> _]]]]; [by eapply aget_Some_lt..|lia]. }
  assert (Hrest : forall j e, j <> i -> aget cache j = Some e -> arp_hit ip e = false).
  { intros j e Hj He. destruct Hs as [(e'&He'&_&Hh)|[Hno _]]; [|by eapply Hno].
    destruct (arp_hit ip e) eqn:E; [|done]. apply arp_hit_iff in E as [Hv E], Hh as [Hv' Hh].
    by destruct (Hd j i e e'); [..|congruence]. }
  rewrite aset_ok by done. eexists. split; [reflexivity|].
  assert (Hok' : cache_ok (<[Z.to_nat i := ArpEntry ip mac 1]> cache)).
  { split; [by rewrite length_insert|]. split; [by apply Forall_insert|].
    intros a b x y. rewrite !aget_insert by done.
    destruct (decide (i = a)) as [<-|], (decide (i = b)) as [<-|]; [done| | |by apply Hd].
    - intros [= <-] Hy ? _ Hv. cbn. intros ->. pose proof (Hrest b y ltac:(done) Hy) as Hno.
      assert (arp_hit (ae_ip y) y = true) by (by apply arp_hit_iff). congruence.
    - intros Hx [= <-] ? Hv _. cbn. intros Hxy. pose proof (Hrest a x ltac:(done) Hx) as Hno.
      assert (arp_hit ip x = true) by (by apply arp_hit_iff). congruence. }
  split; [done|]. split.
  { apply (cache_find_hit _ ip i (ArpEntry ip mac 1)); [done|by apply aget_insert_eq|].
    apply arp_hit_iff. done. }
  intros ip' Hne. destruct (cache_find cache ip') as [m|] eqn:E.
  - unfold cache_find in E. destruct (arp_lookup_from cache ip' 0) as [j|] eqn:El; [|done].
    apply arp_lookup_from_Some in El as (_&e&He&Hh). rewrite Z.sub_0_r in He. simpl in E. rewrite He in E.
    injection E as <-. destruct (decide (i = j)) as [<-|Hij].
    + right. assert (Hev : truth (ae_valid e) = true /\ ae_ip e = ip') by (by apply arp_hit_iff).
      split.
      { apply cache_find_None. intros j x. rewrite aget_insert by done.
        destruct (decide (i = j)) as [<-|Hij].
        - intros [= <-]. unfold arp_hit. cbn. by apply Z.eqb_neq.
        - intros Hx. destruct (arp_hit ip' x) eqn:Hhx; [|done]. apply arp_hit_iff in Hhx as [? ?].
          destruct Hev. by destruct (Hd i j e x); [..|congruence]. }
      destruct Hs as [(e'&He'&_&Hh')|[Hno [(e'&He'&_&Hv)|[_ Hv]]]].
      * apply arp_hit_iff in Hh' as [_ ?]. destruct Hev. congruence.
      * destruct Hev. congruence.
      * split; [|done]. apply cache_find_None. done.
    + left. apply (cache_find_hit _ ip' j e); [done| |done].
      rewrite aget_insert by done. by rewrite decide_False.
  - left. apply cache_find_None. rewrite cache_find_None in E. intros j x. rewrite aget_insert by done.
    destruct (decide (i = j)) as [<-|]; [|by apply E]. intros [= <-]. unfold arp_hit. cbn. by apply Z.eqb_neq.
Qed.

(** ** The invariant *)

(** Slot [i] of the connection table: a six-byte next hop, the local port of the
    slot while in use, a typed peer address, and a fill level within the
    capacity of the receive buffer. *)
Record conn_fine (i : Z) (c : tcp_conn) : Prop := {
  cf_mac : length (c_mac c) = 6%nat;
  cf_port : truth (c_in_use c) = true -> c_local_port c = 0xD100 + i;
  cf_ip : 0 <= c_remote_ip c < 2 ^ 32;
  cf_len : 0 <= c_rx_len c <= c_rx_cap c;
  cf_cap : c_rx_cap c <= INT_MAX }.

Record net_wf (s : net) : Prop := {
  nw_mac : length (g_mac s) = 6%nat;
  nw_cache : cache_ok (g_arp_cache s);
  nw_count : length (g_tcp_conns s) = 4%nat;
  nw_conns : forall i c, aget (g_tcp_conns s) i = Some c -> conn_fine i c;
  nw_tx : length (g_txframe s) = 1518%nat;
  nw_rx : length (g_rxframe s) = 2048%nat;
  nw_stream : forall i, g_stream_conn s = Some i -> 0 <= i < 4 }.

(** Whenever [m] returns from a well-formed state, the state is well-formed and
    the result satisfies [R]. *)
Definition keeps {A} (m : ST net A) (R : A -> Prop) : Prop :=
  forall s x s', net_wf s -> m s = Some (x, s') -> net_wf s' /\ R x.

Definition any {A} (_ : A) : Prop := True.

Lemma keeps_bind {A B} (m : ST net A) (k : A -> ST net B) R R' :
  keeps m R -> (forall x, R x -> keeps (k x) R') -> keeps (m ≫= k) R'.
Proof.
  intros Hm Hk s x s' Hs E. unfold mbind, ST_bind in E. destruct (m s) as [[y s1]|] eqn:Em; [|done].
  destruct (Hm s y s1 Hs Em) as [Hs1 Hy]. by eapply Hk.
Qed.

Lemma keeps_weaken {A} (m : ST net A) (R R' : A -> Prop) :
  keeps m R -> (forall x, R x -> R' x) -> keeps m R'.
Proof. intros Hm HR s x s' Hs E. destruct (Hm s x s' Hs E). auto. Qed.

Lemma keeps_run {A} (m : ST net A) R s x s' : keeps m R -> net_wf s -> m s = Some (x, s') -> net_wf s' /\ R x.
Proof. intros H. apply H. Qed.

Lemma keeps_any {A} (m : ST net A) R : keeps m R -> keeps m any.
Proof. intros H. by eapply keeps_weaken. Qed.

Lemma keeps_ret {A} (x : A) (R : A -> Prop) : R x -> keeps (mret x) R.
Proof. intros Hx s y s' Hs [= <- <-]. done. Qed.

Lemma keeps_undefined {A} (R : A -> Prop) : keeps undefined R.
Proof. by intros s x s' Hs E. Qed.

Lemma keeps_reads {A} (f : net -> A) : keeps (reads f) any.
Proof. by intros s x s' Hs [= <- <-]. Qed.

Lemma keeps_must {A} (o : option A) : keeps (must o) (fun x => o = Some x).
Proof. intros s x s' Hs E. unfold must in E. destruct o; [|done]. by injection E as <- <-. Qed.

Lemma keeps_update f : (forall s, net_wf s -> net_wf (f s)) -> keeps (update f) any.
Proof. intros Hf s x s' Hs [= <- <-]. split; [auto|done]. Qed.

Lemma keeps_try f : (forall s s', net_wf s -> f s = Some s' -> net_wf s') -> keeps (try_update f) any.
Proof.
  intros Hf s x s' Hs E. unfold try_update in E. destruct (f s) as [s1|] eqn:E1; [|done].
  injection E as <- <-. split; [by eapply Hf|done].
Qed.

Create HintDb keeps.
#[local] Hint Resolve keeps_undefined keeps_reads keeps_must : keeps.

(** Walk through a function: binds, tests and matches. *)
Ltac keep1 :=
  lazymatch goal with
  | |- forall _, _ => intros; cbn beta in *
  | |- keeps (mbind _ (if _ then _ else _)) _ => eapply (keeps_bind _ _ any)
  | |- keeps (mbind _ (match _ with _ => _ end)) _ => eapply (keeps_bind _ _ any)
  | |- keeps (mbind _ _) _ => eapply keeps_bind
  | |- keeps (mret _) _ => apply keeps_ret
  | |- keeps (if ?b then _ else _) _ => destruct b eqn:?
  | |- keeps (match ?x with _ => _ end) _ => destruct x eqn:?
  | |- any _ => exact I
  | |- keeps _ _ => first [solve [eauto 2 with keeps] | eapply keeps_any; solve [eauto 2 with keeps]]
  end.
Ltac keep := cbn zeta; repeat keep1.

(** *** Updates of single fields *)

Ltac wf_field := let H := fresh in intros ? H; destruct H; split; done.

Lemma wf_conns cs s :
  net_wf s -> length cs = 4%nat -> (forall i c, aget cs i = Some c -> conn_fine i c) ->
  net_wf (set_g_tcp_conns cs s).
Proof. intros [] ? ?. by split. Qed.

Lemma wf_tx f s : net_wf s -> length f = 1518%nat -> net_wf (set_g_txframe f s).
Proof. intros [] ?. by split. Qed.

Lemma wf_rx f s : net_wf s -> length f = 2048%nat -> net_wf (set_g_rxframe f s).
Proof. intros [] ?. by split. Qed.

Lemma wf_cache c s : net_wf s -> cache_ok c -> net_wf (set_g_arp_cache c s).
Proof. intros [] ?. by split. Qed.

Lemma wf_env e s : net_wf s -> net_wf (set_env e s).
Proof. by intros []; split. Qed.

Lemma wf_sent x s : net_wf s -> net_wf (set_sent x s).
Proof. by intros []; split. Qed.

Lemma wf_cr3 x s : net_wf s -> net_wf (set_cr3 x s).
Proof. by intros []; split. Qed.

Lemma wf_mem x s : net_wf s -> net_wf (set_mem x s).
Proof. by intros []; split. Qed.

Lemma keeps_here : keeps here any.
Proof. unfold here. keep. Qed.
#[local] Hint Resolve keeps_here : keeps.

Lemma keeps_tick : keeps timer_tick_count any.
Proof. unfold timer_tick_count. keep. Qed.

Lemma keeps_conn i : keeps (conn i) (fun c => 0 <= i < 4 /\ conn_fine i c).
Proof.
  intros s c s' Hs E. unfold conn, mbind, ST_bind, reads, must in E. simpl in E.
  destruct (aget (g_tcp_conns s) i) as [c'|] eqn:Ei; [|done]. injection E as <- <-.
  split; [done|]. pose proof (aget_Some_lt _ _ _ Ei). rewrite (nw_count _ Hs) in *. split; [lia|]. by apply Hs.
Qed.

Lemma keeps_on_conn i f :
  (forall c, 0 <= i < 4 -> conn_fine i c -> conn_fine i (f c)) -> keeps (on_conn i f) any.
Proof.
  intros Hf. unfold on_conn. eapply keeps_bind; [apply keeps_conn|]. intros c [Hi Hc].
  apply keeps_try. intros s s' Hs E. destruct (aset _ i (f c)) as [cs|] eqn:Ea; [|done]. injection E as <-.
  apply aset_Some in Ea as [Hr ->]. apply wf_conns; [done|rewrite length_insert; apply Hs|].
  intros j c'. rewrite aget_insert by done. destruct (decide (i = j)) as [<-|]; [|apply Hs].
  intros [= <-]. auto.
Qed.

Lemma keeps_tx_put off bs : keeps (tx_put off bs) any.
Proof.
  apply keeps_try. intros s s' Hs E. destruct (splice _ off bs) as [f|] eqn:Es; [|done]. injection E as <-.
  apply wf_tx; [done|]. rewrite (splice_length _ _ _ _ Es). apply Hs.
Qed.
Lemma keeps_wr8 p v : keeps (wr8 p v) any.
Proof. apply keeps_tx_put. Qed.
Lemma keeps_wr16 p v : keeps (wr16 p v) any.
Proof. apply keeps_tx_put. Qed.
Lemma keeps_wr32 p v : keeps (wr32 p v) any.
Proof. apply keeps_tx_put. Qed.

Lemma keeps_buffer p : keeps (buffer p) any.
Proof. unfold buffer. keep. Qed.

Lemma keeps_poke p off bs : keeps (poke p off bs) any.
Proof.
  apply keeps_try. intros s s' Hs E. destruct (mem s !! _) as [b|]; [|done]. simpl in E.
  destruct (splice b off bs); [|done]. injection E as <-. by apply wf_mem.
Qed.
#[local] Hint Resolve keeps_tick keeps_conn keeps_on_conn keeps_tx_put keeps_wr8 keeps_wr16 keeps_wr32
  keeps_buffer keeps_poke : keeps.

(** *** Sending *)

Lemma keeps_transmit n : keeps (netdev_transmit n) any.
Proof.
  unfold netdev_transmit. keep. apply keeps_update. intros s Hs. by apply wf_sent.
Qed.
Lemma keeps_eth dst t : keeps (eth_build_header dst t) any.
Proof. unfold eth_build_header. keep. Qed.
Lemma keeps_ip_header a b c : keeps (ip_header a b c) any.
Proof. unfold ip_header. keep. Qed.
Lemma keeps_arp_header o : keeps (arp_header o) any.
Proof. unfold arp_header. keep. Qed.
#[local] Hint Resolve keeps_transmit keeps_eth keeps_ip_header keeps_arp_header : keeps.

Lemma keeps_tcp_send i f p n : keeps (tcp_send i f p n) any.
Proof. unfold tcp_send. keep. Qed.
Lemma keeps_arp_request ip : keeps (send_arp_request ip) any.
Proof. unfold send_arp_request. keep. Qed.
Lemma keeps_arp_reply ip m : keeps (send_arp_reply ip m) any.
Proof. unfold send_arp_reply. keep. Qed.
Lemma keeps_icmp_echo d m a b : keeps (send_icmp_echo d m a b) any.
Proof. unfold send_icmp_echo. keep. Qed.
Lemma keeps_icmp_reply a b c : keeps (send_icmp_reply a b c) any.
Proof. unfold send_icmp_reply. keep. Qed.
Lemma keeps_dns_query h a m : keeps (send_dns_query h a m) any.
Proof. unfold send_dns_query. keep. Qed.
#[local] Hint Resolve keeps_tcp_send keeps_arp_request keeps_arp_reply keeps_icmp_echo keeps_icmp_reply
  keeps_dns_query : keeps.

(** *** Receiving *)

Lemma keeps_arp_insert ip mac : length mac = 6%nat -> keeps (arp_insert ip mac) any.
Proof.
  intros Hm. apply keeps_try. intros s s' Hs E.
  destruct (arp_store_spec (g_arp_cache s) ip mac (nw_cache _ Hs) Hm) as (c&Ec&Hok&_).
  rewrite Ec in E. injection E as <-. by apply wf_cache.
Qed.

Lemma keeps_mac_at slot : keeps (mac_at slot) (fun m => length m = 6%nat).
Proof.
  intros s m s' Hs E. unfold mac_at, mbind, ST_bind, reads, must in E. simpl in E.
  destruct (aget (g_arp_cache s) slot) as [e|] eqn:Ee; [|done]. injection E as <- <-.
  split; [done|]. destruct (nw_cache _ Hs) as (_&Hf&_). rewrite Forall_forall in Hf.
  apply Hf. unfold aget in Ee. destruct (0 <=? slot); [|done]. by eapply list_elem_of_lookup_2.
Qed.
#[local] Hint Resolve keeps_mac_at : keeps.

Lemma keeps_handle_arp n : keeps (handle_arp n) any.
Proof.
  unfold handle_arp. keep. apply keeps_arp_insert.
  match goal with H : slice _ _ 6 = Some _ |- _ => apply slice_length in H; lia end.
Qed.

Lemma keeps_copy o d p bs : keeps (net_copy_to_rx o d p bs) any.
Proof.
  unfold net_copy_to_rx. keep; apply keeps_update; intros s Hs; by apply wf_cr3.
Qed.
#[local] Hint Resolve keeps_handle_arp keeps_copy : keeps.

(** *** Data *)

Lemma bind_inv {A B} (m : ST net A) (k : A -> ST net B) s y s2 :
  (m ≫= k) s = Some (y, s2) -> exists x s1, m s = Some (x, s1) /\ k x s1 = Some (y, s2).
Proof. unfold mbind, ST_bind. destruct (m s) as [[x s1]|]; [eauto|done]. Qed.

Lemma reads_inv {A} (f : net -> A) s x s' : reads f s = Some (x, s') -> x = f s /\ s' = s.
Proof. by intros [= <- <-]. Qed.
Lemma must_inv {A} (o : option A) (s : net) x s' : must o s = Some (x, s') -> o = Some x /\ s' = s.
Proof. unfold must. destruct o; [|done]. by intros [= <- <-]. Qed.
Lemma conn_inv i s c s' : conn i s = Some (c, s') -> aget (g_tcp_conns s) i = Some c /\ s' = s.
Proof. intros E. apply bind_inv in E as (cs&s1&[-> ->]%reads_inv&[? ->]%must_inv). done. Qed.

(** Take the next action of a run apart. *)
Ltac peel E p :=
  let E1 := fresh "E1" in apply bind_inv in E as (p&?&E1&E);
  first [ apply reads_inv in E1 as [-> ->] | apply must_inv in E1 as [E1 ->]
        | apply conn_inv in E1 as [E1 ->] | idtac ].

(** A run of a function that keeps the invariant. *)
Ltac kept L E := let H := fresh in
  pose proof L as H; apply H in E as [E _]; [clear H|assumption].

Lemma copy_conns o d p bs s x s' : net_copy_to_rx o d p bs s = Some (x, s') -> g_tcp_conns s' = g_tcp_conns s.
Proof.
  assert (Hp : forall s x s', poke d p bs s = Some (x, s') -> g_tcp_conns s' = g_tcp_conns s).
  { clear. intros s x s' E. unfold poke, try_update in E. destruct (mem s !! _) as [b|]; [|done]. simpl in E.
    destruct (splice b p bs); [|done]. by injection E as <- <-. }
  unfold net_copy_to_rx. destruct (truth o); [|apply Hp]. intros E.
  peel E prev. apply bind_inv in E as ([]&s1&[= <-]&E). peel E y. apply Hp in E1. by injection E as <- <-.
Qed.

Lemma wf_on_conn i f c s x s' :
  net_wf s -> aget (g_tcp_conns s) i = Some c -> conn_fine i (f c) -> on_conn i f s = Some (x, s') -> net_wf s'.
Proof.
  intros Hs Hc Hf E. unfold on_conn in E. peel E c'. replace c' with c in * by congruence. clear E1.
  unfold try_update in E. pose proof (aget_Some_lt _ _ _ Hc). rewrite aset_ok in E by done. injection E as _ <-.
  apply wf_conns; [done|rewrite length_insert; apply Hs|]. intros j c2. rewrite aget_insert by done.
  destruct (decide (i = j)) as [<-|]; [by intros [= <-]|apply Hs].
Qed.

Ltac fine := let H := fresh in intros ? ? H; destruct H; split; cbn; done.

Lemma keeps_rcv i f : keeps (on_conn i (fun c => set_c_rcv_nxt (f c) c)) any.
Proof. apply keeps_on_conn. fine. Qed.
Lemma keeps_rcv_to i v : keeps (on_conn i (set_c_rcv_nxt v)) any.
Proof. apply keeps_on_conn. fine. Qed.
Lemma keeps_snd i f : keeps (on_conn i (fun c => set_c_snd_nxt (f c) c)) any.
Proof. apply keeps_on_conn. fine. Qed.
Lemma keeps_state i v : keeps (on_conn i (set_c_state v)) any.
Proof. apply keeps_on_conn. fine. Qed.
Lemma keeps_fin i v : keeps (on_conn i (set_c_peer_fin v)) any.
Proof. apply keeps_on_conn. fine. Qed.
#[local] Hint Resolve keeps_rcv keeps_rcv_to keeps_snd keeps_state keeps_fin : keeps.

Lemma keeps_accept_data i p n : 0 <= n -> keeps (accept_data i p n) any.
Proof.
  intros Hn s x s' Hs E. unfold accept_data in E. peel E c. peel E f. peel E tot.
  apply i32_Some in E0 as [-> _]. pose proof (nw_conns _ Hs _ _ E1) as [? ? ? Hlen Hcap].
  apply bind_inv in E as (copy&s2&Ecopy&E).
  assert (Hcopy : s2 = s /\ c_rx_len c + copy <= c_rx_cap c).
  { destruct (Z.ltb_spec (c_rx_cap c) (c_rx_len c + n)).
    - apply must_inv in Ecopy as [[-> _]%i32_Some ->]. split; [done|lia].
    - injection Ecopy as <- <-. split; [done|lia]. }
  destruct Hcopy as [-> Hfit]. apply bind_inv in E as (u&s3&Estore&E).
  assert (Hs3 : net_wf s3).
  { destruct (Z.ltb_spec 0 copy); [|by injection Estore as <- <-].
    peel Estore bs. peel Estore u2. pose proof (copy_conns _ _ _ _ _ _ _ E2) as Hcs.
    kept (keeps_copy (c_rx_owner_cr3 c) (c_rx_buf c) (c_rx_len c) bs) E2.
    eapply wf_on_conn; [exact E2|rewrite Hcs; exact E1| |exact Estore].
    split; cbn; [done|done|done|lia|done]. }
  eapply keeps_run; [|exact Hs3|exact E]. keep.
Qed.

Lemma keeps_tcp_input i seq fl p n : keeps (tcp_input i seq fl p n) any.
Proof. unfold tcp_input. keep; apply keeps_accept_data; bools; lia. Qed.
#[local] Hint Resolve keeps_tcp_input : keeps.
Lemma keeps_handle_tcp ip tcp n : keeps (handle_tcp ip tcp n) any.
Proof. unfold handle_tcp. keep. Qed.

Ltac wf_done := intros ? []; split; done.

Lemma keeps_handle_icmp a b c : keeps (handle_icmp a b c) any.
Proof. unfold handle_icmp. keep. apply keeps_update. wf_done. Qed.
Lemma keeps_handle_dns d : keeps (handle_dns d) any.
Proof. unfold handle_dns. keep. apply keeps_update. wf_done. Qed.
#[local] Hint Resolve keeps_handle_tcp keeps_handle_icmp keeps_handle_dns : keeps.
Lemma keeps_handle_udp u : keeps (handle_udp u) any.
Proof. unfold handle_udp. keep. Qed.
#[local] Hint Resolve keeps_handle_udp : keeps.
Lemma keeps_handle_ip n : keeps (handle_ip n) any.
Proof. unfold handle_ip. keep. Qed.
#[local] Hint Resolve keeps_handle_ip : keeps.

Lemma keeps_receive f : keeps (receive f) any.
Proof.
  unfold receive. keep. apply keeps_try. intros s s' Hs E.
  destruct (splice (g_rxframe s) 0 f) as [g|] eqn:Eg; [|done]. injection E as <-.
  apply wf_rx; [done|]. rewrite (splice_length _ _ _ _ Eg). apply Hs.
Qed.
#[local] Hint Resolve keeps_receive : keeps.

Lemma wf_waiting fs s : net_wf s -> net_wf (set_waiting fs s).
Proof. intros Hs. unfold set_waiting. destruct (env s); [done|]. by apply wf_env. Qed.

Lemma keeps_poll_frames fs : keeps (poll_frames fs) any.
Proof.
  induction fs as [|f fs IH]; cbn [poll_frames]; keep; try (apply keeps_update; intros; by apply wf_waiting); done.
Qed.
#[local] Hint Resolve keeps_poll_frames : keeps.
Lemma keeps_poll : keeps net_poll any.
Proof. unfold net_poll. keep. Qed.
#[local] Hint Resolve keeps_poll : keeps.

(** *** Waiting *)

Lemma keeps_yield : keeps net_wait_yield any.
Proof.
  unfold net_wait_yield. keep; apply keeps_update; intros s Hs.
  - by apply wf_cr3, wf_env.
  - assert (net_wf (set_cr3 x0 (set_env (Round (r_tick r0) (r_tx r0) (r_alive r0) (r_frames r0) [] (r_cr3 r0) (r_lock r0) :: l0) s)))
      as Hs' by (by apply wf_cr3, wf_env).
    destruct (r_lock r0) as [[a b]|]; [|done]. destruct Hs'; by split.
Qed.
#[local] Hint Resolve keeps_yield : keeps.

Lemma keeps_turns {A B} n (step : A -> ST net (A + B)) a : (forall a, keeps (step a) any) -> keeps (turns n step a) any.
Proof. intros Hs. revert a. induction n as [|n IH]; intros a; cbn [turns]; keep. Qed.

Lemma keeps_waiting {A B} (step : A -> ST net (A + B)) a : (forall a, keeps (step a) any) -> keeps (waiting step a) any.
Proof. intros Hs. unfold waiting. keep. by apply keeps_turns. Qed.

Lemma keeps_deadline t : keeps (deadline_after t) any.
Proof. unfold deadline_after. keep. Qed.

Lemma keeps_wait_until {R} d n (test : ST net (option R)) : keeps test any -> keeps (wait_until d n test) any.
Proof. intros Ht. unfold wait_until. apply keeps_waiting. intros a. keep. Qed.
#[local] Hint Resolve keeps_deadline : keeps.

Lemma keeps_lock : keeps net_lock any.
Proof. unfold net_lock. keep; [|apply keeps_update; wf_done]. apply keeps_waiting. keep. Qed.
Lemma keeps_unlock : keeps net_unlock any.
Proof. apply keeps_update. wf_done. Qed.

Lemma keeps_arp_lookup ip : keeps (arp_lookup ip) any.
Proof. unfold arp_lookup. keep. Qed.
#[local] Hint Resolve keeps_arp_lookup : keeps.
Lemma keeps_resolve_mac ip t : keeps (resolve_mac ip t) any.
Proof. unfold resolve_mac. keep. apply keeps_wait_until. keep. Qed.
#[local] Hint Resolve keeps_resolve_mac : keeps.

Lemma keeps_ping_one a b c d : keeps (ping_one a b c d) any.
Proof.
  unfold ping_one. keep; [apply keeps_update; wf_done|]. apply keeps_wait_until. keep.
Qed.
#[local] Hint Resolve keeps_ping_one : keeps.
Lemma keeps_ping_from a b c n : forall q acc, keeps (ping_from a b c q n acc) any.
Proof. induction n as [|n IH]; intros q acc; cbn [ping_from]; keep. Qed.
#[local] Hint Resolve keeps_ping_from : keeps.
Lemma keeps_ping a b c : keeps (net_ping a b c) any.
Proof. unfold net_ping. keep. Qed.

Lemma keeps_resolve h t : keeps (net_resolve h t) any.
Proof.
  unfold net_resolve. keep; [apply keeps_update; wf_done|]. apply keeps_wait_until. keep.
Qed.

(** *** Connections *)

Lemma keeps_conn_lock : keeps conn_lock any.
Proof. unfold conn_lock. keep. apply keeps_update. wf_done. Qed.
Lemma keeps_conn_unlock : keeps conn_unlock any.
Proof. apply keeps_update. wf_done. Qed.
#[local] Hint Resolve keeps_conn_lock keeps_conn_unlock : keeps.

Lemma fresh_fine i : 0 <= i < 4 -> conn_fine i (fresh_conn i).
Proof.
  intros Hi. unfold fresh_conn. split; cbn; [done| |lia|lia|done].
  intros _. rewrite u16_id; lia.
Qed.

Lemma keeps_alloc : keeps tcp_alloc any.
Proof. unfold tcp_alloc. keep. apply keeps_on_conn. intros c Hi _. by apply fresh_fine. Qed.

Lemma keeps_free i : keeps (tcp_free i) any.
Proof. apply keeps_on_conn. fine. Qed.

Lemma keeps_sink i buf cap owner g :
  0 <= cap <= INT_MAX -> (forall c, conn_fine i c -> conn_fine i (g c)) ->
  keeps (on_conn i (fun c => set_sink buf cap 0 owner (g c))) any.
Proof. intros Hc Hg. apply keeps_on_conn. intros c _ H. apply Hg in H as []. split; cbn; [done..|lia|lia]. Qed.

Lemma keeps_find_idle ip port out cap : 0 <= cap <= INT_MAX -> keeps (tcp_find_idle ip port out cap) any.
Proof. intros Hc. unfold tcp_find_idle. keep. apply keeps_sink; [done|]. intros c []. by split. Qed.

Lemma keeps_wait_state a b c : keeps (tcp_wait_state a b c) any.
Proof. unfold tcp_wait_state. keep. apply keeps_wait_until. keep. Qed.
#[local] Hint Resolve keeps_alloc keeps_free keeps_find_idle keeps_wait_state : keeps.

Lemma start_fine i ip port mac c :
  0 <= ip < 2 ^ 32 -> length mac = 6%nat -> conn_fine i c -> conn_fine i (start_conn ip port mac c).
Proof. intros ? ? []. by split. Qed.

(** *** The interface *)

Lemma keeps_start_sink i ip port mac buf cap owner :
  0 <= ip < 2 ^ 32 -> length mac = 6%nat -> 0 <= cap <= INT_MAX ->
  keeps (on_conn i (fun c => set_sink buf cap 0 owner (start_conn ip port mac c))) any.
Proof. intros Hip Hm Hc. apply keeps_sink; [done|]. intros c H. by apply start_fine. Qed.

Lemma keeps_http_connect ip port out cap t :
  0 <= ip < 2 ^ 32 -> 0 <= cap <= INT_MAX -> keeps (http_connect ip port out cap t) any.
Proof. intros Hip Hc. unfold http_connect. keep. by apply keeps_start_sink. Qed.

Lemma keeps_http_receive i t : keeps (http_receive i t) any.
Proof. unfold http_receive. keep. apply keeps_waiting. keep. Qed.
#[local] Hint Resolve keeps_http_connect keeps_http_receive : keeps.

Lemma keeps_http_get ip port h p ua out cap t :
  0 <= ip < 2 ^ 32 -> cap <= INT_MAX -> keeps (net_http_get ip port h p ua out cap t) any.
Proof.
  intros Hip Hc. unfold net_http_get. keep.
  - apply keeps_any with any, keeps_http_connect; [done|]. bools. lia.
  - apply keeps_sink; [unfold INT_MAX; lia|]. intros c []. by split.
Qed.

Lemma wf_stream o s : net_wf s -> (forall i, o = Some i -> 0 <= i < 4) -> net_wf (set_g_stream_conn o s).
Proof. intros [] H. by split. Qed.

Lemma scan_slots_range cs : forall i a b,
  -1 <= a < i -> -1 <= b < i ->
  -1 <= (scan_slots cs i a b).1 < i + Z.of_nat (length cs) /\ -1 <= (scan_slots cs i a b).2 < i + Z.of_nat (length cs).
Proof.
  induction cs as [|c cs IH]; intros i a b Ha Hb; cbn [scan_slots length]; [simpl; lia|].
  destruct (negb (truth (c_in_use c))).
  - destruct (IH (i + 1) (if a <? 0 then i else a) b); [case_if; lia|lia|]. lia.
  - destruct (IH (i + 1) a (if truth (c_idle c) && (b <? 0) then i else b)); [lia|case_if; lia|]. lia.
Qed.

Lemma keeps_alloc_slot : keeps tcp_alloc (fun o => forall i, o = Some i -> 0 <= i < 4).
Proof.
  intros s o s' Hs E. split; [by eapply (keeps_run _ any); [apply keeps_alloc|exact Hs|exact E]|].
  intros i ->. unfold tcp_alloc in E. apply bind_inv in E as (u&s1&E0&E).
  peel E cs. destruct (scan_slots (g_tcp_conns s1) 0 (-1) (-1)) as [a b] eqn:Es.
  assert (length (g_tcp_conns s1) = 4%nat) as Hl.
  { unfold conn_lock in E0. peel E0 l. destruct (g_conn_lock s); [done|]. injection E0 as <- <-. apply Hs. }
  pose proof (scan_slots_range (g_tcp_conns s1) 0 (-1) (-1)) as Hr. rewrite Es, Hl in Hr. simpl in Hr.
  apply bind_inv in E as (r&s2&Er&E). peel E v. injection E as -> _.
  set (slot := if 0 <=? a then a else b) in *.
  destruct (Z.leb_spec 0 slot) as [H0|]; [|discriminate Er]. peel Er w. injection Er as <- _.
  unfold slot in *. destruct (0 <=? a); lia.
Qed.

Lemma keeps_stream_conn o : (forall i, o = Some i -> 0 <= i < 4) -> keeps (update (set_g_stream_conn o)) any.
Proof. intros H. apply keeps_update. intros s Hs. by apply wf_stream. Qed.

Lemma keeps_open ip port t : 0 <= ip < 2 ^ 32 -> keeps (tcp_open ip port t) any.
Proof.
  intros Hip. unfold tcp_open. eapply keeps_bind; [apply keeps_reads|]. intros present _. case_if; [by apply keeps_ret|].
  eapply keeps_bind; [apply keeps_alloc_slot|]. intros [i|] Hi; [|by apply keeps_ret].
  keep; try (apply keeps_stream_conn; first [done | intros j [= <-]; by apply Hi]).
  apply keeps_on_conn. intros c _ Hc. eapply (start_fine _ ip port) in Hc as []; [|done..]. split; cbn; [done..|lia|done].
Qed.

Lemma keeps_stream_send_from i data len n : forall off, keeps (stream_send_from i data len n off) any.
Proof. induction n as [|n IH]; intros off; cbn [stream_send_from]; keep. Qed.
#[local] Hint Resolve keeps_stream_send_from : keeps.
Lemma keeps_stream_send d n : keeps (tcp_stream_send d n) any.
Proof. unfold tcp_stream_send. keep. Qed.

Lemma poke_conns p off bs s x s' : poke p off bs s = Some (x, s') -> g_tcp_conns s' = g_tcp_conns s.
Proof.
  unfold poke, try_update. destruct (mem s !! _) as [b|]; [|done]. simpl.
  destruct (splice b off bs); [|done]. by intros [= _ <-].
Qed.

Lemma buffer_inv p s b s' : buffer p s = Some (b, s') -> s' = s.
Proof. intros E. unfold buffer in E. peel E o. by apply must_inv in E as [_ ->]. Qed.

Lemma keeps_stream_take i buf len : 0 < len -> keeps (stream_take i buf len) any.
Proof.
  intros Hlen s x s' Hs E. unfold stream_take in E. peel E c.
  pose proof (nw_conns _ Hs _ _ E1) as [? ? ? Hl ?].
  set (n := if len <? c_rx_len c then len else c_rx_len c) in *.
  assert (Hn : 0 <= n <= c_rx_len c) by (unfold n; case_if; lia).
  apply bind_inv in E as (b&s1&Eb&E). apply buffer_inv in Eb as ->. peel E bs. peel E u.
  pose proof (poke_conns _ _ _ _ _ _ E2) as Hc1. kept (keeps_poke buf 0 bs) E2.
  apply bind_inv in E as (u2&s3&Em&E).
  assert (Hs3 : net_wf s3 /\ g_tcp_conns s3 = g_tcp_conns s).
  { destruct (0 <? c_rx_len c - n); [|by injection Em as _ <-].
    apply bind_inv in Em as (b2&s4&Eb&Em). apply buffer_inv in Eb as ->. peel Em rest.
    pose proof (poke_conns _ _ _ _ _ _ Em) as Hc2. kept (keeps_poke (c_rx_buf c) 0 rest) Em.
    split; [done|congruence]. }
  destruct Hs3 as [Hs3 Hc3]. apply bind_inv in E as (u3&s4&Eo&E).
  assert (Hs4 : net_wf s4).
  { eapply wf_on_conn; [exact Hs3|rewrite Hc3; exact E1| |exact Eo]. split; cbn; [done..|lia|done]. }
  eapply keeps_run; [|exact Hs4|exact E]. keep.
Qed.

Lemma keeps_stream_recv buf len t : keeps (tcp_stream_recv buf len t) any.
Proof.
  unfold tcp_stream_recv. keep. apply keeps_waiting. intros a. keep. apply keeps_stream_take. bools. lia.
Qed.

Lemma keeps_close : keeps tcp_close any.
Proof. unfold tcp_close. keep. by apply keeps_stream_conn. Qed.
Lemma keeps_alive : keeps tcp_stream_alive any.
Proof. unfold tcp_stream_alive. keep. Qed.

Lemma keeps_init nic : (forall m, nic = Some m -> length m = 6%nat) -> keeps (net_init nic) any.
Proof.
  intros Hm. unfold net_init. keep.
  - apply keeps_update. intros s []. split; try done. cbn [g_arp_cache set_g_arp_cache set_g_got_reply].
    split; [done|]. split; [by repeat constructor|]. intros i j a b Ha _ _ Hv. exfalso.
    assert (a = arp_empty) as -> by (unfold aget in Ha; destruct (0 <=? i); [|done]; by apply lookup_replicate in Ha as [-> _]).
    done.
  - apply keeps_update. intros s []. split; cbn; [by apply Hm|done..].
Qed.

(** A call of the interface from one state to another; the environment between
    calls is arbitrary. *)
Inductive net_step : net -> net -> Prop :=
  | step_env s e : net_step s (set_env e s)
  | step_space s space : net_step s (set_cr3 space s)
  | step_mem s m : net_step s (set_mem m s)
  | step_init nic s s' : (forall m, nic = Some m -> length m = 6%nat) ->
      net_init nic s = Some (tt, s') -> net_step s s'
  | step_poll s s' : net_poll s = Some (tt, s') -> net_step s s'
  | step_lock s s' : net_lock s = Some (tt, s') -> net_step s s'
  | step_unlock s s' : net_unlock s = Some (tt, s') -> net_step s s'
  | step_ping ip count t s r s' : net_ping ip count t s = Some (r, s') -> net_step s s'
  | step_resolve host t s r s' : net_resolve host t s = Some (r, s') -> net_step s s'
  | step_http ip port host path ua out cap t s r s' : 0 <= ip < 2 ^ 32 -> cap <= INT_MAX ->
      net_http_get ip port host path ua out cap t s = Some (r, s') -> net_step s s'
  | step_open ip port t s r s' : 0 <= ip < 2 ^ 32 -> tcp_open ip port t s = Some (r, s') -> net_step s s'
  | step_send data len s r s' : tcp_stream_send data len s = Some (r, s') -> net_step s s'
  | step_recv buf len t s r s' : tcp_stream_recv buf len t s = Some (r, s') -> net_step s s'
  | step_close s s' : tcp_close s = Some (tt, s') -> net_step s s'
  | step_alive s r s' : tcp_stream_alive s = Some (r, s') -> net_step s s'.

Lemma net_step_wf s s' : net_step s s' -> net_wf s -> net_wf s'.
Proof.
  destruct 1; intros Hs; try (destruct Hs; split; done);
    match goal with E : ?m _ = Some _ |- _ => eapply (keeps_run m any); [|exact Hs|exact E] end;
    eauto using keeps_init, keeps_poll, keeps_lock, keeps_unlock, keeps_ping, keeps_resolve, keeps_http_get,
      keeps_open, keeps_stream_send, keeps_stream_recv, keeps_close, keeps_alive.
Qed.

(** ** Theorems *)

(** C11: from any well-formed state, every sequence of calls of the network
    interface (initialisation, polling, locking, ping, DNS, HTTP, the TLS stream),
    with any frames from the network and any interleaved changes of address space
    and user memory, ends in a well-formed state: frame buffers and tables keep
    their sizes, no two valid ARP entries have the same address, each connection
    slot in use has its own local port, and the fill level of every receive
    buffer is within its capacity.  In particular an inbound segment can match
    one slot at most, the one its destination port names. *)
Theorem net_invariant (s s' : net) :
  net_wf s -> rtc net_step s s' ->
  net_wf s' /\
  (forall ip rp lp i, find_conn (g_tcp_conns s') ip rp lp 0 = Some i -> lp = 0xD100 + i) /\
  (forall i j a b, aget (g_tcp_conns s') i = Some a -> aget (g_tcp_conns s') j = Some b ->
     truth (c_in_use a) = true -> truth (c_in_use b) = true -> c_local_port a = c_local_port b -> i = j).
Proof.
  intros Hs H. assert (Hs' : net_wf s') by (induction H; eauto using net_step_wf).
  split; [done|]. split.
  - intros ip rp lp i (c&Hc&Hm&_)%find_conn_spec. rewrite Z.sub_0_r in Hc.
    apply conn_matches_port in Hm as [Hu <-]. by apply (nw_conns _ Hs' _ _ Hc).
  - intros i j a b Ha Hb Hua Hub E.
    pose proof (cf_port _ _ (nw_conns _ Hs' _ _ Ha) Hua). pose proof (cf_port _ _ (nw_conns _ Hs' _ _ Hb) Hub). lia.
Qed.

(** The ARP cache is a map from addresses to link addresses: after
    arp_insert, a lookup of the inserted address finds the new link address, the
    cache still has no address twice, and the entry of any other address is
    unchanged, except that one other address may be dropped when all eight
    entries are valid and the inserted address had none of them. *)
Theorem arp_cache_is_map (s : net) (ip : Z) (mac : list Z) :
  net_wf s -> length mac = 6%nat ->
  exists s' slot, arp_insert ip mac s = Some (tt, s') /\ net_wf s' /\
    arp_lookup ip s' = Some (Some slot, s') /\ mac_at slot s' = Some (mac, s') /\
    forall ip', ip' <> ip ->
      cache_find (g_arp_cache s') ip' = cache_find (g_arp_cache s) ip' \/
      (cache_find (g_arp_cache s') ip' = None /\ cache_find (g_arp_cache s) ip = None /\
       Forall (fun e => truth (ae_valid e) = true) (g_arp_cache s)).
Proof.
  intros Hs Hm. destruct (arp_store_spec (g_arp_cache s) ip mac (nw_cache _ Hs) Hm) as (c&Ec&Hok&Hf&Ho).
  pose proof Hf as Hf'. unfold cache_find in Hf'. destruct (arp_lookup_from c ip 0) as [slot|] eqn:El; [|done].
  simpl in Hf'. destruct (aget c slot) as [e|] eqn:Ee; [|done]. injection Hf' as Hf'.
  exists (set_g_arp_cache c s), slot. split_and!.
  - unfold arp_insert, try_update. by rewrite Ec.
  - by apply wf_cache.
  - unfold arp_lookup, reads. cbn [g_arp_cache set_g_arp_cache]. by rewrite El.
  - unfold mac_at, mbind, ST_bind, reads, must. cbn [g_arp_cache set_g_arp_cache]. rewrite Ee. simpl. by rewrite Hf'.
  - intros ip' Hne. destruct (Ho ip' Hne) as [H|(H1&H2&H3)]; [by left|right]. split_and!; [done|done|].
    apply Forall_lookup. intros n e' He'. apply (H3 (Z.of_nat n)). by rewrite aget_nat.
Qed.

Lemma demo_wf : net_wf demo_net.
Proof.
  split; try done.
  - split; [done|]. split; [by repeat constructor|]. intros i j a b Ha _ _ Hv. exfalso.
    unfold aget in Ha. destruct (0 <=? i); [|done]. by apply lookup_replicate in Ha as [-> _].
  - intros i c Hc. unfold aget in Hc. destruct (Z.leb_spec 0 i); [|done]. revert Hc.
    destruct (Z.to_nat i) as [|[|[|[|n]]]] eqn:E; cbn; [..|done]; intros [= <-]; split; cbn; try done; lia.
Qed.

Lemma net_invariant_witness :
  exists s', net_unlock demo_net = Some (tt, s') /\ net_wf s' /\
    (forall ip rp lp i, find_conn (g_tcp_conns s') ip rp lp 0 = Some i -> lp = 0xD100 + i).
Proof.
  eexists. split; [reflexivity|].
  destruct (net_invariant demo_net (set_g_net_locked 0 (set_g_net_owner_pid 0 demo_net)) demo_wf
    (rtc_once _ _ (step_unlock _ _ eq_refl))) as (Hwf&Hp&_). split; [exact Hwf|exact Hp].
Defined.

Lemma arp_cache_is_map_witness :
  exists s' slot, arp_insert 0x0A000202 [2; 0; 0; 0; 0; 1] demo_net = Some (tt, s') /\
    arp_lookup 0x0A000202 s' = Some (Some slot, s') /\ mac_at slot s' = Some ([2; 0; 0; 0; 0; 1], s').
Proof.
  destruct (arp_cache_is_map demo_net 0x0A000202 [2; 0; 0; 0; 0; 1] demo_wf eq_refl)
    as (s'&slot&E&_&H1&H2&_). exists s', slot. exact (conj E (conj H1 H2)).
Defined.

End NetInv.
