(* ===== verification/NetLive.v ===== *)
(** * NetLive: the wait loops end, and the handshake succeeds

    Opening a connection over any number of idle rounds: when the peer's SYN+ACK
    arrives before the deadline the connection is established; when nothing
    arrives the call returns with an error after the deadline and leaves no
    trace in the connection table. *)

From Stdlib Require Import ZArith Lia Bool ZifyBool.
From stdpp Require Import base numbers option list list_numbers gmap.
From S2P Require Import Prelude StateM Net NetFrames NetTcp NetInv.

Open Scope Z_scope.

Module NetLive.
Import Net NetFrames NetTcp NetInv.

(** ** Idle rounds *)

(** Nothing arrives and nobody else touches the lock; the clock has not reached
    [deadline]. *)
Definition idle_round (deadline : Z) (r : round) : Prop :=
  r_frames r = [] /\ r_parked r = [] /\ r_lock r = None /\ r_tick r < deadline.

(** A round the caller can be resumed in: what the main loop saw while the caller
    was parked is nothing. *)
Definition quiet_resume (r : round) : Prop := r_parked r = [] /\ r_lock r = None.

Lemma poll_nothing r rs s :
  env s = r :: rs -> r_frames r = [] -> net_poll s = Some (tt, s).
Proof.
  intros He Hf. unfold net_poll, here, mbind, ST_bind, reads, must. simpl.
  destruct (truth (g_net_present s)); simpl; [|done]. rewrite He. simpl. by rewrite Hf.
Qed.

(** Yielding to a quiet round only moves on to it. *)
Lemma yield_quiet r0 r rs s :
  quiet_resume r -> net_wait_yield (set_env (r0 :: r :: rs) s) = Some (tt, set_env (r :: rs) s).
Proof.
  intros [Hp Hl]. unfold net_wait_yield. cbn [mbind ST_bind reads]. unfold mbind, ST_bind, reads, update.
  cbn [env set_env]. rewrite Hp, Hl. erewrite poll_nothing; [|reflexivity|reflexivity].
  destruct r. cbn in *. subst. done.
Qed.

(** ** The wait loop *)

Section Wait.
Context {R : Type} (deadline : Z) (test : ST net (option R)) (s : net).
(** The test looks at the state and changes nothing, and fails before the event. *)
Context (Htest : forall e, test (set_env e s) = Some (None, set_env e s)).

Definition wait_step (spins : Z) : ST net (Z + option R) :=
  t ← timer_tick_count;
  if negb (t <? deadline) then mret (inr None)
  else if negb (0 <? spins) then mret (inr None)
  else
    _ ← net_poll; r ← test;
    match r with
    | Some x => mret (inr (Some x))
    | None => _ ← net_wait_yield; mret (inl (u64 (spins - 1)))
    end.

Lemma tick_here r rs : timer_tick_count (set_env (r :: rs) s) = Some (r_tick r, set_env (r :: rs) s).
Proof. done. Qed.

(** One idle round. *)
Lemma wait_step_idle spins r r' rs :
  idle_round deadline r -> quiet_resume r' -> 0 < spins < 2 ^ 64 ->
  wait_step spins (set_env (r :: r' :: rs) s) = Some (inl (spins - 1), set_env (r' :: rs) s).
Proof.
  intros (Hf&_&_&Ht) Hq Hs. unfold wait_step. unfold mbind at 1, ST_bind at 1. rewrite tick_here.
  destruct (Z.ltb_spec (r_tick r) deadline); [|lia]. destruct (Z.ltb_spec 0 spins); [|lia]. cbn [negb].
  unfold mbind, ST_bind. erewrite poll_nothing; [|reflexivity|done]. rewrite Htest.
  rewrite yield_quiet by done. rewrite u64_id by lia. done.
Qed.

(** Past the deadline. *)
Lemma wait_step_late spins r rs :
  deadline <= r_tick r -> wait_step spins (set_env (r :: rs) s) = Some (inr None, set_env (r :: rs) s).
Proof.
  intros Ht. unfold wait_step, mbind, ST_bind. rewrite tick_here.
  by destruct (Z.ltb_spec (r_tick r) deadline); [lia|].
Qed.

(** Any number of idle rounds, then the round [r]. *)
Lemma wait_idle rs : forall spins r rest fuel,
  Forall (idle_round deadline) rs -> quiet_resume r -> (length rs < fuel)%nat ->
  Z.of_nat (length rs) < spins < 2 ^ 64 ->
  turns fuel wait_step spins (set_env (rs ++ r :: rest) s) =
  turns (fuel - length rs) wait_step (spins - Z.of_nat (length rs)) (set_env (r :: rest) s).
Proof.
  induction rs as [|r0 rs IH]; intros spins r rest fuel H Hq Hf Hs; cbn [app length].
  { by rewrite Nat.sub_0_r, Z.sub_0_r. }
  apply Forall_cons in H as [H0 H]. destruct fuel as [|fuel]; [simpl in Hf; lia|]. cbn [turns length] in *.
  unfold mbind at 1, ST_bind at 1.
  assert (exists r' rest', rs ++ r :: rest = r' :: rest' /\ quiet_resume r') as (r'&rest'&E&Hq').
  { destruct rs as [|r1 rs]; [by eexists _, _|]. apply Forall_cons in H as [(_&?&?&_) _]. by eexists _, _. }
  rewrite E, wait_step_idle by (done || lia). rewrite <- E, IH by (done || lia).
  f_equal; lia.
Qed.

Lemma wait_until_turns spins e :
  wait_until deadline spins test (set_env e s) = turns (S (length e)) wait_step spins (set_env e s).
Proof. reflexivity. Qed.

Lemma wait_times_out rs spins r rest :
  Forall (idle_round deadline) rs -> quiet_resume r -> deadline <= r_tick r ->
  Z.of_nat (length rs) < spins < 2 ^ 64 ->
  wait_until deadline spins test (set_env (rs ++ r :: rest) s) = Some (None, set_env (r :: rest) s).
Proof.
  intros H Hq Ht Hs. rewrite wait_until_turns, wait_idle by (done || rewrite ?length_app; simpl; lia).
  rewrite length_app. cbn [length]. replace (S (_ + _) - _)%nat with (S (S (length rest))) by lia.
  cbn [turns]. unfold mbind, ST_bind. by rewrite wait_step_late.
Qed.

(** The event arrives in round [r]. *)
Lemma wait_succeeds rs spins r rest x s1 :
  Forall (idle_round deadline) rs -> quiet_resume r -> r_tick r < deadline ->
  Z.of_nat (length rs) < spins < 2 ^ 64 ->
  net_poll (set_env (r :: rest) s) = Some (tt, s1) -> test s1 = Some (Some x, s1) ->
  wait_until deadline spins test (set_env (rs ++ r :: rest) s) = Some (Some x, s1).
Proof.
  intros H Hq Ht Hs Hp Hx. rewrite wait_until_turns, wait_idle by (done || rewrite ?length_app; simpl; lia).
  rewrite length_app. cbn [length]. replace (S (_ + _) - _)%nat with (S (S (length rest))) by lia.
  cbn [turns]. unfold mbind at 1, ST_bind at 1. unfold wait_step, mbind, ST_bind. rewrite tick_here.
  destruct (Z.ltb_spec (r_tick r) deadline); [|lia].
  destruct (Z.ltb_spec 0 (spins - Z.of_nat (length rs))); [|lia]. cbn [negb].
  by rewrite Hp, Hx.
Qed.
End Wait.

(** ** Opening a connection *)

Lemma set_env_id s : set_env (env s) s = s.
Proof. by destruct s. Qed.

(** The first free slot is taken. *)
Definition first_free (cs : list tcp_conn) (i : Z) : Prop :=
  (exists c, aget cs i = Some c /\ truth (c_in_use c) = false) /\
  forall j c, 0 <= j < i -> aget cs j = Some c -> truth (c_in_use c) = true.

Lemma scan_found cs : forall k a b, 0 <= a -> (scan_slots cs k a b).1 = a.
Proof.
  induction cs as [|c cs IH]; intros k a b Ha; cbn [scan_slots]; [done|].
  destruct (negb (truth (c_in_use c))); [|by apply IH]. destruct (Z.ltb_spec a 0); [lia|]. by apply IH.
Qed.

Lemma scan_first_free cs : forall i k b, 0 <= k -> first_free cs i -> (scan_slots cs k (-1) b).1 = k + i.
Proof.
  induction cs as [|c cs IH]; intros i k b Hk [(d&Hd&Hu) Hlow]; cbn [scan_slots].
  { apply aget_Some_lt in Hd. simpl in Hd. lia. }
  pose proof (aget_Some_lt _ _ _ Hd) as Hi. unfold aget in Hd. destruct (Z.leb_spec 0 i); [|lia].
  destruct (Z.to_nat i) as [|n] eqn:En; simpl in Hd.
  - injection Hd as ->. rewrite Hu. cbn [negb]. change (-1 <? 0) with true. cbn iota. rewrite scan_found by lia. lia.
  - rewrite (Hlow 0 c) by (done || lia). cbn [negb].
    rewrite (IH (i - 1)); [lia|lia|]. split.
    + exists d. split; [|done]. unfold aget. destruct (Z.leb_spec 0 (i - 1)); [|lia].
      by replace (Z.to_nat (i - 1)) with n by lia.
    + intros j c' Hj Hc. apply (Hlow (j + 1)); [lia|]. unfold aget in *. destruct (Z.leb_spec 0 j); [|done].
      destruct (Z.leb_spec 0 (j + 1)); [|lia]. by replace (Z.to_nat (j + 1)) with (S (Z.to_nat j)) by lia.
Qed.

Lemma wp_alloc i Q s :
  first_free (g_tcp_conns s) i -> g_conn_lock s = false ->
  Q (Some i) (set_g_tcp_conns (<[Z.to_nat i := fresh_conn i]> (g_tcp_conns s)) s) -> wp tcp_alloc Q s.
Proof.
  intros Hf Hl HQ. pose proof Hf as [(c&Hc&_) _]. pose proof (aget_Some_lt _ _ _ Hc) as Hi.
  pose proof (scan_first_free (g_tcp_conns s) i 0 (-1) ltac:(lia) Hf) as Hs.
  unfold tcp_alloc, conn_lock. do 3 wstep. rewrite Hl. wstep. do 2 wstep.
  cbn [g_tcp_conns set_g_conn_lock]. destruct (scan_slots (g_tcp_conns s) 0 (-1) (-1)) as [a b]. simpl in Hs. subst a.
  change (0 + i) with i. assert ((0 <=? i) = true) as E by lia. rewrite !E.
  cbn iota. do 2 wstep. eapply wp_on_conn; [exact Hc|]. wstep. wstep. unfold conn_unlock. wstep. wstep.
  replace (set_g_conn_lock false _) with (set_g_tcp_conns (<[Z.to_nat i := fresh_conn i]> (g_tcp_conns s)) s);
    [exact HQ|]. destruct s. cbn in *. by subst.
Qed.

Section Open.
Context (s : net) (dst_ip port t i slot : Z) (ent : arp_entry).

Record can_open : Prop := {
  co_wf : net_wf s;
  co_up : truth (g_net_present s) = true;
  co_lock : g_conn_lock s = false;
  co_ip : 0 <= dst_ip < 2 ^ 32;
  co_free : first_free (g_tcp_conns s) i;
  co_hit : arp_lookup_from (g_arp_cache s) (next_hop dst_ip) 0 = Some slot;
  co_ent : aget (g_arp_cache s) slot = Some ent }.
Context (HO : can_open).

(** The connection after the SYN. *)
Definition syn_conn : tcp_conn :=
  set_c_rx_len 0 (set_c_rx_cap 32768 (set_c_rx_buf STREAM_RX
    (start_conn dst_ip port (ae_mac ent) (fresh_conn i)))).

(** [s] with connection [c] in slot [i], the stream set and the frames sent. *)
Definition opening (c : tcp_conn) (out : list (list Z)) (tx : list Z) : net :=
  set_sent (sent s ++ out) (set_g_txframe tx
    (set_g_tcp_conns (<[Z.to_nat i := c]> (g_tcp_conns s)) (set_g_stream_conn (Some i) s))).

Lemma slot_range : 0 <= i < 4.
Proof.
  destruct HO as [Hwf _ _ _ [(c&Hc&_) _] _ _]. pose proof (aget_Some_lt _ _ _ Hc). rewrite (nw_count _ Hwf) in *. lia.
Qed.

Lemma slot_length : 0 <= i < Z.of_nat (length (g_tcp_conns s)).
Proof. rewrite (nw_count _ (co_wf HO)). apply slot_range. Qed.

Lemma mac_length : length (ae_mac ent) = 6%nat.
Proof.
  destruct HO as [Hwf _ _ _ _ _ He]. destruct (nw_cache _ Hwf) as (_&Hf&_). rewrite Forall_forall in Hf.
  apply Hf. unfold aget in He. destruct (0 <=? slot); [|done]. by eapply list_elem_of_lookup_2.
Qed.

Lemma syn_conn_ok : conn_ok syn_conn.
Proof. split; [apply mac_length|apply HO|by cbn]. Qed.

Lemma opening_wf c out tx : conn_fine i c -> length tx = 1518%nat -> net_wf (opening c out tx).
Proof.
  intros Hc Htx. pose proof slot_length. destruct HO as [Hwf _ _ _ _ _ _].
  apply wf_sent, wf_tx; [|done]. apply wf_conns.
  - apply wf_stream; [done|]. intros j [= <-]. apply slot_range.
  - rewrite length_insert. apply Hwf.
  - intros j c'. rewrite aget_insert by done. destruct (decide (i = j)) as [<-|]; [by intros [= <-]|apply Hwf].
Qed.

(** Up to the wait, tcp_open takes the slot and sends the SYN. *)
Lemma wp_open_syn Q :
  env s <> [] ->
  (forall tx, length tx = 1518%nat ->
     wp (up ← tcp_wait_state i TCP_ESTABLISHED t;
         if negb (truth up) then
           _ ← tcp_free i; _ ← update (set_g_stream_conn None); mret (-3)
         else mret 0) Q (opening syn_conn [tcp_frame (g_mac s) syn_conn TCP_SYN []] tx)) ->
  wp (tcp_open dst_ip port t) Q s.
Proof.
  intros He HQ. pose proof slot_length as Hi. pose proof HO as [Hwf Hup Hlock Hip Hfree Hhit Hent].
  unfold tcp_open. do 2 wstep. rewrite Hup. cbn [negb]. wstep. eapply wp_alloc; [done|done|].
  do 2 wstep. unfold resolve_mac, arp_lookup. do 3 wstep.
  cbn [g_arp_cache set_g_stream_conn set_g_tcp_conns]. rewrite Hhit. wstep.
  wstep. unfold mac_at. do 3 wstep. eapply wp_must; [exact Hent|]. wstep.
  wstep. eapply wp_on_conn; [by apply aget_insert_eq|]. fold syn_conn.
  cbn [g_tcp_conns set_g_stream_conn set_g_tcp_conns]. rewrite list_insert_insert_eq.
  set (s1 := set_g_tcp_conns (<[Z.to_nat i := syn_conn]> (g_tcp_conns s)) (set_g_stream_conn (Some i) s)).
  destruct (tcp_send_spec i TCP_SYN [] syn_conn s1) as (tx&Htx&Hsend);
    [split; [apply Hwf|apply Hwf|done]|by apply aget_insert_eq|apply syn_conn_ok|done|done|simpl; lia|].
  wuse Hsend as ->. by apply HQ.
Qed.
End Open.

Lemma wp_eq {A} (m : ST net A) x s' (Q : A -> net -> Prop) s : m s = Some (x, s') -> Q x s' -> wp m Q s.
Proof. intros E HQ. by exists x, s'. Qed.

(** The deadline of a wait that starts in round [r]. *)
Definition deadline_from (r : round) (hz t : Z) : Z := u64 (r_tick r + u64 (u64 t * hz) / 1000 + 1).

(** tcp_wait_state is wait_until from the deadline of the current round. *)
Lemma wp_wait_state i t r0 rs x s' (Q : Z -> net -> Prop) s :
  env s = r0 :: rs ->
  wait_until (deadline_from r0 (timer_hz s) t) (spin_limit t)
    (c ← conn i; mret (if TCP_ESTABLISHED <=? c_state c then Some tt else None)) s = Some (x, s') ->
  Q (match x with Some _ => 1 | None => 0 end) s' ->
  wp (tcp_wait_state i TCP_ESTABLISHED t) Q s.
Proof.
  intros He E HQ. unfold tcp_wait_state, deadline_after, timer_tick_count, here. do 3 wstep. do 4 wstep.
  eapply wp_must; [by rewrite He|]. wstep. wstep. wstep. eapply wp_eq; [exact E|]. by wstep.
Qed.

Lemma conn_test i c e s :
  aget (g_tcp_conns s) i = Some c ->
  (c ← conn i; mret (if TCP_ESTABLISHED <=? c_state c then Some tt else None)) (set_env e s) =
  Some (if TCP_ESTABLISHED <=? c_state c then Some tt else None, set_env e s).
Proof. intros Hc. unfold conn, mbind, ST_bind, reads, must. cbn [g_tcp_conns set_env]. by rewrite Hc. Qed.

(** The handshake: a SYN+ACK for a connection that waits for it. *)
Lemma poll_syn_ack i c f seq fl r rs s :
  net_wf s -> truth (g_net_present s) = true -> aget (g_tcp_conns s) i = Some c ->
  truth (c_in_use c) = true -> c_state c = TCP_SYN_SENT -> conn_ok c ->
  env s = r :: rs -> r_frames r = [f] -> tcp_segment c f seq fl [] ->
  flag fl TCP_RST = false -> flag fl TCP_SYN = true -> flag fl TCP_ACK = true ->
  let c1 := set_c_snd_nxt (u32 (c_snd_nxt c + 1)) (set_c_rcv_nxt (u32 (seq + 1)) c) in
  exists s', net_poll s = Some (tt, s') /\
    aget (g_tcp_conns s') i = Some (set_c_state TCP_ESTABLISHED c1) /\
    sent s' = sent s ++ [tcp_frame (g_mac s) c1 TCP_ACK []] /\
    g_stream_conn s' = g_stream_conn s /\
    (forall j, j <> i -> aget (g_tcp_conns s') j = aget (g_tcp_conns s) j).
Proof.
  intros Hwf Hup Hc Hu Hst Hok He Hfr Hseg Hrst Hsyn Hack c1.
  pose proof (aget_Some_lt _ _ _ Hc) as Hi. pose proof (ds_len _ _ _ _ _ Hseg) as Hlen.
  assert (Hrun : wp net_poll (fun _ s' => aget (g_tcp_conns s') i = Some (set_c_state TCP_ESTABLISHED c1) /\
    sent s' = sent s ++ [tcp_frame (g_mac s) c1 TCP_ACK []] /\ g_stream_conn s' = g_stream_conn s /\
    (forall j, j <> i -> aget (g_tcp_conns s') j = aget (g_tcp_conns s) j)) s);
    [|destruct Hrun as ([]&s'&E&H); by exists s'].
  unfold net_poll, here. do 2 wstep. rewrite Hup. cbn [negb]. do 3 wstep. eapply wp_must; [by rewrite He|].
  rewrite Hfr. cbn [poll_frames]. wstep. wstep.
  destruct f as [|b f]; [pose proof (slice_Some _ _ _ _ (ds_data _ _ _ _ _ Hseg)) as (_&_&?&_); simpl in *; lia|].
  rewrite take_ge by done. rewrite <- (set_env_id s), He, set_waiting_env.
  set (e := Round (r_tick r) _ _ _ _ _ _ :: rs). wstep.
  eapply (wp_receive_segment i c); [done|done| | |apply Hwf|].
  { split; [apply Hwf|]. intros j c' Hj. by apply (nw_conns _ Hwf). }
  { split; [done|]. by rewrite Hst. }
  cbn [g_rxframe set_env]. set (rx := (b :: f) ++ _). unfold tcp_input. wstep. eapply wp_conn; [exact Hc|].
  rewrite Hrst, Hst, Hsyn, Hack. cbn [Z.eqb andb TCP_SYN_SENT Pos.eqb].
  wstep. eapply wp_on_conn; [exact Hc|]. wstep. eapply wp_on_conn; [by apply aget_insert_eq|]. conns.
  rewrite list_insert_insert_eq. fold c1.
  set (s1 := set_g_tcp_conns (<[Z.to_nat i := c1]> (g_tcp_conns s)) (set_g_rxframe rx (set_env e s))).
  destruct (tcp_send_spec i TCP_ACK [] c1 s1) as (tx&Htx&Hsend);
    [split; [apply Hwf|apply Hwf|done]|by apply aget_insert_eq|by destruct Hok|done|done|simpl; lia|].
  wuse Hsend as ->. eapply wp_on_conn; [by apply aget_insert_eq|]. unfold s1. conns.
  rewrite list_insert_insert_eq. wstep. split; [by apply aget_insert_eq|]. split; [done|]. split; [done|].
  intros j Hj. cbn. rewrite aget_insert by done. by rewrite decide_False.
Qed.

(** ** Waiting for the SYN+ACK *)

Section Outcome.
Context (s : net) (dst_ip port t i slot : Z) (ent : arp_entry)
  (r0 : round) (rs : list round) (r : round) (rest : list round)
  (HO : can_open s dst_ip i slot ent).
#[local] Abbreviation D := (deadline_from r0 (timer_hz s) t).
#[local] Abbreviation c := (syn_conn dst_ip port i ent).
#[local] Abbreviation syn := (tcp_frame (g_mac s) (syn_conn dst_ip port i ent) TCP_SYN []).
Context (He : env s = (r0 :: rs) ++ r :: rest) (Hidle : Forall (idle_round D) (r0 :: rs))
  (Hq : quiet_resume r) (Hsp : Z.of_nat (length (r0 :: rs)) < spin_limit t).

Lemma syn_fine : conn_fine i c.
Proof.
  pose proof (fresh_fine i (slot_range _ _ _ _ _ HO)) as [? Hp _ _ _].
  split; [apply (mac_length _ _ _ _ _ HO)|exact Hp|apply HO|cbn; lia|done].
Qed.

Lemma still_waiting tx e : (c ← conn i; mret (if TCP_ESTABLISHED <=? c_state c then Some tt else None))
  (set_env e (opening s i c [syn] tx)) = Some (None, set_env e (opening s i c [syn] tx)).
Proof. pose proof (slot_length _ _ _ _ _ HO). by rewrite (conn_test i c) by (by apply aget_insert_eq). Qed.

Lemma opening_env tx : opening s i c [syn] tx = set_env ((r0 :: rs) ++ r :: rest) (opening s i c [syn] tx).
Proof. rewrite <- He. exact (eq_sym (set_env_id (opening s i c [syn] tx))). Qed.

Lemma rounds_left : env s <> [].
Proof. by rewrite He. Qed.

Lemma spins_range : Z.of_nat (length (r0 :: rs)) < spin_limit t < 2 ^ 64.
Proof. split; [done|apply u64_range]. Qed.

Lemma open_established f seq fl :
  r_tick r < D -> r_frames r = [f] -> tcp_segment c f seq fl [] ->
  flag fl TCP_RST = false -> flag fl TCP_SYN = true -> flag fl TCP_ACK = true ->
  wp (tcp_open dst_ip port t) (fun x s' => x = 0 /\ exists c', g_stream_conn s' = Some i /\
    aget (g_tcp_conns s') i = Some c' /\ c_state c' = TCP_ESTABLISHED /\
    c_snd_nxt c' = 0x2001 /\ c_rcv_nxt c' = u32 (seq + 1) /\ c_rx_len c' = 0 /\
    sent s' = sent s ++ [syn; tcp_frame (g_mac s) (set_c_state TCP_SYN_SENT c') TCP_ACK []] /\
    (forall j, j <> i -> aget (g_tcp_conns s') j = aget (g_tcp_conns s) j)) s.
Proof.
  pose proof (slot_length _ _ _ _ _ HO) as Hi. intros Ht Hfr Hseg Hrst Hsyn Hack.
  eapply (wp_open_syn s dst_ip port t i slot ent HO); [apply rounds_left|]. intros tx Htx.
  destruct (poll_syn_ack i c f seq fl r rest (set_env (r :: rest) (opening s i c [syn] tx)))
    as (s1&Hp&Hc1&Hsent&Hstr&Hoth); try done;
    [by apply wf_env, (opening_wf _ _ _ _ _ HO); [apply syn_fine|]|apply HO|by apply aget_insert_eq|apply (syn_conn_ok _ _ _ _ _ _ HO)|].
  wstep. eapply (wp_wait_state i t r0 (rs ++ r :: rest) (Some tt) s1); [exact He| |].
  { rewrite opening_env at 2. eapply wait_succeeds; [apply still_waiting|done|done|exact Ht|apply spins_range|exact Hp|].
    rewrite <- (set_env_id s1). rewrite (conn_test i _ _ _ Hc1). done. }
  cbn [truth Z.eqb negb]. wstep. split; [done|]. eexists. split; [exact Hstr|]. split; [exact Hc1|].
  repeat (split; [done|]). split; [|intros j Hj; rewrite Hoth by done; cbn; rewrite aget_insert by done; by rewrite decide_False].
  rewrite Hsent. cbn [sent set_env opening set_sent]. by rewrite <- app_assoc.
Qed.

Lemma open_timed_out :
  D <= r_tick r ->
  wp (tcp_open dst_ip port t) (fun x s' => x = -3 /\ exists c', g_stream_conn s' = None /\
    aget (g_tcp_conns s') i = Some c' /\ truth (c_in_use c') = false /\ c_state c' = TCP_CLOSED /\
    sent s' = sent s ++ [syn] /\
    (forall j, j <> i -> aget (g_tcp_conns s') j = aget (g_tcp_conns s) j)) s.
Proof.
  pose proof (slot_length _ _ _ _ _ HO) as Hi. intros Hlate.
  eapply (wp_open_syn s dst_ip port t i slot ent HO); [apply rounds_left|]. intros tx Htx.
  wstep. eapply (wp_wait_state i t r0 (rs ++ r :: rest) None); [exact He| |].
  { rewrite opening_env at 2. eapply wait_times_out; [apply still_waiting|done|done|exact Hlate|apply spins_range]. }
  cbn [truth Z.eqb negb]. wstep. unfold tcp_free. eapply wp_on_conn; [by apply aget_insert_eq|].
  do 3 wstep. split; [done|]. eexists. split; [done|]. cbn. split; [apply aget_insert_eq; by rewrite length_insert|].
  repeat (split; [done|]). intros j Hj. rewrite list_insert_insert_eq, aget_insert by done. by rewrite decide_False.
Qed.
End Outcome.

(** ** Theorems *)

(** C16: opening a stream ends.  Let a slot be free and the next hop be in the ARP
    cache, and let any number of rounds pass in which nothing arrives.  If the
    peer's SYN+ACK arrives in a round before the deadline, tcp_open returns 0,
    the slot is ESTABLISHED with both sequence numbers advanced past the SYNs,
    and exactly the SYN and the ACK were sent.  If instead the deadline passes,
    it returns -3, the slot is free again, only the SYN was sent and no other
    slot has changed. *)
Theorem tcp_open_completes (s : net) (dst_ip port t i slot : Z) (ent : arp_entry)
    (r0 : round) (rs : list round) (r : round) (rest : list round) :
  can_open s dst_ip i slot ent ->
  let D := deadline_from r0 (timer_hz s) t in
  let c := syn_conn dst_ip port i ent in
  let syn := tcp_frame (g_mac s) c TCP_SYN [] in
  env s = (r0 :: rs) ++ r :: rest -> Forall (idle_round D) (r0 :: rs) -> quiet_resume r ->
  Z.of_nat (length (r0 :: rs)) < spin_limit t ->
  (forall f seq fl, r_tick r < D -> r_frames r = [f] -> tcp_segment c f seq fl [] ->
     flag fl TCP_RST = false -> flag fl TCP_SYN = true -> flag fl TCP_ACK = true ->
     exists s' c', tcp_open dst_ip port t s = Some (0, s') /\ g_stream_conn s' = Some i /\
       aget (g_tcp_conns s') i = Some c' /\ c_state c' = TCP_ESTABLISHED /\
       c_snd_nxt c' = 0x2001 /\ c_rcv_nxt c' = u32 (seq + 1) /\ c_rx_len c' = 0 /\
       sent s' = sent s ++ [syn; tcp_frame (g_mac s) (set_c_state TCP_SYN_SENT c') TCP_ACK []] /\
       (forall j, j <> i -> aget (g_tcp_conns s') j = aget (g_tcp_conns s) j)) /\
  (D <= r_tick r ->
     exists s' c', tcp_open dst_ip port t s = Some (-3, s') /\ g_stream_conn s' = None /\
       aget (g_tcp_conns s') i = Some c' /\ truth (c_in_use c') = false /\ c_state c' = TCP_CLOSED /\
       sent s' = sent s ++ [syn] /\
       (forall j, j <> i -> aget (g_tcp_conns s') j = aget (g_tcp_conns s) j)).
Proof.
  intros HO D c syn He Hidle Hq Hsp. split.
  - intros f seq fl Ht Hfr Hseg Hrst Hsyn Hack.
    destruct (open_established s dst_ip port t i slot ent r0 rs r rest HO He Hidle Hq Hsp f seq fl)
      as (x&s'&E&->&c'&H); [done..|]. by exists s', c'.
  - intros Hlate.
    destruct (open_timed_out s dst_ip port t i slot ent r0 rs r rest HO He Hidle Hq Hsp Hlate)
      as (x&s'&E&->&c'&H). by exists s', c'.
Qed.

(** A peer at 10.0.2.2 that answers in the third round. *)
Definition demo_entry : arp_entry := ArpEntry 0x0A000202 [2; 0; 0; 0; 0; 1] 1.
Definition demo_quiet (tick : Z) : round := Round tick 0 [] [] [] 0 None.
Definition demo_answer : round := Round 30 0 [] [peer_segment 443 0xD101 18 7000 []] [] 0 None.
Definition demo_open : net :=
  set_env [demo_quiet 10; demo_quiet 20; demo_answer]
    (set_g_arp_cache (replicate 7 arp_empty ++ [demo_entry]) demo_net).

Lemma demo_can_open : can_open demo_open 0x0A000202 1 7 demo_entry.
Proof.
  split; try done.
  - apply wf_env, wf_cache; [apply demo_wf|]. split; [done|]. split; [by repeat constructor|].
    intros i j a b Ha Hb Hij Hva Hvb. exfalso. apply Hij.
    assert (H7 : forall k e, aget (replicate 7 arp_empty ++ [demo_entry]) k = Some e -> truth (ae_valid e) = true -> k = 7).
    { intros k e Hk Hv. unfold aget in Hk. destruct (Z.leb_spec 0 k); [|done].
      destruct (Z.to_nat k) as [|[|[|[|[|[|[|[|n]]]]]]]] eqn:E; cbn in Hk;
        first [discriminate Hk | injection Hk as <-; first [discriminate Hv | lia]]. }
    by rewrite (H7 i a), (H7 j b).
  - split; [by eexists|]. intros j c Hj Hc. replace j with 0 in Hc by lia. injection Hc as <-. done.
Qed.

Lemma tcp_open_completes_witness :
  exists s' c', tcp_open 0x0A000202 443 1000 demo_open = Some (0, s') /\
    aget (g_tcp_conns s') 1 = Some c' /\ c_state c' = TCP_ESTABLISHED /\ c_rcv_nxt c' = 7001.
Proof.
  destruct (tcp_open_completes demo_open 0x0A000202 443 1000 1 7 demo_entry
    (demo_quiet 10) [demo_quiet 20] demo_answer [] demo_can_open eq_refl) as [H _];
    [by repeat constructor|done|by vm_compute|].
  destruct (H (peer_segment 443 0xD101 18 7000 []) 7000 18) as (s'&c'&E&_&Hc&Hs&_&Hr&_);
    [done|done|split; first [reflexivity | simpl; lia]|done|done|done|].
  exists s', c'. exact (conj E (conj Hc (conj Hs Hr))).
Defined.

End NetLive.
