(* ===== verification/NetText.v ===== *)
(** * NetText: the text formats of the network stack

    Dotted-quad addresses, DNS names and the framing of HTTP responses. *)

From Stdlib Require Import ZArith Lia Bool ZifyBool.
From stdpp Require Import base numbers option list list_numbers gmap strings.
From S2P Require Import Prelude StateM Net NetFrames.

Open Scope Z_scope.

Module NetText.
Import Net NetFrames.

(** ** Dotted-quad addresses *)

Definition digit (c : Z) : bool := (48 <=? c) && (c <=? 57).

(** The number [v] continued with the digits [t]. *)
Definition dec_from (v : Z) (t : list Z) : Z := fold_left (fun v c => v * 10 + (c - 48)) t v.

(** One to any number of digits with a value of at most 255. *)
Definition octet (t : list Z) (v : Z) : Prop :=
  t <> [] /\ forallb digit t = true /\ dec_from 0 t = v /\ v <= 255.

Definition ipv4 (a b c d : Z) : Z := a * 2 ^ 24 + b * 2 ^ 16 + c * 2 ^ 8 + d.

Lemma dec_from_mono t : forall v, 0 <= v -> forallb digit t = true -> v <= dec_from v t.
Proof.
  induction t as [|c t IH]; intros v Hv H; [simpl; lia|]. simpl in H. apply andb_true_iff in H as [Hc H].
  unfold digit in Hc. bools. cbn [dec_from fold_left]. etransitivity; [|apply IH; [lia|done]]. lia.
Qed.

(** Reading the digits of one group. *)
Lemma parse_digits t : forall rest parts idx dg v,
  aget parts idx = Some v -> 0 <= v -> forallb digit t = true -> dec_from v t <= 255 ->
  0 <= dg -> dg + Z.of_nat (length t) <= INT_MAX ->
  parse_ipv4_from (t ++ rest) parts idx dg =
  parse_ipv4_from rest (<[Z.to_nat idx := dec_from v t]> parts) idx (dg + Z.of_nat (length t)).
Proof.
  induction t as [|c t IH]; intros rest parts idx dg v Hv Hpos Hd Hle Hdg Hmax; cbn [app length].
  { cbn [dec_from fold_left]. rewrite Z.add_0_r. rewrite list_insert_id; [done|].
    unfold aget in Hv. by destruct (0 <=? idx). }
  cbn [forallb] in Hd. apply andb_true_iff in Hd as [Hc Hd]. cbn [dec_from fold_left] in Hle |- *.
  fold (dec_from (v * 10 + (c - 48)) t) in *. cbn [length] in Hmax.
  pose proof Hc as Hcr. unfold digit in Hcr. bools.
  pose proof (dec_from_mono t (v * 10 + (c - 48)) ltac:(lia) Hd). pose proof (aget_Some_lt _ _ _ Hv) as Hi.
  cbn [parse_ipv4_from]. unfold digit in Hc. rewrite Hc, Hv. cbn [mbind option_bind].
  rewrite (u32_id (v * 10)), (u32_id (v * 10 + (c - 48))), aset_ok by lia. cbn [mbind option_bind].
  destruct (Z.ltb_spec 255 (v * 10 + (c - 48))); [lia|]. rewrite i32_ok by (unfold INT_MIN; lia). cbn [mbind option_bind].
  rewrite (IH rest _ idx (dg + 1) (v * 10 + (c - 48))); [|by apply aget_insert_eq|lia|done|done|lia|lia].
  rewrite list_insert_insert_eq. f_equal. lia.
Qed.

(** What an accepted text looks like from a position on. *)
Lemma parse_sound t : forall parts idx dg v ip,
  aget parts idx = Some v -> 0 <= v <= 255 -> 0 <= dg -> 0 <= idx <= 3 ->
  parse_ipv4_from t parts idx dg = Some (Some ip) ->
  exists g t', t = g ++ t' /\ forallb digit g = true /\ 0 <= dec_from v g <= 255 /\ 0 < dg + Z.of_nat (length g) /\
    ((t' = [] /\ idx = 3) \/ (exists t'', t' = 46 :: t'' /\ idx < 3)) /\
    parse_ipv4_from t' (<[Z.to_nat idx := dec_from v g]> parts) idx (dg + Z.of_nat (length g)) = Some (Some ip).
Proof.
  induction t as [|c t IH]; intros parts idx dg v ip Hv Hvr Hdg Hidx E; pose proof (aget_Some_lt _ _ _ Hv) as Hi.
  - exists [], []. cbn [dec_from fold_left length]. rewrite Z.add_0_r.
    rewrite list_insert_id by (unfold aget in Hv; by destruct (0 <=? idx)).
    pose proof E as E'. cbn [parse_ipv4_from] in E'.
    destruct (negb (idx =? 3) || (dg =? 0)) eqn:Eb; [done|]. bools. split_and!; try done; try lia. left. split; [done|lia].
  - pose proof E as E'. cbn [parse_ipv4_from] in E. destruct ((48 <=? c) && (c <=? 57)) eqn:Ec.
    + rewrite Hv in E. cbn [mbind option_bind] in E. bools.
      rewrite (u32_id (v * 10)), (u32_id (v * 10 + (c - 48))), aset_ok in E by lia. cbn [mbind option_bind] in E.
      destruct (Z.ltb_spec 255 (v * 10 + (c - 48))); [done|].
      destruct (i32 (dg + 1)) as [dg'|] eqn:Ei; [|done]. apply i32_Some in Ei as [-> _]. cbn [mbind option_bind] in E.
      apply (IH _ _ _ (v * 10 + (c - 48))) in E as (g&t'&->&Hg&Hr&Hn&Ht&E); [|by apply aget_insert_eq|lia|lia|lia].
      exists (c :: g), t'. rewrite list_insert_insert_eq in E. cbn [forallb length app dec_from fold_left].
      split_and!; try done; try apply Hr; [|lia|].
      * unfold digit at 1. rewrite (proj2 (andb_true_iff _ _)); [done|]. lia.
      * unfold dec_from in E. rewrite <- E. f_equal. lia.
    + exists [], (c :: t). cbn [dec_from fold_left length app]. rewrite Z.add_0_r.
      rewrite list_insert_id by (unfold aget in Hv; by destruct (0 <=? idx)).
      destruct (Z.eqb_spec c 46) as [->|]; [|done]. destruct ((dg =? 0) || (idx =? 3)) eqn:Eb; [done|]. bools.
      split_and!; try done; try lia. right. exists t. split; [done|lia].
Qed.

Lemma parse_dot t parts idx dg :
  dg <> 0 -> idx <> 3 -> parse_ipv4_from (46 :: t) parts idx dg = parse_ipv4_from t parts (idx + 1) 0.
Proof.
  intros H1 H2. cbn [parse_ipv4_from]. change ((48 <=? 46) && (46 <=? 57)) with false. cbn iota. rewrite Z.eqb_refl.
  by destruct (Z.eqb_spec dg 0), (Z.eqb_spec idx 3).
Qed.

Lemma ipv4_lor a b c d :
  0 <= a <= 255 -> 0 <= b <= 255 -> 0 <= c <= 255 -> 0 <= d <= 255 ->
  Z.lor (Z.lor (Z.lor (u32 (Z.shiftl a 24)) (u32 (Z.shiftl b 16))) (u32 (Z.shiftl c 8))) d = ipv4 a b c d.
Proof.
  intros. unfold ipv4. rewrite !Z.shiftl_mul_pow2 by lia. rewrite !u32_id by lia.
  assert (L : forall n x y, 0 <= n -> 0 <= y < 2 ^ n -> Z.lor (x * 2 ^ n) y = x * 2 ^ n + y).
  { intros n x y Hn Hy. rewrite <- Z.shiftl_mul_pow2 by done. by rewrite lor_shiftl, Z.shiftl_mul_pow2. }
  rewrite (L 24 a) by lia. replace (a * 2 ^ 24 + b * 2 ^ 16) with ((a * 2 ^ 8 + b) * 2 ^ 16) by lia.
  rewrite (L 16) by lia. replace ((a * 2 ^ 8 + b) * 2 ^ 16 + c * 2 ^ 8) with (((a * 2 ^ 8 + b) * 2 ^ 8 + c) * 2 ^ 8) by lia.
  rewrite (L 8) by lia. lia.
Qed.

Lemma parse_end a b c d dg :
  0 <= a <= 255 -> 0 <= b <= 255 -> 0 <= c <= 255 -> 0 <= d <= 255 -> dg <> 0 ->
  parse_ipv4_from [] [a; b; c; d] 3 dg = Some (Some (ipv4 a b c d)).
Proof.
  intros. cbn [parse_ipv4_from]. destruct (Z.eqb_spec dg 0); [done|]. cbn. rewrite <- ipv4_lor by done. done.
Qed.

(** Net_parse_ipv4 accepts exactly four groups of decimal digits, separated
    by dots, each with a value of at most 255 (leading zeros allowed), and
    returns the address they denote; every other text is rejected. *)
Theorem parse_ipv4_exact (t : list Z) (ip : Z) :
  Z.of_nat (length t) <= INT_MAX ->
  net_parse_ipv4 (Some t) = Some (Some ip) <->
  exists ta a tb b tc c td d, t = ta ++ 46 :: tb ++ 46 :: tc ++ 46 :: td /\
    octet ta a /\ octet tb b /\ octet tc c /\ octet td d /\ ip = ipv4 a b c d.
Proof.
  intros Hlen. cbn [net_parse_ipv4]. split.
  - intros E.
    apply (parse_sound t _ 0 0 0) in E as (ta&t1&->&Ha&Hva&Hna&[[_ ?]|(t2&->&_)]&E); [lia| |done|lia..].
    rewrite parse_dot in E by lia.
    apply (parse_sound t2 _ 1 0 0) in E as (tb&t3&->&Hb&Hvb&Hnb&[[_ ?]|(t4&->&_)]&E); [lia| |done|lia..].
    rewrite parse_dot in E by lia.
    apply (parse_sound t4 _ 2 0 0) in E as (tc&t5&->&Hc&Hvc&Hnc&[[_ ?]|(t6&->&_)]&E); [lia| |done|lia..].
    rewrite parse_dot in E by lia.
    apply (parse_sound t6 _ 3 0 0) in E as (td&t7&->&Hd&Hvd&Hnd&[[-> _]|(t8&->&?)]&E); [|lia|done|lia..].
    exists ta, (dec_from 0 ta), tb, (dec_from 0 tb), tc, (dec_from 0 tc), td, (dec_from 0 td).
    rewrite app_nil_r. split; [done|].
    assert (octet' : forall g, forallb digit g = true -> 0 <= dec_from 0 g <= 255 -> 0 < 0 + Z.of_nat (length g) -> octet g (dec_from 0 g)).
    { intros g ? ? ?. split_and!; [by destruct g; [simpl in *; lia|]|done|done|lia]. }
    split_and!; [by apply octet'..|].
    assert (Some (Some ip) = Some (Some (ipv4 (dec_from 0 ta) (dec_from 0 tb) (dec_from 0 tc) (dec_from 0 td)))) as [= ->];
      [|done]. rewrite <- E. by apply parse_end; [..|lia].
  - intros (ta&a&tb&b&tc&c&td&d&->&(Ha1&Ha2&<-&Ha3)&(Hb1&Hb2&<-&Hb3)&(Hc1&Hc2&<-&Hc3)&(Hd1&Hd2&<-&Hd3)&->).
    assert (Hnn : forall g : list Z, g <> [] -> 0 < Z.of_nat (length g)) by (intros [|]; [done|simpl; lia]).
    pose proof (Hnn ta Ha1). pose proof (Hnn tb Hb1). pose proof (Hnn tc Hc1). pose proof (Hnn td Hd1).
    repeat (rewrite length_app in Hlen; cbn [length] in Hlen).
    rewrite (parse_digits ta _ _ 0 0 0), parse_dot by (done || lia).
    rewrite (parse_digits tb _ _ 1 0 0), parse_dot by (done || lia).
    rewrite (parse_digits tc _ _ 2 0 0), parse_dot by (done || lia).
    rewrite <- (app_nil_r td) at 1. rewrite (parse_digits td _ _ 3 0 0) by (done || lia).
    pose proof (dec_from_mono ta 0 ltac:(lia) Ha2). pose proof (dec_from_mono tb 0 ltac:(lia) Hb2).
    pose proof (dec_from_mono tc 0 ltac:(lia) Hc2). pose proof (dec_from_mono td 0 ltac:(lia) Hd2).
    apply parse_end; lia.
Qed.

Lemma parse_ipv4_exact_witness :
  net_parse_ipv4 (Some [49; 48; 46; 48; 46; 50; 46; 49; 54]) = Some (Some NET_IP).
Proof.
  apply (parse_ipv4_exact [49; 48; 46; 48; 46; 50; 46; 49; 54] NET_IP); [simpl; unfold INT_MAX; lia|].
  exists [49; 48], 10, [48], 0, [50], 2, [49; 54], 16. repeat split; first [done | lia].
Defined.

(** ** DNS names *)

(** The labels of a host name; [seg] is the start of the first one. *)
Fixpoint labels (seg host : list Z) : list (list Z) :=
  match host with
  | [] => [seg]
  | c :: host' => if c =? 46 then seg :: labels [] host' else labels (seg ++ [c]) host'
  end.

Definition label_ok (l : list Z) : Prop := (0 < length l <= 63)%nat.
Definition enc_labels (ls : list (list Z)) : list Z := concat (map (fun l => Z.of_nat (length l) :: l) ls).

(** The labels of an encoded name. *)
Fixpoint decode_labels (fuel : nat) (bs : list Z) : option (list (list Z)) :=
  match fuel, bs with
  | S n, k :: bs' =>
      if k =? 0 then Some []
      else l ← slice bs' 0 k; r ← decode_labels n (drop (Z.to_nat k) bs'); Some (l :: r)
  | _, _ => None
  end.

Lemma map_u8 l : Forall byte_ok l -> map u8 l = l.
Proof. induction 1 as [|b l Hb _ IH]; simpl; [done|]. by rewrite u8_id, IH. Qed.

Lemma close_label_ok cap out seg :
  label_ok seg -> Forall byte_ok seg -> Z.of_nat (length out) + Z.of_nat (length seg) + 1 < cap ->
  close_label cap out seg = Some (out ++ Z.of_nat (length seg) :: seg).
Proof.
  intros [? ?] Hb Hc. unfold close_label. rewrite map_u8, u8_id by (done || lia).
  destruct (_ || _) eqn:E; [|done]. exfalso. lia.
Qed.

Lemma close_label_bad cap out seg :
  ~ (label_ok seg /\ Z.of_nat (length out) + Z.of_nat (length seg) + 1 < cap) -> close_label cap out seg = None.
Proof. intros H. unfold close_label. destruct (_ || _) eqn:E; [done|]. exfalso. apply H. unfold label_ok. lia. Qed.

Lemma enc_labels_cons l ls : enc_labels (l :: ls) = (Z.of_nat (length l) :: l) ++ enc_labels ls.
Proof. done. Qed.

Lemma dns_encode_ok cap host : forall seg out,
  Forall byte_ok seg -> Forall byte_ok host -> Forall label_ok (labels seg host) ->
  Z.of_nat (length out + length (enc_labels (labels seg host))) + 1 < cap ->
  dns_encode_from cap host seg out =
    (Z.of_nat (length out + length (enc_labels (labels seg host))) + 1, out ++ enc_labels (labels seg host) ++ [0]).
Proof.
  induction host as [|c host IH]; intros seg out Hs Hh Hl Hc; cbn [dns_encode_from labels] in *.
  - apply Forall_cons in Hl as [Hl _]. rewrite enc_labels_cons in *. cbn [enc_labels map concat app length] in *.
    rewrite app_nil_r in *. rewrite close_label_ok by (done || lia).
    rewrite length_app. cbn [length]. destruct (Z.leb_spec cap (Z.of_nat (length out + S (length seg)) + 1)); [lia|].
    by rewrite <- app_assoc.
  - apply Forall_cons in Hh as [Hb Hh]. destruct (c =? 46).
    + apply Forall_cons in Hl as [Hl Hls]. rewrite enc_labels_cons in *. cbn [app length] in *. rewrite length_app in *.
      rewrite close_label_ok by (done || lia). rewrite IH; [|done|done|done|rewrite length_app; cbn [length]; lia].
      rewrite length_app, <- app_assoc. cbn [length app]. f_equal; [lia|]. by rewrite <- app_assoc.
    + apply IH; [by apply Forall_app_2; [|apply Forall_cons]|done..].
Qed.

Lemma dns_encode_bad cap host : forall seg out,
  Forall byte_ok seg -> Forall byte_ok host ->
  ~ (Forall label_ok (labels seg host) /\ Z.of_nat (length out + length (enc_labels (labels seg host))) + 1 < cap) ->
  (dns_encode_from cap host seg out).1 = 0.
Proof.
  induction host as [|c host IH]; intros seg out Hs Hh H; cbn [dns_encode_from labels] in *.
  - destruct (decide (label_ok seg /\ Z.of_nat (length out) + Z.of_nat (length seg) + 1 < cap)) as [[Hl Hc]|Hno];
      [|by rewrite close_label_bad].
    rewrite close_label_ok by done. rewrite enc_labels_cons in H. cbn [enc_labels map concat app length] in H.
    rewrite app_nil_r in H. rewrite length_app. cbn [length].
    destruct (Z.leb_spec cap (Z.of_nat (length out + S (length seg)) + 1)); [done|].
    exfalso. apply H. split; [by apply Forall_singleton|lia].
  - apply Forall_cons in Hh as [Hb Hh]. destruct (c =? 46).
    + destruct (decide (label_ok seg /\ Z.of_nat (length out) + Z.of_nat (length seg) + 1 < cap)) as [[Hl Hc]|Hno];
        [|by rewrite close_label_bad].
      rewrite close_label_ok by done. apply IH; [done|done|]. intros [Hls Hc2]. apply H.
      rewrite enc_labels_cons. rewrite length_app in *. cbn [length] in *.
      split; [by apply Forall_cons|]. lia.
    + apply IH; [by apply Forall_app_2; [|apply Forall_cons]|done..].
Qed.

Lemma decode_enc ls : forall fuel post,
  Forall label_ok ls -> (length ls < fuel)%nat -> decode_labels fuel (enc_labels ls ++ 0 :: post) = Some ls.
Proof.
  induction ls as [|l ls IH]; intros [|fuel] post H Hf; cbn [length] in *; try lia; [done|].
  apply Forall_cons in H as [[H1 H2] H]. rewrite enc_labels_cons. cbn [decode_labels app].
  destruct (Z.eqb_spec (Z.of_nat (length l)) 0); [lia|].
  rewrite <- app_assoc. rewrite slice_ok by (rewrite ?length_app; lia).
  change (Z.to_nat 0) with 0%nat. rewrite drop_0, Nat2Z.id, take_app_length. cbn [mbind option_bind].
  rewrite drop_app_length, IH by (done || lia). done.
Qed.

(** The receive path steps over an encoded name exactly. *)
Lemma skip_enc stop ls : forall fuel pre post,
  Forall label_ok ls -> (length ls < fuel)%nat ->
  loop fuel (fun p =>
    b ← rd8 (pre ++ enc_labels ls ++ 0 :: post) p;
    if b =? 0 then Some (inr (p + 1))
    else if stop && (Z.land b 0xC0 =? 0xC0) then Some (inr (p + 2))
    else Some (inl (p + (b + 1)))) (Z.of_nat (length pre)) =
  Some (Z.of_nat (length pre + length (enc_labels ls) + 1)).
Proof.
  induction ls as [|l ls IH]; intros [|fuel] pre post H Hf; cbn [length] in *; try lia.
  - cbn [loop enc_labels map concat app]. unfold rd8. rewrite aget_nat, list_lookup_middle by done.
    cbn. f_equal. lia.
  - apply Forall_cons in H as [[H1 H2] H].
    assert (E : pre ++ enc_labels (l :: ls) ++ 0 :: post = (pre ++ Z.of_nat (length l) :: l) ++ enc_labels ls ++ 0 :: post)
      by (rewrite enc_labels_cons, <- !app_assoc; done).
    specialize (IH fuel (pre ++ Z.of_nat (length l) :: l) post H ltac:(lia)). rewrite <- E in IH.
    assert (Hrd : rd8 (pre ++ enc_labels (l :: ls) ++ 0 :: post) (Z.of_nat (length pre)) = Some (Z.of_nat (length l))).
    { unfold rd8. rewrite aget_nat, enc_labels_cons. by apply list_lookup_middle. }
    match goal with |- loop _ ?f _ = _ => set (step := f) in * end.
    assert (Hstep : step (Z.of_nat (length pre)) = Some (inl (Z.of_nat (length pre) + (Z.of_nat (length l) + 1)))).
    { unfold step. rewrite Hrd. cbn [mbind option_bind].
      destruct (Z.eqb_spec (Z.of_nat (length l)) 0); [lia|].
      destruct (Z.eqb_spec (Z.land (Z.of_nat (length l)) 0xC0) 0xC0) as [E2|]; [exfalso|by rewrite andb_false_r].
      pose proof (f_equal (fun x => Z.testbit x 6) E2) as Ht. cbn beta in Ht. rewrite Z.land_spec in Ht.
      apply andb_true_iff in Ht as [Hb _].
      rewrite Z.bits_above_log2 in Hb; [done|lia|]. apply Z.log2_lt_pow2; lia. }
    cbn [loop]. rewrite Hstep. cbn [mbind option_bind].
    replace (Z.of_nat (length pre) + (Z.of_nat (length l) + 1)) with (Z.of_nat (length (pre ++ Z.of_nat (length l) :: l)))
      by (rewrite length_app; cbn [length]; lia).
    rewrite IH. rewrite enc_labels_cons, !length_app. cbn [length]. f_equal. lia.
Qed.

(** C40: [dns_encode_name] is the DNS encoding of a host name.  If every label has 1
    to 63 bytes and the encoding fits (at most 255 bytes), the stored bytes are
    the length-prefixed labels with the root label, the result is their number,
    decoding them gives the labels back, and the name parser of the receive path
    steps over exactly these bytes wherever they stand in a frame; otherwise the
    result is 0. *)
Theorem dns_name_roundtrip (host : list Z) :
  Forall byte_ok host ->
  let ls := labels [] host in
  let n := Z.of_nat (length (enc_labels ls)) + 1 in
  (Forall label_ok ls /\ n < 256 /\ dns_encode_name host 256 = (n, enc_labels ls ++ [0]) /\
     decode_labels 256 (enc_labels ls ++ [0]) = Some ls /\
     forall stop pre post,
       skip_name (pre ++ (enc_labels ls ++ [0]) ++ post) stop (Z.of_nat (length pre)) = Some (Z.of_nat (length pre) + n)) \/
  (~ (Forall label_ok ls /\ n < 256) /\ (dns_encode_name host 256).1 = 0).
Proof.
  intros Hb ls n. destruct (decide (Forall label_ok ls /\ n < 256)) as [[Hl Hn]|Hno]; [left|right].
  - assert (Hc : forall xs, Forall label_ok xs -> (length xs <= length (enc_labels xs))%nat).
    { clear. induction 1 as [|l xs _ _ IH]; [simpl; lia|]. rewrite enc_labels_cons, length_app. simpl. lia. }
    specialize (Hc ls Hl). split_and!; [done|done| | |].
    + unfold dns_encode_name. rewrite dns_encode_ok; [done|done|done|done|]. cbn [length]. fold ls. lia.
    + apply decode_enc; [done|lia].
    + intros stop pre post. unfold skip_name. rewrite <- app_assoc. cbn [app].
      rewrite skip_enc; [f_equal; lia|done|]. lia.
  - split; [done|]. apply dns_encode_bad; [done|done|]. intros [? ?]. apply Hno. split; [done|]. unfold n, ls. simpl in *. lia.
Qed.

Lemma dns_name_roundtrip_witness :
  dns_encode_name (text "heise.de") 256 = (10, [5; 104; 101; 105; 115; 101; 2; 100; 101; 0]) /\
  decode_labels 256 [5; 104; 101; 105; 115; 101; 2; 100; 101; 0] = Some [text "heise"; text "de"].
Proof.
  destruct (dns_name_roundtrip (text "heise.de")) as [(_&_&E&Hd&_)|[Hno _]]; [by apply bytes_check| |].
  - exact (conj E Hd).
  - exfalso. apply Hno. split; [|by vm_compute]. repeat constructor; simpl; lia.
Defined.

End NetText.
