(* ===== verification/NetDefects.v ===== *)
(** * NetDefects: what a hostile or merely unlucky frame does

    Executions of net.c on concrete frames that its comments do not promise. *)

From Stdlib Require Import ZArith Lia Bool ZifyBool.
From stdpp Require Import base numbers option list list_numbers gmap.
From S2P Require Import Prelude StateM Net NetFrames NetTcp.

Open Scope Z_scope.

Module NetDefects.
Import Net NetFrames NetTcp.

(** A TCP frame for [demo_conn] whose IP header claims [total] bytes. *)
Definition claiming (total flags seq : Z) (d : list Z) : list Z :=
  cat [[2; 0; 0; 0; 0; 9]; [2; 0; 0; 0; 0; 1]; be16 ETHERTYPE_IP; [0x45]; [0]; be16 total;
       be16 0; be16 0; [64]; [IP_PROTO_TCP]; be16 0; be32 0x0A000202; be32 NET_IP; be16 80; be16 0xD100;
       be32 seq; be32 0x2001; [0x50]; [flags]; be16 8192; be16 0; be16 0; d].

(** An ICMP echo request of 8 bytes whose IP header claims [total]. *)
Definition echo_claiming (total : Z) : list Z :=
  cat [[2; 0; 0; 0; 0; 9]; [2; 0; 0; 0; 0; 1]; be16 ETHERTYPE_IP; [0x45]; [0]; be16 total;
       be16 0; be16 0; [64]; [IP_PROTO_ICMP]; be16 0; be32 0x0A000202; be32 NET_IP; [8; 0]; be16 0; be16 1; be16 1].

(** A DNS answer of one question whose name has a label that leads out of the frame. *)
Definition dns_walking_out : list Z :=
  cat ([[2; 0; 0; 0; 0; 9]; [2; 0; 0; 0; 0; 1]; be16 ETHERTYPE_IP; [0x45]; [0]; be16 1500;
       be16 0; be16 0; [64]; [IP_PROTO_UDP]; be16 0; be32 NET_DNS; be32 NET_IP;
       be16 DNS_PORT; be16 DNS_SRC_PORT; be16 1480; be16 0;
       be16 0xABCD; be16 0x8180; be16 1; be16 1; be16 0; be16 0] ++ replicate 16 (128 :: replicate 128 7)).

(** [demo_net] with a 2-byte receive window and with secret bytes left over in
    the receive buffer from an earlier frame. *)
Definition small_window : net :=
  set_g_tcp_conns [set_c_rx_cap 2 demo_conn; conn_zero; conn_zero; conn_zero] demo_net.
Definition with_leftover : net := set_g_rxframe (replicate 2048 99) demo_net.

Definition slot0 (s : net) : option tcp_conn := aget (g_tcp_conns s) 0.
Definition after (m : ST net ()) (s : net) : option net := snd <$> m s.

(** Five ways in which the stack departs from what it promises.  A segment
    whose IP header claims more bytes than the frame has delivers 100 bytes left
    over from earlier frames as if the peer had sent them; a claim of 4000 bytes
    reads outside the receive array; an echo request does the same and the
    leftover bytes are sent back to whoever asked.  When the receive buffer is
    full the acknowledgement number still advances past the bytes that were
    dropped, so they are never sent again.  A RST with any sequence number ends
    the connection, and a DNS answer with a long name is parsed outside the
    array. *)
Theorem net_defects :
  (exists s c b, after (receive (claiming 140 24 1001 [])) with_leftover = Some s /\ slot0 s = Some c /\
     c_rx_len c = 100 /\ mem s !! (5, 7) = Some b /\ take 100 b = replicate 100 99) /\
  receive (claiming 4000 24 1001 []) demo_net = None /\
  (exists s f, after (receive (echo_claiming 128)) with_leftover = Some s /\ sent s = [f] /\
     drop 42 f = replicate 100 99) /\
  (exists s c, after (receive (peer_frame 24 1001 [1; 2; 3; 4; 5])) small_window = Some s /\
     slot0 s = Some c /\ c_rx_len c = 2 /\ c_rcv_nxt c = 1006) /\
  (exists s c, after (receive (peer_frame TCP_RST 77 [])) demo_net = Some s /\ slot0 s = Some c /\
     c_state c = TCP_DONE) /\
  receive (take 2048 dns_walking_out) demo_net = None.
Proof.
  split_and!.
  - eexists _, _, _. split; [vm_compute; reflexivity|]. split; [reflexivity|]. split; [reflexivity|].
    split; vm_compute; reflexivity.
  - by vm_compute.
  - eexists _, _. split; [vm_compute; reflexivity|]. split; vm_compute; reflexivity.
  - eexists _, _. split; [vm_compute; reflexivity|]. split; [reflexivity|]. done.
  - eexists _, _. split; [vm_compute; reflexivity|]. split; [reflexivity|]. done.
  - by vm_compute.
Qed.

End NetDefects.
