(* ===== verification/Elf.v ===== *)
(** * Elf: executable images (kernel/src/elf.c, kernel/include/elf.h)

    The header and the program headers are read from the bytes of an image at the
    offsets of the C structs; reading outside the image is [None]. *)

From Stdlib Require Import ZArith Lia Bool ZifyBool.
From stdpp Require Import base numbers option list list_numbers.
From S2P Require Import Prelude.

Open Scope Z_scope.

Module Elf.

Definition ELF_CLASS_64 : Z := 2.
Definition ELF_DATA_LSB : Z := 1.
Definition ELF_TYPE_EXEC : Z := 2.
Definition ELF_MACHINE_NATIVE : Z := 62.
Definition ELF_VERSION_CURRENT : Z := 1.
Definition ELF_PROGRAM_TYPE_LOAD : Z := 1.

Definition sizeof_header : Z := 64.
Definition sizeof_program_header : Z := 56.

(** The fields the kernel reads. *)
Record elf64_header := mk_header {
  ident : list Z;
  e_type : Z;
  e_machine : Z;
  e_version : Z;
  e_entry : Z;
  program_header_offset : Z;
  program_header_entry_size : Z;
  program_header_count : Z }.

Record elf64_program_header := mk_ph {
  ph_type : Z;
  ph_offset : Z;
  ph_virtual_address : Z;
  ph_file_size : Z;
  ph_memory_size : Z }.

(** The little-endian integer of [n] bytes at [off]. *)
Definition field (image : list Z) (off n : Z) : option Z := bs ← slice image off n; Some (le_dec bs).

Definition read_header (image : list Z) : option elf64_header :=
  id ← slice image 0 16;
  ty ← field image 16 2; ma ← field image 18 2; ve ← field image 20 4; en ← field image 24 8;
  po ← field image 32 8; ps ← field image 54 2; pc ← field image 56 2;
  Some (mk_header id ty ma ve en po ps pc).

(** [program_header[i]]: indexed in steps of the struct's size. *)
Definition read_program_header (image : list Z) (base i : Z) : option elf64_program_header :=
  let p := base + i * sizeof_program_header in
  ty ← field image p 4; fo ← field image (p + 8) 8; va ← field image (p + 16) 8;
  fs ← field image (p + 32) 8; ms ← field image (p + 40) 8;
  Some (mk_ph ty fo va fs ms).

Definition elf64_validate (image : list Z) : option bool :=
  let size := Z.of_nat (length image) in
  if size <? sizeof_header then Some false
  else
    h ← read_header image;
    if negb (bool_decide (take 4 (ident h) = [0x7f; 0x45; 0x4c; 0x46])) then Some false
    else if negb (bool_decide (take 2 (drop 4 (ident h)) = [ELF_CLASS_64; ELF_DATA_LSB])) then Some false
    else if negb ((e_type h =? ELF_TYPE_EXEC) && (e_machine h =? ELF_MACHINE_NATIVE)
                  && (e_version h =? ELF_VERSION_CURRENT)) then Some false
    else if size <? u64 (program_header_offset h
                         + u64 (program_header_entry_size h * program_header_count h)) then Some false
    else Some true.

Lemma field_ok image off n :
  0 <= off -> 0 <= n -> off + n <= Z.of_nat (length image) -> exists v, field image off n = Some v.
Proof. intros. unfold field. rewrite slice_ok by lia. by eexists. Qed.

(** The header of an image of at least 64 bytes can be read. *)
Lemma read_header_ok image : sizeof_header <= Z.of_nat (length image) -> exists h, read_header image = Some h.
Proof.
  unfold sizeof_header. intros H. unfold read_header. rewrite slice_ok by lia. cbn [mbind option_bind].
  repeat match goal with
  | |- exists h, (field image ?o ?n ≫= _) = _ =>
      destruct (field_ok image o n) as [? ->]; [lia|lia|lia|]; cbn [mbind option_bind]
  end.
  by eexists.
Qed.

(** Validation never reads outside the image. *)
Lemma elf64_validate_total image : exists b, elf64_validate image = Some b.
Proof.
  unfold elf64_validate. destruct (_ <? sizeof_header) eqn:E; [by eexists|]. bools.
  destruct (read_header_ok image E) as [h ->]. cbn [mbind option_bind].
  repeat case_match; by eexists.
Qed.

Lemma elf64_validate_header image :
  elf64_validate image = Some true -> exists h, read_header image = Some h.
Proof.
  unfold elf64_validate. destruct (_ <? sizeof_header) eqn:E; [done|]. bools. intros _.
  by apply read_header_ok.
Qed.

End Elf.
