(* ===== verification/ProcState.v ===== *)
(** * ProcState: the state of the process subsystem (kernel/include/process.h,
    kernel/include/cpu.h, the globals of kernel/src/process.c)

    - A pointer into [g_processes] is the slot's index, so that what one holder
      stores is seen by all.  Strings are the bytes before their NUL.  The area
      for FXSAVE and the pointer [syscalls.fd_table], which always points to the
      process's own table, are left out.
    - A kernel stack is its lowest word, the canary; a process parked inside a
      system call is its saved stack pointer [p_kresume_rsp].
    - [c_slice] is control state: process_run_ready_slice suspends in the middle,
      between entering a process and getting the CPU back from it, and holds a
      pointer to that process in a local variable.
    - The two allocators are of arbitrary types [H] (kmalloc) and [I] (the image
      heap); what the code relies on of them is the class [PageHeap].
    - The addresses the linker gives to the static arrays are the [layout].
    - [k_calls] records calls into the window system, the audio mixer and the
      pseudo-terminals.
      Logging (journal, serial port) and the usage statistics of kernel stacks
      are left out. *)

From Stdlib Require Import ZArith Lia Bool ZifyBool.
From stdpp Require Import base numbers option list list_numbers gmap.
From S2P Require Import Prelude StateM.

Open Scope Z_scope.

(** ** What the process subsystem relies on of a heap

    [ph_rep h L]: the blocks handed out and not yet freed are [L], from their
    address to their size. *)
Class PageHeap (H : Type) := {
  ph_alloc : Z -> H -> option (Z * H);
  ph_free : Z -> H -> option H;
  ph_rep : H -> gmap Z Z -> Prop;
  ph_alloc_ok n h L :
    ph_rep h L -> 0 <= n < 2 ^ 31 ->
    exists p h', ph_alloc n h = Some (p, h') /\
      ((p = 0 /\ ph_rep h' L) \/
       (exists m, 0 < p /\ n <= m /\ p + m < 2 ^ 64 /\ L !! p = None /\ ph_rep h' (<[p := m]> L) /\
          forall q k, L !! q = Some k -> p + m <= q \/ q + k <= p));
  ph_free_ok p h L m :
    ph_rep h L -> L !! p = Some m -> exists h', ph_free p h = Some h' /\ ph_rep h' (delete p L) }.

Module ProcState.

(** ** Constants *)

Definition PROCESS_MAX_COUNT : Z := 48.
Definition PROCESS_USER_BASE : Z := 0x20000000.
Definition PROCESS_USER_TEMPLATE_BASE : Z := PROCESS_USER_BASE.
Definition PROCESS_USER_REGION_BYTES : Z := 0x10000000.
Definition PROCESS_USER_STACK_SIZE : Z := 0x100000.
Definition PROCESS_USER_IMAGE_SIZE : Z := PROCESS_USER_REGION_BYTES - PROCESS_USER_STACK_SIZE.
Definition PROCESS_USER_STACK_TOP_OFFSET : Z := PROCESS_USER_REGION_BYTES.
Definition PROCESS_USER_PAGE_TABLE_COUNT : Z := PROCESS_USER_REGION_BYTES / 0x200000.
Definition PROCESS_VFS_HANDLE_CAPACITY : Z := 8.
Definition PROCESS_HEAP_MAX_CHUNKS : Z := 2048.
Definition PROCESS_KERNEL_STACK_SIZE : Z := 65536.
Definition PROCESS_IMAGE_ALLOC_QUARANTINE_CAP : Z := 64.
Definition KSTACK_CANARY : Z := 0x4f56455242414421.
Definition FD_TABLE_CAPACITY : Z := 16.
Definition USER_DATA_SELECTOR : Z := 0x18.
Definition USER_CODE_SELECTOR : Z := 0x20.

Definition PROCESS_RUN_NONE : Z := 0.
Definition PROCESS_RUN_YIELDED : Z := 1.
Definition PROCESS_RUN_EXITED : Z := 2.
Definition PROCESS_RUN_BLOCKED : Z := 3.

Definition SYSCALL_EPERM : Z := 1.
Definition SYSCALL_ENOENT : Z := 2.
Definition SYSCALL_EIO : Z := 5.
Definition SYSCALL_ENOMEM : Z := 12.
Definition SYSCALL_EFAULT : Z := 14.
Definition SYSCALL_EINVAL : Z := 22.

(** ** Data *)

Inductive process_state :=
| EMPTY | READY | RUNNING | SLEEPING | WAITING | EXITED | WAITING_IO.

#[global] Instance process_state_eq_dec : EqDecision process_state.
Proof. solve_decision. Defined.

(** The numbers of the C enumeration. *)
Definition state_code (s : process_state) : Z :=
  match s with
  | EMPTY => 0 | READY => 1 | RUNNING => 2 | SLEEPING => 3 | WAITING => 4 | EXITED => 5 | WAITING_IO => 6
  end.

Definition state_is (a b : process_state) : bool := bool_decide (a = b).

(** The tables of operations a descriptor can refer to. *)
Inductive ops_ref :=
| TTY_FD_OPS | PTY_MASTER_FD_OPS | PTY_SLAVE_FD_OPS | PROCESS_STDIO_FD_OPS | PROCESS_VFS_FD_OPS.

#[global] Instance ops_ref_eq_dec : EqDecision ops_ref.
Proof. solve_decision. Defined.

(** [struct interrupt_frame] *)
Record interrupt_frame := Frame {
  f_rax : Z;
  f_rbx : Z;
  f_rcx : Z;
  f_rdx : Z;
  f_rbp : Z;
  f_rdi : Z;
  f_rsi : Z;
  f_r8 : Z;
  f_r9 : Z;
  f_r10 : Z;
  f_r11 : Z;
  f_r12 : Z;
  f_r13 : Z;
  f_r14 : Z;
  f_r15 : Z;
  f_rip : Z;
  f_cs : Z;
  f_rflags : Z;
  f_rsp : Z;
  f_ss : Z }.

Definition set_f_rax (v : Z) (f : interrupt_frame) : interrupt_frame := Frame v (f_rbx f) (f_rcx f)
    (f_rdx f) (f_rbp f) (f_rdi f) (f_rsi f) (f_r8 f) (f_r9 f) (f_r10 f) (f_r11 f) (f_r12 f) (f_r13 f)
    (f_r14 f) (f_r15 f) (f_rip f) (f_cs f) (f_rflags f) (f_rsp f) (f_ss f).
Definition set_f_rdx (v : Z) (f : interrupt_frame) : interrupt_frame := Frame (f_rax f) (f_rbx f) (f_rcx
    f) v (f_rbp f) (f_rdi f) (f_rsi f) (f_r8 f) (f_r9 f) (f_r10 f) (f_r11 f) (f_r12 f) (f_r13 f) (f_r14
    f) (f_r15 f) (f_rip f) (f_cs f) (f_rflags f) (f_rsp f) (f_ss f).
Definition set_f_rdi (v : Z) (f : interrupt_frame) : interrupt_frame := Frame (f_rax f) (f_rbx f) (f_rcx
    f) (f_rdx f) (f_rbp f) v (f_rsi f) (f_r8 f) (f_r9 f) (f_r10 f) (f_r11 f) (f_r12 f) (f_r13 f) (f_r14
    f) (f_r15 f) (f_rip f) (f_cs f) (f_rflags f) (f_rsp f) (f_ss f).

(** [struct process_vfs_handle] *)
Record vfs_handle := VfsHandle {
  h_file : Z;   (* pointer to an embedded file, 0 is NULL *)
  h_offset : Z;
  h_used : bool;
  h_kind : Z;   (* 0 = embedded file, 1 = path *)
  h_path : list Z;
  h_cached_ino : Z }.

(** An entry of a descriptor table. *)
Record fd_entry := FdEntry {
  e_ops : option ops_ref;   (* None is NULL *)
  e_object : Z;
  e_used : bool }.


(** What the scheduler sees of a terminal. *)
Record tty_input := TtyInput { t_line_ready : Z; t_raw_length : Z; t_waiter_pid : Z }.

Definition set_t_waiter_pid (v : Z) (t : tty_input) : tty_input :=
  TtyInput (t_line_ready t) (t_raw_length t) v.

(** The private upper-level page tables of a slot: 512 entries each. *)
Record upper_tables := Upper { up_pml4 : list Z; up_pdp : list Z; up_pd0 : list Z }.

(** Addresses of the static arrays and tables, and the boot page directory. *)
Record layout := Layout {
  l_user_stacks : Z;         (* g_user_stacks *)
  l_kernel_stacks : Z;       (* g_kernel_stacks *)
  l_user_page_tables : Z;    (* g_user_page_tables *)
  l_proc_pml4 : Z;
  l_proc_pdp : Z;
  l_proc_pd0 : Z;
  l_pd_table1 : Z;
  l_pd_table2 : Z;
  l_pd_table3 : Z;
  l_boot_pd0 : list Z;       (* the entries of pd_table0 *)
  l_timer_hz : Z }.          (* timer_frequency_hz *)

(** Calls into the window system, the audio mixer and the pseudo-terminals. *)
Inductive outcall :=
| Desktop_app_close_for_pid (pid : Z)
| Desktop_show_error
| Audio_release_voice (pid : Z)
| Pty_release (pty : Z).

(** [struct process] *)
Record process := Process {
  p_pid : Z;
  p_parent_pid : Z;
  p_wait_target_pid : Z;
  p_entry : Z;
  p_user_stack_top : Z;
  p_user_virtual_base : Z;
  p_code_size : Z;
  p_user_image_allocation : Z;   (* pointer, 0 is NULL *)
  p_user_image_pages : Z;
  p_user_image_capacity : Z;
  p_user_page_tables : Z;   (* slot of g_user_page_tables plus one, 0 is NULL *)
  p_cr3 : Z;
  p_heap_start : Z;
  p_heap_break : Z;
  p_heap_chunks : list Z;   (* the first heap_chunk_count entries *)
  p_loaded : bool;
  p_state : process_state;
  p_exit_code : Z;
  p_runtime_ticks : Z;
  p_switch_count : Z;
  p_preempt_count : Z;
  p_wake_tick : Z;
  p_pending_read_fd : Z;
  p_pending_read_buffer : Z;
  p_pending_read_count : Z;
  p_vfs_handles : list vfs_handle;
  p_fd_table : list fd_entry;
  p_context : interrupt_frame;
  p_kernel_stack_top : Z;
  p_kresume_rsp : Z;
  p_is_thread : bool;
  p_cwd : list Z;
  p_spawn_arg : list Z;
  p_name : list Z;
  p_uid : Z;
  p_gid : Z;
  p_running_on_cpu : Z }.   (* -1 = not running *)

Definition set_p_pid (v : Z) (p : process) : process := Process v (p_parent_pid p) (p_wait_target_pid p)
    (p_entry p) (p_user_stack_top p) (p_user_virtual_base p) (p_code_size p) (p_user_image_allocation p)
    (p_user_image_pages p) (p_user_image_capacity p) (p_user_page_tables p) (p_cr3 p) (p_heap_start p)
    (p_heap_break p) (p_heap_chunks p) (p_loaded p) (p_state p) (p_exit_code p) (p_runtime_ticks p)
    (p_switch_count p) (p_preempt_count p) (p_wake_tick p) (p_pending_read_fd p) (p_pending_read_buffer
    p) (p_pending_read_count p) (p_vfs_handles p) (p_fd_table p) (p_context p) (p_kernel_stack_top p)
    (p_kresume_rsp p) (p_is_thread p) (p_cwd p) (p_spawn_arg p) (p_name p) (p_uid p) (p_gid p)
    (p_running_on_cpu p).
Definition set_p_parent_pid (v : Z) (p : process) : process := Process (p_pid p) v (p_wait_target_pid p)
    (p_entry p) (p_user_stack_top p) (p_user_virtual_base p) (p_code_size p) (p_user_image_allocation p)
    (p_user_image_pages p) (p_user_image_capacity p) (p_user_page_tables p) (p_cr3 p) (p_heap_start p)
    (p_heap_break p) (p_heap_chunks p) (p_loaded p) (p_state p) (p_exit_code p) (p_runtime_ticks p)
    (p_switch_count p) (p_preempt_count p) (p_wake_tick p) (p_pending_read_fd p) (p_pending_read_buffer
    p) (p_pending_read_count p) (p_vfs_handles p) (p_fd_table p) (p_context p) (p_kernel_stack_top p)
    (p_kresume_rsp p) (p_is_thread p) (p_cwd p) (p_spawn_arg p) (p_name p) (p_uid p) (p_gid p)
    (p_running_on_cpu p).
Definition set_p_wait_target_pid (v : Z) (p : process) : process := Process (p_pid p) (p_parent_pid p) v
    (p_entry p) (p_user_stack_top p) (p_user_virtual_base p) (p_code_size p) (p_user_image_allocation p)
    (p_user_image_pages p) (p_user_image_capacity p) (p_user_page_tables p) (p_cr3 p) (p_heap_start p)
    (p_heap_break p) (p_heap_chunks p) (p_loaded p) (p_state p) (p_exit_code p) (p_runtime_ticks p)
    (p_switch_count p) (p_preempt_count p) (p_wake_tick p) (p_pending_read_fd p) (p_pending_read_buffer
    p) (p_pending_read_count p) (p_vfs_handles p) (p_fd_table p) (p_context p) (p_kernel_stack_top p)
    (p_kresume_rsp p) (p_is_thread p) (p_cwd p) (p_spawn_arg p) (p_name p) (p_uid p) (p_gid p)
    (p_running_on_cpu p).
Definition set_p_entry (v : Z) (p : process) : process := Process (p_pid p) (p_parent_pid p)
    (p_wait_target_pid p) v (p_user_stack_top p) (p_user_virtual_base p) (p_code_size p)
    (p_user_image_allocation p) (p_user_image_pages p) (p_user_image_capacity p) (p_user_page_tables p)
    (p_cr3 p) (p_heap_start p) (p_heap_break p) (p_heap_chunks p) (p_loaded p) (p_state p) (p_exit_code
    p) (p_runtime_ticks p) (p_switch_count p) (p_preempt_count p) (p_wake_tick p) (p_pending_read_fd p)
    (p_pending_read_buffer p) (p_pending_read_count p) (p_vfs_handles p) (p_fd_table p) (p_context p)
    (p_kernel_stack_top p) (p_kresume_rsp p) (p_is_thread p) (p_cwd p) (p_spawn_arg p) (p_name p) (p_uid
    p) (p_gid p) (p_running_on_cpu p).
Definition set_p_user_stack_top (v : Z) (p : process) : process := Process (p_pid p) (p_parent_pid p)
    (p_wait_target_pid p) (p_entry p) v (p_user_virtual_base p) (p_code_size p) (p_user_image_allocation
    p) (p_user_image_pages p) (p_user_image_capacity p) (p_user_page_tables p) (p_cr3 p) (p_heap_start
    p) (p_heap_break p) (p_heap_chunks p) (p_loaded p) (p_state p) (p_exit_code p) (p_runtime_ticks p)
    (p_switch_count p) (p_preempt_count p) (p_wake_tick p) (p_pending_read_fd p) (p_pending_read_buffer
    p) (p_pending_read_count p) (p_vfs_handles p) (p_fd_table p) (p_context p) (p_kernel_stack_top p)
    (p_kresume_rsp p) (p_is_thread p) (p_cwd p) (p_spawn_arg p) (p_name p) (p_uid p) (p_gid p)
    (p_running_on_cpu p).
Definition set_p_user_virtual_base (v : Z) (p : process) : process := Process (p_pid p) (p_parent_pid p)
    (p_wait_target_pid p) (p_entry p) (p_user_stack_top p) v (p_code_size p) (p_user_image_allocation p)
    (p_user_image_pages p) (p_user_image_capacity p) (p_user_page_tables p) (p_cr3 p) (p_heap_start p)
    (p_heap_break p) (p_heap_chunks p) (p_loaded p) (p_state p) (p_exit_code p) (p_runtime_ticks p)
    (p_switch_count p) (p_preempt_count p) (p_wake_tick p) (p_pending_read_fd p) (p_pending_read_buffer
    p) (p_pending_read_count p) (p_vfs_handles p) (p_fd_table p) (p_context p) (p_kernel_stack_top p)
    (p_kresume_rsp p) (p_is_thread p) (p_cwd p) (p_spawn_arg p) (p_name p) (p_uid p) (p_gid p)
    (p_running_on_cpu p).
Definition set_p_code_size (v : Z) (p : process) : process := Process (p_pid p) (p_parent_pid p)
    (p_wait_target_pid p) (p_entry p) (p_user_stack_top p) (p_user_virtual_base p) v
    (p_user_image_allocation p) (p_user_image_pages p) (p_user_image_capacity p) (p_user_page_tables p)
    (p_cr3 p) (p_heap_start p) (p_heap_break p) (p_heap_chunks p) (p_loaded p) (p_state p) (p_exit_code
    p) (p_runtime_ticks p) (p_switch_count p) (p_preempt_count p) (p_wake_tick p) (p_pending_read_fd p)
    (p_pending_read_buffer p) (p_pending_read_count p) (p_vfs_handles p) (p_fd_table p) (p_context p)
    (p_kernel_stack_top p) (p_kresume_rsp p) (p_is_thread p) (p_cwd p) (p_spawn_arg p) (p_name p) (p_uid
    p) (p_gid p) (p_running_on_cpu p).
Definition set_p_user_image_allocation (v : Z) (p : process) : process := Process (p_pid p)
    (p_parent_pid p) (p_wait_target_pid p) (p_entry p) (p_user_stack_top p) (p_user_virtual_base p)
    (p_code_size p) v (p_user_image_pages p) (p_user_image_capacity p) (p_user_page_tables p) (p_cr3 p)
    (p_heap_start p) (p_heap_break p) (p_heap_chunks p) (p_loaded p) (p_state p) (p_exit_code p)
    (p_runtime_ticks p) (p_switch_count p) (p_preempt_count p) (p_wake_tick p) (p_pending_read_fd p)
    (p_pending_read_buffer p) (p_pending_read_count p) (p_vfs_handles p) (p_fd_table p) (p_context p)
    (p_kernel_stack_top p) (p_kresume_rsp p) (p_is_thread p) (p_cwd p) (p_spawn_arg p) (p_name p) (p_uid
    p) (p_gid p) (p_running_on_cpu p).
Definition set_p_user_image_pages (v : Z) (p : process) : process := Process (p_pid p) (p_parent_pid p)
    (p_wait_target_pid p) (p_entry p) (p_user_stack_top p) (p_user_virtual_base p) (p_code_size p)
    (p_user_image_allocation p) v (p_user_image_capacity p) (p_user_page_tables p) (p_cr3 p)
    (p_heap_start p) (p_heap_break p) (p_heap_chunks p) (p_loaded p) (p_state p) (p_exit_code p)
    (p_runtime_ticks p) (p_switch_count p) (p_preempt_count p) (p_wake_tick p) (p_pending_read_fd p)
    (p_pending_read_buffer p) (p_pending_read_count p) (p_vfs_handles p) (p_fd_table p) (p_context p)
    (p_kernel_stack_top p) (p_kresume_rsp p) (p_is_thread p) (p_cwd p) (p_spawn_arg p) (p_name p) (p_uid
    p) (p_gid p) (p_running_on_cpu p).
Definition set_p_user_image_capacity (v : Z) (p : process) : process := Process (p_pid p) (p_parent_pid
    p) (p_wait_target_pid p) (p_entry p) (p_user_stack_top p) (p_user_virtual_base p) (p_code_size p)
    (p_user_image_allocation p) (p_user_image_pages p) v (p_user_page_tables p) (p_cr3 p) (p_heap_start
    p) (p_heap_break p) (p_heap_chunks p) (p_loaded p) (p_state p) (p_exit_code p) (p_runtime_ticks p)
    (p_switch_count p) (p_preempt_count p) (p_wake_tick p) (p_pending_read_fd p) (p_pending_read_buffer
    p) (p_pending_read_count p) (p_vfs_handles p) (p_fd_table p) (p_context p) (p_kernel_stack_top p)
    (p_kresume_rsp p) (p_is_thread p) (p_cwd p) (p_spawn_arg p) (p_name p) (p_uid p) (p_gid p)
    (p_running_on_cpu p).
Definition set_p_user_page_tables (v : Z) (p : process) : process := Process (p_pid p) (p_parent_pid p)
    (p_wait_target_pid p) (p_entry p) (p_user_stack_top p) (p_user_virtual_base p) (p_code_size p)
    (p_user_image_allocation p) (p_user_image_pages p) (p_user_image_capacity p) v (p_cr3 p)
    (p_heap_start p) (p_heap_break p) (p_heap_chunks p) (p_loaded p) (p_state p) (p_exit_code p)
    (p_runtime_ticks p) (p_switch_count p) (p_preempt_count p) (p_wake_tick p) (p_pending_read_fd p)
    (p_pending_read_buffer p) (p_pending_read_count p) (p_vfs_handles p) (p_fd_table p) (p_context p)
    (p_kernel_stack_top p) (p_kresume_rsp p) (p_is_thread p) (p_cwd p) (p_spawn_arg p) (p_name p) (p_uid
    p) (p_gid p) (p_running_on_cpu p).
Definition set_p_cr3 (v : Z) (p : process) : process := Process (p_pid p) (p_parent_pid p)
    (p_wait_target_pid p) (p_entry p) (p_user_stack_top p) (p_user_virtual_base p) (p_code_size p)
    (p_user_image_allocation p) (p_user_image_pages p) (p_user_image_capacity p) (p_user_page_tables p)
    v (p_heap_start p) (p_heap_break p) (p_heap_chunks p) (p_loaded p) (p_state p) (p_exit_code p)
    (p_runtime_ticks p) (p_switch_count p) (p_preempt_count p) (p_wake_tick p) (p_pending_read_fd p)
    (p_pending_read_buffer p) (p_pending_read_count p) (p_vfs_handles p) (p_fd_table p) (p_context p)
    (p_kernel_stack_top p) (p_kresume_rsp p) (p_is_thread p) (p_cwd p) (p_spawn_arg p) (p_name p) (p_uid
    p) (p_gid p) (p_running_on_cpu p).
Definition set_p_heap_start (v : Z) (p : process) : process := Process (p_pid p) (p_parent_pid p)
    (p_wait_target_pid p) (p_entry p) (p_user_stack_top p) (p_user_virtual_base p) (p_code_size p)
    (p_user_image_allocation p) (p_user_image_pages p) (p_user_image_capacity p) (p_user_page_tables p)
    (p_cr3 p) v (p_heap_break p) (p_heap_chunks p) (p_loaded p) (p_state p) (p_exit_code p)
    (p_runtime_ticks p) (p_switch_count p) (p_preempt_count p) (p_wake_tick p) (p_pending_read_fd p)
    (p_pending_read_buffer p) (p_pending_read_count p) (p_vfs_handles p) (p_fd_table p) (p_context p)
    (p_kernel_stack_top p) (p_kresume_rsp p) (p_is_thread p) (p_cwd p) (p_spawn_arg p) (p_name p) (p_uid
    p) (p_gid p) (p_running_on_cpu p).
Definition set_p_heap_break (v : Z) (p : process) : process := Process (p_pid p) (p_parent_pid p)
    (p_wait_target_pid p) (p_entry p) (p_user_stack_top p) (p_user_virtual_base p) (p_code_size p)
    (p_user_image_allocation p) (p_user_image_pages p) (p_user_image_capacity p) (p_user_page_tables p)
    (p_cr3 p) (p_heap_start p) v (p_heap_chunks p) (p_loaded p) (p_state p) (p_exit_code p)
    (p_runtime_ticks p) (p_switch_count p) (p_preempt_count p) (p_wake_tick p) (p_pending_read_fd p)
    (p_pending_read_buffer p) (p_pending_read_count p) (p_vfs_handles p) (p_fd_table p) (p_context p)
    (p_kernel_stack_top p) (p_kresume_rsp p) (p_is_thread p) (p_cwd p) (p_spawn_arg p) (p_name p) (p_uid
    p) (p_gid p) (p_running_on_cpu p).
Definition set_p_heap_chunks (v : list Z) (p : process) : process := Process (p_pid p) (p_parent_pid p)
    (p_wait_target_pid p) (p_entry p) (p_user_stack_top p) (p_user_virtual_base p) (p_code_size p)
    (p_user_image_allocation p) (p_user_image_pages p) (p_user_image_capacity p) (p_user_page_tables p)
    (p_cr3 p) (p_heap_start p) (p_heap_break p) v (p_loaded p) (p_state p) (p_exit_code p)
    (p_runtime_ticks p) (p_switch_count p) (p_preempt_count p) (p_wake_tick p) (p_pending_read_fd p)
    (p_pending_read_buffer p) (p_pending_read_count p) (p_vfs_handles p) (p_fd_table p) (p_context p)
    (p_kernel_stack_top p) (p_kresume_rsp p) (p_is_thread p) (p_cwd p) (p_spawn_arg p) (p_name p) (p_uid
    p) (p_gid p) (p_running_on_cpu p).
Definition set_p_loaded (v : bool) (p : process) : process := Process (p_pid p) (p_parent_pid p)
    (p_wait_target_pid p) (p_entry p) (p_user_stack_top p) (p_user_virtual_base p) (p_code_size p)
    (p_user_image_allocation p) (p_user_image_pages p) (p_user_image_capacity p) (p_user_page_tables p)
    (p_cr3 p) (p_heap_start p) (p_heap_break p) (p_heap_chunks p) v (p_state p) (p_exit_code p)
    (p_runtime_ticks p) (p_switch_count p) (p_preempt_count p) (p_wake_tick p) (p_pending_read_fd p)
    (p_pending_read_buffer p) (p_pending_read_count p) (p_vfs_handles p) (p_fd_table p) (p_context p)
    (p_kernel_stack_top p) (p_kresume_rsp p) (p_is_thread p) (p_cwd p) (p_spawn_arg p) (p_name p) (p_uid
    p) (p_gid p) (p_running_on_cpu p).
Definition set_p_state (v : process_state) (p : process) : process := Process (p_pid p) (p_parent_pid p)
    (p_wait_target_pid p) (p_entry p) (p_user_stack_top p) (p_user_virtual_base p) (p_code_size p)
    (p_user_image_allocation p) (p_user_image_pages p) (p_user_image_capacity p) (p_user_page_tables p)
    (p_cr3 p) (p_heap_start p) (p_heap_break p) (p_heap_chunks p) (p_loaded p) v (p_exit_code p)
    (p_runtime_ticks p) (p_switch_count p) (p_preempt_count p) (p_wake_tick p) (p_pending_read_fd p)
    (p_pending_read_buffer p) (p_pending_read_count p) (p_vfs_handles p) (p_fd_table p) (p_context p)
    (p_kernel_stack_top p) (p_kresume_rsp p) (p_is_thread p) (p_cwd p) (p_spawn_arg p) (p_name p) (p_uid
    p) (p_gid p) (p_running_on_cpu p).
Definition set_p_exit_code (v : Z) (p : process) : process := Process (p_pid p) (p_parent_pid p)
    (p_wait_target_pid p) (p_entry p) (p_user_stack_top p) (p_user_virtual_base p) (p_code_size p)
    (p_user_image_allocation p) (p_user_image_pages p) (p_user_image_capacity p) (p_user_page_tables p)
    (p_cr3 p) (p_heap_start p) (p_heap_break p) (p_heap_chunks p) (p_loaded p) (p_state p) v
    (p_runtime_ticks p) (p_switch_count p) (p_preempt_count p) (p_wake_tick p) (p_pending_read_fd p)
    (p_pending_read_buffer p) (p_pending_read_count p) (p_vfs_handles p) (p_fd_table p) (p_context p)
    (p_kernel_stack_top p) (p_kresume_rsp p) (p_is_thread p) (p_cwd p) (p_spawn_arg p) (p_name p) (p_uid
    p) (p_gid p) (p_running_on_cpu p).
Definition set_p_runtime_ticks (v : Z) (p : process) : process := Process (p_pid p) (p_parent_pid p)
    (p_wait_target_pid p) (p_entry p) (p_user_stack_top p) (p_user_virtual_base p) (p_code_size p)
    (p_user_image_allocation p) (p_user_image_pages p) (p_user_image_capacity p) (p_user_page_tables p)
    (p_cr3 p) (p_heap_start p) (p_heap_break p) (p_heap_chunks p) (p_loaded p) (p_state p) (p_exit_code
    p) v (p_switch_count p) (p_preempt_count p) (p_wake_tick p) (p_pending_read_fd p)
    (p_pending_read_buffer p) (p_pending_read_count p) (p_vfs_handles p) (p_fd_table p) (p_context p)
    (p_kernel_stack_top p) (p_kresume_rsp p) (p_is_thread p) (p_cwd p) (p_spawn_arg p) (p_name p) (p_uid
    p) (p_gid p) (p_running_on_cpu p).
Definition set_p_switch_count (v : Z) (p : process) : process := Process (p_pid p) (p_parent_pid p)
    (p_wait_target_pid p) (p_entry p) (p_user_stack_top p) (p_user_virtual_base p) (p_code_size p)
    (p_user_image_allocation p) (p_user_image_pages p) (p_user_image_capacity p) (p_user_page_tables p)
    (p_cr3 p) (p_heap_start p) (p_heap_break p) (p_heap_chunks p) (p_loaded p) (p_state p) (p_exit_code
    p) (p_runtime_ticks p) v (p_preempt_count p) (p_wake_tick p) (p_pending_read_fd p)
    (p_pending_read_buffer p) (p_pending_read_count p) (p_vfs_handles p) (p_fd_table p) (p_context p)
    (p_kernel_stack_top p) (p_kresume_rsp p) (p_is_thread p) (p_cwd p) (p_spawn_arg p) (p_name p) (p_uid
    p) (p_gid p) (p_running_on_cpu p).
Definition set_p_preempt_count (v : Z) (p : process) : process := Process (p_pid p) (p_parent_pid p)
    (p_wait_target_pid p) (p_entry p) (p_user_stack_top p) (p_user_virtual_base p) (p_code_size p)
    (p_user_image_allocation p) (p_user_image_pages p) (p_user_image_capacity p) (p_user_page_tables p)
    (p_cr3 p) (p_heap_start p) (p_heap_break p) (p_heap_chunks p) (p_loaded p) (p_state p) (p_exit_code
    p) (p_runtime_ticks p) (p_switch_count p) v (p_wake_tick p) (p_pending_read_fd p)
    (p_pending_read_buffer p) (p_pending_read_count p) (p_vfs_handles p) (p_fd_table p) (p_context p)
    (p_kernel_stack_top p) (p_kresume_rsp p) (p_is_thread p) (p_cwd p) (p_spawn_arg p) (p_name p) (p_uid
    p) (p_gid p) (p_running_on_cpu p).
Definition set_p_wake_tick (v : Z) (p : process) : process := Process (p_pid p) (p_parent_pid p)
    (p_wait_target_pid p) (p_entry p) (p_user_stack_top p) (p_user_virtual_base p) (p_code_size p)
    (p_user_image_allocation p) (p_user_image_pages p) (p_user_image_capacity p) (p_user_page_tables p)
    (p_cr3 p) (p_heap_start p) (p_heap_break p) (p_heap_chunks p) (p_loaded p) (p_state p) (p_exit_code
    p) (p_runtime_ticks p) (p_switch_count p) (p_preempt_count p) v (p_pending_read_fd p)
    (p_pending_read_buffer p) (p_pending_read_count p) (p_vfs_handles p) (p_fd_table p) (p_context p)
    (p_kernel_stack_top p) (p_kresume_rsp p) (p_is_thread p) (p_cwd p) (p_spawn_arg p) (p_name p) (p_uid
    p) (p_gid p) (p_running_on_cpu p).
Definition set_p_pending_read_fd (v : Z) (p : process) : process := Process (p_pid p) (p_parent_pid p)
    (p_wait_target_pid p) (p_entry p) (p_user_stack_top p) (p_user_virtual_base p) (p_code_size p)
    (p_user_image_allocation p) (p_user_image_pages p) (p_user_image_capacity p) (p_user_page_tables p)
    (p_cr3 p) (p_heap_start p) (p_heap_break p) (p_heap_chunks p) (p_loaded p) (p_state p) (p_exit_code
    p) (p_runtime_ticks p) (p_switch_count p) (p_preempt_count p) (p_wake_tick p) v
    (p_pending_read_buffer p) (p_pending_read_count p) (p_vfs_handles p) (p_fd_table p) (p_context p)
    (p_kernel_stack_top p) (p_kresume_rsp p) (p_is_thread p) (p_cwd p) (p_spawn_arg p) (p_name p) (p_uid
    p) (p_gid p) (p_running_on_cpu p).
Definition set_p_pending_read_buffer (v : Z) (p : process) : process := Process (p_pid p) (p_parent_pid
    p) (p_wait_target_pid p) (p_entry p) (p_user_stack_top p) (p_user_virtual_base p) (p_code_size p)
    (p_user_image_allocation p) (p_user_image_pages p) (p_user_image_capacity p) (p_user_page_tables p)
    (p_cr3 p) (p_heap_start p) (p_heap_break p) (p_heap_chunks p) (p_loaded p) (p_state p) (p_exit_code
    p) (p_runtime_ticks p) (p_switch_count p) (p_preempt_count p) (p_wake_tick p) (p_pending_read_fd p)
    v (p_pending_read_count p) (p_vfs_handles p) (p_fd_table p) (p_context p) (p_kernel_stack_top p)
    (p_kresume_rsp p) (p_is_thread p) (p_cwd p) (p_spawn_arg p) (p_name p) (p_uid p) (p_gid p)
    (p_running_on_cpu p).
Definition set_p_pending_read_count (v : Z) (p : process) : process := Process (p_pid p) (p_parent_pid
    p) (p_wait_target_pid p) (p_entry p) (p_user_stack_top p) (p_user_virtual_base p) (p_code_size p)
    (p_user_image_allocation p) (p_user_image_pages p) (p_user_image_capacity p) (p_user_page_tables p)
    (p_cr3 p) (p_heap_start p) (p_heap_break p) (p_heap_chunks p) (p_loaded p) (p_state p) (p_exit_code
    p) (p_runtime_ticks p) (p_switch_count p) (p_preempt_count p) (p_wake_tick p) (p_pending_read_fd p)
    (p_pending_read_buffer p) v (p_vfs_handles p) (p_fd_table p) (p_context p) (p_kernel_stack_top p)
    (p_kresume_rsp p) (p_is_thread p) (p_cwd p) (p_spawn_arg p) (p_name p) (p_uid p) (p_gid p)
    (p_running_on_cpu p).
Definition set_p_vfs_handles (v : list vfs_handle) (p : process) : process := Process (p_pid p)
    (p_parent_pid p) (p_wait_target_pid p) (p_entry p) (p_user_stack_top p) (p_user_virtual_base p)
    (p_code_size p) (p_user_image_allocation p) (p_user_image_pages p) (p_user_image_capacity p)
    (p_user_page_tables p) (p_cr3 p) (p_heap_start p) (p_heap_break p) (p_heap_chunks p) (p_loaded p)
    (p_state p) (p_exit_code p) (p_runtime_ticks p) (p_switch_count p) (p_preempt_count p) (p_wake_tick
    p) (p_pending_read_fd p) (p_pending_read_buffer p) (p_pending_read_count p) v (p_fd_table p)
    (p_context p) (p_kernel_stack_top p) (p_kresume_rsp p) (p_is_thread p) (p_cwd p) (p_spawn_arg p)
    (p_name p) (p_uid p) (p_gid p) (p_running_on_cpu p).
Definition set_p_fd_table (v : list fd_entry) (p : process) : process := Process (p_pid p) (p_parent_pid
    p) (p_wait_target_pid p) (p_entry p) (p_user_stack_top p) (p_user_virtual_base p) (p_code_size p)
    (p_user_image_allocation p) (p_user_image_pages p) (p_user_image_capacity p) (p_user_page_tables p)
    (p_cr3 p) (p_heap_start p) (p_heap_break p) (p_heap_chunks p) (p_loaded p) (p_state p) (p_exit_code
    p) (p_runtime_ticks p) (p_switch_count p) (p_preempt_count p) (p_wake_tick p) (p_pending_read_fd p)
    (p_pending_read_buffer p) (p_pending_read_count p) (p_vfs_handles p) v (p_context p)
    (p_kernel_stack_top p) (p_kresume_rsp p) (p_is_thread p) (p_cwd p) (p_spawn_arg p) (p_name p) (p_uid
    p) (p_gid p) (p_running_on_cpu p).
Definition set_p_context (v : interrupt_frame) (p : process) : process := Process (p_pid p)
    (p_parent_pid p) (p_wait_target_pid p) (p_entry p) (p_user_stack_top p) (p_user_virtual_base p)
    (p_code_size p) (p_user_image_allocation p) (p_user_image_pages p) (p_user_image_capacity p)
    (p_user_page_tables p) (p_cr3 p) (p_heap_start p) (p_heap_break p) (p_heap_chunks p) (p_loaded p)
    (p_state p) (p_exit_code p) (p_runtime_ticks p) (p_switch_count p) (p_preempt_count p) (p_wake_tick
    p) (p_pending_read_fd p) (p_pending_read_buffer p) (p_pending_read_count p) (p_vfs_handles p)
    (p_fd_table p) v (p_kernel_stack_top p) (p_kresume_rsp p) (p_is_thread p) (p_cwd p) (p_spawn_arg p)
    (p_name p) (p_uid p) (p_gid p) (p_running_on_cpu p).
Definition set_p_kernel_stack_top (v : Z) (p : process) : process := Process (p_pid p) (p_parent_pid p)
    (p_wait_target_pid p) (p_entry p) (p_user_stack_top p) (p_user_virtual_base p) (p_code_size p)
    (p_user_image_allocation p) (p_user_image_pages p) (p_user_image_capacity p) (p_user_page_tables p)
    (p_cr3 p) (p_heap_start p) (p_heap_break p) (p_heap_chunks p) (p_loaded p) (p_state p) (p_exit_code
    p) (p_runtime_ticks p) (p_switch_count p) (p_preempt_count p) (p_wake_tick p) (p_pending_read_fd p)
    (p_pending_read_buffer p) (p_pending_read_count p) (p_vfs_handles p) (p_fd_table p) (p_context p) v
    (p_kresume_rsp p) (p_is_thread p) (p_cwd p) (p_spawn_arg p) (p_name p) (p_uid p) (p_gid p)
    (p_running_on_cpu p).
Definition set_p_kresume_rsp (v : Z) (p : process) : process := Process (p_pid p) (p_parent_pid p)
    (p_wait_target_pid p) (p_entry p) (p_user_stack_top p) (p_user_virtual_base p) (p_code_size p)
    (p_user_image_allocation p) (p_user_image_pages p) (p_user_image_capacity p) (p_user_page_tables p)
    (p_cr3 p) (p_heap_start p) (p_heap_break p) (p_heap_chunks p) (p_loaded p) (p_state p) (p_exit_code
    p) (p_runtime_ticks p) (p_switch_count p) (p_preempt_count p) (p_wake_tick p) (p_pending_read_fd p)
    (p_pending_read_buffer p) (p_pending_read_count p) (p_vfs_handles p) (p_fd_table p) (p_context p)
    (p_kernel_stack_top p) v (p_is_thread p) (p_cwd p) (p_spawn_arg p) (p_name p) (p_uid p) (p_gid p)
    (p_running_on_cpu p).
Definition set_p_is_thread (v : bool) (p : process) : process := Process (p_pid p) (p_parent_pid p)
    (p_wait_target_pid p) (p_entry p) (p_user_stack_top p) (p_user_virtual_base p) (p_code_size p)
    (p_user_image_allocation p) (p_user_image_pages p) (p_user_image_capacity p) (p_user_page_tables p)
    (p_cr3 p) (p_heap_start p) (p_heap_break p) (p_heap_chunks p) (p_loaded p) (p_state p) (p_exit_code
    p) (p_runtime_ticks p) (p_switch_count p) (p_preempt_count p) (p_wake_tick p) (p_pending_read_fd p)
    (p_pending_read_buffer p) (p_pending_read_count p) (p_vfs_handles p) (p_fd_table p) (p_context p)
    (p_kernel_stack_top p) (p_kresume_rsp p) v (p_cwd p) (p_spawn_arg p) (p_name p) (p_uid p) (p_gid p)
    (p_running_on_cpu p).
Definition set_p_cwd (v : list Z) (p : process) : process := Process (p_pid p) (p_parent_pid p)
    (p_wait_target_pid p) (p_entry p) (p_user_stack_top p) (p_user_virtual_base p) (p_code_size p)
    (p_user_image_allocation p) (p_user_image_pages p) (p_user_image_capacity p) (p_user_page_tables p)
    (p_cr3 p) (p_heap_start p) (p_heap_break p) (p_heap_chunks p) (p_loaded p) (p_state p) (p_exit_code
    p) (p_runtime_ticks p) (p_switch_count p) (p_preempt_count p) (p_wake_tick p) (p_pending_read_fd p)
    (p_pending_read_buffer p) (p_pending_read_count p) (p_vfs_handles p) (p_fd_table p) (p_context p)
    (p_kernel_stack_top p) (p_kresume_rsp p) (p_is_thread p) v (p_spawn_arg p) (p_name p) (p_uid p)
    (p_gid p) (p_running_on_cpu p).
Definition set_p_spawn_arg (v : list Z) (p : process) : process := Process (p_pid p) (p_parent_pid p)
    (p_wait_target_pid p) (p_entry p) (p_user_stack_top p) (p_user_virtual_base p) (p_code_size p)
    (p_user_image_allocation p) (p_user_image_pages p) (p_user_image_capacity p) (p_user_page_tables p)
    (p_cr3 p) (p_heap_start p) (p_heap_break p) (p_heap_chunks p) (p_loaded p) (p_state p) (p_exit_code
    p) (p_runtime_ticks p) (p_switch_count p) (p_preempt_count p) (p_wake_tick p) (p_pending_read_fd p)
    (p_pending_read_buffer p) (p_pending_read_count p) (p_vfs_handles p) (p_fd_table p) (p_context p)
    (p_kernel_stack_top p) (p_kresume_rsp p) (p_is_thread p) (p_cwd p) v (p_name p) (p_uid p) (p_gid p)
    (p_running_on_cpu p).
Definition set_p_name (v : list Z) (p : process) : process := Process (p_pid p) (p_parent_pid p)
    (p_wait_target_pid p) (p_entry p) (p_user_stack_top p) (p_user_virtual_base p) (p_code_size p)
    (p_user_image_allocation p) (p_user_image_pages p) (p_user_image_capacity p) (p_user_page_tables p)
    (p_cr3 p) (p_heap_start p) (p_heap_break p) (p_heap_chunks p) (p_loaded p) (p_state p) (p_exit_code
    p) (p_runtime_ticks p) (p_switch_count p) (p_preempt_count p) (p_wake_tick p) (p_pending_read_fd p)
    (p_pending_read_buffer p) (p_pending_read_count p) (p_vfs_handles p) (p_fd_table p) (p_context p)
    (p_kernel_stack_top p) (p_kresume_rsp p) (p_is_thread p) (p_cwd p) (p_spawn_arg p) v (p_uid p)
    (p_gid p) (p_running_on_cpu p).
Definition set_p_uid (v : Z) (p : process) : process := Process (p_pid p) (p_parent_pid p)
    (p_wait_target_pid p) (p_entry p) (p_user_stack_top p) (p_user_virtual_base p) (p_code_size p)
    (p_user_image_allocation p) (p_user_image_pages p) (p_user_image_capacity p) (p_user_page_tables p)
    (p_cr3 p) (p_heap_start p) (p_heap_break p) (p_heap_chunks p) (p_loaded p) (p_state p) (p_exit_code
    p) (p_runtime_ticks p) (p_switch_count p) (p_preempt_count p) (p_wake_tick p) (p_pending_read_fd p)
    (p_pending_read_buffer p) (p_pending_read_count p) (p_vfs_handles p) (p_fd_table p) (p_context p)
    (p_kernel_stack_top p) (p_kresume_rsp p) (p_is_thread p) (p_cwd p) (p_spawn_arg p) (p_name p) v
    (p_gid p) (p_running_on_cpu p).
Definition set_p_gid (v : Z) (p : process) : process := Process (p_pid p) (p_parent_pid p)
    (p_wait_target_pid p) (p_entry p) (p_user_stack_top p) (p_user_virtual_base p) (p_code_size p)
    (p_user_image_allocation p) (p_user_image_pages p) (p_user_image_capacity p) (p_user_page_tables p)
    (p_cr3 p) (p_heap_start p) (p_heap_break p) (p_heap_chunks p) (p_loaded p) (p_state p) (p_exit_code
    p) (p_runtime_ticks p) (p_switch_count p) (p_preempt_count p) (p_wake_tick p) (p_pending_read_fd p)
    (p_pending_read_buffer p) (p_pending_read_count p) (p_vfs_handles p) (p_fd_table p) (p_context p)
    (p_kernel_stack_top p) (p_kresume_rsp p) (p_is_thread p) (p_cwd p) (p_spawn_arg p) (p_name p) (p_uid
    p) v (p_running_on_cpu p).
Definition set_p_running_on_cpu (v : Z) (p : process) : process := Process (p_pid p) (p_parent_pid p)
    (p_wait_target_pid p) (p_entry p) (p_user_stack_top p) (p_user_virtual_base p) (p_code_size p)
    (p_user_image_allocation p) (p_user_image_pages p) (p_user_image_capacity p) (p_user_page_tables p)
    (p_cr3 p) (p_heap_start p) (p_heap_break p) (p_heap_chunks p) (p_loaded p) (p_state p) (p_exit_code
    p) (p_runtime_ticks p) (p_switch_count p) (p_preempt_count p) (p_wake_tick p) (p_pending_read_fd p)
    (p_pending_read_buffer p) (p_pending_read_count p) (p_vfs_handles p) (p_fd_table p) (p_context p)
    (p_kernel_stack_top p) (p_kresume_rsp p) (p_is_thread p) (p_cwd p) (p_spawn_arg p) (p_name p) (p_uid
    p) (p_gid p) v.

(** [struct cpu] *)
Record cpu := Cpu {
  c_current : option Z;   (* a slot; None is NULL *)
  c_sched_cursor : Z;
  c_resume_result : Z;
  c_ticks : Z;
  c_busy_ticks : Z;
  c_slices : Z;
  c_cr3 : Z;   (* the register *)
  c_rsp0 : Z;   (* TSS.rsp0 *)
  c_slice : option Z }.   (* the local variable process of a suspended process_run_ready_slice *)

Definition set_c_current (v : option Z) (c : cpu) : cpu := Cpu v (c_sched_cursor c) (c_resume_result c)
    (c_ticks c) (c_busy_ticks c) (c_slices c) (c_cr3 c) (c_rsp0 c) (c_slice c).
Definition set_c_sched_cursor (v : Z) (c : cpu) : cpu := Cpu (c_current c) v (c_resume_result c)
    (c_ticks c) (c_busy_ticks c) (c_slices c) (c_cr3 c) (c_rsp0 c) (c_slice c).
Definition set_c_resume_result (v : Z) (c : cpu) : cpu := Cpu (c_current c) (c_sched_cursor c) v
    (c_ticks c) (c_busy_ticks c) (c_slices c) (c_cr3 c) (c_rsp0 c) (c_slice c).
Definition set_c_ticks (v : Z) (c : cpu) : cpu := Cpu (c_current c) (c_sched_cursor c) (c_resume_result
    c) v (c_busy_ticks c) (c_slices c) (c_cr3 c) (c_rsp0 c) (c_slice c).
Definition set_c_busy_ticks (v : Z) (c : cpu) : cpu := Cpu (c_current c) (c_sched_cursor c)
    (c_resume_result c) (c_ticks c) v (c_slices c) (c_cr3 c) (c_rsp0 c) (c_slice c).
Definition set_c_slices (v : Z) (c : cpu) : cpu := Cpu (c_current c) (c_sched_cursor c) (c_resume_result
    c) (c_ticks c) (c_busy_ticks c) v (c_cr3 c) (c_rsp0 c) (c_slice c).
Definition set_c_cr3 (v : Z) (c : cpu) : cpu := Cpu (c_current c) (c_sched_cursor c) (c_resume_result c)
    (c_ticks c) (c_busy_ticks c) (c_slices c) v (c_rsp0 c) (c_slice c).
Definition set_c_rsp0 (v : Z) (c : cpu) : cpu := Cpu (c_current c) (c_sched_cursor c) (c_resume_result
    c) (c_ticks c) (c_busy_ticks c) (c_slices c) (c_cr3 c) v (c_slice c).
Definition set_c_slice (v : option Z) (c : cpu) : cpu := Cpu (c_current c) (c_sched_cursor c)
    (c_resume_result c) (c_ticks c) (c_busy_ticks c) (c_slices c) (c_cr3 c) (c_rsp0 c) v.

Section Kernel.
Context {H I : Type}.

(** The globals of process.c and what it reaches. *)
Record kernel := Kernel {
  k_processes : list process;   (* g_processes *)
  k_next_pid : Z;   (* g_next_pid *)
  k_cpus : list cpu;
  k_wm_requested : Z;   (* g_window_manager_requested *)
  k_desktop_uid : Z;   (* g_desktop_uid *)
  k_desktop : bool;   (* desktop_active() is not NULL *)
  k_quarantine : list Z;   (* used part of g_image_alloc_quarantine, last first *)
  k_heap : H;   (* kmalloc *)
  k_aux : option I;   (* the image heap, if it was set up *)
  k_mem : Z -> Z;   (* bytes of physical memory *)
  k_page_tables : list (gmap Z Z);   (* g_user_page_tables; an absent entry is 0 *)
  k_upper : list upper_tables;   (* g_proc_pml4, g_proc_pdp, g_proc_pd0 *)
  k_canaries : list Z;   (* lowest word of each kernel stack *)
  k_ttys : gmap Z tty_input;   (* terminals by address *)
  k_tick : Z;   (* timer_tick_count *)
  k_layout : layout;
  k_calls : list outcall }.   (* calls into other components, latest first *)

Definition set_k_processes (v : list process) (k : kernel) : kernel := Kernel v (k_next_pid k) (k_cpus
    k) (k_wm_requested k) (k_desktop_uid k) (k_desktop k) (k_quarantine k) (k_heap k) (k_aux k) (k_mem
    k) (k_page_tables k) (k_upper k) (k_canaries k) (k_ttys k) (k_tick k) (k_layout k) (k_calls k).
Definition set_k_next_pid (v : Z) (k : kernel) : kernel := Kernel (k_processes k) v (k_cpus k)
    (k_wm_requested k) (k_desktop_uid k) (k_desktop k) (k_quarantine k) (k_heap k) (k_aux k) (k_mem k)
    (k_page_tables k) (k_upper k) (k_canaries k) (k_ttys k) (k_tick k) (k_layout k) (k_calls k).
Definition set_k_cpus (v : list cpu) (k : kernel) : kernel := Kernel (k_processes k) (k_next_pid k) v
    (k_wm_requested k) (k_desktop_uid k) (k_desktop k) (k_quarantine k) (k_heap k) (k_aux k) (k_mem k)
    (k_page_tables k) (k_upper k) (k_canaries k) (k_ttys k) (k_tick k) (k_layout k) (k_calls k).
Definition set_k_wm_requested (v : Z) (k : kernel) : kernel := Kernel (k_processes k) (k_next_pid k)
    (k_cpus k) v (k_desktop_uid k) (k_desktop k) (k_quarantine k) (k_heap k) (k_aux k) (k_mem k)
    (k_page_tables k) (k_upper k) (k_canaries k) (k_ttys k) (k_tick k) (k_layout k) (k_calls k).
Definition set_k_desktop_uid (v : Z) (k : kernel) : kernel := Kernel (k_processes k) (k_next_pid k)
    (k_cpus k) (k_wm_requested k) v (k_desktop k) (k_quarantine k) (k_heap k) (k_aux k) (k_mem k)
    (k_page_tables k) (k_upper k) (k_canaries k) (k_ttys k) (k_tick k) (k_layout k) (k_calls k).
Definition set_k_desktop (v : bool) (k : kernel) : kernel := Kernel (k_processes k) (k_next_pid k)
    (k_cpus k) (k_wm_requested k) (k_desktop_uid k) v (k_quarantine k) (k_heap k) (k_aux k) (k_mem k)
    (k_page_tables k) (k_upper k) (k_canaries k) (k_ttys k) (k_tick k) (k_layout k) (k_calls k).
Definition set_k_quarantine (v : list Z) (k : kernel) : kernel := Kernel (k_processes k) (k_next_pid k)
    (k_cpus k) (k_wm_requested k) (k_desktop_uid k) (k_desktop k) v (k_heap k) (k_aux k) (k_mem k)
    (k_page_tables k) (k_upper k) (k_canaries k) (k_ttys k) (k_tick k) (k_layout k) (k_calls k).
Definition set_k_heap (v : H) (k : kernel) : kernel := Kernel (k_processes k) (k_next_pid k)
    (k_cpus k) (k_wm_requested k) (k_desktop_uid k) (k_desktop k) (k_quarantine k) v (k_aux k) (k_mem k)
    (k_page_tables k) (k_upper k) (k_canaries k) (k_ttys k) (k_tick k) (k_layout k) (k_calls k).
Definition set_k_aux (v : option I) (k : kernel) : kernel := Kernel (k_processes k) (k_next_pid k)
    (k_cpus k) (k_wm_requested k) (k_desktop_uid k) (k_desktop k) (k_quarantine k) (k_heap k) v (k_mem
    k) (k_page_tables k) (k_upper k) (k_canaries k) (k_ttys k) (k_tick k) (k_layout k) (k_calls k).
Definition set_k_mem (v : Z -> Z) (k : kernel) : kernel := Kernel (k_processes k) (k_next_pid k) (k_cpus
    k) (k_wm_requested k) (k_desktop_uid k) (k_desktop k) (k_quarantine k) (k_heap k) (k_aux k) v
    (k_page_tables k) (k_upper k) (k_canaries k) (k_ttys k) (k_tick k) (k_layout k) (k_calls k).
Definition set_k_page_tables (v : list (gmap Z Z)) (k : kernel) : kernel := Kernel (k_processes k)
    (k_next_pid k) (k_cpus k) (k_wm_requested k) (k_desktop_uid k) (k_desktop k) (k_quarantine k)
    (k_heap k) (k_aux k) (k_mem k) v (k_upper k) (k_canaries k) (k_ttys k) (k_tick k) (k_layout k)
    (k_calls k).
Definition set_k_upper (v : list upper_tables) (k : kernel) : kernel := Kernel (k_processes k)
    (k_next_pid k) (k_cpus k) (k_wm_requested k) (k_desktop_uid k) (k_desktop k) (k_quarantine k)
    (k_heap k) (k_aux k) (k_mem k) (k_page_tables k) v (k_canaries k) (k_ttys k) (k_tick k) (k_layout k)
    (k_calls k).
Definition set_k_canaries (v : list Z) (k : kernel) : kernel := Kernel (k_processes k) (k_next_pid k)
    (k_cpus k) (k_wm_requested k) (k_desktop_uid k) (k_desktop k) (k_quarantine k) (k_heap k) (k_aux k)
    (k_mem k) (k_page_tables k) (k_upper k) v (k_ttys k) (k_tick k) (k_layout k) (k_calls k).
Definition set_k_ttys (v : gmap Z tty_input) (k : kernel) : kernel := Kernel (k_processes k) (k_next_pid
    k) (k_cpus k) (k_wm_requested k) (k_desktop_uid k) (k_desktop k) (k_quarantine k) (k_heap k) (k_aux
    k) (k_mem k) (k_page_tables k) (k_upper k) (k_canaries k) v (k_tick k) (k_layout k) (k_calls k).
Definition set_k_tick (v : Z) (k : kernel) : kernel := Kernel (k_processes k) (k_next_pid k) (k_cpus k)
    (k_wm_requested k) (k_desktop_uid k) (k_desktop k) (k_quarantine k) (k_heap k) (k_aux k) (k_mem k)
    (k_page_tables k) (k_upper k) (k_canaries k) (k_ttys k) v (k_layout k) (k_calls k).
Definition set_k_layout (v : layout) (k : kernel) : kernel := Kernel (k_processes k) (k_next_pid k)
    (k_cpus k) (k_wm_requested k) (k_desktop_uid k) (k_desktop k) (k_quarantine k) (k_heap k) (k_aux k)
    (k_mem k) (k_page_tables k) (k_upper k) (k_canaries k) (k_ttys k) (k_tick k) v (k_calls k).
Definition set_k_calls (v : list outcall) (k : kernel) : kernel := Kernel (k_processes k) (k_next_pid k)
    (k_cpus k) (k_wm_requested k) (k_desktop_uid k) (k_desktop k) (k_quarantine k) (k_heap k) (k_aux k)
    (k_mem k) (k_page_tables k) (k_upper k) (k_canaries k) (k_ttys k) (k_tick k) (k_layout k) v.
End Kernel.
Arguments kernel : clear implicits.

End ProcState.
