(* ===== verification/Process.v ===== *)
(** * Process: processes and the scheduler (kernel/src/process.c,
    kernel/src/paging.c)

    The process table and its operations in the [ST] monad: loading images,
    threads, the demand-grown heap, waiting, sleeping, killing and reaping, the
    round-robin scheduler and the interrupt handlers.  The functions that ask for
    this_cpu() take the index [c] of the CPU they run on.  Kernel code runs under
    the big kernel lock, so one call is one atomic step; [process_run_ready_slice]
    gives the lock up while the process runs and is modelled as the two halves
    before and after that ([run_slice_enter], [run_slice_leave]). *)

From Stdlib Require Import ZArith Lia Bool ZifyBool.
From stdpp Require Import base numbers option list list_numbers gmap.
From S2P Require Import Prelude StateM ProcState Elf.

Open Scope Z_scope.

Module Process.
Import ProcState Elf.

Section Process.
Context {H I : Type} {HP : PageHeap H} {IP : PageHeap I}.
Abbreviation kernel := (kernel H I).
Abbreviation K := (ST kernel).

(** The value of a 64-bit register, or of its low half, as a signed integer. *)
Definition sgn64 (v : Z) : Z := if v <? 2 ^ 63 then v else v - 2 ^ 64.
Definition sgn32 (v : Z) : Z := if u32 v <? 2 ^ 31 then u32 v else u32 v - 2 ^ 32.

(** ** Access to the tables *)

Definition proc (i : Z) : K process := ps ← reads k_processes; must (aget ps i).
Definition on_proc (i : Z) (f : process -> process) : K () :=
  try_update (fun k => p ← aget (k_processes k) i; ps ← aset (k_processes k) i (f p);
                       Some (set_k_processes ps k)).
Definition this_cpu (c : Z) : K cpu := cs ← reads k_cpus; must (aget cs c).
Definition on_cpu (c : Z) (f : cpu -> cpu) : K () :=
  try_update (fun k => x ← aget (k_cpus k) c; cs ← aset (k_cpus k) c (f x); Some (set_k_cpus cs k)).
Definition call (o : outcall) : K () := update (fun k => set_k_calls (o :: k_calls k) k).

Definition slots : list Z := seqZ 0 PROCESS_MAX_COUNT.

(** The first slot whose process satisfies [f]. *)
Fixpoint find_slot (f : Z -> process -> bool) (i : Z) (ps : list process) : option Z :=
  match ps with
  | [] => None
  | p :: ps' => if f i p then Some i else find_slot f (i + 1) ps'
  end.

(** ** Allocation *)

Definition kmalloc (n : Z) : K Z :=
  h ← reads k_heap; '(p, h') ← must (ph_alloc n h); _ ← update (set_k_heap h'); mret p.
Definition kfree (p : Z) : K () :=
  h ← reads k_heap; h' ← must (ph_free p h); update (set_k_heap h').
Definition image_alloc (a : I) (n : Z) : K Z :=
  '(p, a') ← must (ph_alloc n a); _ ← update (set_k_aux (Some a')); mret p.
Definition image_free (a : I) (p : Z) : K () := a' ← must (ph_free p a); update (set_k_aux (Some a')).

Definition align_up_page_size (v : Z) : Z := Z.land (u64 (v + 0xfff)) (u64 (Z.lnot 0xfff)).
Definition align_up_page_uintptr (v : Z) : Z := Z.land (u64 (v + 0xfff)) (u64 (Z.lnot 0xfff)).
Definition align_ptr_4k (v : Z) : Z := Z.land (u64 (v + 0xfff)) (u64 (Z.lnot 0xfff)).
Definition align_up_size (v a : Z) : Z := Z.land (u64 (v + a - 1)) (u64 (Z.lnot (a - 1))).

Definition memory_zero (dest count : Z) : K () :=
  update (fun k => set_k_mem (fun a => if (dest <=? a) && (a <? dest + count) then 0 else k_mem k a) k).
Definition memory_copy (dest : Z) (src : list Z) : K () :=
  update (fun k => set_k_mem (fun a => if (dest <=? a) && (a <? dest + Z.of_nat (length src))
                                       then default 0 (aget src (a - dest)) else k_mem k a) k).

Definition process_slot_base (slot : Z) : Z := PROCESS_USER_BASE.
Definition process_slot_stack_top (slot : Z) : Z := process_slot_base slot + PROCESS_USER_STACK_TOP_OFFSET.

Definition range_overlaps (a_start a_size b_start b_size : Z) : bool :=
  if (a_size =? 0) || (b_size =? 0) then false
  else
    let a_end := u64 (a_start + a_size) in
    let b_end := u64 (b_start + b_size) in
    if (a_end <? a_start) || (b_end <? b_start) then true
    else (a_start <? b_end) && (b_start <? a_end).

Definition process_range_overlaps_live_image (ps : list process) (start size : Z) (skip : option Z) : option Z :=
  find_slot (fun i p =>
    if bool_decide (skip = Some i) || negb (p_loaded p) || p_is_thread p
       || (p_user_image_pages p =? 0) || (p_user_image_capacity p =? 0) then false
    else range_overlaps start size (p_user_image_pages p) (p_user_image_capacity p)) 0 ps.

(** The retry loop over blocks that alias a live image. *)
Fixpoint alloc_attempts (n : nat) (size : Z) (skip : option Z) : K Z :=
  match n with
  | O => mret 0
  | Datatypes.S n' =>
      ptr ← kmalloc size;
      if ptr =? 0 then mret 0
      else
        ps ← reads k_processes;
        match process_range_overlaps_live_image ps ptr size skip with
        | None => mret ptr
        | Some _ =>
            q ← reads k_quarantine;
            if PROCESS_IMAGE_ALLOC_QUARANTINE_CAP <=? Z.of_nat (length q) then mret 0
            else _ ← update (set_k_quarantine (ptr :: q)); alloc_attempts n' size skip
        end
  end.

Definition process_kmalloc_no_image_overlap (size : Z) (skip : option Z) : K Z :=
  q ← reads k_quarantine;
  _ ← each kfree q; _ ← update (set_k_quarantine []);
  alloc_attempts (Z.to_nat PROCESS_IMAGE_ALLOC_QUARANTINE_CAP) size skip.

Definition process_image_alloc (size : Z) (skip : option Z) : K Z :=
  a ← reads k_aux;
  match a with
  | Some a => image_alloc a size
  | None => process_kmalloc_no_image_overlap size skip
  end.

Definition process_image_free (ptr : Z) : K () :=
  if ptr =? 0 then mret ()
  else
    a ← reads k_aux;
    match a with
    | Some a => image_free a ptr
    | None => kfree ptr
    end.

(** ** Descriptors, handles and strings *)

Definition empty_handle : vfs_handle := VfsHandle 0 0 false 0 [] 0.

(** Three fields are cleared; the others keep what they held. *)
Definition process_reset_vfs_handles (p : process) : process :=
  set_p_vfs_handles ((fun h => VfsHandle 0 0 false (h_kind h) (h_path h) (h_cached_ino h)) <$> p_vfs_handles p) p.

Definition empty_entry : fd_entry := FdEntry None 0 false.

(** fd_table_init and three times fd_bind. *)
Definition stdio_table (o : ops_ref) (obj : Z) : list fd_entry :=
  replicate 3 (FdEntry (Some o) obj true) ++ replicate 13 empty_entry.

(** "process" *)
Definition default_name : list Z := [112; 114; 111; 99; 101; 115; 115].

Definition process_set_name (name : list Z) (p : process) : process :=
  set_p_name (take 31 (if decide (name = []) then default_name else name)) p.

(** [process_copy_user_string dest capacity src]: the bytes copied, and whether
    the string ended in time.  [peek] gives the bytes of user memory. *)
Fixpoint copy_user_from (n : nat) (peek : Z -> Z) (src : Z) : list Z * bool :=
  match n with
  | O => ([], false)
  | Datatypes.S n' =>
      let ch := peek src in
      if ch =? 0 then ([], true)
      else let '(s, ok) := copy_user_from n' peek (src + 1) in (ch :: s, ok)
  end.

Definition process_copy_user_string (capacity : Z) (peek : Z -> Z) (src : Z) : list Z * bool :=
  if src =? 0 then ([], false) else copy_user_from (Z.to_nat (capacity - 1)) peek src.

(** ** Finding processes *)

Definition process_find_by_pid (pid : Z) : K (option Z) :=
  if pid =? 0 then mret None
  else ps ← reads k_processes; mret (find_slot (fun _ p => p_loaded p && (p_pid p =? pid)) 0 ps).

Definition exited_child (parent_pid wait_target_pid : Z) (p : process) : bool :=
  if negb (p_loaded p) || negb (state_is (p_state p) EXITED) || negb (p_running_on_cpu p =? -1)
     || negb (p_parent_pid p =? parent_pid) then false
  else (wait_target_pid =? 0) || (p_pid p =? wait_target_pid).

Definition process_find_exited_child (parent_pid wait_target_pid : Z) : K (option Z) :=
  ps ← reads k_processes; mret (find_slot (fun _ => exited_child parent_pid wait_target_pid) 0 ps).

Definition process_address_space_owner (i : Z) : K Z :=
  p ← proc i;
  if negb (p_is_thread p) then mret i
  else
    ps ← reads k_processes;
    mret (default i (find_slot (fun _ q => p_loaded q && negb (p_is_thread q)
            && (p_user_page_tables q =? p_user_page_tables p) && (p_cr3 q =? p_cr3 p)) 0 ps)).

(** ** Reaping *)

Definition process_free_heap_chunks (i : Z) : K () :=
  p ← proc i;
  if p_is_thread p then mret ()
  else
    _ ← each (fun ch => if negb (ch =? 0) then kfree ch else mret ()) (p_heap_chunks p);
    on_proc i (fun p => set_p_heap_break 0 (set_p_heap_start 0 (set_p_heap_chunks [] p))).

(** The assignments of process_reap before and after the image is released. *)
Definition reap_head (p : process) : process :=
  set_p_code_size 0 (set_p_user_virtual_base 0 (set_p_user_stack_top 0 (set_p_entry 0 (set_p_exit_code 0
  (set_p_wait_target_pid 0 (set_p_parent_pid 0 (set_p_pid 0 (set_p_state EMPTY (set_p_loaded false p))))))))).

Definition reap_tail (p : process) : process :=
  let p := set_p_user_image_capacity 0 (set_p_user_image_pages 0 (set_p_user_image_allocation 0 (set_p_is_thread false p))) in
  let p := set_p_heap_chunks [] (set_p_heap_break 0 (set_p_heap_start 0 (set_p_cr3 0 (set_p_user_page_tables 0 p)))) in
  let p := set_p_wake_tick 0 (set_p_preempt_count 0 (set_p_switch_count 0 (set_p_runtime_ticks 0 p))) in
  let p := set_p_pending_read_count 0 (set_p_pending_read_buffer 0 (set_p_pending_read_fd (-1) p)) in
  let p := process_reset_vfs_handles p in
  set_p_name [] (set_p_spawn_arg [] (set_p_cwd [47] p)).

Definition process_reap (i : Z) : K () :=
  p ← proc i;
  _ ← call (Audio_release_voice (p_pid p));
  _ ← on_proc i reap_head;
  _ ← (if negb (p_is_thread p) && negb (p_user_image_allocation p =? 0)
       then _ ← process_free_heap_chunks i; process_image_free (p_user_image_allocation p)
       else mret ());
  on_proc i reap_tail.

Definition process_find_free_slot : K (option Z) :=
  ps ← reads k_processes;
  match find_slot (fun _ p => negb (p_loaded p) || state_is (p_state p) EMPTY || state_is (p_state p) EXITED) 0 ps with
  | None => mret None
  | Some slot =>
      p ← proc slot;
      if negb (p_loaded p) || state_is (p_state p) EMPTY then mret (Some slot)
      else _ ← process_reap slot; mret (Some slot)
  end.

Definition process_wake_waiter (child : Z) : K () :=
  p ← proc child;
  if p_parent_pid p =? 0 then mret ()
  else
    par ← process_find_by_pid (p_parent_pid p);
    match par with
    | None => mret ()
    | Some par =>
        q ← proc par;
        if negb (state_is (p_state q) WAITING) then mret ()
        else if negb (p_wait_target_pid q =? 0) && negb (p_wait_target_pid q =? p_pid p) then mret ()
        else
          _ ← on_proc par (fun q =>
                set_p_state READY (set_p_context (set_f_rdx (u32 (p_exit_code p)) (set_f_rax (p_pid p) (p_context q)))
                  (set_p_wait_target_pid 0 q)));
          process_reap child
    end.

(** ** Address spaces (paging.c) *)

(** The entries of [n] consecutive pages from [page] on, backed from [phys]. *)
Definition map_pages (page phys n : Z) (t : gmap Z Z) : gmap Z Z :=
  foldl (fun t i => if PROCESS_USER_PAGE_TABLE_COUNT <=? (page + i) / 512 then t
                    else <[page + i := Z.lor (u64 (phys + i * 0x1000)) 7]> t) t (seqZ 0 n).

Definition paging_map_user_process (user_virtual_base user_stack_top code_physical code_size
    stack_physical stack_size : Z) : gmap Z Z :=
  let code_pages := (code_size + 0xfff) / 0x1000 in
  let stack_pages := (stack_size + 0xfff) / 0x1000 in
  let stack_base_page := u64 (user_stack_top - stack_size - user_virtual_base) / 0x1000 in
  map_pages stack_base_page stack_physical stack_pages (map_pages 0 code_physical code_pages ∅).

Definition slot_tables_addr (l : layout) (slot : Z) : Z :=
  l_user_page_tables l + slot * (PROCESS_USER_PAGE_TABLE_COUNT * 4096).

(** The tables for a slot whose user page tables are at [upt]. *)
Definition paging_build_process_tables (l : layout) (pdp pd0 user_virtual_base upt : Z) : upper_tables :=
  let pd_index := Z.land (Z.shiftr user_virtual_base 21) 0x1ff in
  Upper (Z.lor pdp 7 :: replicate 511 0)
        ([Z.lor pd0 7; Z.lor (l_pd_table1 l) 3; Z.lor (l_pd_table2 l) 3; Z.lor (l_pd_table3 l) 3] ++ replicate 508 0)
        (imap (fun j e =>
           let i := Z.of_nat j - pd_index in
           if (0 <=? i) && (i <? PROCESS_USER_PAGE_TABLE_COUNT) then Z.lor (upt + i * 4096) 7 else e)
           (l_boot_pd0 l)).

Definition paging_load_cr3 (c v : Z) : K () := if v =? 0 then mret () else on_cpu c (set_c_cr3 v).

(** ** The heap of a process *)

(** Find a batch the main heap can serve: halve it down to one page.
    [inl] is the allocation with the size of the batch, [inr] is failure. *)
Fixpoint sbrk_batch (fuel : nat) (owner batch : Z) : K (Z * Z + ()) :=
  match fuel with
  | O => undefined
  | Datatypes.S fuel' =>
      p ← proc owner;
      if PROCESS_HEAP_MAX_CHUNKS <=? Z.of_nat (length (p_heap_chunks p)) then mret (inr ())
      else
        a ← kmalloc (u64 (batch + 0x1000));
        if negb (a =? 0) then mret (inl (a, batch))
        else if batch <=? 0x1000 then mret (inr ())
        else
          let b := Z.land (Z.shiftr batch 1) (u64 (Z.lnot 0xfff)) in
          sbrk_batch fuel' owner (if b <? 0x1000 then 0x1000 else b)
  end.

(** Store a page-table entry of the tables [upt] points to. *)
Definition set_pte (upt page e : Z) : K () :=
  try_update (fun k => t ← aget (k_page_tables k) (upt - 1);
                       ts ← aset (k_page_tables k) (upt - 1) (<[page := e]> t); Some (set_k_page_tables ts k)).

(** Map the pages of a batch; false when a page lies outside the tables. *)
Fixpoint sbrk_map (n : nat) (upt base_va va pa : Z) : K bool :=
  match n with
  | O => mret true
  | Datatypes.S n' =>
      let page := u64 (va - base_va) / 0x1000 in
      if PROCESS_USER_PAGE_TABLE_COUNT <=? page / 512 then mret false
      else _ ← set_pte upt page (Z.lor pa 7); sbrk_map n' upt base_va (va + 0x1000) (pa + 0x1000)
  end.

(** The growth loop: true when all of [map_size] is mapped. *)
Fixpoint sbrk_grow (fuel : nat) (owner old_page_end map_size mapped : Z) : K bool :=
  if map_size <=? mapped then mret true
  else
    match fuel with
    | O => undefined
    | Datatypes.S fuel' =>
        r ← sbrk_batch 64 owner (map_size - mapped);
        match r with
        | inr _ => mret false
        | inl (a, batch) =>
            let pages := align_ptr_4k a in
            _ ← memory_zero pages batch;
            p ← proc owner;
            ok ← sbrk_map (Z.to_nat (batch / 0x1000)) (p_user_page_tables p) (p_user_virtual_base p)
                   (old_page_end + mapped) pages;
            if negb ok then _ ← kfree a; mret false
            else
              _ ← on_proc owner (fun p => set_p_heap_chunks (p_heap_chunks p ++ [a]) p);
              sbrk_grow fuel' owner old_page_end map_size (mapped + batch)
        end
    end.

(** Unmap the pages of a failed growth and free what it had allocated. *)
Definition sbrk_rollback (owner old_page_end map_size : Z) (chunk_start : nat) : K () :=
  p ← proc owner;
  _ ← each (fun i =>
        let page := u64 (old_page_end + i * 0x1000 - p_user_virtual_base p) / 0x1000 in
        if page / 512 <? PROCESS_USER_PAGE_TABLE_COUNT then set_pte (p_user_page_tables p) page 0 else mret ())
      (seqZ 0 (map_size / 0x1000));
  _ ← each kfree (drop chunk_start (p_heap_chunks p));
  on_proc owner (fun p => set_p_heap_chunks (take chunk_start (p_heap_chunks p)) p).

Definition MINUS_ONE : Z := 2 ^ 64 - 1.

(** Reloading CR3 with its own value only flushes the TLB and is left out. *)
Definition process_sbrk (i increment : Z) : K Z :=
  owner ← process_address_space_owner i;
  o ← proc owner;
  if (p_user_page_tables o =? 0) || (p_heap_start o =? 0) then mret MINUS_ONE
  else
    let old_break := p_heap_break o in
    if increment =? 0 then mret old_break
    else if increment <? 0 then mret MINUS_ONE
    else if MINUS_ONE - old_break <? increment then mret MINUS_ONE
    else
      let new_break := u64 (old_break + increment) in
      if (new_break <? old_break) || (u64 (p_user_virtual_base o + PROCESS_USER_IMAGE_SIZE) <? new_break)
      then mret MINUS_ONE
      else
        let old_page_end := align_up_page_uintptr old_break in
        let new_page_end := align_up_page_uintptr new_break in
        if new_page_end =? old_page_end
        then _ ← on_proc owner (set_p_heap_break new_break); mret old_break
        else
          let map_size := u64 (new_page_end - old_page_end) in
          ok ← sbrk_grow (Z.to_nat (map_size / 0x1000)) owner old_page_end map_size 0;
          if negb ok then
            _ ← sbrk_rollback owner old_page_end map_size (length (p_heap_chunks o)); mret MINUS_ONE
          else
            _ ← on_proc owner (set_p_heap_break new_break);
            _ ← (if bool_decide (i = owner) then mret ()
                 else on_proc i (fun p => set_p_heap_break new_break (set_p_heap_start (p_heap_start o) p)));
            mret old_break.

(** ** Creating processes *)

Definition zero_frame : interrupt_frame := Frame 0 0 0 0 0 0 0 0 0 0 0 0 0 0 0 0 0 0 0 0.

(** The registers a process starts with. *)
Definition initial_context (entry user_stack_top : Z) : interrupt_frame :=
  Frame 0 0 0 0 0 0 0 0 0 0 0 0 0 0 0 entry (Z.lor USER_CODE_SELECTOR 3) 0x202
        (u64 (Z.land user_stack_top (u64 (Z.lnot 15)) - 8)) (Z.lor USER_DATA_SELECTOR 3).

Definition process_setup_context (i : Z) : K () :=
  _ ← try_update (fun k => cs ← aset (k_canaries k) i KSTACK_CANARY; Some (set_k_canaries cs k));
  on_proc i (fun p => set_p_context (initial_context (p_entry p) (p_user_stack_top p))
                        (set_p_running_on_cpu (-1) (set_p_kresume_rsp 0 p))).

(** The pass over the program headers that checks them and computes the size of
    the image; [None] is an access outside the file, [Some None] a rejection. *)
Fixpoint check_segments (image : list Z) (base i : Z) (n : nat) (capacity : Z) : option (option Z) :=
  match n with
  | O => Some (Some capacity)
  | Datatypes.S n' =>
      ph ← read_program_header image base i;
      if negb (ph_type ph =? ELF_PROGRAM_TYPE_LOAD) then check_segments image base (i + 1) n' capacity
      else if ph_virtual_address ph <? PROCESS_USER_TEMPLATE_BASE then Some None
      else
        let segment_offset := ph_virtual_address ph - PROCESS_USER_TEMPLATE_BASE in
        if ph_memory_size ph <? ph_file_size ph then Some None
        else
          let seg_end := u64 (segment_offset + ph_memory_size ph) in
          if PROCESS_USER_IMAGE_SIZE <? seg_end then Some None
          else if Z.of_nat (length image) <? u64 (ph_offset ph + ph_file_size ph) then Some None
          else check_segments image base (i + 1) n' (Z.max capacity seg_end)
  end.

(** Copy the segments into the image pages; a copy outside the [capacity] bytes
    allocated for them is undefined. *)
Fixpoint copy_segments (image : list Z) (base i : Z) (n : nat) (image_pages capacity : Z) : K () :=
  match n with
  | O => mret ()
  | Datatypes.S n' =>
      ph ← must (read_program_header image base i);
      _ ← (if negb (ph_type ph =? ELF_PROGRAM_TYPE_LOAD) then mret ()
           else
             let segment_offset := ph_virtual_address ph - PROCESS_USER_TEMPLATE_BASE in
             src ← must (slice image (ph_offset ph) (ph_file_size ph));
             if segment_offset + ph_file_size ph <=? capacity
             then memory_copy (image_pages + segment_offset) src else undefined);
      copy_segments image base (i + 1) n' image_pages capacity
  end.

(** The assignments that describe the loaded image. *)
Definition loaded_process (slot pid parent_pid entry alloc pages capacity new_cr3 : Z) (name : list Z)
    (fds : list fd_entry) (p : process) : process :=
  let base := process_slot_base slot in
  let p := set_p_wait_target_pid 0 (set_p_parent_pid parent_pid (set_p_pid pid (set_p_cr3 new_cr3 p))) in
  let p := set_p_user_virtual_base base (set_p_user_stack_top (process_slot_stack_top slot) (set_p_entry entry p)) in
  let p := set_p_user_image_capacity capacity (set_p_user_image_pages pages (set_p_user_image_allocation alloc p)) in
  let p := set_p_code_size capacity (set_p_user_page_tables (slot + 1) p) in
  let p := set_p_heap_chunks [] (set_p_heap_break (base + capacity) (set_p_heap_start (base + capacity) p)) in
  let p := set_p_exit_code 0 (set_p_state READY (set_p_loaded true p)) in
  let p := set_p_wake_tick 0 (set_p_preempt_count 0 (set_p_switch_count 0 (set_p_runtime_ticks 0 p))) in
  let p := set_p_pending_read_count 0 (set_p_pending_read_buffer 0 (set_p_pending_read_fd (-1) p)) in
  let p := set_p_spawn_arg [] (set_p_cwd [47] (process_reset_vfs_handles p)) in
  set_p_fd_table fds (process_set_name name p).

(** [++g_next_pid] *)
Definition fresh_pid : K Z :=
  n ← reads k_next_pid; _ ← update (set_k_next_pid (u32 (n + 1))); mret (u32 (n + 1)).

Definition process_load_image_slot (slot : Z) (image : list Z) (inherit_fds : option (list fd_entry))
    (stdio_ops : option ops_ref) (stdio_object parent_pid : Z) (name : list Z) : K bool :=
  valid ← must (elf64_validate image);
  if negb valid then mret false
  else
    header ← must (read_header image);
    let base := program_header_offset header in
    let count := Z.to_nat (program_header_count header) in
    cap ← must (check_segments image base 0 count 0);
    match cap with
    | None => mret false
    | Some cap =>
        if (cap =? 0) || (PROCESS_USER_IMAGE_SIZE <? cap) then mret false
        else
          let capacity := align_up_size cap 0x1000 in
          p ← proc slot;
          _ ← (if negb (p_is_thread p) && negb (p_user_image_allocation p =? 0)
               then _ ← process_free_heap_chunks slot; process_image_free (p_user_image_allocation p)
               else mret ());
          _ ← on_proc slot (fun p => set_p_user_image_capacity 0 (set_p_user_image_pages 0
                (set_p_user_image_allocation 0 (set_p_is_thread false p))));
          alloc ← process_image_alloc (capacity + 0x1000) (Some slot);
          if alloc =? 0 then mret false
          else
            let pages := align_ptr_4k alloc in
            l ← reads k_layout;
            let stack := l_user_stacks l + slot * PROCESS_USER_STACK_SIZE in
            _ ← memory_zero pages capacity;
            _ ← memory_zero stack PROCESS_USER_STACK_SIZE;
            _ ← copy_segments image base 0 count pages capacity;
            _ ← try_update (fun k =>
                  ts ← aset (k_page_tables k) slot
                         (paging_map_user_process (process_slot_base slot) (process_slot_stack_top slot)
                            pages capacity stack PROCESS_USER_STACK_SIZE);
                  us ← aset (k_upper k) slot
                         (paging_build_process_tables l (l_proc_pdp l + slot * 4096) (l_proc_pd0 l + slot * 4096)
                            (process_slot_base slot) (slot_tables_addr l slot));
                  Some (set_k_upper us (set_k_page_tables ts k)));
            pid ← fresh_pid;
            let entry := u64 (process_slot_base slot + (e_entry header - PROCESS_USER_TEMPLATE_BASE)) in
            let fds := match inherit_fds with
                       | Some t => t
                       | None => match stdio_ops with
                                 | Some o => stdio_table o stdio_object
                                 | None => stdio_table PROCESS_STDIO_FD_OPS 0
                                 end
                       end in
            _ ← on_proc slot (loaded_process slot pid parent_pid entry alloc pages capacity
                               (l_proc_pml4 l + slot * 4096) name fds);
            _ ← process_setup_context slot;
            mret true
    end.

(** The assignments of process_create_thread before its registers are set up. *)
Definition thread_image (parent : process) (entry stack_top : Z) (t : process) : process :=
  let t := set_p_cr3 (p_cr3 parent) (set_p_user_page_tables (p_user_page_tables parent) t) in
  let t := set_p_user_image_allocation (p_user_image_allocation parent)
             (set_p_user_virtual_base (p_user_virtual_base parent) t) in
  let t := set_p_user_image_capacity (p_user_image_capacity parent)
             (set_p_user_image_pages (p_user_image_pages parent) t) in
  let t := set_p_heap_break (p_heap_break parent) (set_p_heap_start (p_heap_start parent)
             (set_p_code_size (p_code_size parent) t)) in
  set_p_user_stack_top stack_top (set_p_entry entry (set_p_is_thread true (set_p_heap_chunks [] t))).

Definition thread_identity (parent : process) (pid stack arg : Z) (t : process) : process :=
  let t := set_p_context (set_f_rdi arg (p_context t)) t in
  let t := set_p_running_on_cpu (-1) (set_p_kresume_rsp 0 (set_p_kernel_stack_top stack t)) in
  let t := set_p_wait_target_pid 0 (set_p_parent_pid (p_pid parent) (set_p_pid pid t)) in
  let t := set_p_exit_code 0 (set_p_state READY (set_p_loaded true t)) in
  let t := set_p_wake_tick 0 (set_p_preempt_count 0 (set_p_switch_count 0 (set_p_runtime_ticks 0 t))) in
  let t := set_p_pending_read_count 0 (set_p_pending_read_buffer 0 (set_p_pending_read_fd (-1) t)) in
  let t := set_p_spawn_arg [] (set_p_cwd (take 255 (p_cwd parent)) (process_reset_vfs_handles t)) in
  process_set_name (p_name parent) (set_p_fd_table (p_fd_table parent) t).

(** The new thread's pid, or a negative error. *)
Definition process_create_thread (parent entry stack_top arg : Z) : K Z :=
  if (entry =? 0) || (stack_top =? 0) then mret (- SYSCALL_EINVAL)
  else
    slot ← process_find_free_slot;
    match slot with
    | None => mret (- SYSCALL_ENOMEM)
    | Some slot =>
        p ← proc parent;
        _ ← on_proc slot (thread_image p entry stack_top);
        _ ← process_setup_context slot;
        l ← reads k_layout;
        pid ← fresh_pid;
        p ← proc parent;
        _ ← on_proc slot (thread_identity p pid (l_kernel_stacks l + (slot + 1) * PROCESS_KERNEL_STACK_SIZE) arg);
        mret (sgn32 pid)
    end.

(** What the file systems answer for the path of a program. *)
Inductive program :=
| Embedded (image : list Z)                 (* vfs_lookup finds it *)
| NoEntry                                   (* no ext2, or no such file *)
| StatFails
| OnDisk (size : Z) (bytes : option (list Z)).   (* ext2_read; None or [] is an error *)

(** The common part of the two spawn functions: load [prog] into [slot]. *)
Definition load_program (prog : program) (slot : K (option Z)) (load : Z -> list Z -> K bool) : K (Z + Z) :=
  match prog with
  | NoEntry => mret (inr (- SYSCALL_ENOENT))
  | StatFails => mret (inr (- SYSCALL_EIO))
  | Embedded image =>
      s ← slot;
      match s with
      | None => mret (inr (- SYSCALL_ENOMEM))
      | Some s => ok ← load s image; mret (if ok : bool then inl s else inr (- SYSCALL_EINVAL))
      end
  | OnDisk size bytes =>
      buf ← process_kmalloc_no_image_overlap size None;
      if buf =? 0 then mret (inr (- SYSCALL_ENOMEM))
      else
        match bytes with
        | None | Some [] => _ ← kfree buf; mret (inr (- SYSCALL_EIO))
        | Some image =>
            s ← slot;
            match s with
            | None => _ ← kfree buf; mret (inr (- SYSCALL_ENOMEM))
            | Some s => ok ← load s image; _ ← kfree buf; mret (if ok : bool then inl s else inr (- SYSCALL_EINVAL))
            end
        end
  end.

Definition process_spawn_path (path : list Z) (prog : program) (stdio_ops : option ops_ref)
    (stdio_object uid gid : Z) : K Z :=
  r ← load_program prog process_find_free_slot
        (fun slot image => process_load_image_slot slot image None stdio_ops stdio_object 0 path);
  match r with
  | inr e => mret e
  | inl slot =>
      _ ← on_proc slot (fun p => set_p_gid gid (set_p_uid uid p));
      p ← proc slot; mret (sgn32 (p_pid p))
  end.

Definition process_spawn_named_from_parent (parent : Z) (name : list Z) (prog : program) : K Z :=
  slot ← process_find_free_slot;
  match slot with
  | None => mret (- SYSCALL_ENOMEM)
  | Some slot =>
      q ← proc parent;
      r ← load_program prog (mret (Some slot))
            (fun slot image => process_load_image_slot slot image (Some (p_fd_table q)) None 0 (p_pid q) name);
      match r with
      | inr e => mret e
      | inl slot =>
          u ← reads k_desktop_uid;
          _ ← on_proc slot (fun p =>
                let p := set_p_cwd (take 255 (p_cwd q)) p in
                if p_pid q =? 0 then set_p_gid u (set_p_uid u p)
                else set_p_gid (p_gid q) (set_p_uid (p_uid q) p));
          p ← proc slot; mret (sgn32 (p_pid p))
      end
  end.

(** ** Ending processes *)

Definition process_clear_pending_tty_wait (i : Z) : K () :=
  p ← proc i;
  if (p_pending_read_fd p <? 0) || (FD_TABLE_CAPACITY <=? p_pending_read_fd p) then mret ()
  else
    e ← must (aget (p_fd_table p) (p_pending_read_fd p));
    if negb (e_used e) || negb (bool_decide (e_ops e = Some TTY_FD_OPS)) || (e_object e =? 0) then mret ()
    else
      ts ← reads k_ttys;
      t ← must (ts !! e_object e);
      _ ← (if t_waiter_pid t =? p_pid p
           then update (set_k_ttys (<[e_object e := set_t_waiter_pid 0 t]> ts)) else mret ());
      on_proc i (fun p => set_p_pending_read_count 0 (set_p_pending_read_buffer 0 (set_p_pending_read_fd (-1) p))).

Definition close_windows (pid : Z) : K () :=
  d ← reads k_desktop; if d : bool then call (Desktop_app_close_for_pid pid) else mret ().

Definition leave_current (c : Z) (result : Z) : K () :=
  on_cpu c (fun x => set_c_current None (set_c_resume_result result x)).

(** [if (g_current_process == t) ...] *)
Definition leave_if_current (c i : Z) : K () :=
  x ← this_cpu c;
  if bool_decide (c_current x = Some i) then leave_current c PROCESS_RUN_EXITED else mret ().

(** The body of the loop over the slots. *)
Definition kill_thread (c owner upt i : Z) : K () :=
  t ← proc i;
  if bool_decide (i = owner) || negb (p_loaded t) || negb (p_is_thread t) then mret ()
  else if state_is (p_state t) EXITED || state_is (p_state t) EMPTY then mret ()
  else if negb (p_user_page_tables t =? upt) then mret ()
  else
    _ ← process_clear_pending_tty_wait i;
    _ ← on_proc i (fun t => set_p_state EXITED (set_p_exit_code (-1) t));
    _ ← process_wake_waiter i;
    leave_if_current c i.

Definition process_kill_sibling_threads (c owner : Z) : K () :=
  o ← proc owner;
  if p_is_thread o || (p_user_page_tables o =? 0) then mret ()
  else each (kill_thread c owner (p_user_page_tables o)) slots.

Definition process_kill (c pid : Z) : K Z :=
  i ← process_find_by_pid pid;
  match i with
  | None => mret (- SYSCALL_EINVAL)
  | Some i =>
      p ← proc i;
      if state_is (p_state p) EMPTY then mret (- SYSCALL_EINVAL)
      else if state_is (p_state p) EXITED then mret 0
      else
        _ ← process_clear_pending_tty_wait i;
        _ ← close_windows pid;
        _ ← on_proc i (fun p => set_p_state EXITED (set_p_exit_code (-1) p));
        _ ← process_kill_sibling_threads c i;
        _ ← process_wake_waiter i;
        _ ← leave_if_current c i;
        mret 0
  end.

Definition process_interrupt_terminal (c stdin_object : Z) : K Z :=
  if stdin_object =? 0 then mret 0
  else
    (fix go (js : list Z) (killed : Z) : K Z :=
       match js with
       | [] => mret killed
       | i :: js' =>
           p ← proc i;
           if negb (p_loaded p) || p_is_thread p then go js' killed
           else if negb (state_is (p_state p) WAITING) || (p_wait_target_pid p =? 0) then go js' killed
           else
             e ← must (aget (p_fd_table p) 0);
             if negb (e_used e) || negb (e_object e =? stdin_object) then go js' killed
             else _ ← process_kill c (p_wait_target_pid p); go js' (killed + 1)
       end) slots 0.

Definition process_pid_alive (pid : Z) : K bool :=
  i ← process_find_by_pid pid;
  match i with
  | None => mret false
  | Some i => p ← proc i; mret (negb (state_is (p_state p) EMPTY) && negb (state_is (p_state p) EXITED))
  end.

(** The kernel stack of every loaded process is checked; an overflowed one is
    killed (its threads are not). *)
Definition canary_check_slot (c i : Z) : K () :=
  p ← proc i;
  if negb (p_loaded p) then mret ()
  else
    cs ← reads k_canaries;
    w ← must (aget cs i);
    if w =? KSTACK_CANARY then mret ()
    else
      _ ← try_update (fun k => cs ← aset (k_canaries k) i KSTACK_CANARY; Some (set_k_canaries cs k));
      if state_is (p_state p) EXITED || state_is (p_state p) EMPTY then mret ()
      else
        _ ← close_windows (p_pid p);
        _ ← on_proc i (fun p => set_p_state EXITED (set_p_exit_code (- SYSCALL_EFAULT) p));
        _ ← process_wake_waiter i;
        x ← this_cpu c;
        if bool_decide (c_current x = Some i) then on_cpu c (set_c_current None) else mret ().

Definition kstack_canary_check (c : Z) : K () := each (canary_check_slot c) slots.

(** ** Scheduling *)

Definition process_init_slot (l : layout) (i : Z) (p : process) : process :=
  let p := set_p_entry 0 (set_p_wait_target_pid 0 (set_p_parent_pid 0 (set_p_pid 0 p))) in
  let p := set_p_user_image_allocation 0 (set_p_user_virtual_base 0 (set_p_user_stack_top 0 p)) in
  let p := set_p_cr3 0 (set_p_user_page_tables 0 (set_p_user_image_capacity 0 (set_p_user_image_pages 0 p))) in
  let p := set_p_code_size 0 (set_p_heap_chunks [] (set_p_heap_break 0 (set_p_heap_start 0 p))) in
  let p := set_p_exit_code 0 (set_p_state EMPTY (set_p_loaded false p)) in
  let p := set_p_wake_tick 0 (set_p_preempt_count 0 (set_p_switch_count 0 (set_p_runtime_ticks 0 p))) in
  let p := set_p_pending_read_count 0 (set_p_pending_read_buffer 0 (set_p_pending_read_fd (-1) p)) in
  let p := set_p_kernel_stack_top (l_kernel_stacks l + (i + 1) * PROCESS_KERNEL_STACK_SIZE) p in
  let p := set_p_is_thread false (set_p_running_on_cpu (-1) (set_p_kresume_rsp 0 p)) in
  set_p_name [] (set_p_spawn_arg [] (set_p_cwd [47] (process_reset_vfs_handles p))).

(** kstack_canary_init is the last line. *)
Definition process_init (c : Z) : K () :=
  _ ← on_cpu c (fun x => set_c_resume_result PROCESS_RUN_NONE (set_c_sched_cursor 0 (set_c_current None x)));
  _ ← update (set_k_next_pid 0);
  _ ← update (set_k_wm_requested 0);
  l ← reads k_layout;
  _ ← each (fun i => on_proc i (process_init_slot l i)) slots;
  update (fun k => set_k_canaries (replicate 48 KSTACK_CANARY) k).

Definition process_wake_ready (current_tick : Z) : K () :=
  each (fun i => p ← proc i;
    if state_is (p_state p) SLEEPING && (p_wake_tick p <=? current_tick)
    then on_proc i (fun p => set_p_state READY (set_p_wake_tick 0 p)) else mret ()) slots.

(** May this CPU pick the process? *)
Definition runnable (p : process) : bool :=
  (p_running_on_cpu p =? -1) &&
  (state_is (p_state p) READY || (state_is (p_state p) WAITING_IO && negb (p_kresume_rsp p =? 0))).

(** The slots in the order of the scan from the cursor. *)
Definition scan_order (cursor : Z) : list Z := (fun a => u32 (cursor + a) mod PROCESS_MAX_COUNT) <$> slots.

Fixpoint pick_from (ps : list process) (order : list Z) : option (option Z) :=
  match order with
  | [] => Some None
  | i :: order' => p ← aget ps i; if runnable p then Some (Some i) else pick_from ps order'
  end.

Definition process_pick_next_ready (c : Z) : K (option Z) :=
  x ← this_cpu c;
  ps ← reads k_processes;
  r ← must (pick_from ps (scan_order (c_sched_cursor x)));
  match r with
  | None => mret None
  | Some slot => _ ← on_cpu c (set_c_sched_cursor ((slot + 1) mod PROCESS_MAX_COUNT)); mret (Some slot)
  end.

(** process_run_ready_slice up to the entry into the process.  The second
    component is true when the process continues a parked system call. *)
Definition run_slice_enter (c : Z) : K (option (Z * bool)) :=
  _ ← kstack_canary_check c;
  r ← process_pick_next_ready c;
  match r with
  | None => mret None
  | Some i =>
      _ ← on_cpu c (set_c_current (Some i));
      _ ← on_proc i (fun p => set_p_running_on_cpu c (set_p_state RUNNING p));
      _ ← on_cpu c (fun x => set_c_slices (u64 (c_slices x + 1)) x);
      _ ← on_proc i (fun p => set_p_switch_count (u64 (p_switch_count p + 1)) p);
      p ← proc i;
      _ ← paging_load_cr3 c (p_cr3 p);
      _ ← on_cpu c (set_c_rsp0 (p_kernel_stack_top p));
      let parked := negb (p_kresume_rsp p =? 0) in
      _ ← (if parked then on_proc i (set_p_kresume_rsp 0) else mret ());
      _ ← on_cpu c (set_c_resume_result PROCESS_RUN_NONE);
      _ ← on_cpu c (set_c_slice (Some i));
      mret (Some (i, parked))
  end.

(** process_run_ready_slice after the process has given the CPU back. *)
Definition run_slice_leave (c : Z) : K Z :=
  x ← this_cpu c;
  i ← must (c_slice x);
  let result := c_resume_result x in
  _ ← on_cpu c (set_c_slice None);
  _ ← on_proc i (set_p_running_on_cpu (-1));
  p ← proc i;
  _ ← (if state_is (p_state p) EXITED then process_wake_waiter i else mret ());
  p ← proc i;
  _ ← (if negb (result =? PROCESS_RUN_YIELDED) || (p_preempt_count p =? 0)
       then on_proc i (fun p => set_p_runtime_ticks (u64 (p_runtime_ticks p + 1)) p) else mret ());
  mret result.

(** process_yield_blocking up to the switch to the scheduler; [rsp] is the
    parked stack pointer.  False: there is no current process. *)
Definition process_yield_blocking (c rsp : Z) : K bool :=
  x ← this_cpu c;
  match c_current x with
  | None => mret false
  | Some i =>
      _ ← on_proc i (set_p_state WAITING_IO);
      _ ← on_cpu c (set_c_resume_result PROCESS_RUN_BLOCKED);
      _ ← on_proc i (set_p_kresume_rsp rsp);
      mret true
  end.

(** The part the two timer handlers share: preempt the interrupted process. *)
Definition preempt (c : Z) (frame : interrupt_frame) : K bool :=
  x ← this_cpu c;
  match c_current x with
  | None => mret false
  | Some i =>
      if negb (Z.land (f_cs frame) 3 =? 3) then mret false
      else
        _ ← on_cpu c (fun x => set_c_busy_ticks (u64 (c_busy_ticks x + 1)) x);
        _ ← on_proc i (fun p => set_p_context frame (set_p_preempt_count (u64 (p_preempt_count p + 1))
              (set_p_runtime_ticks (u64 (p_runtime_ticks p + 1)) p)));
        p ← proc i;
        _ ← (if state_is (p_state p) EXITED then leave_current c PROCESS_RUN_EXITED
             else _ ← on_proc i (set_p_state READY); leave_current c PROCESS_RUN_YIELDED);
        mret true
  end.

Definition timer_handle_interrupt (c : Z) (frame : interrupt_frame) : K bool :=
  _ ← update (fun k => set_k_tick (u64 (k_tick k + 1)) k);
  _ ← on_cpu c (fun x => set_c_ticks (u64 (c_ticks x + 1)) x);
  t ← reads k_tick;
  _ ← process_wake_ready t;
  preempt c frame.

Definition process_ap_timer (c : Z) (frame : interrupt_frame) : K bool :=
  _ ← on_cpu c (fun x => set_c_ticks (u64 (c_ticks x + 1)) x);
  preempt c frame.

(** A fault of the running process; true when it was killed. *)
Definition process_handle_user_fault (c : Z) : K bool :=
  x ← this_cpu c;
  match c_current x with
  | None => mret false
  | Some i =>
      p ← proc i;
      if state_is (p_state p) EMPTY || state_is (p_state p) EXITED then mret false
      else
        _ ← kstack_canary_check c;
        _ ← process_clear_pending_tty_wait i;
        p ← proc i;
        _ ← close_windows (p_pid p);
        _ ← on_proc i (fun p => set_p_state EXITED (set_p_exit_code (- SYSCALL_EFAULT) p));
        _ ← process_kill_sibling_threads c i;
        _ ← process_wake_waiter i;
        _ ← leave_current c PROCESS_RUN_EXITED;
        mret true
  end.

(** ** System calls *)

Definition SYS_READ : Z := 0.
Definition SYS_YIELD : Z := 3.
Definition SYS_EXIT : Z := 4.
Definition SYS_PROCESS_SPAWN : Z := 5.
Definition SYS_WAITPID : Z := 6.
Definition SYS_TIMER_SLEEP : Z := 20.
Definition SYS_WINDOWMGR_START : Z := 21.
Definition SYS_PROCESS_KILL : Z := 29.
Definition SYS_THREAD_CREATE : Z := 34.
Definition SYS_SBRK : Z := 42.
Definition SYS_GETPID : Z := 53.
Definition SYS_GETPPID : Z := 54.
Definition SYS_GETUID : Z := 55.
Definition SYS_GETGID : Z := 56.
Definition SYS_SETUID : Z := 57.
Definition SYS_SLEEP_MS : Z := 68.
Definition SYS_PTY_OPEN : Z := 45.
Definition SYS_SPAWN_PTY : Z := 46.
Definition SYS_PTY_INTERRUPT : Z := 47.
Definition SYSCALL_EMFILE : Z := 24.

(** A call either returns to the process with new registers or gives up the CPU. *)
Inductive outcome := Resume (f : interrupt_frame) | Deschedule.

Definition ret_rax (v : Z) (f : interrupt_frame) : K outcome := mret (Resume (set_f_rax (u64 v) f)).

(** Save the registers, set the state and go back to the scheduler. *)
Definition suspend (c i : Z) (frame : interrupt_frame) (f : process -> process) : K outcome :=
  _ ← on_proc i (fun p => f (set_p_context frame p));
  _ ← leave_current c PROCESS_RUN_YIELDED;
  mret Deschedule.

Definition sys_yield (c i : Z) (f : interrupt_frame) : K outcome :=
  suspend c i (set_f_rax 0 f) (set_p_state READY).

Definition sys_exit (c i : Z) (f : interrupt_frame) : K outcome :=
  p ← proc i;
  _ ← close_windows (p_pid p);
  _ ← on_proc i (fun p => set_p_state EXITED (set_p_exit_code (sgn32 (f_rdi f)) p));
  _ ← process_kill_sibling_threads c i;
  _ ← process_wake_waiter i;
  _ ← leave_current c PROCESS_RUN_EXITED;
  mret Deschedule.

Definition sys_process_spawn (i : Z) (f : interrupt_frame) (peek : Z -> Z) (lookup : list Z -> program) : K outcome :=
  let '(name, ok) := process_copy_user_string 32 peek (f_rdi f) in
  if negb ok then ret_rax (- SYSCALL_EINVAL) f
  else
    pid ← process_spawn_named_from_parent i name (lookup name);
    d ← reads k_desktop;
    _ ← (if (pid <? 0) && d then call Desktop_show_error else mret ());
    _ ← (if (0 <? pid) && (PROCESS_USER_BASE <=? f_rsi f)
            && (f_rsi f <? PROCESS_USER_BASE + PROCESS_USER_REGION_BYTES)
         then
           ch ← process_find_by_pid pid;
           match ch with
           | None => mret ()
           | Some j => on_proc j (set_p_spawn_arg (fst (process_copy_user_string 512 peek (f_rsi f))))
           end
         else mret ());
    ret_rax pid f.

Definition sys_thread_create (i : Z) (f : interrupt_frame) : K outcome :=
  tid ← process_create_thread i (f_rdi f) (f_rsi f) (f_rdx f);
  d ← reads k_desktop;
  _ ← (if (tid =? - SYSCALL_ENOMEM) && d then call Desktop_show_error else mret ());
  ret_rax tid f.

(** None: the read does not block and goes on to the dispatcher. *)
Definition process_try_blocking_tty_read (c i : Z) (f : interrupt_frame) : K bool :=
  p ← proc i;
  let fd := sgn32 (f_rdi f) in
  if (fd <? 0) || (FD_TABLE_CAPACITY <=? fd) then mret false
  else
    e ← must (aget (p_fd_table p) fd);
    if negb (e_used e) || negb (bool_decide (e_ops e = Some TTY_FD_OPS)) || (e_object e =? 0) then mret false
    else
      ts ← reads k_ttys;
      t ← must (ts !! e_object e);
      if truth (t_line_ready t) || (0 <? t_raw_length t) then mret false
      else
        _ ← on_proc i (fun p => set_p_state WAITING_IO (set_p_pending_read_count (f_rdx f)
              (set_p_pending_read_buffer (f_rsi f) (set_p_pending_read_fd fd (set_p_context f p)))));
        _ ← update (set_k_ttys (<[e_object e := set_t_waiter_pid (p_pid p) t]> ts));
        _ ← leave_current c PROCESS_RUN_YIELDED;
        mret true.

Definition sys_waitpid (c i : Z) (f : interrupt_frame) : K outcome :=
  let wait_pid := u32 (f_rdi f) in
  p ← proc i;
  ch ← process_find_exited_child (p_pid p) wait_pid;
  match ch with
  | Some j =>
      q ← proc j;
      _ ← process_reap j;
      mret (Resume (set_f_rdx (u32 (p_exit_code q)) (set_f_rax (p_pid q) f)))
  | None =>
      suspend c i (set_f_rdx 0 (set_f_rax 0 f)) (fun p => set_p_state WAITING (set_p_wait_target_pid wait_pid p))
  end.

(** The tick at which a sleep of [ticks] ends, saturated. *)
Definition wake_at (now ticks : Z) : Z :=
  if MINUS_ONE - now <=? ticks then MINUS_ONE else now + ticks.

Definition sleep_ticks (c i ticks : Z) (f : interrupt_frame) : K outcome :=
  now ← reads k_tick;
  suspend c i (set_f_rax 0 f) (fun p => set_p_state SLEEPING (set_p_wake_tick (wake_at now ticks) p)).

Definition sys_timer_sleep (c i : Z) (f : interrupt_frame) : K outcome :=
  if f_rdi f =? 0 then ret_rax 0 f else sleep_ticks c i (f_rdi f) f.

Definition sys_sleep_ms (c i : Z) (f : interrupt_frame) : K outcome :=
  l ← reads k_layout;
  let ticks := u64 (u64 (f_rdi f * l_timer_hz l) + 999) / 1000 in
  sleep_ticks c i (if ticks =? 0 then 1 else ticks) f.

Definition sys_windowmgr_start (i : Z) (f : interrupt_frame) : K outcome :=
  p ← proc i;
  _ ← update (set_k_wm_requested 1);
  _ ← update (set_k_desktop_uid (p_uid p));
  _ ← on_proc 0 (fun q => set_p_gid (p_uid p) (set_p_uid (p_uid p) q));
  ret_rax 0 f.

Definition sys_process_kill (c i : Z) (f : interrupt_frame) : K outcome :=
  let target_pid := u32 (f_rdi f) in
  t ← process_find_by_pid target_pid;
  match t with
  | None => ret_rax (- SYSCALL_EINVAL) f
  | Some j =>
      q ← proc j;
      if state_is (p_state q) EMPTY then ret_rax (- SYSCALL_EINVAL) f
      else
        p ← proc i;
        if negb (p_uid p =? 0) && negb (p_uid p =? p_uid q) then ret_rax (- SYSCALL_EPERM) f
        else
          r ← process_kill c target_pid;
          x ← this_cpu c;
          if bool_decide (c_current x = None) then mret Deschedule else ret_rax r f
  end.

Definition sys_setuid (i : Z) (f : interrupt_frame) : K outcome :=
  p ← proc i;
  let new_uid := u32 (f_rdi f) in
  if negb (p_uid p =? 0) && negb (new_uid =? p_uid p) then ret_rax (- SYSCALL_EPERM) f
  else _ ← on_proc i (set_p_uid new_uid); ret_rax 0 f.

(** *** Pseudo-terminals

    [pty] is what pty_alloc returns, 0 for NULL. *)

(** [fd_alloc] of fd.c: the descriptor, or an error, and the new table. *)
Definition fd_alloc (table : list fd_entry) (ops : ops_ref) (object start_fd : Z) : Z * list fd_entry :=
  match list_find (fun e => negb (e_used e)) (drop (Z.to_nat start_fd) table) with
  | Some (n, _) =>
      let fd := start_fd + Z.of_nat n in (fd, <[Z.to_nat fd := FdEntry (Some ops) object true]> table)
  | None => (- SYSCALL_EMFILE, table)
  end.

Definition sys_pty_open (i : Z) (f : interrupt_frame) (pty : Z) : K outcome :=
  if pty =? 0 then ret_rax (- SYSCALL_ENOMEM) f
  else
    p ← proc i;
    let '(fd, table) := fd_alloc (p_fd_table p) PTY_MASTER_FD_OPS pty 3 in
    _ ← on_proc i (set_p_fd_table table);
    _ ← (if fd <? 0 then call (Pty_release pty) else mret ());
    ret_rax fd f.

(** The pty whose master end descriptor [fd] of slot [i] is. *)
Definition pty_of_master (i fd : Z) : K (option Z) :=
  if (fd <? 0) || (FD_TABLE_CAPACITY <=? fd) then mret None
  else
    p ← proc i;
    e ← must (aget (p_fd_table p) fd);
    mret (if negb (e_used e) || negb (bool_decide (e_ops e = Some PTY_MASTER_FD_OPS)) || (e_object e =? 0)
          then None else Some (e_object e)).

Definition sys_spawn_pty (i : Z) (f : interrupt_frame) (peek : Z -> Z) (lookup : list Z -> program) : K outcome :=
  let '(path, ok) := process_copy_user_string 64 peek (f_rdi f) in
  if negb ok then ret_rax (- SYSCALL_EINVAL) f
  else
    pty ← pty_of_master i (sgn32 (f_rsi f));
    match pty with
    | None => ret_rax (- SYSCALL_EINVAL) f
    | Some obj =>
        p ← proc i;
        pid ← process_spawn_path path (lookup path) (Some PTY_SLAVE_FD_OPS) obj (p_uid p) (p_gid p);
        _ ← (if 0 <? pid then
               ch ← process_find_by_pid (u32 pid);
               match ch with None => mret () | Some j => q ← proc i; on_proc j (set_p_parent_pid (p_pid q)) end
             else mret ());
        ret_rax pid f
    end.

Definition sys_pty_interrupt (c i : Z) (f : interrupt_frame) : K outcome :=
  pty ← pty_of_master i (sgn32 (f_rdi f));
  match pty with
  | None => ret_rax (- SYSCALL_EINVAL) f
  | Some obj => killed ← process_interrupt_terminal c obj; ret_rax killed f
  end.

(** *** Input for a waiting reader

    [result] is what the read through the reader's descriptor returns; the bytes
    it stores are those of the terminal model. *)
Definition process_wake_tty_reader (tty result : Z) : K () :=
  if tty =? 0 then mret ()
  else
    ts ← reads k_ttys;
    t ← must (ts !! tty);
    if t_waiter_pid t =? 0 then mret ()
    else
      w ← process_find_by_pid (t_waiter_pid t);
      _ ← update (set_k_ttys (<[tty := set_t_waiter_pid 0 t]> ts));
      match w with
      | None => mret ()
      | Some i =>
          p ← proc i;
          if negb (state_is (p_state p) WAITING_IO) then mret ()
          else on_proc i (fun p => set_p_state READY (set_p_context (set_f_rax (u64 result) (p_context p))
                 (set_p_pending_read_count 0 (set_p_pending_read_buffer 0 (set_p_pending_read_fd (-1) p)))))
      end.

(** syscall_handle_interrupt for the calls that concern processes; [other] is
    the rest of the dispatcher.  [peek] reads the caller's memory, [lookup]
    is what the file systems answer, [pty] what pty_alloc returns. *)
Definition syscall_handle_interrupt (c : Z) (frame : interrupt_frame) (peek : Z -> Z)
    (lookup : list Z -> program) (pty : Z) (other : Z -> interrupt_frame -> K outcome) : K outcome :=
  x ← this_cpu c;
  match c_current x with
  | None => _ ← leave_current c PROCESS_RUN_EXITED; mret Deschedule
  | Some i =>
      p ← proc i;
      if state_is (p_state p) EXITED then _ ← leave_current c PROCESS_RUN_EXITED; mret Deschedule
      else
        let number := f_rax frame in
        if number =? SYS_YIELD then sys_yield c i frame
        else if number =? SYS_EXIT then sys_exit c i frame
        else if number =? SYS_PROCESS_SPAWN then sys_process_spawn i frame peek lookup
        else if number =? SYS_PTY_OPEN then sys_pty_open i frame pty
        else if number =? SYS_SPAWN_PTY then sys_spawn_pty i frame peek lookup
        else if number =? SYS_PTY_INTERRUPT then sys_pty_interrupt c i frame
        else if number =? SYS_THREAD_CREATE then sys_thread_create i frame
        else if number =? SYS_READ then
          b ← process_try_blocking_tty_read c i frame;
          if b : bool then mret Deschedule else other i frame
        else if number =? SYS_WAITPID then sys_waitpid c i frame
        else if number =? SYS_TIMER_SLEEP then sys_timer_sleep c i frame
        else if number =? SYS_SLEEP_MS then sys_sleep_ms c i frame
        else if number =? SYS_WINDOWMGR_START then sys_windowmgr_start i frame
        else if number =? SYS_PROCESS_KILL then sys_process_kill c i frame
        else if number =? SYS_SBRK then b ← process_sbrk i (sgn64 (f_rdi frame)); ret_rax b frame
        else if number =? SYS_GETPID then ret_rax (p_pid p) frame
        else if number =? SYS_GETPPID then ret_rax (p_parent_pid p) frame
        else if number =? SYS_GETUID then ret_rax (p_uid p) frame
        else if number =? SYS_GETGID then ret_rax (p_gid p) frame
        else if number =? SYS_SETUID then sys_setuid i frame
        else other i frame
  end.

(** ** Queries *)

Definition count_slots (f : process -> bool) : K Z :=
  ps ← reads k_processes; mret (Z.of_nat (length (filter (fun p => f p = true) ps))).

Definition process_loaded_count : K Z := count_slots (fun p => p_loaded p && negb (state_is (p_state p) EXITED)).
Definition process_ready_count : K Z := count_slots (fun p => state_is (p_state p) READY).
Definition process_running_count : K Z := count_slots (fun p => state_is (p_state p) RUNNING).
Definition process_sleeping_count : K Z := count_slots (fun p => state_is (p_state p) SLEEPING).

Definition process_current_pid (c : Z) : K Z :=
  x ← this_cpu c; match c_current x with None => mret 0 | Some i => p ← proc i; mret (p_pid p) end.
Definition process_current_uid (c : Z) : K Z :=
  x ← this_cpu c; match c_current x with None => mret 0 | Some i => p ← proc i; mret (p_uid p) end.
Definition process_has_current (c : Z) : K bool := x ← this_cpu c; mret (negb (bool_decide (c_current x = None))).

Definition process_take_window_manager_request : K Z :=
  r ← reads k_wm_requested; _ ← update (set_k_wm_requested 0); mret (if truth r then 1 else 0).

End Process.
End Process.
