(* ===== verification/ProcSched.v ===== *)
(** * ProcSched: the invariants of the process table (kernel/src/process.c)

    What holds of the table between any two steps of the machine, and while the
    kernel works on behalf of one CPU: no process on two CPUs, pids are unique,
    memory is owned by exactly one process, a running thread has a living
    address space, and nobody waits for a child that is already dead.

    A process that parks itself in a system call stays the current process of its
    CPU until the next one is picked: [sched_ok] allows a CPU that runs nothing
    to have any current process. *)

From Stdlib Require Import ZArith Lia Bool ZifyBool.
From stdpp Require Import base numbers option list list_numbers gmap sets.
From S2P Require Import Prelude StateM ProcState Elf Process.

Open Scope Z_scope.

Module ProcSched.
Import ProcState Elf Process.

(** ** The parts of the invariant

    [c] is the CPU the kernel is working for (-1 between steps): the process it
    runs may be in any state.  [D] are slots of processes that are being ended:
    their threads and the parent waiting for them are still to be told. *)

Definition tty_entry_ok (ttys : gmap Z tty_input) (e : fd_entry) : Prop :=
  e_ops e = Some TTY_FD_OPS -> e_object e <> 0 -> is_Some (ttys !! e_object e).

Definition table_ok (ttys : gmap Z tty_input) (ps : list process) : Prop :=
  length ps = 48%nat /\
  forall i p, aget ps i = Some p ->
    length (p_fd_table p) = 16%nat /\ Forall (tty_entry_ok ttys) (p_fd_table p).

Definition sched_ok (c : Z) (cpus : list cpu) (ps : list process) : Prop :=
  (forall d x i, aget cpus d = Some x -> c_slice x = Some i ->
     exists p, aget ps i = Some p /\ p_running_on_cpu p = d) /\
  (forall d x i, aget cpus d = Some x -> c_current x = Some i -> c_slice x = Some i \/ c_slice x = None) /\
  (forall i p, aget ps i = Some p -> p_running_on_cpu p <> -1 ->
     exists x, aget cpus (p_running_on_cpu p) = Some x /\ c_slice x = Some i) /\
  (forall i p, aget ps i = Some p -> p_running_on_cpu p <> -1 -> p_running_on_cpu p <> c ->
     p_loaded p = true /\ p_state p = RUNNING) /\
  (forall i p, aget ps i = Some p -> p_state p = RUNNING -> p_running_on_cpu p <> -1).

Definition ids_ok (next : Z) (ps : list process) : Prop :=
  (forall i p, aget ps i = Some p ->
     if p_loaded p then 0 < p_pid p <= next /\ p_state p <> EMPTY /\ p_user_image_allocation p <> 0
     else p_pid p = 0 /\ p_state p = EMPTY /\ p_is_thread p = false /\ p_user_image_allocation p = 0
          /\ p_heap_chunks p = []) /\
  (forall i j p q, aget ps i = Some p -> aget ps j = Some q ->
     p_loaded p = true -> p_loaded q = true -> p_pid p = p_pid q -> i = j).

(** A loaded process that is not a thread owns its image and its heap chunks. *)
Definition owns (p : process) : bool := p_loaded p && negb (p_is_thread p).
Definition chunks_of (ps : list process) : list Z := ps ≫= fun p => if owns p then p_heap_chunks p else [].
Definition images_of (ps : list process) : list Z :=
  ps ≫= fun p => if owns p then [p_user_image_allocation p] else [].

Definition blocks_ok (L : gmap Z Z) (ptrs : list Z) : Prop :=
  NoDup ptrs /\ Forall (fun a => a <> 0 /\ is_Some (L !! a)) ptrs.

Section Inv.
Context {H I : Type} {HP : PageHeap H} {IP : PageHeap I}.
(** Blocks the running kernel code holds for itself. *)
Context {X : list Z}.
Abbreviation kernel := (kernel H I).
Abbreviation K := (ST kernel).

Definition mem_ok (h : H) (aux : option I) (quarantine : list Z) (ps : list process) : Prop :=
  exists a Lh La, aux = Some a /\ ph_rep h Lh /\ ph_rep a La /\
    blocks_ok Lh (X ++ quarantine ++ chunks_of ps) /\ blocks_ok La (images_of ps).

(** Does [p] run in the address space of slot [o]? *)
Definition in_space (o : Z) (p : process) : Prop := p_user_page_tables p = o + 1.

(** The break of a heap lies above the image and below the stack. *)
Definition heap_ok (p : process) : Prop :=
  p_user_virtual_base p = PROCESS_USER_BASE /\ PROCESS_USER_BASE < p_heap_start p <= p_heap_break p /\
  p_heap_break p <= PROCESS_USER_BASE + PROCESS_USER_IMAGE_SIZE.

Definition space_ok (D : gset Z) (l : layout) (ps : list process) : Prop :=
  (forall i p, aget ps i = Some p -> owns p = true ->
     in_space i p /\ p_cr3 p = l_proc_pml4 l + i * 4096 /\ heap_ok p) /\
  (forall t p, aget ps t = Some p -> p_loaded p = true -> p_is_thread p = true -> p_state p <> EXITED ->
     exists o q, aget ps o = Some q /\ owns q = true /\ in_space o p /\ p_cr3 p = p_cr3 q /\
       p_user_image_allocation p = p_user_image_allocation q /\ (p_state q <> EXITED \/ o ∈ D)).

(** [q] waits for a child like [z]. *)
Definition waits_for (q z : process) : Prop :=
  p_state q = WAITING /\ p_parent_pid z = p_pid q /\
  (p_wait_target_pid q = 0 \/ p_wait_target_pid q = p_pid z).

Definition zombie (z : process) : Prop :=
  p_loaded z = true /\ p_state z = EXITED /\ p_running_on_cpu z = -1.

Definition wake_ok (D : gset Z) (ps : list process) : Prop :=
  forall i j q z, aget ps i = Some q -> aget ps j = Some z ->
    p_loaded q = true -> zombie z -> waits_for q z -> j ∈ D.

Record inv (c : Z) (D : gset Z) (k : kernel) : Prop := mk_inv {
  inv_table : table_ok (k_ttys k) (k_processes k);
  inv_sched : sched_ok c (k_cpus k) (k_processes k);
  inv_ids : ids_ok (k_next_pid k) (k_processes k);
  inv_mem : mem_ok (k_heap k) (k_aux k) (k_quarantine k) (k_processes k);
  inv_space : space_ok D (k_layout k) (k_processes k);
  inv_wake : wake_ok D (k_processes k);
  inv_canaries : k_canaries k = replicate 48 KSTACK_CANARY;
  inv_tables : length (k_page_tables k) = 48%nat /\ length (k_upper k) = 48%nat }.

(** ** Searching the table *)

Lemma find_slot_Some f i ps j :
  find_slot f i ps = Some j -> i <= j /\ exists p, aget ps (j - i) = Some p /\ f j p = true.
Proof.
  revert i. induction ps as [|p ps IH]; intros i; simpl; [done|]. destruct (f i p) eqn:E.
  - intros [= <-]. rewrite Z.sub_diag. split; [lia|]. by exists p.
  - intros (?&q&Hq&?)%IH. split; [lia|]. exists q. split; [|done].
    replace (j - i) with (Z.of_nat (S (Z.to_nat (j - (i + 1))))) by lia. rewrite aget_nat. simpl.
    rewrite <- aget_nat. by rewrite Z2Nat.id by lia.
Qed.

Lemma find_slot_None f i ps j p : find_slot f i ps = None -> aget ps j = Some p -> f (i + j) p = false.
Proof.
  revert i j. induction ps as [|q ps IH]; intros i j; simpl.
  - intros _ Hj%aget_Some_lt. simpl in Hj. lia.
  - destruct (f i q) eqn:E; [done|]. intros Hn Hj. pose proof (aget_Some_lt _ _ _ Hj).
    destruct (decide (j = 0)) as [->|].
    + injection Hj as <-. by rewrite Z.add_0_r.
    + replace j with (Z.of_nat (S (Z.to_nat (j - 1)))) in Hj by lia. rewrite aget_nat in Hj. simpl in Hj.
      rewrite <- aget_nat, Z2Nat.id in Hj by lia. specialize (IH _ _ Hn Hj).
      by replace (i + j) with (i + 1 + (j - 1)) by lia.
Qed.

Lemma find_slot0 f ps j : find_slot f 0 ps = Some j -> exists p, aget ps j = Some p /\ f j p = true.
Proof. intros (?&p&?&?)%find_slot_Some. rewrite Z.sub_0_r in *. by exists p. Qed.

(** ** Stepping over the accesses *)

Lemma wp_proc i p Q (k : kernel) : aget (k_processes k) i = Some p -> Q p k -> wp (proc i) Q k.
Proof. intros E HQ. unfold proc. wstep. wstep. by eapply wp_must. Qed.

Lemma wp_on_proc i p f (Q : () -> kernel -> Prop) k :
  aget (k_processes k) i = Some p ->
  Q tt (set_k_processes (<[Z.to_nat i := f p]> (k_processes k)) k) -> wp (on_proc i f) Q k.
Proof.
  intros E HQ. unfold on_proc. eapply wp_try; [|exact HQ]. rewrite E. cbn [mbind option_bind].
  rewrite aset_ok by by eapply aget_Some_lt. done.
Qed.

Lemma wp_this_cpu c x Q (k : kernel) : aget (k_cpus k) c = Some x -> Q x k -> wp (this_cpu c) Q k.
Proof. intros E HQ. unfold this_cpu. wstep. wstep. by eapply wp_must. Qed.

Lemma wp_on_cpu c x f (Q : () -> kernel -> Prop) k :
  aget (k_cpus k) c = Some x ->
  Q tt (set_k_cpus (<[Z.to_nat c := f x]> (k_cpus k)) k) -> wp (on_cpu c f) Q k.
Proof.
  intros E HQ. unfold on_cpu. eapply wp_try; [|exact HQ]. rewrite E. cbn [mbind option_bind].
  rewrite aset_ok by by eapply aget_Some_lt. done.
Qed.

Lemma wp_find_by_pid pid Q (k : kernel) :
  (forall i p, aget (k_processes k) i = Some p -> p_loaded p = true -> p_pid p = pid -> pid <> 0 -> Q (Some i) k) ->
  ((forall i p, aget (k_processes k) i = Some p -> p_loaded p = true -> p_pid p <> pid \/ pid = 0) -> Q None k) ->
  wp (process_find_by_pid pid) Q k.
Proof.
  intros HS HN. unfold process_find_by_pid. destruct (Z.eqb_spec pid 0) as [->|Hp].
  { wstep. apply HN. by right. }
  do 2 wstep. wstep. destruct (find_slot _ _ _) as [i|] eqn:E.
  - apply find_slot0 in E as (p&Hp'&Hb). bools. by eapply HS.
  - apply HN. intros i p Hi Hl. left. intros Heq. eapply find_slot_None in E; [|exact Hi].
    cbn beta in E. rewrite Hl, Heq, Z.eqb_refl in E. done.
Qed.
(** ** Changing one process *)

(** The parts of a process that say who it is and what it owns. *)
Definition same_id (p p' : process) : Prop :=
  p_pid p' = p_pid p /\ p_parent_pid p' = p_parent_pid p /\ p_loaded p' = p_loaded p /\
  p_is_thread p' = p_is_thread p /\ p_user_page_tables p' = p_user_page_tables p /\ p_cr3 p' = p_cr3 p /\
  p_user_image_allocation p' = p_user_image_allocation p /\ p_heap_chunks p' = p_heap_chunks p /\
  p_fd_table p' = p_fd_table p /\ p_user_virtual_base p' = p_user_virtual_base p /\
  p_heap_start p' = p_heap_start p /\ p_heap_break p' = p_heap_break p.

Lemma heap_ok_same p p' : same_id p p' -> heap_ok p -> heap_ok p'.
Proof. intros (_&_&_&_&_&_&_&_&_&E1&E2&E3). unfold heap_ok. by rewrite E1, E2, E3. Qed.

(** What a change of [p] to [p'] in slot [i] must respect. *)
Definition may_become (c : Z) (D : gset Z) (ps : list process) (i : Z) (p p' : process) : Prop :=
  same_id p p' /\ p_running_on_cpu p' = p_running_on_cpu p /\
  (p_state p' = p_state p \/
   (p_loaded p = true /\ p_state p' <> EMPTY /\ p_state p' <> RUNNING /\
    (p_running_on_cpu p = -1 \/ p_running_on_cpu p = c) /\
    (p_state p = EXITED -> False) /\ (p_state p' = EXITED -> i ∈ D))) /\
  (p_state p' = WAITING -> p_wait_target_pid p' = p_wait_target_pid p /\ p_state p = WAITING \/
     forall j z, aget ps j = Some z -> zombie z -> j = i \/ ~ waits_for p' z).

Lemma owns_same p p' : same_id p p' -> owns p' = owns p.
Proof. intros (?&?&Hl&Ht&_). unfold owns. by rewrite Hl, Ht. Qed.

Section Lists.
Context (c : Z) (D : gset Z) (ps : list process) (i : Z) (p p' : process).
Hypothesis Hi : aget ps i = Some p.
Abbreviation ps' := (<[Z.to_nat i := p']> ps).

(** Look up a slot of the changed table. *)
Lemma aget_upd j q : aget ps' j = Some q -> (j = i /\ q = p') \/ (j <> i /\ aget ps j = Some q).
Proof.
  intros E. pose proof (aget_Some_lt _ _ _ Hi). destruct (decide (j = i)) as [->|Hne].
  - left. rewrite aget_insert_eq in E by lia. by injection E as <-.
  - right. split; [done|]. by rewrite aget_insert, decide_False in E by (lia || congruence).
Qed.

Lemma aget_upd_eq : aget ps' i = Some p'.
Proof. pose proof (aget_Some_lt _ _ _ Hi). apply aget_insert_eq. lia. Qed.

Lemma aget_upd_ne j : j <> i -> aget ps' j = aget ps j.
Proof. intros. rewrite aget_insert, decide_False by (first [by eapply aget_Some_lt|congruence]). done. Qed.


Lemma bind_upd {A} (f : process -> list A) :
  exists a b, ps ≫= f = a ++ f p ++ b /\ ps' ≫= f = a ++ f p' ++ b.
Proof.
  unfold aget in Hi. destruct (Z.leb_spec 0 i); [|done]. exists (take (Z.to_nat i) ps ≫= f), (drop (S (Z.to_nat i)) ps ≫= f).
  split.
  - rewrite <- (take_drop_middle ps (Z.to_nat i) p Hi) at 1. by rewrite bind_app, bind_cons.
  - rewrite insert_take_drop by (by eapply lookup_lt_Some). by rewrite bind_app, bind_cons.
Qed.

Lemma table_upd ttys :
  length (p_fd_table p') = 16%nat -> Forall (tty_entry_ok ttys) (p_fd_table p') ->
  table_ok ttys ps -> table_ok ttys ps'.
Proof.
  intros H1 H2 [Hl Ht]. split; [by rewrite length_insert|]. intros j q [[-> ->]|[_ Hj]]%aget_upd; [done|eauto].
Qed.

Lemma sched_upd cpus :
  p_running_on_cpu p' = p_running_on_cpu p ->
  (p_running_on_cpu p <> -1 -> p_running_on_cpu p <> c -> p_loaded p' = true /\ p_state p' = RUNNING) ->
  (p_state p' = RUNNING -> p_running_on_cpu p <> -1) ->
  sched_ok c cpus ps -> sched_ok c cpus ps'.
Proof.
  intros Hr Hx Hy (Ha&Hb&Hc&Hd&He). split_and!; [|done|..].
  - intros d x j Hx' Hs. destruct (Ha d x j Hx' Hs) as (q&Hq&Hrq). destruct (decide (j = i)) as [->|].
    + exists p'. rewrite aget_upd_eq. split; [done|]. rewrite Hr. congruence.
    + exists q. by rewrite aget_upd_ne.
  - intros j q [[-> ->]|[_ Hj]]%aget_upd; [rewrite Hr|]; eauto.
  - intros j q [[-> ->]|[_ Hj]]%aget_upd; [rewrite Hr|]; eauto.
  - intros j q [[-> ->]|[_ Hj]]%aget_upd; [rewrite Hr|]; eauto.
Qed.

Lemma ids_upd next :
  (if p_loaded p' then 0 < p_pid p' <= next /\ p_state p' <> EMPTY /\ p_user_image_allocation p' <> 0
   else p_pid p' = 0 /\ p_state p' = EMPTY /\ p_is_thread p' = false /\ p_user_image_allocation p' = 0
        /\ p_heap_chunks p' = []) ->
  (p_loaded p' = true -> forall j q, j <> i -> aget ps j = Some q -> p_loaded q = true -> p_pid q <> p_pid p') ->
  ids_ok next ps -> ids_ok next ps'.
Proof.
  intros H1 H2 [Ha Hb]. split.
  - intros j q [[-> ->]|[_ Hj]]%aget_upd; [done|by apply (Ha j)].
  - intros j1 j2 q1 q2 [[-> ->]|[Hn1 Hj1]]%aget_upd [[-> ->]|[Hn2 Hj2]]%aget_upd Hl1 Hl2 He; [done|..].
    + by destruct (H2 Hl1 j2 q2).
    + by destruct (H2 Hl2 j1 q1).
    + by eapply Hb.
Qed.

Lemma space_upd D' l :
  (owns p' = true -> in_space i p' /\ p_cr3 p' = l_proc_pml4 l + i * 4096 /\ heap_ok p') ->
  (p_loaded p' = true -> p_is_thread p' = true -> p_state p' <> EXITED ->
     exists o q, o <> i /\ aget ps o = Some q /\ owns q = true /\ in_space o p' /\ p_cr3 p' = p_cr3 q /\
       p_user_image_allocation p' = p_user_image_allocation q /\ (p_state q <> EXITED \/ o ∈ D')) ->
  (forall t q, t <> i -> aget ps t = Some q -> p_loaded q = true -> p_is_thread q = true -> p_state q <> EXITED ->
     in_space i q -> owns p = true -> owns p' = true /\ p_cr3 p' = p_cr3 p /\
       p_user_image_allocation p' = p_user_image_allocation p /\ (p_state p' <> EXITED \/ i ∈ D')) ->
  (forall o q, o <> i -> aget ps o = Some q -> o ∈ D -> p_state q <> EXITED \/ o ∈ D') ->
  space_ok D l ps -> space_ok D' l ps'.
Proof.
  intros H1 H2 H3 H4 [Ha Hb]. split.
  - intros j q [[-> ->]|[_ Hj]]%aget_upd; [done|by apply Ha].
  - intros t q [[-> ->]|[Hn Hj]]%aget_upd Hl Ht Hs.
    + destruct (H2 Hl Ht Hs) as (o&r&Ho&Hr&?). exists o, r. by rewrite aget_upd_ne.
    + destruct (Hb t q Hj Hl Ht Hs) as (o&r&Hr&Hw&Hin&Hc&Him&Hst). destruct (decide (o = i)) as [->|Ho].
      * replace r with p in * by congruence.
        destruct (H3 t q) as (?&Hc'&Him'&?); [done..|]. exists i, p'. rewrite aget_upd_eq.
        by rewrite Hc', Him'.
      * exists o, r. rewrite aget_upd_ne by done. split_and!; try done. destruct Hst; [by left|]. by eapply H4.
Qed.

Lemma wake_upd D' :
  (p_loaded p' = true -> forall j z, j <> i -> aget ps j = Some z -> zombie z -> waits_for p' z -> j ∈ D') ->
  (zombie p' -> forall j q, j <> i -> aget ps j = Some q -> p_loaded q = true -> waits_for q p' -> i ∈ D') ->
  (forall j1 j2 q z, j1 <> i -> j2 <> i -> aget ps j1 = Some q -> aget ps j2 = Some z -> j2 ∈ D ->
     p_loaded q = true -> zombie z -> waits_for q z -> j2 ∈ D') ->
  wake_ok D ps -> wake_ok D' ps'.
Proof.
  intros H1 H2 H3 Hw j1 j2 q z [[-> ->]|[Hn1 Hj1]]%aget_upd [[-> ->]|[Hn2 Hj2]]%aget_upd Hl Hz Hwf.
  - destruct Hz as (?&?&?), Hwf as (?&?). congruence.
  - by eapply H1.
  - by eapply H2.
  - exact (H3 j1 j2 q z Hn1 Hn2 Hj1 Hj2 (Hw j1 j2 q z Hj1 Hj2 Hl Hz Hwf) Hl Hz Hwf).
Qed.

Lemma mem_same (h : H) (a : option I) qr : same_id p p' -> mem_ok h a qr ps -> mem_ok h a qr ps'.
Proof.
  intros Hs Hm. unfold mem_ok, chunks_of, images_of in *.
  destruct (bind_upd (fun p => if owns p then p_heap_chunks p else [])) as (a1&b1&E1&E1').
  destruct (bind_upd (fun p => if owns p then [p_user_image_allocation p] else [])) as (a2&b2&E2&E2').
  rewrite E1', E2', (owns_same _ _ Hs). destruct Hs as (_&_&_&_&_&_&->&->&_). by rewrite <- E1, <- E2.
Qed.
End Lists.

Lemma inv_mono c (D D' : gset Z) (k : kernel) : D ⊆ D' -> inv c D k -> inv c D' k.
Proof.
  intros HD [Ht Hs Hi Hm [Hp1 Hp2] Hw Hc Hl]. split; try done.
  - split; [done|]. intros t p E1 E2 E3 E4. destruct (Hp2 t p E1 E2 E3 E4) as (o&q&?&?&?&?&?&[?|?]);
      exists o, q; split_and!; try done; [by left|right; set_solver].
  - intros i j q z E1 E2 E3 E4 E5. specialize (Hw i j q z E1 E2 E3 E4 E5). set_solver.
Qed.

(** Put a changed process back. *)
Definition with_proc (i : Z) (p' : process) (k : kernel) : kernel :=
  set_k_processes (<[Z.to_nat i := p']> (k_processes k)) k.

Lemma inv_become c D i p p' (k : kernel) :
  aget (k_processes k) i = Some p -> may_become c D (k_processes k) i p p' ->
  inv c D k -> inv c D (with_proc i p' k).
Proof.
  intros Hi (Hid&Hrun&Hst&Hwt) [Ht Hs Hids Hm Hp Hw Hc Hl].
  pose proof Hid as (Epid&Epar&Eld&Eth&Eupt&Ecr3&Eimg&Ech&Efd&_).
  split; cbn [with_proc k_processes set_k_processes k_ttys k_cpus k_next_pid k_heap k_aux k_quarantine k_layout
              k_canaries k_page_tables k_upper]; try done.
  - apply table_upd with (p := p); [done|rewrite Efd; by eapply Ht..|done].
  - apply sched_upd with (p := p); [done..| | |done].
    + intros H1 H2. destruct Hs as (_&_&_&Hd&_). destruct (Hd i p Hi H1 H2). rewrite Eld.
      destruct Hst as [->|(_&_&_&[?|?]&_)]; done.
    + intros E. destruct Hs as (_&_&_&_&He). destruct Hst as [Hst|(_&_&Hst&_)]; [|done].
      apply (He i p Hi). congruence.
  - apply ids_upd with (p := p); [done|..|done].
    + destruct Hids as [Hids _]. specialize (Hids i p Hi). rewrite Eld, Epid, Eimg, Eth, Ech.
      destruct Hst as [->|(Hst&?&_)]; [done|]. rewrite Hst in *. naive_solver.
    + intros Hlp j q Hj Hq Hlq Heq. destruct Hids as [_ Hids]. rewrite Epid in Heq.
      apply Hj. eapply Hids; [exact Hq|exact Hi|done| |done]. congruence.
  - by apply mem_same with (p := p).
  - apply space_upd with (p := p) (D := D); [done|..|done].
    + rewrite (owns_same _ _ Hid). unfold in_space. rewrite Eupt, Ecr3. intros Ho.
      destruct (proj1 Hp i p Hi Ho) as (?&?&?). split_and!; [done|done|by eapply heap_ok_same].
    + intros H1 H2 H3. destruct Hp as [_ Hp]. destruct (Hp i p Hi) as (o&q&Ho&Hq&Hin&Hcr&Him&Hq3); [congruence..| |].
      { destruct Hst as [Hst|(_&_&_&_&Hst&_)]; [congruence|]. by intros ?%Hst. }
      exists o, q. unfold in_space. rewrite Eupt, Ecr3, Eimg. split_and!; try done.
      intros ->. unfold owns in Hq. assert (q = p) as -> by congruence. by rewrite <- Eth, H2, andb_false_r in Hq.
    + intros t q Hn Hq Hl' Ht' Hs' Hin Ho. rewrite (owns_same _ _ Hid), Ecr3, Eimg. split_and!; try done.
      destruct Hp as [_ Hp]. destruct (Hp t q) as (o&r&Hr&_&Hin'&_&_&Hst'); [done..|].
      unfold in_space in Hin, Hin'. assert (o = i) as -> by lia. assert (r = p) as -> by congruence.
      destruct Hst as [->|(_&_&_&_&_&HD)]; [done|]. destruct (decide (p_state p' = EXITED)); [right; auto|by left].
    + by right.
  - apply wake_upd with (p := p) (D := D); [done|..|done].
    + intros H1 j z Hj Hz Hzz Hwf. destruct (Hwt (proj1 Hwf)) as [[Et Es]|Hno].
      * eapply (Hw i j); [done..|congruence|done|]. destruct Hwf as (?&Hpp&Htt). split_and!; [done|congruence|].
        by rewrite <- Et.
      * by destruct (Hno j z Hz Hzz).
    + intros (Hz1&Hz2&Hz3) j q Hj Hq Hlq Hwf. destruct Hst as [Hst|(_&_&_&_&_&HD)]; [|by apply HD].
      eapply (Hw j i); [done..| |].
      * split_and!; congruence.
      * destruct Hwf as (?&Hpp&Htt). rewrite Epar, Epid in *. done.
    + done.
Qed.

(** ** Freeing memory *)

#[global] Instance blocks_ok_Proper L : Proper ((≡ₚ) ==> iff) (blocks_ok L).
Proof. intros l1 l2 E. unfold blocks_ok. by rewrite E. Qed.

Lemma blocks_ok_app L l1 l2 : blocks_ok L (l1 ++ l2) -> blocks_ok L l1 /\ blocks_ok L l2.
Proof. intros [(?&_&?)%NoDup_app [??]%Forall_app]. by split. Qed.

Lemma blocks_ok_delete L p rest : blocks_ok L (p :: rest) -> blocks_ok (delete p L) rest.
Proof.
  intros [[Hn Hd]%NoDup_cons [_ Hf]%Forall_cons]. split; [done|]. rewrite Forall_forall in *.
  intros a Ha. destruct (Hf a Ha) as [? ?]. split; [done|]. rewrite lookup_delete_ne; [done|]. by intros ->.
Qed.

Lemma blocks_ok_insert L p m rest :
  p <> 0 -> L !! p = None -> blocks_ok L rest -> blocks_ok (<[p := m]> L) (p :: rest).
Proof.
  intros Hp Hn [Hd Hf]. split.
  - apply NoDup_cons. split; [|done]. intros Hin. rewrite Forall_forall in Hf. destruct (Hf p Hin) as [_ [? ?]]. congruence.
  - apply Forall_cons. split; [split; [done|by rewrite lookup_insert_eq]|]. eapply Forall_impl; [exact Hf|].
    intros a [? ?]. split; [done|]. destruct (decide (a = p)) as [->|]; [by rewrite lookup_insert_eq|by rewrite lookup_insert_ne].
Qed.

Lemma wp_kfree p rest L (Q : () -> kernel -> Prop) k :
  ph_rep (k_heap k) L -> blocks_ok L (p :: rest) ->
  (forall h' L', ph_rep h' L' -> blocks_ok L' rest -> Q tt (set_k_heap h' k)) -> wp (kfree p) Q k.
Proof.
  intros Hr Hb HQ. pose proof Hb as [_ [[_ [m Hm]] _]%Forall_cons].
  destruct (ph_free_ok p _ _ m Hr Hm) as (h'&E&Hr'). unfold kfree. do 2 wstep. apply wp_bind.
  eapply wp_must; [exact E|]. wstep. eapply HQ; [exact Hr'|]. by apply blocks_ok_delete.
Qed.

Lemma wp_image_free a p rest L (Q : () -> kernel -> Prop) k :
  ph_rep a L -> blocks_ok L (p :: rest) ->
  (forall a' L', ph_rep a' L' -> blocks_ok L' rest -> Q tt (set_k_aux (Some a') k)) -> wp (image_free a p) Q k.
Proof.
  intros Hr Hb HQ. pose proof Hb as [_ [[_ [m Hm]] _]%Forall_cons].
  destruct (ph_free_ok p _ _ m Hr Hm) as (h'&E&Hr'). unfold image_free. apply wp_bind.
  eapply wp_must; [exact E|]. cbn beta. wstep. eapply HQ; [exact Hr'|]. by apply blocks_ok_delete.
Qed.

Lemma wp_free_chunks chs rest L k (Q : () -> kernel -> Prop) :
  ph_rep (k_heap k) L -> blocks_ok L (chs ++ rest) ->
  (forall h' L', ph_rep h' L' -> blocks_ok L' rest -> Q tt (set_k_heap h' k)) ->
  wp (each (fun ch => if negb (ch =? 0) then kfree ch else mret tt) chs) Q k.
Proof.
  revert L k. induction chs as [|ch chs IH]; intros L k Hr Hb HQ; cbn [each].
  - wstep. specialize (HQ (k_heap k) L Hr Hb). by destruct k.
  - wstep. pose proof Hb as [_ [[Hne _] _]%Forall_cons]. apply Z.eqb_neq in Hne. rewrite Hne. cbn [negb].
    eapply wp_kfree; [done..|]. intros h' L' Hr' Hb'. eapply IH; [done..|].
    intros h2 L2 Hr2 Hb2. specialize (HQ h2 L2 Hr2 Hb2). by destruct k.
Qed.

(** ** Reaping *)

Definition reaped (p : process) : process := reap_tail (reap_head p).

(** Everything but the table, the heaps and the record of calls is as before. *)
Definition frame (k k' : kernel) : Prop :=
  k_cpus k' = k_cpus k /\ k_next_pid k' = k_next_pid k /\ k_ttys k' = k_ttys k /\
  k_layout k' = k_layout k /\ k_quarantine k' = k_quarantine k /\ k_canaries k' = k_canaries k /\
  k_page_tables k' = k_page_tables k /\ k_upper k' = k_upper k /\ k_tick k' = k_tick k /\
  k_desktop k' = k_desktop k /\ k_desktop_uid k' = k_desktop_uid k /\ k_mem k' = k_mem k.

#[global] Instance frame_po : PreOrder frame.
Proof. split; [by intros k|]. intros k1 k2 k3 H1 H2. unfold frame in *. intuition congruence. Qed.

(** Reaping frees what the process owns and empties its slot. *)
Lemma wp_reap_raw i p (k : kernel) (Q : () -> kernel -> Prop) :
  length (k_processes k) = 48%nat ->
  aget (k_processes k) i = Some p -> p_loaded p = true -> p_user_image_allocation p <> 0 ->
  mem_ok (k_heap k) (k_aux k) (k_quarantine k) (k_processes k) ->
  (forall k', k_processes k' = <[Z.to_nat i := reaped p]> (k_processes k) -> frame k k' ->
     mem_ok (k_heap k') (k_aux k') (k_quarantine k') (k_processes k') -> Q tt k') ->
  wp (process_reap i) Q k.
Proof.
  intros Hlen Hi Hld Him (a&Lh&La&Ea&Hrh&Hra&Hbh&Hba) HQ. unfold process_reap.
  apply wp_bind. eapply wp_proc; [done|]. wstep. unfold call. wstep.
  apply wp_bind. eapply wp_on_proc; [done|]. cbn [k_processes set_k_calls].
  assert (Hi' : aget (<[Z.to_nat i:=reap_head p]> (k_processes k)) i = Some (reap_head p)) by by eapply aget_upd_eq.
  destruct (bind_upd (k_processes k) i p (reaped p) Hi (fun p => if owns p then p_heap_chunks p else []))
    as (a1&b1&E1&E1').
  destruct (bind_upd (k_processes k) i p (reaped p) Hi (fun p => if owns p then [p_user_image_allocation p] else []))
    as (a2&b2&E2&E2').
  unfold chunks_of in Hbh. unfold images_of in Hba. rewrite E1 in Hbh. rewrite E2 in Hba.
  apply wp_bind. unfold owns in Hbh, Hba. rewrite Hld in Hbh, Hba. cbn [andb] in Hbh, Hba.
  apply Z.eqb_neq in Him. rewrite Him. cbn [negb]. rewrite andb_true_r.
  destruct (p_is_thread p) eqn:Eth; cbn [negb] in *.
  - wstep. eapply wp_on_proc; [done|]. cbn [k_processes set_k_processes set_k_calls].
    rewrite list_insert_insert_eq.
    apply HQ; [done|done|]. cbn [k_heap k_aux k_quarantine k_processes set_k_processes set_k_calls].
    change (reap_tail (reap_head p)) with (reaped p).
    exists a, Lh, La. unfold chunks_of, images_of. rewrite E1', E2'. done.
  - wstep. unfold process_free_heap_chunks. apply wp_bind. eapply wp_proc; [done|].
    cbn [p_is_thread reap_head set_p_code_size set_p_user_virtual_base set_p_user_stack_top set_p_entry
         set_p_exit_code set_p_wait_target_pid set_p_parent_pid set_p_pid set_p_state set_p_loaded p_heap_chunks].
    rewrite Eth. wstep.
    eapply (wp_free_chunks (p_heap_chunks p) (X ++ k_quarantine k ++ a1 ++ b1) Lh); [done| |].
    { eapply blocks_ok_Proper; [|exact Hbh]. solve_Permutation. }
    intros h' L' Hr' Hb'. eapply wp_on_proc; [exact Hi'|].
    unfold process_image_free. rewrite Him. wstep. wstep. cbn [k_aux set_k_processes set_k_heap set_k_calls].
    rewrite Ea. eapply (wp_image_free a _ (a2 ++ b2)); [exact Hra| |].
    { eapply blocks_ok_Proper; [|exact Hba]. solve_Permutation. }
    intros a' La' Hra' Hba'. eapply wp_on_proc; [eapply aget_upd_eq; exact Hi'|].
    cbn [k_processes set_k_processes set_k_heap set_k_calls set_k_aux].
    rewrite !list_insert_insert_eq.
    apply HQ; [done|done|]. cbn [k_heap k_aux k_quarantine k_processes set_k_processes set_k_heap set_k_calls set_k_aux].
    exists a', L', La'. unfold chunks_of, images_of. 
    match goal with |- context [<[Z.to_nat i := ?x]> _] => change x with (reaped p) end.
    rewrite E1', E2'. split_and!; try done.
Qed.

Definition threads_dead (o : Z) (ps : list process) : Prop :=
  forall t q, aget ps t = Some q -> p_loaded q = true -> p_is_thread q = true -> in_space o q ->
    p_state q = EXITED.

(** Slot [i] is done with once its threads are dead and nobody waits for it. *)
Lemma inv_drop c D i p (k : kernel) :
  aget (k_processes k) i = Some p -> (p_state p = EXITED -> threads_dead i (k_processes k)) ->
  (forall j q, aget (k_processes k) j = Some q -> p_loaded q = true -> zombie p -> ~ waits_for q p) ->
  inv c ({[i]} ∪ D) k -> inv c D k.
Proof.
  intros Hi Htd Hnw [Ht Hs Hids Hm [Hp1 Hp2] Hw Hc Hl]. split; try done.
  - split; [done|]. intros t q E1 E2 E3 E4. destruct (Hp2 t q E1 E2 E3 E4) as (o&r&Hr&Ho&Hin&Hcr&Him&Hst).
    exists o, r. split_and!; try done. destruct Hst as [|[->%elem_of_singleton|]%elem_of_union]; [by left| |by right].
    assert (r = p) as -> by congruence. destruct (decide (p_state p = EXITED)) as [Hx|]; [|by left].
    by destruct E4; eapply (Htd Hx).
  - intros j1 j2 q z E1 E2 E3 E4 E5. destruct (decide (j2 = i)) as [->|].
    + assert (z = p) as -> by congruence. by destruct (Hnw j1 q).
    + specialize (Hw j1 j2 q z E1 E2 E3 E4 E5). set_solver.
Qed.

Lemma wp_reap c D i p (k : kernel) (Q : () -> kernel -> Prop) :
  inv c ({[i]} ∪ D) k -> aget (k_processes k) i = Some p -> p_loaded p = true ->
  (p_running_on_cpu p = -1 \/ p_running_on_cpu p = c) ->
  (owns p = true -> threads_dead i (k_processes k)) ->
  (forall k', inv c D k' -> k_processes k' = <[Z.to_nat i := reaped p]> (k_processes k) -> frame k k' -> Q tt k') ->
  wp (process_reap i) Q k.
Proof.
  intros [Ht Hs Hids Hm Hp Hw Hc Hl] Hi Hld Hrun Htd HQ.
  pose proof (proj1 Hids i p Hi) as Hidp. rewrite Hld in Hidp. destruct Hidp as (_&_&Him).
  eapply wp_reap_raw; [apply Ht|done..|]. intros k' Ek' Hfr Hm'. apply HQ; [|done|done].
  destruct Hfr as (Ecpu&Enp&Ett&Elay&Equ&Ecan&Ept&Eup&_). destruct (proj2 Ht i p Hi) as [Hf1 Hf2].
  split; rewrite ?Ek', ?Ecpu, ?Enp, ?Ett, ?Elay, ?Equ, ?Ecan, ?Ept, ?Eup; try done.
  - apply table_upd with (p := p); [done|exact Hf1|exact Hf2|done].
  - apply sched_upd with (p := p); [done|done| |done|done]. intros ? ?. by destruct Hrun.
  - apply ids_upd with (p := p); [done|done|done|done].
  - by rewrite Ek', Equ in Hm'.
  - apply space_upd with (p := p) (D := {[i]} ∪ D); [done|done|done|..|done].
    + intros t q Hn Hq H1 H2 H3 H4 H5. destruct H3. by eapply (Htd H5).
    + set_solver.
  - apply wake_upd with (p := p) (D := {[i]} ∪ D); [done|done|..|done].
    + by intros (?&?&?).
    + set_solver.
Qed.

(** ** How the other processes change while some are being ended *)

Definition evolves (q q' : process) : Prop :=
  p_running_on_cpu q' = p_running_on_cpu q /\
  (p_loaded q' = false \/
   (same_id q q' /\ (p_state q = EXITED -> p_state q' = EXITED) /\
    (p_state q' = p_state q \/ p_state q' = EXITED \/ (p_state q = WAITING /\ p_state q' = READY)) /\
    (p_state q' = WAITING -> p_wait_target_pid q' = p_wait_target_pid q))).

Definition evolve (ps ps' : list process) : Prop :=
  forall j q, aget ps j = Some q -> exists q', aget ps' j = Some q' /\ evolves q q'.

Lemma same_id_refl p : same_id p p.
Proof. done. Qed.

Lemma same_id_trans p q r : same_id p q -> same_id q r -> same_id p r.
Proof. unfold same_id. intros. intuition congruence. Qed.

#[global] Instance evolve_po : PreOrder evolve.
Proof.
  split.
  - intros ps j q Hq. exists q. split; [done|]. split; [done|]. right. split_and!; [done|done|by left|done].
  - intros p1 p2 p3 H1 H2 j q Hq. destruct (H1 j q Hq) as (q2&Hq2&Hr2&E2). destruct (H2 j q2 Hq2) as (q3&Hq3&Hr3&E3).
    exists q3. split; [done|]. split; [congruence|]. destruct E3 as [|(Hs3&Hx3&Hst3&Hw3)]; [by left|].
    destruct E2 as [Hu|(Hs2&Hx2&Hst2&Hw2)]; [left; destruct Hs3 as (_&_&->&_); done|].
    right. split_and!; [by eapply same_id_trans|auto| |].
    2:{ intros E. rewrite (Hw3 E). apply Hw2. destruct Hst3 as [E3|[E3|[_ E3]]]; congruence. }
    destruct Hst3 as [E|[E|[E E']]], Hst2 as [F|[F|[F F']]]; naive_solver congruence.
Qed.

Lemma evolve_upd ps i p p' : aget ps i = Some p -> evolves p p' -> evolve ps (<[Z.to_nat i := p']> ps).
Proof.
  intros Hi He j q Hq. destruct (decide (j = i)) as [->|Hne].
  - exists p'. split; [by eapply aget_upd_eq|]. by replace q with p by congruence.
  - exists q. split; [by rewrite (aget_upd_ne _ _ _ _ Hi)|]. split; [done|]. right. split_and!; [done|done|by left|done].
Qed.

Lemma evolves_reaped p : evolves p (reaped p).
Proof. split; [done|]. by left. Qed.

Lemma threads_dead_evolve o ps ps' : length ps' = length ps -> evolve ps ps' -> threads_dead o ps -> threads_dead o ps'.
Proof.
  intros Hlen He Htd t q Hq Hl Ht Hin. pose proof (aget_Some_lt _ _ _ Hq) as Hlt. rewrite Hlen in Hlt.
  destruct (aget_lt ps t Hlt) as [r Hr]. destruct (He t r Hr) as (q'&Hq'&_&[Hu|(Hs&Hx&_)]).
  - congruence.
  - assert (q' = q) as -> by congruence. apply Hx. destruct Hs as (_&_&El&Et&Eu&_). unfold in_space in Hin. eapply Htd; [exact Hr|..|unfold in_space]; congruence.
Qed.

(** ** Telling the parent *)

Lemma inv_len c D (k : kernel) : inv c D k -> length (k_processes k) = 48%nat.
Proof. intros Hk. apply (inv_table _ _ _ Hk). Qed.

(** Only [i] and waiting processes are touched. *)
Definition spares (i : Z) (ps ps' : list process) : Prop :=
  forall j z, j <> i -> aget ps j = Some z -> p_state z <> WAITING -> aget ps' j = Some z.

Lemma wp_wake_waiter c D i p (k : kernel) (Q : () -> kernel -> Prop) :
  inv c ({[i]} ∪ D) k -> aget (k_processes k) i = Some p -> p_loaded p = true -> p_state p = EXITED ->
  (p_running_on_cpu p = -1 \/ p_running_on_cpu p = c) -> threads_dead i (k_processes k) ->
  (forall k', inv c D k' -> evolve (k_processes k) (k_processes k') -> spares i (k_processes k) (k_processes k') ->
     frame k k' -> Q tt k') ->
  wp (process_wake_waiter i) Q k.
Proof.
  intros Hk Hi Hld Hst Hrun Htd HQ. unfold process_wake_waiter.
  destruct (inv_ids _ _ _ Hk) as [Hid Huniq].
  assert (Hdone : (forall j q, aget (k_processes k) j = Some q -> p_loaded q = true -> zombie p -> ~ waits_for q p) -> Q tt k).
  { intros Hno. apply HQ; [by eapply inv_drop|done|by intros ??|done]. }
  apply wp_bind. eapply wp_proc; [done|]. destruct (Z.eqb_spec (p_parent_pid p) 0) as [E0|E0].
  { wstep. apply Hdone. intros j q Hj Hlq _ (_&Hpp&_). specialize (Hid j q Hj). rewrite Hlq in Hid. lia. }
  apply wp_bind. apply wp_find_by_pid.
  2: { intros Hn. wstep. apply Hdone. intros j q Hj Hlq _ (_&Hpp&_). destruct (Hn j q Hj Hlq); congruence. }
  intros j q Hj Hlq Epid _. apply wp_bind. eapply wp_proc; [done|]. unfold state_is.
  assert (Hpar : forall j' q', aget (k_processes k) j' = Some q' -> p_loaded q' = true -> waits_for q' p -> q' = q).
  { intros j' q' Hj' Hl' (_&Hpp&_). assert (j' = j) by (eapply Huniq; [done..|]; congruence). congruence. }
  destruct (bool_decide_reflect (p_state q = WAITING)) as [Hw|Hw]; cbn [negb].
  2: { wstep. apply Hdone. intros j' q' Hj' Hl' _ Hwf. pose proof (Hpar j' q' Hj' Hl' Hwf) as ->. by destruct Hwf. }
  destruct (negb (p_wait_target_pid q =? 0) && _) eqn:Et; bools.
  { wstep. apply Hdone. intros j' q' Hj' Hl' _ Hwf. pose proof (Hpar j' q' Hj' Hl' Hwf) as ->. destruct Hwf as (_&_&[?|?]); done. }
  wstep. eapply wp_on_proc; [exact Hj|].
  set (q' := set_p_state READY _). assert (Hne : i <> j) by (intros ->; congruence).
  assert (Hk' : inv c ({[i]} ∪ D) (with_proc j q' k)).
  { eapply inv_become; [exact Hj| |done]. split; [done|]. split; [done|]. split; [|done].
    right. split_and!; [done..| |congruence|done].
    destruct (inv_sched _ _ _ Hk) as (_&_&_&Hd&_). destruct (decide (p_running_on_cpu q = -1)); [by left|].
    destruct (decide (p_running_on_cpu q = c)); [by right|]. destruct (Hd j q Hj); congruence. }
  assert (Hi' : aget (k_processes (with_proc j q' k)) i = Some p) by (cbn [with_proc k_processes set_k_processes]; by rewrite (aget_upd_ne _ _ _ _ Hj)).
  assert (Hev : evolve (k_processes k) (k_processes (with_proc j q' k))).
  { eapply evolve_upd; [exact Hj|]. split; [done|]. right. split_and!; [done|congruence|by right; right|done]. }
  eapply wp_reap; [exact Hk'|exact Hi'|done|done|..].
  - intros _. eapply threads_dead_evolve; [|exact Hev|done].
    exact (eq_trans (inv_len _ _ _ Hk') (eq_sym (inv_len _ _ _ Hk))).
  - intros k' Hinv Ek' Hfr. apply HQ; [done| | |done].
    + etrans; [exact Hev|]. rewrite Ek'. eapply evolve_upd; [exact Hi'|apply evolves_reaped].
    + intros j' z Hj' Hz Hzs. rewrite Ek', (aget_upd_ne _ _ _ _ Hi') by done.
      cbn [with_proc k_processes set_k_processes]. rewrite (aget_upd_ne _ _ _ _ Hj); [done|congruence].
Qed.

(** ** Small changes *)

(** A change that leaves the identity, the CPU and the state alone. *)
Definition neutral (f : process -> process) : Prop :=
  forall p, same_id p (f p) /\ p_running_on_cpu (f p) = p_running_on_cpu p /\ p_state (f p) = p_state p /\
    p_wait_target_pid (f p) = p_wait_target_pid p.

Lemma inv_neutral c D i p f (k : kernel) :
  neutral f -> aget (k_processes k) i = Some p -> inv c D k -> inv c D (with_proc i (f p) k).
Proof.
  intros Hf Hi Hk. destruct (Hf p) as (?&?&?&?). eapply inv_become; [exact Hi| |done].
  split_and!; [done|done|by left|]. intros. left. split; congruence.
Qed.

Lemma evolves_neutral f p : neutral f -> evolves p (f p).
Proof. intros Hf. destruct (Hf p) as (?&?&?&?). split; [done|]. right. split_and!; [done|congruence|by left|done]. Qed.

(** The invariant reads the kernel through these fields only. *)
Lemma inv_frame c D (k k' : kernel) :
  inv c D k -> k_processes k' = k_processes k -> k_cpus k' = k_cpus k -> k_next_pid k' = k_next_pid k ->
  dom (k_ttys k') = dom (k_ttys k) -> k_layout k' = k_layout k -> k_quarantine k' = k_quarantine k ->
  k_heap k' = k_heap k -> k_aux k' = k_aux k -> k_canaries k' = k_canaries k ->
  k_page_tables k' = k_page_tables k -> k_upper k' = k_upper k -> inv c D k'.
Proof.
  intros [Ht Hs Hi Hm Hp Hw Hc Hl] E1 E2 E3 E4 E5 E6 E7 E8 E9 E10 E11.
  split; rewrite ?E1, ?E2, ?E3, ?E5, ?E6, ?E7, ?E8, ?E9, ?E10, ?E11; try done.
  destruct Ht as [Hl1 Ht]. split; [done|]. intros i p Hp'. destruct (Ht i p Hp') as [? Hf]. split; [done|].
  eapply Forall_impl; [exact Hf|]. intros e He Ho Hz. specialize (He Ho Hz). apply elem_of_dom. rewrite E4. by apply elem_of_dom.
Qed.

(** The CPUs keep what they run; at most they lose their current process. *)
Definition cpus_evolve (cs cs' : list cpu) : Prop :=
  length cs' = length cs /\
  forall d x, aget cs d = Some x -> exists x', aget cs' d = Some x' /\ c_slice x' = c_slice x /\
    c_sched_cursor x' = c_sched_cursor x /\ (c_current x' = c_current x \/ c_current x' = None).

#[global] Instance cpus_evolve_po : PreOrder cpus_evolve.
Proof.
  split.
  - intros cs. split; [done|]. intros d x Hx. exists x. split_and!; [done..|by left].
  - intros c1 c2 c3 [L1 H1] [L2 H2]. split; [congruence|]. intros d x Hx.
    destruct (H1 d x Hx) as (y&Hy&E1&F1&G1). destruct (H2 d y Hy) as (z&Hz&E2&F2&G2).
    exists z. split_and!; [done|congruence|congruence|]. destruct G2, G1; naive_solver congruence.
Qed.

Definition with_cpu (d : Z) (x' : cpu) (k : kernel) : kernel := set_k_cpus (<[Z.to_nat d := x']> (k_cpus k)) k.

Lemma aget_cpu cs d (x x' : cpu) e y :
  aget cs d = Some x -> aget (<[Z.to_nat d := x']> cs) e = Some y -> (e = d /\ y = x') \/ (e <> d /\ aget cs e = Some y).
Proof.
  intros Hd%aget_Some_lt. rewrite aget_insert by done. case_decide; subst; [intros [= <-]; by left|by right].
Qed.

Lemma inv_cpu c D d x x' (k : kernel) :
  aget (k_cpus k) d = Some x -> c_slice x' = c_slice x -> (c_current x' = c_current x \/ c_current x' = None) ->
  inv c D k -> inv c D (with_cpu d x' k).
Proof.
  intros Hd Es Ec [Ht (Ha&Hb&Hc&Hs) Hi Hm Hp Hw Hcan Hl].
  split; cbn [with_cpu k_processes set_k_cpus k_ttys k_cpus k_next_pid k_heap k_aux k_quarantine k_layout
              k_canaries k_page_tables k_upper]; try done.
  split_and!; [..|apply Hs|apply Hs].
  - intros e y i [[-> ->]|[_ He]]%(aget_cpu _ _ x) Hs'; [|by eapply Ha|done]. eapply Ha; [exact Hd|congruence].
  - intros e y i [[-> ->]|[_ He]]%(aget_cpu _ _ x) Hs'; [|by eapply Hb|done]. rewrite Es. eapply Hb; [exact Hd|].
    destruct Ec; congruence.
  - intros i p Hip Hr. destruct (Hc i p Hip Hr) as (y&Hy&Hsl). rewrite aget_insert by by eapply aget_Some_lt.
    case_decide as E; [|by exists y]. exists x'. split; [done|]. rewrite Es. subst d. congruence.
Qed.

Lemma cpus_evolve_upd d x x' cs :
  aget cs d = Some x -> c_slice x' = c_slice x -> c_sched_cursor x' = c_sched_cursor x ->
  (c_current x' = c_current x \/ c_current x' = None) ->
  cpus_evolve cs (<[Z.to_nat d := x']> cs).
Proof.
  intros Hd Es Ec Ecur. split; [by rewrite length_insert|]. intros e y He.
  rewrite aget_insert by by eapply aget_Some_lt. case_decide as E; subst.
  - assert (y = x) as -> by congruence. by exists x'.
  - exists y. split_and!; [done..|by left].
Qed.

(** CPU [c] still has its process [m] if and only if that is running. *)
Definition cur_ok (c m : Z) (k : kernel) : Prop :=
  exists x p, aget (k_cpus k) c = Some x /\ c_slice x = Some m /\ aget (k_processes k) m = Some p /\
    ((c_current x = Some m /\ p_loaded p = true /\ p_state p = RUNNING) \/
     (c_current x = None /\ p_state p <> RUNNING)).

Lemma evolve_not_running c D (k k' : kernel) m p :
  inv c D k' -> evolve (k_processes k) (k_processes k') -> aget (k_processes k) m = Some p -> p_state p <> RUNNING ->
  exists p', aget (k_processes k') m = Some p' /\ p_state p' <> RUNNING.
Proof.
  intros Hk He Hp Hs. destruct (He m p Hp) as (p'&Hp'&_&[Hu|(_&_&Hst&_)]); exists p'; (split; [done|]).
  - pose proof (proj1 (inv_ids _ _ _ Hk) m p' Hp') as Hi. rewrite Hu in Hi. destruct Hi as (_&->&_). done.
  - destruct Hst as [->|[->|[_ ->]]]; done.
Qed.

(** ** Ending processes *)

(** Clearing a pending terminal read only touches that process and the terminal. *)
Lemma wp_clear_pending c D i p (k : kernel) (Q : () -> kernel -> Prop) :
  inv c D k -> aget (k_processes k) i = Some p ->
  (forall k' f, inv c D k' -> neutral f -> k_processes k' = <[Z.to_nat i := f p]> (k_processes k) ->
     k_cpus k' = k_cpus k -> k_desktop k' = k_desktop k -> Q tt k') ->
  wp (process_clear_pending_tty_wait i) Q k.
Proof.
  intros Hk Hi HQ. unfold process_clear_pending_tty_wait. apply wp_bind. eapply wp_proc; [done|].
  assert (Hid : Q tt k).
  { apply (HQ k id); [done|by intros q| |done|done]. pose proof Hi as Hi'. unfold aget in Hi'.
    destruct (0 <=? i); [|done]. cbn [id]. by rewrite list_insert_id. }
  destruct (_ || _) eqn:E1; [by wstep|]. bools. unfold FD_TABLE_CAPACITY in *.
  destruct (proj2 (inv_table _ _ _ Hk) i p Hi) as [Hlen Hf].
  destruct (aget_lt (p_fd_table p) (p_pending_read_fd p)) as [e He]; [lia|].
  apply wp_bind. eapply wp_must; [exact He|]. destruct (_ || _ || _) eqn:E2; [by wstep|]. bools.
  match goal with Hb : bool_decide _ = true |- _ => apply bool_decide_eq_true in Hb end. do 2 wstep.
  assert (is_Some (k_ttys k !! e_object e)) as [t Et].
  { rewrite Forall_forall in Hf. apply Hf; [|done|done]. unfold aget in He. destruct (0 <=? _); [|done].
    by eapply list_elem_of_lookup_2. }
  apply wp_bind. eapply wp_must; [exact Et|]. apply wp_bind.
  set (f := fun p => set_p_pending_read_count 0 (set_p_pending_read_buffer 0 (set_p_pending_read_fd (-1) p))).
  assert (neutral f) as Hn by by intros q.
  assert (Hfin : forall k1, inv c D k1 -> k_processes k1 = k_processes k -> k_cpus k1 = k_cpus k ->
    k_desktop k1 = k_desktop k -> wp (on_proc i f) Q k1).
  { intros k1 Hk1 Ep Ec Ed. eapply wp_on_proc; [by rewrite Ep|]. eapply HQ; [|exact Hn| |exact Ec|exact Ed].
    - apply (inv_neutral c D i p f k1 Hn); [by rewrite Ep|done].
    - cbn [k_processes set_k_processes]. by rewrite Ep. }
  destruct (_ =? _); wstep; [|by apply Hfin]. apply Hfin; [|done..]. eapply inv_frame; [exact Hk|try done..].
  cbn [k_ttys set_k_ttys]. rewrite dom_insert_L. apply elem_of_dom_2 in Et. set_solver.
Qed.

Lemma wp_leave_if_current c D d x i (k : kernel) (Q : () -> kernel -> Prop) :
  inv c D k -> aget (k_cpus k) d = Some x ->
  (forall k', inv c D k' -> k_processes k' = k_processes k -> cpus_evolve (k_cpus k) (k_cpus k') ->
     (forall x', aget (k_cpus k') d = Some x' -> c_current x' <> Some i /\ (c_current x <> Some i -> c_current x' = c_current x)) -> Q tt k') ->
  wp (leave_if_current d i) Q k.
Proof.
  intros Hk Hx HQ. unfold leave_if_current. apply wp_bind. eapply wp_this_cpu; [done|].
  destruct (bool_decide_reflect (c_current x = Some i)) as [E|E].
  - unfold leave_current. eapply wp_on_cpu; [done|]. apply HQ; [|done| |].
    + eapply inv_cpu; [exact Hx|done|by right|done].
    + eapply cpus_evolve_upd; [exact Hx|done|done|by right].
    + intros x'. cbn [k_cpus set_k_cpus]. rewrite aget_insert_eq by by eapply aget_Some_lt. by intros [= <-].
  - wstep. apply HQ; [done|done|done|]. intros x' Hx'. assert (x' = x) as -> by congruence. done.
Qed.

(** None of the processes that end with slot [i] runs on another CPU. *)
Definition quiet (c : Z) (i : Z) (ps : list process) : Prop :=
  forall j q, aget ps j = Some q -> p_loaded q = true ->
    (j = i \/ (p_is_thread q = true /\ in_space i q)) -> p_running_on_cpu q = -1 \/ p_running_on_cpu q = c.

Lemma quiet_evolve c i ps ps' : length ps' = length ps -> evolve ps ps' -> quiet c i ps -> quiet c i ps'.
Proof.
  intros Hlen He Hq j q Hj Hl Hw. pose proof (aget_Some_lt _ _ _ Hj) as Hlt. rewrite Hlen in Hlt.
  destruct (aget_lt ps j Hlt) as [r Hr]. destruct (He j r Hr) as (q'&Hq'&Hrun&[Hu|(Hs&_)]); [congruence|].
  assert (q' = q) as -> by congruence. rewrite Hrun. destruct Hs as (_&_&El&Et&Eu&_). eapply Hq; [exact Hr|congruence|].
  destruct Hw as [|[? Hin]]; [by left|right]. unfold in_space in *. split; congruence.
Qed.

(** The slot of a thread is nobody's address space. *)
Lemma thread_slot_empty D l ps i p :
  space_ok D l ps -> aget ps i = Some p -> owns p = false -> threads_dead i ps.
Proof.
  intros [_ Hsp] Hi Ho t q Hq Hl Ht Hin. destruct (decide (p_state q = EXITED)) as [|Hn]; [done|].
  destruct (Hsp t q Hq Hl Ht Hn) as (o&r&Hr&Hor&Hin'&_). unfold in_space in *. assert (o = i) as -> by lia. congruence.
Qed.

(** Mark slot [i] as ended. *)
Definition exit_with (code : Z) (p : process) : process := set_p_state EXITED (set_p_exit_code code p).

Lemma inv_exit c D i p code (k : kernel) :
  aget (k_processes k) i = Some p -> p_loaded p = true -> p_state p <> EXITED ->
  (p_running_on_cpu p = -1 \/ p_running_on_cpu p = c) ->
  inv c D k -> inv c ({[i]} ∪ D) (with_proc i (exit_with code p) k).
Proof.
  intros Hi Hl Hs Hr Hk. eapply inv_become; [exact Hi| |eapply inv_mono; [|exact Hk]; set_solver].
  split; [done|]. split; [done|]. split; [|done]. right. split_and!; try done. set_solver.
Qed.

Lemma evolves_exit code p : evolves p (exit_with code p).
Proof. split; [done|]. right. split_and!; [done|done|by right; left|done]. Qed.

Lemma wp_kill_thread c D o i x (k : kernel) (Q : () -> kernel -> Prop) :
  inv c ({[o]} ∪ D) k -> 0 <= i < 48 -> quiet c o (k_processes k) -> aget (k_cpus k) c = Some x ->
  (forall k', inv c ({[o]} ∪ D) k' -> evolve (k_processes k) (k_processes k') -> cpus_evolve (k_cpus k) (k_cpus k') ->
     (forall z, aget (k_processes k) o = Some z -> p_state z = EXITED -> aget (k_processes k') o = Some z) ->
     (forall m, cur_ok c m k -> cur_ok c m k') ->
     (forall q, i <> o -> aget (k_processes k') i = Some q -> p_loaded q = true -> p_is_thread q = true ->
        in_space o q -> p_state q = EXITED) -> Q tt k') ->
  wp (kill_thread c o (o + 1) i) Q k.
Proof.
  intros Hk Hi Hquiet Hx HQ. pose proof (inv_len _ _ _ Hk) as Hlen.
  destruct (aget_lt (k_processes k) i) as [t Ht]; [lia|]. unfold kill_thread. apply wp_bind. eapply wp_proc; [done|].
  assert (Hskip : (i <> o -> p_loaded t = true -> p_is_thread t = true -> in_space o t -> p_state t = EXITED) -> Q tt k).
  { intros Hd. apply HQ; [done|done|done|done|done|]. intros q Hne Hq. assert (q = t) as -> by congruence. auto. }
  destruct (_ || _ || _) eqn:E1; bools.
  { wstep. apply Hskip. intros Hne Hl Hth. rewrite Hl, Hth in E1. by rewrite bool_decide_false in E1. }
  destruct (state_is _ EXITED || _) eqn:E2.
  { wstep. apply Hskip. intros _ Hl _ _. apply orb_true_iff in E2 as [E2|E2]; apply bool_decide_eq_true in E2; [done|].
    specialize (proj1 (inv_ids _ _ _ Hk) i t Ht). rewrite Hl. tauto. }
  destruct (negb (p_user_page_tables t =? o + 1)) eqn:E3; bools.
  { wstep. apply Hskip. intros. by unfold in_space in *. }
  match goal with Hb : bool_decide (i = o) = false |- _ => apply bool_decide_eq_false in Hb; rename Hb into Hne end.
  match goal with Hb : state_is _ EXITED = false |- _ => apply bool_decide_eq_false in Hb; rename Hb into Hst end.
  match goal with Hb : p_loaded t = true |- _ => rename Hb into Hl end.
  match goal with Hb : p_is_thread t = true |- _ => rename Hb into Hth end.
  assert (Hrun : p_running_on_cpu t = -1 \/ p_running_on_cpu t = c) by (eapply Hquiet; [exact Ht|done|by right]).
  wstep. eapply wp_clear_pending; [exact Hk|exact Ht|]. intros k1 f Hk1 Hf Ep1 Ec1 _.
  destruct (Hf t) as (Hid&Hr1&Hs1&_). pose proof Hid as (_&_&El1&Et1&_).
  assert (Ht1 : aget (k_processes k1) i = Some (f t)) by (rewrite Ep1; by eapply aget_upd_eq).
  apply wp_bind. eapply wp_on_proc; [exact Ht1|].
  assert (Hk2 : inv c ({[i]} ∪ ({[o]} ∪ D)) (with_proc i (exit_with (-1) (f t)) k1)).
  { apply inv_exit; [done|congruence|congruence|by rewrite Hr1|done]. }
  assert (Ht2 : aget (k_processes (with_proc i (exit_with (-1) (f t)) k1)) i = Some (exit_with (-1) (f t)))
    by (cbn [with_proc k_processes set_k_processes]; by eapply aget_upd_eq).
  apply wp_bind. eapply wp_wake_waiter; [exact Hk2|exact Ht2|by rewrite <- El1 in Hl|done|by rewrite <- Hr1 in Hrun|..].
  { eapply thread_slot_empty; [apply (inv_space _ _ _ Hk2)|exact Ht2|]. unfold owns.
    cbn [exit_with p_loaded p_is_thread set_p_state set_p_exit_code]. rewrite Et1, Hth. by rewrite andb_false_r. }
  intros k3 Hk3 He3 Hsp3 (Ec3&_). eapply wp_leave_if_current; [exact Hk3|rewrite Ec3; cbn [with_proc k_cpus set_k_processes]; by rewrite Ec1|].
  intros k4 Hk4 Ep4 Hc4 Hcur4.
  assert (Hsp : spares i (k_processes k) (k_processes k3)).
  { intros j z Hj Hz Hzs. apply Hsp3; [done| |done]. cbn [with_proc k_processes set_k_processes].
    by rewrite (aget_upd_ne _ _ _ _ Ht1), Ep1, (aget_upd_ne _ _ _ _ Ht). }
  assert (Ec : k_cpus k3 = k_cpus k) by (rewrite Ec3; exact Ec1).
  assert (He : evolve (k_processes k) (k_processes k3)).
  { etrans; [|exact He3]. etrans; [eapply evolve_upd; [exact Ht|by apply evolves_neutral]|]. rewrite <- Ep1.
    eapply evolve_upd; [exact Ht1|apply evolves_exit]. }
  rewrite Ec in Hc4. apply HQ; [done|by rewrite Ep4|done| | |].
  - intros z Hz Hzs. rewrite Ep4. apply Hsp; congruence.
  - intros m (y&p&Hy&Hys&Hm&Hcase). destruct (proj2 Hc4 c y Hy) as (y'&Hy'&Es&_&Ecur).
    destruct (Hcur4 y' Hy') as [Hcur4' Hcur5]. assert (y = x) as -> by congruence. destruct (decide (m = i)) as [->|Hmi].
    + destruct (He3 i _ Ht2) as (q&Hq&_). destruct (evolve_not_running _ _ _ _ _ _ Hk3 He3 Ht2) as (q'&Hq'&Hqs); [done|].
      exists y', q'. rewrite Ep4. split_and!; [done|congruence|done|]. right. split; [|done].
      destruct Ecur as [Ecur|]; [|done]. assert (t = p) as -> by congruence. destruct Hcase as [(Hc1&_)|(Hc1&_)]; congruence.
    + destruct Hcase as [(Hc1&Hl1&Hrr)|(Hc1&Hrr)].
      * exists y', p. rewrite Ep4. split_and!; [done|congruence|apply Hsp; congruence|]. left. split; [|done].
        rewrite Hcur5; congruence.
      * destruct (evolve_not_running _ _ _ _ _ _ Hk3 He Hm Hrr) as (q'&Hq'&Hqs). exists y', q'. rewrite Ep4.
        split_and!; [done|congruence|done|]. right. split; [|done]. destruct Ecur; congruence.
  - intros q _ Hq Hlq _ _. rewrite Ep4 in Hq. destruct (He3 i _ Ht2) as (q'&Hq'&_&[Hu|(_&Hx3&_)]); [congruence|].
    assert (q' = q) as -> by congruence. by apply Hx3.
Qed.

Lemma wp_kill_loop c D o z js : forall x (k : kernel) (Q : () -> kernel -> Prop),
  inv c ({[o]} ∪ D) k -> Forall (fun i => 0 <= i < 48) js -> quiet c o (k_processes k) ->
  aget (k_cpus k) c = Some x -> aget (k_processes k) o = Some z -> p_state z = EXITED ->
  (forall k', inv c ({[o]} ∪ D) k' -> evolve (k_processes k) (k_processes k') -> cpus_evolve (k_cpus k) (k_cpus k') ->
     aget (k_processes k') o = Some z -> (forall m, cur_ok c m k -> cur_ok c m k') ->
     (forall t q, t ∈ js -> t <> o -> aget (k_processes k') t = Some q -> p_loaded q = true -> p_is_thread q = true ->
        in_space o q -> p_state q = EXITED) -> Q tt k') ->
  wp (each (kill_thread c o (o + 1)) js) Q k.
Proof.
  induction js as [|i js IH]; intros x k Q Hk Hjs Hq Hx Hz Hzs HQ; cbn [each].
  { wstep. apply HQ; try done. by intros t q ?%elem_of_nil. }
  apply Forall_cons in Hjs as [Hi Hjs]. apply wp_bind. eapply wp_kill_thread; [exact Hk|done|done|exact Hx|].
  intros k1 Hk1 He1 Hc1 Hz1 Hm1 Hd1. destruct (proj2 Hc1 c x Hx) as (x1&Hx1&_).
  assert (Hlen1 : length (k_processes k1) = length (k_processes k)) by by rewrite (inv_len _ _ _ Hk), (inv_len _ _ _ Hk1).
  eapply IH; [exact Hk1|done|by eapply quiet_evolve|exact Hx1|by apply Hz1|done|].
  intros k2 Hk2 He2 Hc2 Hz2 Hm2 Hd2. apply HQ; [done|by etrans|by etrans|done|by auto|].
  intros t q [->|Ht]%elem_of_cons Hne Hq2 Hl Hth Hin; [|by eapply Hd2].
  pose proof (aget_Some_lt _ _ _ Hq2) as Hlt. rewrite (inv_len _ _ _ Hk2) in Hlt.
  destruct (aget_lt (k_processes k1) i) as [r Hr]; [by rewrite (inv_len _ _ _ Hk1)|].
  destruct (He2 i r Hr) as (q'&Hq'&_&[Hu|(Hid&Hx2&_)]); [congruence|]. assert (q' = q) as -> by congruence.
  apply Hx2. destruct Hid as (_&_&El&Et&Eu&_). unfold in_space in Hin.
  eapply Hd1; [done|exact Hr|congruence|congruence|unfold in_space; congruence].
Qed.

Lemma slots_range : Forall (fun i => 0 <= i < 48) slots.
Proof. apply Forall_forall. intros i Hi%elem_of_seqZ. unfold PROCESS_MAX_COUNT in Hi. lia. Qed.

Lemma wp_kill_siblings c D o z x (k : kernel) (Q : () -> kernel -> Prop) :
  inv c ({[o]} ∪ D) k -> quiet c o (k_processes k) -> aget (k_cpus k) c = Some x ->
  aget (k_processes k) o = Some z -> p_loaded z = true -> p_state z = EXITED ->
  (forall k', inv c ({[o]} ∪ D) k' -> evolve (k_processes k) (k_processes k') -> cpus_evolve (k_cpus k) (k_cpus k') ->
     aget (k_processes k') o = Some z -> threads_dead o (k_processes k') ->
     (forall m, cur_ok c m k -> cur_ok c m k') -> Q tt k') ->
  wp (process_kill_sibling_threads c o) Q k.
Proof.
  intros Hk Hq Hx Hz Hl Hs HQ. unfold process_kill_sibling_threads. apply wp_bind. eapply wp_proc; [done|].
  pose proof (inv_space _ _ _ Hk) as Hsp. destruct (p_is_thread z) eqn:Eth; cbn [orb].
  { wstep. apply HQ; try done. eapply thread_slot_empty; [exact Hsp|done|]. unfold owns. by rewrite Eth, andb_false_r. }
  assert (Ho : owns z = true) by (unfold owns; by rewrite Hl, Eth).
  destruct (proj1 Hsp o z Hz Ho) as [Hin _]. unfold in_space in Hin. pose proof (aget_Some_lt _ _ _ Hz).
  destruct (Z.eqb_spec (p_user_page_tables z) 0); [lia|]. rewrite Hin.
  eapply wp_kill_loop; [exact Hk|apply slots_range|done|exact Hx|exact Hz|done|].
  intros k' Hk' He Hc Hz' Hm Hd. apply HQ; try done. intros t q Ht Hlq Hth Hinq. destruct (decide (t = o)) as [->|Hne].
  - congruence.
  - eapply Hd; [|done..]. apply elem_of_seqZ. pose proof (aget_Some_lt _ _ _ Ht) as Hlt. rewrite (inv_len _ _ _ Hk') in Hlt.
    unfold PROCESS_MAX_COUNT. lia.
Qed.

(** The common core of exit, kill and fault. *)
Lemma wp_end_process c D i p code x (k : kernel) (Q : () -> kernel -> Prop) :
  inv c D k -> aget (k_processes k) i = Some p -> p_loaded p = true -> p_state p <> EXITED ->
  quiet c i (k_processes k) -> aget (k_cpus k) c = Some x ->
  (forall k', inv c D k' -> evolve (k_processes k) (k_processes k') -> cpus_evolve (k_cpus k) (k_cpus k') ->
     (forall q, aget (k_processes k') i = Some q -> p_state q <> RUNNING) ->
     (forall m, m <> i -> cur_ok c m k -> cur_ok c m k') -> Q tt k') ->
  wp (_ ← on_proc i (exit_with code); _ ← process_kill_sibling_threads c i; process_wake_waiter i) Q k.
Proof.
  intros Hk Hi Hl Hs Hq Hx HQ. assert (Hrun : p_running_on_cpu p = -1 \/ p_running_on_cpu p = c)
    by (eapply Hq; [exact Hi|done|by left]).
  wstep. eapply wp_on_proc; [exact Hi|]. pose proof (inv_exit c D i p code k Hi Hl Hs Hrun Hk) as Hk1.
  assert (Hi1 : aget (k_processes (with_proc i (exit_with code p) k)) i = Some (exit_with code p))
    by (cbn [with_proc k_processes set_k_processes]; by eapply aget_upd_eq).
  assert (He1 : evolve (k_processes k) (k_processes (with_proc i (exit_with code p) k)))
    by (eapply evolve_upd; [exact Hi|apply evolves_exit]).
  apply wp_bind. eapply wp_kill_siblings; [exact Hk1| |exact Hx|exact Hi1|done|done|].
  { eapply quiet_evolve; [|exact He1|done]. exact (eq_trans (inv_len _ _ _ Hk1) (eq_sym (inv_len _ _ _ Hk))). }
  intros k2 Hk2 He2 Hc2 Hi2 Htd Hm2. eapply wp_wake_waiter; [exact Hk2|exact Hi2|done|done|done|done|].
  intros k3 Hk3 He3 Hsp3 (Ec3&_). apply HQ; [done|etrans; [exact He1|by etrans]|by rewrite Ec3| |].
  - intros q Hq3. destruct (evolve_not_running _ _ _ _ _ _ Hk3 He3 Hi2) as (q'&Hq'&?); [done|congruence].
  - intros m Hmi (y&p'&Hy&Hys&Hm&Hcase). assert (cur_ok c m k2) as (y2&p2&Hy2&Hys2&Hp2&Hcase2).
    { apply Hm2. exists y, p'. split_and!; try done. cbn [with_proc k_processes set_k_processes].
      by rewrite (aget_upd_ne _ _ _ _ Hi). }
    destruct Hcase2 as [(?&?&Hr2)|(?&Hr2)].
    + exists y2, p2. rewrite Ec3. split_and!; [done|done|apply Hsp3; congruence|by left].
    + destruct (evolve_not_running _ _ _ _ _ _ Hk3 He3 Hp2 Hr2) as (q'&Hq'&?). exists y2, q'. rewrite Ec3.
      split_and!; [done|done|done|by right].
Qed.

(** A record of a call leaves the invariant alone. *)
Lemma inv_calls c D l (k : kernel) : inv c D k -> inv c D (set_k_calls l k).
Proof. intros Hk. by eapply inv_frame. Qed.

Lemma wp_close_windows c D pid (k : kernel) (Q : () -> kernel -> Prop) :
  inv c D k -> (forall k', inv c D k' -> k_processes k' = k_processes k -> k_cpus k' = k_cpus k -> Q tt k') ->
  wp (close_windows pid) Q k.
Proof.
  intros Hk HQ. unfold close_windows. do 2 wstep. destruct (k_desktop k); [unfold call|]; wstep; apply HQ; try done.
  by apply inv_calls.
Qed.


End Inv.
End ProcSched.
