(* ===== verification/ProcSteps.v ===== *)
(** * ProcSteps: the machine seen by the scheduler (kernel/src/process.c)

    The steps of a machine with any number of CPUs under the big kernel lock: a
    CPU without work picks a process; a running process is interrupted by the
    timer, makes a system call, faults or parks itself; the kernel's main loop
    kills and starts processes.  Every step of a machine that satisfies the
    invariant is defined and leads to a machine that satisfies it. *)

From Stdlib Require Import ZArith Lia Bool ZifyBool.
From stdpp Require Import base numbers option list list_numbers gmap sets.
From S2P Require Import Prelude StateM ProcState Elf Process ProcSched.

Open Scope Z_scope.

Module ProcSteps.
Import ProcState Elf Process ProcSched.

Section Steps.
Context {H I : Type} {HP : PageHeap H} {IP : PageHeap I} {X : list Z}.
Abbreviation kernel := (kernel H I).
Abbreviation K := (ST kernel).
Abbreviation inv := (@ProcSched.inv H I HP IP X).

(** ** The states a CPU can be in *)

(** CPU [c] runs the process of slot [i] in user mode. *)
Definition running (c i : Z) (k : kernel) : Prop :=
  exists x, aget (k_cpus k) c = Some x /\ c_slice x = Some i /\ c_current x = Some i.

(** CPU [c] runs no process. *)
Definition idle (c : Z) (k : kernel) : Prop := exists x, aget (k_cpus k) c = Some x /\ c_slice x = None.

(** The kernel is about to go back to the scheduler on CPU [c]. *)
Definition trapped (c i : Z) (k : kernel) : Prop :=
  exists x p, aget (k_cpus k) c = Some x /\ c_slice x = Some i /\
    aget (k_processes k) i = Some p /\ p_state p <> RUNNING.

Lemma inv_enter c D (k : kernel) : inv (-1) D k -> inv c D k.
Proof.
  intros [Ht (Ha&Hb&Hc&Hd&He) Hi Hm Hp Hw Hcan Hl]. split; try done. split_and!; try done.
  intros i p Hip Hr _. by eapply Hd.
Qed.

(** Between steps the process a CPU runs is marked as running there. *)
Lemma running_proc c i (k : kernel) :
  inv (-1) ∅ k -> running c i k ->
  exists p, aget (k_processes k) i = Some p /\ p_loaded p = true /\ p_state p = RUNNING /\ p_running_on_cpu p = c.
Proof.
  intros Hk (x&Hx&Hs&_). destruct (inv_sched _ _ _ Hk) as (Ha&_&_&Hd&_). destruct (Ha c x i Hx Hs) as (p&Hp&Hr).
  exists p. assert (p_running_on_cpu p <> -1) as Hne. { apply aget_Some_lt in Hx. lia. }
  destruct (Hd i p Hp Hne Hne). done.
Qed.

(** Back to user mode: the process of CPU [c] is again marked as running. *)
Lemma inv_settle c D i p (k : kernel) :
  inv c D k -> running c i k -> aget (k_processes k) i = Some p -> p_loaded p = true -> p_state p = RUNNING ->
  inv (-1) D k.
Proof.
  intros [Ht (Ha&Hb&Hc&Hd&He) Hi Hm Hp Hw Hcan Hl] (x&Hx&Hs&_) Hip Hlp Hsp. split; try done. split_and!; try done.
  intros j q Hq Hr _. destruct (decide (p_running_on_cpu q = c)) as [E|E]; [|by eapply Hd].
  destruct (Hc j q Hq Hr) as (y&Hy&Hsl). rewrite E in Hy. assert (j = i) as -> by congruence.
  by assert (q = p) as -> by congruence.
Qed.

(** A CPU that runs nothing has no process in transition. *)
Lemma inv_idle c D (k : kernel) : inv c D k -> idle c k -> inv (-1) D k.
Proof.
  intros [Ht (Ha&Hb&Hc&Hd&He) Hi Hm Hp Hw Hcan Hl] (x&Hx&Hs). split; try done. split_and!; try done.
  intros j q Hq Hr _. eapply Hd; [exact Hq|done|]. intros E. destruct (Hc j q Hq Hr) as (y&Hy&Hsl). congruence.
Qed.

(** ** Leaving a process *)

Lemma inv_release c D i p x (k : kernel) :
  inv c D k -> aget (k_cpus k) c = Some x -> c_slice x = Some i ->
  aget (k_processes k) i = Some p -> p_state p <> RUNNING ->
  inv (-1) ({[i]} ∪ D) (with_proc i (set_p_running_on_cpu (-1) p) (with_cpu c (set_c_slice None x) k)).
Proof.
  intros [Ht (Ha&Hb&Hc&Hd&He) Hids Hm Hp Hw Hcan Hl] Hx Hs Hi Hst.
  destruct (Ha c x i Hx Hs) as (p0&Hp0&Hrun). assert (p0 = p) as -> by congruence.
  pose proof (aget_Some_lt _ _ _ Hx) as Hclt.
  split; cbn [with_proc with_cpu k_processes set_k_processes k_ttys k_cpus set_k_cpus k_next_pid k_heap k_aux k_quarantine
              k_layout k_canaries k_page_tables k_upper]; try done.
  - apply table_upd with (p := p); [done| | |done]; by destruct (proj2 Ht i p Hi).
  - split_and!.
    + intros d y j [[-> ->]|[Hne Hy]]%(aget_cpu _ _ x) Hsl; [done| |done].
      destruct (Ha d y j Hy Hsl) as (q&Hq&Hrq). exists q. split; [|done].
      rewrite (aget_upd_ne _ _ _ _ Hi); [done|]. intros ->. congruence.
    + intros d y j [[-> ->]|[Hne Hy]]%(aget_cpu _ _ x) Hsl; [by right|by eapply Hb|done].
    + intros j q [[-> ->]|[Hne Hq]]%(aget_upd _ _ _ _ Hi) Hr; [done|].
      destruct (Hc j q Hq Hr) as (y&Hy&Hsl). exists y. rewrite aget_insert by done.
      rewrite decide_False; [done|]. intros E. rewrite <- E in Hy. congruence.
    + intros j q [[-> ->]|[Hne Hq]]%(aget_upd _ _ _ _ Hi) Hr _; [done|]. eapply Hd; [exact Hq|done|].
      intros E. destruct (Hc j q Hq Hr) as (y&Hy&Hsl). congruence.
    + intros j q [[-> ->]|[Hne Hq]]%(aget_upd _ _ _ _ Hi) Hr; [done|]. by eapply He.
  - apply ids_upd with (p := p); [done|exact (proj1 Hids i p Hi)| |done].
    intros Hlp j q Hj Hq Hlq Heq. apply Hj. by eapply Hids.
  - by apply mem_same with (p := p).
  - apply space_upd with (p := p) (D := D); [done|..|done].
    + intros Ho. exact (proj1 Hp i p Hi Ho).
    + intros H1 H2 H3. destruct (proj2 Hp i p Hi H1 H2 H3) as (o&q&Hq&Ho&?&?&?&Hoo). exists o, q.
      split_and!; try done; [|destruct Hoo; [by left|right; set_solver]].
      intros ->. assert (q = p) as -> by congruence. unfold owns in Ho. change (p_is_thread p = true) in H2.
      rewrite H2, andb_false_r in Ho. done.
    + intros t q Hn Hq Hlq Htq Hsq Hin Ho. split_and!; try done. right. set_solver.
    + intros o q Ho Hq Hin. right. set_solver.
  - apply wake_upd with (p := p) (D := D); [done|..|done].
    + intros H1 j z Hj Hz Hzz Hwf. specialize (Hw i j p z Hi Hz H1 Hzz Hwf). set_solver.
    + set_solver.
    + set_solver.
Qed.

Lemma threads_dead_settled c D i p (k : kernel) :
  inv c D k -> i ∉ D -> aget (k_processes k) i = Some p -> p_state p = EXITED -> threads_dead i (k_processes k).
Proof.
  intros Hk Hni Hi Hs t q Hq Hl Ht Hin. destruct (decide (p_state q = EXITED)) as [|Hn]; [done|].
  destruct (proj2 (inv_space _ _ _ Hk) t q Hq Hl Ht Hn) as (o&r&Hr&_&Hin'&_&_&[Hst|Ho]); unfold in_space in *;
    assert (o = i) as -> by lia; congruence.
Qed.

(** run_slice_leave from a trapped state gives a settled one in which the CPU
    is free. *)
Lemma wp_run_slice_leave c i (k : kernel) (Q : Z -> kernel -> Prop) :
  inv c ∅ k -> trapped c i k ->
  (forall r k', inv (-1) ∅ k' -> idle c k' -> Q r k') ->
  wp (run_slice_leave c) Q k.
Proof.
  intros Hk (x&p&Hx&Hs&Hi&Hst) HQ. unfold run_slice_leave. apply wp_bind. eapply wp_this_cpu; [exact Hx|].
  apply wp_bind. eapply wp_must; [exact Hs|]. apply wp_bind. eapply wp_on_cpu; [exact Hx|].
  apply wp_bind. eapply wp_on_proc; [exact Hi|].
  pose proof (inv_release c ∅ i p x k Hk Hx Hs Hi Hst) as Hk1. rewrite union_empty_r_L in Hk1.
  change (set_k_processes _ (set_k_cpus _ _)) with (with_proc i (set_p_running_on_cpu (-1) p) (with_cpu c (set_c_slice None x) k)).
  set (k1 := with_proc _ _ _) in *.
  assert (Hi1 : aget (k_processes k1) i = Some (set_p_running_on_cpu (-1) p)).
  { cbn [k1 with_proc with_cpu k_processes set_k_processes set_k_cpus]. by eapply aget_upd_eq. }
  assert (Hc1 : idle c k1).
  { exists (set_c_slice None x). split; [|done]. cbn [k1 with_proc with_cpu k_cpus set_k_processes set_k_cpus].
    apply aget_insert_eq. by eapply aget_Some_lt. }
  assert (Hfin : forall k2, inv (-1) ∅ k2 -> idle c k2 ->
    wp (q ← proc i; _ ← (if negb (c_resume_result x =? PROCESS_RUN_YIELDED) || (p_preempt_count q =? 0)
          then on_proc i (fun p => set_p_runtime_ticks (u64 (p_runtime_ticks p + 1)) p) else mret ());
        mret (c_resume_result x)) Q k2).
  { intros k2 Hk2 Hc2. pose proof (aget_Some_lt _ _ _ Hi) as Hlt. rewrite (inv_len _ _ _ Hk) in Hlt.
    destruct (aget_lt (k_processes k2) i) as [q Hq]; [by rewrite (inv_len _ _ _ Hk2)|].
    apply wp_bind. eapply wp_proc; [exact Hq|]. destruct (_ || _); wstep; [eapply wp_on_proc; [exact Hq|]|]; wstep.
    - apply HQ; [|done]. by apply inv_neutral; [intros r| |].
    - wstep. by apply HQ. }
  assert (Hdead : p_state p = EXITED -> threads_dead i (k_processes k1)).
  { intros Hs1 t q [[-> ->]|[_ Hq]]%(aget_upd _ _ _ _ Hi) Hl Ht Hin; [done|].
    exact (threads_dead_settled c ∅ i p k Hk (not_elem_of_empty i) Hi Hs1 t q Hq Hl Ht Hin). }
  apply wp_bind. eapply wp_proc; [exact Hi1|]. unfold state_is. cbn [p_state set_p_running_on_cpu].
  destruct (bool_decide_reflect (p_state p = EXITED)) as [E|E].
  - assert (Hld : p_loaded p = true).
    { pose proof (proj1 (inv_ids _ _ _ Hk) i p Hi) as Hp. destruct (p_loaded p); [done|]. destruct Hp as (_&Hp&_). congruence. }
    apply wp_bind. eapply wp_wake_waiter; [rewrite union_empty_r_L; exact Hk1|exact Hi1|done|done|by left|by apply Hdead|].
    intros k2 Hk2 _ _ (Ec2&_). apply Hfin; [done|]. destruct Hc1 as (y&Hy&Hys). exists y. by rewrite Ec2.
  - apply wp_bind. wstep. apply Hfin; [|done]. eapply inv_drop; [exact Hi1| | |rewrite union_empty_r_L; exact Hk1].
    + done.
    + intros j q _ _ (_&Hz&_). done.
Qed.
(** ** Dispatching *)

Lemma wp_canary_check c D d (k : kernel) (Q : () -> kernel -> Prop) :
  inv c D k -> Q tt k -> wp (kstack_canary_check d) Q k.
Proof.
  intros Hk HQ. unfold kstack_canary_check. eapply wp_mono; [apply (wp_each (fun k' => k' = k))|].
  - intros i k' Hi ->. pose proof (proj1 (Forall_forall _ _) slots_range i Hi) as Hi'. cbn beta in Hi'. unfold canary_check_slot.
    destruct (aget_lt (k_processes k) i) as [p Hp]; [rewrite (inv_len _ _ _ Hk); lia|].
    apply wp_bind. eapply wp_proc; [exact Hp|]. destruct (negb (p_loaded p)); [by wstep|]. do 2 wstep.
    apply wp_bind. eapply wp_must; [|].
    { rewrite (inv_canaries _ _ _ Hk). unfold aget. destruct (Z.leb_spec 0 i); [|lia]. apply lookup_replicate_2. lia. }
    rewrite Z.eqb_refl. by wstep.
  - done.
  - by intros [] k' ->.
Qed.

Lemma pick_from_Some ps order i :
  pick_from ps order = Some (Some i) -> exists p, aget ps i = Some p /\ runnable p = true /\ i ∈ order.
Proof.
  induction order as [|j order IH]; simpl; [done|]. destruct (aget ps j) as [p|] eqn:E; simpl; [|done].
  destruct (runnable p) eqn:R.
  - intros [= <-]. exists p. split_and!; [done..|by left].
  - intros (q&?&?&?)%IH. exists q. split_and!; [done..|by right].
Qed.

Lemma pick_from_total ps order :
  Forall (fun i => 0 <= i < Z.of_nat (length ps)) order -> exists r, pick_from ps order = Some r.
Proof.
  induction order as [|j order IH]; simpl; [by eexists|]. intros [Hj Ho]%Forall_cons.
  destruct (aget_lt ps j Hj) as [p ->]. simpl. destruct (runnable p); [by eexists|by apply IH].
Qed.

Lemma scan_order_range cursor : Forall (fun i => 0 <= i < 48) (scan_order cursor).
Proof.
  unfold scan_order. apply Forall_fmap, Forall_forall. intros a _. unfold compose, PROCESS_MAX_COUNT.
  apply Z.mod_pos_bound. lia.
Qed.

Lemma runnable_loaded c D i p (k : kernel) :
  inv c D k -> aget (k_processes k) i = Some p -> runnable p = true ->
  p_loaded p = true /\ p_running_on_cpu p = -1 /\ p_state p <> EXITED /\ p_state p <> WAITING /\ p_state p <> RUNNING.
Proof.
  intros Hk Hi Hr. unfold runnable, state_is in Hr. bools. pose proof (proj1 (inv_ids _ _ _ Hk) i p Hi) as Hp.
  apply orb_true_iff in H1 as [E%bool_decide_eq_true|[E%bool_decide_eq_true _]%andb_true_iff];
    destruct (p_loaded p); rewrite E in *; naive_solver.
Qed.

(** A free CPU takes a runnable process. *)
Lemma inv_dispatch c i p p' x x' (k : kernel) :
  inv (-1) ∅ k -> aget (k_cpus k) c = Some x -> c_slice x = None ->
  aget (k_processes k) i = Some p -> runnable p = true ->
  same_id p p' -> p_running_on_cpu p' = c -> p_state p' = RUNNING ->
  c_slice x' = Some i -> c_current x' = Some i ->
  inv (-1) ∅ (with_proc i p' (with_cpu c x' k)).
Proof.
  intros Hk Hx Hxs Hi Hrun Hid Hr' Hs' Hxs' Hxc'. destruct (runnable_loaded _ _ i p k Hk Hi Hrun) as (Hl&Hm1&Hs1&_).
  destruct Hk as [Ht (Ha&Hb&Hc&Hd&He) Hids Hm Hp Hw Hcan Hlen].
  pose proof Hid as (Epid&Epar&Eld&Eth&Eupt&Ecr3&Eimg&Ech&Efd&_). pose proof (aget_Some_lt _ _ _ Hx) as Hclt.
  split; cbn [with_proc with_cpu k_processes set_k_processes k_ttys k_cpus set_k_cpus k_next_pid k_heap k_aux k_quarantine
              k_layout k_canaries k_page_tables k_upper]; try done.
  - apply table_upd with (p := p); [done|rewrite Efd; by eapply Ht..|done].
  - split_and!.
    + intros d y j [[-> ->]|[Hne Hy]]%(aget_cpu _ _ x) Hsl; [| |done].
      * assert (j = i) as -> by congruence. exists p'. split; [by eapply aget_upd_eq|done].
      * destruct (Ha d y j Hy Hsl) as (q&Hq&Hrq). exists q. split; [|done].
        rewrite (aget_upd_ne _ _ _ _ Hi); [done|]. intros ->. assert (q = p) as -> by congruence.
        apply aget_Some_lt in Hy. lia.
    + intros d y j [[-> ->]|[Hne Hy]]%(aget_cpu _ _ x) Hsl; [left; congruence|by eapply Hb|done].
    + intros j q [[-> ->]|[Hne Hq]]%(aget_upd _ _ _ _ Hi) Hr.
      * exists x'. rewrite Hr'. split; [by apply aget_insert_eq|done].
      * destruct (Hc j q Hq Hr) as (y&Hy&Hsl). exists y. rewrite aget_insert by done.
        rewrite decide_False; [done|]. intros E. rewrite <- E in Hy. congruence.
    + intros j q [[-> ->]|[Hne Hq]]%(aget_upd _ _ _ _ Hi) Hr Hr2; [split; congruence|by eapply Hd].
    + intros j q [[-> ->]|[Hne Hq]]%(aget_upd _ _ _ _ Hi) Hr; [rewrite Hr'; lia|by eapply He].
  - apply ids_upd with (p := p); [done|..|done].
    + pose proof (proj1 Hids i p Hi) as Hpp. rewrite Eld, Epid, Eimg, Hs', Hl in *. naive_solver.
    + intros Hlp j q Hj Hq Hlq Heq. apply Hj. eapply Hids; [exact Hq|exact Hi|..]; congruence.
  - by apply mem_same with (p := p).
  - apply space_upd with (p := p) (D := ∅); [done|..|done].
    + rewrite (owns_same _ _ Hid). unfold in_space. rewrite Eupt, Ecr3. intros Ho.
      destruct (proj1 Hp i p Hi Ho) as (?&?&?). split_and!; [done|done|by eapply heap_ok_same].
    + intros H1 H2 _. rewrite Eld in H1. rewrite Eth in H2. destruct (proj2 Hp i p Hi H1 H2 Hs1) as (o&q&Hq&Ho&Hin&Hcr&Him&Hoo).
      exists o, q. unfold in_space. rewrite Eupt, Ecr3, Eimg. split_and!; try done.
      intros ->. assert (q = p) as -> by congruence. unfold owns in Ho. by rewrite H2, andb_false_r in Ho.
    + intros t q Hn Hq Hlq Htq Hsq Hin Ho. rewrite (owns_same _ _ Hid), Ecr3, Eimg. split_and!; try done. left. congruence.
    + set_solver.
  - apply wake_upd with (p := p) (D := ∅); [done|..|done].
    + intros _ j z Hj Hz Hzz (Hwf&_). congruence.
    + intros (_&Hz&_). congruence.
    + done.
Qed.

(** Step over changes of the executing CPU and of one process, collapsing
    repeated stores to the same slot. *)
Lemma wp_on_proc_again i p q f (Q : () -> kernel -> Prop) (k : kernel) :
  aget (k_processes k) i = Some p ->
  Q tt (with_proc i (f q) k) -> wp (on_proc i f) Q (with_proc i q k).
Proof.
  intros Hx HQ. eapply wp_on_proc.
  - cbn [with_proc k_processes set_k_processes]. by eapply aget_upd_eq.
  - cbn [with_proc k_processes set_k_processes]. rewrite list_insert_insert_eq. by destruct k.
Qed.

(** A CPU and a process changed together. *)
Definition pair_state (c : Z) (x : cpu) (i : Z) (p : process) (k : kernel) : kernel := with_proc i p (with_cpu c x k).

Lemma wp_pair_cpu c x0 x i p f (Q : () -> kernel -> Prop) (k : kernel) :
  aget (k_cpus k) c = Some x0 -> Q tt (pair_state c (f x) i p k) -> wp (on_cpu c f) Q (pair_state c x i p k).
Proof.
  intros Hx HQ. pose proof (aget_Some_lt _ _ _ Hx). unfold pair_state in *. eapply wp_on_cpu.
  - cbn [with_proc with_cpu k_cpus set_k_cpus set_k_processes]. by apply aget_insert_eq.
  - cbn [with_proc with_cpu k_cpus set_k_cpus set_k_processes]. rewrite list_insert_insert_eq. by destruct k.
Qed.

Lemma wp_pair_proc c x i p0 p f (Q : () -> kernel -> Prop) (k : kernel) :
  aget (k_processes k) i = Some p0 -> Q tt (pair_state c x i (f p) k) -> wp (on_proc i f) Q (pair_state c x i p k).
Proof. intros Hi HQ. unfold pair_state in *. by eapply wp_on_proc_again. Qed.

Lemma wp_pair_read c x i p0 p Q (k : kernel) :
  aget (k_processes k) i = Some p0 -> Q p (pair_state c x i p k) -> wp (proc i) Q (pair_state c x i p k).
Proof.
  intros Hi HQ. eapply wp_proc; [|done]. cbn [pair_state with_proc with_cpu k_processes set_k_cpus set_k_processes].
  by eapply aget_upd_eq.
Qed.

Lemma pair_state_id c x i p (k : kernel) :
  aget (k_cpus k) c = Some x -> aget (k_processes k) i = Some p -> pair_state c x i p k = k.
Proof.
  intros Hc Hi. unfold pair_state, with_proc, with_cpu. unfold aget in *.
  destruct (0 <=? c); [|done]. destruct (0 <=? i); [|done]. destruct k; cbn in *. by rewrite !list_insert_id.
Qed.

(** Dispatching either finds nothing to run or gives the CPU to a process that
    was runnable, and marks it as running there. *)
Lemma wp_run_slice_enter c (k : kernel) (Q : option (Z * bool) -> kernel -> Prop) :
  inv (-1) ∅ k -> idle c k ->
  Q None k ->
  (forall i p parked k', aget (k_processes k) i = Some p -> runnable p = true ->
     inv (-1) ∅ k' -> running c i k' -> parked = negb (p_kresume_rsp p =? 0) -> Q (Some (i, parked)) k') ->
  wp (run_slice_enter c) Q k.
Proof.
  intros Hk (x&Hx&Hxs) HQ0 HQ. unfold run_slice_enter. apply wp_bind. eapply wp_canary_check; [exact Hk|].
  apply wp_bind. unfold process_pick_next_ready. apply wp_bind. eapply wp_this_cpu; [exact Hx|]. do 2 wstep.
  destruct (pick_from_total (k_processes k) (scan_order (c_sched_cursor x))) as [r Er].
  { eapply Forall_impl; [apply scan_order_range|]. intros y Hy. cbn beta in Hy. rewrite (inv_len _ _ _ Hk). lia. }
  apply wp_bind. eapply wp_must; [exact Er|]. destruct r as [i|]; [|by do 2 wstep].
  apply pick_from_Some in Er as (p&Hi&Hrun&_). rewrite <- (pair_state_id c x i p k Hx Hi) at 1.
  apply wp_bind. eapply wp_pair_cpu; [exact Hx|]. wstep.
  apply wp_bind. eapply wp_pair_cpu; [exact Hx|].
  apply wp_bind. eapply wp_pair_proc; [exact Hi|].
  apply wp_bind. eapply wp_pair_cpu; [exact Hx|].
  apply wp_bind. eapply wp_pair_proc; [exact Hi|].
  apply wp_bind. eapply wp_pair_read; [exact Hi|].
  set (p1 := set_p_switch_count _ _). set (x1 := set_c_slices _ _).
  apply wp_bind. unfold paging_load_cr3.
  assert (Hrest : forall x2, wp (_ ← on_cpu c (set_c_rsp0 (p_kernel_stack_top p1));
      let parked := negb (p_kresume_rsp p1 =? 0) in
      _ ← (if parked then on_proc i (set_p_kresume_rsp 0) else mret ());
      _ ← on_cpu c (set_c_resume_result PROCESS_RUN_NONE);
      _ ← on_cpu c (set_c_slice (Some i));
      mret (Some (i, parked))) Q (pair_state c (set_c_current (Some i) x2) i p1 k)).
  { intros x2. apply wp_bind. eapply wp_pair_cpu; [exact Hx|]. cbv zeta.
    assert (Hend : forall p2, same_id p p2 -> p_running_on_cpu p2 = c -> p_state p2 = RUNNING ->
      wp (_ ← on_cpu c (set_c_resume_result PROCESS_RUN_NONE); _ ← on_cpu c (set_c_slice (Some i));
          mret (Some (i, negb (p_kresume_rsp p1 =? 0)))) Q
        (pair_state c (set_c_rsp0 (p_kernel_stack_top p1) (set_c_current (Some i) x2)) i p2 k)).
    { intros p2 Hid Hr Hs. apply wp_bind. eapply wp_pair_cpu; [exact Hx|].
      apply wp_bind. eapply wp_pair_cpu; [exact Hx|]. wstep. eapply HQ; [exact Hi|exact Hrun| | |done].
      - by eapply inv_dispatch.
      - eexists. split_and!; [cbn [pair_state with_proc with_cpu k_cpus set_k_processes set_k_cpus];
          apply aget_insert_eq; by eapply aget_Some_lt|done|done]. }
    apply wp_bind. destruct (negb (p_kresume_rsp p1 =? 0)) eqn:Ep.
    - eapply wp_pair_proc; [exact Hi|]. by apply Hend.
    - wstep. by apply Hend. }
  destruct (p_cr3 p1 =? 0).
  - wstep. exact (Hrest (set_c_slices (u64 (c_slices x + 1)) (set_c_sched_cursor ((i + 1) mod PROCESS_MAX_COUNT) x))).
  - eapply wp_pair_cpu; [exact Hx|].
    exact (Hrest (set_c_cr3 (p_cr3 p1) (set_c_slices (u64 (c_slices x + 1)) (set_c_sched_cursor ((i + 1) mod PROCESS_MAX_COUNT) x)))).
Qed.

(** ** Kill *)

Lemma wp_end_process_then {A} c D i p code x (rest : K A) (k : kernel) Q :
  inv c D k -> aget (k_processes k) i = Some p -> p_loaded p = true -> p_state p <> EXITED ->
  quiet c i (k_processes k) -> aget (k_cpus k) c = Some x ->
  (forall k', inv c D k' -> evolve (k_processes k) (k_processes k') -> cpus_evolve (k_cpus k) (k_cpus k') ->
     (forall q, aget (k_processes k') i = Some q -> p_state q <> RUNNING) ->
     (forall m, m <> i -> cur_ok c m k -> cur_ok c m k') -> wp rest Q k') ->
  wp (_ ← on_proc i (exit_with code); _ ← process_kill_sibling_threads c i; _ ← process_wake_waiter i; rest) Q k.
Proof.
  intros Hk Hi Hl Hs Hq Hx HQ. pose proof (wp_end_process c D i p code x k (fun _ => wp rest Q) Hk Hi Hl Hs Hq Hx HQ) as Hw.
  destruct Hw as (u&k'&E&Hr). destruct Hr as (y&k2&E2&HQ2). exists y, k2. split; [|done].
  unfold mbind, ST_bind in *. destruct (on_proc i _ k) as [[? k1]|]; [|done].
  destruct (process_kill_sibling_threads c i k1) as [[? k3]|]; [|done]. by rewrite E.
Qed.

Lemma cur_ok_running c i (k : kernel) : inv (-1) ∅ k -> running c i k -> cur_ok c i k.
Proof.
  intros Hk Hr. destruct (running_proc c i k Hk Hr) as (p&Hp&Hl&Hs&_). destruct Hr as (x&Hx&Hxs&Hxc).
  exists x, p. split_and!; [done..|by left].
Qed.

Lemma cur_ok_transfer c m (k k' : kernel) :
  k_cpus k' = k_cpus k ->
  (forall p, aget (k_processes k) m = Some p -> exists p', aget (k_processes k') m = Some p' /\
     p_loaded p' = p_loaded p /\ p_state p' = p_state p) -> cur_ok c m k -> cur_ok c m k'.
Proof.
  intros Ec Hp (x&p&Hx&Hs&Hm&Hcase). destruct (Hp p Hm) as (p'&Hp'&El&Es). exists x, p'. rewrite Ec, El, Es. done.
Qed.

Lemma wp_process_kill c pid x (k : kernel) (Q : Z -> kernel -> Prop) :
  inv c ∅ k -> aget (k_cpus k) c = Some x ->
  (forall i p, aget (k_processes k) i = Some p -> p_loaded p = true -> p_pid p = pid -> quiet c i (k_processes k)) ->
  (forall r k', inv c ∅ k' -> evolve (k_processes k) (k_processes k') -> cpus_evolve (k_cpus k) (k_cpus k') ->
     (forall m, cur_ok c m k -> cur_ok c m k') -> Q r k') ->
  wp (process_kill c pid) Q k.
Proof.
  intros Hk Hx Hq HQ. unfold process_kill. apply wp_bind. apply wp_find_by_pid; [|intros _; wstep; by apply HQ].
  intros i p Hi Hl Hpid _. specialize (Hq i p Hi Hl Hpid). apply wp_bind. eapply wp_proc; [exact Hi|]. unfold state_is.
  destruct (bool_decide (p_state p = EMPTY)); [wstep; by apply HQ|].
  destruct (bool_decide_reflect (p_state p = EXITED)) as [|Hs]; [wstep; by apply HQ|].
  apply wp_bind. eapply wp_clear_pending; [exact Hk|exact Hi|]. intros k1 f Hk1 Hf Ep1 Ec1 _.
  destruct (Hf p) as ((_&_&El&_)&Hr1&Hs1&_).
  assert (Hi1 : aget (k_processes k1) i = Some (f p)) by (rewrite Ep1; by eapply aget_upd_eq).
  assert (He1 : evolve (k_processes k) (k_processes k1)).
  { rewrite Ep1. eapply evolve_upd; [exact Hi|by apply evolves_neutral]. }
  apply wp_bind. eapply wp_close_windows; [exact Hk1|]. intros k2 Hk2 Ep2 Ec2.
  eapply (wp_end_process_then c ∅ i (f p) (-1) x); [exact Hk2|by rewrite Ep2|congruence|congruence| |by rewrite Ec2, Ec1|].
  { rewrite Ep2. eapply quiet_evolve; [|exact He1|done]. by rewrite (inv_len _ _ _ Hk1), (inv_len _ _ _ Hk). }
  intros k3 Hk3 He3 Hc3 Hnr Hm3. rewrite Ep2 in He3. rewrite Ec2, Ec1 in Hc3.
  destruct (proj2 Hc3 c x Hx) as (x3&Hx3&_&_&Hx3c). apply wp_bind.
  eapply wp_leave_if_current; [exact Hk3|exact Hx3|]. intros k4 Hk4 Ep4 Hc4 Hcur4. wstep.
  apply HQ; [done|rewrite Ep4; by etrans|by etrans|].
  intros m Hm. destruct (decide (m = i)) as [->|Hne].
  - destruct Hm as (y&q&Hy&Hys&_&Hcase). assert (y = x) as -> by congruence.
    destruct (proj2 Hc3 c x Hx) as (x3'&Hx3'&Es3&_). assert (x3' = x3) as -> by congruence.
    destruct (proj2 Hc4 c x3 Hx3) as (x4&Hx4&Es4&_&Ecur4). destruct (Hcur4 x4 Hx4) as [Hn4 _].
    destruct (He3 i (f p) Hi1) as (q'&Hq'&_). exists x4, q'. rewrite Ep4. split_and!; [done|congruence|done|].
    right. split; [|by apply Hnr]. destruct Hx3c as [Hx3c|Hx3c], Hcase as [(Hc1&_)|(Hc1&_)], Ecur4; congruence.
  - assert (cur_ok c m k3) as (y&q&Hy&Hys&Hqm&Hcase).
    { apply Hm3; [done|]. eapply cur_ok_transfer; [|..|exact Hm]; [by rewrite Ec2|]. intros q Hqm. exists q.
      rewrite Ep2, Ep1. rewrite (aget_upd_ne _ _ _ _ Hi) by done. done. }
    assert (y = x3) as -> by congruence. destruct (proj2 Hc4 c x3 Hx3) as (x4&Hx4&Es4&_).
    destruct (Hcur4 x4 Hx4) as [Hn4 Hsame]. exists x4, q. rewrite Ep4. split_and!; [done|congruence|done|].
    rewrite Hsame; [done|]. destruct Hcase as [(->&_)|(->&_)]; congruence.
Qed.

(** ** System calls *)

(** What a handler leaves: either the process goes on, or the CPU is about to
    go back to the scheduler. *)
Definition handled (c i : Z) (o : outcome) (k : kernel) : Prop :=
  match o with
  | Resume _ => inv (-1) ∅ k /\ running c i k
  | Deschedule => inv c ∅ k /\ trapped c i k
  end.

Lemma handled_cur_ok c i (k : kernel) : inv c ∅ k -> cur_ok c i k ->
  exists x, aget (k_cpus k) c = Some x /\
    ((c_current x = Some i /\ inv (-1) ∅ k /\ running c i k) \/ (c_current x = None /\ trapped c i k)).
Proof.
  intros Hk (x&p&Hx&Hs&Hp&[(Hc&Hl&Hr)|(Hc&Hr)]); exists x; (split; [done|]).
  - left. assert (running c i k) by by exists x. split_and!; [done| |done]. by eapply inv_settle.
  - right. split; [done|]. by exists x, p.
Qed.

(** The process gives up the CPU with its registers saved. *)
Lemma wp_leave_current c D i r x p (k : kernel) (Q : () -> kernel -> Prop) :
  inv c D k -> aget (k_cpus k) c = Some x -> c_slice x = Some i -> aget (k_processes k) i = Some p -> p_state p <> RUNNING ->
  (forall k', inv c D k' -> trapped c i k' -> Q tt k') -> wp (leave_current c r) Q k.
Proof.
  intros Hk Hx Hs Hp Hr HQ. unfold leave_current. eapply wp_on_cpu; [exact Hx|]. apply HQ.
  - eapply inv_cpu; [exact Hx|done|by right|done].
  - eexists _, p. cbn [k_cpus k_processes set_k_cpus]. split_and!; [apply aget_insert_eq; by eapply aget_Some_lt|done|done|done].
Qed.

Lemma wp_suspend c i p f g (k : kernel) :
  inv (-1) ∅ k -> running c i k -> aget (k_processes k) i = Some p ->
  (let p' := g (set_p_context f p) in
   same_id p p' /\ p_running_on_cpu p' = p_running_on_cpu p /\
   p_state p' <> EMPTY /\ p_state p' <> RUNNING /\ p_state p' <> EXITED /\
   (p_state p' = WAITING -> forall j z, aget (k_processes k) j = Some z -> zombie z -> ~ waits_for p' z)) ->
  wp (suspend c i f g) (handled c i) k.
Proof.
  intros Hk Hr Hi (Hid&Hrun&Hs1&Hs2&Hs3&Hw). destruct (running_proc c i k Hk Hr) as (p0&Hp0&Hl&Hst&Hpc).
  assert (p0 = p) as -> by congruence. destruct Hr as (x&Hx&Hxs&Hxc). unfold suspend.
  apply wp_bind. eapply wp_on_proc; [exact Hi|]. apply wp_bind.
  eapply (wp_leave_current c ∅ i); [|exact Hx|exact Hxs|cbn [k_processes set_k_processes]; by eapply aget_upd_eq|done|].
  - eapply (inv_become c ∅ i p); [exact Hi| |by apply inv_enter]. split; [done|]. split; [done|]. split.
    + right. split_and!; try done; [by right|congruence].
    + intros E. right. intros j z Hj Hz. right. exact (Hw E j z Hj Hz).
  - intros k' Hk' Ht'. wstep. by split.
Qed.

Lemma wp_resume c i f (k : kernel) : inv (-1) ∅ k -> running c i k -> wp (mret (Resume f)) (handled c i) k.
Proof. intros. by apply wp_ret. Qed.

Lemma wp_sys_yield c i f (k : kernel) : inv (-1) ∅ k -> running c i k -> wp (sys_yield c i f) (handled c i) k.
Proof.
  intros Hk Hr. destruct (running_proc c i k Hk Hr) as (p&Hp&_). by apply (wp_suspend c i p).
Qed.

Lemma wp_sleep c i n f (k : kernel) : inv (-1) ∅ k -> running c i k -> wp (sleep_ticks c i n f) (handled c i) k.
Proof.
  intros Hk Hr. destruct (running_proc c i k Hk Hr) as (p&Hp&_). unfold sleep_ticks. do 2 wstep.
  by apply (wp_suspend c i p).
Qed.

Lemma exited_child_complete q z :
  zombie z -> waits_for q z -> exited_child (p_pid q) (p_wait_target_pid q) z = true.
Proof.
  intros (Hl&Hs&Hr) (_&Hp&Ht). unfold exited_child, state_is. rewrite Hl, Hs, Hr, Hp, Z.eqb_refl, bool_decide_true by done.
  cbn [negb orb]. rewrite Z.eqb_refl. cbn [negb]. destruct Ht as [->| ->]; rewrite Z.eqb_refl; [done|apply orb_true_r].
Qed.

Lemma exited_child_zombie a b z : exited_child a b z = true -> zombie z /\ p_parent_pid z = a.
Proof.
  unfold exited_child, state_is. destruct (_ || _ || _ || _) eqn:E; [done|]. bools.
  match goal with Hb : bool_decide _ = true |- _ => apply bool_decide_eq_true in Hb end. done.
Qed.

Lemma running_frame c i (k k' : kernel) : k_cpus k' = k_cpus k -> running c i k -> running c i k'.
Proof. intros E (x&?&?&?). exists x. by rewrite E. Qed.

Lemma wp_sys_waitpid c i f (k : kernel) : inv (-1) ∅ k -> running c i k -> wp (sys_waitpid c i f) (handled c i) k.
Proof.
  intros Hk Hr. destruct (running_proc c i k Hk Hr) as (p&Hp&Hl&Hs&_). unfold sys_waitpid. cbv zeta.
  apply wp_bind. eapply wp_proc; [exact Hp|]. apply wp_bind. unfold process_find_exited_child. do 2 wstep. wstep.
  destruct (find_slot _ _ _) as [j|] eqn:Ef.
  - apply find_slot0 in Ef as (z&Hz&[Hzz Hzp]%exited_child_zombie). pose proof Hzz as (Hlz&Hsz&Hrz).
    apply wp_bind. eapply wp_proc; [exact Hz|]. apply wp_bind.
    eapply (wp_reap (-1) ∅ j z); [|exact Hz|done|by left| |].
    { eapply inv_mono; [|exact Hk]. set_solver. }
    { intros _. eapply threads_dead_settled; [exact Hk|set_solver|exact Hz|done]. }
    intros k' Hk' Ek' (Ec&_). wstep. split; [done|]. by eapply running_frame.
  - apply (wp_suspend c i p); [done|done|done|]. cbv zeta. split_and!; try done.
    intros _ j z Hj Hz Hw. apply exited_child_complete in Hw; [|done].
    eapply find_slot_None in Ef; [|exact Hj]. cbn beta in Ef.
    change (exited_child (p_pid p) (u32 (f_rdi f)) z = true) in Hw. congruence.
Qed.

Lemma wp_sys_process_kill c i f (k : kernel) :
  inv (-1) ∅ k -> running c i k ->
  (forall j q, aget (k_processes k) j = Some q -> p_loaded q = true -> p_pid q = u32 (f_rdi f) -> quiet c j (k_processes k)) ->
  wp (sys_process_kill c i f) (handled c i) k.
Proof.
  intros Hk Hr Hq. destruct (running_proc c i k Hk Hr) as (p&Hp&Hl&Hs&_). unfold sys_process_kill. cbv zeta.
  apply wp_bind. apply wp_find_by_pid; [|intros _; by apply wp_resume].
  intros j q Hj Hlq Hpid _. apply wp_bind. eapply wp_proc; [exact Hj|].
  destruct (state_is _ _); [by apply wp_resume|]. apply wp_bind. eapply wp_proc; [exact Hp|].
  destruct (_ && _); [by apply wp_resume|]. pose proof Hr as (x&Hx&_).
  apply wp_bind. eapply wp_process_kill; [by apply inv_enter|exact Hx|by apply Hq|].
  intros r k' Hk' _ _ Hcur. destruct (handled_cur_ok c i k') as (y&Hy&Hcase); [done|by apply Hcur, cur_ok_running|].
  apply wp_bind. eapply wp_this_cpu; [exact Hy|].
  destruct Hcase as [(->&Hk2&Hr2)|(->&Ht2)].
  - rewrite bool_decide_false by done. by apply wp_resume.
  - rewrite bool_decide_true by done. wstep. by split.
Qed.

Lemma wp_sys_exit c i f (k : kernel) :
  inv (-1) ∅ k -> running c i k -> quiet c i (k_processes k) -> wp (sys_exit c i f) (handled c i) k.
Proof.
  intros Hk Hr Hq. destruct (running_proc c i k Hk Hr) as (p&Hp&Hl&Hs&_). pose proof Hr as (x&Hx&Hxs&_). unfold sys_exit.
  apply wp_bind. eapply wp_proc; [exact Hp|]. apply wp_bind.
  eapply (wp_close_windows c ∅); [by apply inv_enter|]. intros k1 Hk1 Ep1 Ec1.
  eapply (wp_end_process_then c ∅ i p _ x); [exact Hk1|by rewrite Ep1|done|congruence|by rewrite Ep1|by rewrite Ec1|].
  intros k2 Hk2 He2 Hc2 Hnr _. rewrite Ep1 in He2. rewrite Ec1 in Hc2.
  destruct (proj2 Hc2 c x Hx) as (x2&Hx2&Es2&_). destruct (He2 i p Hp) as (q&Hq2&_).
  apply wp_bind. eapply (wp_leave_current c ∅ i); [exact Hk2|exact Hx2|congruence|exact Hq2|by apply Hnr|].
  intros k3 Hk3 Ht3. wstep. by split.
Qed.

Lemma wp_fault c i (k : kernel) :
  inv (-1) ∅ k -> running c i k -> quiet c i (k_processes k) ->
  wp (process_handle_user_fault c) (fun b k' => b = true /\ inv c ∅ k' /\ trapped c i k') k.
Proof.
  intros Hk Hr Hq. destruct (running_proc c i k Hk Hr) as (p&Hp&Hl&Hs&_). pose proof Hr as (x&Hx&Hxs&Hxc).
  unfold process_handle_user_fault. apply wp_bind. eapply wp_this_cpu; [exact Hx|]. rewrite Hxc.
  apply wp_bind. eapply wp_proc; [exact Hp|]. unfold state_is. rewrite Hs. cbn [orb bool_decide].
  rewrite !bool_decide_false by done. cbn [orb]. pose proof (inv_enter c ∅ k Hk) as Hk0.
  apply wp_bind. eapply wp_canary_check; [exact Hk0|].
  apply wp_bind. eapply wp_clear_pending; [exact Hk0|exact Hp|]. intros k1 g Hk1 Hg Ep1 Ec1 _.
  destruct (Hg p) as ((_&_&El&_)&_&Hs1&_).
  assert (Hp1 : aget (k_processes k1) i = Some (g p)) by (rewrite Ep1; by eapply aget_upd_eq).
  apply wp_bind. eapply wp_proc; [exact Hp1|].
  apply wp_bind. eapply wp_close_windows; [exact Hk1|]. intros k2 Hk2 Ep2 Ec2.
  eapply (wp_end_process_then c ∅ i (g p) _ x); [exact Hk2|by rewrite Ep2|congruence|congruence| |by rewrite Ec2, Ec1|].
  { rewrite Ep2, Ep1. eapply quiet_evolve; [|eapply evolve_upd; [exact Hp|by apply evolves_neutral]|done]. by rewrite length_insert. }
  intros k3 Hk3 He3 Hc3 Hnr _. rewrite Ep2 in He3. rewrite Ec2, Ec1 in Hc3.
  destruct (proj2 Hc3 c x Hx) as (x2&Hx2&Es2&_). destruct (He3 i (g p) Hp1) as (q&Hq2&_).
  apply wp_bind. eapply (wp_leave_current c ∅ i); [exact Hk3|exact Hx2|congruence|exact Hq2|by apply Hnr|].
  intros k4 Hk4 Ht4. by wstep.
Qed.

(** ** Timers *)

Lemma inv_tick c D t (k : kernel) : inv c D k -> inv c D (set_k_tick t k).
Proof. intros Hk. by eapply inv_frame. Qed.

Lemma wp_wake_ready c t (k : kernel) (Q : () -> kernel -> Prop) :
  inv c ∅ k -> (forall k', inv c ∅ k' -> k_cpus k' = k_cpus k -> Q tt k') -> wp (process_wake_ready t) Q k.
Proof.
  intros Hk HQ. eapply wp_mono; [apply (wp_each (fun k' => inv c ∅ k' /\ k_cpus k' = k_cpus k))|].
  - intros i k' Hi [Hk' Ec]. pose proof (proj1 (Forall_forall _ _) slots_range i Hi) as Hi'. cbn beta in Hi'.
    destruct (aget_lt (k_processes k') i) as [p Hp]; [rewrite (inv_len _ _ _ Hk'); lia|].
    apply wp_bind. eapply wp_proc; [exact Hp|]. unfold state_is.
    destruct (bool_decide (p_state p = SLEEPING) && _) eqn:E; [|by wstep]. bools. apply bool_decide_eq_true in H0.
    eapply wp_on_proc; [exact Hp|]. split; [|done]. eapply (inv_become c ∅ i p); [exact Hp| |done].
    split; [done|]. split; [done|]. split; [|done]. right. split_and!; try done; [..|congruence].
    + pose proof (proj1 (inv_ids _ _ _ Hk') i p Hp) as Hids. destruct (p_loaded p); [done|]. destruct Hids as (_&Hids&_). congruence.
    + destruct (inv_sched _ _ _ Hk') as (_&_&_&Hd&_). destruct (decide (p_running_on_cpu p = -1)); [by left|].
      destruct (decide (p_running_on_cpu p = c)); [by right|]. destruct (Hd i p Hp); congruence.
  - done.
  - intros [] k' [Hk' Ec]. by apply HQ.
Qed.

Lemma wp_preempt_user c i f (k : kernel) :
  inv (-1) ∅ k -> running c i k -> Z.land (f_cs f) 3 = 3 ->
  wp (preempt c f) (fun b k' => b = true /\ inv c ∅ k' /\ trapped c i k') k.
Proof.
  intros Hk Hr Hcs. destruct (running_proc c i k Hk Hr) as (p&Hp&Hl&Hs&Hpc). pose proof Hr as (x&Hx&Hxs&Hxc).
  unfold preempt. apply wp_bind. eapply wp_this_cpu; [exact Hx|]. rewrite Hxc, Hcs. cbn [negb Z.eqb Pos.eqb].
  apply wp_bind. eapply wp_on_cpu; [exact Hx|].
  set (x1 := set_c_busy_ticks _ x). change (set_k_cpus _ k) with (with_cpu c x1 k).
  assert (Hk1 : inv c ∅ (with_cpu c x1 k)) by (eapply inv_cpu; [exact Hx|done|by left|by apply inv_enter]).
  apply wp_bind. eapply wp_on_proc; [exact Hp|].
  set (p1 := set_p_context f _). change (set_k_processes _ (with_cpu c x1 k)) with (with_proc i p1 (with_cpu c x1 k)).
  apply wp_bind. eapply wp_proc; [cbn [with_proc k_processes set_k_processes]; by eapply aget_upd_eq|].
  unfold state_is. rewrite bool_decide_false by (cbn; congruence). apply wp_bind. apply wp_bind.
  eapply wp_on_proc_again; [exact Hp|]. set (p2 := set_p_state READY p1).
  eapply (wp_leave_current c ∅ i); [|cbn [with_proc with_cpu k_cpus set_k_processes set_k_cpus]; apply aget_insert_eq;
    by eapply aget_Some_lt|exact Hxs|cbn [with_proc with_cpu k_processes set_k_processes set_k_cpus]; by eapply aget_upd_eq|done|].
  - eapply (inv_become c ∅ i p); [exact Hp| |exact Hk1]. split; [done|]. split; [done|]. split; [|done].
    right. split_and!; try done; [by right|congruence].
  - intros k' Hk' Ht'. by wstep.
Qed.

Lemma wp_preempt_kernel c f x (k : kernel) (Q : bool -> kernel -> Prop) :
  aget (k_cpus k) c = Some x -> Z.land (f_cs f) 3 <> 3 -> Q false k -> wp (preempt c f) Q k.
Proof.
  intros Hx Hcs HQ. unfold preempt. apply wp_bind. eapply wp_this_cpu; [exact Hx|]. destruct (c_current x); [|by wstep].
  apply Z.eqb_neq in Hcs. rewrite Hcs. cbn [negb]. by wstep.
Qed.

(** The clock part of the two handlers. *)
Lemma wp_timer_head c (m : K bool) x (k : kernel) Q :
  inv (-1) ∅ k -> aget (k_cpus k) c = Some x ->
  (forall k' x', inv (-1) ∅ k' -> k_cpus k' = <[Z.to_nat c := x']> (k_cpus k) -> c_slice x' = c_slice x ->
     c_current x' = c_current x -> wp m Q k') ->
  wp (_ ← update (fun k => set_k_tick (u64 (k_tick k + 1)) k);
      _ ← on_cpu c (fun x => set_c_ticks (u64 (c_ticks x + 1)) x);
      t ← reads k_tick; _ ← process_wake_ready t; m) Q k.
Proof.
  intros Hk Hx HQ. do 2 wstep. apply wp_bind. eapply wp_on_cpu; [exact Hx|]. do 2 wstep.
  apply wp_bind. eapply (wp_wake_ready (-1)).
  { eapply (inv_cpu (-1) ∅ c x); [exact Hx|done|by left|by apply inv_tick]. }
  intros k' Hk' Ec. eapply HQ; [exact Hk'|rewrite Ec; done|done|done].
Qed.

Lemma running_upd c i x x' (k k' : kernel) :
  aget (k_cpus k) c = Some x -> k_cpus k' = <[Z.to_nat c := x']> (k_cpus k) -> c_slice x' = c_slice x ->
  c_current x' = c_current x -> running c i k -> running c i k'.
Proof.
  intros Hx Ec Es Ecu (y&Hy&?&?). assert (y = x) as -> by congruence. exists x'.
  rewrite Ec, aget_insert_eq by by eapply aget_Some_lt. split_and!; congruence.
Qed.

Lemma wp_timer_user c i f (k : kernel) :
  inv (-1) ∅ k -> running c i k -> Z.land (f_cs f) 3 = 3 ->
  wp (timer_handle_interrupt c f) (fun b k' => b = true /\ inv c ∅ k' /\ trapped c i k') k.
Proof.
  intros Hk Hr Hcs. pose proof Hr as (x&Hx&_). unfold timer_handle_interrupt. eapply wp_timer_head; [done|exact Hx|].
  intros k' x' Hk' Ec Es Ecu. apply wp_preempt_user; [done|by eapply running_upd|done].
Qed.

Lemma wp_ap_timer_user c i f (k : kernel) :
  inv (-1) ∅ k -> running c i k -> Z.land (f_cs f) 3 = 3 ->
  wp (process_ap_timer c f) (fun b k' => b = true /\ inv c ∅ k' /\ trapped c i k') k.
Proof.
  intros Hk Hr Hcs. pose proof Hr as (x&Hx&_). unfold process_ap_timer. apply wp_bind. eapply wp_on_cpu; [exact Hx|].
  apply wp_preempt_user; [|by eapply (running_upd c i x)|done]. eapply (inv_cpu (-1) ∅ c x); [exact Hx|done|by left|done].
Qed.

(** ** Blocking *)

Lemma wp_yield_blocking c i rsp (k : kernel) :
  inv (-1) ∅ k -> running c i k ->
  wp (process_yield_blocking c rsp) (fun b k' => b = true /\ inv c ∅ k' /\ trapped c i k') k.
Proof.
  intros Hk Hr. destruct (running_proc c i k Hk Hr) as (p&Hp&Hl&Hs&Hpc). pose proof Hr as (x&Hx&Hxs&Hxc).
  unfold process_yield_blocking. apply wp_bind. eapply wp_this_cpu; [exact Hx|]. rewrite Hxc.
  rewrite <- (pair_state_id c x i p k Hx Hp). apply wp_bind. eapply wp_pair_proc; [exact Hp|].
  apply wp_bind. eapply wp_pair_cpu; [exact Hx|]. apply wp_bind. eapply wp_pair_proc; [exact Hp|]. wstep.
  split; [done|]. split.
  - eapply (inv_become c ∅ i p).
    + exact Hp.
    + split; [done|]. split; [done|]. split; [|done]. right. split_and!; try done; [by right|congruence].
    + eapply inv_cpu; [exact Hx|done|by left|by apply inv_enter].
  - eexists _, _. cbn [pair_state with_proc with_cpu k_cpus k_processes set_k_processes set_k_cpus].
    split_and!; [apply aget_insert_eq; by eapply aget_Some_lt|exact Hxs|by eapply aget_upd_eq|done].
Qed.

Lemma wp_tty_read c i f (k : kernel) :
  inv (-1) ∅ k -> running c i k ->
  wp (process_try_blocking_tty_read c i f)
     (fun b k' => if b then inv c ∅ k' /\ trapped c i k' else k' = k) k.
Proof.
  intros Hk Hr. destruct (running_proc c i k Hk Hr) as (p&Hp&Hl&Hs&Hpc). pose proof Hr as (x&Hx&Hxs&Hxc).
  unfold process_try_blocking_tty_read. apply wp_bind. eapply wp_proc; [exact Hp|]. cbv zeta.
  destruct (_ || _) eqn:E1; [by wstep|]. bools. unfold FD_TABLE_CAPACITY in *.
  destruct (proj2 (inv_table _ _ _ Hk) i p Hp) as [Hlen Hf].
  destruct (aget_lt (p_fd_table p) (sgn32 (f_rdi f))) as [e He]; [lia|].
  apply wp_bind. eapply wp_must; [exact He|]. destruct (_ || _ || _) eqn:E2; [by wstep|]. bools.
  match goal with Hb : bool_decide _ = true |- _ => apply bool_decide_eq_true in Hb end. do 2 wstep.
  assert (is_Some (k_ttys k !! e_object e)) as [t Et].
  { rewrite Forall_forall in Hf. apply Hf; [|done|done]. unfold aget in He. destruct (0 <=? _); [|done].
    by eapply list_elem_of_lookup_2. }
  apply wp_bind. eapply wp_must; [exact Et|]. destruct (_ || _); [by wstep|].
  apply wp_bind. eapply wp_on_proc; [exact Hp|]. set (p1 := set_p_state WAITING_IO _). do 2 wstep.
  apply wp_bind. eapply (wp_leave_current c ∅ i); [|exact Hx|exact Hxs|cbn [k_processes set_k_processes set_k_ttys]; by eapply aget_upd_eq|done|].
  - eapply (inv_frame c ∅ (with_proc i p1 k)); try done.
    + eapply (inv_become c ∅ i p); [exact Hp| |by apply inv_enter]. split; [done|]. split; [done|]. split; [|done].
      right. split_and!; try done; [by right|congruence].
    + cbn [k_ttys set_k_ttys with_proc set_k_processes]. rewrite dom_insert_L. apply elem_of_dom_2 in Et. set_solver.
  - intros k' Hk' Ht'. by wstep.
Qed.


End Steps.
End ProcSteps.
