(* ===== verification/ProcMem.v ===== *)
(** * ProcMem: creating processes and growing their heaps (kernel/src/process.c)

    Starting a process or a thread and growing a heap keep the invariant of the
    process table; what goes wrong (no slot, no memory, a file that is no
    program) leaves it as it was. *)

From Stdlib Require Import ZArith Lia Bool ZifyBool.
From stdpp Require Import base numbers option list list_numbers gmap sets.
From S2P Require Import Prelude StateM ProcState Elf Process ProcSched ProcSteps.

Open Scope Z_scope.

Module ProcMem.
Import ProcState Elf Process ProcSched ProcSteps.

Section Mem.
Context {H I : Type} {HP : PageHeap H} {IP : PageHeap I} {X : list Z}.
Abbreviation kernel := (kernel H I).
Abbreviation K := (ST kernel).
Abbreviation inv := (@ProcSched.inv H I HP IP X).

(** ** Free slots *)

(** Living processes are left alone. *)
Definition keeps_living (ps ps' : list process) : Prop :=
  forall j p, aget ps j = Some p -> p_loaded p = true -> p_state p <> EXITED -> aget ps' j = Some p.

Lemma wp_find_free_slot (k : kernel) (Q : option Z -> kernel -> Prop) :
  inv (-1) ∅ k -> Q None k ->
  (forall slot q k', inv (-1) ∅ k' -> aget (k_processes k') slot = Some q -> p_loaded q = false ->
     p_running_on_cpu q = -1 -> frame k k' -> keeps_living (k_processes k) (k_processes k') -> Q (Some slot) k') ->
  wp process_find_free_slot Q k.
Proof.
  intros Hk HQ0 HQ. unfold process_find_free_slot. do 2 wstep. destruct (find_slot _ _ _) as [slot|] eqn:Ef; [|by wstep].
  apply find_slot0 in Ef as (p&Hp&Hb). apply wp_bind. eapply wp_proc; [exact Hp|].
  destruct (inv_sched _ _ _ Hk) as (_&_&_&Hd&_). pose proof (proj1 (inv_ids _ _ _ Hk) slot p Hp) as Hids.
  unfold state_is in *. destruct (negb (p_loaded p) || bool_decide (p_state p = EMPTY)) eqn:E.
  - wstep. assert (Hl : p_loaded p = false).
    { destruct (p_loaded p); [|done]. destruct Hids as (_&Hids&_). cbn [negb orb] in E. apply bool_decide_eq_true in E. done. }
    apply (HQ slot p); [done|done|done| |done|by intros ???]. destruct (decide (p_running_on_cpu p = -1)) as [|Hr]; [done|].
    destruct (Hd slot p Hp Hr Hr). congruence.
  - cbn [orb] in Hb. apply bool_decide_eq_true in Hb. apply orb_false_iff in E as [E%negb_false_iff _].
    assert (Hr : p_running_on_cpu p = -1).
    { destruct (decide (p_running_on_cpu p = -1)) as [|Hr]; [done|]. destruct (Hd slot p Hp Hr Hr). congruence. }
    apply wp_bind. eapply (wp_reap (-1) ∅ slot p); [|exact Hp|done|by left| |].
    { eapply inv_mono; [|exact Hk]. set_solver. }
    { intros _. eapply threads_dead_settled; [exact Hk|set_solver|exact Hp|done]. }
    intros k' Hk' Ek' Hfr. wstep. apply (HQ slot (reaped p)); [done|rewrite Ek'; by eapply aget_upd_eq|done|done|done|].
    intros j q Hj Hlq Hsq. rewrite Ek', (aget_upd_ne _ _ _ _ Hp); [done|]. congruence.
Qed.

(** A new process in a free slot. *)
Lemma inv_create slot q t (k k' : kernel) :
  inv (-1) ∅ k -> aget (k_processes k) slot = Some q -> p_loaded q = false -> p_running_on_cpu q = -1 ->
  k_next_pid k + 1 < 2 ^ 32 -> 0 <= k_next_pid k ->
  k_processes k' = <[Z.to_nat slot := t]> (k_processes k) -> k_next_pid k' = k_next_pid k + 1 ->
  k_cpus k' = k_cpus k -> k_ttys k' = k_ttys k -> k_layout k' = k_layout k -> k_canaries k' = k_canaries k ->
  length (k_page_tables k') = 48%nat -> length (k_upper k') = 48%nat ->
  p_loaded t = true -> p_pid t = k_next_pid k + 1 -> p_state t = READY -> p_running_on_cpu t = -1 ->
  p_user_image_allocation t <> 0 ->
  length (p_fd_table t) = 16%nat -> Forall (tty_entry_ok (k_ttys k)) (p_fd_table t) ->
  mem_ok (X := X) (k_heap k') (k_aux k') (k_quarantine k') (k_processes k') ->
  (owns t = true -> in_space slot t /\ p_cr3 t = l_proc_pml4 (k_layout k) + slot * 4096 /\ heap_ok t) ->
  (p_is_thread t = true -> exists o r, o <> slot /\ aget (k_processes k) o = Some r /\ owns r = true /\ in_space o t /\
     p_cr3 t = p_cr3 r /\ p_user_image_allocation t = p_user_image_allocation r /\ p_state r <> EXITED) ->
  inv (-1) ∅ k'.
Proof.
  intros [Ht Hs Hids Hm Hp Hw Hcan Hl] Hq Hql Hqr Hn Hn0 Ep En Ec Et Ela Eca Hl1 Hl2 Htl Htp Hts Htr Him Hf1 Hf2 Hmem Hown Hthr.
  assert (Hq0 : owns q = false) by (unfold owns; by rewrite Hql).
  split; rewrite ?Ep, ?En, ?Ec, ?Et, ?Ela, ?Eca; try done.
  - by apply table_upd with (p := q).
  - apply sched_upd with (p := q); [done|congruence|done|congruence|done].
  - apply ids_upd with (p := q); [done|..].
    + rewrite Htl, Htp, Hts. split_and!; [lia|lia|done|done].
    + intros _ j r Hj Hr Hlr. pose proof (proj1 Hids j r Hr) as Hx. rewrite Hlr in Hx. lia.
    + destruct Hids as [Ha Hb]. split; [|done]. intros j r Hr. specialize (Ha j r Hr). destruct (p_loaded r); [|done].
      destruct Ha as (?&?). split; [lia|done].
  - by rewrite <- Ep.
  - apply space_upd with (p := q) (D := ∅); [done|done|..|done].
    + intros _ Htt _. destruct (Hthr Htt) as (o&r&?&?&?&?&?&?&?). exists o, r. split_and!; try done. by left.
    + intros t0 r _ _ _ _ _ _ Ho. congruence.
    + set_solver.
  - apply wake_upd with (p := q) (D := ∅); [done|..|done].
    + intros _ j z _ _ _ (Hx&_). congruence.
    + intros (_&Hx&_). congruence.
    + done.
Qed.

(** Fresh canaries are what was there. *)
Lemma canary_refresh (k : kernel) c D slot :
  inv c D k -> 0 <= slot < 48 -> aset (k_canaries k) slot KSTACK_CANARY = Some (k_canaries k).
Proof.
  intros Hk Hs. rewrite (inv_canaries _ _ _ Hk). rewrite aset_ok by (rewrite length_replicate; lia).
  f_equal. apply list_insert_id. apply lookup_replicate_2. lia.
Qed.

Lemma wp_setup_context slot q (k : kernel) (Q : () -> kernel -> Prop) :
  aset (k_canaries k) slot KSTACK_CANARY = Some (k_canaries k) -> aget (k_processes k) slot = Some q ->
  Q tt (with_proc slot (set_p_context (initial_context (p_entry q) (p_user_stack_top q))
                          (set_p_running_on_cpu (-1) (set_p_kresume_rsp 0 q))) k) ->
  wp (process_setup_context slot) Q k.
Proof.
  intros Hc Hq HQ. unfold process_setup_context. apply wp_bind. eapply wp_try; [rewrite Hc; done|].
  eapply wp_on_proc; [exact Hq|]. by destruct k.
Qed.

Lemma wp_fresh_pid (k : kernel) (Q : Z -> kernel -> Prop) :
  0 <= k_next_pid k -> k_next_pid k + 1 < 2 ^ 32 ->
  Q (k_next_pid k + 1) (set_k_next_pid (k_next_pid k + 1) k) -> wp fresh_pid Q k.
Proof. intros H0 H1 HQ. unfold fresh_pid. repeat wstep. by rewrite u32_id by lia. Qed.

Lemma chunks_upd (ps : list process) i p p' :
  aget ps i = Some p -> owns p = false -> owns p' = false ->
  chunks_of (<[Z.to_nat i := p']> ps) = chunks_of ps /\ images_of (<[Z.to_nat i := p']> ps) = images_of ps.
Proof.
  intros Hi Ho Ho'. unfold chunks_of, images_of.
  destruct (bind_upd ps i p p' Hi (fun p => if owns p then p_heap_chunks p else [])) as (a&b&E&E').
  destruct (bind_upd ps i p p' Hi (fun p => if owns p then [p_user_image_allocation p] else [])) as (a2&b2&E2&E2').
  rewrite E, E', E2, E2', Ho, Ho'. done.
Qed.

Lemma with_proc_twice i a b (k : kernel) : with_proc i b (with_proc i a k) = with_proc i b k.
Proof. unfold with_proc. cbn [k_processes set_k_processes]. rewrite list_insert_insert_eq. by destruct k. Qed.

(** ** Threads *)

(** The address space of a living process: its own, or that of the owner. *)
Lemma space_of c i p (k : kernel) :
  inv c ∅ k -> aget (k_processes k) i = Some p -> p_loaded p = true -> p_state p <> EXITED ->
  exists o r, aget (k_processes k) o = Some r /\ owns r = true /\ in_space o p /\ p_cr3 p = p_cr3 r /\
    p_user_image_allocation p = p_user_image_allocation r /\ p_state r <> EXITED.
Proof.
  intros Hk Hi Hl Hs. destruct (inv_space _ _ _ Hk) as [Ha Hb]. destruct (p_is_thread p) eqn:Et.
  - destruct (Hb i p Hi Hl Et Hs) as (o&r&?&?&?&?&?&[?|[]%not_elem_of_empty]). by exists o, r.
  - exists i, p. assert (owns p = true) by (unfold owns; by rewrite Hl, Et). destruct (Ha i p Hi) as [? _]; [done|].
    by split_and!.
Qed.

Lemma wp_create_thread i p entry stack arg (k : kernel) (Q : Z -> kernel -> Prop) :
  inv (-1) ∅ k -> aget (k_processes k) i = Some p -> p_loaded p = true -> p_state p <> EXITED ->
  0 <= k_next_pid k -> k_next_pid k + 1 < 2 ^ 32 ->
  (forall r k', inv (-1) ∅ k' -> k_cpus k' = k_cpus k -> Q r k') ->
  wp (process_create_thread i entry stack arg) Q k.
Proof.
  intros Hk Hi Hl Hs Hn0 Hn HQ. unfold process_create_thread. destruct (_ || _); [wstep; by apply HQ|].
  apply wp_bind. eapply wp_find_free_slot; [exact Hk|wstep; by apply HQ|].
  intros slot q k1 Hk1 Hq Hql Hqr (Ec1&En1&Et1&El1&_) Hkeep. pose proof (Hkeep i p Hi Hl Hs) as Hi1.
  pose proof (aget_Some_lt _ _ _ Hq) as Hslot. rewrite (inv_len _ _ _ Hk1) in Hslot.
  assert (Hne : i <> slot) by congruence.
  apply wp_bind. eapply wp_proc; [exact Hi1|]. apply wp_bind. eapply wp_on_proc; [exact Hq|].
  change (set_k_processes _ k1) with (with_proc slot (thread_image p entry stack q) k1).
  apply wp_bind. eapply wp_setup_context; [exact (canary_refresh k1 _ _ slot Hk1 Hslot)|cbn [with_proc k_processes set_k_processes]; by eapply aget_upd_eq|].
  set (t1 := set_p_context _ _). rewrite with_proc_twice. unfold with_proc. do 2 wstep.
  apply wp_bind. apply wp_fresh_pid; [cbn [k_next_pid set_k_processes]; lia..|].
  apply wp_bind. eapply wp_proc; [cbn [k_processes set_k_processes set_k_next_pid]; rewrite (aget_upd_ne _ _ _ _ Hq) by done; exact Hi1|].
  apply wp_bind. eapply wp_on_proc; [cbn [k_processes set_k_processes set_k_next_pid]; by eapply aget_upd_eq|]. wstep.
  cbn [k_processes set_k_processes set_k_next_pid k_next_pid k_layout]. rewrite list_insert_insert_eq.
  apply HQ; [|by rewrite <- Ec1].
  set (t := thread_identity _ _ _ _ _). destruct (space_of _ i p k1 Hk1 Hi1 Hl Hs) as (o&r&Hr&Ho&Hin&Hcr&Him&Hrs).
  destruct (proj2 (inv_table _ _ _ Hk1) i p Hi1) as [Hf1 Hf2]. pose proof (proj1 (inv_ids _ _ _ Hk1) i p Hi1) as Hids. rewrite Hl in Hids.
  assert (Hot : owns t = false) by done. assert (Hoq : owns q = false) by (unfold owns; by rewrite Hql).
  eapply (inv_create slot q t k1); try done; try lia.
  - apply (inv_tables _ _ _ Hk1).
  - apply (inv_tables _ _ _ Hk1).
  - by destruct Hids as (_&_&?).
  - cbn [k_heap k_aux k_quarantine k_processes set_k_processes set_k_next_pid]. unfold mem_ok.
    destruct (chunks_upd (k_processes k1) slot q t Hq Hoq Hot) as [-> ->]. apply (inv_mem _ _ _ Hk1).
  - intros _. exists o, r. split_and!; try done. congruence.
Qed.
(** ** Loading images *)

(** The program headers can be read and their sums do not wrap. *)
Fixpoint segments_safe (image : list Z) (base i : Z) (n : nat) : bool :=
  match n with
  | O => true
  | S n' =>
      match read_program_header image base i with
      | None => false
      | Some ph =>
          (negb (ph_type ph =? ELF_PROGRAM_TYPE_LOAD)
           || ((ph_virtual_address ph + ph_memory_size ph <? 2 ^ 64) && (ph_offset ph + ph_file_size ph <? 2 ^ 64)))
          && segments_safe image base (i + 1) n'
      end
  end.

(** An image that the loader rejects, or whose headers are sound. *)
Definition image_safe (image : list Z) : bool :=
  forallb (fun b => (0 <=? b) && (b <? 256)) image &&
  match elf64_validate image with
  | Some true =>
      match read_header image with
      | Some h => segments_safe image (program_header_offset h) 0 (Z.to_nat (program_header_count h))
      | None => false
      end
  | _ => true
  end.

Lemma le_dec_nonneg bs : Forall byte_ok bs -> 0 <= le_dec bs.
Proof. induction 1 as [|b bs Hb _ IH]; simpl; [done|]. unfold byte_ok in Hb. lia. Qed.

Lemma field_nonneg image off n v : Forall byte_ok image -> field image off n = Some v -> 0 <= v.
Proof.
  unfold field. intros Hb. destruct (slice image off n) as [bs|] eqn:E; [|done]. intros [= <-]. apply le_dec_nonneg.
  apply slice_Some in E as (_&_&_&->). by apply Forall_take, Forall_drop.
Qed.

Lemma program_header_nonneg image base i ph :
  Forall byte_ok image -> read_program_header image base i = Some ph ->
  0 <= ph_offset ph /\ 0 <= ph_virtual_address ph /\ 0 <= ph_file_size ph /\ 0 <= ph_memory_size ph.
Proof.
  intros Hb. unfold read_program_header. cbv zeta.
  repeat (match goal with |- (field image ?o ?n ≫= _) = _ -> _ =>
    let E := fresh "E" in destruct (field image o n) eqn:E; cbn [mbind option_bind]; [apply field_nonneg in E; [|done]|done] end).
  by intros [= <-].
Qed.

(** What the loader has checked of every segment it will copy. *)
Definition segment_fits (image : list Z) (cap : Z) (ph : elf64_program_header) : Prop :=
  ph_type ph = ELF_PROGRAM_TYPE_LOAD ->
  PROCESS_USER_TEMPLATE_BASE <= ph_virtual_address ph /\ 0 <= ph_offset ph /\ 0 <= ph_file_size ph /\
  ph_offset ph + ph_file_size ph <= Z.of_nat (length image) /\
  ph_virtual_address ph - PROCESS_USER_TEMPLATE_BASE + ph_file_size ph <= cap.

Lemma check_segments_ok image base n : forall i cap,
  Forall byte_ok image -> segments_safe image base i n = true -> 0 <= cap <= PROCESS_USER_IMAGE_SIZE ->
  exists r, check_segments image base i n cap = Some r /\
    (forall cap', r = Some cap' -> cap <= cap' <= PROCESS_USER_IMAGE_SIZE /\
       forall j, i <= j < i + Z.of_nat n -> exists ph, read_program_header image base j = Some ph /\ segment_fits image cap' ph).
Proof.
  induction n as [|n IH]; intros i cap Hb Hsafe Hcap; cbn [check_segments].
  { exists (Some cap). split; [done|]. intros cap' [= <-]. split; [lia|]. intros j Hj. lia. }
  cbn [segments_safe] in Hsafe. destruct (read_program_header image base i) as [ph|] eqn:Eph; [|done].
  destruct (program_header_nonneg image base i ph Hb Eph) as (Ho&Hv&Hfs&Hms). apply andb_true_iff in Hsafe as [Hs Hsafe].
  cbn [mbind option_bind].
  assert (Hnext : forall c2, cap <= c2 <= PROCESS_USER_IMAGE_SIZE ->
    (forall cap', c2 <= cap' -> segment_fits image cap' ph) ->
    exists r, check_segments image base (i + 1) n c2 = Some r /\
    (forall cap', r = Some cap' -> cap <= cap' <= PROCESS_USER_IMAGE_SIZE /\
       forall j, i <= j < i + Z.of_nat (S n) -> exists ph, read_program_header image base j = Some ph /\ segment_fits image cap' ph)).
  { intros c2 Hc2 Hfit. destruct (IH (i + 1) c2 Hb Hsafe) as (r&Er&Hr); [lia|]. exists r. split; [done|].
    intros cap' E. destruct (Hr cap' E) as [Hb1 Hb2]. split; [lia|]. intros j Hj. destruct (decide (j = i)) as [->|].
    - exists ph. split; [done|]. apply Hfit. lia.
    - apply Hb2. lia. }
  destruct (ph_type ph =? ELF_PROGRAM_TYPE_LOAD) eqn:Ety; cbn [negb orb] in *; bools.
  2: { apply Hnext; [lia|]. intros cap' _ ?. done. }
  destruct (_ <? PROCESS_USER_TEMPLATE_BASE) eqn:E1; [by exists None|]. bools.
  destruct (ph_memory_size ph <? ph_file_size ph) eqn:E2; [by exists None|]. bools.
  unfold PROCESS_USER_TEMPLATE_BASE, PROCESS_USER_BASE in E1.
  rewrite u64_id by (unfold PROCESS_USER_TEMPLATE_BASE, PROCESS_USER_BASE; lia).
  destruct (PROCESS_USER_IMAGE_SIZE <? _) eqn:E3; [by exists None|]. bools. rewrite u64_id by lia.
  destruct (_ <? ph_offset ph + ph_file_size ph) eqn:E4; [by exists None|]. bools.
  apply Hnext; [lia|]. intros cap' Hc' _. unfold PROCESS_USER_TEMPLATE_BASE, PROCESS_USER_BASE in *. split_and!; lia.
Qed.

Lemma wp_copy_segments image base n pages cap : forall i (k : kernel) (Q : () -> kernel -> Prop),
  (forall j, i <= j < i + Z.of_nat n -> exists ph, read_program_header image base j = Some ph /\ segment_fits image cap ph) ->
  (forall m, Q tt (set_k_mem m k)) -> wp (copy_segments image base i n pages cap) Q k.
Proof.
  induction n as [|n IH]; intros i k Q Hseg HQ; cbn [copy_segments].
  { wstep. specialize (HQ (k_mem k)). by destruct k. }
  destruct (Hseg i) as (ph&Eph&Hfit); [lia|]. apply wp_bind. eapply wp_must; [exact Eph|]. apply wp_bind.
  assert (Hrest : forall m, wp (copy_segments image base (i + 1) n pages cap) Q (set_k_mem m k)).
  { intros m. apply IH; [intros j Hj; apply Hseg; lia|]. intros m'. specialize (HQ m'). by destruct k. }
  destruct (Z.eqb_spec (ph_type ph) ELF_PROGRAM_TYPE_LOAD) as [Ety|Ety]; cbn [negb].
  2: { wstep. specialize (Hrest (k_mem k)). by destruct k. }
  destruct (Hfit Ety) as (Hv&Ho&Hfs&Hlen&Hcap). apply wp_bind. eapply wp_must; [by apply slice_ok|]. cbv zeta.
  apply Z.leb_le in Hcap. rewrite Hcap. unfold memory_copy. wstep. apply Hrest.
Qed.

(** An image block on its way to its owner. *)
Definition mem_with (img : list Z) (h : H) (aux : option I) (quarantine : list Z) (ps : list process) : Prop :=
  exists a Lh La, aux = Some a /\ ph_rep h Lh /\ ph_rep a La /\
    blocks_ok Lh (X ++ quarantine ++ chunks_of ps) /\ blocks_ok La (img ++ images_of ps).

Lemma wp_image_alloc n skip (k : kernel) (Q : Z -> kernel -> Prop) :
  mem_ok (X := X) (k_heap k) (k_aux k) (k_quarantine k) (k_processes k) -> 0 <= n < 2 ^ 31 ->
  (forall a', mem_ok (X := X) (k_heap k) (Some a') (k_quarantine k) (k_processes k) -> Q 0 (set_k_aux (Some a') k)) ->
  (forall p a', 0 < p < 2 ^ 64 -> mem_with [p] (k_heap k) (Some a') (k_quarantine k) (k_processes k) -> Q p (set_k_aux (Some a') k)) ->
  wp (process_image_alloc n skip) Q k.
Proof.
  intros (a&Lh&La&Ea&Hrh&Hra&Hbh&Hba) Hn HQ0 HQ. unfold process_image_alloc. do 2 wstep. rewrite Ea. unfold image_alloc.
  destruct (ph_alloc_ok n a La Hra Hn) as (p&a'&E&Hcase). apply wp_bind. eapply wp_must; [exact E|]. cbn beta iota. do 3 wstep.
  destruct Hcase as [[-> Hr']|(m&Hp&Hm&Hpm&Hno&Hr'&_)].
  - apply HQ0. by exists a', Lh, La.
  - apply HQ; [lia|]. exists a', Lh, (<[p := m]> La). split_and!; try done. apply blocks_ok_insert; [lia|done|done].
Qed.

Lemma align_up_size_bounds v :
  0 < v <= PROCESS_USER_IMAGE_SIZE -> v <= align_up_size v 0x1000 <= PROCESS_USER_IMAGE_SIZE.
Proof.
  unfold PROCESS_USER_IMAGE_SIZE, PROCESS_USER_REGION_BYTES, PROCESS_USER_STACK_SIZE. intros Hv. unfold align_up_size.
  rewrite u64_id by lia. replace (u64 (Z.lnot (0x1000 - 1))) with (2 ^ 64 - 2 ^ 12) by done.
  replace (v + 0x1000 - 1) with (v + 4095) by lia.
  change (2 ^ 64 - 2 ^ 12) with (Z.ldiff (Z.ones 64) (Z.ones 12)). rewrite land_round by lia. dlia.
Qed.

Lemma mem_with_images img (h : H) (a : option I) qr ps ps' :
  chunks_of ps' = chunks_of ps -> img ++ images_of ps ≡ₚ images_of ps' ->
  mem_with img h a qr ps -> mem_ok (X := X) h a qr ps'.
Proof.
  intros Ec Ei (a'&Lh&La&?&?&?&?&Hb). exists a', Lh, La. rewrite Ec. split_and!; try done. by rewrite <- Ei.
Qed.

(** A free slot filled with an owner of image [img] and no heap. *)
Lemma new_owner_blocks (ps : list process) i q t :
  aget ps i = Some q -> owns q = false -> owns t = true -> p_heap_chunks t = [] ->
  chunks_of (<[Z.to_nat i := t]> ps) = chunks_of ps /\
  [p_user_image_allocation t] ++ images_of ps ≡ₚ images_of (<[Z.to_nat i := t]> ps).
Proof.
  intros Hi Ho Ho' Hch. unfold chunks_of, images_of.
  destruct (bind_upd ps i q t Hi (fun p => if owns p then p_heap_chunks p else [])) as (a&b&E&E').
  destruct (bind_upd ps i q t Hi (fun p => if owns p then [p_user_image_allocation p] else [])) as (a2&b2&E2&E2').
  rewrite E, E', E2, E2', Ho, Ho', Hch. split; [done|]. cbn [app]. solve_Permutation.
Qed.

(** Descriptors a new process may be given. *)
Definition fds_ok (ttys : gmap Z tty_input) (inherit : option (list fd_entry)) (o : option ops_ref) (obj : Z) : Prop :=
  match inherit with
  | Some t => length t = 16%nat /\ Forall (tty_entry_ok ttys) t
  | None => o = Some TTY_FD_OPS -> obj <> 0 -> is_Some (ttys !! obj)
  end.

Lemma stdio_table_ok ttys o obj :
  (o = TTY_FD_OPS -> obj <> 0 -> is_Some (ttys !! obj)) ->
  length (stdio_table o obj) = 16%nat /\ Forall (tty_entry_ok ttys) (stdio_table o obj).
Proof.
  intros Ho. split; [done|]. unfold stdio_table. apply Forall_app. split; apply Forall_replicate; [|done].
  intros Heq. cbn in *. apply Ho. congruence.
Qed.

Lemma wp_load_image slot q image inherit o obj parent name (k : kernel) (Q : bool -> kernel -> Prop) :
  inv (-1) ∅ k -> aget (k_processes k) slot = Some q -> p_loaded q = false -> p_running_on_cpu q = -1 ->
  0 <= k_next_pid k -> k_next_pid k + 1 < 2 ^ 32 -> image_safe image = true -> fds_ok (k_ttys k) inherit o obj ->
  (forall k', inv (-1) ∅ k' -> k_cpus k' = k_cpus k -> Q false k') ->
  (forall t k', inv (-1) ∅ k' -> aget (k_processes k') slot = Some t -> k_cpus k' = k_cpus k -> Q true k') ->
  wp (process_load_image_slot slot image inherit o obj parent name) Q k.
Proof.
  intros Hk Hq Hql Hqr Hn0 Hn Hsafe Hfds HQ0 HQ. unfold process_load_image_slot.
  unfold image_safe in Hsafe. apply andb_true_iff in Hsafe as [Hb%bytes_check Hsafe].
  destruct (elf64_validate_total image) as [v Ev]. apply wp_bind. eapply wp_must; [exact Ev|]. rewrite Ev in Hsafe.
  destruct v; cbn [negb]; [|wstep; by apply HQ0].
  destruct (elf64_validate_header image Ev) as [h Eh]. rewrite Eh in Hsafe. apply wp_bind. eapply wp_must; [exact Eh|]. cbv zeta.
  set (base := program_header_offset h) in *. set (n := Z.to_nat (program_header_count h)) in *.
  destruct (check_segments_ok image base n 0 0 Hb Hsafe) as (r&Er&Hr); [done|].
  apply wp_bind. eapply wp_must; [exact Er|]. destruct r as [cap|]; [|wstep; by apply HQ0].
  destruct (Hr cap eq_refl) as [Hcap Hseg]. destruct (_ || _) eqn:Ecap; [wstep; by apply HQ0|]. bools.
  pose proof (align_up_size_bounds cap) as Hal. set (capacity := align_up_size cap 0x1000) in *.
  apply wp_bind. eapply wp_proc; [exact Hq|]. pose proof (proj1 (inv_ids _ _ _ Hk) slot q Hq) as Hids. rewrite Hql in Hids.
  destruct Hids as (Hpid&Hqs&Hqt&Hqi&Hqc). rewrite Hqi, Z.eqb_refl. cbn [negb]. rewrite andb_false_r. do 2 wstep.
  apply wp_bind. eapply wp_on_proc; [exact Hq|]. set (q1 := set_p_user_image_capacity 0 _).
  change (set_k_processes _ k) with (with_proc slot q1 k).
  assert (Hk1 : inv (-1) ∅ (with_proc slot q1 k)).
  { eapply inv_become; [exact Hq| |done]. split; [split_and!; first [done|exact (eq_sym Hqt)|exact (eq_sym Hqi)]|split; [done|split; [by left|]]].
    change (p_state q = WAITING -> p_wait_target_pid q1 = p_wait_target_pid q /\ p_state q = WAITING \/
      (forall j z, aget (k_processes k) j = Some z -> zombie z -> j = slot \/ ~ waits_for q1 z)). by left. }
  assert (Hq1 : aget (k_processes (with_proc slot q1 k)) slot = Some q1).
  { cbn [with_proc k_processes set_k_processes]. by eapply aget_upd_eq. }
  assert (Hq1o : owns q1 = false) by (unfold owns; change (p_loaded q1) with (p_loaded q); by rewrite Hql).
  assert (Hrun1 : p_running_on_cpu q1 = -1 /\ p_loaded q1 = false /\ p_is_thread q1 = false) by by split.
  clearbody q1. set (k1 := with_proc slot q1 k) in *. assert (Ecpu1 : k_cpus k1 = k_cpus k) by done.
  assert (En1 : k_next_pid k1 = k_next_pid k) by done. assert (Ett1 : k_ttys k1 = k_ttys k) by done. clearbody k1.
  unfold PROCESS_USER_IMAGE_SIZE, PROCESS_USER_REGION_BYTES, PROCESS_USER_STACK_SIZE in *.
  apply wp_bind. eapply wp_image_alloc; [apply (inv_mem _ _ _ Hk1)|lia|..].
  { intros a' Hm. rewrite Z.eqb_refl. wstep. apply HQ0; [|done]. destruct Hk1. by split. }
  intros p a' Hp Hmem. destruct (Z.eqb_spec p 0); [lia|]. do 2 wstep. unfold memory_zero.
  do 2 wstep. do 2 wstep.
  apply wp_bind. eapply (wp_copy_segments image base n).
  { intros j Hj. destruct (Hseg j Hj) as (ph&Eph&Hfit). exists ph. split; [done|]. intros Hty. destruct (Hfit Hty) as (?&?&?&?&?).
    split_and!; try done. lia. }
  intros m. destruct (inv_tables _ _ _ Hk1) as [Htl1 Htl2]. pose proof (aget_Some_lt _ _ _ Hq) as Hslot. rewrite (inv_len _ _ _ Hk) in Hslot.
  apply wp_bind. eapply wp_try.
  { cbn [k_page_tables k_upper set_k_mem set_k_aux]. rewrite aset_ok by lia. cbn [mbind option_bind].
    rewrite aset_ok by lia. done. }
  apply wp_bind. apply wp_fresh_pid; [cbn [k_next_pid set_k_upper set_k_page_tables set_k_mem set_k_aux]; lia..|].
  apply wp_bind. eapply wp_on_proc; [exact Hq1|].
  set (fds := match inherit with Some t => t | None => _ end). set (t0 := loaded_process _ _ _ _ _ _ _ _ _ _ _).
  apply wp_bind. eapply wp_setup_context; [exact (canary_refresh k1 _ _ slot Hk1 Hslot)| |].
  { cbn [k_processes set_k_processes]. by eapply aget_upd_eq. }
  wstep. set (t := set_p_context _ _). unfold with_proc.
  cbn [k_processes set_k_processes set_k_next_pid set_k_upper set_k_page_tables set_k_mem set_k_aux]. rewrite list_insert_insert_eq.
  assert (Hfdt : length fds = 16%nat /\ Forall (tty_entry_ok (k_ttys k1)) fds).
  { rewrite Ett1. unfold fds, fds_ok in *. destruct inherit as [tt|]; [done|]. destruct o as [o'|].
    - apply stdio_table_ok. intros ->. by apply Hfds.
    - by apply stdio_table_ok. }
  destruct Hrun1 as (Hr1&Hl1&Hth1). assert (Hot : owns t = true).
  { unfold owns. change (p_is_thread t) with (p_is_thread q1). by rewrite Hth1. }
  destruct (new_owner_blocks (k_processes k1) slot q1 t Hq1 Hq1o Hot) as [Hb1 Hb2]; [done|].
  eapply (HQ t); [|cbn [k_processes set_k_processes]; by eapply aget_upd_eq|exact Ecpu1].
  eapply (inv_create slot q1 t k1); try done; try lia.
  - cbn [k_page_tables set_k_processes set_k_next_pid set_k_upper set_k_page_tables set_k_mem set_k_aux]. by rewrite length_insert.
  - cbn [k_upper set_k_processes set_k_next_pid set_k_upper set_k_page_tables set_k_mem set_k_aux]. by rewrite length_insert.
  - exact (proj1 Hfdt).
  - exact (proj2 Hfdt).
  - cbn [k_heap k_aux k_quarantine k_processes set_k_processes set_k_next_pid set_k_upper set_k_page_tables set_k_mem set_k_aux].
    eapply mem_with_images; [exact Hb1|exact Hb2|exact Hmem].
  - intros _. split_and!; [done|done|]. unfold heap_ok. cbn [p_user_virtual_base]. split; [done|].
    change (p_heap_start t) with (PROCESS_USER_BASE + capacity). change (p_heap_break t) with (PROCESS_USER_BASE + capacity).
    unfold PROCESS_USER_IMAGE_SIZE, PROCESS_USER_REGION_BYTES, PROCESS_USER_STACK_SIZE. lia.
  - change (p_is_thread t) with (p_is_thread q1). congruence.
Qed.


End Mem.
(** ** Blocks of the main heap *)

Section Spawn.
Context {H I : Type} {HP : PageHeap H} {IP : PageHeap I}.
Abbreviation kernel := (kernel H I).
Abbreviation K := (ST kernel).
Abbreviation inv X := (@ProcSched.inv H I HP IP X).

(** The main heap and the quarantine have changed, and with them what is held. *)
Lemma inv_held X X' c D (k k' : kernel) :
  inv X c D k -> mem_ok (X := X') (k_heap k') (k_aux k') (k_quarantine k') (k_processes k') ->
  k_processes k' = k_processes k -> k_cpus k' = k_cpus k -> k_next_pid k' = k_next_pid k -> k_ttys k' = k_ttys k ->
  k_layout k' = k_layout k -> k_canaries k' = k_canaries k -> k_page_tables k' = k_page_tables k ->
  k_upper k' = k_upper k -> inv X' c D k'.
Proof.
  intros [Ht Hs Hi Hm Hp Hw Hc Hl] Hm' E1 E2 E3 E4 E5 E6 E7 E8.
  split; rewrite ?E1, ?E2, ?E3, ?E4, ?E5, ?E6, ?E7, ?E8; try done. by rewrite <- E1.
Qed.

Lemma wp_kmalloc X c D n (k : kernel) (Q : Z -> kernel -> Prop) :
  inv X c D k -> 0 <= n < 2 ^ 31 ->
  (forall h', inv X c D (set_k_heap h' k) -> Q 0 (set_k_heap h' k)) ->
  (forall p h', 0 < p < 2 ^ 64 -> inv (p :: X) c D (set_k_heap h' k) -> Q p (set_k_heap h' k)) ->
  wp (kmalloc n) Q k.
Proof.
  intros Hk Hn HQ0 HQ. destruct (inv_mem _ _ _ Hk) as (a&Lh&La&Ea&Hrh&Hra&Hbh&Hba).
  destruct (ph_alloc_ok n (k_heap k) Lh Hrh Hn) as (p&h'&E&Hcase). unfold kmalloc. do 2 wstep.
  apply wp_bind. eapply wp_must; [exact E|]. cbn beta iota. do 3 wstep. destruct Hcase as [[-> Hr']|(m&Hp&Hm&Hpm&Hno&Hr'&_)].
  - apply HQ0. eapply inv_held; [exact Hk| |done..]. by exists a, Lh, La.
  - apply HQ; [lia|]. eapply inv_held; [exact Hk| |done..]. exists a, (<[p := m]> Lh), La. split_and!; try done.
    apply blocks_ok_insert; [lia|done|done].
Qed.

Lemma wp_kfree_held X c D p (k : kernel) (Q : () -> kernel -> Prop) :
  inv (p :: X) c D k -> (forall h', inv X c D (set_k_heap h' k) -> Q tt (set_k_heap h' k)) -> wp (kfree p) Q k.
Proof.
  intros Hk HQ. destruct (inv_mem _ _ _ Hk) as (a&Lh&La&Ea&Hrh&Hra&Hbh&Hba).
  eapply wp_kfree; [exact Hrh|exact Hbh|]. intros h' L' Hr' Hb'. apply HQ. eapply inv_held; [exact Hk| |done..].
  by exists a, L', La.
Qed.

(** Blocks move between what is held and the quarantine. *)
Lemma inv_quarantine X X' q c D (k : kernel) :
  X ++ k_quarantine k ≡ₚ X' ++ q -> inv X c D k -> inv X' c D (set_k_quarantine q k).
Proof.
  intros Hp Hk. eapply inv_held; [exact Hk| |done..]. destruct (inv_mem _ _ _ Hk) as (a&Lh&La&Ea&Hrh&Hra&Hbh&Hba).
  exists a, Lh, La. cbn [k_quarantine k_processes k_heap k_aux set_k_quarantine]. split_and!; try done.
  rewrite app_assoc, <- Hp, <- app_assoc. done.
Qed.

Lemma wp_kfree_blocks chs rest L : forall (k : kernel) (Q : () -> kernel -> Prop),
  ph_rep (k_heap k) L -> blocks_ok L (chs ++ rest) ->
  (forall h' L', ph_rep h' L' -> blocks_ok L' rest -> Q tt (set_k_heap h' k)) -> wp (each kfree chs) Q k.
Proof.
  revert L. induction chs as [|ch chs IH]; intros L k Q Hr Hb HQ; cbn [each].
  - wstep. specialize (HQ (k_heap k) L Hr Hb). by destruct k.
  - wstep. eapply wp_kfree; [done..|]. intros h' L' Hr' Hb'. eapply IH; [done..|].
    intros h2 L2 Hr2 Hb2. specialize (HQ h2 L2 Hr2 Hb2). by destruct k.
Qed.

Lemma wp_alloc_attempts X c D size skip n : forall (k : kernel) (Q : Z -> kernel -> Prop),
  inv X c D k -> 0 <= size < 2 ^ 31 -> (length (k_quarantine k) + n <= 64)%nat ->
  (forall k', inv X c D k' -> k_cpus k' = k_cpus k -> k_processes k' = k_processes k -> k_next_pid k' = k_next_pid k ->
     k_ttys k' = k_ttys k -> Q 0 k') ->
  (forall p k', 0 < p < 2 ^ 64 -> inv (p :: X) c D k' -> k_cpus k' = k_cpus k -> k_processes k' = k_processes k ->
     k_next_pid k' = k_next_pid k -> k_ttys k' = k_ttys k -> Q p k') ->
  wp (alloc_attempts n size skip) Q k.
Proof.
  induction n as [|n IH]; intros k Q Hk Hsz Hq HQ0 HQ; cbn [alloc_attempts]; [wstep; by apply HQ0|].
  apply wp_bind. eapply wp_kmalloc; [exact Hk|exact Hsz|..].
  { intros h' Hk'. rewrite Z.eqb_refl. wstep. by apply HQ0. }
  intros p h' Hp Hk'. destruct (Z.eqb_spec p 0); [lia|]. do 2 wstep.
  destruct (process_range_overlaps_live_image _ _ _ _); [|wstep; by apply HQ].
  do 2 wstep. cbn [k_quarantine set_k_heap]. destruct (_ <=? _) eqn:E; bools; [unfold PROCESS_IMAGE_ALLOC_QUARANTINE_CAP in E; lia|].
  do 2 wstep. apply IH; [|done|cbn [k_quarantine set_k_quarantine length]; lia|..].
  - eapply inv_quarantine; [|exact Hk']. cbn [k_quarantine set_k_heap app]. apply Permutation_middle.
  - intros k2 Hk2 ????. by apply HQ0.
  - intros p2 k2 Hp2 Hk2 ????. by apply HQ.
Qed.

(** A buffer from the main heap; the quarantine of the previous call is released. *)
Lemma wp_alloc_buffer X c D size skip (k : kernel) (Q : Z -> kernel -> Prop) :
  inv X c D k -> 0 <= size < 2 ^ 31 ->
  (forall k', inv X c D k' -> k_cpus k' = k_cpus k -> k_processes k' = k_processes k -> k_next_pid k' = k_next_pid k ->
     k_ttys k' = k_ttys k -> Q 0 k') ->
  (forall p k', 0 < p < 2 ^ 64 -> inv (p :: X) c D k' -> k_cpus k' = k_cpus k -> k_processes k' = k_processes k ->
     k_next_pid k' = k_next_pid k -> k_ttys k' = k_ttys k -> Q p k') ->
  wp (process_kmalloc_no_image_overlap size skip) Q k.
Proof.
  intros Hk Hsz HQ0 HQ. unfold process_kmalloc_no_image_overlap. do 2 wstep.
  destruct (inv_mem _ _ _ Hk) as (a&Lh&La&Ea&Hrh&Hra&Hbh&Hba). apply wp_bind.
  eapply (wp_kfree_blocks (k_quarantine k) (X ++ chunks_of (k_processes k))); [exact Hrh| |].
  { eapply blocks_ok_Proper; [|exact Hbh]. solve_Permutation. }
  intros h' L' Hr' Hb'. do 2 wstep.
  assert (Hk1 : inv X c D (set_k_quarantine [] (set_k_heap h' k))).
  { eapply inv_held; [exact Hk| |done..]. by exists a, L', La. }
  eapply wp_alloc_attempts; [exact Hk1|done|done|..].
  - intros k' Hk' ????. by apply HQ0.
  - intros p k' Hp Hk' ????. by apply HQ.
Qed.

(** ** Starting programs *)

Definition program_safe (prog : program) : Prop :=
  match prog with
  | Embedded image => image_safe image = true
  | OnDisk size bytes => 0 <= size < 2 ^ 31 /\ (forall image, bytes = Some image -> image_safe image = true)
  | _ => True
  end.

(** An action that yields a free slot. *)
Definition gives_slot (k : kernel) (slot : K (option Z)) : Prop :=
  forall X k0 (Q0 : option Z -> kernel -> Prop),
    inv X (-1) ∅ k0 -> k_cpus k0 = k_cpus k -> k_processes k0 = k_processes k -> k_next_pid k0 = k_next_pid k ->
    k_ttys k0 = k_ttys k ->
    Q0 None k0 ->
    (forall s q k', inv X (-1) ∅ k' -> aget (k_processes k') s = Some q -> p_loaded q = false -> p_running_on_cpu q = -1 ->
       k_cpus k' = k_cpus k -> k_next_pid k' = k_next_pid k -> k_ttys k' = k_ttys k -> Q0 (Some s) k') ->
    wp slot Q0 k0.

Lemma wp_load_program X prog (slot : K (option Z)) inherit o obj parent name (k : kernel) (Q : Z + Z -> kernel -> Prop) :
  inv X (-1) ∅ k -> program_safe prog -> 0 <= k_next_pid k -> k_next_pid k + 1 < 2 ^ 32 ->
  fds_ok (k_ttys k) inherit o obj -> gives_slot k slot ->
  (forall e k', inv X (-1) ∅ k' -> k_cpus k' = k_cpus k -> Q (inr e) k') ->
  (forall s t k', inv X (-1) ∅ k' -> aget (k_processes k') s = Some t -> k_cpus k' = k_cpus k -> Q (inl s) k') ->
  wp (load_program prog slot (fun s image => process_load_image_slot s image inherit o obj parent name)) Q k.
Proof.
  intros Hk Hsafe Hn0 Hn Hf Hslot HQe HQ. destruct prog as [image| | |size bytes]; cbn [load_program].
  - apply wp_bind. eapply Hslot; [exact Hk|done|done|done|done|wstep; by apply HQe|]. intros s q k1 Hk1 Hq Hql Hqr Ec1 En1 Et1.
    apply wp_bind. eapply (wp_load_image s q); [exact Hk1|done|done|done|lia|lia|done|by rewrite Et1|..].
    + intros k2 Hk2 Ec2. wstep. apply HQe; [done|congruence].
    + intros t k2 Hk2 Ht2 Ec2. wstep. eapply HQ; [done|done|congruence].
  - wstep. by apply HQe.
  - wstep. by apply HQe.
  - destruct Hsafe as [Hsz Hsafe]. apply wp_bind. eapply wp_alloc_buffer; [exact Hk|lia|..].
    { intros k1 Hk1 Ec1 _ _ _. rewrite Z.eqb_refl. wstep. by apply HQe. }
    intros buf k1 Hbuf Hk1 Ec1 Ep1 En1 Et1. destruct (Z.eqb_spec buf 0); [lia|].
    assert (Hfail : forall k2 e, inv (buf :: X) (-1) ∅ k2 -> k_cpus k2 = k_cpus k -> wp (_ ← kfree buf; mret (inr e)) Q k2).
    { intros k2 e Hk2 Ec2. apply wp_bind. eapply wp_kfree_held; [exact Hk2|]. intros h' Hk3. wstep. by apply HQe. }
    destruct bytes as [[|b bs]|]; [by apply Hfail| |by apply Hfail]. set (image := b :: bs) in *.
    apply wp_bind. eapply Hslot; [exact Hk1|done|done|done|done|by apply Hfail|]. intros s q k2 Hk2 Hq Hql Hqr Ec2 En2 Et2.
    apply wp_bind. eapply (wp_load_image s q); [exact Hk2|done|done|done|lia|lia|by apply Hsafe|by rewrite Et2|..].
    + intros k3 Hk3 Ec3. apply Hfail; [done|congruence].
    + intros t k3 Hk3 Ht3 Ec3. apply wp_bind. eapply wp_kfree_held; [exact Hk3|]. intros h' Hk4. wstep.
      eapply HQ; [done|exact Ht3|cbn [k_cpus set_k_heap]; congruence].
Qed.

Lemma gives_find_free_slot (k : kernel) : gives_slot k process_find_free_slot.
Proof.
  intros X k0 Q0 Hk Ec Ep En Et HQ0 HQ. eapply wp_find_free_slot; [exact Hk|done|].
  intros s q k' Hk' Hq Hql Hqr (Ec'&En'&Et'&_) _. eapply HQ; try done; congruence.
Qed.

Lemma gives_this_slot s q (k : kernel) :
  aget (k_processes k) s = Some q -> p_loaded q = false -> p_running_on_cpu q = -1 -> gives_slot k (mret (Some s)).
Proof. intros Hq Hl Hr X k0 Q0 Hk Ec Ep En Et HQ0 HQ. wstep. eapply HQ; try done. by rewrite Ep. Qed.

Lemma wp_spawn_path X path prog o obj u g (k : kernel) (Q : Z -> kernel -> Prop) :
  inv X (-1) ∅ k -> program_safe prog -> 0 <= k_next_pid k -> k_next_pid k + 1 < 2 ^ 32 -> fds_ok (k_ttys k) None o obj ->
  (forall r k', inv X (-1) ∅ k' -> k_cpus k' = k_cpus k -> Q r k') ->
  wp (process_spawn_path path prog o obj u g) Q k.
Proof.
  intros Hk Hsafe Hn0 Hn Hf HQ. unfold process_spawn_path. apply wp_bind.
  eapply wp_load_program; [exact Hk|done|done|done|done|apply gives_find_free_slot|..].
  - intros e k' Hk' Ec. wstep. by apply HQ.
  - intros s t k' Hk' Ht Ec. apply wp_bind. eapply wp_on_proc; [exact Ht|]. apply wp_bind.
    eapply wp_proc; [cbn [k_processes set_k_processes]; by eapply aget_upd_eq|]. wstep. apply HQ; [|done].
    by apply (inv_neutral (-1) ∅ s t (fun p => set_p_gid g (set_p_uid u p))); [intros r| |].
Qed.

Lemma wp_spawn_named X i p name prog (k : kernel) (Q : Z -> kernel -> Prop) :
  inv X (-1) ∅ k -> aget (k_processes k) i = Some p -> p_loaded p = true -> p_state p <> EXITED ->
  program_safe prog -> 0 <= k_next_pid k -> k_next_pid k + 1 < 2 ^ 32 ->
  (forall r k', inv X (-1) ∅ k' -> k_cpus k' = k_cpus k -> Q r k') ->
  wp (process_spawn_named_from_parent i name prog) Q k.
Proof.
  intros Hk Hi Hl Hs Hsafe Hn0 Hn HQ. unfold process_spawn_named_from_parent. apply wp_bind.
  eapply wp_find_free_slot; [exact Hk|wstep; by apply HQ|]. intros s q k1 Hk1 Hq Hql Hqr (Ec1&En1&Et1&_) Hkeep.
  pose proof (Hkeep i p Hi Hl Hs) as Hi1. apply wp_bind. eapply wp_proc; [exact Hi1|].
  apply wp_bind. eapply wp_load_program; [exact Hk1|done|lia|lia| |by eapply gives_this_slot|..].
  { exact (proj2 (inv_table _ _ _ Hk1) i p Hi1). }
  - intros e k' Hk' Ec. wstep. apply HQ; [done|congruence].
  - intros s' t k' Hk' Ht Ec. do 2 wstep. apply wp_bind. eapply wp_on_proc; [exact Ht|]. apply wp_bind.
    eapply wp_proc; [cbn [k_processes set_k_processes]; by eapply aget_upd_eq|]. wstep.
    apply HQ; [|cbn [k_cpus set_k_processes]; congruence].
    eapply inv_become; [exact Ht| |done]. cbv zeta. destruct (p_pid p =? 0).
    all: split; [done|]; split; [done|]; split; [by left|]; intros Hw; left; split; [done|exact Hw].
Qed.
End Spawn.

End ProcMem.
