(* ===== verification/ProcSbrk.v ===== *)
(** * ProcSbrk: the demand-grown heap of a process (kernel/src/process.c)

    A successful SYS_SBRK maps every new page of the heap to its own zeroed
    physical page inside blocks that belong to this process alone; a failed one
    either changed nothing, the increment being negative or too large, or ran out of
    chunks or memory and is rolled back: table, live blocks and their contents are as
    before and exactly the pages of the attempt are unmapped. *)

From Stdlib Require Import ZArith Lia Bool ZifyBool.
From stdpp Require Import base numbers option list list_numbers gmap sets.
From S2P Require Import Prelude StateM ProcState Elf Process ProcSched ProcSteps ProcMem.

Open Scope Z_scope.

Module ProcSbrk.
Import ProcState Elf Process ProcSched ProcSteps ProcMem.

(** ** Page arithmetic *)

Lemma land_pages v : 0 <= v < 2 ^ 64 -> Z.land v (u64 (Z.lnot 0xfff)) = v / 4096 * 4096.
Proof.
  intros Hv. change (u64 (Z.lnot 0xfff)) with (Z.ldiff (Z.ones 64) (Z.ones 12)). rewrite land_round by lia.
  by rewrite Z.mod_small by lia.
Qed.

Lemma align_page v : 0 <= v < 2 ^ 63 -> align_up_page_uintptr v = (v + 4095) / 4096 * 4096.
Proof. intros Hv. unfold align_up_page_uintptr. rewrite u64_id by lia. by apply land_pages; lia. Qed.

Lemma align_ptr a : 0 < a -> a + 4096 < 2 ^ 64 -> a <= align_ptr_4k a <= a + 4095 /\ align_ptr_4k a mod 4096 = 0.
Proof. intros. unfold align_ptr_4k. rewrite u64_id by lia. rewrite land_pages by lia. dlia. Qed.

Section Sbrk.
Context {H I : Type} {HP : PageHeap H} {IP : PageHeap I} {X : list Z}.
Abbreviation kernel := (kernel H I).
Abbreviation K := (ST kernel).
Abbreviation inv := (@ProcSched.inv H I HP IP X).

(** ** One batch *)

(** There is no room for one more page: the table of chunks is full, or the
    allocator, with the blocks [L] live, cannot serve the smallest request. *)
Definition exhausted (L : gmap Z Z) (chunks : Z) : Prop :=
  PROCESS_HEAP_MAX_CHUNKS <= chunks \/ exists h h' : H, ph_rep h L /\ ph_alloc 0x2000 h = Some (0, h').

Lemma wp_sbrk_batch fuel o p L (k : kernel) (Q : Z * Z + () -> kernel -> Prop) : forall req h,
  aget (k_processes k) o = Some p -> ph_rep h L ->
  0 < req <= 2 ^ 30 -> req mod 4096 = 0 -> req < 4096 * 2 ^ Z.of_nat fuel ->
  (forall h', ph_rep h' L -> exhausted L (Z.of_nat (length (p_heap_chunks p))) -> Q (inr ()) (set_k_heap h' k)) ->
  (forall a b m h', 0 < a -> 4096 <= b <= req -> b mod 4096 = 0 -> b + 4096 <= m -> a + m < 2 ^ 64 -> L !! a = None ->
     ph_rep h' (<[a := m]> L) -> (forall q j, L !! q = Some j -> a + m <= q \/ q + j <= a) ->
     Q (inl (a, b)) (set_k_heap h' k)) ->
  wp (sbrk_batch fuel o req) Q (set_k_heap h k).
Proof.
  induction fuel as [|fuel IH]; intros req h Hp Hr Hreq Hmod Hf HQf HQ.
  { change (2 ^ Z.of_nat 0) with 1 in Hf. dlia. }
  cbn [sbrk_batch]. apply wp_bind. eapply wp_proc; [exact Hp|].
  destruct (_ <=? Z.of_nat (length _)) eqn:Ec; [wstep; apply HQf; [done|left; by apply Z.leb_le]|].
  unfold kmalloc. apply wp_bind. do 2 wstep. cbn [k_heap set_k_heap]. rewrite u64_id by lia.
  destruct (ph_alloc_ok (req + 0x1000) h L Hr) as (a&h'&E&Hcase); [lia|].
  apply wp_bind. eapply wp_must; [exact E|]. cbn beta iota. do 3 wstep.
  change (set_k_heap h' (set_k_heap h k)) with (set_k_heap h' k).
  destruct Hcase as [[-> Hr']|(m&Ha&Hm&Ham&Hno&Hr'&Hdis)].
  - cbn [negb Z.eqb]. destruct (_ <=? 0x1000) eqn:E1; bools.
    { wstep. apply HQf; [done|]. right. exists h, h'. split; [done|]. by replace req with 0x1000 in E by dlia. }
    assert (Hb : Z.land (Z.shiftr req 1) (u64 (Z.lnot 0xfff)) = req / 2 / 4096 * 4096).
    { rewrite Z.shiftr_div_pow2 by lia. change (2 ^ 1) with 2. apply land_pages. dlia. }
    rewrite Hb. destruct (_ <? 0x1000) eqn:E2; bools; [dlia|].
    apply IH; [done|done|dlia|by apply Z.mod_mul| |done|].
    + rewrite Nat2Z.inj_succ, Z.pow_succ_r in Hf by lia. dlia.
    + intros a b m h2 ???????. apply HQ; try done. dlia.
  - destruct (Z.eqb_spec a 0); [lia|]. cbn [negb]. wstep. apply (HQ a req m); first [done|lia|dlia].
Qed.

(** ** Mapping the pages of a batch *)

Lemma wp_set_pte o t page e (k : kernel) (Q : () -> kernel -> Prop) :
  aget (k_page_tables k) o = Some t ->
  Q tt (set_k_page_tables (<[Z.to_nat o := <[page := e]> t]> (k_page_tables k)) k) -> wp (set_pte (o + 1) page e) Q k.
Proof.
  intros Ht HQ. unfold set_pte. eapply wp_try; [|exact HQ]. rewrite Z.add_simpl_r, Ht. cbn [mbind option_bind].
  rewrite aset_ok by by eapply aget_Some_lt. done.
Qed.

Lemma wp_sbrk_map o n : forall t va pa (k : kernel) (Q : bool -> kernel -> Prop),
  aget (k_page_tables k) o = Some t -> PROCESS_USER_BASE <= va -> va mod 4096 = 0 ->
  let page := (va - PROCESS_USER_BASE) / 4096 in
  page + Z.of_nat n <= 65536 ->
  (forall t', (forall g, t' !! g = if decide (page <= g < page + Z.of_nat n) then Some (Z.lor (pa + (g - page) * 4096) 7) else t !! g) ->
     Q true (set_k_page_tables (<[Z.to_nat o := t']> (k_page_tables k)) k)) ->
  wp (sbrk_map n (o + 1) PROCESS_USER_BASE va pa) Q k.
Proof.
  unfold PROCESS_USER_BASE. induction n as [|n IH]; intros t va pa k Q Ht Hva Hmod Hpage HQ; cbn [sbrk_map];
    set (page := (va - 0x20000000) / 4096) in *.
  - wstep. specialize (HQ t). replace (set_k_page_tables (<[Z.to_nat o:=t]> (k_page_tables k)) k) with k in HQ.
    + apply HQ. intros g. rewrite decide_False by lia. done.
    + unfold aget in Ht. destruct (0 <=? o); [|done]. rewrite list_insert_id by done. by destruct k.
  - cbv zeta. rewrite u64_id by (unfold page in *; dlia). fold page.
    destruct (_ <=? page / 512) eqn:E; bools; [exfalso; change PROCESS_USER_PAGE_TABLE_COUNT with 128 in E; dlia|].
    apply wp_bind. eapply wp_set_pte; [exact Ht|]. pose proof (aget_Some_lt _ _ _ Ht) as Hlt.
    assert (Ep : (va + 4096 - 0x20000000) / 4096 = page + 1) by (unfold page in *; dlia).
    eapply (IH _ (va + 4096) (pa + 4096)).
    + cbn [k_page_tables set_k_page_tables]. by apply aget_insert_eq.
    + lia.
    + dlia.
    + rewrite Ep. lia.
    + rewrite Ep. intros t' Ht'. cbn [k_page_tables set_k_page_tables]. rewrite list_insert_insert_eq.
      specialize (HQ t'). replace (set_k_page_tables (<[Z.to_nat o:=t']> (k_page_tables k))
        (set_k_page_tables (<[Z.to_nat o:=<[page:=Z.lor pa 7]> t]> (k_page_tables k)) k))
        with (set_k_page_tables (<[Z.to_nat o:=t']> (k_page_tables k)) k) by by destruct k.
      apply HQ. intros g. rewrite Ht'. destruct (decide (g = page)) as [->|Hg].
      * rewrite decide_False by lia. rewrite decide_True by lia. rewrite lookup_insert_eq. f_equal. f_equal. lia.
      * rewrite lookup_insert_ne by done. destruct (decide (page + 1 <= g < page + 1 + Z.of_nat n)).
        -- rewrite decide_True by lia. f_equal. f_equal. lia.
        -- rewrite decide_False by lia. done.
Qed.
(** ** The growth loop *)

(** Only the table, the main heap, memory and the page tables have changed. *)
Definition same_rest (k0 k : kernel) : Prop :=
  k_cpus k = k_cpus k0 /\ k_next_pid k = k_next_pid k0 /\ k_ttys k = k_ttys k0 /\ k_layout k = k_layout k0 /\
  k_quarantine k = k_quarantine k0 /\ k_canaries k = k_canaries k0 /\ k_upper k = k_upper k0 /\ k_aux k = k_aux k0.

Definition add_chunks (new : list Z) (p : process) : process := set_p_heap_chunks (p_heap_chunks p ++ new) p.

(** Pages [first] to [first + n - 1] of slot [o] are mapped to the physical pages
    [pa], which lie in the blocks [new]; [L0] were the live blocks before. *)
Record grown (k0 : kernel) (o : Z) (p0 : process) (t0 L0 : gmap Z Z) (first n : Z) (new : list Z) (L : gmap Z Z)
    (pa : Z -> Z) (k : kernel) : Prop := mk_grown {
  gr_procs : k_processes k = <[Z.to_nat o := add_chunks new p0]> (k_processes k0);
  gr_rest : same_rest k0 k;
  gr_heap : ph_rep (k_heap k) L;
  gr_blocks : blocks_ok L (new ++ X ++ k_quarantine k0 ++ chunks_of (k_processes k0));
  gr_old : L0 ⊆ L;
  gr_new : forall q, if decide (q ∈ new) then L0 !! q = None else L !! q = L0 !! q;
  gr_tables : exists t, k_page_tables k = <[Z.to_nat o := t]> (k_page_tables k0) /\
    forall g, t !! g = if decide (first <= g < first + n) then Some (Z.lor (pa g) 7) else t0 !! g;
  gr_pages : forall g, first <= g < first + n -> pa g mod 4096 = 0 /\
    exists q m, q ∈ new /\ L !! q = Some m /\ L0 !! q = None /\ q <= pa g /\ pa g + 4096 <= q + m /\ q + m < 2 ^ 64;
  gr_disj : forall g g', first <= g < first + n -> first <= g' < first + n -> g <> g' ->
    pa g + 4096 <= pa g' \/ pa g' + 4096 <= pa g;
  gr_other : forall g q m, first <= g < first + n -> L0 !! q = Some m -> pa g + 4096 <= q \/ q + m <= pa g;
  gr_count : Z.of_nat (length new) <= n;
  gr_zero : forall g a, first <= g < first + n -> pa g <= a < pa g + 4096 -> k_mem k a = 0;
  gr_mem : forall a, (forall g, first <= g < first + n -> ~ (pa g <= a < pa g + 4096)) -> k_mem k a = k_mem k0 a }.

(** The state after a batch of [b] bytes at [a] has been mapped. *)
Definition after_batch (o : Z) (h' : H) (a b : Z) (t' : gmap Z Z) (p' : process) (k : kernel) : kernel :=
  let pages := align_ptr_4k a in
  set_k_processes (<[Z.to_nat o := p']> (k_processes k))
    (set_k_page_tables (<[Z.to_nat o := t']> (k_page_tables k))
      (set_k_mem (fun x => if (pages <=? x) && (x <? pages + b) then 0 else k_mem k x) (set_k_heap h' k))).

Lemma grown_step k0 o p0 t0 L0 first n new L pa k a b m h' t' :
  grown k0 o p0 t0 L0 first n new L pa k -> 0 <= n ->
  aget (k_processes k0) o = Some p0 -> aget (k_page_tables k0) o = Some t0 ->
  0 < a -> 4096 <= b -> b mod 4096 = 0 -> b + 4096 <= m -> a + m < 2 ^ 64 -> L !! a = None -> ph_rep h' (<[a := m]> L) ->
  (forall q j, L !! q = Some j -> a + m <= q \/ q + j <= a) ->
  (forall g, t' !! g = if decide (first + n <= g < first + n + b / 4096) then Some (Z.lor (align_ptr_4k a + (g - (first + n)) * 4096) 7)
     else (if decide (first <= g < first + n) then Some (Z.lor (pa g) 7) else t0 !! g)) ->
  grown k0 o p0 t0 L0 first (n + b / 4096) (new ++ [a]) (<[a := m]> L)
    (fun g => if decide (first + n <= g) then align_ptr_4k a + (g - (first + n)) * 4096 else pa g)
    (after_batch o h' a b t' (add_chunks (new ++ [a]) p0) k).
Proof.
  intros [Gp Gr Gh Gb Go Gn [t [Gt1 Gt2]] Gpg Gd Got Gcn Gz Gm] Hn Ho Ht0 Ha Hb Hbm Hm Ham Hno Hrep Hdis Ht'.
  destruct (align_ptr a) as [Hal Halm]; [lia|lia|]. set (pages := align_ptr_4k a) in *.
  assert (Hbd : b = b / 4096 * 4096) by dlia. set (c := b / 4096) in *.
  split; cbn [after_batch k_processes k_heap k_page_tables k_mem set_k_processes set_k_page_tables set_k_mem set_k_heap].
  - rewrite Gp, list_insert_insert_eq. done.
  - done.
  - done.
  - assert (Hp : (new ++ [a]) ++ X ++ k_quarantine k0 ++ chunks_of (k_processes k0) ≡ₚ
                 a :: (new ++ X ++ k_quarantine k0 ++ chunks_of (k_processes k0))) by solve_Permutation.
    rewrite Hp. by apply blocks_ok_insert; [lia|..].
  - etrans; [exact Go|]. by apply insert_subseteq.
  - intros q. specialize (Gn q). destruct (decide (q = a)) as [->|Hq].
    + rewrite decide_True by set_solver. destruct (L0 !! a) eqn:E; [|done]. by rewrite (lookup_weaken _ _ _ _ E Go) in Hno.
    + rewrite lookup_insert_ne by done. destruct (decide (q ∈ new)); [rewrite decide_True by set_solver|rewrite decide_False by set_solver]; done.
  - exists t'. rewrite Gt1, list_insert_insert_eq. split; [done|]. intros g. rewrite Ht'.
    repeat case_decide; try done; lia.
  - intros g Hg. case_decide as Hd.
    + split; [dlia|]. exists a, m. rewrite lookup_insert_eq. split_and!; [set_solver|done| |lia|nia|lia].
      destruct (L0 !! a) eqn:E; [|done]. by rewrite (lookup_weaken _ _ _ _ E Go) in Hno.
    + destruct (Gpg g) as (?&q&j&?&?&?&?&?&?); [lia|]. split; [done|]. exists q, j.
      rewrite lookup_insert_ne by congruence. split_and!; try done. set_solver.
  - intros g g' Hg Hg' Hne. assert (Hx : forall g1 g2, first + n <= g1 < first + (n + c) -> first <= g2 < first + n ->
      let x := pages + (g1 - (first + n)) * 4096 in x + 4096 <= pa g2 \/ pa g2 + 4096 <= x).
    { intros g1 g2 H1 H2 x. destruct (Gpg g2 H2) as (_&q&j&_&Hq&_&?&?&_). destruct (Hdis q j Hq); unfold x; [left|right]; nia. }
    repeat case_decide.
    + nia.
    + apply Hx; lia.
    + destruct (Hx g' g); lia.
    + apply Gd; lia.
  - intros g q j Hg Hq. case_decide.
    + destruct (Hdis q j (lookup_weaken _ _ _ _ Hq Go)); [left|right]; nia.
    + apply Got; [lia|done].
  - rewrite length_app. cbn [length]. lia.
  - intros g x Hg Hx. destruct (_ && _) eqn:E; [done|]. case_decide; [exfalso; apply andb_false_iff in E as [?|?]; bools; nia|].
    apply Gz with g; [lia|done].
  - intros x Hx. destruct (_ && _) eqn:E; bools.
    + exfalso. assert (0 <= (x - pages) / 4096 < c) by (rewrite Hbd in *; dlia).
      apply (Hx (first + n + (x - pages) / 4096)); [lia|]. rewrite decide_True by lia. dlia.
    + apply Gm. intros g Hg Hin. apply (Hx g); [nia|]. rewrite decide_False by lia. done.
Qed.
Lemma grown_heap k0 o p0 t0 L0 first n new L pa k h' :
  grown k0 o p0 t0 L0 first n new L pa k -> ph_rep h' L -> grown k0 o p0 t0 L0 first n new L pa (set_k_heap h' k).
Proof. intros [Gp Gr Gh Gb Go Gn Gt Gpg Gd Got Gcn Gz Gm] Hr. by split. Qed.

Lemma grown_start (k0 : kernel) o p0 t0 L0 first :
  aget (k_processes k0) o = Some p0 -> aget (k_page_tables k0) o = Some t0 -> ph_rep (k_heap k0) L0 ->
  blocks_ok L0 (X ++ k_quarantine k0 ++ chunks_of (k_processes k0)) ->
  grown k0 o p0 t0 L0 first 0 [] L0 (fun _ => 0) k0.
Proof.
  intros Hp Ht Hr Hb. unfold aget in Hp, Ht. destruct (0 <=? o); [|done].
  split; try done; try (intros; lia).
  - unfold add_chunks. rewrite app_nil_r, list_insert_id; [done|]. rewrite Hp. f_equal. by destruct p0.
  - exists t0. rewrite list_insert_id by done. split; [done|]. intros g. by rewrite decide_False by lia.
Qed.

(** Unmapping the pages [first + j] for [j] in [js]. *)
Lemma wp_unmap o base first js : forall t (k : kernel) (Q : () -> kernel -> Prop),
  aget (k_page_tables k) o = Some t -> base = PROCESS_USER_BASE + first * 4096 -> 0 <= first ->
  Forall (fun j => 0 <= j /\ first + j < 65536) js ->
  (forall t', (forall g, t' !! g = if decide (g - first ∈ js) then Some 0 else t !! g) ->
     Q tt (set_k_page_tables (<[Z.to_nat o := t']> (k_page_tables k)) k)) ->
  wp (each (fun i => let page := u64 (base + i * 0x1000 - PROCESS_USER_BASE) / 0x1000 in
        if page / 512 <? PROCESS_USER_PAGE_TABLE_COUNT then set_pte (o + 1) page 0 else mret ()) js) Q k.
Proof.
  induction js as [|j js IH]; intros t k Q Ht Hb Hf0 Hf HQ; cbn [each].
  - wstep. specialize (HQ t). replace (set_k_page_tables (<[Z.to_nat o:=t]> (k_page_tables k)) k) with k in HQ.
    + apply HQ. intros g. rewrite decide_False by set_solver. done.
    + unfold aget in Ht. destruct (0 <=? o); [|done]. rewrite list_insert_id by done. by destruct k.
  - apply Forall_cons in Hf as [Hj Hf]. apply wp_bind. cbv zeta.
    assert (Ep : u64 (base + j * 0x1000 - PROCESS_USER_BASE) / 0x1000 = first + j).
    { rewrite Hb, u64_id by (unfold PROCESS_USER_BASE; lia). unfold PROCESS_USER_BASE. dlia. }
    rewrite Ep. destruct (_ <? _) eqn:E; bools; [|change PROCESS_USER_PAGE_TABLE_COUNT with 128 in E; dlia].
    eapply wp_set_pte; [exact Ht|]. pose proof (aget_Some_lt _ _ _ Ht).
    eapply IH; [cbn [k_page_tables set_k_page_tables]; by apply aget_insert_eq|done|done|done|].
    intros t' Ht'. cbn [k_page_tables set_k_page_tables]. rewrite list_insert_insert_eq. apply HQ.
    intros g. rewrite Ht'. destruct (decide (g = first + j)) as [->|Hg].
    + rewrite lookup_insert_eq. replace (first + j - first) with j by lia. rewrite (decide_True (P := j ∈ j :: js)) by set_solver.
      by case_decide.
    + rewrite lookup_insert_ne by done. destruct (decide (g - first ∈ js)).
      * by rewrite decide_True by set_solver.
      * rewrite decide_False; [done|]. rewrite elem_of_cons. intros [?|?]; [lia|done].
Qed.

(** Freeing blocks removes exactly them. *)
Lemma wp_kfree_exact chs rest : forall L (k : kernel) (Q : () -> kernel -> Prop),
  ph_rep (k_heap k) L -> blocks_ok L (chs ++ rest) ->
  (forall h' L', ph_rep h' L' -> (forall q, L' !! q = if decide (q ∈ chs) then None else L !! q) ->
     Q tt (set_k_heap h' k)) -> wp (each kfree chs) Q k.
Proof.
  induction chs as [|ch chs IH]; intros L k Q Hr Hb HQ; cbn [each].
  - wstep. replace k with (set_k_heap (k_heap k) k) by by destruct k. eapply HQ; [exact Hr|].
    intros q. by rewrite decide_False by set_solver.
  - apply wp_bind. pose proof Hb as [Hnd [[_ [m Hm]] _]%Forall_cons].
    destruct (ph_free_ok ch _ _ m Hr Hm) as (h'&E&Hr'). unfold kfree. do 2 wstep. apply wp_bind.
    eapply wp_must; [exact E|]. wstep. eapply IH; [exact Hr'|by apply blocks_ok_delete in Hb|].
    intros h2 L2 Hr2 HL2. apply (HQ h2 L2 Hr2). intros q. rewrite HL2. destruct (decide (q = ch)) as [->|Hq].
    + rewrite lookup_delete_eq. rewrite (decide_True (P := ch ∈ ch :: chs)) by set_solver. by case_decide.
    + rewrite lookup_delete_ne by done. destruct (decide (q ∈ chs)).
      * by rewrite decide_True by set_solver.
      * rewrite decide_False; [done|]. rewrite elem_of_cons. by intros [?|?].
Qed.

Section Loop.
Context (k0 : kernel) (o : Z) (p0 : process) (t0 L0 : gmap Z Z) (old_page_end map_size : Z).
Hypothesis Ho : aget (k_processes k0) o = Some p0.
Hypothesis Ht0 : aget (k_page_tables k0) o = Some t0.
Hypothesis Htab : p_user_page_tables p0 = o + 1.
Hypothesis Hbase : p_user_virtual_base p0 = PROCESS_USER_BASE.
Hypothesis Hope : PROCESS_USER_BASE <= old_page_end /\ old_page_end mod 4096 = 0.
Hypothesis Hms : map_size mod 4096 = 0.
Let first := (old_page_end - PROCESS_USER_BASE) / 4096.
Hypothesis Hfit : 0 <= map_size /\ first + map_size / 4096 <= 65536.

Lemma grown_get n new L pa k : grown k0 o p0 t0 L0 first n new L pa k ->
  aget (k_processes k) o = Some (add_chunks new p0) /\
  exists t, aget (k_page_tables k) o = Some t /\ k_page_tables k = <[Z.to_nat o := t]> (k_page_tables k0) /\
    forall g, t !! g = if decide (first <= g < first + n) then Some (Z.lor (pa g) 7) else t0 !! g.
Proof.
  intros [Gp Gr Gh Gb Go _ [t [Gt1 Gt2]] _ _ _ _ _ _]. pose proof (aget_Some_lt _ _ _ Ho). pose proof (aget_Some_lt _ _ _ Ht0).
  rewrite Gp, Gt1, aget_insert_eq by lia. split; [done|]. exists t. by rewrite aget_insert_eq by lia.
Qed.

Lemma wp_sbrk_grow fuel : forall mapped new L pa k (Q : bool -> kernel -> Prop),
  grown k0 o p0 t0 L0 first (mapped / 4096) new L pa k ->
  0 <= mapped <= map_size -> mapped mod 4096 = 0 -> map_size - mapped <= Z.of_nat fuel * 4096 ->
  (forall new L pa k', grown k0 o p0 t0 L0 first (map_size / 4096) new L pa k' -> Q true k') ->
  (forall n new L pa k', 0 <= n <= map_size / 4096 -> grown k0 o p0 t0 L0 first n new L pa k' ->
     exhausted L (Z.of_nat (length (p_heap_chunks p0) + length new)) -> Q false k') ->
  wp (sbrk_grow fuel o old_page_end map_size mapped) Q k.
Proof.
  induction fuel as [|fuel IH]; intros mapped new L pa k Q G Hm Hmod Hf HQt HQf; cbn [sbrk_grow];
    destruct (_ <=? mapped) eqn:E; bools; try lia.
  1-2: wstep; eapply HQt; replace map_size with mapped by lia; exact G.
  destruct (grown_get _ _ _ _ _ G) as (Hp&t&Ht&Htk&Htg). apply wp_bind.
  assert (Ek : set_k_heap (k_heap k) k = k) by by destruct k.
  rewrite <- Ek. pose proof (gr_heap _ _ _ _ _ _ _ _ _ _ _ G) as Hrep. unfold PROCESS_USER_BASE in first, Hope.
  eapply (wp_sbrk_batch 64 o _ L); [exact Hp|exact Hrep|unfold first in *; dlia|dlia| | |].
  { change (4096 * 2 ^ Z.of_nat 64) with (2 ^ 76). unfold first in *; dlia. }
  { intros h' Hr' Hex. wstep. eapply HQf; [|by eapply grown_heap|].
    - dlia.
    - cbn [p_heap_chunks add_chunks set_p_heap_chunks] in Hex. by rewrite length_app in Hex. }
  intros a b m h' Ha Hb Hbm Hbl Ham Hno Hr' Hdis. cbv zeta. unfold memory_zero. do 2 wstep. apply wp_bind.
  eapply wp_proc; [exact Hp|]. apply wp_bind. cbn [p_user_page_tables p_user_virtual_base add_chunks set_p_heap_chunks].
  rewrite Htab, Hbase.
  assert (Epg : (old_page_end + mapped - PROCESS_USER_BASE) / 4096 = first + mapped / 4096).
  { unfold first, PROCESS_USER_BASE. dlia. }
  eapply (wp_sbrk_map o _ t); [exact Ht|unfold PROCESS_USER_BASE in *; lia|dlia|rewrite Epg; rewrite Z2Nat.id by dlia; dlia|].
  rewrite Epg, Z2Nat.id by dlia. intros t' Ht'. cbn [negb]. apply wp_bind. eapply wp_on_proc; [exact Hp|].
  cbn [p_heap_chunks add_chunks set_p_heap_chunks k_processes set_k_processes set_k_page_tables set_k_mem set_k_heap].
  rewrite <- app_assoc.
  assert (G' := grown_step _ _ _ _ _ _ _ _ _ _ _ a b m h' t' G ltac:(dlia) Ho Ht0 Ha ltac:(lia) Hbm Hbl Ham Hno Hr' Hdis).
  eapply (IH (mapped + b)).
  - replace ((mapped + b) / 4096) with (mapped / 4096 + b / 4096) by dlia.
    eapply G'. intros g. rewrite Ht'. case_decide; [done|apply Htg].
  - lia.
  - dlia.
  - lia.
  - done.
  - done.
Qed.

(** A failed growth, undone: the process, the live blocks and what they hold are
    as before, and the pages it was for are unmapped. *)
Definition undone (k : kernel) : Prop :=
  k_processes k = k_processes k0 /\ same_rest k0 k /\ ph_rep (k_heap k) L0 /\
  (forall b m a, L0 !! b = Some m -> b <= a < b + m -> k_mem k a = k_mem k0 a) /\
  exists t, k_page_tables k = <[Z.to_nat o := t]> (k_page_tables k0) /\
    forall g, t !! g = if decide (first <= g < first + map_size / 4096) then Some 0 else t0 !! g.

Lemma wp_sbrk_rollback n new L pa k (Q : () -> kernel -> Prop) :
  grown k0 o p0 t0 L0 first n new L pa k -> 0 <= n <= map_size / 4096 ->
  (forall k', undone k' -> Q tt k') ->
  wp (sbrk_rollback o old_page_end map_size (length (p_heap_chunks p0))) Q k.
Proof.
  intros G Hn HQ. destruct (grown_get _ _ _ _ _ G) as (Hp&t&Ht&Htk&Htg). destruct G as [Gp Gr Gh Gb Go Gn _ _ _ Got _ _ Gm].
  unfold sbrk_rollback. apply wp_bind. eapply wp_proc; [exact Hp|]. cbn [p_user_virtual_base p_user_page_tables p_heap_chunks add_chunks set_p_heap_chunks].
  rewrite Hbase, Htab. apply wp_bind. unfold PROCESS_USER_BASE in Hope, first.
  eapply (wp_unmap o old_page_end first); [exact Ht|unfold first, PROCESS_USER_BASE; dlia|unfold first; dlia| |].
  { apply Forall_forall. intros j Hj. apply elem_of_seqZ in Hj. unfold first in *. lia. }
  intros t' Ht'. rewrite drop_app_length. apply wp_bind. eapply wp_kfree_exact; [exact Gh|exact Gb|].
  intros h' L' Hr' HL'. eapply wp_on_proc; [exact Hp|]. cbn [p_heap_chunks add_chunks set_p_heap_chunks]. rewrite take_app_length.
  apply HQ. cbn [k_processes k_heap k_page_tables set_k_processes set_k_page_tables set_k_heap]. split_and!.
  - rewrite Gp, list_insert_insert_eq. unfold aget in Ho. destruct (0 <=? o); [|done].
    rewrite list_insert_id; [done|]. rewrite Ho. by destruct p0.
  - exact Gr.
  - assert (L' = L0) as ->; [|done]. apply map_eq. intros q. rewrite HL'. specialize (Gn q). by case_decide.
  - intros b m a Hb' Ha'. apply Gm. intros g Hg Hin. destruct (Got g b m Hg Hb'); lia.
  - exists t'. rewrite Htk, list_insert_insert_eq. split; [done|]. intros g. rewrite Ht', Htg.
    rewrite (decide_ext (g - first ∈ seqZ 0 (map_size / 4096)) (first <= g < first + map_size / 4096)) by (rewrite elem_of_seqZ; lia).
    repeat case_decide; done || lia.
Qed.
End Loop.

(** ** The whole call *)

Definition set_heap (start brk : Z) (chunks : list Z) (p : process) : process :=
  set_p_heap_break brk (set_p_heap_start start (set_p_heap_chunks chunks p)).

(** A change of the heap of a loaded process. *)
Lemma inv_heap c D i p start brk chunks (k k' : kernel) :
  inv c D k -> aget (k_processes k) i = Some p -> p_loaded p = true ->
  k_processes k' = <[Z.to_nat i := set_heap start brk chunks p]> (k_processes k) ->
  k_cpus k' = k_cpus k -> k_next_pid k' = k_next_pid k -> k_ttys k' = k_ttys k -> k_layout k' = k_layout k ->
  k_canaries k' = k_canaries k -> length (k_page_tables k') = 48%nat -> length (k_upper k') = 48%nat ->
  (owns p = true -> heap_ok (set_heap start brk chunks p)) ->
  mem_ok (X := X) (k_heap k') (k_aux k') (k_quarantine k') (k_processes k') -> inv c D k'.
Proof.
  intros [Ht Hs Hids Hm Hp Hw Hcan Hl] Hi Hld Ep Ec En Et El Eca Hl1 Hl2 Hh Hmem.
  split; rewrite ?Ep, ?Ec, ?En, ?Et, ?El, ?Eca; try done.
  - apply table_upd with (p := p); [done|apply (proj2 Ht i p Hi)..|done].
  - apply sched_upd with (p := p); [done|done|..|done];
    destruct Hs as (_&_&_&Hd&He); [by apply (Hd i p)|by apply (He i p)].
  - apply ids_upd with (p := p); [done|..|done].
    + pose proof (proj1 Hids i p Hi) as Hx. cbn [p_loaded set_heap set_p_heap_break set_p_heap_start set_p_heap_chunks].
      by rewrite Hld in *.
    + intros _ j q Hj Hq Hlq E. apply Hj. by eapply (proj2 Hids); [exact Hq|exact Hi|..].
  - by rewrite <- Ep.
  - apply space_upd with (p := p) (D := D); [done|..|done].
    + intros Ho. destruct (proj1 Hp i p Hi Ho) as (?&?&_). split_and!; [done|done|by apply Hh].
    + intros H1 H2 H3. destruct (proj2 Hp i p Hi H1 H2 H3) as (o&q&Ho&Hq&Hr). exists o, q. split; [|done].
      intros ->. unfold owns in Hq. assert (q = p) as -> by congruence. cbn in H2. by rewrite H2, andb_false_r in Hq.
    + intros t q Hn Hq Hlq Htq Hsq Hin Ho. split_and!; try done.
      destruct (proj2 Hp t q) as (o&r&Hr&_&Hin'&_&_&Hst'); [done..|]. unfold in_space in Hin, Hin'.
      assert (o = i) as -> by lia. assert (r = p) as -> by congruence. done.
    + by right.
  - apply wake_upd with (p := p) (D := D); [done|..|done].
    + intros _ j z _ Hz. by apply (Hw i j p z).
    + intros Hz j q _ Hq Hlq. by apply (Hw j i q p).
    + done.
Qed.

(** The slot whose address space slot [i] runs in. *)
Definition space_owner (i o : Z) (k : kernel) : Prop :=
  exists p q, aget (k_processes k) i = Some p /\ aget (k_processes k) o = Some q /\ owns q = true /\
    (p_is_thread p = false /\ o = i \/ p_is_thread p = true /\ in_space o p /\ p_cr3 p = p_cr3 q).

Lemma wp_owner c D i (k : kernel) p (Q : Z -> kernel -> Prop) :
  inv c D k -> aget (k_processes k) i = Some p -> p_loaded p = true -> p_state p <> EXITED ->
  (forall o, space_owner i o k -> Q o k) -> wp (process_address_space_owner i) Q k.
Proof.
  intros Hk Hi Hl Hs HQ. unfold process_address_space_owner. apply wp_bind. eapply wp_proc; [exact Hi|].
  destruct (p_is_thread p) eqn:Et; cbn [negb].
  - do 3 wstep. destruct (inv_space _ _ _ Hk) as [Ho1 Ho2]. destruct (Ho2 i p Hi Hl Et Hs) as (o&q&Ho&Hq&Hin&Hc&_).
    apply HQ. destruct (find_slot _ 0 _) as [j|] eqn:E.
    + apply find_slot0 in E as (r&Hr&Er). apply andb_prop in Er as [[Er Eu]%andb_prop Ec].
      change (owns r = true) in Er. bools.
      change (default i (Some j)) with j. exists p, r. split_and!; [done|done|exact Er|right].
      destruct (Ho1 j r Hr Er) as (Hj&_). unfold in_space in *. split_and!; congruence.
    + exfalso. pose proof (find_slot_None _ _ _ o q E Ho) as Hf. cbn beta in Hf. fold (owns q) in Hf.
      destruct (Ho1 o q Ho Hq) as (Hj&_). unfold in_space in *.
      rewrite Hq, Hj, Hin, Hc, !Z.eqb_refl in Hf. done.
  - wstep. apply HQ. exists p, p. split_and!; try done; [|by left]. unfold owns. by rewrite Hl, Et.
Qed.

(** Pages [first] to [first + n - 1] of slot [o] have become mapped: each to a
    zeroed physical page of its own, which was in no live block [L] of the main
    heap before and is in a chunk of the process now.  The other pages, the
    rest of memory and the live blocks are as before. *)
Definition fresh_pages (L : gmap Z Z) (o first n : Z) (k k' : kernel) : Prop :=
  exists L' t t' (pa : Z -> Z) q', ph_rep (k_heap k') L' /\ L ⊆ L' /\ aget (k_processes k') o = Some q' /\
    aget (k_page_tables k) o = Some t /\ k_page_tables k' = <[Z.to_nat o := t']> (k_page_tables k) /\
    (forall g, t' !! g = if decide (first <= g < first + n) then Some (Z.lor (pa g) 7) else t !! g) /\
    (forall g, first <= g < first + n -> pa g mod 4096 = 0 /\
       (exists b m, b ∈ p_heap_chunks q' /\ L' !! b = Some m /\ L !! b = None /\ b <= pa g /\ pa g + 4096 <= b + m) /\
       (forall b m, L !! b = Some m -> pa g + 4096 <= b \/ b + m <= pa g) /\
       (forall a, pa g <= a < pa g + 4096 -> k_mem k' a = 0) /\
       (forall g', first <= g' < first + n -> g <> g' -> pa g + 4096 <= pa g' \/ pa g' + 4096 <= pa g)) /\
    (forall a, (forall g, first <= g < first + n -> ~ (pa g <= a < pa g + 4096)) -> k_mem k' a = k_mem k a).

(** A page number for an address of the user area, rounded up. *)
Definition page_above (v : Z) : Z := (v - PROCESS_USER_BASE + 4095) / 4096.

(** The heap of slot [o] has grown by [increment] bytes on behalf of slot [i]. *)
Definition heap_grown (L : gmap Z Z) (i o increment : Z) (k k' : kernel) : Prop :=
  exists q q', aget (k_processes k) o = Some q /\ aget (k_processes k') o = Some q' /\
    p_heap_break q' = p_heap_break q + increment /\ owns q' = owns q /\ p_heap_break q' <= PROCESS_USER_BASE + PROCESS_USER_IMAGE_SIZE /\
    (forall j, j <> o -> j <> i -> aget (k_processes k') j = aget (k_processes k) j) /\
    fresh_pages L o (page_above (p_heap_break q)) (page_above (p_heap_break q') - page_above (p_heap_break q)) k k'.

(** A growth of slot [o] by [increment] bytes has failed because no further page
    could be had after at most [n] pages, and is undone: processes, live blocks
    and their contents are as before; of all page tables only those of [o]
    have changed, and there exactly the [n] pages of the growth are unmapped. *)
Definition heap_rolled_back (L : gmap Z Z) (o increment : Z) (k k' : kernel) : Prop :=
  exists q t t', aget (k_processes k) o = Some q /\
    let first := page_above (p_heap_break q) in
    let n := page_above (p_heap_break q + increment) - first in
    0 < increment /\ p_heap_break q + increment <= PROCESS_USER_BASE + PROCESS_USER_IMAGE_SIZE /\
    k_processes k' = k_processes k /\ ph_rep (k_heap k') L /\
    (forall b m a, L !! b = Some m -> b <= a < b + m -> k_mem k' a = k_mem k a) /\
    aget (k_page_tables k) o = Some t /\ k_page_tables k' = <[Z.to_nat o := t']> (k_page_tables k) /\
    (forall g, t' !! g = if decide (first <= g < first + n) then Some 0 else t !! g) /\
    exists L1 m, L ⊆ L1 /\ 0 <= m <= n /\ exhausted L1 (Z.of_nat (length (p_heap_chunks q)) + m).

(** The request is refused without any change: it is negative or reaches past
    the end of the heap area. *)
Definition heap_refused (o increment : Z) (k k' : kernel) : Prop :=
  k' = k /\ exists q, aget (k_processes k) o = Some q /\
    (increment < 0 \/ PROCESS_USER_BASE + PROCESS_USER_IMAGE_SIZE < p_heap_break q + increment).

(** What SYS_SBRK leaves: the old break and a grown heap, or -1 and a refusal or
    a growth that was rolled back. *)
Definition sbrk_done (i o increment : Z) (k : kernel) (r : Z) (k' : kernel) : Prop :=
  exists L q, ph_rep (k_heap k) L /\ blocks_ok L (X ++ k_quarantine k ++ chunks_of (k_processes k)) /\
    aget (k_processes k) o = Some q /\
    (r = p_heap_break q /\ 0 <= increment /\ heap_grown L i o increment k k' \/
     r = MINUS_ONE /\ (heap_refused o increment k k' \/ heap_rolled_back L o increment k k')).

Lemma failed_processes L o increment (k k' : kernel) :
  heap_refused o increment k k' \/ heap_rolled_back L o increment k k' -> k_processes k' = k_processes k.
Proof. intros [[-> _]|(q&t&t'&_&_&_&E&_)]; done. Qed.

Lemma fresh_none L t o q first n (k k' : kernel) :
  ph_rep (k_heap k') L -> aget (k_page_tables k) o = Some t -> aget (k_processes k') o = Some q -> n = 0 ->
  k_page_tables k' = k_page_tables k -> k_mem k' = k_mem k -> fresh_pages L o first n k k'.
Proof.
  intros Hh Ht Hq -> Et Em. exists L, t, t, (fun _ => 0), q. rewrite Et, Em. split_and!; try done.
  - unfold aget in Ht. destruct (0 <=? o); [|done]. by rewrite list_insert_id.
  - intros g. by rewrite decide_False by lia.
  - intros; lia.
Qed.

Lemma grown_fresh k0 o p0 t0 L0 first n new L pa (k k' : kernel) brk :
  grown k0 o p0 t0 L0 first n new L pa k -> aget (k_page_tables k0) o = Some t0 ->
  aget (k_processes k') o = Some (set_p_heap_break brk (add_chunks new p0)) ->
  k_heap k' = k_heap k -> k_page_tables k' = k_page_tables k -> k_mem k' = k_mem k ->
  fresh_pages L0 o first n k0 k'.
Proof.
  intros [Gp Gr Gh Gb Go Gn [t [Gt1 Gt2]] Gpg Gd Got Gcn Gz Gm] Ht Hp Eh Et Em.
  exists L, t0, t, pa, (set_p_heap_break brk (add_chunks new p0)). rewrite Eh, Et, Em. split_and!; try done.
  intros g Hg. destruct (Gpg g Hg) as (Ha&q&m&Hq&HL&Hn&?&?&_). split_and!; [done|..].
  - exists q, m. split_and!; try done. cbn. set_solver.
  - intros b j. by apply Got.
  - intros a. by apply (Gz g).
  - intros g'. by apply Gd.
Qed.
(** A heap that has grown keeps the invariant. *)
Lemma grown_inv c D o q t L first n new L' pa (k k1 k' : kernel) brk :
  inv c D k -> aget (k_processes k) o = Some q -> owns q = true ->
  grown k o q t L first n new L' pa k1 -> p_heap_start q <= brk <= PROCESS_USER_BASE + PROCESS_USER_IMAGE_SIZE ->
  k_processes k' = <[Z.to_nat o := set_p_heap_break brk (add_chunks new q)]> (k_processes k) ->
  k_heap k' = k_heap k1 -> k_page_tables k' = k_page_tables k1 -> same_rest k1 k' -> inv c D k'.
Proof.
  intros Hk Ho Hown G Hbrk Ep Eh Et (Ec&En&Ett&El&Eq&Eca&Eu&Ea).
  destruct G as [Gp (Rc&Rn&Rtt&Rl&Rq&Rca&Ru&Ra) Gh Gb _ _ [t' [Gt1 _]] _ _ _ _ _ _].
  pose proof (inv_tables _ _ _ Hk) as [Hl1 Hl2].
  eapply (inv_heap c D o q (p_heap_start q) brk (p_heap_chunks q ++ new)); [exact Hk|exact Ho|..]; try congruence.
  - by apply andb_prop in Hown as [? _].
  - rewrite Ep. done.
  - rewrite Et, Gt1, length_insert. done.
  - intros _. destruct (proj1 (inv_space _ _ _ Hk) o q Ho Hown) as (_&_&Hb&Hs&_). unfold heap_ok. cbn. rewrite Hb.
    unfold PROCESS_USER_BASE in *. lia.
  - destruct (inv_mem _ _ _ Hk) as (a&Lh&La&Ea'&_&Hra&_&Hba). exists a, L', La. rewrite Eh, Ea, Ra, Eq, Rq, Ep.
    split_and!; try done.
    + unfold chunks_of in *. destruct (bind_upd _ o q (set_p_heap_break brk (add_chunks new q)) Ho
        (fun p => if owns p then p_heap_chunks p else [])) as (l1&l2&E1&E2).
      rewrite E2. rewrite E1, Hown in Gb. change (owns (set_p_heap_break brk (add_chunks new q))) with (owns q).
      rewrite Hown. cbn [p_heap_chunks add_chunks set_p_heap_break set_p_heap_chunks].
      eapply blocks_ok_Proper; [|exact Gb]. solve_Permutation.
    + unfold images_of in *. destruct (bind_upd _ o q (set_p_heap_break brk (add_chunks new q)) Ho
        (fun p => if owns p then [p_user_image_allocation p] else [])) as (l1&l2&E1&E2).
      rewrite E2. rewrite E1 in Hba. exact Hba.
Qed.

(** A failed growth keeps the invariant. *)
Lemma undone_inv c D o t L ope ms (k k' : kernel) :
  inv c D k -> undone k o t L ope ms k' -> blocks_ok L (X ++ k_quarantine k ++ chunks_of (k_processes k)) -> inv c D k'.
Proof.
  intros Hk (Ep&(Ec&En&Ett&El&Eq&Eca&Eu&Ea)&Hr&_&t'&Et&_) Hb. destruct Hk as [Ht Hs Hids Hm Hp Hw Hcan [Hl1 Hl2]].
  split; rewrite ?Ep, ?Ec, ?En, ?Ett, ?El, ?Eca; try done.
  - destruct Hm as (a&Lh&La&Ea'&_&Hra&_&Hba). exists a, L, La. by rewrite Ea, Eq.
  - rewrite Et, Eu, length_insert. done.
Qed.

(** A thread's copy of the break. *)
Lemma inv_thread_break c D i p s b (k : kernel) :
  inv c D k -> aget (k_processes k) i = Some p -> p_loaded p = true -> owns p = false ->
  inv c D (set_k_processes (<[Z.to_nat i := set_p_heap_break b (set_p_heap_start s p)]> (k_processes k)) k).
Proof.
  intros Hk Hi Hl Ho. pose proof (inv_tables _ _ _ Hk) as [Hl1 Hl2].
  eapply (inv_heap c D i p s b (p_heap_chunks p)); [exact Hk|exact Hi|done|done|done..| |].
  - congruence.
  - destruct (inv_mem _ _ _ Hk) as (a&Lh&La&Ea'&Hrh&Hra&Hbh&Hba). exists a, Lh, La. cbn [k_processes k_heap k_aux k_quarantine set_k_processes].
    unfold chunks_of, images_of in *.
    destruct (bind_upd _ i p (set_p_heap_break b (set_p_heap_start s p)) Hi (fun p => if owns p then p_heap_chunks p else [])) as (l1&l2&E1&E2).
    destruct (bind_upd _ i p (set_p_heap_break b (set_p_heap_start s p)) Hi (fun p => if owns p then [p_user_image_allocation p] else [])) as (m1&m2&F1&F2).
    rewrite E2, F2. rewrite E1 in Hbh. rewrite F1 in Hba. done.
Qed.

(** The thread that asked keeps a copy of the break of its address space. *)
Definition note_break (i o brk : Z) (q : process) : K () :=
  if bool_decide (i = o) then mret ()
  else on_proc i (fun p => set_p_heap_break brk (set_p_heap_start (p_heap_start q) p)).

Lemma wp_note_break c D i o p q0 q brk (k : kernel) (Q : () -> kernel -> Prop) :
  inv c D k -> aget (k_processes k) i = Some p -> p_loaded p = true -> (i = o \/ owns p = false) ->
  aget (k_processes k) o = Some q0 ->
  (forall k', inv c D k' -> k_cpus k' = k_cpus k -> k_next_pid k' = k_next_pid k -> k_heap k' = k_heap k ->
     k_page_tables k' = k_page_tables k -> k_mem k' = k_mem k ->
     (forall j, (j = o \/ j <> i) -> aget (k_processes k') j = aget (k_processes k) j) -> Q tt k') ->
  wp (note_break i o brk q) Q k.
Proof.
  intros Hk Hi Hl Hcase Ho HQ. unfold note_break. case_bool_decide as Hio; [wstep; by apply HQ|].
  destruct Hcase as [|Hth]; [done|]. eapply wp_on_proc; [exact Hi|]. apply HQ; try done.
  - by apply inv_thread_break.
  - intros j Hj. cbn [k_processes set_k_processes]. apply aget_upd_ne with (p := p); [done|]. destruct Hj; congruence.
Qed.

(** The growth loop with its rollback, for at least one page. *)
Lemma wp_sbrk_extend c D i o p q L t brk (k : kernel) (Q : Z -> kernel -> Prop) :
  let ope := (p_heap_break q + 4095) / 4096 * 4096 in let ms := (brk + 4095) / 4096 * 4096 - ope in
  inv c D k -> aget (k_processes k) i = Some p -> p_loaded p = true -> (i = o \/ owns p = false) ->
  aget (k_processes k) o = Some q -> owns q = true -> aget (k_page_tables k) o = Some t ->
  ph_rep (k_heap k) L -> blocks_ok L (X ++ k_quarantine k ++ chunks_of (k_processes k)) ->
  p_heap_break q < brk <= PROCESS_USER_BASE + PROCESS_USER_IMAGE_SIZE ->
  (forall r k', inv c D k' -> k_cpus k' = k_cpus k -> k_next_pid k' = k_next_pid k ->
     (r = p_heap_break q /\ heap_grown L i o (brk - p_heap_break q) k k' \/
      r = MINUS_ONE /\ heap_rolled_back L o (brk - p_heap_break q) k k') -> Q r k') ->
  wp (ok ← sbrk_grow (Z.to_nat (ms / 0x1000)) o ope ms 0;
      if negb ok then _ ← sbrk_rollback o ope ms (length (p_heap_chunks q)); mret MINUS_ONE
      else _ ← on_proc o (set_p_heap_break brk); _ ← note_break i o brk q; mret (p_heap_break q)) Q k.
Proof.
  intros ope ms Hk Hi Hl Hcase Ho Hown Ht HL Hb Hbrk HQ.
  destruct (proj1 (inv_space _ _ _ Hk) o q Ho Hown) as (Hin&_&Hbase&Hst&Hbr).
  assert (Hx : PROCESS_USER_BASE <= ope /\ ope mod 4096 = 0 /\ ms mod 4096 = 0 /\ 0 <= ms /\
    (ope - PROCESS_USER_BASE) / 4096 = page_above (p_heap_break q) /\
    ms / 4096 = page_above brk - page_above (p_heap_break q) /\ page_above brk <= 65536).
  { unfold ms, ope, page_above, PROCESS_USER_IMAGE_SIZE, PROCESS_USER_REGION_BYTES, PROCESS_USER_STACK_SIZE, PROCESS_USER_BASE in *.
    clear -Hst Hbr Hbrk. split_and!; dlia. }
  clearbody ope. clearbody ms. destruct Hx as (Hx1&Hx2&Hx3&Hx4&Hx5&Hx6&Hx7). pose proof (aget_Some_lt _ _ _ Ho) as Hlt.
  apply wp_bind. eapply (wp_sbrk_grow k o q t L ope ms); [done..|lia|by apply grown_start|lia|done|dlia| |].
  - intros new L' pa k1 G. cbn [negb]. edestruct grown_get as (Hp1&_); [exact Ho|exact Ht|exact G|].
    apply wp_bind. eapply wp_on_proc; [exact Hp1|]. set (k2 := set_k_processes _ k1).
    assert (Hk2 : inv c D k2).
    { eapply (grown_inv c D o q t L _ _ new L' pa k k1 k2 brk); [exact Hk|exact Ho|done|exact G|lia| |done..].
      cbn [k2 k_processes set_k_processes]. rewrite (gr_procs _ _ _ _ _ _ _ _ _ _ _ G). apply list_insert_insert_eq. }
    destruct (gr_rest _ _ _ _ _ _ _ _ _ _ _ G) as (Rc&Rn&_).
    assert (Ep2 : k_processes k2 = <[Z.to_nat o := set_p_heap_break brk (add_chunks new q)]> (k_processes k)).
    { cbn [k2 k_processes set_k_processes]. rewrite (gr_procs _ _ _ _ _ _ _ _ _ _ _ G). apply list_insert_insert_eq. }
    assert (Hpi : exists pi, aget (k_processes k2) i = Some pi /\ p_loaded pi = true /\ (i = o \/ owns pi = false)).
    { rewrite Ep2, aget_insert by lia. case_decide as E; [|by exists p].
      assert (i = o) as -> by (pose proof (aget_Some_lt _ _ _ Hi); lia). assert (p = q) as -> by congruence.
      eexists. split_and!; [done|done|by left]. }
    destruct Hpi as (pi&Hpi&Hli&Hci).
    apply wp_bind. eapply wp_note_break; [exact Hk2|exact Hpi|done|done|rewrite Ep2; by apply aget_insert_eq|].
    intros k3 Hk3 Ec3 En3 Eh3 Et3 Em3 Ep3. wstep. apply HQ; [done|by rewrite Ec3|by rewrite En3|]. left. split; [done|].
    exists q, (set_p_heap_break brk (add_chunks new q)).
    assert (Hq' : aget (k_processes k3) o = Some (set_p_heap_break brk (add_chunks new q))).
    { rewrite Ep3 by by left. rewrite Ep2. by apply aget_insert_eq. }
    split_and!; try done; cbn [p_heap_break set_p_heap_break]; [lia|lia|..].
    + intros j Hj1 Hj2. rewrite Ep3 by by right. rewrite Ep2. apply aget_upd_ne with (p := q); done.
    + rewrite <- Hx6, <- Hx5. by eapply grown_fresh.
  - intros n new L' pa k1 Hn G Hex. cbn [negb]. apply wp_bind. eapply (wp_sbrk_rollback k o q t L ope ms); [done..|lia|exact G|done|].
    intros k2 Hu. wstep. pose proof Hu as (Ep&(Ec&En&_)&Hr&Hmem&t2&Et2&Hg2). apply HQ; [by eapply undone_inv|done|done|right].
    split; [done|]. exists q, t, t2. rewrite Hx5, Hx6 in Hg2. replace (p_heap_break q + (brk - p_heap_break q)) with brk by lia.
    cbv zeta. split_and!; try done; [lia|lia|]. exists L', (Z.of_nat (length new)). pose proof (gr_count _ _ _ _ _ _ _ _ _ _ _ G).
    split_and!; [by eapply gr_old|lia|lia|by rewrite Nat2Z.inj_add in Hex].
Qed.

(** SYS_SBRK for a process that has not exited. *)
Lemma wp_process_sbrk c D i p increment (k : kernel) (Q : Z -> kernel -> Prop) :
  inv c D k -> aget (k_processes k) i = Some p -> p_loaded p = true -> p_state p <> EXITED -> increment < 2 ^ 63 ->
  (forall o r k', space_owner i o k -> sbrk_done i o increment k r k' -> inv c D k' -> k_cpus k' = k_cpus k ->
     k_next_pid k' = k_next_pid k -> Q r k') ->
  wp (process_sbrk i increment) Q k.
Proof.
  intros Hk Hi Hl Hs Hinc HQ. unfold process_sbrk. apply wp_bind. eapply wp_owner; [exact Hk|exact Hi|done|done|].
  intros o Hsp. pose proof Hsp as (p'&q&Hi'&Ho&Hown&Hcase). replace p' with p in * by congruence. clear Hi' p'.
  apply wp_bind. eapply wp_proc; [exact Ho|].
  destruct (proj1 (inv_space _ _ _ Hk) o q Ho Hown) as (Hin&_&Hbase&Hst&Hbr).
  destruct (inv_mem _ _ _ Hk) as (a&L&La&_&Hrh&_&Hbh&_). destruct (inv_tables _ _ _ Hk) as [Hl1 _].
  pose proof (aget_Some_lt _ _ _ Ho) as Holt. rewrite (proj1 (inv_table _ _ _ Hk)) in Holt.
  destruct (aget_lt (k_page_tables k) o) as [t Ht]; [lia|].
  assert (Hno : increment < 0 \/ PROCESS_USER_BASE + PROCESS_USER_IMAGE_SIZE < p_heap_break q + increment -> Q MINUS_ONE k).
  { intros Hwhy. apply (HQ o); try done. exists L, q. split_and!; try done. right. split; [done|]. left. split; [done|by exists q]. }
  unfold PROCESS_USER_IMAGE_SIZE, PROCESS_USER_REGION_BYTES, PROCESS_USER_STACK_SIZE, PROCESS_USER_BASE in *.
  unfold in_space in Hin. rewrite Hin, Hbase.
  destruct (Z.eqb_spec (o + 1) 0); [lia|]. destruct (Z.eqb_spec (p_heap_start q) 0); [lia|]. cbn [orb].
  destruct (Z.eqb_spec increment 0) as [->|Hne].
  { wstep. apply (HQ o); try done. exists L, q. split_and!; try done. left. split_and!; try done. exists q, q.
    split_and!; try done; [lia|].
    eapply fresh_none; try done. lia. }
  destruct (Z.ltb_spec increment 0); [wstep; apply Hno; by left|]. unfold MINUS_ONE at 1.
  destruct (Z.ltb_spec (2 ^ 64 - 1 - p_heap_break q) increment); [wstep; apply Hno; right; lia|].
  rewrite (u64_id (p_heap_break q + increment)), (u64_id (0x20000000 + _)) by lia.
  destruct (_ || _) eqn:E; [wstep; apply Hno; right; apply orb_true_iff in E as [E|E]; bools; lia|]. bools.
  rewrite !align_page by lia. set (brk := p_heap_break q + increment) in *.
  assert (Hcase' : i = o \/ owns p = false).
  { destruct Hcase as [[_ ->]|(Hth&_)]; [by left|right]. unfold owns. by rewrite Hth, andb_false_r. }
  destruct (Z.eqb_spec ((brk + 4095) / 4096 * 4096) ((p_heap_break q + 4095) / 4096 * 4096)) as [Ee|Ee].
  - apply wp_bind. eapply wp_on_proc; [exact Ho|]. wstep. set (k2 := set_k_processes _ k).
    assert (G := grown_start k o q t L 0 Ho Ht Hrh Hbh).
    assert (Eq : k_processes k2 = <[Z.to_nat o := set_p_heap_break brk (add_chunks [] q)]> (k_processes k)).
    { cbn. unfold add_chunks. rewrite app_nil_r. by destruct q. }
    assert (Hk2 : inv c D k2).
    { eapply (grown_inv c D o q t L _ _ [] L _ k k k2 brk); try done.
      unfold PROCESS_USER_IMAGE_SIZE, PROCESS_USER_REGION_BYTES, PROCESS_USER_STACK_SIZE, PROCESS_USER_BASE. lia. }
    apply (HQ o); try done. exists L, q. split_and!; try done. left. split_and!; try done.
    exists q, (set_p_heap_break brk q). assert (Hq' : aget (k_processes k2) o = Some (set_p_heap_break brk q)).
    { by apply aget_upd_eq with (p := q). }
    split_and!; try done.
    + intros j Hj1 _. by apply aget_upd_ne with (p := q).
    + eapply fresh_none; try done. cbn [p_heap_break set_p_heap_break]. unfold page_above, PROCESS_USER_BASE.
      clear -Ee. dlia.
  - rewrite u64_id by (clear -H2 H3 Hst; dlia).
    eapply (wp_sbrk_extend c D i o p q L t brk); try done.
    { unfold brk, PROCESS_USER_IMAGE_SIZE, PROCESS_USER_REGION_BYTES, PROCESS_USER_STACK_SIZE, PROCESS_USER_BASE in *. lia. }
    intros r k' Hk' Ec En Hr. apply (HQ o); try done. exists L, q. split_and!; try done.
    replace (brk - p_heap_break q) with increment in Hr by (unfold brk; lia). destruct Hr as [[? ?]|[? ?]]; [by left|right]. split; [done|by right].
Qed.


End Sbrk.
End ProcSbrk.
