(* ===== verification/ProcMachine.v ===== *)
(** * ProcMachine: the process subsystem as a transition system

    Every entry into the kernel runs under the big kernel lock, so the steps of
    the system are whole entries: a dispatch by an idle CPU, a system call, a
    timer tick or a fault of a running process with the way back to the
    scheduler, a call parked inside the kernel, input that arrives at a terminal, and
    what the main loop asks for.  Every system call number is a step: calls that are
    not about processes run with an arbitrary [answer], a change of the caller's own
    registers, descriptors and inert fields.  [enabled] says when a step is orderly;
    the lemmas show that orderly steps are defined and keep the invariant of
    ProcSched from boot on. *)

From Stdlib Require Import ZArith Lia Bool ZifyBool.
From stdpp Require Import base numbers option list list_numbers gmap sets.
From S2P Require Import Prelude StateM ProcState Elf Process ProcSched ProcSteps ProcMem ProcSbrk.

Open Scope Z_scope.

Module ProcMachine.
Import ProcState Elf Process ProcSched ProcSteps ProcMem ProcSbrk.

Section Machine.
Context {H I : Type} {HP : PageHeap H} {IP : PageHeap I}.
Abbreviation kernel := (kernel H I).
Abbreviation K := (ST kernel).
Abbreviation inv := (@ProcSched.inv H I HP IP []).
Abbreviation handled := (@ProcSteps.handled H I HP IP []).

(** ** Events *)

(** What a system call that is not about processes does to its caller: the
    registers it returns with, the descriptor table and the other fields it
    leaves, and the terminals after it has taken input from them. *)
Record answer := Answer {
  an_frame : interrupt_frame;
  an_table : list fd_entry;
  an_edit : process -> process;
  an_ttys : gmap Z tty_input }.

Definition other_call (a : answer) (i : Z) (f : interrupt_frame) : K outcome :=
  _ ← on_proc i (fun p => set_p_fd_table (an_table a) (an_edit a p));
  _ ← update (set_k_ttys (an_ttys a));
  mret (Resume (an_frame a)).

(** What a system call meets outside process.c: the caller's memory, the files
    found by name, the free pty and the answer of the other components. *)
Record call_env := Env {
  u_peek : Z -> Z;
  u_lookup : list Z -> program;
  u_pty : Z;
  u_answer : answer }.

Inductive event :=
| Dispatch (c : Z)
| Syscall (c : Z) (frame : interrupt_frame) (u : call_env)
| Timer (c : Z) (frame : interrupt_frame)
| ApTimer (c : Z) (frame : interrupt_frame)
| Fault (c : Z)
| Park (c rsp : Z)
| Kill (c pid : Z)
| Interrupt (c stdin_object : Z)
| Input (tty line_ready raw_length result : Z)
| Spawn (path : list Z) (prog : program) (ops : option ops_ref) (object uid gid : Z).

(** The way back to the scheduler when the process has given up the CPU. *)
Definition leave_if (c : Z) (b : bool) : K () := if b then _ ← run_slice_leave c; mret () else mret ().

Definition gave_up (o : outcome) : bool := match o with Deschedule => true | Resume _ => false end.

(** Input reaches a terminal and its waiting reader is woken. *)
Definition tty_input_arrives (tty line_ready raw_length result : Z) : K () :=
  ts ← reads k_ttys;
  t ← must (ts !! tty);
  _ ← update (set_k_ttys (<[tty := TtyInput line_ready raw_length (t_waiter_pid t)]> ts));
  process_wake_tty_reader tty result.

Definition exec (e : event) : K () :=
  match e with
  | Dispatch c => _ ← run_slice_enter c; mret ()
  | Syscall c f u =>
      o ← syscall_handle_interrupt c f (u_peek u) (u_lookup u) (u_pty u) (other_call (u_answer u));
      leave_if c (gave_up o)
  | Timer c f => b ← timer_handle_interrupt c f; leave_if c b
  | ApTimer c f => b ← process_ap_timer c f; leave_if c b
  | Fault c => b ← process_handle_user_fault c; leave_if c b
  | Park c rsp => b ← process_yield_blocking c rsp; leave_if c b
  | Kill c pid => _ ← process_kill c pid; mret ()
  | Interrupt c obj => _ ← process_interrupt_terminal c obj; mret ()
  | Input tty l n r => tty_input_arrives tty l n r
  | Spawn path prog o obj u g => _ ← process_spawn_path path prog o obj u g; mret ()
  end.

(** ** When events are orderly

    Ending a process that runs on another CPU breaks the scheduler (the timer
    of that CPU makes the freed slot runnable again), and so does a
    SYS_PTY_INTERRUPT that ends its own caller.  The conditions below leave out
    these runs, executables whose headers lie about their sizes and identifiers
    that have wrapped around; nothing else. *)

(** Nothing that would end with the processes of pid [pid] runs on another CPU. *)
Definition pid_quiet (c pid : Z) (k : kernel) : Prop :=
  forall i p, aget (k_processes k) i = Some p -> p_loaded p = true -> p_pid p = pid -> quiet c i (k_processes k).

(** [p] waits in the foreground of the terminal [obj]. *)
Definition in_front (obj : Z) (p : process) : Prop :=
  p_loaded p = true /\ p_is_thread p = false /\ p_state p = WAITING /\
  exists e, aget (p_fd_table p) 0 = Some e /\ e_used e = true /\ e_object e = obj.

(** What Ctrl-C on the terminal [obj] ends does not run on another CPU. *)
Definition interrupt_quiet (c obj : Z) (k : kernel) : Prop :=
  forall i p, aget (k_processes k) i = Some p -> in_front obj p -> pid_quiet c (p_wait_target_pid p) k.

(** A Ctrl-C that a terminal program sends is not for itself. *)
Definition pty_interrupt_ok (c i : Z) (f : interrupt_frame) (k : kernel) : Prop :=
  forall p e, aget (k_processes k) i = Some p -> aget (p_fd_table p) (sgn32 (f_rdi f)) = Some e ->
    interrupt_quiet c (e_object e) k /\
    forall r k', process_interrupt_terminal c (e_object e) k = Some (r, k') -> running c i k'.

(** Process identifiers have not wrapped around. *)
Definition pids_left (k : kernel) : Prop := 0 <= k_next_pid k /\ k_next_pid k + 1 < 2 ^ 32.

(** The other components leave the process table as the scheduler needs it: the
    identity, the CPU and the state of the caller stay, and its descriptors
    name terminals that exist. *)
Definition answer_ok (a : answer) (k : kernel) : Prop :=
  neutral (an_edit a) /\ length (an_table a) = 16%nat /\ Forall (tty_entry_ok (k_ttys k)) (an_table a) /\
  dom (an_ttys a) = dom (k_ttys k).

(** What a system call may need; every call number is covered. *)
Definition call_enabled (c i : Z) (f : interrupt_frame) (u : call_env) (k : kernel) : Prop :=
  (f_rax f = SYS_EXIT -> quiet c i (k_processes k)) /\
  (f_rax f = SYS_PROCESS_KILL -> pid_quiet c (u32 (f_rdi f)) k) /\
  (f_rax f = SYS_PTY_INTERRUPT -> pty_interrupt_ok c i f k) /\
  (f_rax f = SYS_PROCESS_SPAWN \/ f_rax f = SYS_SPAWN_PTY -> pids_left k /\ forall name, program_safe (u_lookup u name)) /\
  (f_rax f = SYS_THREAD_CREATE -> pids_left k) /\ f_rdi f < 2 ^ 64 /\ answer_ok (u_answer u) k.

Definition from_user (f : interrupt_frame) : bool := Z.land (f_cs f) 3 =? 3.

(** When an event can happen: a CPU has at most one process, traps come from
    the process it runs, and the main loop runs on an idle CPU.  A timer tick
    that interrupts kernel code needs only the CPU. *)
Definition enabled (e : event) (k : kernel) : Prop :=
  match e with
  | Dispatch c => idle c k
  | Syscall c f u => exists i, running c i k /\ call_enabled c i f u k
  | Timer c f | ApTimer c f => if from_user f then exists i, running c i k else is_Some (aget (k_cpus k) c)
  | Fault c => exists i, running c i k /\ quiet c i (k_processes k)
  | Park c rsp => exists i, running c i k
  | Kill c pid => idle c k /\ pid_quiet c pid k
  | Interrupt c obj => idle c k /\ interrupt_quiet c obj k
  | Input tty _ _ _ => is_Some (k_ttys k !! tty)
  | Spawn path prog o obj u g => pids_left k /\ program_safe prog /\ fds_ok (k_ttys k) None o obj
  end.

(** ** Single steps *)

Lemma wp_leave_if c i (b : bool) (k : kernel) (Q : () -> kernel -> Prop) :
  (if b then inv c ∅ k /\ trapped c i k else inv (-1) ∅ k) ->
  (forall k', inv (-1) ∅ k' -> Q tt k') -> wp (leave_if c b) Q k.
Proof.
  intros Hb HQ. unfold leave_if. destruct b; [|wstep; by apply HQ]. destruct Hb as [Hk Ht].
  apply wp_bind. eapply wp_run_slice_leave; [exact Hk|exact Ht|]. intros r k' Hk' _. wstep. by apply HQ.
Qed.

(** A call that returned or gave up the CPU, with the way back. *)
Lemma wp_handled c i (m : K outcome) (k : kernel) :
  wp m (handled c i) k -> wp (o ← m; leave_if c (gave_up o)) (fun _ => inv (-1) ∅) k.
Proof.
  intros Hm. apply wp_bind. eapply wp_mono; [exact Hm|]. intros o k' Ho. eapply (wp_leave_if c i); [|done].
  destruct o; cbn [gave_up]; [by destruct Ho|done].
Qed.

Lemma wp_trap c i (m : K bool) (k : kernel) :
  wp m (fun b k' => b = true /\ inv c ∅ k' /\ trapped c i k') k ->
  wp (b ← m; leave_if c b) (fun _ => inv (-1) ∅) k.
Proof.
  intros Hm. apply wp_bind. eapply wp_mono; [exact Hm|]. intros b k' (->&Hk). by eapply (wp_leave_if c i).
Qed.

Lemma wp_kernel_tick c f (k : kernel) :
  inv (-1) ∅ k -> is_Some (aget (k_cpus k) c) -> Z.land (f_cs f) 3 <> 3 ->
  wp (b ← timer_handle_interrupt c f; leave_if c b) (fun _ => inv (-1) ∅) k.
Proof.
  intros Hk [x Hx] Hf. unfold timer_handle_interrupt. apply wp_bind. eapply wp_timer_head; [exact Hk|exact Hx|].
  intros k' x' Hk' Ec _ _. pose proof (aget_Some_lt _ _ _ Hx) as Hlt.
  eapply (wp_preempt_kernel c f x'); [rewrite Ec; by apply aget_insert_eq|done|].
  by eapply (wp_leave_if c 0 false).
Qed.

Lemma wp_kernel_ap_tick c f (k : kernel) :
  inv (-1) ∅ k -> is_Some (aget (k_cpus k) c) -> Z.land (f_cs f) 3 <> 3 ->
  wp (b ← process_ap_timer c f; leave_if c b) (fun _ => inv (-1) ∅) k.
Proof.
  intros Hk [x Hx] Hf. unfold process_ap_timer. apply wp_bind. apply wp_bind. eapply wp_on_cpu; [exact Hx|].
  eapply wp_preempt_kernel; [cbn [k_cpus set_k_cpus]; apply aget_insert_eq; by eapply aget_Some_lt|done|].
  eapply (wp_leave_if c 0 false); [|done]. eapply (inv_cpu (-1) ∅ c x); [done|done|by left|done].
Qed.
(** ** Ending other processes *)

Lemma idle_evolve c (k k' : kernel) : cpus_evolve (k_cpus k) (k_cpus k') -> idle c k -> idle c k'.
Proof. intros [_ He] (x&Hx&Hs). destruct (He c x Hx) as (y&Hy&Es&_). exists y. split; [done|congruence]. Qed.

Lemma pid_quiet_evolve c pid D D' (k k' : kernel) :
  inv c D k -> inv c D' k' -> evolve (k_processes k) (k_processes k') -> pid_quiet c pid k -> pid_quiet c pid k'.
Proof.
  intros Hk Hk' He Hq i p Hi Hl Hp. pose proof (inv_len _ _ _ Hk) as L1. pose proof (inv_len _ _ _ Hk') as L2.
  pose proof (aget_Some_lt _ _ _ Hi) as Hlt. destruct (aget_lt (k_processes k) i) as [q Hq']; [lia|].
  destruct (He i q Hq') as (p'&Hp'&_&[Hu|(Hs&_)]); [congruence|]. replace p' with p in * by congruence.
  destruct Hs as (E1&_&E2&_). eapply (quiet_evolve c i (k_processes k)); [congruence|exact He|]. apply (Hq i q); congruence.
Qed.

Lemma interrupt_quiet_evolve c obj D D' (k k' : kernel) :
  inv c D k -> inv c D' k' -> evolve (k_processes k) (k_processes k') -> interrupt_quiet c obj k -> interrupt_quiet c obj k'.
Proof.
  intros Hk Hk' He Hq i p Hi (Hl&Ht&Hs&e&Hfd&Hu&Ho). pose proof (inv_len _ _ _ Hk) as L1. pose proof (inv_len _ _ _ Hk') as L2.
  pose proof (aget_Some_lt _ _ _ Hi) as Hlt. destruct (aget_lt (k_processes k) i) as [q Hq']; [lia|].
  destruct (He i q Hq') as (p'&Hp'&_&[Hu'|(Hid&_&Hst&Hw)]); [congruence|]. replace p' with p in * by congruence.
  rewrite (Hw Hs). eapply pid_quiet_evolve; [exact Hk|exact Hk'|done|]. apply (Hq i q); [done|].
  destruct Hid as (_&_&E1&E2&_&_&_&_&E3&_). unfold in_front. rewrite <- E1, <- E2, <- E3. split_and!; [done|done| |by exists e].
  destruct Hst as [Hst|[Hst|[_ Hst]]]; congruence.
Qed.

Lemma wp_main_kill c pid (k : kernel) (Q : Z -> kernel -> Prop) :
  inv (-1) ∅ k -> idle c k -> pid_quiet c pid k ->
  (forall r k', inv (-1) ∅ k' -> idle c k' -> evolve (k_processes k) (k_processes k') -> Q r k') ->
  wp (process_kill c pid) Q k.
Proof.
  intros Hk Hid Hq HQ. pose proof Hid as (x&Hx&_). eapply wp_process_kill; [by apply inv_enter|exact Hx|exact Hq|].
  intros r k' Hk' He Hce _. pose proof (idle_evolve _ _ _ Hce Hid) as Hid'. apply HQ; [by eapply inv_idle|done|done].
Qed.

(** Ctrl-C, from the main loop or from a terminal program. *)
Lemma wp_interrupt_terminal c obj x (k : kernel) (Q : Z -> kernel -> Prop) :
  inv c ∅ k -> aget (k_cpus k) c = Some x -> interrupt_quiet c obj k ->
  (forall r k', inv c ∅ k' -> cpus_evolve (k_cpus k) (k_cpus k') -> (forall m, cur_ok c m k -> cur_ok c m k') -> Q r k') ->
  wp (process_interrupt_terminal c obj) Q k.
Proof.
  intros Hk Hx Hq HQ. unfold process_interrupt_terminal. destruct (obj =? 0); [wstep; by apply HQ|].
  assert (Hsl := slots_range).
  lazymatch goal with |- wp (?go slots 0) ?Q k => cut (forall n, wp (go slots n) Q k); [auto|] end.
  revert k x Hk Hx Hq HQ Hsl. induction slots as [|i js IH]; intros k x Hk Hx Hq HQ Hsl n; [wstep; by apply HQ|].
  apply Forall_cons in Hsl as [Hi Hsl]. destruct (aget_lt (k_processes k) i) as [p Hp]; [rewrite (inv_len _ _ _ Hk); lia|].
  apply wp_bind. eapply wp_proc; [exact Hp|]. destruct (negb (p_loaded p) || p_is_thread p) eqn:E1; [by eapply IH|].
  destruct (negb (state_is (p_state p) WAITING) || _) eqn:E2; [by eapply IH|].
  destruct (aget_lt (p_fd_table p) 0) as [e He]; [rewrite (proj1 (proj2 (inv_table _ _ _ Hk) i p Hp)); lia|].
  apply wp_bind. eapply wp_must; [exact He|]. destruct (negb (e_used e) || _) eqn:E3; [by eapply IH|]. bools.
  apply wp_bind. eapply wp_process_kill; [done|exact Hx| |].
  { apply (Hq i p Hp). split_and!; [done|done| |by exists e].
    match goal with Hb : state_is _ _ = true |- _ => exact (proj1 (bool_decide_eq_true _) Hb) end. }
  intros r k' Hk' Hev Hce Hcur. destruct (proj2 Hce c x Hx) as (x'&Hx'&_). eapply IH; [done|exact Hx'| | |done].
  - by eapply (interrupt_quiet_evolve c obj ∅ ∅ k).
  - intros r' k2 Hk2 Hce2 Hcur2. apply HQ; [done|by etrans|auto].
Qed.

(** ** System calls *)

Lemma wp_sys_spawn c i f peek lookup (k : kernel) :
  inv (-1) ∅ k -> running c i k -> pids_left k -> (forall name, program_safe (lookup name)) ->
  wp (sys_process_spawn i f peek lookup) (handled c i) k.
Proof.
  intros Hk Hr [Hn0 Hn] Hsafe. destruct (running_proc c i k Hk Hr) as (p&Hp&Hl&Hs&_). unfold sys_process_spawn.
  destruct (process_copy_user_string 32 peek (f_rdi f)) as [name [|]]; cbn [negb]; [|by apply wp_resume].
  apply wp_bind. eapply wp_spawn_named; [exact Hk|exact Hp|done|congruence|apply Hsafe|done|done|].
  intros pid k1 Hk1 Ec1. do 2 wstep. apply wp_bind.
  assert (Hx : forall k2, inv (-1) ∅ k2 -> k_cpus k2 = k_cpus k -> wp (ret_rax pid f) (handled c i) k2).
  { intros k2 Hk2 Ec2. apply wp_resume; [done|]. by apply (running_frame c i k). }
  assert (Hy : forall k2, inv (-1) ∅ k2 -> k_cpus k2 = k_cpus k ->
    wp (_ ← (if (0 <? pid) && (PROCESS_USER_BASE <=? f_rsi f) && (f_rsi f <? PROCESS_USER_BASE + PROCESS_USER_REGION_BYTES)
         then
           ch ← process_find_by_pid pid;
           match ch with
           | None => mret ()
           | Some j => on_proc j (set_p_spawn_arg (fst (process_copy_user_string 512 peek (f_rsi f))))
           end
         else mret ()); ret_rax pid f) (handled c i) k2).
  { intros k2 Hk2 Ec2. apply wp_bind. destruct (_ && _); [|wstep; by apply Hx]. apply wp_bind.
    apply wp_find_by_pid; [|intros _; wstep; by apply Hx]. intros j q Hq _ _ _. eapply wp_on_proc; [exact Hq|]. apply Hx; [|done].
    eapply (inv_neutral (-1) ∅ j q (set_p_spawn_arg (fst (process_copy_user_string 512 peek (f_rsi f))))); [done|done|done]. }
  destruct ((pid <? 0) && k_desktop k1).
  - unfold call. wstep. apply Hy; [by apply inv_calls|done].
  - wstep. by apply Hy.
Qed.

Lemma wp_sys_thread_create c i f (k : kernel) :
  inv (-1) ∅ k -> running c i k -> pids_left k -> wp (sys_thread_create i f) (handled c i) k.
Proof.
  intros Hk Hr [Hn0 Hn]. destruct (running_proc c i k Hk Hr) as (p&Hp&Hl&Hs&_). unfold sys_thread_create. apply wp_bind.
  eapply wp_create_thread; [exact Hk|exact Hp|done|congruence|done|done|]. intros r k1 Hk1 Ec1. do 2 wstep. apply wp_bind.
  destruct (_ && _); [unfold call|]; wstep; (apply wp_resume; [|by apply (running_frame c i k)]); [by apply inv_calls|done].
Qed.

Lemma wp_sys_sbrk c i f (k : kernel) :
  inv (-1) ∅ k -> running c i k -> f_rdi f < 2 ^ 64 ->
  wp (b ← process_sbrk i (sgn64 (f_rdi f)); ret_rax b f) (handled c i) k.
Proof.
  intros Hk Hr Hf. destruct (running_proc c i k Hk Hr) as (p&Hp&Hl&Hs&_). apply wp_bind.
  eapply wp_process_sbrk; [exact Hk|exact Hp|done|congruence|unfold sgn64; destruct (_ <? _) eqn:E; bools; lia|].
  intros o r k' _ _ Hk' Ec _. apply wp_resume; [done|]. by apply (running_frame c i k).
Qed.

Lemma wp_sys_windowmgr c i f (k : kernel) :
  inv (-1) ∅ k -> running c i k -> wp (sys_windowmgr_start i f) (handled c i) k.
Proof.
  intros Hk Hr. destruct (running_proc c i k Hk Hr) as (p&Hp&Hl&Hs&_). unfold sys_windowmgr_start.
  destruct (aget_lt (k_processes k) 0) as [q Hq]; [rewrite (inv_len _ _ _ Hk); lia|].
  apply wp_bind. eapply wp_proc; [exact Hp|]. do 4 wstep. apply wp_bind. eapply wp_on_proc; [exact Hq|].
  apply wp_resume; [|by apply (running_frame c i k)].
  assert (Hk1 : inv (-1) ∅ (set_k_desktop_uid (p_uid p) (set_k_wm_requested 1 k))) by (destruct Hk; by split).
  eapply (inv_neutral (-1) ∅ 0 q (fun q => set_p_gid (p_uid p) (set_p_uid (p_uid p) q))) in Hk1; [exact Hk1|done|done].
Qed.

Lemma wp_sys_setuid c i f (k : kernel) :
  inv (-1) ∅ k -> running c i k -> wp (sys_setuid i f) (handled c i) k.
Proof.
  intros Hk Hr. destruct (running_proc c i k Hk Hr) as (p&Hp&Hl&Hs&_). unfold sys_setuid.
  apply wp_bind. eapply wp_proc; [exact Hp|]. destruct (_ && _); [by apply wp_resume|].
  apply wp_bind. eapply wp_on_proc; [exact Hp|]. apply wp_resume; [|by apply (running_frame c i k)].
  eapply (inv_neutral (-1) ∅ i p (set_p_uid (u32 (f_rdi f)))); done.
Qed.

(** New descriptors and a new parent for slot [i]. *)
Lemma inv_relink c D i p t v (k : kernel) :
  aget (k_processes k) i = Some p -> length t = 16%nat -> Forall (tty_entry_ok (k_ttys k)) t ->
  (v = p_parent_pid p \/ forall j q, aget (k_processes k) j = Some q -> p_loaded q = true -> p_pid q = v -> p_state q <> WAITING) ->
  inv c D k -> inv c D (with_proc i (set_p_parent_pid v (set_p_fd_table t p)) k).
Proof.
  intros Hi Hl Ht Hv [Htab Hs Hids Hm Hp Hw Hc Hlen].
  set (p' := set_p_parent_pid v (set_p_fd_table t p)).
  split; cbn [with_proc k_processes set_k_processes k_ttys k_cpus k_next_pid k_heap k_aux k_quarantine k_layout
              k_canaries k_page_tables k_upper]; try done.
  - by apply table_upd with (p := p).
  - apply sched_upd with (p := p); [done|done|..|done];
    destruct Hs as (_&_&_&Hd&He); [by apply (Hd i p)|by apply (He i p)].
  - apply ids_upd with (p := p); [done|exact (proj1 Hids i p Hi)| |done].
    intros Hlp j q Hj Hq Hlq E. apply Hj. by eapply (proj2 Hids); [exact Hq|exact Hi|..].
  - unfold mem_ok, chunks_of, images_of in *.
    destruct (bind_upd _ i p p' Hi (fun p => if owns p then p_heap_chunks p else [])) as (a1&b1&E1&E1').
    destruct (bind_upd _ i p p' Hi (fun p => if owns p then [p_user_image_allocation p] else [])) as (a2&b2&E2&E2').
    rewrite E1', E2'. rewrite E1, E2 in Hm. exact Hm.
  - apply space_upd with (p := p) (D := D); [done|exact (proj1 Hp i p Hi)|..|by right|done].
    + intros H1 H2 H3. destruct (proj2 Hp i p Hi H1 H2 H3) as (o&q&Ho&Hq&Hr). exists o, q. split; [|done].
      intros ->. unfold owns in Hq. assert (q = p) as -> by congruence. cbn in H2. by rewrite H2, andb_false_r in Hq.
    + intros u q Hn Hq Hlq Htq Hsq Hin Ho. split_and!; try done.
      destruct (proj2 Hp u q) as (o&r&Hr&_&Hin'&_&_&Hst'); [done..|]. unfold in_space in Hin, Hin'.
      assert (o = i) as -> by lia. assert (r = p) as -> by congruence. done.
  - apply wake_upd with (p := p) (D := D); [done|..|done|done].
    + intros Hlp j z _ Hz. by apply (Hw i j p z).
    + intros Hz j q _ Hq Hlq (Hqs&Hqp&Hqt). destruct Hv as [->|Hv]; [by apply (Hw j i q p)|].
      by destruct (Hv j q Hq Hlq (eq_sym Hqp)).
Qed.

Lemma set_parent_same p t : set_p_parent_pid (p_parent_pid p) (set_p_fd_table t p) = set_p_fd_table t p.
Proof. by destruct p. Qed.
Lemma set_table_same p v : set_p_parent_pid v (set_p_fd_table (p_fd_table p) p) = set_p_parent_pid v p.
Proof. by destruct p. Qed.

Lemma inv_fd_table c D i p t (k : kernel) :
  aget (k_processes k) i = Some p -> length t = 16%nat -> Forall (tty_entry_ok (k_ttys k)) t ->
  inv c D k -> inv c D (with_proc i (set_p_fd_table t p) k).
Proof. intros Hi Hl Ht Hk. rewrite <- set_parent_same. apply inv_relink; try done. by left. Qed.

Lemma fd_alloc_ok ttys table o obj n :
  o <> TTY_FD_OPS -> length table = 16%nat -> Forall (tty_entry_ok ttys) table ->
  length (snd (fd_alloc table o obj n)) = 16%nat /\ Forall (tty_entry_ok ttys) (snd (fd_alloc table o obj n)).
Proof.
  intros Ho Hl Ht. unfold fd_alloc. destruct (list_find _ _) as [[m e]|]; cbn [snd]; [|done]. split; [by rewrite length_insert|].
  apply Forall_insert; [done|]. intros [= E]. done.
Qed.

Lemma wp_sys_pty_open c i f pty (k : kernel) :
  inv (-1) ∅ k -> running c i k -> wp (sys_pty_open i f pty) (handled c i) k.
Proof.
  intros Hk Hr. destruct (running_proc c i k Hk Hr) as (p&Hp&Hl&Hs&_). unfold sys_pty_open.
  destruct (pty =? 0); [by apply wp_resume|]. apply wp_bind. eapply wp_proc; [exact Hp|].
  destruct (proj2 (inv_table _ _ _ Hk) i p Hp) as [Hlen Hf].
  pose proof (fd_alloc_ok (k_ttys k) (p_fd_table p) PTY_MASTER_FD_OPS pty 3 ltac:(done) Hlen Hf) as [Hlen' Hf'].
  destruct (fd_alloc _ _ _ _) as [fd table]. cbn [snd] in *. apply wp_bind. eapply wp_on_proc; [exact Hp|].
  pose proof (inv_fd_table (-1) ∅ i p table k Hp Hlen' Hf' Hk) as Hk1.
  apply wp_bind. destruct (fd <? 0); [unfold call|]; wstep; (apply wp_resume; [|by apply (running_frame c i k)]); [by apply inv_calls|done].
Qed.

Lemma wp_pty_of_master i p fd (k : kernel) (Q : option Z -> kernel -> Prop) :
  aget (k_processes k) i = Some p -> length (p_fd_table p) = 16%nat -> Q None k ->
  (forall e, aget (p_fd_table p) fd = Some e -> Q (Some (e_object e)) k) -> wp (pty_of_master i fd) Q k.
Proof.
  intros Hp Hlen HN HS. unfold pty_of_master. destruct (_ || _) eqn:E; [by wstep|]. bools. unfold FD_TABLE_CAPACITY in *.
  destruct (aget_lt (p_fd_table p) fd) as [e He]; [lia|]. apply wp_bind. eapply wp_proc; [exact Hp|].
  apply wp_bind. eapply wp_must; [exact He|]. destruct (_ || _); wstep; [done|by apply HS].
Qed.

Lemma wp_sys_spawn_pty c i f peek lookup (k : kernel) :
  inv (-1) ∅ k -> running c i k -> pids_left k -> (forall name, program_safe (lookup name)) ->
  wp (sys_spawn_pty i f peek lookup) (handled c i) k.
Proof.
  intros Hk Hr [Hn0 Hn] Hsafe. destruct (running_proc c i k Hk Hr) as (p&Hp&Hl&Hs&_). unfold sys_spawn_pty.
  destruct (process_copy_user_string 64 peek (f_rdi f)) as [name [|]]; cbn [negb]; [|by apply wp_resume].
  apply wp_bind. eapply wp_pty_of_master; [exact Hp|by eapply (inv_table _ _ _ Hk)|by apply wp_resume|]. intros e _.
  apply wp_bind. eapply wp_proc; [exact Hp|]. apply wp_bind. eapply wp_spawn_path; [exact Hk|apply Hsafe|done|done|done|].
  intros pid k1 Hk1 Ec1. pose proof (running_frame c i k k1 Ec1 Hr) as Hr1. apply wp_bind.
  destruct (0 <? pid); [|wstep; by apply wp_resume]. apply wp_bind. apply wp_find_by_pid; [|intros _; wstep; by apply wp_resume].
  intros j z Hj Hlz _ _. destruct (running_proc c i k1 Hk1 Hr1) as (q&Hq&Hlq&Hsq&_). apply wp_bind. eapply wp_proc; [exact Hq|].
  eapply wp_on_proc; [exact Hj|]. apply wp_resume; [|by apply (running_frame c i k1)]. rewrite <- set_table_same.
  destruct (proj2 (inv_table _ _ _ Hk1) j z Hj) as [Hlen Hf]. eapply (inv_relink (-1) ∅ j z); [done|done|done| |done].
  right. intros u r Hu Hlr E. assert (u = i) as -> by by eapply (proj2 (inv_ids _ _ _ Hk1)); [exact Hu|exact Hq|..]. congruence.
Qed.

Lemma wp_sys_pty_interrupt c i f (k : kernel) :
  inv (-1) ∅ k -> running c i k -> pty_interrupt_ok c i f k -> wp (sys_pty_interrupt c i f) (handled c i) k.
Proof.
  intros Hk Hr Hok. destruct (running_proc c i k Hk Hr) as (p&Hp&Hl&Hs&_). unfold sys_pty_interrupt.
  apply wp_bind. eapply wp_pty_of_master; [exact Hp|by eapply (inv_table _ _ _ Hk)|by apply wp_resume|]. intros e He.
  destruct (Hok p e Hp He) as [Hq Hstay]. pose proof Hr as (x&Hx&_). apply wp_bind.
  destruct (wp_interrupt_terminal c (e_object e) x k (fun _ k' => inv c ∅ k' /\ cur_ok c i k')) as (r&k'&E&Hk'&Hcur);
    [by apply inv_enter|done|done| |].
  { intros r k' Hk' _ Hc. split; [done|]. exact (Hc i (cur_ok_running c i k Hk Hr)). }
  exists r, k'. split; [done|]. pose proof (Hstay r k' E) as Hr'. apply wp_resume; [|done].
  destruct (handled_cur_ok c i k' Hk' Hcur) as (y&Hy&[(_&?&_)|(Hn&_)]); [done|].
  destruct Hr' as (y'&Hy'&_&?). congruence.
Qed.

Lemma wp_other_call c i f a (k : kernel) :
  inv (-1) ∅ k -> running c i k -> answer_ok a k -> wp (other_call a i f) (handled c i) k.
Proof.
  intros Hk Hr (Hn&Hlen&Hf&Hd). destruct (running_proc c i k Hk Hr) as (p&Hp&Hl&Hs&_). unfold other_call.
  apply wp_bind. eapply wp_on_proc; [exact Hp|]. apply wp_bind. wstep. apply wp_resume; [|by apply (running_frame c i k)].
  eapply (inv_frame (-1) ∅ (with_proc i (set_p_fd_table (an_table a) (an_edit a p)) k)); try done.
  rewrite <- (with_proc_twice i (an_edit a p)).
  apply inv_fd_table; [by eapply aget_upd_eq|done|done|]. by apply inv_neutral.
Qed.

(** The whole dispatcher. *)
Lemma wp_syscall c i f u (k : kernel) :
  inv (-1) ∅ k -> running c i k -> call_enabled c i f u k ->
  wp (syscall_handle_interrupt c f (u_peek u) (u_lookup u) (u_pty u) (other_call (u_answer u))) (handled c i) k.
Proof.
  intros Hk Hr (Hexit&Hkill&Hpty&Hspawn&Hthr&Hrdi&Hans). destruct (running_proc c i k Hk Hr) as (p&Hp&Hl&Hs&_).
  pose proof Hr as (x&Hx&_&Hcur). unfold syscall_handle_interrupt. apply wp_bind. eapply wp_this_cpu; [exact Hx|].
  rewrite Hcur. apply wp_bind. eapply wp_proc; [exact Hp|]. rewrite Hs. change (state_is RUNNING EXITED) with false. cbn iota.
  destruct (Z.eqb_spec (f_rax f) SYS_YIELD) as [E|_]; [by apply wp_sys_yield|].
  destruct (Z.eqb_spec (f_rax f) SYS_EXIT) as [E|_]; [apply wp_sys_exit; auto|].
  destruct (Z.eqb_spec (f_rax f) SYS_PROCESS_SPAWN) as [E|_]; [destruct (Hspawn (or_introl E)); by apply wp_sys_spawn|].
  destruct (Z.eqb_spec (f_rax f) SYS_PTY_OPEN) as [E|_]; [by apply wp_sys_pty_open|].
  destruct (Z.eqb_spec (f_rax f) SYS_SPAWN_PTY) as [E|_]; [destruct (Hspawn (or_intror E)); by apply wp_sys_spawn_pty|].
  destruct (Z.eqb_spec (f_rax f) SYS_PTY_INTERRUPT) as [E|_]; [apply wp_sys_pty_interrupt; auto|].
  destruct (Z.eqb_spec (f_rax f) SYS_THREAD_CREATE) as [E|_]; [apply wp_sys_thread_create; auto|].
  destruct (Z.eqb_spec (f_rax f) SYS_READ) as [E|_].
  { apply wp_bind. eapply wp_mono; [exact (wp_tty_read c i f k Hk Hr)|]. intros [|] k' Hq; [by wstep|]. subst k'. by apply wp_other_call. }
  destruct (Z.eqb_spec (f_rax f) SYS_WAITPID) as [E|_]; [by apply wp_sys_waitpid|].
  destruct (Z.eqb_spec (f_rax f) SYS_TIMER_SLEEP) as [E|_].
  { unfold sys_timer_sleep. destruct (_ =? 0); [by apply wp_resume|by apply wp_sleep]. }
  destruct (Z.eqb_spec (f_rax f) SYS_SLEEP_MS) as [E|_]; [unfold sys_sleep_ms; do 2 wstep; by apply wp_sleep|].
  destruct (Z.eqb_spec (f_rax f) SYS_WINDOWMGR_START) as [E|_]; [by apply wp_sys_windowmgr|].
  destruct (Z.eqb_spec (f_rax f) SYS_PROCESS_KILL) as [E|_]; [apply wp_sys_process_kill; [done|done|by apply Hkill]|].
  destruct (Z.eqb_spec (f_rax f) SYS_SBRK) as [E|_]; [by apply wp_sys_sbrk|].
  do 4 (case_match; [by apply wp_resume|]).
  destruct (Z.eqb_spec (f_rax f) SYS_SETUID) as [E|_]; [by apply wp_sys_setuid|by apply wp_other_call].
Qed.

(** ** Input *)

Lemma wp_wake_tty_reader tty result (k : kernel) (Q : () -> kernel -> Prop) :
  inv (-1) ∅ k -> is_Some (k_ttys k !! tty) -> (forall k', inv (-1) ∅ k' -> Q tt k') ->
  wp (process_wake_tty_reader tty result) Q k.
Proof.
  intros Hk [t Ht] HQ. unfold process_wake_tty_reader. destruct (tty =? 0); [wstep; by apply HQ|]. do 2 wstep.
  apply wp_bind. eapply wp_must; [exact Ht|]. destruct (_ =? 0); [wstep; by apply HQ|].
  assert (Hk1 : inv (-1) ∅ (set_k_ttys (<[tty := set_t_waiter_pid 0 t]> (k_ttys k)) k)).
  { eapply inv_frame; try done. cbn [k_ttys set_k_ttys]. rewrite dom_insert_L. apply elem_of_dom_2 in Ht. set_solver. }
  apply wp_bind. apply wp_find_by_pid; [|intros _; do 3 wstep; by apply HQ]. intros i p Hi Hl _ _. do 2 wstep.
  apply wp_bind. eapply wp_proc; [exact Hi|]. unfold state_is.
  destruct (bool_decide_reflect (p_state p = WAITING_IO)) as [Hs|]; cbn [negb]; [|wstep; by apply HQ].
  eapply wp_on_proc; [exact Hi|]. apply HQ. eapply (inv_become (-1) ∅ i p); [exact Hi| |exact Hk1].
  split; [done|]. split; [done|]. split; [|done]. right. split_and!; try done; [|congruence].
  destruct (inv_sched _ _ _ Hk) as (_&_&_&Hd&_). destruct (decide (p_running_on_cpu p = -1)); [by left|].
  destruct (Hd i p Hi); congruence.
Qed.

Lemma wp_tty_input tty l n r (k : kernel) (Q : () -> kernel -> Prop) :
  inv (-1) ∅ k -> is_Some (k_ttys k !! tty) -> (forall k', inv (-1) ∅ k' -> Q tt k') -> wp (tty_input_arrives tty l n r) Q k.
Proof.
  intros Hk [t Ht] HQ. unfold tty_input_arrives. do 2 wstep. apply wp_bind. eapply wp_must; [exact Ht|]. do 2 wstep.
  apply wp_wake_tty_reader; [|cbn [k_ttys set_k_ttys]; rewrite lookup_insert_eq; by eexists|done].
  eapply inv_frame; try done. cbn [k_ttys set_k_ttys]. rewrite dom_insert_L. apply elem_of_dom_2 in Ht. set_solver.
Qed.

(** Every step that can happen is defined and keeps the invariant. *)
Lemma wp_exec e (k : kernel) : inv (-1) ∅ k -> enabled e k -> wp (exec e) (fun _ => inv (-1) ∅) k.
Proof.
  intros Hk He. destruct e as [c|c f u|c f|c f|c|c rsp|c pid|c obj|tty l n r|path prog o obj u g]; cbn [exec enabled] in *.
  - apply wp_bind. eapply wp_run_slice_enter; [done|done|by wstep|]. intros; by wstep.
  - destruct He as (i&Hr&He). eapply wp_handled. by apply wp_syscall.
  - unfold from_user in He. destruct (Z.eqb_spec (Z.land (f_cs f) 3) 3); [|by apply wp_kernel_tick].
    destruct He as [i Hr]. eapply wp_trap. by apply wp_timer_user.
  - unfold from_user in He. destruct (Z.eqb_spec (Z.land (f_cs f) 3) 3); [|by apply wp_kernel_ap_tick].
    destruct He as [i Hr]. eapply wp_trap. by apply wp_ap_timer_user.
  - destruct He as (i&Hr&Hq). eapply wp_trap. by apply wp_fault.
  - destruct He as [i Hr]. eapply wp_trap. by apply wp_yield_blocking.
  - destruct He as [Hid Hq]. apply wp_bind. eapply wp_main_kill; [done|done|done|]. intros; by wstep.
  - destruct He as [Hid Hq]. apply wp_bind. pose proof Hid as (x&Hx&_). eapply wp_interrupt_terminal; [by apply inv_enter|exact Hx|done|].
    intros r k' Hk' Hce _. wstep. eapply inv_idle; [done|by eapply idle_evolve].
  - by apply wp_tty_input.
  - destruct He as ([Hn0 Hn]&Hsafe&Hf). apply wp_bind. eapply wp_spawn_path; [done..|]. intros; by wstep.
Qed.

(** ** From boot on *)

(** The kernel before process_init: static data is zero and the heaps are up. *)
Definition boot (k : kernel) : Prop :=
  length (k_processes k) = 48%nat /\ Forall (fun p => p_fd_table p = replicate 16 empty_entry) (k_processes k) /\
  Forall (fun x => c_slice x = None /\ c_sched_cursor x = 0) (k_cpus k) /\ k_quarantine k = [] /\
  length (k_page_tables k) = 48%nat /\ length (k_upper k) = 48%nat /\
  exists a L La, k_aux k = Some a /\ ph_rep (k_heap k) L /\ ph_rep a La.

Definition fresh (p : process) : Prop :=
  p_loaded p = false /\ p_state p = EMPTY /\ p_pid p = 0 /\ p_is_thread p = false /\ p_user_image_allocation p = 0 /\
  p_heap_chunks p = [] /\ p_running_on_cpu p = -1.

Lemma wp_init_slots l js : forall (k : kernel) (dn : list Z) (Q : () -> kernel -> Prop),
  length (k_processes k) = 48%nat -> Forall (fun i => 0 <= i < 48) js ->
  (forall j p, aget (k_processes k) j = Some p -> p_fd_table p = replicate 16 empty_entry /\ (j ∈ dn -> fresh p)) ->
  (forall ps', length ps' = 48%nat ->
     (forall j p, aget ps' j = Some p -> p_fd_table p = replicate 16 empty_entry /\ (j ∈ dn \/ j ∈ js -> fresh p)) ->
     Q tt (set_k_processes ps' k)) ->
  wp (each (fun i => on_proc i (process_init_slot l i)) js) Q k.
Proof.
  induction js as [|i js IH]; intros k dn Q Hlen Hjs Hk HQ; cbn [each].
  - wstep. specialize (HQ (k_processes k) Hlen). replace (set_k_processes (k_processes k) k) with k in HQ by by destruct k.
    apply HQ. intros j p Hj. destruct (Hk j p Hj) as [? Hf]. split; [done|]. intros [?|Hin]; [auto|set_solver].
  - apply Forall_cons in Hjs as [Hi Hjs]. destruct (aget_lt (k_processes k) i) as [p Hp]; [lia|].
    apply wp_bind. eapply wp_on_proc; [exact Hp|]. apply (IH _ (i :: dn)); cbn [k_processes set_k_processes].
    + by rewrite length_insert.
    + done.
    + intros j q [[-> ->]|[Hn Hj]]%(aget_upd _ _ _ _ Hp).
      * split; [exact (proj1 (Hk i p Hp))|done].
      * destruct (Hk j q Hj) as [? Hf]. split; [done|]. intros [?|?]%elem_of_cons; [done|auto].
    + intros ps' Hl' Hps'. specialize (HQ ps' Hl'). apply HQ. intros j q Hj. destruct (Hps' j q Hj) as [? Hf].
      split; [done|]. rewrite !elem_of_cons in *. naive_solver.
Qed.

Lemma fresh_nothing {A} (f : process -> list A) ps : Forall fresh ps -> ps ≫= (fun p => if owns p then f p else []) = [].
Proof.
  induction 1 as [|p ps (Hl&_) _ IH]; [done|]. rewrite bind_cons, IH. unfold owns. by rewrite Hl.
Qed.

(** A table of empty slots satisfies the invariant. *)
Lemma inv_fresh (k : kernel) :
  length (k_processes k) = 48%nat ->
  (forall j p, aget (k_processes k) j = Some p -> p_fd_table p = replicate 16 empty_entry /\ fresh p) ->
  Forall (fun x => c_slice x = None) (k_cpus k) -> k_quarantine k = [] -> k_canaries k = replicate 48 KSTACK_CANARY ->
  length (k_page_tables k) = 48%nat -> length (k_upper k) = 48%nat ->
  (exists a L La, k_aux k = Some a /\ ph_rep (k_heap k) L /\ ph_rep a La) -> inv (-1) ∅ k.
Proof.
  intros Hl Hf Hc Hq Hcan Hl1 Hl2 (a&L&La&Ea&Hr&Hra).
  assert (Hall : Forall fresh (k_processes k)).
  { apply Forall_lookup. intros j p Hj. apply (Hf (Z.of_nat j)). unfold aget. rewrite Nat2Z.id. by destruct (0 <=? Z.of_nat j) eqn:E; bools; [|lia]. }
  assert (Hno : forall d x i, aget (k_cpus k) d = Some x -> c_slice x = Some i -> False).
  { intros d x i Hx Hs. unfold aget in Hx. destruct (0 <=? d); [|done]. rewrite Forall_lookup in Hc. by rewrite (Hc _ _ Hx) in Hs. }
  split; try done.
  - split; [done|]. intros i p Hi. destruct (Hf i p Hi) as [-> _]. split; [done|]. by apply Forall_replicate.
  - split_and!.
    + intros d x i Hx Hs. by destruct (Hno d x i).
    + intros d x i Hx _. right. destruct (c_slice x) as [j|] eqn:E; [by destruct (Hno d x j)|done].
    + intros i p Hi. by destruct (proj2 (Hf i p Hi)) as (_&_&_&_&_&_&->).
    + intros i p Hi. by destruct (proj2 (Hf i p Hi)) as (_&_&_&_&_&_&->).
    + intros i p Hi. by destruct (proj2 (Hf i p Hi)) as (_&->&_).
  - split.
    + intros i p Hi. destruct (proj2 (Hf i p Hi)) as (->&->&->&->&->&->&_). done.
    + intros i j p q Hi _ Hp. by destruct (proj2 (Hf i p Hi)) as (Hn&_); rewrite Hn in Hp.
  - exists a, L, La. unfold chunks_of, images_of. rewrite Hq, !fresh_nothing by done. split_and!; try done; split; by constructor.
  - split; intros i p Hi; destruct (proj2 (Hf i p Hi)) as (Hn&_); unfold owns; by rewrite Hn.
  - intros i j q z Hi _ Hq'. by destruct (proj2 (Hf i q Hi)) as (Hn&_); rewrite Hn in Hq'.
Qed.

Lemma wp_process_init c (k : kernel) :
  boot k -> is_Some (aget (k_cpus k) c) -> wp (process_init c) (fun _ => inv (-1) ∅) k.
Proof.
  intros (Hl&Hfd&Hc&Hq&Hl1&Hl2&Hm) [x Hx]. unfold process_init. apply wp_bind. eapply wp_on_cpu; [exact Hx|]. do 6 wstep. wstep.
  eapply (wp_init_slots _ slots _ []); [done|apply slots_range| |].
  { intros j p Hj. cbn [k_processes set_k_wm_requested set_k_next_pid set_k_cpus] in Hj. split; [|set_solver].
    unfold aget in Hj. destruct (0 <=? j); [|done]. rewrite Forall_lookup in Hfd. by eapply Hfd. }
  intros ps' Hps Hf. wstep. apply inv_fresh; try done; cbn [k_processes k_cpus set_k_processes set_k_canaries set_k_wm_requested set_k_next_pid set_k_cpus].
  - intros j p Hj. destruct (Hf j p Hj) as [? Hfr]. split; [done|]. apply Hfr. right. apply elem_of_seqZ.
    apply aget_Some_lt in Hj. unfold PROCESS_MAX_COUNT. lia.
  - apply Forall_insert; [eapply Forall_impl; [exact Hc|by intros ? [??]]|]. unfold aget in Hx. destruct (0 <=? c); [|done]. rewrite Forall_lookup in Hc. exact (proj1 (Hc _ _ Hx)).
Qed.

(** States the system can be in. *)
Inductive reachable : kernel -> Prop :=
| reach_boot c k k' : boot k -> is_Some (aget (k_cpus k) c) -> process_init c k = Some (tt, k') -> reachable k'
| reach_step e k k' : reachable k -> enabled e k -> exec e k = Some (tt, k') -> reachable k'.

Lemma reachable_inv k : reachable k -> inv (-1) ∅ k.
Proof.
  induction 1 as [c k k' Hb Hc E|e k k' _ IH He E].
  - exact (wp_run _ _ _ _ _ (wp_process_init c k Hb Hc) E).
  - exact (wp_run _ _ _ _ _ (wp_exec e k IH He) E).
Qed.

End Machine.
End ProcMachine.
