(* ===== verification/ProcFair.v ===== *)
(** * ProcFair: no runnable process is starved (kernel/src/process.c)

    Only a dispatch moves the round-robin cursor of a CPU: a small frame calculus
    ([leaves]) shows that every other operation leaves all cursors alone.  Each
    dispatch that passes over a runnable slot brings the cursor closer to it, so
    among 48 dispatches of a CPU one picks the slot. *)

From Stdlib Require Import ZArith Lia Bool ZifyBool.
From stdpp Require Import base numbers option list list_numbers gmap sets.
From S2P Require Import Prelude StateM ProcState Elf Process ProcSched ProcSteps ProcMem ProcSbrk ProcMachine.

Open Scope Z_scope.

Module ProcFair.
Import ProcState Elf Process ProcSched ProcSteps ProcMem ProcSbrk ProcMachine.

Create HintDb leaves.

(** ** The frame calculus *)

Section Keeps.
Context {S B : Type} (f : S -> B).

(** Running [m] does not change what [f] observes. *)
Definition leaves {A} (m : ST S A) : Prop := forall s x s', m s = Some (x, s') -> f s' = f s.

Lemma leaves_ret {A} (x : A) : leaves (mret x).
Proof. by intros s y s' [= _ <-]. Qed.
Lemma leaves_bind {A C} (m : ST S A) (g : A -> ST S C) : leaves m -> (forall x, leaves (g x)) -> leaves (m ≫= g).
Proof.
  intros Hm Hg s y s'. unfold mbind, ST_bind. destruct (m s) as [[x s1]|] eqn:E; [|done]. intros E2.
  rewrite (Hg _ _ _ _ E2). by eapply Hm.
Qed.
Lemma leaves_reads {A} (g : S -> A) : leaves (reads g).
Proof. by intros s y s' [= _ <-]. Qed.
Lemma leaves_undefined {A} : leaves (@undefined S A).
Proof. by intros s y s'. Qed.
Lemma leaves_must {A} (o : option A) : leaves (must o).
Proof. intros s y s'. unfold must. destruct o; [|done]. by intros [= _ <-]. Qed.
Lemma leaves_update g : (forall s, f (g s) = f s) -> leaves (update g).
Proof. intros Hg s y s' [= _ <-]. apply Hg. Qed.
Lemma leaves_try g : (forall s s', g s = Some s' -> f s' = f s) -> leaves (try_update g).
Proof.
  intros Hg s y s'. unfold try_update. destruct (g s) as [s1|] eqn:E; [|done]. intros [= _ <-]. by apply Hg.
Qed.
Lemma leaves_each {J} (body : J -> ST S ()) xs : (forall x, leaves (body x)) -> leaves (each body xs).
Proof. intros Hb. induction xs; cbn [each]; [apply leaves_ret|]. by apply leaves_bind. Qed.
End Keeps.

(** Decompose a computation; basic actions and known operations close a goal. *)
Ltac keep :=
  repeat (cbv zeta; first
    [ solve [eauto 2 with leaves]
    | progress intros
    | apply leaves_ret | apply leaves_reads | apply leaves_undefined | apply leaves_must
    | apply leaves_bind | apply leaves_each
    | apply leaves_update; done
    | match goal with |- leaves _ (match ?x with _ => _ end) => destruct x end ]).

Section Cursors.
Context {H I : Type} {HP : PageHeap H} {IP : PageHeap I}.
Abbreviation kernel := (kernel H I).
Abbreviation K := (ST kernel).

(** The cursors of all CPUs. *)
Definition cursors (k : kernel) : list Z := c_sched_cursor <$> k_cpus k.
Abbreviation still := (leaves cursors).

Lemma still_proc i : still (proc i).
Proof. unfold proc. keep. Qed.
Lemma still_this_cpu c : still (this_cpu c).
Proof. unfold this_cpu. keep. Qed.
Lemma still_call o : still (call o).
Proof. unfold call. keep. Qed.
Lemma still_on_proc i f : still (on_proc i f).
Proof.
  apply leaves_try. intros k k'. destruct (aget _ i); [|done]. cbn [mbind option_bind]. destruct (aset _ i _); [|done].
  by intros [= <-].
Qed.
Lemma still_on_cpu c f : (forall x, c_sched_cursor (f x) = c_sched_cursor x) -> still (on_cpu c f).
Proof.
  intros Hf. apply leaves_try. intros k k'. destruct (aget _ c) as [x|] eqn:E; [|done]. cbn [mbind option_bind].
  rewrite aset_ok by by eapply aget_Some_lt. intros [= <-]. unfold cursors. cbn [k_cpus set_k_cpus].
  rewrite list_fmap_insert, list_insert_id; [done|]. rewrite list_lookup_fmap. unfold aget in E. destruct (0 <=? c); [|done].
  rewrite E. cbn. by rewrite Hf.
Qed.
Lemma still_set_pte u pg e : still (set_pte u pg e).
Proof.
  apply leaves_try. intros k k'. destruct (aget _ _); [|done]. cbn [mbind option_bind]. destruct (aset _ _ _); [|done].
  by intros [= <-].
Qed.
Lemma still_canaries i v : still (try_update (fun k => cs ← aset (k_canaries k) i v; Some (set_k_canaries cs k))).
Proof. apply leaves_try. intros k k'. destruct (aset _ _ _); [|done]. by intros [= <-]. Qed.
#[local] Hint Resolve still_proc still_this_cpu still_call still_on_proc still_set_pte still_canaries : leaves.
#[local] Hint Extern 1 (leaves _ (on_cpu _ _)) => apply still_on_cpu; done : leaves.

Lemma still_kmalloc n : still (kmalloc n).
Proof. unfold kmalloc. keep. Qed.
Lemma still_kfree p : still (kfree p).
Proof. unfold kfree. keep. Qed.
#[local] Hint Resolve still_kmalloc still_kfree : leaves.
Lemma still_image_alloc a n : still (image_alloc a n).
Proof. unfold image_alloc. keep. Qed.
Lemma still_image_free p : still (process_image_free p).
Proof. unfold process_image_free, image_free. keep. Qed.
#[local] Hint Resolve still_image_alloc still_image_free : leaves.
Lemma still_attempts n size skip : still (alloc_attempts n size skip).
Proof. induction n; cbn [alloc_attempts]; keep. Qed.
#[local] Hint Resolve still_attempts : leaves.
Lemma still_no_overlap size skip : still (process_kmalloc_no_image_overlap size skip).
Proof. unfold process_kmalloc_no_image_overlap. keep. Qed.
#[local] Hint Resolve still_no_overlap : leaves.
Lemma still_process_image_alloc size skip : still (process_image_alloc size skip).
Proof. unfold process_image_alloc. keep. Qed.
#[local] Hint Resolve still_process_image_alloc : leaves.
Lemma still_find_by_pid pid : still (process_find_by_pid pid).
Proof. unfold process_find_by_pid. keep. Qed.
Lemma still_free_chunks i : still (process_free_heap_chunks i).
Proof. unfold process_free_heap_chunks. keep. Qed.
#[local] Hint Resolve still_find_by_pid still_free_chunks : leaves.
Lemma still_reap i : still (process_reap i).
Proof. unfold process_reap. keep. Qed.
#[local] Hint Resolve still_reap : leaves.
Lemma still_wake_waiter i : still (process_wake_waiter i).
Proof. unfold process_wake_waiter. keep. Qed.
Lemma still_free_slot : still process_find_free_slot.
Proof. unfold process_find_free_slot. keep. Qed.
Lemma still_leave_current c r : still (leave_current c r).
Proof. unfold leave_current. keep. Qed.
#[local] Hint Resolve still_wake_waiter still_free_slot still_leave_current : leaves.
Lemma still_leave_if_current c i : still (leave_if_current c i).
Proof. unfold leave_if_current. keep. Qed.
Lemma still_clear_pending i : still (process_clear_pending_tty_wait i).
Proof. unfold process_clear_pending_tty_wait. keep. Qed.
Lemma still_close_windows pid : still (close_windows pid).
Proof. unfold close_windows. keep. Qed.
#[local] Hint Resolve still_leave_if_current still_clear_pending still_close_windows : leaves.
Lemma still_kill_threads c i : still (process_kill_sibling_threads c i).
Proof. unfold process_kill_sibling_threads, kill_thread. keep. Qed.
#[local] Hint Resolve still_kill_threads : leaves.
Lemma still_kill c pid : still (process_kill c pid).
Proof. unfold process_kill. keep. Qed.
#[local] Hint Resolve still_kill : leaves.
Lemma still_canary_check c : still (kstack_canary_check c).
Proof. unfold kstack_canary_check, canary_check_slot. keep. Qed.
#[local] Hint Resolve still_canary_check : leaves.

Lemma still_sbrk_batch fuel : forall o b, still (sbrk_batch fuel o b).
Proof. induction fuel; intros; cbn [sbrk_batch]; keep. Qed.
Lemma still_sbrk_map n : forall u b va pa, still (sbrk_map n u b va pa).
Proof. induction n; intros; cbn [sbrk_map]; keep. Qed.
#[local] Hint Resolve still_sbrk_batch still_sbrk_map : leaves.
Lemma still_sbrk_grow fuel : forall o e ms m, still (sbrk_grow fuel o e ms m).
Proof. induction fuel; intros; cbn [sbrk_grow]; unfold memory_zero; keep. Qed.
#[local] Hint Resolve still_sbrk_grow : leaves.
Lemma still_sbrk i n : still (process_sbrk i n).
Proof. unfold process_sbrk, process_address_space_owner, sbrk_rollback. keep. Qed.
#[local] Hint Resolve still_sbrk : leaves.

Lemma still_fresh_pid : still fresh_pid.
Proof. unfold fresh_pid. keep. Qed.
Lemma still_setup_context i : still (process_setup_context i).
Proof. unfold process_setup_context. keep. Qed.
Lemma still_copy_segments image b n pg cap : forall i, still (copy_segments image b i n pg cap).
Proof. induction n; intros; cbn [copy_segments]; unfold memory_copy; keep. Qed.
#[local] Hint Resolve still_fresh_pid still_setup_context still_copy_segments : leaves.
Lemma still_load_image s image inh o obj par name : still (process_load_image_slot s image inh o obj par name).
Proof.
  unfold process_load_image_slot, memory_zero. keep. apply leaves_try. intros k k'.
  intros (ts&_&(us&_&[= <-])%bind_Some)%bind_Some. done.
Qed.
#[local] Hint Resolve still_load_image : leaves.
Lemma still_load_program prog slot load :
  still slot -> (forall s image, still (load s image)) -> still (load_program prog slot load).
Proof. intros H1 H2. unfold load_program. keep. Qed.
Lemma still_spawn_path path prog o obj u g : still (process_spawn_path path prog o obj u g).
Proof. unfold process_spawn_path. apply leaves_bind; [apply still_load_program|]; keep. Qed.
Lemma still_spawn_named par name prog : still (process_spawn_named_from_parent par name prog).
Proof. unfold process_spawn_named_from_parent. keep. apply still_load_program; keep. Qed.
Lemma still_create_thread p e s a : still (process_create_thread p e s a).
Proof. unfold process_create_thread. keep. Qed.
#[local] Hint Resolve still_spawn_path still_spawn_named still_create_thread : leaves.

(** ** The entries into the kernel *)

Lemma still_leave c : still (run_slice_leave c).
Proof. unfold run_slice_leave. keep. Qed.
#[local] Hint Resolve still_leave : leaves.
Lemma still_leave_if c b : still (leave_if c b).
Proof. unfold leave_if. keep. Qed.
#[local] Hint Resolve still_leave_if : leaves.
Lemma still_preempt c f : still (preempt c f).
Proof. unfold preempt. keep. Qed.
#[local] Hint Resolve still_preempt : leaves.
Lemma still_timer c f : still (timer_handle_interrupt c f).
Proof. unfold timer_handle_interrupt, process_wake_ready. keep. Qed.
Lemma still_ap_timer c f : still (process_ap_timer c f).
Proof. unfold process_ap_timer. keep. Qed.
Lemma still_fault c : still (process_handle_user_fault c).
Proof. unfold process_handle_user_fault. keep. Qed.
Lemma still_yield_blocking c r : still (process_yield_blocking c r).
Proof. unfold process_yield_blocking. keep. Qed.
Lemma still_interrupt c obj : still (process_interrupt_terminal c obj).
Proof.
  unfold process_interrupt_terminal. destruct (obj =? 0); [keep|].
  lazymatch goal with |- leaves _ (?go slots 0) => cut (forall js n, still (go js n)); [auto|] end.
  induction js as [|i js IH]; intros n; cbn beta match fix; keep.
Qed.
#[local] Hint Resolve still_timer still_ap_timer still_fault still_yield_blocking still_interrupt : leaves.

Lemma still_other_call a i f : still (other_call a i f).
Proof. unfold other_call. keep. Qed.
Lemma still_wake_tty_reader tty r : still (process_wake_tty_reader tty r).
Proof. unfold process_wake_tty_reader. keep. Qed.
#[local] Hint Resolve still_other_call still_wake_tty_reader : leaves.
Lemma still_tty_input tty l n r : still (tty_input_arrives tty l n r).
Proof. unfold tty_input_arrives. keep. Qed.
#[local] Hint Resolve still_tty_input : leaves.
Lemma still_pty_open i f pty : still (sys_pty_open i f pty).
Proof. unfold sys_pty_open, ret_rax. keep. Qed.
Lemma still_pty_of_master i fd : still (pty_of_master i fd).
Proof. unfold pty_of_master. keep. Qed.
#[local] Hint Resolve still_pty_of_master : leaves.
Lemma still_spawn_pty i f peek lookup : still (sys_spawn_pty i f peek lookup).
Proof. unfold sys_spawn_pty, ret_rax. keep. Qed.
Lemma still_pty_interrupt c i f : still (sys_pty_interrupt c i f).
Proof. unfold sys_pty_interrupt, ret_rax. keep. Qed.
#[local] Hint Resolve still_pty_open still_spawn_pty still_pty_interrupt : leaves.

Lemma still_syscall c f peek lookup pty a : still (syscall_handle_interrupt c f peek lookup pty (other_call a)).
Proof.
  unfold syscall_handle_interrupt, sys_yield, sys_exit, sys_process_spawn, sys_thread_create, process_try_blocking_tty_read,
    sys_waitpid, process_find_exited_child, sys_timer_sleep, sys_sleep_ms, sleep_ticks, sys_windowmgr_start, sys_process_kill, sys_setuid, suspend, ret_rax.
  keep.
Qed.
#[local] Hint Resolve still_syscall : leaves.

(** Every step but a dispatch leaves all cursors alone. *)
Lemma still_exec e : (forall c, e <> Dispatch c) -> still (exec e).
Proof. intros He. destruct e; cbn [exec]; [by destruct (He c)|keep..]. Qed.
(** ** Dispatch *)

Lemma bind_split {A C} (m : K A) (g : A -> K C) k y k' :
  (m ≫= g) k = Some (y, k') -> exists x k1, m k = Some (x, k1) /\ g x k1 = Some (y, k').
Proof. unfold mbind, ST_bind. destruct (m k) as [[x k1]|]; [|done]. eauto. Qed.

Definition returns {A} (P : A -> Prop) (m : K A) : Prop := forall k x k', m k = Some (x, k') -> P x.

Lemma returns_bind {A C} (P : C -> Prop) (m : K A) (g : A -> K C) : (forall x, returns P (g x)) -> returns P (m ≫= g).
Proof. intros Hg k y k' (x&k1&_&E)%bind_split. by eapply Hg. Qed.
Lemma returns_ret {A} (P : A -> Prop) x : P x -> returns P (mret x).
Proof. by intros Hx k y k' [= <- _]. Qed.

(** A dispatch picks the first runnable slot from the cursor on and puts the
    cursor behind it. *)
Lemma dispatch_spec X c D x (k k' : kernel) r :
  @ProcSched.inv H I HP IP X (-1) D k -> aget (k_cpus k) c = Some x -> run_slice_enter c k = Some (r, k') ->
  (pick_from (k_processes k) (scan_order (c_sched_cursor x)) = Some None /\ r = None /\ cursors k' = cursors k) \/
  (exists i b, pick_from (k_processes k) (scan_order (c_sched_cursor x)) = Some (Some i) /\ r = Some (i, b) /\
     cursors k' = <[Z.to_nat c := (i + 1) mod 48]> (cursors k)).
Proof.
  intros Hk Hx E. unfold run_slice_enter in E. apply bind_split in E as ([]&k1&E1&E).
  pose proof (wp_run _ _ _ _ _ (wp_canary_check (-1) D c k (fun _ s => s = k) Hk eq_refl) E1) as ->. clear E1.
  apply bind_split in E as (r0&k2&E2&E). unfold process_pick_next_ready in E2.
  apply bind_split in E2 as (x'&k3&E3&E2). unfold this_cpu, mbind, ST_bind, reads, must in E3. rewrite Hx in E3.
  injection E3 as <- <-. apply bind_split in E2 as (ps&k3&[= <- <-]&E2). apply bind_split in E2 as (r1&k3&E3&E2).
  unfold must in E3. destruct (pick_from _ _) as [r2|]; [|done]. injection E3 as <- <-. destruct r2 as [i|].
  - right. apply bind_split in E2 as (u&k3&E3&E2). injection E2 as <- <-.
    assert (Hcur : cursors k3 = <[Z.to_nat c := (i + 1) mod 48]> (cursors k)).
    { unfold on_cpu, try_update in E3. rewrite Hx in E3. cbn [mbind option_bind] in E3.
      rewrite aset_ok in E3 by by eapply aget_Some_lt. injection E3 as <- <-. unfold cursors. cbn [k_cpus set_k_cpus].
      by rewrite list_fmap_insert. }
    assert (Hret : exists b, r = Some (i, b)).
    { revert E. set (m := mbind _ _). enough (Hm : returns (fun r => exists b, r = Some (i, b)) m) by (intros E; by eapply Hm).
      unfold m. repeat (apply returns_bind; intros). apply returns_ret. eauto. }
    destruct Hret as [b ->]. exists i, b. split_and!; [done|done|]. rewrite <- Hcur. revert E.
    set (m := mbind _ _). enough (Hm : still m) by (intros E; by eapply Hm). unfold m, paging_load_cr3. keep.
  - left. injection E2 as <- <-. by injection E as <- <-.
Qed.

(** ** Distances *)

(** How many slots the scan from [cursor] looks at before slot [i]. *)
Definition distance (cursor i : Z) : Z := (i - cursor) mod 48.

Lemma pick_before ps cursor i p n : forall a0,
  aget ps i = Some p -> runnable p = true -> 0 <= cursor < 48 -> 0 <= a0 -> a0 + Z.of_nat n <= 48 -> 0 <= i < 48 ->
  a0 <= distance cursor i < a0 + Z.of_nat n ->
  forall r, pick_from ps ((fun a => u32 (cursor + a) mod PROCESS_MAX_COUNT) <$> seqZ a0 (Z.of_nat n)) = Some r ->
  exists s, r = Some s /\ 0 <= s < 48 /\ (s = i \/ distance ((s + 1) mod 48) i < distance cursor i).
Proof.
  induction n as [|n IH]; intros a0 Hp Hr Hc Ha Hn Hi Hd r E; [lia|].
  rewrite Nat2Z.inj_succ, seqZ_cons in E by lia. cbn [fmap list_fmap pick_from] in E.
  rewrite Z.pred_succ in E. rewrite u32_id in E by lia.
  apply bind_Some in E as (q&Hq&E). unfold distance in *. change PROCESS_MAX_COUNT with 48 in *.
  destruct (decide (a0 = (i - cursor) mod 48)) as [Heq|Hne].
  - assert (Hai : (cursor + a0) mod 48 = i) by dlia. rewrite Hai in *. assert (q = p) as -> by congruence.
    rewrite Hr in E. injection E as <-. exists i. split_and!; [done|lia|lia|by left].
  - destruct (runnable q).
    + injection E as <-. eexists. split_and!; [done|dlia|dlia|right]. dlia.
    + rewrite <- Z.add_1_r in E. apply (IH (a0 + 1)) in E; try done; lia.
Qed.

Lemma pick_scan ps cursor i p r :
  aget ps i = Some p -> runnable p = true -> 0 <= cursor < 48 -> 0 <= i < 48 -> pick_from ps (scan_order cursor) = Some r ->
  exists s, r = Some s /\ 0 <= s < 48 /\ (s = i \/ distance ((s + 1) mod 48) i < distance cursor i).
Proof.
  intros Hp Hr Hc Hi E. apply (pick_before ps cursor i p 48 0); try done; unfold distance; dlia.
Qed.

(** ** Runs *)

(** A run with the state before each of its events. *)
Inductive run : kernel -> list (kernel * event) -> kernel -> Prop :=
| run_nil k : run k [] k
| run_cons k e k1 tr k' : enabled e k -> exec e k = Some (tt, k1) -> run k1 tr k' -> run k ((k, e) :: tr) k'.

Definition is_dispatch (c : Z) (e : event) : bool := match e with Dispatch d => d =? c | _ => false end.
Fixpoint dispatches (c : Z) (tr : list (kernel * event)) : Z :=
  match tr with [] => 0 | (_, e) :: tr' => (if is_dispatch c e then 1 else 0) + dispatches c tr' end.

Definition slot_runnable (i : Z) (k : kernel) : Prop :=
  exists p, aget (k_processes k) i = Some p /\ runnable p = true.

Abbreviation inv := (@ProcSched.inv H I HP IP []).

Lemma aget_cursors k c x : aget (k_cpus k) c = Some x -> cursors k !! Z.to_nat c = Some (c_sched_cursor x).
Proof. unfold aget, cursors. destruct (0 <=? c); [|done]. intros E. by rewrite list_lookup_fmap, E. Qed.

Lemma exec_dispatch c (k k' : kernel) : exec (Dispatch c) k = Some (tt, k') -> exists r, run_slice_enter c k = Some (r, k').
Proof. cbn [exec]. intros (r&k1&E&[= <-])%bind_split. by exists r. Qed.

(** Cursors stay in the table. *)
Lemma exec_cursors e (k k' : kernel) :
  inv (-1) ∅ k -> enabled e k -> Forall (fun v => 0 <= v < 48) (cursors k) -> exec e k = Some (tt, k') ->
  Forall (fun v => 0 <= v < 48) (cursors k').
Proof.
  intros Hk He Hc E. destruct (is_dispatch (match e with Dispatch d => d | _ => 0 end) e) eqn:Ed.
  - destruct e as [d| | | | | | | | | ]; try done. destruct He as (x&Hx&_). destruct (exec_dispatch _ _ _ E) as [r Er].
    destruct (dispatch_spec _ _ _ _ _ _ _ Hk Hx Er) as [(_&_&->)|(i&b&_&_&->)]; [done|].
    apply Forall_insert; [done|]. apply Z.mod_pos_bound. lia.
  - rewrite (still_exec e) with (s := k) (x := tt); [done| |done]. intros d ->. cbn in Ed. lia.
Qed.

Lemma reachable_cursors k : reachable k -> Forall (fun v => 0 <= v < 48) (cursors k).
Proof.
  induction 1 as [c k k' Hb [x Hx] E|e k k' Hr IH He E].
  - destruct Hb as (_&_&Hc&_). unfold process_init in E. apply bind_split in E as ([]&k1&E1&E).
    assert (Hst : cursors k' = cursors k1).
    { revert E. set (m := mbind _ _). enough (Hm : still m) by (intros E; by eapply Hm). unfold m. keep. }
    rewrite Hst. unfold on_cpu, try_update in E1. rewrite Hx in E1. cbn [mbind option_bind] in E1.
    rewrite aset_ok in E1 by by eapply aget_Some_lt. injection E1 as <-. unfold cursors. cbn [k_cpus set_k_cpus].
    rewrite list_fmap_insert. apply Forall_insert; [|cbn; lia]. apply Forall_fmap. eapply Forall_impl; [exact Hc|].
    intros y [_ Hy]. cbn. lia.
  - eapply exec_cursors; [by apply reachable_inv|done|done|done].
Qed.

(** A dispatch picks a runnable slot or comes closer to it. *)
Lemma dispatch_closer c i x r (k k' : kernel) :
  inv (-1) ∅ k -> aget (k_cpus k) c = Some x -> 0 <= c_sched_cursor x < 48 -> 0 <= i < 48 -> slot_runnable i k ->
  run_slice_enter c k = Some (r, k') ->
  (exists b, r = Some (i, b)) \/
  exists w, cursors k' !! Z.to_nat c = Some w /\ distance w i < distance (c_sched_cursor x) i.
Proof.
  intros Hk Hx Hc Hi (p&Hp&Hpr) Er. pose proof (dispatch_spec _ _ _ _ _ _ _ Hk Hx Er) as Hds.
  assert (Hpick : exists o, pick_from (k_processes k) (scan_order (c_sched_cursor x)) = Some o).
  { destruct Hds as [(->&_)|(j&b&->&_)]; eauto. }
  destruct Hpick as [o Ho]. destruct (pick_scan _ _ i p o Hp Hpr Hc Hi Ho) as (j&->&Hj&Hcase).
  destruct Hds as [(Hn&_)|(j'&b&Hj'&->&Ec)]; [congruence|]. assert (j' = j) as -> by congruence.
  destruct Hcase as [->|Hlt]; [left; by exists b|right]. exists ((j + 1) mod 48). split; [|done]. rewrite Ec.
  apply list_lookup_insert_eq. eapply lookup_lt_Some. by apply aget_cursors.
Qed.

(** A run in which CPU [c] dispatches more often than slot [i] is away from its
    cursor, and finds it runnable every time, picks it. *)
Lemma run_picks c i tr : forall k k' v,
  inv (-1) ∅ k -> Forall (fun v => 0 <= v < 48) (cursors k) -> cursors k !! Z.to_nat c = Some v -> 0 <= i < 48 -> 0 <= c ->
  run k tr k' -> distance v i < dispatches c tr -> (forall s, (s, Dispatch c) ∈ tr -> slot_runnable i s) ->
  exists s s' b, (s, Dispatch c) ∈ tr /\ run_slice_enter c s = Some (Some (i, b), s').
Proof.
  induction tr as [|[s0 e] tr IH]; intros k k' v Hk Hc Hv Hi Hc0 Hrun Hd Hrn.
  { cbn in Hd. unfold distance in Hd. pose proof (Z.mod_pos_bound (i - v) 48). lia. }
  inversion Hrun as [|? ? k1 ? ? He E Hrun']; subst. cbn [dispatches] in Hd.
  pose proof (wp_run _ _ _ _ _ (wp_exec e s0 Hk He) E) as Hk1. pose proof (exec_cursors e s0 k1 Hk He Hc E) as Hc1.
  assert (Hnext : forall w, cursors k1 !! Z.to_nat c = Some w -> distance w i < dispatches c tr ->
    exists s s' b, (s, Dispatch c) ∈ (s0, e) :: tr /\ run_slice_enter c s = Some (Some (i, b), s')).
  { intros w Hw Hdw. destruct (IH k1 k' w) as (s&s'&b&Hin&Hs); try done; [set_solver|]. exists s, s', b. set_solver. }
  assert (Hother : (forall d, e <> Dispatch d) -> exists s s' b, (s, Dispatch c) ∈ (s0, e) :: tr /\
    run_slice_enter c s = Some (Some (i, b), s')).
  { intros Hn. apply (Hnext v); [by rewrite (still_exec e Hn s0 tt k1 E)|].
    assert (is_dispatch c e = false) as Hf by (destruct e; [by destruct (Hn c0)|done..]). rewrite Hf in Hd. lia. }
  destruct e as [d| | | | | | | | | ]; try by apply Hother.
  destruct He as (x&Hx&_). destruct (exec_dispatch _ _ _ E) as [r Er]. pose proof (aget_cursors _ _ _ Hx) as Hcx.
  pose proof (aget_Some_lt _ _ _ Hx) as Hd0. cbn [is_dispatch] in Hd. destruct (Z.eqb_spec d c) as [->|Hne].
  - assert (c_sched_cursor x = v) by congruence. subst v. rewrite Forall_lookup in Hc.
    destruct (dispatch_closer c i x r s0 k1 Hk Hx (Hc _ _ Hv) Hi) as [[b ->]|(w&Hw&Hlt)]; [apply Hrn; set_solver|done|..].
    + exists s0, k1, b. split; [set_solver|done].
    + apply (Hnext w); [done|lia].
  - apply (Hnext v); [|lia].
    destruct (dispatch_spec _ _ _ _ _ _ _ Hk Hx Er) as [(_&_&->)|(j&b&_&_&->)]; [done|].
    rewrite list_lookup_insert_ne by lia. done.
Qed.

End Cursors.
End ProcFair.
