(* ===== verification/ProcHeaps.v ===== *)
(** * ProcHeaps: the kernel's allocators serve the process subsystem

    The process subsystem is verified against the interface [PageHeap].  Here the
    two allocators of kernel/src/alloc.c discharge it: the main heap behind
    its lock (kmalloc, kfree) and the image heap (image_alloc, image_free). *)

From Stdlib Require Import ZArith Lia Bool ZifyBool.
From stdpp Require Import base numbers option list list_numbers gmap sets fin_maps.
From S2P Require Import Prelude StateM KAlloc ProcState.

Open Scope Z_scope.

Module ProcHeaps.
Import KAlloc.

(** ** The live blocks of a tiled region *)

Definition blocks (base : Z) (bs : list tile) : gmap Z Z := list_to_map (payloads base bs).

Lemma payloads_nodup m stop p bs : seg m stop p bs -> NoDup (payloads p bs).*1.
Proof.
  revert p. induction bs as [|[sz fr] bs IH]; intros p; simpl; [by intros _; apply NoDup_nil|].
  intros (?&_&_&Hs). destruct fr; simpl; [by apply IH|]. apply NoDup_cons. split; [|by apply IH].
  intros ([q n]&Eq&Hin)%list_elem_of_fmap. simpl in Eq. subst q.
  destruct (payloads_range _ _ _ _ _ _ Hs Hin). unfold sizeof_header in *. lia.
Qed.

Lemma blocks_lookup m stop base bs q n :
  seg m stop base bs -> blocks base bs !! q = Some n <-> (q, n) ∈ payloads base bs.
Proof. intros Hs. symmetry. apply elem_of_list_to_map. by eapply payloads_nodup. Qed.

(** Carving a block out of a free tile adds one block, away from the others. *)
Lemma blocks_carve m m' base len pre sz post need :
  region_repr m base len (pre ++ (sz, true) :: post) ->
  region_repr m' base len (pre ++ carve_tile need sz ++ post) -> 0 <= need <= sz ->
  let p := base + span pre + sizeof_header in
  exists n, 0 < p /\ need <= n /\ p + n < 2 ^ 64 /\ blocks base (pre ++ (sz, true) :: post) !! p = None /\
    blocks base (pre ++ carve_tile need sz ++ post) = <[p := n]> (blocks base (pre ++ (sz, true) :: post)) /\
    forall q k, blocks base (pre ++ (sz, true) :: post) !! q = Some k -> p + n <= q \/ q + k <= p.
Proof.
  intros Hr Hr' Hneed p. destruct (carve_tile_payloads (base + span pre) need sz) as (n&En&Hn).
  pose proof Hr as (?&_&?&_&Hsp&Hseg). pose proof Hr' as (_&_&_&_&Hsp'&Hseg').
  pose proof (payloads_nodup _ _ _ _ Hseg') as Hnd.
  assert (E1 : payloads base (pre ++ (sz, true) :: post) =
    payloads base pre ++ payloads (base + span pre + (sizeof_header + sz)) post).
  { rewrite payloads_app. simpl. do 2 f_equal. lia. }
  assert (E2 : payloads base (pre ++ carve_tile need sz ++ post) =
    payloads base pre ++ (p, n) :: payloads (base + span pre + (sizeof_header + sz)) post).
  { rewrite !payloads_app, En, carve_tile_span. done. }
  assert (Hp : p ∉ (payloads base (pre ++ (sz, true) :: post)).*1).
  { rewrite E2 in Hnd. rewrite E1. rewrite fmap_app, fmap_cons in *. simpl in Hnd.
    rewrite <- Permutation_middle in Hnd. by apply NoDup_cons in Hnd as [? _]. }
  apply seg_app in Hseg as [Hpre Hpost]. apply seg_app in Hseg' as [_ Hc]. apply seg_app in Hc as [Hc _].
  pose proof (seg_span_nonneg _ _ _ _ Hpre). simpl in Hpost. destruct Hpost as (_&_&_&Hpost).
  destruct (payloads_range _ _ _ _ p n Hc) as (?&?&Hpn&_); [rewrite En; by left|].
  rewrite carve_tile_span in Hpn. pose proof (seg_span_nonneg _ _ _ _ Hpost). rewrite span_app in Hsp. simpl in Hsp.
  exists n. unfold sizeof_header in *. split_and!; [lia|lia|lia|by apply not_elem_of_list_to_map_1| |].
  - unfold blocks. rewrite E2, E1. symmetry. rewrite <- list_to_map_cons. apply list_to_map_proper.
    + rewrite E1 in Hp. simpl. apply NoDup_cons. split; [done|]. rewrite <- E1. destruct Hr as (_&_&_&_&_&Hs). by eapply payloads_nodup.
    + apply Permutation_middle.
  - intros q k Hq. apply elem_of_list_to_map_2 in Hq. rewrite E1 in Hq. apply elem_of_app in Hq as [Hq|Hq].
    + destruct (payloads_range _ _ _ _ _ _ Hpre Hq) as (?&?&?&_). right. lia.
    + replace (base + span pre + (24 + sz)) with (base + span pre + 24 + sz) in Hq by lia.
      destruct (payloads_range _ _ _ _ _ _ Hpost Hq) as (?&?&?&_). left. unfold sizeof_header in *. lia.
Qed.

(** A live block is a used tile; freeing it removes exactly it. *)
Lemma blocks_free m base len bs p n :
  region_repr m base len bs -> blocks base bs !! p = Some n ->
  exists pre sz post, bs = pre ++ (sz, false) :: post /\ p = base + span pre + sizeof_header /\
    blocks base (merge (pre ++ (sz, true) :: post)) = delete p (blocks base bs).
Proof.
  intros (_&_&_&_&_&Hseg) Hp. pose proof (payloads_nodup _ _ _ _ Hseg) as Hnd.
  destruct (live_addrs_split base bs p) as (pre&sz&post&->&->).
  { unfold live_addrs. apply elem_of_list_to_set. apply list_elem_of_fmap. exists (p, n). split; [done|].
    by apply elem_of_list_to_map_2. }
  exists pre, sz, post. split_and!; [done..|]. unfold blocks. rewrite payloads_merge.
  rewrite !payloads_app in *. simpl in *. set (p := base + span pre + sizeof_header) in *.
  rewrite fmap_app in Hnd. simpl in Hnd.
  assert (E : list_to_map (payloads base pre ++ (p, sz) :: payloads (p + sz) post) =
    <[p := sz]> (list_to_map (payloads base pre ++ payloads (p + sz) post)) :> gmap Z Z).
  { rewrite <- list_to_map_cons. apply list_to_map_proper; [by rewrite fmap_app|by rewrite <- Permutation_middle]. }
  rewrite E, delete_insert_id; [done|]. apply not_elem_of_list_to_map_1.
  rewrite <- Permutation_middle in Hnd. apply NoDup_cons in Hnd as [? _]. by rewrite fmap_app.
Qed.

(** ** The main heap *)

Definition main_rep (h : heap) (L : gmap Z Z) : Prop :=
  exists bs, heap_repr h bs /\ g_heap_lock h = false /\ L = blocks (g_heap_base h) bs.

Lemma main_alloc_ok n h L :
  main_rep h L -> 0 <= n < 2 ^ 31 ->
  exists p h', kmalloc n h = Some (p, h') /\
    ((p = 0 /\ main_rep h' L) \/
     (exists m, 0 < p /\ n <= m /\ p + m < 2 ^ 64 /\ L !! p = None /\ main_rep h' (<[p := m]> L) /\
        forall q k, L !! q = Some k -> p + m <= q \/ q + k <= p)).
Proof.
  intros (bs&Hr&Hlk&->) Hn. pose proof (kmalloc_spec h bs n Hr Hlk ltac:(lia)) as Hk. unfold alloc_spec in Hk.
  destruct (first_fit (round8 n) bs) as [[[pre sz] post]|] eqn:E; simpl in Hk.
  - destruct Hk as (h'&Hk&Hr'&Eb&Es&Hlk'). apply first_fit_Some in E as [-> Hle]. pose proof (round8_bounds n).
    eexists _, h'. split; [exact Hk|right]. destruct Hr' as (Hr'&Hs'). rewrite Eb, Es in Hr'. destruct Hr as (Hr&_).
    destruct (blocks_carve _ _ _ _ _ _ _ _ Hr Hr') as (m&Hp&Hm&Hpm&Hno&Eb'&Hd); [lia|].
    exists m. split_and!; try done; [lia|]. rewrite <- Eb'. eexists. split_and!; [|done|by rewrite Eb].
    split; [by rewrite Eb, Es|done].
  - exists 0, h. split; [done|]. left. split; [done|]. by exists bs.
Qed.

Lemma main_free_ok p h L m :
  main_rep h L -> L !! p = Some m -> exists h', kfree p h = Some h' /\ main_rep h' (delete p L).
Proof.
  intros (bs&Hr&Hlk&->) Hp. pose proof Hr as [Hreg _].
  destruct (blocks_free _ _ _ _ _ _ Hreg Hp) as (pre&sz&post&->&->&E).
  destruct (kfree_spec _ _ _ _ Hr Hlk) as (h'&Hk&Hr'&Eb&_&Hlk'). exists h'. split; [done|].
  eexists. split_and!; [done|done|]. by rewrite Eb, E.
Qed.

#[global] Instance main_heap : PageHeap heap :=
  {| ph_alloc := kmalloc; ph_free := kfree; ph_rep := main_rep; ph_alloc_ok := main_alloc_ok; ph_free_ok := main_free_ok |}.

(** ** The image heap *)

Definition image_rep (x : aux_heaps) (L : gmap Z Z) : Prop :=
  exists bs, kheap_repr (g_img_heap x) (aux_mem x) bs /\ L = blocks (kh_base (g_img_heap x)) bs.

Lemma image_alloc_ok n x L :
  image_rep x L -> 0 <= n < 2 ^ 31 ->
  exists p x', image_alloc n x = Some (p, x') /\
    ((p = 0 /\ image_rep x' L) \/
     (exists m, 0 < p /\ n <= m /\ p + m < 2 ^ 64 /\ L !! p = None /\ image_rep x' (<[p := m]> L) /\
        forall q k, L !! q = Some k -> p + m <= q \/ q + k <= p)).
Proof.
  intros (bs&Hr&->) Hn. pose proof (kheap_alloc_spec _ _ bs n Hr ltac:(lia)) as Hk. unfold alloc_spec in Hk. unfold image_alloc.
  destruct (first_fit (round8 n) bs) as [[[pre sz] post]|] eqn:E; simpl in Hk.
  - destruct Hk as (m'&->&Hr'&_). apply first_fit_Some in E as [-> Hle]. pose proof (round8_bounds n).
    eexists _, _. split; [done|right]. destruct Hr as (Hr&_). pose proof Hr' as (Hr2&_).
    destruct (blocks_carve _ _ _ _ _ _ _ _ Hr Hr2) as (m&Hp&Hm&Hpm&Hno&Eb'&Hd); [lia|].
    exists m. split_and!; try done; [lia|]. rewrite <- Eb'. by eexists.
  - rewrite Hk. exists 0. eexists. split; [done|]. left. split; [done|]. by exists bs.
Qed.

Lemma image_free_ok p x L m :
  image_rep x L -> L !! p = Some m -> exists x', image_free p x = Some x' /\ image_rep x' (delete p L).
Proof.
  intros (bs&Hr&->) Hp. pose proof Hr as [Hreg _].
  destruct (blocks_free _ _ _ _ _ _ Hreg Hp) as (pre&sz&post&->&->&E).
  destruct (kheap_free_spec _ _ _ _ _ Hr) as (m'&Hk&Hr'&_). unfold image_free. rewrite Hk. eexists. split; [done|].
  eexists. split; [done|]. symmetry. exact E.
Qed.

#[global] Instance image_heap : PageHeap aux_heaps :=
  {| ph_alloc := image_alloc; ph_free := image_free; ph_rep := image_rep; ph_alloc_ok := image_alloc_ok; ph_free_ok := image_free_ok |}.
End ProcHeaps.
