(* ===== verification/ProcProps.v ===== *)
(** * ProcProps: what the process subsystem guarantees (kernel/src/process.c)

    The theorems about processes, on the states the transition system of
    ProcMachine reaches, with a concrete system (two CPUs, the kernel's own
    allocators, a minimal executable) on which they are applied. *)

From Stdlib Require Import ZArith Lia Bool ZifyBool.
From stdpp Require Import base numbers option list list_numbers gmap sets.
From S2P Require Import Prelude StateM KAlloc ProcState Elf Process ProcSched ProcSteps ProcMem ProcSbrk ProcMachine ProcFair ProcHeaps.

Open Scope Z_scope.

Module ProcProps.
Import ProcState Elf Process ProcSched ProcSteps ProcMem ProcSbrk ProcMachine ProcFair.

(** ** A concrete system *)

Section Demo.
Import KAlloc(heap, aux_heaps, kmalloc_init, mk_heap, mk_aux, mk_kheap, image_heap_init).
Abbreviation demo := (kernel heap aux_heaps).

(** The little-endian bytes of [v]. *)
Definition le (n : nat) (v : Z) : list Z := (fun i => v / 256 ^ Z.of_nat i mod 256) <$> seq 0 n.

(** An executable with one segment of one byte. *)
Definition demo_image : list Z :=
  [0x7f; 0x45; 0x4c; 0x46; 2; 1] ++ replicate 10 0 ++
  le 2 2 ++ le 2 62 ++ le 4 1 ++ le 8 0x20000000 ++ le 8 64 ++ replicate 14 0 ++ le 2 56 ++ le 2 1 ++ replicate 6 0 ++
  le 4 1 ++ le 4 5 ++ le 8 120 ++ le 8 0x20000000 ++ le 8 0 ++ le 8 1 ++ le 8 1 ++ le 8 4096 ++ [0xc3].

Definition demo_process : process :=
  Process 0 0 0 0 0 0 0 0 0 0 0 0 0 0 [] false EMPTY 0 0 0 0 0 0 0 0 (replicate 8 empty_handle) (replicate 16 empty_entry)
    zero_frame 0 0 false [] [] [] 0 0 0.
Definition demo_cpu : cpu := Cpu None 0 0 0 0 0 0 0 None.
Definition demo_layout : layout :=
  Layout 0x1000000 0x5000000 0x6000000 0x7000000 0x7100000 0x7200000 0x7300000 0x7301000 0x7302000 [] 100.
Definition demo_heap : heap := kmalloc_init 0x100000 0x100000 (mk_heap ∅ 0 0 0 0 0 false).
Definition demo_images : aux_heaps := image_heap_init 0x400000 0x100000 (mk_aux ∅ (mk_kheap 0 0 0) (mk_kheap 0 0 0)).
Definition demo_kernel : demo :=
  Kernel (replicate 48 demo_process) 0 [demo_cpu; demo_cpu] 0 0 false [] demo_heap (Some demo_images)
    (fun _ => 0) (replicate 48 ∅) (replicate 48 (Upper [] [] [])) (replicate 48 0) ∅ 0 demo_layout [].

Definition demo_frame (number arg : Z) : interrupt_frame := Frame number 0 0 0 0 arg 0 0 0 0 0 0 0 0 0 0 0x23 0 0 0.
Definition demo_peek : Z -> Z := fun a => if a =? 1 then 0x73 else 0.
Definition demo_answer : answer := Answer (demo_frame 0 0) (replicate 16 empty_entry) (fun p => p) ∅.
Definition demo_env : call_env := Env demo_peek (fun _ => Embedded demo_image) 0 demo_answer.
Definition call_of (number arg : Z) : event := Syscall 0 (demo_frame number arg) demo_env.

Definition go (e : event) (k : demo) : demo := default k (snd <$> exec e k).

(** Boot; start a program; run it; it starts a child and waits for it; the child runs. *)
Definition demo0 : demo := Eval vm_compute in default demo_kernel (snd <$> process_init 0 demo_kernel).
Definition demo1 : demo := go (Spawn [115; 104] (Embedded demo_image) None 0 0 0) demo0.
Definition demo2 : demo := go (Dispatch 0) demo1.
Definition demo3 : demo := go (call_of SYS_PROCESS_SPAWN 1) demo2.
Definition demo4 : demo := go (call_of SYS_WAITPID 0) demo3.
Definition demo5 : demo := go (Dispatch 0) demo4.

Definition table_of (k : demo) : list (Z * process_state * Z) :=
  (fun p => (p_pid p, p_state p, p_running_on_cpu p)) <$> take 3 (k_processes k).
Example demo_states :
  table_of demo1 = [(1, READY, -1); (0, EMPTY, -1); (0, EMPTY, -1)] /\
  table_of demo3 = [(1, RUNNING, 0); (2, READY, -1); (0, EMPTY, -1)] /\
  table_of demo5 = [(1, WAITING, -1); (2, RUNNING, 0); (0, EMPTY, -1)].
Proof. by vm_compute. Qed.
(** *** The states of the demonstration are reachable *)

Lemma demo_boots : boot demo_kernel.
Proof.
  split_and!; try done; [by apply Forall_replicate|by repeat constructor|].
  exists demo_images, (ProcHeaps.blocks 0x100000 [(0xfffe8, true)]), (ProcHeaps.blocks 0x400000 [(0xfffe8, true)]).
  split_and!; [done|exists [(0xfffe8, true)]; split_and!; try done|exists [(0xfffe8, true)]; split_and!; try done].
Qed.

Lemma demo0_reachable : reachable demo0.
Proof. apply (reach_boot 0 demo_kernel); [apply demo_boots|by eexists|by vm_compute]. Qed.

Lemma go_reachable e k : reachable k -> enabled e k -> reachable (go e k).
Proof.
  intros Hk He. destruct (wp_exec e k (reachable_inv k Hk) He) as ([]&k'&E&_). unfold go. rewrite E.
  by apply (reach_step e k).
Qed.

Definition cpu_of (c : Z) (k : demo) : option (option Z * option Z) := (fun x => (c_slice x, c_current x)) <$> aget (k_cpus k) c.

Lemma running_of c i k : cpu_of c k = Some (Some i, Some i) -> running c i k.
Proof. unfold cpu_of. intros (x&Ex&[= E1 E2])%fmap_Some. by exists x. Qed.
Lemma idle_of c d k : cpu_of c k = Some (None, d) -> idle c k.
Proof. unfold cpu_of. intros (x&Ex&[= E1 E2])%fmap_Some. by exists x. Qed.

Lemma demo_image_safe : program_safe (Embedded demo_image).
Proof. by vm_compute. Qed.

(** A call of the running process that ends no process. *)
Lemma demo_call_enabled number arg (k : demo) c i :
  number <> SYS_EXIT -> number <> SYS_PROCESS_KILL -> number <> SYS_PTY_INTERRUPT -> pids_left k -> arg < 2 ^ 64 ->
  k_ttys k = ∅ -> call_enabled c i (demo_frame number arg) demo_env k.
Proof.
  intros H1 H2 H3 H4 H5 H6. split_and!; try done.
  split_and!; try done; [by apply Forall_replicate|by rewrite H6].
Qed.

Lemma demo1_reachable : reachable demo1.
Proof. apply go_reachable; [apply demo0_reachable|]. by split_and!. Qed.
Lemma demo2_reachable : reachable demo2.
Proof. apply go_reachable; [apply demo1_reachable|]. by apply (idle_of 0 None); vm_compute. Qed.
Lemma demo2_running : running 0 0 demo2.
Proof. by apply running_of; vm_compute. Qed.
Lemma demo3_reachable : reachable demo3.
Proof.
  apply go_reachable; [apply demo2_reachable|]. exists 0. split; [apply demo2_running|].
  by apply demo_call_enabled; vm_compute.
Qed.
Lemma demo4_reachable : reachable demo4.
Proof.
  apply go_reachable; [apply demo3_reachable|]. exists 0. split; [by apply running_of; vm_compute|].
  by apply demo_call_enabled; vm_compute.
Qed.
Lemma demo5_reachable : reachable demo5.
Proof. apply go_reachable; [apply demo4_reachable|]. by apply (idle_of 0 None); vm_compute. Qed.
Lemma demo5_running : running 0 1 demo5.
Proof. by apply running_of; vm_compute. Qed.

End Demo.
(** ** The theorems *)

Section Theorems.
Context {H I : Type} {HP : PageHeap H} {IP : PageHeap I}.
Abbreviation kernel := (kernel H I).

(** C1: the scheduler's invariant.  It holds in every state that orderly events
    lead to from boot: dispatches, timer ticks, system calls of any number, user
    faults, parked calls, kills, Ctrl-C, terminal input and program starts, on
    any number of CPUs and in any order, where
    - an exit, a kill, a fault or a Ctrl-C does not end a process (or a thread
      of one) that is running on another CPU at that moment, and a
      SYS_PTY_INTERRUPT does not end its own caller;
    - executables have headers that describe what is in the file, and process
      identifiers have not wrapped around;
    - the calls that are not about processes change only their caller's
      registers, descriptors and other fields that carry no scheduling state.
    Then no two CPUs run the same process, a CPU's process is loaded, RUNNING
    and marked with that CPU, and every RUNNING process is on a CPU; loaded
    processes have distinct non-zero pids; no image and no heap chunk belongs to
    two processes; a live thread runs on the page tables of a process that has
    not exited; and no parent waits for a child that has already exited and left
    its CPU.  (Without the first condition it fails: see
    [kill_on_other_cpu_revives_slot].) *)
Theorem scheduler_invariant (k : kernel) :
  reachable k ->
  (forall c d x y i, aget (k_cpus k) c = Some x -> aget (k_cpus k) d = Some y ->
     c_slice x = Some i -> c_slice y = Some i -> c = d) /\
  (forall c x i, aget (k_cpus k) c = Some x -> c_slice x = Some i ->
     exists p, aget (k_processes k) i = Some p /\ p_loaded p = true /\ p_state p = RUNNING /\ p_running_on_cpu p = c) /\
  (forall i p, aget (k_processes k) i = Some p -> p_state p = RUNNING ->
     exists x, aget (k_cpus k) (p_running_on_cpu p) = Some x /\ c_slice x = Some i) /\
  (forall i j p q, aget (k_processes k) i = Some p -> aget (k_processes k) j = Some q ->
     p_loaded p = true -> p_loaded q = true -> 0 < p_pid p /\ (p_pid p = p_pid q -> i = j)) /\
  NoDup (images_of (k_processes k)) /\ NoDup (chunks_of (k_processes k)) /\
  (forall t p, aget (k_processes k) t = Some p -> p_loaded p = true -> p_is_thread p = true -> p_state p <> EXITED ->
     exists o q, aget (k_processes k) o = Some q /\ p_loaded q = true /\ p_is_thread q = false /\ p_state q <> EXITED /\
       p_user_page_tables p = o + 1 /\ p_cr3 p = p_cr3 q) /\
  (forall i j q z, aget (k_processes k) i = Some q -> aget (k_processes k) j = Some z ->
     p_loaded q = true -> zombie z -> ~ waits_for q z).
Proof.
  intros Hk%reachable_inv. pose proof (inv_sched _ _ _ Hk) as (Ha&Hb&Hc&Hd&He). pose proof (inv_ids _ _ _ Hk) as [Hi1 Hi2].
  assert (Hcpu : forall c x i, aget (k_cpus k) c = Some x -> c_slice x = Some i ->
    exists p, aget (k_processes k) i = Some p /\ p_loaded p = true /\ p_state p = RUNNING /\ p_running_on_cpu p = c).
  { intros c x i Hx Hs. destruct (Ha c x i Hx Hs) as (p&Hp&<-). exists p.
    pose proof (aget_Some_lt _ _ _ Hx). destruct (Hd i p Hp); [lia|lia|done]. }
  destruct (inv_mem _ _ _ Hk) as (a&L&La&_&_&_&Hbh&Hba). split_and!.
  - intros c d x y i Hx Hy Hsx Hsy. destruct (Hcpu c x i Hx Hsx) as (p&Hp&_&_&<-).
    destruct (Hcpu d y i Hy Hsy) as (q&Hq&_&_&<-). congruence.
  - exact Hcpu.
  - intros i p Hp Hs. by apply (Hc i p Hp), (He i p Hp).
  - intros i j p q Hp Hq Hlp Hlq. pose proof (Hi1 i p Hp) as Hx. rewrite Hlp in Hx. split; [lia|]. by apply (Hi2 i j p q).
  - exact (proj1 Hba).
  - exact (proj1 (proj2 (blocks_ok_app _ (k_quarantine k) (chunks_of (k_processes k)) Hbh))).
  - intros t p Hp Hl Ht Hs. destruct (proj2 (inv_space _ _ _ Hk) t p Hp Hl Ht Hs) as (o&q&Ho&Hq&Hin&Hc3&_&Hst).
    exists o, q. apply andb_prop in Hq as [? Hn]. destruct (p_is_thread q); [done|].
    split_and!; try done. destruct Hst; [done|set_solver].
  - intros i j q z Hq Hz Hl Hzz Hw. pose proof (inv_wake _ _ _ Hk i j q z Hq Hz Hl Hzz Hw). set_solver.
Qed.

(** C8: no orderly event gets stuck.  In every state that orderly events lead to,
    an orderly event (the conditions are those of the scheduler's invariant:
    nothing that runs on another CPU is ended, a SYS_PTY_INTERRUPT does not end
    its caller, executables are well-formed, pids have not wrapped around) is
    defined: no access outside a table, no block is freed that is not live, no
    allocation step or loop fails to return; and it restores the full invariant
    on table, CPUs, pids, memory, address spaces and waiting parents. *)
Theorem process_steps_defined e (k : kernel) :
  reachable k -> enabled e k -> exists k', exec e k = Some (tt, k') /\ @ProcSched.inv H I HP IP [] (-1) ∅ k'.
Proof. intros Hk He. destruct (wp_exec e k (reachable_inv k Hk) He) as ([]&k'&E&Hk'). by exists k'. Qed.

(** C9: round robin is fair.  In every run from a reachable state in which CPU [c]
    dispatches more often than the number of slots between its cursor and slot
    [i] (48 dispatches always suffice) and finds slot [i] runnable each time,
    one of these dispatches picks slot [i]. *)
Theorem no_starvation c x i (k : kernel) tr k' :
  reachable k -> aget (k_cpus k) c = Some x -> 0 <= i < 48 -> run k tr k' ->
  (i - c_sched_cursor x) mod 48 < dispatches c tr ->
  (forall s, (s, Dispatch c) ∈ tr -> slot_runnable i s) ->
  exists s s' parked, (s, Dispatch c) ∈ tr /\ run_slice_enter c s = Some (Some (i, parked), s').
Proof.
  intros Hk Hx Hi Hrun Hd Hr. eapply (run_picks c i tr k k' (c_sched_cursor x));
    [by apply reachable_inv|by apply reachable_cursors|by apply aget_cursors|done|apply aget_Some_lt in Hx; lia|done..].
Qed.

(** A process without live threads ends alone. *)
Lemma wp_no_siblings c j p (k : kernel) (Q : () -> kernel -> Prop) :
  aget (k_processes k) j = Some p -> length (k_processes k) = 48%nat -> (owns p = true -> in_space j p) ->
  (forall t r, aget (k_processes k) t = Some r -> p_loaded r = true -> p_is_thread r = true -> in_space j r -> p_state r = EXITED) ->
  p_loaded p = true -> Q tt k -> wp (process_kill_sibling_threads c j) Q k.
Proof.
  intros Hj Hlen Hin Hth Hl HQ. unfold process_kill_sibling_threads. apply wp_bind. eapply wp_proc; [exact Hj|].
  destruct (_ || _) eqn:E; [by wstep|]. bools. eapply wp_mono; [apply (wp_each (fun s => s = k)); [|done]|by intros [] ? ->].
  intros t s Hts ->. apply elem_of_seqZ in Hts. unfold PROCESS_MAX_COUNT in Hts.
  destruct (aget_lt (k_processes k) t) as [r Ht]; [lia|]. unfold kill_thread. apply wp_bind. eapply wp_proc; [exact Ht|].
  destruct (_ || _ || _) eqn:E1; [by wstep|]. destruct (state_is _ _ || _) eqn:E2; [by wstep|]. bools.
  destruct (Z.eqb_spec (p_user_page_tables r) (p_user_page_tables p)) as [Eu|]; cbn [negb]; [|by wstep].
  exfalso. assert (p_state r = EXITED); [|unfold state_is in *; by rewrite bool_decide_true in * by done]. apply (Hth t r); try done.
  unfold in_space in *. rewrite Eu. apply Hin. unfold owns. by rewrite Hl, H0.
Qed.

(** An exited child wakes the parent that waits for it and is emptied. *)
Lemma wp_wake_parent X i j p q (k : kernel) (Q : () -> kernel -> Prop) :
  let q' := set_p_state READY (set_p_context (set_f_rdx (u32 (p_exit_code p)) (set_f_rax (p_pid p) (p_context q))) (set_p_wait_target_pid 0 q)) in
  i <> j -> length (k_processes k) = 48%nat -> aget (k_processes k) j = Some p -> aget (k_processes k) i = Some q ->
  p_loaded p = true -> p_loaded q = true -> waits_for q p -> p_user_image_allocation p <> 0 -> p_pid q <> 0 ->
  (forall t r, aget (k_processes k) t = Some r -> p_loaded r = true -> p_pid r = p_pid q -> t = i) ->
  mem_ok (X := X) (k_heap k) (k_aux k) (k_quarantine k) (k_processes k) ->
  (forall k', k_processes k' = <[Z.to_nat j := reaped p]> (<[Z.to_nat i := q']> (k_processes k)) -> k_cpus k' = k_cpus k -> Q tt k') ->
  wp (process_wake_waiter j) Q k.
Proof.
  intros q' Hij Hlen Hj Hi Hl Hlq (Hw&Hpar&Htgt) Him Hpid Hu Hm HQ. unfold process_wake_waiter.
  apply wp_bind. eapply wp_proc; [exact Hj|]. destruct (Z.eqb_spec (p_parent_pid p) 0); [congruence|].
  apply wp_bind. apply wp_find_by_pid; [|intros Hn; destruct (Hn i q Hi Hlq); congruence].
  intros t r Ht Hlr Hpr _. assert (t = i) as -> by (apply (Hu t r); congruence). assert (r = q) as -> by congruence.
  apply wp_bind. eapply wp_proc; [exact Hi|]. unfold state_is. rewrite bool_decide_true by done. cbn [negb].
  destruct (_ && _) eqn:E; bools; [destruct Htgt; congruence|].
  apply wp_bind. eapply wp_on_proc; [exact Hi|]. fold q'.
  eapply (wp_reap_raw j p); cbn [k_processes set_k_processes k_heap k_aux k_quarantine]; [by rewrite length_insert| |done|done| |].
  - rewrite <- Hj. by apply aget_upd_ne with (p := q).
  - by apply mem_same with (p := q).
  - intros k' Ek' (Ec&_) _. by apply HQ.
Qed.

(** A process without live threads ends while its parent waits for it: what
    process_kill and SYS_EXIT do once the windows are closed. *)
Lemma wp_end_under_parent {A} c i j code p q (rest : ST kernel A) (k : kernel) Q :
  @ProcSched.inv H I HP IP [] (-1) ∅ k -> aget (k_processes k) j = Some p -> aget (k_processes k) i = Some q ->
  p_loaded p = true -> p_state p <> WAITING -> p_loaded q = true -> waits_for q p ->
  (forall t r, aget (k_processes k) t = Some r -> p_loaded r = true -> p_is_thread r = true -> in_space j r -> p_state r = EXITED) ->
  (forall k', k_cpus k' = k_cpus k ->
    aget (k_processes k') i = Some (set_p_state READY (set_p_context
      (set_f_rdx (u32 code) (set_f_rax (p_pid p) (p_context q))) (set_p_wait_target_pid 0 q))) ->
    aget (k_processes k') j = Some (reaped (exit_with code p)) ->
    (forall t, t <> i -> t <> j -> aget (k_processes k') t = aget (k_processes k) t) -> wp rest Q k') ->
  wp (_ ← on_proc j (exit_with code); _ ← process_kill_sibling_threads c j; _ ← process_wake_waiter j; rest) Q k.
Proof.
  intros Hk Hj Hi Hl Hs Hlq Hw Hth HQ. apply wp_bind. eapply wp_on_proc; [exact Hj|].
  pose (p1 := exit_with code p). change (set_k_processes _ k) with (with_proc j p1 k).
  assert (Hj1 : aget (k_processes (with_proc j p1 k)) j = Some p1) by by apply aget_upd_eq with (p := p).
  assert (Hij : i <> j) by (intros ->; destruct Hw; congruence).
  assert (Hi1 : aget (k_processes (with_proc j p1 k)) i = Some q) by (rewrite <- Hi; by apply aget_upd_ne with (p := p)).
  set (k2 := with_proc j p1 k) in *. assert (Hlen : length (k_processes k2) = 48%nat).
  { cbn [k2 with_proc k_processes set_k_processes]. rewrite length_insert. by eapply inv_len. }
  apply wp_bind. eapply (wp_no_siblings c j p1); [exact Hj1|done| | |done|].
  { intros Ho. exact (proj1 (proj1 (inv_space _ _ _ Hk) j p Hj Ho)). }
  { intros t r Ht Hlr Htr Hin. destruct (decide (t = j)) as [->|Hne]; [by replace r with p1 by congruence|].
    eapply (Hth t r); [|done..]. rewrite <- Ht. symmetry. by apply aget_upd_ne with (p := p). }
  assert (Hm2 : mem_ok (X := []) (k_heap k2) (k_aux k2) (k_quarantine k2) (k_processes k2)).
  { apply mem_same with (p := p); [done|done|]. apply (inv_mem _ _ _ Hk). }
  assert (Hu : forall t r, aget (k_processes k2) t = Some r -> p_loaded r = true -> p_pid r = p_pid q -> t = i).
  { intros t r Ht Hlr Hpr. destruct (decide (t = j)) as [->|Hne].
    - apply (proj2 (inv_ids _ _ _ Hk) j i p q); try done. by replace r with p1 in Hpr by congruence.
    - apply (proj2 (inv_ids _ _ _ Hk) t i r q); try done. rewrite <- Ht. symmetry. by apply aget_upd_ne with (p := p). }
  assert (Him : p_user_image_allocation p <> 0 /\ p_pid q <> 0).
  { pose proof (proj1 (inv_ids _ _ _ Hk) j p Hj) as Hx1. pose proof (proj1 (inv_ids _ _ _ Hk) i q Hi) as Hx2.
    rewrite Hl in Hx1. rewrite Hlq in Hx2. split; [apply Hx1|lia]. }
  assert (Ec2 : k_cpus k2 = k_cpus k) by done.
  assert (Hne2 : forall t, t <> j -> aget (k_processes k2) t = aget (k_processes k) t) by (intros t Ht; by apply aget_upd_ne with (p := p)).
  clearbody k2. apply wp_bind. eapply (wp_wake_parent [] i j p1 q); [done|done|exact Hj1|exact Hi1|done|done|done|by apply Him|by apply Him|done|done|].
  intros k3 Ep3 Ec3. set (q' := set_p_state READY _) in *.
  assert (Hj3 : aget (<[Z.to_nat i := q']> (k_processes k2)) j = Some p1) by (rewrite <- Hj1; by apply aget_upd_ne with (p := q)).
  apply HQ; rewrite ?Ep3; [congruence|..].
  - rewrite (aget_upd_ne _ _ _ _ Hj3) by done. by apply aget_upd_eq with (p := q).
  - by apply aget_upd_eq with (p := p1).
  - intros t Hti Htj. rewrite (aget_upd_ne _ _ _ _ Hj3), (aget_upd_ne _ _ _ _ Hi1) by done. by apply Hne2.
Qed.

(** C25: a waiting parent gets the exit status.  When a running process that has
    no threads exits while its parent waits for it or for any child, the parent
    becomes READY with the child's pid in rax and the exit code in rdx, the
    child's slot is emptied, and no other slot changes. *)
Theorem exit_wakes_parent c i j f p q (k : kernel) :
  reachable k -> running c j k -> aget (k_processes k) j = Some p -> aget (k_processes k) i = Some q ->
  p_loaded q = true -> waits_for q p ->
  (forall t r, aget (k_processes k) t = Some r -> p_loaded r = true -> p_is_thread r = true -> in_space j r -> p_state r = EXITED) ->
  wp (sys_exit c j f) (fun o k' => o = Deschedule /\
    aget (k_processes k') i = Some (set_p_state READY (set_p_context
      (set_f_rdx (u32 (sgn32 (f_rdi f))) (set_f_rax (p_pid p) (p_context q))) (set_p_wait_target_pid 0 q))) /\
    (exists p', aget (k_processes k') j = Some p' /\ p_loaded p' = false /\ p_state p' = EMPTY) /\
    forall t, t <> i -> t <> j -> aget (k_processes k') t = aget (k_processes k) t) k.
Proof.
  intros Hk%reachable_inv Hr Hj Hi Hlq Hw Hth. destruct (running_proc c j k Hk Hr) as (p'&Hp'&Hl&Hs&Hrc).
  replace p' with p in * by congruence. clear p' Hp'. pose proof Hr as (x&Hx&_). unfold sys_exit.
  apply wp_bind. eapply wp_proc; [exact Hj|]. apply wp_bind. eapply (wp_close_windows (-1) ∅); [exact Hk|].
  intros k1 Hk1 Ep1 Ec1. rewrite <- Ep1 in *.
  eapply (wp_end_under_parent c i j (sgn32 (f_rdi f)) p q); [exact Hk1|done|done|done|congruence|done|done|done|].
  intros k3 Ec3 Hi3 Hj3 Hne3. apply wp_bind. unfold leave_current. eapply wp_on_cpu; [by rewrite Ec3, Ec1|]. wstep.
  split_and!; [done|done| |done]. by exists (reaped (exit_with (sgn32 (f_rdi f)) p)).
Qed.

(** C26: SYS_WAITPID with a child that has exited returns its pid and exit code
    and empties its slot; otherwise the caller is suspended in WAITING for that
    child (or any), with zeroed results. *)
Theorem waitpid_collects_child c i f p (k : kernel) :
  reachable k -> running c i k -> aget (k_processes k) i = Some p ->
  let child z := zombie z /\ p_parent_pid z = p_pid p /\ (u32 (f_rdi f) = 0 \/ p_pid z = u32 (f_rdi f)) in
  wp (sys_waitpid c i f) (fun o k' =>
    (exists j z, aget (k_processes k) j = Some z /\ child z /\
       o = Resume (set_f_rdx (u32 (p_exit_code z)) (set_f_rax (p_pid z) f)) /\
       (exists z', aget (k_processes k') j = Some z' /\ p_loaded z' = false) /\
       forall t, t <> j -> aget (k_processes k') t = aget (k_processes k) t) \/
    ((forall j z, aget (k_processes k) j = Some z -> ~ child z) /\ o = Deschedule /\
       exists p', aget (k_processes k') i = Some p' /\ p_state p' = WAITING /\ p_wait_target_pid p' = u32 (f_rdi f) /\
         p_context p' = set_f_rdx 0 (set_f_rax 0 f))) k.
Proof.
  intros Hk%reachable_inv Hr Hi child. pose proof Hr as (x&Hx&_). unfold sys_waitpid. cbv zeta.
  apply wp_bind. eapply wp_proc; [exact Hi|]. apply wp_bind. unfold process_find_exited_child. do 3 wstep.
  destruct (find_slot _ _ _) as [j|] eqn:Ef.
  - apply find_slot0 in Ef as (z&Hz&Hch). pose proof Hch as [Hzz Hzp]%exited_child_zombie. pose proof Hzz as (Hlz&Hsz&Hrz).
    apply wp_bind. eapply wp_proc; [exact Hz|]. apply wp_bind.
    eapply (wp_reap (-1) ∅ j z); [|exact Hz|done|by left| |].
    { eapply inv_mono; [|exact Hk]. set_solver. }
    { intros _. eapply threads_dead_settled; [exact Hk|set_solver|exact Hz|done]. }
    intros k' _ Ek' _. wstep. left. exists j, z. split_and!; try done.
    + split_and!; try done. unfold exited_child in Hch. destruct (_ || _ || _ || _); [done|].
      apply orb_true_iff in Hch as [Hc%Z.eqb_eq|Hc%Z.eqb_eq]; [by left|by right].
    + exists (reaped z). rewrite Ek'. split; [by apply aget_upd_eq with (p := z)|done].
    + intros t Ht. rewrite Ek'. by apply aget_upd_ne with (p := z).
  - unfold suspend. apply wp_bind. eapply wp_on_proc; [exact Hi|]. unfold leave_current. apply wp_bind.
    eapply wp_on_cpu; [exact Hx|]. wstep. right. split_and!; [|done|].
    + intros j z Hj (Hz&Hpp&Ht). pose proof (find_slot_None _ _ _ _ _ Ef Hj) as Hf. cbn beta in Hf. destruct Hz as (Hl&Hs&Hrz).
      assert (He : exited_child (p_pid p) (u32 (f_rdi f)) z = true); [|congruence].
      unfold exited_child, state_is. rewrite Hl, Hs, Hrz, Hpp, bool_decide_true, !Z.eqb_refl by done.
      apply orb_true_iff. destruct Ht; [left|right]; lia.
    + eexists. split; [cbn [k_processes set_k_processes set_k_cpus]; by apply aget_upd_eq with (p := p)|done].
Qed.

(** C17: SYS_SBRK of a running process either grows the heap of its address space
    by exactly the increment (never past the stack, never by a negative amount)
    and returns the old break, every page that became part of the heap mapped
    to a zeroed page of its own inside new blocks of the kernel heap; or it
    returns -1.  Then either nothing has changed, and the increment is negative
    or reaches past the heap area; or no further page could be had (the chunk
    table is full or the allocator cannot serve one page), and the growth is
    rolled back: process table, live blocks and their contents are as they were,
    exactly the pages of the attempted growth are unmapped and every other page
    table entry is unchanged. *)
Theorem sbrk_grows_or_undoes c i increment (k : kernel) :
  reachable k -> running c i k -> increment < 2 ^ 63 ->
  wp (process_sbrk i increment) (fun r k' => running c i k' /\
    exists o, space_owner i o k /\ sbrk_done (X := []) i o increment k r k') k.
Proof.
  intros Hk%reachable_inv Hr Hinc. destruct (running_proc c i k Hk Hr) as (p&Hp&Hl&Hs&_).
  eapply wp_process_sbrk; [exact Hk|exact Hp|done|congruence|done|].
  intros o r k' Hsp Hd Hk' Ec _. split; [by apply (running_frame c i k)|by exists o].
Qed.

(** ** A process that is ended while another CPU runs it *)

Lemma wp_kill_elsewhere c d i j p q (k : kernel) :
  @ProcSched.inv H I HP IP [] (-1) ∅ k -> running d j k -> c <> d -> is_Some (aget (k_cpus k) c) ->
  aget (k_processes k) j = Some p -> aget (k_processes k) i = Some q -> p_loaded q = true -> waits_for q p ->
  (forall t r, aget (k_processes k) t = Some r -> p_loaded r = true -> p_is_thread r = true -> in_space j r -> p_state r = EXITED) ->
  wp (process_kill c (p_pid p)) (fun _ k' => running d j k' /\
    exists p', aget (k_processes k') j = Some (reaped p')) k.
Proof.
  intros Hk Hr Hcd [x Hx] Hj Hi Hlq Hw Hth. destruct (running_proc d j k Hk Hr) as (p'&Hp'&Hl&Hs&Hrc).
  replace p' with p in * by congruence. clear p' Hp'. unfold process_kill.
  assert (Hpid0 : p_pid p <> 0) by (pose proof (proj1 (inv_ids _ _ _ Hk) j p Hj) as Hids; rewrite Hl in Hids; lia).
  apply wp_bind. apply wp_find_by_pid; [|intros Hn; by destruct (Hn j p Hj Hl)].
  intros t r Ht Hlr Hpr _. assert (t = j) as -> by by eapply (proj2 (inv_ids _ _ _ Hk)). assert (r = p) as -> by congruence.
  apply wp_bind. eapply wp_proc; [exact Hj|]. rewrite Hs. change (state_is RUNNING EMPTY) with false. change (state_is RUNNING EXITED) with false.
  cbn iota. apply wp_bind. eapply (wp_clear_pending (-1) ∅); [exact Hk|exact Hj|]. intros k1 g Hk1 Hg Ep1 Ec1 _.
  destruct (Hg p) as ((Gpid&Gpar&Gl&Gt&Gu&_)&Gr&Gs&_).
  apply wp_bind. eapply (wp_close_windows (-1) ∅); [exact Hk1|]. intros k2 Hk2 Ep2 Ec2. rewrite Ep1 in Ep2.
  assert (Hij : i <> j) by (intros ->; destruct Hw; congruence).
  eapply (wp_end_under_parent c i j (-1) (g p) q); [exact Hk2|rewrite Ep2; by apply aget_upd_eq with (p := p)| | | |done| | |].
  - rewrite Ep2, <- Hi. by apply aget_upd_ne with (p := p).
  - congruence.
  - congruence.
  - destruct Hw as (?&?&?). split_and!; [done|congruence|]. by rewrite Gpid.
  - rewrite Ep2. intros t r [[-> ->]|[_ Hr']]%(aget_upd _ _ _ _ Hj) Hlr' Htr Hin; [|by eapply (Hth t r)].
    rewrite Gs. eapply (Hth j p); [done|done|congruence|]. unfold in_space in *. congruence.
  - intros k3 Ec3 _ Hj3 _. apply wp_bind. rewrite Ec2, Ec1 in Ec3. unfold leave_if_current. apply wp_bind.
    eapply wp_this_cpu; [by rewrite Ec3|]. assert (Hr3 : running d j k3) by by apply (running_frame d j k).
    case_bool_decide; [|do 2 wstep; by eauto]. unfold leave_current. eapply wp_on_cpu; [by rewrite Ec3|]. wstep.
    split; [|by eauto]. destruct Hr3 as (y&Hy&Hys). exists y. cbn [k_cpus set_k_cpus]. split; [|done].
    rewrite Ec3 in *. rewrite aget_insert, decide_False by (first [by eapply aget_Some_lt|congruence]). done.
Qed.

(** A timer tick of a CPU whose process has not exited makes its slot READY. *)
Lemma wp_tick_ready d j f p (k : kernel) :
  running d j k -> aget (k_processes k) j = Some p -> p_state p <> EXITED -> from_user f = true ->
  wp (b ← process_ap_timer d f; leave_if d b) (fun _ k' => exists p', aget (k_processes k') j = Some p' /\
    p_state p' = READY /\ p_running_on_cpu p' = -1 /\ p_loaded p' = p_loaded p /\ p_pid p' = p_pid p /\ p_cr3 p' = p_cr3 p) k.
Proof.
  intros (x&Hx&Hxs&Hxc) Hj Hs Hf. unfold from_user in Hf. rewrite <- (pair_state_id d x j p k Hx Hj).
  apply wp_bind. unfold process_ap_timer. apply wp_bind. eapply wp_pair_cpu; [exact Hx|].
  unfold preempt. apply wp_bind. eapply wp_this_cpu; [cbn [pair_state with_proc with_cpu k_cpus set_k_processes set_k_cpus];
    apply aget_insert_eq; by eapply aget_Some_lt|]. cbn [c_current set_c_ticks]. rewrite Hxc, Hf. cbn [negb].
  apply wp_bind. eapply wp_pair_cpu; [exact Hx|]. apply wp_bind. eapply wp_pair_proc; [exact Hj|].
  apply wp_bind. eapply wp_pair_read; [exact Hj|]. unfold state_is. rewrite bool_decide_false by done.
  apply wp_bind. apply wp_bind. eapply wp_pair_proc; [exact Hj|]. unfold leave_current. eapply wp_pair_cpu; [exact Hx|].
  wstep. unfold leave_if, run_slice_leave. apply wp_bind. apply wp_bind.
  eapply wp_this_cpu; [cbn [pair_state with_proc with_cpu k_cpus set_k_processes set_k_cpus];
    apply aget_insert_eq; by eapply aget_Some_lt|].
  apply wp_bind. eapply wp_must; [exact Hxs|]. cbv zeta. apply wp_bind. eapply wp_pair_cpu; [exact Hx|].
  apply wp_bind. eapply wp_pair_proc; [exact Hj|]. apply wp_bind. eapply wp_pair_read; [exact Hj|].
  apply wp_bind. unfold state_is. rewrite bool_decide_false by done. wstep. apply wp_bind. eapply wp_pair_read; [exact Hj|]. apply wp_bind.
  assert (Hget : forall x' p', aget (k_processes (pair_state d x' j p' k)) j = Some p') by (intros; by apply aget_upd_eq with (p := p)).
  destruct (_ || _); [eapply wp_pair_proc; [exact Hj|]|]; repeat wstep; (eexists; split; [apply Hget|done]).
Qed.

(** C37: Why a process must not be ended while another CPU runs it.  Let CPU [d] run
    a process without threads whose parent waits for it.  When another CPU [c]
    kills it, its slot is emptied (not loaded, without image and heap) while
    CPU [d] still runs it; at the next timer tick of [d] the empty slot (not
    loaded, pid 0, no page tables) becomes READY and off its CPU, so that the
    scheduler takes it for a process to run. *)
Theorem kill_on_other_cpu_revives_slot c d i j f p q (k : kernel) :
  reachable k -> running d j k -> c <> d -> is_Some (aget (k_cpus k) c) ->
  aget (k_processes k) j = Some p -> aget (k_processes k) i = Some q -> p_loaded q = true -> waits_for q p ->
  (forall t r, aget (k_processes k) t = Some r -> p_loaded r = true -> p_is_thread r = true -> in_space j r -> p_state r = EXITED) ->
  from_user f = true ->
  exists k1 k2 p1 p', exec (Kill c (p_pid p)) k = Some (tt, k1) /\ running d j k1 /\
    aget (k_processes k1) j = Some p1 /\ p_loaded p1 = false /\ p_user_image_allocation p1 = 0 /\ p_heap_chunks p1 = [] /\
    exec (ApTimer d f) k1 = Some (tt, k2) /\ aget (k_processes k2) j = Some p' /\ p_loaded p' = false /\ p_pid p' = 0 /\ p_cr3 p' = 0 /\ runnable p' = true.
Proof.
  intros Hk%reachable_inv Hr Hcd Hc Hj Hi Hlq Hw Hth Hf.
  destruct (wp_kill_elsewhere c d i j p q k Hk Hr Hcd Hc Hj Hi Hlq Hw Hth) as (r&k1&E1&Hr1&p1&Hj1).
  destruct (wp_tick_ready d j f _ k1 Hr1 Hj1) as ([]&k2&E2&p2&Hj2&Hs2&Hrun2&Hl2&Hpid2&Hcr2); [done|done|].
  exists k1, k2, (reaped p1), p2. split_and!; [|done|exact Hj1|done..|exact E2|done|by rewrite Hl2|by rewrite Hpid2|by rewrite Hcr2|].
  - cbn [exec]. unfold mbind, ST_bind. by rewrite E1.
  - unfold runnable, state_is. by rewrite Hrun2, Hs2.
Qed.
End Theorems.

(** ** The theorems on the concrete system *)

Section Witnesses.
Import KAlloc(heap, aux_heaps).

Lemma scheduler_invariant_witness :
  NoDup (images_of (k_processes demo5)) /\
  exists p, aget (k_processes demo5) 1 = Some p /\ p_loaded p = true /\ p_state p = RUNNING /\ p_running_on_cpu p = 0.
Proof.
  destruct (scheduler_invariant demo5 demo5_reachable) as (_&H2&_&_&H5&_). split; [exact H5|].
  destruct demo5_running as (x&Hx&Hs&_). exact (H2 0 x 1 Hx Hs).
Defined.

Lemma process_steps_defined_witness :
  exists k', exec (call_of SYS_YIELD 0) demo2 = Some (tt, k') /\
    @ProcSched.inv heap aux_heaps _ _ [] (-1) ∅ k'.
Proof.
  apply process_steps_defined; [exact demo2_reachable|]. exists 0. split; [exact demo2_running|].
  by apply demo_call_enabled; vm_compute.
Defined.

Lemma only_state (s k : kernel heap aux_heaps) (e e' : event) : (s, e) ∈ [(k, e')] -> s = k.
Proof. by intros [= -> _]%list_elem_of_singleton. Qed.

Lemma no_starvation_witness :
  exists s s' parked, (s, Dispatch 0) ∈ [(demo1, Dispatch 0)] /\
    run_slice_enter 0 s = Some (Some (0, parked), s').
Proof.
  apply (no_starvation 0 demo_cpu 0 demo1 [(demo1, Dispatch 0)] demo2).
  - exact demo1_reachable.
  - by vm_compute.
  - lia.
  - apply (run_cons _ _ demo2); [by apply (idle_of 0 None); vm_compute| |apply run_nil].
    destruct (wp_exec (Dispatch 0) demo1 (reachable_inv _ demo1_reachable)) as ([]&k'&E&_);
      [by apply (idle_of 0 None); vm_compute|]. unfold demo2, go. by rewrite E.
  - by vm_compute.
  - intros s Hs. rewrite (only_state _ _ _ _ Hs).
    assert (E : runnable <$> aget (k_processes demo1) 0 = Some true) by by vm_compute.
    apply fmap_Some in E as (p&Hp&Hr). exists p. exact (conj Hp (eq_sym Hr)).
Defined.

Lemma no_threads (k : kernel heap aux_heaps) j :
  forallb (fun p => negb (p_is_thread p)) (k_processes k) = true ->
  forall t r, aget (k_processes k) t = Some r -> p_loaded r = true -> p_is_thread r = true -> in_space j r -> p_state r = EXITED.
Proof.
  intros Hall t r Ht _ Htr _. exfalso. rewrite forallb_forall in Hall. unfold aget in Ht. destruct (0 <=? t); [|done].
  apply list_elem_of_lookup_2, list_elem_of_In, Hall in Ht. by rewrite Htr in Ht.
Qed.

Lemma exit_wakes_parent_witness :
  wp (sys_exit 0 1 (demo_frame SYS_EXIT 7)) (fun o k' => o = Deschedule /\
    (fun p => (p_state p, f_rax (p_context p), f_rdx (p_context p))) <$> aget (k_processes k') 0 = Some (READY, 2, 7)) demo5.
Proof.
  assert (E1 : (fun p => (p_parent_pid p, p_pid p)) <$> aget (k_processes demo5) 1 = Some (1, 2)) by by vm_compute.
  assert (E0 : (fun p => (p_loaded p, p_state p, p_pid p, p_wait_target_pid p)) <$> aget (k_processes demo5) 0 = Some (true, WAITING, 1, 0)) by by vm_compute.
  apply fmap_Some in E1 as (p&Hp&[= Hpar Hpid]). apply fmap_Some in E0 as (q&Hq&[= Hl Hs Hqp Hqt]).
  assert (Hw : waits_for q p) by (split_and!; [done|congruence|by left]).
  assert (Hth := no_threads demo5 1 ltac:(by vm_compute)).
  eapply wp_mono; [exact (exit_wakes_parent 0 0 1 (demo_frame SYS_EXIT 7) p q demo5 demo5_reachable demo5_running Hp Hq (eq_sym Hl) Hw Hth)|].
  intros o k' (->&Hi&_). split; [done|]. rewrite Hi. cbn [fmap option_fmap option_map]. f_equal. cbn. by rewrite <- Hpid.
Defined.

Lemma waitpid_collects_child_witness :
  wp (sys_waitpid 0 0 (demo_frame SYS_WAITPID 0)) (fun o k' => o = Deschedule \/ exists z, o = Resume z) demo3.
Proof.
  assert (Hr : running 0 0 demo3) by by apply running_of; vm_compute.
  assert (E0 : is_Some (aget (k_processes demo3) 0)) by by eexists; vm_compute.
  destruct E0 as [p Hp].
  eapply wp_mono; [apply (waitpid_collects_child 0 0 (demo_frame SYS_WAITPID 0) p demo3 demo3_reachable Hr Hp)|].
  intros o k' [(j&z&_&_&->&_)|(_&->&_)]; [right; eauto|by left].
Defined.

Lemma sbrk_grows_or_undoes_witness :
  wp (process_sbrk 0 5000) (fun r k' => running 0 0 k' /\
    exists o, space_owner 0 o demo2 /\ sbrk_done (X := []) 0 o 5000 demo2 r k') demo2.
Proof. apply (sbrk_grows_or_undoes 0 0 5000 demo2 demo2_reachable demo2_running). lia. Defined.

(** The child runs on the second CPU. *)
Definition demo6 : kernel heap aux_heaps := go (Dispatch 1) demo4.

Lemma demo6_reachable : reachable demo6.
Proof. apply go_reachable; [apply demo4_reachable|]. by apply (idle_of 1 None); vm_compute. Qed.

Lemma kill_on_other_cpu_revives_slot_witness :
  exists pid k1 k2 p', exec (Kill 0 pid) demo6 = Some (tt, k1) /\ exec (ApTimer 1 (demo_frame 0 0)) k1 = Some (tt, k2) /\
    aget (k_processes k2) 1 = Some p' /\ p_loaded p' = false /\ runnable p' = true.
Proof.
  assert (E1 : (fun p => (p_parent_pid p, p_pid p)) <$> aget (k_processes demo6) 1 = Some (1, 2)) by by vm_compute.
  assert (E0 : (fun p => (p_loaded p, p_state p, p_pid p, p_wait_target_pid p)) <$> aget (k_processes demo6) 0 = Some (true, WAITING, 1, 0)) by by vm_compute.
  apply fmap_Some in E1 as (p&Hp&[= Hpar Hpid]). apply fmap_Some in E0 as (q&Hq&[= Hl Hs Hqp Hqt]).
  assert (Hw : waits_for q p) by (split_and!; [done|congruence|by left]).
  assert (Hr : running 1 1 demo6) by by apply running_of; vm_compute.
  assert (Hc : is_Some (aget (k_cpus demo6) 0)) by by eexists; vm_compute.
  destruct (kill_on_other_cpu_revives_slot 0 1 0 1 (demo_frame 0 0) p q demo6 demo6_reachable Hr ltac:(lia) Hc Hp Hq (eq_sym Hl) Hw)
    as (k1&k2&_&p'&H1&_&_&_&_&_&H2&H3&H4&_&_&H5); [exact (no_threads demo6 1 ltac:(by vm_compute))|reflexivity|].
  exists (p_pid p), k1, k2, p'. exact (conj H1 (conj H2 (conj H3 (conj H4 H5)))).
Defined.
End Witnesses.

End ProcProps.
