(* ===== verification/ProcFiles.v ===== *)
(** * ProcFiles: the file system calls of a process (kernel/src/process.c)

    A process has a table of 16 descriptors and 8 file handles; a descriptor on a
    file refers to a handle, which has an offset and either an embedded file or a
    path with the inode found when it was opened.  The handles of all processes lie
    in one list, eight for each slot, since a descriptor that was inherited points
    to a handle of another process.  The state of a call is the caller's
    descriptors, all handles with the index of the caller's first one, the
    caller's working directory and the virtual file system of [Vfs]; [system] puts
    the processes together.  A pointer to a handle is 1 + its index, a pointer to
    an embedded file 1 + its index in [g_vfs_files]; 0 is NULL.  Strings in user memory are arguments, NULL being
    [None]; buffers are not NULL and are passed and returned by value; results are
    the signed values of rax.  The operations of descriptors on other devices (terminals,
    pseudo-terminals) are parameters; they are modelled in [Tty] and [Pty]. *)

From Stdlib Require Import ZArith Lia Bool ZifyBool.
From stdpp Require Import base numbers option list list_numbers gmap.
From S2P Require Import Prelude StateM Segments Ramdisk Ext2 Vfs ProcState Process.

Open Scope Z_scope.

Module ProcFiles.
Import Ext2 Vfs ProcState.

Definition SYSCALL_EBADF : Z := 9.
Definition SYSCALL_EMFILE : Z := 24.
Definition SYSCALL_ENAMETOOLONG : Z := 36.

Definition i64 (x : Z) : option Z := if (- 2 ^ 63 <=? x) && (x <? 2 ^ 63) then Some x else None.

(** The cast to int64_t. *)
Definition signed64 (x : Z) : Z := if x <? 2 ^ 63 then x else x - 2 ^ 64.

Lemma signed64_id x : 0 <= x < 2 ^ 63 -> signed64 x = x.
Proof. intros. unfold signed64. destruct (Z.ltb_spec x (2 ^ 63)); lia. Qed.

Section Files.
Context {X : Type} (alloc : nat -> Z -> option (list Z)) (sh_image edit_image : list Z).

Record files := mk_files {
  t_entries : list fd_entry;
  t_handles : list vfs_handle;
  t_base : nat;
  t_cwd : list Z;
  t_fs : vfs (X := X) }.

Abbreviation P := (ST files).

Definition set_entries l s := mk_files l (t_handles s) (t_base s) (t_cwd s) (t_fs s).
Definition set_handles l s := mk_files (t_entries s) l (t_base s) (t_cwd s) (t_fs s).
Definition set_cwd l s := mk_files (t_entries s) (t_handles s) (t_base s) l (t_fs s).
Definition set_fs v s := mk_files (t_entries s) (t_handles s) (t_base s) (t_cwd s) v.

Definition on_fs {A} (m : ST (vfs (X := X)) A) : P A := fun s =>
  '(r, v) ← m (t_fs s); Some (r, set_fs v s).

Definition handle_at (h : Z) : P vfs_handle := fun s => x ← aget (t_handles s) (h - 1); Some (x, s).
Definition put_handle (h : Z) (x : vfs_handle) : P () :=
  try_update (fun s => l ← aset (t_handles s) (h - 1) x; Some (set_handles l s)).
Definition entry_at (d : Z) : P fd_entry := fun s => e ← aget (t_entries s) d; Some (e, s).
Definition put_entry_at (d : Z) (e : fd_entry) : P () :=
  try_update (fun s => l ← aset (t_entries s) d e; Some (set_entries l s)).

Definition with_offset (x : Z) (h : vfs_handle) : vfs_handle :=
  VfsHandle (h_file h) x (h_used h) (h_kind h) (h_path h) (h_cached_ino h).

(** ** Handles *)

Definition HANDLE_CAPACITY : nat := 8.

(** The handles of the process itself. *)
Definition own_handles (b : nat) (hs : list vfs_handle) : list vfs_handle := take HANDLE_CAPACITY (drop b hs).

Definition process_alloc_vfs_handle : P Z := fun s =>
  match list_find (fun h => negb (h_used h)) (own_handles (t_base s) (t_handles s)) with
  | Some (j, h) =>
      let i := (t_base s + j)%nat in
      Some (Z.of_nat i + 1, set_handles (<[i := VfsHandle 0 0 true (h_kind h) (h_path h) (h_cached_ino h)]> (t_handles s)) s)
  | None => Some (0, s)
  end.

Definition process_release_vfs_handle (h : Z) : P () :=
  if h =? 0 then mret ()
  else x ← handle_at h; put_handle h (VfsHandle 0 0 false 0 [] (h_cached_ino x)).

(** [fd_alloc] of fd.c on this table, for the operations of files. *)
Definition fd_alloc (obj start_fd : Z) : P Z := fun s =>
  match list_find (fun e => negb (e_used e)) (drop (Z.to_nat start_fd) (t_entries s)) with
  | Some (i, _) =>
      let d := start_fd + Z.of_nat i in
      l ← aset (t_entries s) d (FdEntry (Some PROCESS_VFS_FD_OPS) obj true);
      Some (d, set_entries l s)
  | None => Some (- SYSCALL_EMFILE, s)
  end.

(** ** Paths *)

(** A string copied from user memory into [cap] bytes. *)
Definition process_copy_user_string (cap : Z) (src : option (list Z)) : option (list Z) :=
  src ← src; if size_of src + 1 <? cap then Some src else None.

Definition process_resolve_path (cwd path : list Z) (cap : Z) : option (list Z) :=
  match path with
  | 47 :: _ => if size_of path <? cap then Some path else None
  | _ =>
      if cap <=? size_of cwd + 1 then None
      else
        let base := cwd ++ (if (0 <? size_of cwd) && negb (bool_decide (last cwd = Some 47)) then [47] else []) in
        if size_of base + size_of path <? cap then Some (base ++ path) else None
  end.

(** The system calls that take a path: copy it, resolve it, continue. *)
Definition with_path (src : option (list Z)) (k : list Z -> P Z) : P Z :=
  match process_copy_user_string 64 src with
  | None => mret (- SYSCALL_EINVAL)
  | Some path =>
      cwd ← reads t_cwd;
      match process_resolve_path cwd path 256 with
      | None => mret (- SYSCALL_ENAMETOOLONG)
      | Some resolved => k resolved
      end
  end.

(** ** Open and close *)

(** A handle for a file, and a descriptor for the handle. *)
Definition open_handle (fill : vfs_handle -> vfs_handle) : P Z :=
  h ← process_alloc_vfs_handle;
  if h =? 0 then mret (- SYSCALL_EMFILE)
  else
    x ← handle_at h;
    _ ← put_handle h (fill x);
    d ← fd_alloc h 3;
    if d <? 0 then _ ← process_release_vfs_handle h; mret d else mret d.

Definition process_open_vfs_from_parent (path : list Z) : P Z :=
  cwd ← reads t_cwd;
  match process_resolve_path cwd path 256 with
  | None => mret (- SYSCALL_ENAMETOOLONG)
  | Some resolved =>
      match list_find (fun f => string_equals_ci resolved (e_path f)) (g_vfs_files sh_image edit_image) with
      | Some (i, _) =>
          open_handle (fun x => VfsHandle (Z.of_nat i + 1) (h_offset x) (h_used x) 0 [] (h_cached_ino x))
      | None =>
          '(found, ino) ← on_fs (vfs_open_ino alloc sh_image edit_image (Some resolved));
          if negb (found =? 0) then
            open_handle (fun x => VfsHandle 0 (h_offset x) (h_used x) 1 (take 63 resolved) ino)
          else mret (- SYSCALL_ENOENT)
      end
  end.

Definition process_close_fd (d : Z) : P Z :=
  if (d <? 0) || (FD_TABLE_CAPACITY <=? d) then mret (- SYSCALL_EINVAL)
  else
    e ← entry_at d;
    if negb (e_used e) then mret (- SYSCALL_EBADF)
    else
      _ ← (if bool_decide (e_ops e = Some PROCESS_VFS_FD_OPS) then process_release_vfs_handle (e_object e) else mret ());
      _ ← put_entry_at d (FdEntry None 0 false);
      mret 0.

(** ** Reading and writing *)

(** The embedded file a pointer leads to. *)
Definition embedded_file (p : Z) : option vfs_file := aget (g_vfs_files sh_image edit_image) (p - 1).

Definition process_vfs_read (h : Z) (buffer : list Z) (count : Z) : P (Z * list Z) :=
  if h =? 0 then mret (- SYSCALL_EINVAL, buffer)
  else
    x ← handle_at h;
    if negb (h_used x) then mret (- SYSCALL_EINVAL, buffer)
    else if h_kind x =? 1 then
      disk ← on_fs mounted;
      '(n, out) ← (if negb (h_cached_ino x =? 0) && disk
                   then on_fs (on_disk (ext2_read alloc (h_cached_ino x) (u32 (h_offset x)) count buffer))
                   else on_fs (vfs_read alloc sh_image edit_image (Some (h_path x)) (h_offset x) buffer count));
      _ ← (if 0 <? n then put_handle h (with_offset (u64 (h_offset x + n)) x) else mret ());
      mret (n, out)
    else if h_file x =? 0 then mret (- SYSCALL_EINVAL, buffer)
    else
      f ← must (embedded_file (h_file x));
      let size := size_of (e_data f) in
      if size <=? h_offset x then mret (0, buffer)
      else
        let remaining := size - h_offset x in
        let n := if count <? remaining then count else remaining in
        data ← must (slice (e_data f) (h_offset x) n);
        out ← must (splice buffer 0 data);
        _ ← put_handle h (with_offset (h_offset x + n) x);
        mret (n, out).

Definition process_vfs_write (h : Z) (data : list Z) (count : Z) : P Z :=
  if h =? 0 then mret (- SYSCALL_EINVAL)
  else
    x ← handle_at h;
    if negb (h_used x) then mret (- SYSCALL_EINVAL)
    else if h_kind x =? 1 then
      n ← on_fs (vfs_write alloc (h_path x) (h_offset x) data count);
      _ ← (if 0 <? n then put_handle h (with_offset (u64 (h_offset x + n)) x) else mret ());
      mret n
    else mret (- SYSCALL_EACCES).

(** The operations of the other devices. *)
Context (dev_read : ops_ref -> Z -> list Z -> Z -> P (Z * list Z)) (dev_write : ops_ref -> Z -> list Z -> Z -> P Z).

(** The table of operations and the object of a descriptor that can be used. *)
Definition usable (d : Z) : P (option (ops_ref * Z)) :=
  if (d <? 0) || (FD_TABLE_CAPACITY <=? d) then mret None
  else
    e ← entry_at d;
    mret (if e_used e then (fun o => (o, e_object e)) <$> e_ops e else None).

Definition sys_read (d : Z) (buffer : list Z) (count : Z) : P (Z * list Z) :=
  u ← usable d;
  match u with
  | None => mret (- SYSCALL_EBADF, buffer)
  | Some (PROCESS_VFS_FD_OPS, obj) => process_vfs_read obj buffer count
  | Some (o, obj) => dev_read o obj buffer count
  end.

Definition sys_write (d : Z) (data : list Z) (count : Z) : P Z :=
  u ← usable d;
  match u with
  | None => mret (- SYSCALL_EBADF)
  | Some (PROCESS_VFS_FD_OPS, obj) => process_vfs_write obj data count
  | Some (o, obj) => dev_write o obj data count
  end.

(** ** Position *)

(** Kind and size of a path; the initial values when there is none. *)
Definition process_stat_path (path : list Z) (kind size : Z) (junk : vfs_stat) : P (Z * Z * Z) :=
  '(r, st) ← on_fs (vfs_stat_path alloc sh_image edit_image (Some path) junk);
  if r =? 0 then mret (- SYSCALL_ENOENT, kind, size) else mret (0, st_kind st, st_size st).

Definition sys_seek (junk : vfs_stat) (d offset whence : Z) : P Z :=
  if (d <? 0) || (FD_TABLE_CAPACITY <=? d) then mret (- SYSCALL_EINVAL)
  else
    e ← entry_at d;
    if negb (e_used e) || negb (bool_decide (e_ops e = Some PROCESS_VFS_FD_OPS)) then mret (- SYSCALL_EINVAL)
    else if e_object e =? 0 then mret (- SYSCALL_EINVAL)
    else
      x ← handle_at (e_object e);
      if negb (h_used x) then mret (- SYSCALL_EINVAL)
      else if (whence <? 0) || (2 <? whence) then mret (- SYSCALL_EINVAL)
      else
        size ← (if whence =? 2 then
                  if h_kind x =? 1 then '(_, _, sz) ← process_stat_path (h_path x) 0 0 junk; mret sz
                  else if negb (h_file x =? 0) then f ← must (embedded_file (h_file x)); mret (size_of (e_data f))
                  else mret 0
                else mret 0);
        new_off ← must (if whence =? 0 then Some offset
                        else if whence =? 1 then i64 (signed64 (h_offset x) + offset)
                        else i64 (signed64 size + offset));
        let new_off := if new_off <? 0 then 0 else new_off in
        _ ← put_handle (e_object e) (with_offset new_off x);
        mret new_off.

(** ** Names *)

Definition sys_open (src : option (list Z)) : P Z :=
  match process_copy_user_string 64 src with
  | None => mret (- SYSCALL_EINVAL)
  | Some path => process_open_vfs_from_parent path
  end.

Definition sys_close (d : Z) : P Z := process_close_fd d.

Definition sys_creat (src : option (list Z)) : P Z := with_path src (fun resolved =>
  r ← on_fs (vfs_create alloc (Some resolved));
  if r <? 0 then mret r else process_open_vfs_from_parent resolved).

Definition sys_unlink (src : option (list Z)) : P Z := with_path src (fun resolved => on_fs (vfs_unlink alloc (Some resolved))).
Definition sys_mkdir (src : option (list Z)) : P Z := with_path src (fun resolved => on_fs (vfs_mkdir alloc (Some resolved))).
Definition sys_write_file (src : option (list Z)) (data : list Z) (size : Z) : P Z :=
  with_path src (fun resolved => on_fs (vfs_write_all alloc (Some resolved) data size)).

(** These two do not resolve the path. *)
Definition sys_chmod (src : option (list Z)) (mode : Z) : P Z :=
  match process_copy_user_string 64 src with
  | None => mret (- SYSCALL_EINVAL)
  | Some path => on_fs (vfs_chmod alloc (Some path) (Z.land mode 511))
  end.

Definition sys_chown (src : option (list Z)) (uid gid : Z) : P Z :=
  match process_copy_user_string 64 src with
  | None => mret (- SYSCALL_EINVAL)
  | Some path => on_fs (vfs_chown alloc (Some path) (u16 uid) (u16 gid))
  end.

(** rax and, on success, rdx, r8 and the packed r9. *)
Definition sys_stat (src : option (list Z)) (junk : vfs_stat) : P (Z * option (Z * Z * Z)) :=
  match process_copy_user_string 64 src with
  | None => mret (- SYSCALL_EINVAL, None)
  | Some path =>
      cwd ← reads t_cwd;
      match process_resolve_path cwd path 256 with
      | None => mret (- SYSCALL_ENAMETOOLONG, None)
      | Some resolved =>
          '(r, st) ← on_fs (vfs_stat_path alloc sh_image edit_image (Some resolved) junk);
          if r =? 0 then mret (- SYSCALL_ENOENT, None)
          else mret (0, Some (st_kind st, st_size st, Z.lor (Z.lor (st_mode st) (Z.shiftl (st_uid st) 16)) (Z.shiftl (st_gid st) 32)))
      end
  end.

(** A string written to user memory of [cap] bytes; [false]: NULL or no room. *)
Definition process_write_user_string (dest : bool) (cap : Z) (src : list Z) : option (list Z) :=
  if negb dest || (cap =? 0) then None else Some (take (Z.to_nat (cap - 1)) src ++ [0]).

(** rax; rdx and r8 when they are set; the bytes written to the name buffer. *)
Definition sys_readdir (src : option (list Z)) (index : Z) (dest : bool) (cap : Z) : P (Z * option (Z * Z) * list Z) :=
  match process_copy_user_string 64 src with
  | None => mret (- SYSCALL_EINVAL, None, [])
  | Some path =>
      cwd ← reads t_cwd;
      match process_resolve_path cwd path 256 with
      | None => mret (- SYSCALL_ENAMETOOLONG, None, [])
      | Some resolved =>
          e ← on_fs (vfs_readdir alloc sh_image edit_image (Some resolved) (u32 index));
          match e with
          | None => mret (0, Some (0, 0), [])
          | Some e =>
              match process_write_user_string dest cap (de_name e) with
              | None => mret (- SYSCALL_EINVAL, Some (0, 0), [])
              | Some bytes => mret (1, Some (de_kind e, de_size e), bytes)
              end
          end
      end
  end.

(** The bytes at the address are printed before it is compared with NULL. *)
Definition sys_chdir (src : option (list Z)) (junk : vfs_stat) : P Z :=
  src ← must src;
  match process_copy_user_string 256 (Some src) with
  | None => mret (- SYSCALL_EINVAL)
  | Some path =>
      if negb (starts_with_slash path) then mret (- SYSCALL_EINVAL)
      else
        '(r, st) ← on_fs (vfs_stat_path alloc sh_image edit_image (Some path) junk);
        if negb (r =? 0) && (st_kind st =? VFS_NODE_DIRECTORY) then _ ← update (set_cwd path); mret 0
        else mret (- SYSCALL_ENOENT)
  end.

(** rax is 1 for the address of the buffer. *)
Definition sys_getcwd (dest : bool) (size : Z) : P (Z * list Z) :=
  if negb dest || (size =? 0) then mret (- SYSCALL_EINVAL, [])
  else
    cwd ← reads t_cwd;
    if size <? size_of cwd + 1 then mret (- SYSCALL_EINVAL, []) else mret (1, cwd ++ [0]).

End Files.

(** ** Descriptors and handles *)

Definition used (hs : list vfs_handle) (h : nat) : Prop := exists x, hs !! h = Some x /\ h_used x = true.

(** Descriptor [d] is open on handle [h]. *)
Definition refers (es : list fd_entry) (d h : nat) : Prop :=
  exists e, es !! d = Some e /\ e_used e = true /\ e_ops e = Some PROCESS_VFS_FD_OPS /\ e_object e = Z.of_nat h + 1.

(** The handles of the process whose first handle is [b]. *)
Definition own (b h : nat) : Prop := (b <= h < b + 8)%nat.

(** Every descriptor on a file has a handle of the process [b] that is in use, no
    two the same, and every handle of the process in use belongs to a descriptor. *)
Record linked (b : nat) (es : list fd_entry) (hs : list vfs_handle) : Prop := {
  lk_es : length es = 16%nat;
  lk_hs : (b + 8 <= length hs)%nat;
  lk_to : forall d e, es !! d = Some e -> e_used e = true -> e_ops e = Some PROCESS_VFS_FD_OPS ->
    exists h, e_object e = Z.of_nat h + 1 /\ own b h /\ used hs h;
  lk_one : forall d d' h, refers es d h -> refers es d' h -> d = d';
  lk_from : forall h, own b h -> used hs h -> exists d, refers es d h }.

Lemma refers_insert es d e d' h :
  (d < length es)%nat ->
  refers (<[d := e]> es) d' h <->
  (d' = d /\ e_used e = true /\ e_ops e = Some PROCESS_VFS_FD_OPS /\ e_object e = Z.of_nat h + 1 \/ d' <> d /\ refers es d' h).
Proof.
  intros Hd. unfold refers. destruct (decide (d' = d)) as [->|Hne].
  - rewrite list_lookup_insert_eq by done. split; [intros (x&[= <-]&?); by left|]. intros [(_&?)|[? ?]]; [|done]. by exists e.
  - rewrite list_lookup_insert_ne by done. split; [by right|]. by intros [[? _]|[_ ?]].
Qed.

Lemma used_insert hs i x h : (i < length hs)%nat -> used (<[i := x]> hs) h <-> (h = i /\ h_used x = true \/ h <> i /\ used hs h).
Proof.
  intros Hi. unfold used. destruct (decide (h = i)) as [->|Hne].
  - rewrite list_lookup_insert_eq by done. split; [intros (y&[= <-]&?); by left|]. intros [(_&?)|[? _]]; [|done]. by exists x.
  - rewrite list_lookup_insert_ne by done. split; [by right|]. by intros [[? _]|[_ ?]].
Qed.

Lemma linked_same b es hs i x x' : linked b es hs -> hs !! i = Some x -> h_used x' = h_used x -> linked b es (<[i := x']> hs).
Proof.
  intros [L1 L2 L3 L4 L5] Hx Hu. pose proof (lookup_lt_Some _ _ _ Hx) as Hi.
  assert (E : forall h, used (<[i := x']> hs) h <-> used hs h).
  { intros h. rewrite used_insert by done. rewrite Hu. split; [|destruct (decide (h = i)) as [->|]; [|by right]].
    - intros [[-> ?]|[_ ?]]; [by exists x|done].
    - intros (y&Hy&?). left. split; [done|congruence]. }
  split; [done|by rewrite length_insert| |done|].
  - intros d e He Hue Ho. destruct (L3 d e He Hue Ho) as (h&?&?&?). exists h. split; [done|]. split; [done|]. by apply E.
  - intros h Hw Hh. apply L5; [done|]. by apply E.
Qed.

Lemma linked_open b es hs d i e x x' :
  linked b es hs -> own b i -> hs !! i = Some x -> h_used x = false -> h_used x' = true -> es !! d = Some e -> e_used e = false ->
  linked b (<[d := FdEntry (Some PROCESS_VFS_FD_OPS) (Z.of_nat i + 1) true]> es) (<[i := x']> hs).
Proof.
  intros [L1 L2 L3 L4 L5] Hw Hx Hux Hux' He Hue. pose proof (lookup_lt_Some _ _ _ Hx) as Hi. pose proof (lookup_lt_Some _ _ _ He) as Hd.
  assert (Hno : ~ used hs i) by (intros (y&Hy&?); congruence).
  assert (Hnr : forall d', ~ refers es d' i).
  { intros d' (e'&He'&Hue'&Ho'&Hob'). destruct (L3 d' e' He' Hue' Ho') as (h&Hh&_&Hu). assert (h = i) as -> by lia. done. }
  split; [by rewrite length_insert|by rewrite length_insert| | |].
  - intros d' e' He' Hue' Ho'. destruct (decide (d' = d)) as [->|Hne].
    + rewrite list_lookup_insert_eq in He' by done. injection He' as <-. exists i. split; [done|]. split; [done|]. apply used_insert; [done|]. by left.
    + rewrite list_lookup_insert_ne in He' by done. destruct (L3 d' e' He' Hue' Ho') as (h&Hh&Hwh&Hu). exists h. split; [done|]. split; [done|].
      apply used_insert; [done|]. destruct (decide (h = i)) as [->|]; [by left|by right].
  - intros d1 d2 h. rewrite !refers_insert by done. simpl.
    intros [(->&_&_&E1)|(N1&R1)] [(->&_&_&E2)|(N2&R2)]; [done| | |by eapply L4].
    + assert (h = i) as -> by lia. by destruct (Hnr d2).
    + assert (h = i) as -> by lia. by destruct (Hnr d1).
  - intros h Hwh. rewrite used_insert by done. intros [[-> _]|[Hne Hu]].
    + exists d. apply refers_insert; [done|]. by left.
    + destruct (L5 h Hwh Hu) as [d' Hd']. exists d'. apply refers_insert; [done|]. right. split; [|done].
      intros ->. destruct Hd' as (e'&He'&Hu'&_). congruence.
Qed.

Lemma linked_close b es hs d h e x :
  linked b es hs -> es !! d = Some e -> e_used e = true -> e_ops e = Some PROCESS_VFS_FD_OPS -> e_object e = Z.of_nat h + 1 ->
  h_used x = false -> linked b (<[d := FdEntry None 0 false]> es) (<[h := x]> hs).
Proof.
  intros [L1 L2 L3 L4 L5] He Hue Ho Hob Hx. pose proof (lookup_lt_Some _ _ _ He) as Hd.
  assert (Hr : refers es d h) by (by exists e).
  destruct (L3 d e He Hue Ho) as (h'&Hh'&_&Hu). assert (h' = h) as -> by lia.
  assert (Hi : (h < length hs)%nat) by (destruct Hu as (y&Hy&_); by eapply lookup_lt_Some).
  split; [by rewrite length_insert|by rewrite length_insert| | |].
  - intros d' e' He' Hue' Ho'. destruct (decide (d' = d)) as [->|Hne].
    + rewrite list_lookup_insert_eq in He' by done. by injection He' as <-.
    + rewrite list_lookup_insert_ne in He' by done. destruct (L3 d' e' He' Hue' Ho') as (k&Hk&Hwk&Huk). exists k. split; [done|]. split; [done|].
      apply used_insert; [done|]. right. split; [|done]. intros ->. apply Hne. apply (L4 d' d h); [by exists e'|done].
  - intros d1 d2 k. rewrite !refers_insert by done. intros [(_&[=]&_)|(_&R1)] [(_&[=]&_)|(_&R2)]. by eapply L4.
  - intros k Hwk. rewrite used_insert by done. intros [[_ ?]|[Hne Hk]]; [congruence|]. destruct (L5 k Hwk Hk) as [d' Hd']. exists d'.
    apply refers_insert; [done|]. right. split; [|done]. intros ->. destruct Hd' as (e'&He'&_&_&Ho'). apply Hne. simplify_eq. lia.
Qed.

Lemma linked_close_other b es hs d e :
  linked b es hs -> es !! d = Some e -> e_ops e <> Some PROCESS_VFS_FD_OPS -> linked b (<[d := FdEntry None 0 false]> es) hs.
Proof.
  intros [L1 L2 L3 L4 L5] He Ho. pose proof (lookup_lt_Some _ _ _ He) as Hd.
  split; [by rewrite length_insert|done| | |].
  - intros d' e' He' Hue' Ho'. destruct (decide (d' = d)) as [->|Hne].
    + rewrite list_lookup_insert_eq in He' by done. by injection He' as <-.
    + rewrite list_lookup_insert_ne in He' by done. eauto.
  - intros d1 d2 k. rewrite !refers_insert by done. intros [(_&[=]&_)|(_&R1)] [(_&[=]&_)|(_&R2)]. by eapply L4.
  - intros k Hwk Hk. destruct (L5 k Hwk Hk) as [d' Hd']. exists d'. apply refers_insert; [done|]. right. split; [|done].
    intros ->. destruct Hd' as (e'&He'&_&Ho'&_). congruence.
Qed.

(** What a process sees of the handles is its own eight. *)
Lemma linked_frame b es hs hs' :
  linked b es hs -> length hs' = length hs -> (forall h, own b h -> hs' !! h = hs !! h) -> linked b es hs'.
Proof.
  intros [L1 L2 L3 L4 L5] Hl Hh. assert (Hu : forall h, own b h -> used hs' h <-> used hs h) by (intros h Hw; unfold used; by rewrite Hh).
  split; [done|by rewrite Hl| |done|].
  - intros d e He Hue Ho. destruct (L3 d e He Hue Ho) as (h&?&Hw&?). exists h. split; [done|]. split; [done|]. by apply Hu.
  - intros h Hw Hus. apply L5; [done|]. by apply Hu.
Qed.

(** ** Every call keeps the tables linked *)

(** If the action returns, its result and the new state are in the relation. *)
Definition leads {T A} (m : ST T A) (s : T) (Q : A -> T -> Prop) : Prop := forall x s', m s = Some (x, s') -> Q x s'.

Lemma leads_bind {T A B} (m : ST T A) (k : A -> ST T B) s Q : leads m s (fun x s' => leads (k x) s' Q) -> leads (m ≫= k) s Q.
Proof. intros H y s2. unfold mbind, ST_bind. destruct (m s) as [[x s1]|] eqn:E; [|done]. by apply H. Qed.
Lemma leads_ret {T A} (x : A) (s : T) (Q : A -> T -> Prop) : Q x s -> leads (mret x) s Q.
Proof. by intros H y s' [= <- <-]. Qed.
Lemma leads_reads {T A} (f : T -> A) s (Q : A -> T -> Prop) : Q (f s) s -> leads (reads f) s Q.
Proof. by intros H y s' [= <- <-]. Qed.
Lemma leads_must {T A} (o : option A) (s : T) (Q : A -> T -> Prop) : (forall x, o = Some x -> Q x s) -> leads (must o) s Q.
Proof. intros H y s'. unfold must. destruct o; [|done]. intros [= <- <-]. by apply H. Qed.
Lemma leads_mono {T A} (m : ST T A) s (Q R : A -> T -> Prop) : leads m s Q -> (forall x s', Q x s' -> R x s') -> leads m s R.
Proof. intros H HQ x s' E. by apply HQ, H. Qed.

Section Calls.
Context {X : Type} (alloc : nat -> Z -> option (list Z)) (sh edit : list Z).
Abbreviation files := (files (X := X)).
Context (dev_read : ops_ref -> Z -> list Z -> Z -> ST files (Z * list Z)) (dev_write : ops_ref -> Z -> list Z -> Z -> ST files Z).
Implicit Types (s : files).

Definition ok s : Prop := linked (t_base s) (t_entries s) (t_handles s).

(** The file system may have changed, the tables have not. *)
Definition same_tables s s' : Prop :=
  t_entries s' = t_entries s /\ t_handles s' = t_handles s /\ t_cwd s' = t_cwd s /\ t_base s' = t_base s.

(** Only handles of the caller have changed. *)
Definition confined s s' : Prop :=
  t_base s' = t_base s /\ length (t_handles s') = length (t_handles s) /\
  forall h, ~ own (t_base s) h -> t_handles s' !! h = t_handles s !! h.

(** Only the handle that [d] refers to has changed, and not whether it is used. *)
Definition moves (d : Z) s s' : Prop :=
  t_entries s' = t_entries s /\ t_cwd s' = t_cwd s /\ t_base s' = t_base s /\ length (t_handles s') = length (t_handles s) /\
  forall h, t_handles s' !! h = t_handles s !! h \/
    refers (t_entries s) (Z.to_nat d) h /\ h_used <$> t_handles s' !! h = h_used <$> t_handles s !! h.

(** Descriptor [d] is new and has a handle of its own. *)
Definition opened (d : Z) s s' : Prop :=
  3 <= d < 16 /\ t_cwd s' = t_cwd s /\
  (exists e, t_entries s !! Z.to_nat d = Some e /\ e_used e = false) /\
  (forall d', d' <> Z.to_nat d -> t_entries s' !! d' = t_entries s !! d') /\
  exists h, refers (t_entries s') (Z.to_nat d) h /\ ~ used (t_handles s) h /\ forall h', h' <> h -> t_handles s' !! h' = t_handles s !! h'.

Lemma same_tables_refl s : same_tables s s.
Proof. done. Qed.

Lemma leads_fs {A} (m : ST (vfs (X := X)) A) s : leads (on_fs m) s (fun _ s' => same_tables s s').
Proof. intros x s'. unfold on_fs. destruct (m (t_fs s)) as [[r v]|]; [|done]. by intros [= <- <-]. Qed.

Lemma leads_handle h s (Q : vfs_handle -> files -> Prop) :
  (forall x, aget (t_handles s) (h - 1) = Some x -> Q x s) -> leads (handle_at h) s Q.
Proof. intros H x s'. unfold handle_at. destruct (aget _ _) as [y|]; [|done]. intros [= <- <-]. by apply H. Qed.

Lemma leads_entry d s (Q : fd_entry -> files -> Prop) :
  (forall e, aget (t_entries s) d = Some e -> Q e s) -> leads (entry_at d) s Q.
Proof. intros H x s'. unfold entry_at. destruct (aget _ _) as [y|]; [|done]. intros [= <- <-]. by apply H. Qed.

Lemma leads_put_handle h y s (Q : () -> files -> Prop) :
  (0 <= h - 1 < size_of (t_handles s) -> Q tt (set_handles (<[Z.to_nat (h - 1) := y]> (t_handles s)) s)) -> leads (put_handle h y) s Q.
Proof.
  intros H x s'. unfold put_handle, try_update, aset. destruct (_ && _) eqn:E; [|done]. intros [= <- <-]. bools. apply H. lia.
Qed.

(** Reading, writing and seeking store a new offset in the handle. *)
Lemma moves_offset d s s1 h x off :
  same_tables s s1 -> refers (t_entries s) (Z.to_nat d) (Z.to_nat (h - 1)) -> aget (t_handles s) (h - 1) = Some x ->
  moves d s (set_handles (<[Z.to_nat (h - 1) := with_offset off x]> (t_handles s1)) s1).
Proof.
  intros (E1&E2&E3&E4) Hr Hx. unfold moves. simpl. rewrite E1, E2, E3, length_insert. split_and!; [done|done|done|done|]. intros k.
  destruct (decide (k = Z.to_nat (h - 1))) as [->|Hne]; [right|left; by rewrite list_lookup_insert_ne].
  unfold aget in Hx. destruct (0 <=? h - 1); [|done].
  split; [done|]. rewrite list_lookup_insert_eq by (by eapply lookup_lt_Some). rewrite Hx. done.
Qed.

Lemma same_moves d s s' : same_tables s s' -> moves d s s'.
Proof. intros (E1&E2&E3&E4). unfold moves. rewrite E1, E2, E3. split_and!; [done|done|done|done|]. intros h. by left. Qed.

Lemma same_confined s s' : same_tables s s' -> confined s s'.
Proof. intros (_&E2&_&E4). unfold confined. by rewrite E2. Qed.

Lemma confined_trans s s1 s2 : confined s s1 -> confined s1 s2 -> confined s s2.
Proof.
  intros (A1&A2&A3) (B1&B2&B3). unfold confined. rewrite B1, B2. split_and!; [done|done|]. intros h Hh.
  rewrite B3 by by rewrite A1. by apply A3.
Qed.

(** The handle of a descriptor is the caller's. *)
Lemma refers_own s d h : ok s -> refers (t_entries s) d h -> own (t_base s) h.
Proof.
  intros Hok (e&He&Hu&Ho&Eo). destruct (lk_to _ _ _ Hok d e He Hu Ho) as (h'&Hh'&Hw&_). by assert (h = h') as -> by lia.
Qed.

Lemma moves_confined d s s' : ok s -> moves d s s' -> confined s s'.
Proof.
  intros Hok (_&_&E3&E4&Hh). split_and!; [done|done|]. intros h Hw. destruct (Hh h) as [?|[Hr _]]; [done|].
  destruct Hw. by eapply refers_own.
Qed.

Lemma ok_moves d s s' : ok s -> moves d s s' -> ok s'.
Proof.
  intros [L1 L2 L3 L4 L5] (E1&_&Eb&El&Hh). assert (Hu : forall h, used (t_handles s') h <-> used (t_handles s) h).
  { intros h. unfold used. destruct (Hh h) as [->|[_ E]]; [done|].
    destruct (t_handles s' !! h) as [y|], (t_handles s !! h) as [x|]; simpl in E; try done.
    injection E as E. split; intros (z&[= <-]&?); eexists; (split; [done|congruence]). }
  split; rewrite ?E1, ?El, ?Eb; try done.
  - intros d' e He Hue Ho. destruct (L3 d' e He Hue Ho) as (h&?&?&?). exists h. split; [done|]. split; [done|]. by apply Hu.
  - intros h. rewrite Hu. apply L5.
Qed.

(** Close and the other calls on the tables. *)
Lemma read_moves d h buffer count s :
  refers (t_entries s) (Z.to_nat d) (Z.to_nat (h - 1)) -> 0 < h -> leads (process_vfs_read alloc sh edit h buffer count) s (fun _ s' => moves d s s').
Proof.
  intros Hr Hh. unfold process_vfs_read. destruct (Z.eqb_spec h 0) as [|_]; [lia|].
  apply leads_bind, leads_handle. intros x Hx. destruct (negb (h_used x)); [by apply leads_ret, same_moves|].
  destruct (h_kind x =? 1).
  - apply leads_bind. eapply leads_mono; [apply leads_fs|]. intros disk s1 H1. apply leads_bind.
    eapply (leads_mono _ _ (fun _ s2 => same_tables s s2)).
    { destruct (_ && _); (eapply leads_mono; [apply leads_fs|]); intros r s2 (A&B&C&D); destruct H1 as (A1&B1&C1&D1); repeat split; congruence. }
    intros [n out] s2 H2. apply leads_bind. destruct (0 <? n).
    + apply leads_put_handle. intros _. apply leads_ret. by apply moves_offset.
    + apply leads_ret, leads_ret. by apply same_moves.
  - destruct (h_file x =? 0); [by apply leads_ret, same_moves|]. apply leads_bind, leads_must. intros f _.
    cbv zeta. destruct (_ <=? _); [by apply leads_ret, same_moves|].
    apply leads_bind, leads_must. intros data _. apply leads_bind, leads_must. intros out _.
    apply leads_bind, leads_put_handle. intros _. apply leads_ret. by apply moves_offset.
Qed.

Lemma write_moves d h data count s :
  refers (t_entries s) (Z.to_nat d) (Z.to_nat (h - 1)) -> 0 < h -> leads (process_vfs_write alloc h data count) s (fun _ s' => moves d s s').
Proof.
  intros Hr Hh. unfold process_vfs_write. destruct (Z.eqb_spec h 0) as [|_]; [lia|].
  apply leads_bind, leads_handle. intros x Hx. destruct (negb (h_used x)); [by apply leads_ret, same_moves|].
  destruct (h_kind x =? 1); [|by apply leads_ret, same_moves].
  apply leads_bind. eapply leads_mono; [apply leads_fs|]. intros n s1 H1. apply leads_bind. destruct (0 <? n).
  - apply leads_put_handle. intros _. apply leads_ret. by apply moves_offset.
  - apply leads_ret, leads_ret. by apply same_moves.
Qed.

(** The handle of a descriptor on a file. *)
Lemma entry_refers d e s :
  ok s -> aget (t_entries s) d = Some e -> e_used e = true -> e_ops e = Some PROCESS_VFS_FD_OPS ->
  refers (t_entries s) (Z.to_nat d) (Z.to_nat (e_object e - 1)) /\ 0 < e_object e.
Proof.
  intros Hok He Hu Ho. unfold aget in He. destruct (0 <=? d); [|done].
  destruct (lk_to _ _ _ Hok _ _ He Hu Ho) as (h&Hh&_). split; [|lia]. exists e. split_and!; [done|done|done|lia].
Qed.

Lemma seek_moves junk d offset whence s :
  ok s -> leads (sys_seek alloc sh edit junk d offset whence) s (fun _ s' => moves d s s').
Proof.
  intros Hok. unfold sys_seek. destruct (_ || _); [by apply leads_ret, same_moves|].
  apply leads_bind, leads_entry. intros e He. destruct (e_used e) eqn:Hu; cbn [negb orb]; [|by apply leads_ret, same_moves].
  case_bool_decide as Ho; cbn [negb]; [|by apply leads_ret, same_moves].
  destruct (entry_refers d e s Hok He Hu Ho) as [Hr Hpos]. destruct (Z.eqb_spec (e_object e) 0) as [|_]; [lia|].
  apply leads_bind, leads_handle. intros x Hx. destruct (negb (h_used x)); [by apply leads_ret, same_moves|].
  destruct (_ || _); [by apply leads_ret, same_moves|].
  apply leads_bind. eapply (leads_mono _ _ (fun _ s1 => same_tables s s1)).
  { destruct (whence =? 2); [|by apply leads_ret]. destruct (h_kind x =? 1).
    - apply leads_bind. unfold process_stat_path. apply leads_bind. eapply leads_mono; [apply leads_fs|].
      intros [r st] s1 H1. destruct (r =? 0); apply leads_ret, leads_ret; done.
    - destruct (negb _); [|by apply leads_ret]. apply leads_bind, leads_must. intros. by apply leads_ret. }
  intros size s1 H1. apply leads_bind, leads_must. intros off _. cbv zeta.
  apply leads_bind, leads_put_handle. intros _. apply leads_ret. by apply moves_offset.
Qed.

(** A call that opens a file: a new descriptor, or nothing new. *)
Definition open_result (d : Z) s s' : Prop :=
  ok s' /\ confined s s' /\ (opened d s s' \/ d < 0 /\ t_entries s' = t_entries s /\ t_cwd s' = t_cwd s).

Lemma open_handle_opens fill s :
  ok s -> (forall x, h_used (fill x) = h_used x) -> leads (open_handle fill) s (fun d s' => open_result d s s').
Proof.
  intros Hok Hf. unfold open_handle. apply leads_bind. intros h s1. unfold process_alloc_vfs_handle.
  destruct (list_find _ (own_handles _ _)) as [[j x]|] eqn:Hfind.
  2:{ intros [= <- <-]. rewrite Z.eqb_refl. apply leads_ret. split; [done|]. split; [by apply same_confined|]. right. done. }
  apply list_find_Some in Hfind as (Hx&Hux%Is_true_true&_). apply negb_true_iff in Hux.
  apply lookup_take_Some in Hx as [Hx Hj]. rewrite lookup_drop in Hx. cbv zeta. set (i := (t_base s + j)%nat) in *.
  assert (Hw : own (t_base s) i) by (unfold own, HANDLE_CAPACITY in *; lia).
  set (x1 := VfsHandle 0 0 true _ _ _). intros [= <- <-]. destruct (Z.eqb_spec (Z.of_nat i + 1) 0) as [|_]; [lia|].
  pose proof (lookup_lt_Some _ _ _ Hx) as Hi. replace (Z.to_nat (Z.of_nat i + 1 - 1)) with i by lia.
  apply leads_bind, leads_handle. intros y. cbn [t_handles set_handles].
  replace (Z.of_nat i + 1 - 1) with (Z.of_nat i) by lia. rewrite aget_nat, list_lookup_insert_eq by done. intros [= <-].
  apply leads_bind, leads_put_handle. intros _. cbn [t_handles set_handles]. replace (Z.to_nat (Z.of_nat i + 1 - 1)) with i by lia.
  rewrite list_insert_insert_eq. set (s2 := set_handles _ _).
  assert (Hu1 : h_used (fill x1) = true) by (by rewrite Hf).
  assert (Hnu : ~ used (t_handles s) i) by (intros (z&Hz&?); congruence).
  apply leads_bind. intros d s3. unfold fd_alloc. unfold s2 at 1 2. cbn [t_entries set_handles].
  destruct (list_find _ (drop _ (t_entries s))) as [[k e]|] eqn:Hfe.
  - apply list_find_Some in Hfe as (He&Hue%Is_true_true&_). apply negb_true_iff in Hue. rewrite lookup_drop in He.
    change (Z.to_nat 3) with 3%nat in He.
    pose proof (lookup_lt_Some _ _ _ He) as Hk. pose proof (lk_es _ _ _ Hok) as Hl.
    unfold aset. destruct (_ && _) eqn:Eb; [|done]. cbn [mbind option_bind]. intros [= <- <-].
    destruct (Z.ltb_spec (3 + Z.of_nat k) 0) as [|_]; [lia|]. apply leads_ret.
    replace (Z.to_nat (3 + Z.of_nat k)) with (3 + k)%nat by lia.
    split; [by eapply linked_open|]. split.
    { split_and!; [done|unfold s2; simpl; by rewrite length_insert|]. intros h' Hh'. unfold s2; simpl. apply list_lookup_insert_ne. congruence. }
    left. unfold opened. replace (Z.to_nat (3 + Z.of_nat k)) with (3 + k)%nat by lia. simpl.
    split_and!; [lia|lia|done|by exists e|intros d' Hd'; by rewrite list_lookup_insert_ne|].
    exists i. split_and!; [|done|intros h' Hh'; by rewrite list_lookup_insert_ne].
    apply refers_insert; [done|]. by left.
  - intros [= <- <-]. cbn [Z.ltb]. apply leads_bind. unfold process_release_vfs_handle. destruct (Z.eqb_spec (Z.of_nat i + 1) 0) as [|_]; [lia|].
    apply leads_bind, leads_handle. intros z _. apply leads_put_handle. intros _. apply leads_ret.
    replace (Z.to_nat (Z.of_nat i + 1 - 1)) with i by lia. unfold s2. cbn [t_handles set_handles]. rewrite list_insert_insert_eq.
    split; [by eapply linked_same|]. split; [|right; done].
    split_and!; [done|simpl; by rewrite length_insert|]. intros h' Hh'. simpl. apply list_lookup_insert_ne. congruence.
Qed.

Lemma same_open d s s1 s2 : same_tables s s1 -> open_result d s1 s2 -> open_result d s s2.
Proof.
  intros Hs (Hok&Hc&H). pose proof Hs as (E1&E2&E3&_). split; [done|]. split; [eapply confined_trans; [by apply same_confined|done]|].
  unfold opened in *. rewrite E1, E2, E3 in H. done.
Qed.

Lemma ok_same s s' : ok s -> same_tables s s' -> ok s'.
Proof. intros H (E1&E2&_&E4). unfold ok. by rewrite E1, E2, E4. Qed.

Lemma open_opens path s : ok s -> leads (process_open_vfs_from_parent alloc sh edit path) s (fun d s' => open_result d s s').
Proof.
  intros Hok. unfold process_open_vfs_from_parent. apply leads_bind, leads_reads.
  destruct (process_resolve_path _ _ _) as [resolved|]; [|apply leads_ret; split; [done|split; [by apply same_confined|by right]]].
  destruct (list_find _ _) as [[i f]|]; [by apply open_handle_opens|].
  apply leads_bind. eapply leads_mono; [apply leads_fs|]. intros [found ino] s1 H1.
  destruct (negb _).
  - eapply leads_mono; [apply open_handle_opens; [by eapply ok_same|done]|]. intros d s2 H2. by eapply same_open.
  - apply leads_ret. split; [by eapply ok_same|]. split; [by apply same_confined|]. right. destruct H1 as (E1&_&E3&_). done.
Qed.

(** Closing frees the descriptor and its handle. *)
Lemma close_frees d s :
  ok s -> leads (process_close_fd d) s (fun r s' => ok s' /\ confined s s' /\
    (r = 0 -> (forall d', d' <> Z.to_nat d -> t_entries s' !! d' = t_entries s !! d') /\
       (forall h, refers (t_entries s) (Z.to_nat d) h -> ~ used (t_handles s') h) /\
       exists e, t_entries s' !! Z.to_nat d = Some e /\ e_used e = false) /\
    (r <> 0 -> s' = s)).
Proof.
  intros Hok. unfold process_close_fd. destruct (_ || _) eqn:Hrange; [apply leads_ret; (split; [done|]); (split; [by apply same_confined|done])|]. bools.
  apply leads_bind, leads_entry. intros e He. pose proof He as He'. unfold aget in He'. destruct (0 <=? d); [|done].
  pose proof (lookup_lt_Some _ _ _ He') as Hd.
  destruct (e_used e) eqn:Hu; cbn [negb]; [|apply leads_ret; (split; [done|]); (split; [by apply same_confined|done])].
  apply leads_bind. case_bool_decide as Ho.
  - destruct (entry_refers d e s Hok He Hu Ho) as [Hr Hpos]. unfold process_release_vfs_handle.
    destruct (Z.eqb_spec (e_object e) 0) as [|_]; [lia|]. apply leads_bind, leads_handle. intros x Hx.
    apply leads_put_handle. intros Hh. apply leads_bind. intros [] s1. unfold put_entry_at, try_update, aset. cbn [t_entries set_handles].
    destruct (_ && _); [|done]. intros [= <-]. apply leads_ret. unfold ok. simpl.
    assert (Hl : linked (t_base s) (<[Z.to_nat d := FdEntry None 0 false]> (t_entries s)) (<[Z.to_nat (e_object e - 1) := VfsHandle 0 0 false 0 [] (h_cached_ino x)]> (t_handles s)))
      by (eapply linked_close; [done|done|done|done|lia|done]).
    split; [done|]. split.
    { split_and!; [done|simpl; by rewrite length_insert|]. intros h Hh'. simpl. apply list_lookup_insert_ne. intros <-. apply Hh'. by eapply refers_own. }
    split; [|done]. intros _. split_and!.
    + intros d' Hd'. by rewrite list_lookup_insert_ne.
    + intros h Hh' Huh. destruct Hh' as (e'&E'&_&_&Eo). assert (h = Z.to_nat (e_object e - 1)) as -> by (simplify_eq; lia).
      apply used_insert in Huh; [|lia]. destruct Huh as [[_ ?]|[? _]]; done.
    + eexists. rewrite list_lookup_insert_eq by done. done.
  - apply leads_ret. apply leads_bind. intros [] s1. unfold put_entry_at, try_update, aset.
    destruct (_ && _); [|done]. intros [= <-]. apply leads_ret. unfold ok. simpl. split; [by eapply linked_close_other|]. split; [done|]. split; [|done].
    intros _. split_and!.
    + intros d' Hd'. by rewrite list_lookup_insert_ne.
    + intros h (e'&E'&_&Eo&_). congruence.
    + eexists. rewrite list_lookup_insert_eq by done. done.
Qed.

(** ** The calls of a process *)

Inductive call :=
  | Open (path : option (list Z)) | Creat (path : option (list Z)) | Close (d : Z)
  | Read (d : Z) (buffer : list Z) (count : Z) | Write (d : Z) (data : list Z) (count : Z) | Seek (d offset whence : Z)
  | Unlink (path : option (list Z)) | Mkdir (path : option (list Z)) | WriteFile (path : option (list Z)) (data : list Z) (size : Z)
  | Chmod (path : option (list Z)) (mode : Z) | Chown (path : option (list Z)) (uid gid : Z)
  | Stat (path : option (list Z)) | Readdir (path : option (list Z)) (index : Z) (dest : bool) (cap : Z)
  | Chdir (path : option (list Z)) | Getcwd (dest : bool) (size : Z).

(** The result in rax; [junk] is the uninitialised structure on the stack. *)
Definition run_call (junk : vfs_stat) (q : call) : ST files Z :=
  match q with
  | Open p => sys_open alloc sh edit p
  | Creat p => sys_creat alloc sh edit p
  | Close d => sys_close d
  | Read d b n => '(r, _) ← sys_read alloc sh edit dev_read d b n; mret r
  | Write d data n => sys_write alloc dev_write d data n
  | Seek d off wh => sys_seek alloc sh edit junk d off wh
  | Unlink p => sys_unlink alloc p
  | Mkdir p => sys_mkdir alloc p
  | WriteFile p data n => sys_write_file alloc p data n
  | Chmod p m => sys_chmod alloc p m
  | Chown p u g => sys_chown alloc p u g
  | Stat p => '(r, _) ← sys_stat alloc sh edit p junk; mret r
  | Readdir p i d c => '(r, _, _) ← sys_readdir alloc sh edit p i d c; mret r
  | Chdir p => sys_chdir alloc sh edit p junk
  | Getcwd d n => '(r, _) ← sys_getcwd d n; mret r
  end.

(** What a call may do to the tables. *)
Definition effect (q : call) (r : Z) s s' : Prop :=
  match q with
  | Open _ | Creat _ => opened r s s' \/ r < 0 /\ t_entries s' = t_entries s
  | Close d =>
      (r = 0 -> (forall d', d' <> Z.to_nat d -> t_entries s' !! d' = t_entries s !! d') /\
         (forall h, refers (t_entries s) (Z.to_nat d) h -> ~ used (t_handles s') h) /\
         exists e, t_entries s' !! Z.to_nat d = Some e /\ e_used e = false) /\ (r <> 0 -> s' = s)
  | Read d _ _ | Write d _ _ | Seek d _ _ => moves d s s'
  | _ => t_entries s' = t_entries s /\ t_handles s' = t_handles s
  end.

(** The other devices leave the tables of the process alone. *)
Definition devices_keep_tables : Prop :=
  (forall o obj b n s, leads (dev_read o obj b n) s (fun _ s' => same_tables s s')) /\
  (forall o obj d n s, leads (dev_write o obj d n) s (fun _ s' => same_tables s s')).

Lemma usable_leads d s :
  ok s -> leads (usable d) s (fun u s' => s' = s /\
    forall obj, u = Some (PROCESS_VFS_FD_OPS, obj) -> refers (t_entries s) (Z.to_nat d) (Z.to_nat (obj - 1)) /\ 0 < obj).
Proof.
  intros Hok. unfold usable. destruct (_ || _); [by apply leads_ret|]. apply leads_bind, leads_entry. intros e He. apply leads_ret.
  split; [done|]. intros obj. destruct (e_used e) eqn:Hu; [|done]. destruct (e_ops e) as [o|] eqn:Ho; simpl; [|done].
  intros [= -> <-]. by eapply entry_refers.
Qed.

Lemma with_path_leads p k s (Q : Z -> files -> Prop) :
  (forall r, r < 0 -> Q r s) -> (forall resolved, leads (k resolved) s Q) -> leads (with_path p k) s Q.
Proof.
  intros He Hk. unfold with_path. destruct (process_copy_user_string 64 p) as [path|]; [|by apply leads_ret, He].
  apply leads_bind, leads_reads. destruct (process_resolve_path _ _ _) as [resolved|]; [apply Hk|by apply leads_ret, He].
Qed.

(** A call that touches only the file system. *)
Lemma only_fs (m : ST files Z) q s :
  ok s -> (forall r s', same_tables s s' -> effect q r s s') -> leads m s (fun _ s' => same_tables s s') ->
  leads m s (fun r s' => ok s' /\ confined s s' /\ effect q r s s').
Proof.
  intros Hok He Hm. eapply leads_mono; [exact Hm|]. intros r s' H. split; [by eapply ok_same|]. split; [by apply same_confined|by apply He].
Qed.

Lemma resolved_fs p (m : list Z -> ST (vfs (X := X)) Z) s : leads (with_path p (fun r => on_fs (m r))) s (fun _ s' => same_tables s s').
Proof. apply with_path_leads; [done|]. intros. apply leads_fs. Qed.

Lemma moved_call m d q s :
  ok s -> (forall r s', moves d s s' -> effect q r s s') -> leads m s (fun _ s' => moves d s s') ->
  leads m s (fun (r : Z) s' => ok s' /\ confined s s' /\ effect q r s s').
Proof.
  intros Hok He Hm. eapply leads_mono; [exact Hm|]. intros r s' H. split; [exact (ok_moves d s s' Hok H)|].
  split; [exact (moves_confined d s s' Hok H)|by apply He].
Qed.

Lemma read_call d b n s : devices_keep_tables -> ok s -> leads (sys_read alloc sh edit dev_read d b n) s (fun _ s' => moves d s s').
Proof.
  intros [Hdr _] Hok. unfold sys_read. apply leads_bind. eapply leads_mono; [by apply usable_leads|]. intros u s1 [-> Hu].
  destruct u as [[o obj]|]; [|by apply leads_ret, same_moves].
  destruct o; try (eapply leads_mono; [apply Hdr|]; intros; by apply same_moves). destruct (Hu obj eq_refl). by apply read_moves.
Qed.

Lemma write_call d data n s : devices_keep_tables -> ok s -> leads (sys_write alloc dev_write d data n) s (fun _ s' => moves d s s').
Proof.
  intros [_ Hdw] Hok. unfold sys_write. apply leads_bind. eapply leads_mono; [by apply usable_leads|]. intros u s1 [-> Hu].
  destruct u as [[o obj]|]; [|by apply leads_ret, same_moves].
  destruct o; try (eapply leads_mono; [apply Hdw|]; intros; by apply same_moves). destruct (Hu obj eq_refl). by apply write_moves.
Qed.

Lemma creat_call p s : ok s -> leads (sys_creat alloc sh edit p) s (fun r s' => ok s' /\ confined s s' /\ effect (Creat p) r s s').
Proof.
  intros Hok. apply with_path_leads; [intros r Hr; split; [done|]; split; [by apply same_confined|by right]|]. intros resolved. apply leads_bind.
  eapply leads_mono; [apply leads_fs|]. intros r s1 H1. destruct (Z.ltb_spec r 0).
  - apply leads_ret. split; [by eapply ok_same|]. split; [by apply same_confined|]. right. by destruct H1.
  - eapply leads_mono; [apply open_opens; by eapply ok_same|]. intros d s2 H2.
    destruct (same_open d s s1 s2 H1 H2) as (?&?&[?|(?&?&_)]); (split; [done|]); (split; [done|]); [by left|by right].
Qed.

(** A call of a process keeps its tables linked, touches only its own handles
    and has the effect it should have. *)
Lemma call_keeps junk q s : devices_keep_tables -> ok s -> leads (run_call junk q) s (fun r s' => ok s' /\ confined s s' /\ effect q r s s').
Proof.
  intros Hdev Hok. destruct q; cbn [run_call].
  - unfold sys_open. destruct (process_copy_user_string 64 path); [|apply leads_ret; split; [done|]; split; [by apply same_confined|by right]].
    eapply leads_mono; [by apply open_opens|]. intros d s' (?&?&[?|(?&?&_)]); (split; [done|]); (split; [done|]); [by left|by right].
  - by apply creat_call.
  - eapply leads_mono; [by apply close_frees|]. by intros r s' (?&?&?&?).
  - eapply (moved_call _ d); [done|done|]. apply leads_bind. eapply leads_mono; [by apply read_call|]. intros [r b] s' H. by apply leads_ret.
  - eapply (moved_call _ d); [done|done|]. by apply write_call.
  - eapply (moved_call _ d); [done|done|]. by apply seek_moves.
  - apply only_fs; [done|by intros ? ? (?&?&_)|]. apply resolved_fs.
  - apply only_fs; [done|by intros ? ? (?&?&_)|]. apply resolved_fs.
  - apply only_fs; [done|by intros ? ? (?&?&_)|]. apply resolved_fs.
  - apply only_fs; [done|by intros ? ? (?&?&_)|]. unfold sys_chmod. destruct (process_copy_user_string 64 path); [apply leads_fs|by apply leads_ret].
  - apply only_fs; [done|by intros ? ? (?&?&_)|]. unfold sys_chown. destruct (process_copy_user_string 64 path); [apply leads_fs|by apply leads_ret].
  - apply only_fs; [done|by intros ? ? (?&?&_)|]. apply leads_bind. unfold sys_stat. destruct (process_copy_user_string 64 path); [|by apply leads_ret, leads_ret].
    apply leads_bind, leads_reads. destruct (process_resolve_path _ _ _); [|by apply leads_ret, leads_ret].
    apply leads_bind. eapply leads_mono; [apply leads_fs|]. intros [r st] s1 H1. destruct (r =? 0); by apply leads_ret, leads_ret.
  - apply only_fs; [done|by intros ? ? (?&?&_)|]. apply leads_bind. unfold sys_readdir. destruct (process_copy_user_string 64 path); [|by apply leads_ret, leads_ret].
    apply leads_bind, leads_reads. destruct (process_resolve_path _ _ _); [|by apply leads_ret, leads_ret].
    apply leads_bind. eapply leads_mono; [apply leads_fs|]. intros [e|] s1 H1; [|by apply leads_ret, leads_ret].
    destruct (process_write_user_string _ _ _); by apply leads_ret, leads_ret.
  - unfold sys_chdir. apply leads_bind, leads_must. intros src _. destruct (process_copy_user_string 256 (Some src));
      [|apply leads_ret; split; [done|]; split; [by apply same_confined|done]].
    destruct (negb _); [apply leads_ret; split; [done|]; split; [by apply same_confined|done]|]. apply leads_bind. eapply leads_mono; [apply leads_fs|]. intros [r st] s1 H1.
    destruct (_ && _); [apply leads_bind; intros [] s2 [= <-]|]; apply leads_ret; destruct H1 as (E1&E2&_&E4);
      (split; [unfold ok; simpl; by rewrite E1, E2, E4|split; [unfold confined; simpl; by rewrite E2, E4|done]]).
  - apply only_fs; [done|by intros ? ? (?&?&_)|]. apply leads_bind. unfold sys_getcwd. destruct (_ || _); [by apply leads_ret, leads_ret|].
    apply leads_bind, leads_reads. destruct (_ <? _); by apply leads_ret, leads_ret.
Qed.
(** ** All processes *)

(** Descriptors and working directory of the processes by slot. *)
Record system := mk_system {
  y_procs : gmap nat (list fd_entry * list Z);
  y_handles : list vfs_handle;
  y_fs : vfs (X := X) }.
Implicit Types (y : system) (p : list fd_entry * list Z).

Definition first_handle (i : nat) : nat := HANDLE_CAPACITY * i.
#[local] Arguments first_handle : simpl never.

(** What a call of slot [i] works on. *)
Definition view (i : nat) p y : files := mk_files p.1 (y_handles y) (first_handle i) p.2 (y_fs y).

Definition process_call (junk : vfs_stat) (i : nat) (q : call) y : option (Z * system) :=
  p ← y_procs y !! i;
  '(r, s) ← run_call junk q (view i p y);
  Some (r, mk_system (<[i := (t_entries s, t_cwd s)]> (y_procs y)) (t_handles s) (t_fs s)).

Definition process_reset_vfs_handles (i : nat) (hs : list vfs_handle) : list vfs_handle :=
  imap (fun h x => if (first_handle i <=? h)%nat && (h <? first_handle i + HANDLE_CAPACITY)%nat
                   then VfsHandle 0 0 false (h_kind x) (h_path x) (h_cached_ino x) else x) hs.

(** A process begins in slot [i] with the given descriptors; a slot is emptied. *)
Definition process_begins (i : nat) p y : system := mk_system (<[i := p]> (y_procs y)) (process_reset_vfs_handles i (y_handles y)) (y_fs y).
Definition process_ends (i : nat) y : system := mk_system (delete i (y_procs y)) (process_reset_vfs_handles i (y_handles y)) (y_fs y).

(** A call; a start with fresh standard descriptors; a start and a new thread with
    a copy of the descriptors of [parent]; the end of a process. *)
Inductive step :=
  | Call (i : nat) (q : call)
  | Start (i : nat) (stdio_ops : ops_ref) (stdio_object : Z)
  | Inherit (i parent : nat)
  | Thread (i parent : nat)
  | Reap (i : nat).

Definition run_step (junk : vfs_stat) (e : step) y : option (Z * system) :=
  match e with
  | Call i q => process_call junk i q y
  | Start i o obj => Some (0, process_begins i (Process.stdio_table o obj, [47]) y)
  | Inherit i parent => p ← y_procs y !! parent; Some (0, process_begins i (p.1, [47]) y)
  | Thread i parent => p ← y_procs y !! parent; Some (0, process_begins i p y)
  | Reap i => Some (0, process_ends i y)
  end.

Definition no_files (es : list fd_entry) : Prop :=
  forall d e, es !! d = Some e -> e_used e = true -> e_ops e <> Some PROCESS_VFS_FD_OPS.

(** Processes begin in free slots, and what they inherit is no descriptor on a file. *)
Definition step_ok (e : step) y : Prop :=
  match e with
  | Call _ _ | Reap _ => True
  | Start i o _ => (i < 48)%nat /\ y_procs y !! i = None /\ o <> PROCESS_VFS_FD_OPS
  | Inherit i j | Thread i j => (i < 48)%nat /\ y_procs y !! i = None /\ forall p, y_procs y !! j = Some p -> no_files p.1
  end.

Inductive reached : system -> Prop :=
  | reached_boot hs v : length hs = (HANDLE_CAPACITY * 48)%nat -> reached (mk_system ∅ hs v)
  | reached_step junk e y r y' : reached y -> step_ok e y -> run_step junk e y = Some (r, y') -> reached y'.

Definition all_linked y : Prop :=
  length (y_handles y) = (HANDLE_CAPACITY * 48)%nat /\
  forall i p, y_procs y !! i = Some p -> (i < 48)%nat /\ linked (first_handle i) p.1 (y_handles y).

Lemma own_apart i j h : i <> j -> own (first_handle i) h -> ~ own (first_handle j) h.
Proof. unfold own, first_handle, HANDLE_CAPACITY. lia. Qed.

Lemma reset_lookup i hs h :
  process_reset_vfs_handles i hs !! h = (fun x => if bool_decide (own (first_handle i) h) then VfsHandle 0 0 false (h_kind x) (h_path x) (h_cached_ino x) else x) <$> hs !! h.
Proof.
  unfold process_reset_vfs_handles. rewrite list_lookup_imap. destruct (hs !! h) as [x|]; [|done]. simpl. f_equal.
  assert (E : (first_handle i <=? h)%nat && (h <? first_handle i + HANDLE_CAPACITY)%nat = bool_decide (own (first_handle i) h)); [|by rewrite E].
  unfold own, HANDLE_CAPACITY. apply eq_bool_prop_intro. rewrite bool_decide_spec, andb_True, !Is_true_true, Nat.leb_le, Nat.ltb_lt. done.
Qed.

Lemma reset_frame i j hs h : i <> j -> own (first_handle j) h -> process_reset_vfs_handles i hs !! h = hs !! h.
Proof.
  intros Hij Ho. rewrite reset_lookup, bool_decide_false by (by eapply own_apart). by destruct (hs !! h).
Qed.

Lemma reset_length i hs : length (process_reset_vfs_handles i hs) = length hs.
Proof. apply length_imap. Qed.

(** Tables without files are linked to handles that are all free. *)
Lemma linked_begin i es hs : (i < 48)%nat -> length hs = (HANDLE_CAPACITY * 48)%nat -> length es = 16%nat -> no_files es ->
  linked (first_handle i) es (process_reset_vfs_handles i hs).
Proof.
  intros Hi Hl He Hno. split; [done|rewrite reset_length, Hl; unfold first_handle, HANDLE_CAPACITY; lia| | |].
  - intros d e Hd Hu Ho. by destruct (Hno d e Hd Hu).
  - intros d d' h (e&Hd&Hu&Ho&_). by destruct (Hno d e Hd Hu).
  - intros h Hw (x&Hx&Hu). rewrite reset_lookup, bool_decide_true in Hx by done. destruct (hs !! h); [|done]. by injection Hx as <-.
Qed.

Lemma begins_linked i p y : (i < 48)%nat -> length p.1 = 16%nat -> no_files p.1 -> all_linked y -> all_linked (process_begins i p y).
Proof.
  intros Hi Hp Hno [Hl Hall]. split; [cbn; by rewrite reset_length|]. intros j q Hq. cbn in *.
  apply lookup_insert_Some in Hq as [[<- <-]|[Hne Hq]]; [split; [done|by apply linked_begin]|].
  destruct (Hall j q Hq) as [? Hlk]. split; [done|]. eapply linked_frame; [exact Hlk|apply reset_length|]. intros h. by apply reset_frame.
Qed.

Lemma call_linked junk i q r y y' : devices_keep_tables -> all_linked y -> process_call junk i q y = Some (r, y') ->
  all_linked y' /\ exists p p', y_procs y !! i = Some p /\ y_procs y' !! i = Some p' /\ effect q r (view i p y) (view i p' y') /\
    forall j, j <> i -> y_procs y' !! j = y_procs y !! j /\ forall h, own (first_handle j) h -> y_handles y' !! h = y_handles y !! h.
Proof.
  intros Hdev [Hl Hall] E. apply bind_Some in E as (p&Hp&E). apply bind_Some in E as ([r' s]&Er&[= -> <-]).
  destruct (Hall i p Hp) as [Hi Hlk]. destruct (call_keeps junk q (view i p y) Hdev Hlk r s Er) as (Hok&(Hb&Hlen&Hc)&He). cbn in Hb, Hlen, Hc.
  assert (Hother : forall j h, j <> i -> own (first_handle j) h -> t_handles s !! h = y_handles y !! h).
  { intros j h Hj Hw. apply Hc. by apply (own_apart j). }
  split.
  - split; [etrans; [exact Hlen|exact Hl]|]. intros j q' Hq. cbn in Hq |- *.
    apply lookup_insert_Some in Hq as [[<- <-]|[Hne Hq]].
    + split; [done|]. unfold ok in Hok. rewrite Hb in Hok. done.
    + destruct (Hall j q' Hq) as [? Hlk']. split; [done|]. eapply linked_frame; [exact Hlk'|done|]. intros h. by apply Hother.
  - exists p, (t_entries s, t_cwd s). split; [done|]. split; [apply lookup_insert_eq|]. split.
    + assert (Es : mk_files (t_entries s) (t_handles s) (first_handle i) (t_cwd s) (t_fs s) = s) by (rewrite <- Hb; by destruct s).
      unfold view at 2. cbn. rewrite Es. exact He.
    + intros j Hj. cbn. split; [by rewrite lookup_insert_ne by done|]. intros h. by apply Hother.
Qed.

Lemma reached_linked y : devices_keep_tables -> reached y -> all_linked y.
Proof.
  intros Hdev. induction 1 as [hs v Hl|junk e y r y' _ IH Hok E]; [by split|].
  assert (Hlen : forall j p, y_procs y !! j = Some p -> length p.1 = 16%nat).
  { intros j p Hp. destruct (proj2 IH j p Hp) as [_ Hlk]. apply Hlk. }
  destruct e as [i q|i o obj|i j|i j|i]; cbn [run_step step_ok] in *.
  - by eapply call_linked.
  - injection E as _ <-. destruct Hok as (?&_&Ho). apply begins_linked; [done|done| |done]. cbn [fst].
    intros d e He Hu. unfold Process.stdio_table in He. apply lookup_app_Some in He as [He|[_ He]]; apply lookup_replicate in He as [-> _]; [|done].
    cbn. by intros [= E].
  - apply bind_Some in E as (p&Hp&[= _ <-]). destruct Hok as (?&_&Hno). apply begins_linked; cbn [fst]; eauto.
  - apply bind_Some in E as (p&Hp&[= _ <-]). destruct Hok as (?&_&Hno). apply begins_linked; eauto.
  - injection E as _ <-. destruct IH as [Hl Hall]. split; [cbn; by rewrite reset_length|]. intros j p Hp. cbn in Hp |- *.
    apply lookup_delete_Some in Hp as [Hne Hp]. destruct (Hall j p Hp) as [? Hlk]. split; [done|].
    eapply linked_frame; [exact Hlk|apply reset_length|]. intros h. by apply reset_frame.
Qed.

(** C23: Descriptors and file handles of processes stay paired as long as no
    descriptor on a file is inherited.  From boot on processes begin, with fresh
    standard descriptors or with a copy of the table of a process or thread that
    has no file open at that moment, they end, and in between they make system
    calls on files, in any order, with any arguments and on any file system.
    Then every descriptor of a process on a file has a handle of that process in
    use, no two descriptors share one, and every handle in use belongs to a
    descriptor, so none leaks.  Opening gives a descriptor that was free, with a
    handle of its own, or an error with the descriptors unchanged; closing frees
    exactly the descriptor and its handle; reading, writing and seeking change no
    handle but that of their descriptor; the other calls change neither table;
    and no call changes the descriptors or handles of another process.  (When a
    descriptor on a file is inherited this fails: [inherited_descriptor_dangles].) *)
Theorem file_tables_stay_linked junk y :
  devices_keep_tables -> reached y ->
  (forall i p, y_procs y !! i = Some p -> linked (first_handle i) p.1 (y_handles y)) /\
  (forall i q r y', process_call junk i q y = Some (r, y') ->
     exists p p', y_procs y !! i = Some p /\ y_procs y' !! i = Some p' /\ effect q r (view i p y) (view i p' y') /\
       forall j, j <> i -> y_procs y' !! j = y_procs y !! j /\ forall h, own (first_handle j) h -> y_handles y' !! h = y_handles y !! h).
Proof.
  intros Hdev Hy%reached_linked; [|done]. split.
  - intros i p Hp. by apply Hy.
  - intros i q r y' E. by eapply call_linked.
Qed.

(** A process or thread that starts with a copy of its parent's descriptors refers
    to the parent's handles: when the parent closes such a descriptor, the
    child's descriptor stays in use and refers to a handle that is free, which
    the parent's next open may give to another file. *)
Theorem inherited_descriptor_dangles junk e i j p (d h : nat) y r0 y1 r y2 :
  devices_keep_tables -> all_linked y -> y_procs y !! j = Some p -> refers p.1 d h -> i <> j -> e = Inherit i j \/ e = Thread i j ->
  run_step junk e y = Some (r0, y1) -> process_call junk j (Close (Z.of_nat d)) y1 = Some (r, y2) -> r = 0 ->
  exists p', y_procs y2 !! i = Some p' /\ refers p'.1 d h /\ ~ used (y_handles y2) h.
Proof.
  intros Hdev [Hl Hall] Hp Hr Hij He E1 E2 ->. destruct (Hall j p Hp) as [Hj Hlk].
  assert (Hy1 : exists cwd, y1 = process_begins i (p.1, cwd) y).
  { destruct He as [->| ->]; cbn [run_step] in E1; rewrite Hp in E1; injection E1 as _ <-; [by eexists|]. exists p.2. by destruct p. }
  destruct Hy1 as [cwd ->]. clear E1. apply bind_Some in E2 as (p1&Hp1&E2). cbn in Hp1. rewrite lookup_insert_ne in Hp1 by done.
  assert (p1 = p) as -> by congruence. apply bind_Some in E2 as ([r' s]&Er&[= -> <-]). cbn [run_call] in Er. unfold sys_close in Er.
  assert (Hok : ok (view j p (process_begins i (p.1, cwd) y))).
  { unfold ok. cbn. eapply linked_frame; [exact Hlk|apply reset_length|]. intros h'. by apply reset_frame. }
  destruct (close_frees _ _ Hok _ _ Er) as (_&_&H0&_). destruct (H0 eq_refl) as (_&Hfree&_). rewrite Nat2Z.id in Hfree.
  exists (p.1, cwd). cbn. rewrite lookup_insert_ne by done. split; [apply lookup_insert_eq|]. split; [done|]. by apply Hfree.
Qed.
End Calls.

(** One process with a file open. *)
Definition demo_call : nat -> call -> system (X := unit) -> option (Z * system) :=
  process_call (fun _ _ => None) [] [] (fun _ _ b _ => mret (0, b)) (fun _ _ _ _ => mret 0) (mk_stat 0 0 0 0 0).
Definition boot_system : system (X := unit) :=
  mk_system ∅ (replicate 384 (VfsHandle 0 0 false 0 [] 0)) (mk_vfs (replicate 32 (mk_user_file [] [] 0 false)) None 0).
Definition one_process : system (X := unit) := process_begins 5 (Process.stdio_table PROCESS_STDIO_FD_OPS 0, [47]) boot_system.

Lemma file_tables_stay_linked_witness : exists y p,
  demo_call 5 (Creat (Some [47; 97])) one_process = Some (3, y) /\ y_procs y !! 5%nat = Some p /\
  opened 3 (view 5 (Process.stdio_table PROCESS_STDIO_FD_OPS 0, [47]) one_process) (view 5 p y).
Proof.
  destruct (file_tables_stay_linked (X := unit) (fun _ _ => None) [] [] (fun _ _ b _ => mret (0, b)) (fun _ _ _ _ => mret 0)
    (mk_stat 0 0 0 0 0) one_process) as [_ H].
  - split; intros; apply leads_ret; split_and!; reflexivity.
  - eapply (reached_step _ _ _ _ _ (mk_stat 0 0 0 0 0) (Start 5 PROCESS_STDIO_FD_OPS 0) boot_system 0).
    + apply reached_boot. reflexivity.
    + split; [lia|]. split; [reflexivity|discriminate].
    + reflexivity.
  - destruct (demo_call 5 (Creat (Some [47; 97])) one_process) as [[r y]|] eqn:E; [|vm_compute in E; discriminate E].
    assert (Hr : r = 3) by (vm_compute in E; injection E as <- _; reflexivity). subst r.
    destruct (H 5%nat (Creat (Some [47; 97])) 3 y E) as (p&p'&Hp&Hp'&[Ho|[Hneg _]]&_); [|lia].
    exists y, p'. split; [reflexivity|]. split; [exact Hp'|].
    assert (Ep : p = (Process.stdio_table PROCESS_STDIO_FD_OPS 0, [47])) by (vm_compute in Hp; injection Hp as <-; reflexivity).
    rewrite <- Ep. exact Ho.
Defined.
End ProcFiles.
