(* ===== verification/UMalloc.v ===== *)
(** * UMalloc: the user-space heap (user/umalloc.c)

    Every program gets its heap from [umalloc], a first-fit allocator whose
    arena is grown with the sbrk system call.  The allocator keeps a doubly
    linked list of [struct block] headers in address order.  Memory is modelled
    as in [KAlloc]: a finite map from addresses to headers, and, for the copy
    of [urealloc], the bytes of the payloads.  Pointers are 64-bit addresses
    with 0 for NULL; [None] is the undefined behaviour of reading a header that
    is not there, a walk that does not end, or a wait for a lock that is never
    released.

    The kernel is an interface: the class [SbrkService] states what the
    allocator relies on, and the theorems hold for every instance of it.
    [UMallocKernel] shows that the modelled kernel is one. *)

From Stdlib Require Import ZArith Lia Bool ZifyBool.
From stdpp Require Import base numbers option list list_numbers gmap fin_maps sorting.
From S2P Require Import Prelude StateM.

Open Scope Z_scope.
Set Warnings "-clear-no-such-hyp".

Module UMalloc.

(** The value sbrk returns on failure. *)
Definition FAILED : Z := 2 ^ 64 - 1.

(** ** What the allocator relies on: sbrk

    [sbrk n] either refuses and leaves the break alone, or returns the old
    break and moves it up by [n]. *)
Class SbrkService (K : Type) (sbrk : Z -> ST K Z) := {
  sbrk_ok : K -> Prop;
  sbrk_break : K -> Z;
  sbrk_range k : sbrk_ok k -> 0 < sbrk_break k < 2 ^ 63;
  sbrk_spec n k : sbrk_ok k -> 0 < n < 2 ^ 63 ->
    wp (sbrk n) (fun r k' => sbrk_ok k' /\
      (r = FAILED /\ sbrk_break k' = sbrk_break k \/
       r = sbrk_break k /\ sbrk_break k' = sbrk_break k + n)) k }.

(** ** Data *)

Record block := mk_block { b_size : Z; b_prev : Z; b_next : Z; b_free : bool }.

Definition sizeof_block : Z := 32.
Definition UMALLOC_ALIGN : Z := 16.
Definition UMALLOC_GROW_MIN : Z := 64 * 1024.

Section Allocator.
Context {K : Type} (sbrk : Z -> ST K Z).

(** The static variables of umalloc.c, the headers and payload bytes in the
    program's memory, and the state of the kernel behind the system call. *)
Record uheap := mk_uheap {
  u_blocks : gmap Z block;
  u_bytes : Z -> Z;
  g_head : Z;
  g_tail : Z;
  g_used : Z;
  g_capacity : Z;
  g_alloc_lock : bool;
  u_kernel : K }.

Abbreviation U := (ST uheap).

Definition set_blocks m h := mk_uheap m (u_bytes h) (g_head h) (g_tail h) (g_used h) (g_capacity h) (g_alloc_lock h) (u_kernel h).
Definition set_bytes m h := mk_uheap (u_blocks h) m (g_head h) (g_tail h) (g_used h) (g_capacity h) (g_alloc_lock h) (u_kernel h).
Definition set_head p h := mk_uheap (u_blocks h) (u_bytes h) p (g_tail h) (g_used h) (g_capacity h) (g_alloc_lock h) (u_kernel h).
Definition set_tail p h := mk_uheap (u_blocks h) (u_bytes h) (g_head h) p (g_used h) (g_capacity h) (g_alloc_lock h) (u_kernel h).
Definition set_used n h := mk_uheap (u_blocks h) (u_bytes h) (g_head h) (g_tail h) n (g_capacity h) (g_alloc_lock h) (u_kernel h).
Definition set_capacity n h := mk_uheap (u_blocks h) (u_bytes h) (g_head h) (g_tail h) (g_used h) n (g_alloc_lock h) (u_kernel h).
Definition set_lock b h := mk_uheap (u_blocks h) (u_bytes h) (g_head h) (g_tail h) (g_used h) (g_capacity h) b (u_kernel h).
Definition set_kernel k h := mk_uheap (u_blocks h) (u_bytes h) (g_head h) (g_tail h) (g_used h) (g_capacity h) (g_alloc_lock h) k.

(** Read a header; change one through its pointer; lay one down in memory. *)
Definition load (p : Z) : U block := fun h => b ← u_blocks h !! p; Some (b, h).
Definition change (p : Z) (f : block -> block) : U () := fun h =>
  b ← u_blocks h !! p; Some ((), set_blocks (<[p := f b]> (u_blocks h)) h).
Definition lay (p : Z) (b : block) : U () := update (fun h => set_blocks (<[p := b]> (u_blocks h)) h).

Definition with_size n b := mk_block n (b_prev b) (b_next b) (b_free b).
Definition with_prev p b := mk_block (b_size b) p (b_next b) (b_free b).
Definition with_next p b := mk_block (b_size b) (b_prev b) p (b_free b).
Definition with_free f b := mk_block (b_size b) (b_prev b) (b_next b) f.

(** ** Operations *)

Definition alloc_lock : U () := fun h =>
  if g_alloc_lock h then None else Some ((), set_lock true h).
Definition alloc_unlock : U () := update (set_lock false).

Definition align_up (n : Z) : Z := Z.land (u64 (n + (UMALLOC_ALIGN - 1))) (u64 (Z.lnot (UMALLOC_ALIGN - 1))).
Definition page_align (n : Z) : Z := Z.land (u64 (n + 0xfff)) (u64 (Z.lnot 0xfff)).

Definition payload_of (b : Z) : Z := u64 (b + sizeof_block).
Definition block_of (p : Z) : Z := u64 (p - sizeof_block).

(** More links than headers in memory would be a cycle. *)
Definition walk_fuel : U nat := reads (fun h => S (S (size (u_blocks h)))).

Fixpoint coalesce_loop (fuel : nat) (b : Z) : U () :=
  match fuel with
  | O => undefined
  | S fuel' =>
      x ← load b;
      if b_next x =? 0 then mret ()
      else
        n ← load (b_next x);
        if negb (b_free n) then mret ()
        else
          _ ← change b (with_size (u64 (b_size x + u64 (sizeof_block + b_size n))));
          _ ← change b (with_next (b_next n));
          _ ← (if b_next n =? 0 then update (set_tail b) else change (b_next n) (with_prev b));
          coalesce_loop fuel' b
  end.

Definition coalesce_forward (b : Z) : U () := fuel ← walk_fuel; coalesce_loop fuel b.

(** SYS_SBRK on the kernel. *)
Definition sys_sbrk (n : Z) : U Z := fun h =>
  '(r, k) ← sbrk n (u_kernel h); Some (r, set_kernel k h).

Definition grow_heap (need : Z) : U bool :=
  let bytes := u64 (need + sizeof_block) in
  let bytes := page_align (if bytes <? UMALLOC_GROW_MIN then UMALLOC_GROW_MIN else bytes) in
  base ← sys_sbrk bytes;
  if base =? FAILED then mret false
  else
    tail ← reads g_tail;
    let size := u64 (bytes - sizeof_block) in
    _ ← lay base (mk_block size tail 0 true);
    _ ← (if tail =? 0 then update (set_head base) else change tail (with_next base));
    _ ← update (set_tail base);
    _ ← update (fun h => set_capacity (u64 (g_capacity h + size)) h);
    b ← load base;
    if b_prev b =? 0 then mret true
    else
      p ← load (b_prev b);
      if negb (b_free p) then mret true
      else
        _ ← coalesce_forward (b_prev b);
        p' ← load (b_prev b);
        _ ← (if b_next p' =? 0 then update (set_tail (b_prev b)) else mret ());
        mret true.

Definition split_block (b need : Z) : U () :=
  x ← load b;
  if b_size x <? u64 (u64 (need + sizeof_block) + UMALLOC_ALIGN) then mret ()
  else
    let remain := u64 (u64 (b_size x - need) - sizeof_block) in
    let rest := u64 (payload_of b + need) in
    _ ← lay rest (mk_block remain b (b_next x) true);
    _ ← (if b_next x =? 0 then update (set_tail rest) else change (b_next x) (with_prev rest));
    _ ← change b (with_next rest);
    change b (with_size need).

(** The inner loop of [umalloc_nolock]: the first free block that is large
    enough, or 0. *)
Fixpoint find_fit (fuel : nat) (need b : Z) : U Z :=
  match fuel with
  | O => undefined
  | S fuel' =>
      if b =? 0 then mret 0
      else
        x ← load b;
        if b_free x && (need <=? b_size x) then mret b else find_fit fuel' need (b_next x)
  end.

(** The outer loop: search, and grow the heap when nothing fits. *)
Fixpoint umalloc_loop (fuel : nat) (need : Z) : U Z :=
  match fuel with
  | O => undefined
  | S fuel' =>
      head ← reads g_head;
      walk ← walk_fuel;
      b ← find_fit walk need head;
      if b =? 0 then
        ok ← grow_heap need;
        if negb ok then mret 0 else umalloc_loop fuel' need
      else
        _ ← split_block b need;
        _ ← change b (with_free false);
        x ← load b;
        _ ← update (fun h => set_used (u64 (g_used h + b_size x)) h);
        mret (payload_of b)
  end.

Definition umalloc_nolock (rounds : nat) (size : Z) : U Z :=
  if size =? 0 then mret 0 else umalloc_loop rounds (align_up size).

Definition ufree_nolock (ptr : Z) : U () :=
  if ptr =? 0 then mret ()
  else
    let b := block_of ptr in
    x ← load b;
    if b_free x then mret ()
    else
      _ ← change b (with_free true);
      _ ← update (fun h => set_used (u64 (g_used h - b_size x)) h);
      _ ← coalesce_forward b;
      y ← load b;
      if b_prev y =? 0 then mret ()
      else
        p ← load (b_prev y);
        if b_free p then coalesce_forward (b_prev y) else mret ().

(** [dst[i] = src[i]]. *)
Definition copy_byte (dst src i : Z) : U () :=
  update (fun h => set_bytes (fun a => if a =? dst + i then u_bytes h (src + i) else u_bytes h a) h).

Definition urealloc_nolock (rounds : nat) (ptr size : Z) : U Z :=
  if ptr =? 0 then umalloc_nolock rounds size
  else if size =? 0 then _ ← ufree_nolock ptr; mret 0
  else
    let b := block_of ptr in
    let need := align_up size in
    x ← load b;
    if need <=? b_size x then mret ptr
    else
      next_fits ← (if b_next x =? 0 then mret false
                   else n ← load (b_next x);
                        mret (b_free n && (need <=? u64 (u64 (b_size x + sizeof_block) + b_size n))));
      if (next_fits : bool) then
        _ ← update (fun h => set_used (u64 (g_used h - b_size x)) h);
        _ ← coalesce_forward b;
        _ ← split_block b need;
        _ ← change b (with_free false);
        y ← load b;
        _ ← update (fun h => set_used (u64 (g_used h + b_size y)) h);
        mret (payload_of b)
      else
        np ← umalloc_nolock rounds size;
        if np =? 0 then mret 0
        else
          y ← load b;
          _ ← each (copy_byte np ptr) (seqZ 0 (Z.min (b_size y) need));
          _ ← ufree_nolock ptr;
          mret np.

Definition locked {A} (body : U A) : U A :=
  _ ← alloc_lock; r ← body; _ ← alloc_unlock; mret r.

Definition umalloc (rounds : nat) (size : Z) : U Z := locked (umalloc_nolock rounds size).
Definition ufree (ptr : Z) : U () := locked (ufree_nolock ptr).
Definition urealloc (rounds : nat) (ptr size : Z) : U Z := locked (urealloc_nolock rounds ptr size).

Definition umalloc_used : U Z := reads g_used.
Definition umalloc_capacity : U Z := reads g_capacity.
Definition umalloc_usable_size (ptr : Z) : U Z :=
  if ptr =? 0 then mret 0 else b ← load (block_of ptr); mret (b_size b).

End Allocator.
Arguments uheap : clear implicits.

(** ** The heap as a list of tiles *)

(** A block seen from outside: payload size and free flag. *)
Abbreviation tile := (Z * bool)%type.

(** Bytes the tiles take up, headers included. *)
Fixpoint span (bs : list tile) : Z :=
  match bs with [] => 0 | (sz, _) :: bs' => sizeof_block + sz + span bs' end.

(** Payload bytes handed out. *)
Fixpoint live (bs : list tile) : Z :=
  match bs with [] => 0 | (sz, fr) :: bs' => (if fr then 0 else sz) + live bs' end.

(** The payloads handed out, as (address, size), tiles starting at [p]. *)
Fixpoint payloads (p : Z) (bs : list tile) : list (Z * Z) :=
  match bs with
  | [] => []
  | (sz, fr) :: bs' =>
      (if fr then [] else [(p + sizeof_block, sz)]) ++ payloads (p + sizeof_block + sz) bs'
  end.

(** No two neighbouring free tiles. *)
Fixpoint coalesced (bs : list tile) : Prop :=
  match bs with
  | (_, fr) :: (((_, fr') :: _) as bs') => negb (fr && fr') = true /\ coalesced bs'
  | _ => True
  end.

(** The first free tile of at least [need] bytes. *)
Fixpoint first_fit (need : Z) (bs : list tile) : option (list tile * Z * list tile) :=
  match bs with
  | [] => None
  | (sz, fr) :: bs' =>
      if fr && (need <=? sz) then Some ([], sz, bs')
      else '(pre, s, post) ← first_fit need bs'; Some ((sz, fr) :: pre, s, post)
  end.

(** Cut a tile down to [need] bytes when the rest is large enough for a header
    and the minimum payload; the rest is a free tile. *)
Definition cut (need sz : Z) (fr : bool) : list tile :=
  if sz <? need + sizeof_block + UMALLOC_ALIGN then [(sz, fr)]
  else [(need, fr); (sz - need - sizeof_block, true)].

(** A tile swallows the free tiles that follow it. *)
Fixpoint absorb (sz : Z) (fr : bool) (bs : list tile) : list tile :=
  match bs with
  | (s, true) :: bs' => absorb (sz + sizeof_block + s) fr bs'
  | _ => (sz, fr) :: bs
  end.

(** A free tile joins a free last tile of the list before it. *)
Fixpoint join (pre : list tile) (sz : Z) (post : list tile) : list tile :=
  match pre with
  | [] => absorb sz true post
  | [(s, true)] => absorb (s + sizeof_block + sz) true post
  | t :: pre' => t :: join pre' sz post
  end.

(** Bytes requested from the kernel when [need] does not fit. *)
Definition growth (need : Z) : Z := (Z.max UMALLOC_GROW_MIN (need + sizeof_block) + 4095) / 4096 * 4096.

Definition round16 (n : Z) : Z := (n + 15) / 16 * 16.

(** ** Representation *)

(** The link field for address [x]: NULL at the end of the arena. *)
Definition link (stop x : Z) : Z := if x =? stop then 0 else x.

(** The address of the last tile, [prev] when there is none. *)
Fixpoint last_addr (prev p : Z) (bs : list tile) : Z :=
  match bs with [] => prev | (sz, _) :: bs' => last_addr p (p + sizeof_block + sz) bs' end.

(** The headers of consecutive tiles from [p], linked both ways. *)
Fixpoint dseg (m : gmap Z block) (stop prev p : Z) (bs : list tile) : Prop :=
  match bs with
  | [] => True
  | (sz, fr) :: bs' =>
      m !! p = Some (mk_block sz prev (link stop (p + sizeof_block + sz)) fr) /\
      0 <= sz /\ sz mod 16 = 0 /\ dseg m stop p (p + sizeof_block + sz) bs'
  end.

(** The headers from [base] describe the tiles [bs], which fill the memory up
    to [stop]. *)
Record arena {K} (h : uheap K) (base stop : Z) (bs : list tile) : Prop := {
  ar_base : 0 < base /\ base mod 16 = 0;
  ar_stop : stop = base + span bs /\ stop < 2 ^ 63;
  ar_head : g_head h = if decide (bs = []) then 0 else base;
  ar_tail : g_tail h = last_addr 0 base bs;
  ar_seg : dseg (u_blocks h) stop 0 base bs }.

(** ** Lemmas: tiles *)

Lemma uspan_app bs1 bs2 : span (bs1 ++ bs2) = span bs1 + span bs2.
Proof. induction bs1 as [|[? ?] ? IH]; simpl; lia. Qed.

Lemma ulive_app bs1 bs2 : live (bs1 ++ bs2) = live bs1 + live bs2.
Proof. induction bs1 as [|[? ?] ? IH]; simpl; lia. Qed.

Lemma upayloads_app p bs1 bs2 : payloads p (bs1 ++ bs2) = payloads p bs1 ++ payloads (p + span bs1) bs2.
Proof.
  revert p. induction bs1 as [|[sz fr] bs1 IH]; intros p; simpl; [f_equal; lia|].
  rewrite IH, app_assoc. do 2 f_equal. lia.
Qed.

Lemma last_addr_app prev p bs1 bs2 :
  last_addr prev p (bs1 ++ bs2) = last_addr (last_addr prev p bs1) (p + span bs1) bs2.
Proof.
  revert prev p. induction bs1 as [|[sz fr] bs1 IH]; intros prev p; simpl; [f_equal; lia|].
  rewrite IH. f_equal. lia.
Qed.

Lemma dseg_app m stop prev p bs1 bs2 :
  dseg m stop prev p (bs1 ++ bs2) <->
  dseg m stop prev p bs1 /\ dseg m stop (last_addr prev p bs1) (p + span bs1) bs2.
Proof.
  revert prev p. induction bs1 as [|[sz fr] bs1 IH]; intros prev p; simpl.
  { rewrite Z.add_0_r. tauto. }
  rewrite IH. replace (p + (sizeof_block + sz + span bs1)) with (p + sizeof_block + sz + span bs1) by lia. tauto.
Qed.

Lemma dseg_span m stop prev p bs : dseg m stop prev p bs -> 0 <= span bs /\ span bs mod 16 = 0.
Proof.
  revert prev p. induction bs as [|[sz fr] bs IH]; intros prev p; simpl; [done|].
  intros (_&?&?&[? ?]%IH). unfold sizeof_block. dlia.
Qed.

Lemma dseg_frame m m' stop prev p bs :
  dseg m stop prev p bs -> (forall q, p <= q < p + span bs -> m' !! q = m !! q) -> dseg m' stop prev p bs.
Proof.
  revert prev p. induction bs as [|[sz fr] bs IH]; intros prev p; simpl; [done|].
  intros (Hp&?&?&Hs) Hf. pose proof (dseg_span _ _ _ _ _ Hs). unfold sizeof_block in *.
  split_and!; try done; [rewrite Hf by lia; done|]. apply IH; [done|]. intros q Hq. apply Hf. lia.
Qed.

(** The tiles after a change: their first header points back elsewhere. *)
Lemma dseg_reprev m m' stop prev prev' p bs :
  dseg m stop prev p bs ->
  (forall q, p < q < p + span bs -> m' !! q = m !! q) ->
  (p < p + span bs -> m' !! p = with_prev prev' <$> m !! p) ->
  dseg m' stop prev' p bs.
Proof.
  destruct bs as [|[sz fr] bs]; simpl; [done|]. intros (Hp&?&?&Hs) Hf Hp'.
  pose proof (dseg_span _ _ _ _ _ Hs). unfold sizeof_block in *. split_and!; try done.
  - rewrite Hp', Hp by lia. done.
  - eapply dseg_frame; [exact Hs|]. intros q Hq. apply Hf. lia.
Qed.

Lemma dseg_dom m stop prev p bs :
  dseg m stop prev p bs -> (length bs <= size m)%nat.
Proof.
  intros H. set (addrs := fix addrs p (bs : list tile) := match bs with [] => [] | (sz, _) :: r => p :: addrs (p + sizeof_block + sz) r end).
  assert (Hlt : forall bs prev p q, dseg m stop prev p bs -> q ∈ addrs p bs -> p <= q /\ q ∈ dom m).
  { clear. intros bs. induction bs as [|[sz fr] bs IH]; intros prev p q; simpl; [by intros _ ?%elem_of_nil|].
    intros (Hp&?&?&Hs) [->|Hq]%elem_of_cons; [split; [lia|by apply elem_of_dom_2 in Hp]|].
    destruct (IH _ _ _ Hs Hq). unfold sizeof_block in *. split; [lia|done]. }
  assert (Hl : length (addrs p bs) = length bs).
  { clear. revert p. induction bs as [|[sz fr] bs IH]; intros p; simpl; [done|]. by rewrite IH. }
  assert (Hn : NoDup (addrs p bs)).
  { clear Hl. revert prev p H. induction bs as [|[sz fr] bs IH]; intros prev p; simpl; [constructor|].
    intros (_&?&?&Hs). constructor; [|by eapply IH]. intros Hq. destruct (Hlt _ _ _ _ Hs Hq).
    unfold sizeof_block in *. lia. }
  rewrite <- Hl, <- (size_list_to_set (C := gset Z) _ Hn), <- size_dom. apply subseteq_size.
  intros q Hq%elem_of_list_to_set. by apply (Hlt _ _ _ _ H).
Qed.
Lemma last_addr_prev prev prev' p bs : bs <> [] -> last_addr prev p bs = last_addr prev' p bs.
Proof. by destruct bs as [|[? ?] ?]. Qed.

(** ** Lemmas: merging and cutting tiles *)

Definition starts_free (bs : list tile) : bool := match bs with (_, true) :: _ => true | _ => false end.
Definition ends_free (bs : list tile) : bool := match last bs with Some (_, true) => true | _ => false end.

(** [absorb] adds a fixed amount and leaves a list that starts with no free
    tile. *)
Lemma absorb_shape bs : exists d q, starts_free q = false /\ (forall sz fr, absorb sz fr bs = (sz + d, fr) :: q).
Proof.
  induction bs as [|[s [|]] bs (d&q&Hq&H)].
  - exists 0, []. split; [done|]. intros. simpl. by rewrite Z.add_0_r.
  - exists (sizeof_block + s + d), q. split; [done|]. intros. simpl. rewrite H. do 2 f_equal. lia.
  - exists 0, ((s, false) :: bs). split; [done|]. intros. simpl. by rewrite Z.add_0_r.
Qed.

Lemma absorb_id sz fr bs : starts_free bs = false -> absorb sz fr bs = (sz, fr) :: bs.
Proof. by destruct bs as [|[? [|]] ?]. Qed.

Lemma absorb_two a b bs d q : (forall sz fr, absorb sz fr bs = (sz + d, fr) :: q) -> starts_free q = false ->
  absorb a true ((b + d, true) :: q) = absorb (a + sizeof_block + b) true bs.
Proof. intros H Hq. simpl. rewrite H, absorb_id by done. do 2 f_equal. lia. Qed.

Lemma absorb_span sz fr bs : span (absorb sz fr bs) = sizeof_block + sz + span bs.
Proof. revert sz. induction bs as [|[s [|]] bs IH]; intros sz; simpl; [lia|rewrite IH; lia|lia]. Qed.

Lemma absorb_live sz bs : live (absorb sz true bs) = live bs.
Proof. revert sz. induction bs as [|[s [|]] bs IH]; intros sz; simpl; [lia|rewrite IH; lia|lia]. Qed.

Lemma absorb_payloads p sz bs : payloads p (absorb sz true bs) = payloads (p + sizeof_block + sz) bs.
Proof.
  revert sz. induction bs as [|[s [|]] bs IH]; intros sz; simpl; [done| |done]. rewrite IH. f_equal. lia.
Qed.

Lemma coalesced_cons sz fr bs : coalesced ((sz, fr) :: bs) <-> (fr = true -> starts_free bs = false) /\ coalesced bs.
Proof. destruct bs as [|[s [|]] bs], fr; simpl; intuition. Qed.

Lemma ends_free_snoc bs sz fr : ends_free (bs ++ [(sz, fr)]) = fr.
Proof. unfold ends_free. rewrite last_snoc. by destruct fr. Qed.

Lemma ends_free_cons sz fr bs : bs <> [] -> ends_free ((sz, fr) :: bs) = ends_free bs.
Proof. unfold ends_free. by destruct bs. Qed.

Lemma coalesced_app a b :
  coalesced (a ++ b) <-> coalesced a /\ coalesced b /\ (ends_free a && starts_free b = false).
Proof.
  induction a as [|[s f] a IH]; [simpl; tauto|]. cbn [app]. rewrite !coalesced_cons, IH.
  destruct a as [|[s2 f2] a].
  - cbn [app]. unfold ends_free. simpl. destruct f, (starts_free b); simpl; intuition congruence.
  - rewrite (ends_free_cons s f) by done. cbn [app starts_free]. tauto.
Qed.

(** The state after freeing a tile between [pre] and [post]. *)
Lemma join_cases pre sz post :
  (ends_free pre = false /\ join pre sz post = pre ++ absorb sz true post) \/
  (exists pre' s, pre = pre' ++ [(s, true)] /\ join pre sz post = pre' ++ absorb (s + sizeof_block + sz) true post).
Proof.
  induction pre as [|[s f] pre IH]; [by left|]. destruct pre as [|t pre].
  - destruct f; [right; by exists [], s|by left].
  - assert (Ej : join ((s, f) :: t :: pre) sz post = (s, f) :: join (t :: pre) sz post) by (by destruct f).
    rewrite Ej. destruct IH as [[He ->]|(pre'&s'&Hp&->)].
    + left. by rewrite (ends_free_cons s f).
    + right. exists ((s, f) :: pre'), s'. by rewrite Hp.
Qed.

Lemma join_span pre sz post : span (join pre sz post) = span pre + sizeof_block + sz + span post.
Proof.
  destruct (join_cases pre sz post) as [[_ ->]|(pre'&s&->&->)]; rewrite !uspan_app, absorb_span; simpl; lia.
Qed.

Lemma join_live pre sz post : live (join pre sz post) = live pre + live post.
Proof.
  destruct (join_cases pre sz post) as [[_ ->]|(pre'&s&->&->)]; rewrite !ulive_app, absorb_live; simpl; lia.
Qed.

Lemma join_payloads p pre sz post :
  payloads p (join pre sz post) = payloads p pre ++ payloads (p + span pre + sizeof_block + sz) post.
Proof.
  destruct (join_cases pre sz post) as [[_ ->]|(pre'&s&->&->)]; rewrite !upayloads_app, absorb_payloads; [done|].
  rewrite uspan_app. simpl. rewrite app_nil_r. do 2 f_equal. lia.
Qed.

Lemma join_coalesced pre sz fr post : coalesced (pre ++ (sz, fr) :: post) -> coalesced (join pre sz post).
Proof.
  intros H. rewrite coalesced_app, coalesced_cons in H. destruct H as (Hp&[_ Hq]&_).
  destruct (absorb_shape post) as (d&q&Hs&Ha).
  assert (Hcq : coalesced q).
  { destruct post as [|[s f] post]; [specialize (Ha 0 true); simpl in Ha; by injection Ha as _ <-|].
    destruct (starts_free ((s, f) :: post)) eqn:E; [destruct f; [|done]|].
    - apply coalesced_cons in Hq as [Hf Hq]. specialize (Ha 0 true). simpl in Ha.
      rewrite absorb_id in Ha by auto. by injection Ha as _ <-.
    - specialize (Ha 0 true). rewrite absorb_id in Ha by done. by injection Ha as _ <-. }
  destruct (join_cases pre sz post) as [[He ->]|(pre'&s&->&->)]; rewrite Ha, coalesced_app, coalesced_cons.
  - by rewrite He.
  - rewrite coalesced_app in Hp. destruct Hp as (Hp&_&Hb). split_and!; try done.
Qed.

Lemma cut_span need sz fr : span (cut need sz fr) = sizeof_block + sz.
Proof. unfold cut. case_if; simpl; lia. Qed.

Lemma cut_size need sz : 0 <= need <= sz ->
  exists n q, cut need sz false = (n, false) :: q /\ need <= n < need + sizeof_block + UMALLOC_ALIGN /\
    n <= sz /\ live q = 0 /\ (forall p, payloads p q = []) /\ ((need = n /\ exists s, q = [(s, true)]) \/ q = []).
Proof.
  intros. unfold cut, sizeof_block, UMALLOC_ALIGN. case_if; eexists _, _; (split; [done|]); split_and!; try lia; try done;
    [by right|left; split; [done|by eexists]].
Qed.

Lemma cut_coalesced pre need sz fr post : 0 <= need <= sz ->
  coalesced (pre ++ (sz, fr) :: post) -> (starts_free post = false) -> coalesced (pre ++ cut need sz false ++ post).
Proof.
  intros Hn. rewrite !coalesced_app, coalesced_cons. intros (?&[? ?]&?) Hs. unfold cut.
  case_if; cbn [app]; rewrite !coalesced_cons; split_and!; try done; by rewrite andb_false_r.
Qed.

Lemma ufirst_fit_Some need bs pre sz post :
  first_fit need bs = Some (pre, sz, post) -> bs = pre ++ (sz, true) :: post /\ need <= sz.
Proof.
  revert pre. induction bs as [|[s f] bs IH]; intros pre; simpl; [done|].
  destruct (f && (need <=? s)) eqn:E; [intros [= <- <- <-]; bools; by subst|].
  destruct (first_fit need bs) as [[[p s'] q]|]; simpl; [|done]. intros [= <- <- <-].
  destruct (IH p) as [-> ?]; [done|]. done.
Qed.

Lemma ufirst_fit_None need bs s : first_fit need bs = None -> (s, true) ∈ bs -> s < need.
Proof.
  induction bs as [|[s' f] bs IH]; simpl; [by intros _ ?%elem_of_nil|].
  destruct (f && (need <=? s')) eqn:E; [done|]. destruct (first_fit need bs) as [[[? ?] ?]|]; [done|].
  intros _ [H|H]%elem_of_cons; [|by apply IH]. injection H as <- <-. lia.
Qed.

(** After a growth the last tile is large enough. *)
Lemma first_fit_join need bs sz : Forall (fun t : tile => 0 <= t.1) bs -> need <= sz -> first_fit need (join bs sz []) <> None.
Proof.
  intros Hf Hs E. destruct (join_cases bs sz []) as [[_ Ej]|(p&s&->&Ej)]; rewrite Ej in E; simpl in E.
  - assert (sz < need); [|lia]. eapply ufirst_fit_None; [exact E|]. apply elem_of_app. right. by left.
  - apply Forall_app in Hf as [_ Hf]. inversion Hf as [|? ? H0 _]; subst. simpl in H0.
    assert (s + sizeof_block + sz < need); [|unfold sizeof_block in *; lia].
    eapply ufirst_fit_None; [exact E|]. apply elem_of_app. right. by left.
Qed.

(** ** Lemmas: changing a stretch of tiles *)

(** Compute the fields of an updated heap or header. *)
Ltac ucbn := cbn [with_size with_prev with_next with_free b_size b_prev b_next b_free u_blocks u_bytes g_head g_tail
  g_used g_capacity g_alloc_lock u_kernel set_blocks set_bytes set_head set_tail set_used set_capacity set_lock set_kernel].

Section Arena.
Context {K : Type}.
Implicit Types (h : uheap K) (bs pre mid post : list tile).

(** What the list operations leave alone. *)
Definition rest h := (u_bytes h, g_used h, g_capacity h, g_alloc_lock h, u_kernel h).

Lemma arena_replace h h' base stop pre mid mid' post :
  arena h base stop (pre ++ mid ++ post) -> mid <> [] -> mid' <> [] -> span mid' = span mid ->
  (forall q, q < base + span pre -> u_blocks h' !! q = u_blocks h !! q) ->
  dseg (u_blocks h') stop (last_addr 0 base pre) (base + span pre) mid' ->
  (forall q, base + span pre + span mid < q < stop -> u_blocks h' !! q = u_blocks h !! q) ->
  (base + span pre + span mid < stop -> u_blocks h' !! (base + span pre + span mid) =
     with_prev (last_addr (last_addr 0 base pre) (base + span pre) mid') <$> u_blocks h !! (base + span pre + span mid)) ->
  g_head h' = g_head h ->
  g_tail h' = (if decide (post = []) then last_addr (last_addr 0 base pre) (base + span pre) mid' else g_tail h) ->
  arena h' base stop (pre ++ mid' ++ post).
Proof.
  intros [Hb [Hs Hlt] Hh Ht Hseg] Hm Hm' Hsp Hlow Hmid Hhigh Hback Hh' Ht'.
  rewrite !dseg_app in Hseg. destruct Hseg as (Hpre&_&Hpost). rewrite !uspan_app in Hs.
  split; [done|rewrite !uspan_app; lia| | |].
  - rewrite Hh', Hh. destruct pre; [|done]. by destruct mid, mid'.
  - rewrite Ht'. case_decide; [subst; by rewrite app_nil_r, last_addr_app|].
    rewrite Ht, !last_addr_app, Hsp. by apply last_addr_prev.
  - rewrite !dseg_app. split_and!; [|done|].
    + eapply dseg_frame; [exact Hpre|]. intros q Hq. apply Hlow. lia.
    + rewrite Hsp. eapply dseg_reprev; [exact Hpost| |]; [intros q Hq; apply Hhigh; lia|].
      intros Hq. apply Hback. lia.
Qed.

(** The header of a tile. *)
Lemma arena_tile h base stop pre sz fr post :
  arena h base stop (pre ++ (sz, fr) :: post) ->
  u_blocks h !! (base + span pre) =
    Some (mk_block sz (last_addr 0 base pre) (link stop (base + span pre + sizeof_block + sz)) fr) /\
  0 <= sz /\ sz mod 16 = 0 /\ 0 < base + span pre /\ 0 <= span pre /\ 0 <= span post /\
  stop = base + span pre + sizeof_block + sz + span post /\ stop < 2 ^ 63 /\
  (base + span pre) mod 16 = 0.
Proof.
  intros [Hb [Hs Hlt] _ _ Hseg]. apply dseg_app in Hseg as [Hpre (?&?&?&Hpost)].
  pose proof (dseg_span _ _ _ _ _ Hpre) as [? ?]. pose proof (dseg_span _ _ _ _ _ Hpost) as [? ?].
  rewrite uspan_app in Hs. simpl in Hs. split_and!; try done; try lia. dlia.
Qed.

Lemma wp_load h p b (Q : block -> uheap K -> Prop) : u_blocks h !! p = Some b -> Q b h -> wp (load p) Q h.
Proof. intros E HQ. exists b, h. unfold load. by rewrite E. Qed.

Lemma wp_change h p b f (Q : () -> uheap K -> Prop) :
  u_blocks h !! p = Some b -> Q tt (set_blocks (<[p := f b]> (u_blocks h)) h) -> wp (change p f) Q h.
Proof. intros E HQ. eexists tt, _. unfold change. by rewrite E. Qed.

Lemma ulink_end x : link x x = 0.
Proof. unfold link. by rewrite Z.eqb_refl. Qed.

Lemma link_ne stop x : x <> stop -> link stop x = x.
Proof. intros. unfold link. by destruct (Z.eqb_spec x stop). Qed.

(** Split [pre ++ t :: post] at the tile after [t]. *)
Lemma app_shift pre (t : tile) post : pre ++ t :: post = (pre ++ [t]) ++ post.
Proof. by rewrite <- app_assoc. Qed.

Lemma span_snoc pre sz fr : span (pre ++ [(sz, fr)]) = span pre + sizeof_block + sz.
Proof. rewrite uspan_app. simpl. lia. Qed.

Lemma last_addr_snoc prev p pre sz fr : last_addr prev p (pre ++ [(sz, fr)]) = p + span pre.
Proof. by rewrite last_addr_app. Qed.

(** One turn of the merging loop. *)
Lemma arena_merge h base stop pre sz fr s post nx h' :
  arena h base stop (pre ++ (sz, fr) :: (s, true) :: post) ->
  nx = link stop (base + span pre + sizeof_block + sz + sizeof_block + s) ->
  (forall q, q < base + span pre -> u_blocks h' !! q = u_blocks h !! q) ->
  u_blocks h' !! (base + span pre) = Some (mk_block (sz + sizeof_block + s) (last_addr 0 base pre) nx fr) ->
  (forall q, base + span pre + sizeof_block + sz + sizeof_block + s < q < stop -> u_blocks h' !! q = u_blocks h !! q) ->
  (nx <> 0 -> u_blocks h' !! nx = with_prev (base + span pre) <$> u_blocks h !! nx) ->
  g_head h' = g_head h -> g_tail h' = (if nx =? 0 then base + span pre else g_tail h) ->
  arena h' base stop (pre ++ (sz + sizeof_block + s, fr) :: post).
Proof.
  intros Ha Hnx Hlow Hm Hhigh Hback Hh Ht. destruct (arena_tile _ _ _ _ _ _ _ Ha) as (_&Hsz&Hsz16&H0&_&_&Hs&Hlt&_).
  pose proof Ha as Ha2. rewrite app_shift in Ha2. destruct (arena_tile _ _ _ _ _ _ _ Ha2) as (_&Hsn&Hsn16&_&_&Hp&_).
  simpl in Hs. unfold sizeof_block in *.
  eapply (arena_replace h h' base stop pre [(sz, fr); (s, true)] [(sz + 32 + s, fr)] post); try done.
  - simpl. unfold sizeof_block. lia.
  - simpl. unfold sizeof_block. split_and!; try done; [|lia|dlia]. rewrite Hm, Hnx. do 3 f_equal. lia.
  - simpl. unfold sizeof_block. intros q Hq. apply Hhigh. lia.
  - simpl. unfold sizeof_block. intros Hq.
    replace (base + span pre + (32 + sz + (32 + s + 0))) with nx by (rewrite Hnx, link_ne; lia).
    apply Hback. rewrite Hnx, link_ne; lia.
  - rewrite Ht, Hnx. case_decide; [subst post; simpl in *|].
    + rewrite (proj2 (Z.eqb_eq (link _ _) 0)); [done|]. replace (base + span pre + 32 + sz + 32 + s) with stop by lia. apply ulink_end.
    + destruct post as [|[s2 f2] post]; [done|]. simpl in Hs.
      rewrite app_shift in Ha2. destruct (arena_tile _ _ _ _ _ _ _ Ha2) as (_&?&_&_&_&?&_). unfold sizeof_block in *.
      rewrite link_ne by lia. destruct (Z.eqb_spec (base + span pre + 32 + sz + 32 + s) 0); [lia|done].
Qed.

Lemma wp_coalesce_loop fuel : forall h base stop pre sz fr post (Q : () -> uheap K -> Prop),
  arena h base stop (pre ++ (sz, fr) :: post) -> (length post < fuel)%nat ->
  (forall h', arena h' base stop (pre ++ absorb sz fr post) -> rest h' = rest h -> Q tt h') ->
  wp (coalesce_loop fuel (base + span pre)) Q h.
Proof.
  induction fuel as [|fuel IH]; intros h base stop pre sz fr post Q Ha Hf HQ; [lia|]. cbn [coalesce_loop].
  destruct (arena_tile _ _ _ _ _ _ _ Ha) as (Hb&Hsz&_&H0&Hp0&_&Hs&Hlt&_).
  wstep. eapply wp_load; [exact Hb|]. cbn [b_next b_size].
  destruct post as [|[s f] post].
  { simpl in Hs. replace (base + span pre + sizeof_block + sz) with stop by lia. rewrite ulink_end, Z.eqb_refl.
    apply wp_ret. by apply HQ. }
  pose proof Ha as Ha2. rewrite app_shift in Ha2. destruct (arena_tile _ _ _ _ _ _ _ Ha2) as (Hn&Hsn&_&_&_&Hpost&_).
  rewrite span_snoc, last_addr_snoc in Hn. simpl in Hs. unfold sizeof_block in *.
  rewrite link_ne by lia. destruct (Z.eqb_spec (base + span pre + 32 + sz) 0); [lia|].
  wstep. eapply wp_load; [by replace (base + span pre + 32 + sz) with (base + (span pre + 32 + sz)) by lia|].
  cbn [b_free b_next b_size]. destruct f; cbn [negb]; [|apply wp_ret; by apply HQ].
  wstep. eapply wp_change; [exact Hb|]. wstep. eapply wp_change; [apply lookup_insert_eq|].
  ucbn. rewrite insert_insert_eq.
  rewrite (u64_id (32 + s)), u64_id by lia.
  replace (base + (span pre + 32 + sz) + 32 + s) with (base + span pre + 32 + sz + 32 + s) by lia.
  set (nx := link stop (base + span pre + 32 + sz + 32 + s)).
  assert (Hnx : nx = 0 /\ post = [] \/ nx = base + span pre + 32 + sz + 32 + s /\ exists b, u_blocks h !! nx = Some b).
  { destruct post as [|[s2 f2] post].
    - left. split; [|done]. unfold nx. simpl in Hs. replace (base + span pre + 32 + sz + 32 + s) with stop by lia. apply ulink_end.
    - right. rewrite app_shift in Ha2. destruct (arena_tile _ _ _ _ _ _ _ Ha2) as (Hn2&?&_&_&_&?&_). simpl in Hs.
      unfold sizeof_block in *. unfold nx. rewrite link_ne by lia. split; [done|].
      rewrite !uspan_app in Hn2. simpl in Hn2. unfold sizeof_block in Hn2. eexists. erewrite <- Hn2. f_equal. lia. }
  apply wp_bind.
  assert (Hgo : forall h', rest h' = rest h ->
    arena h' base stop (pre ++ (sz + 32 + s, fr) :: post) -> wp (coalesce_loop fuel (base + span pre)) Q h').
  { intros h' Hr Ha'. eapply IH; [exact Ha'|simpl in Hf; lia|]. intros h2 Ha3 Hr2. apply HQ; [done|congruence]. }
  destruct Hnx as [[E Ep]|[E [b Eb]]].
  - rewrite E. apply wp_update. apply Hgo; [done|].
    eapply (arena_merge h base stop pre sz fr s post nx); try done; ucbn.
    + intros q Hq. by rewrite lookup_insert_ne by lia.
    + rewrite lookup_insert_eq, ?E. unfold sizeof_block. by replace (sz + (32 + s)) with (sz + 32 + s) by lia.
    + unfold sizeof_block. intros q Hq. by rewrite lookup_insert_ne by lia.
    + by rewrite E.
  - destruct (Z.eqb_spec nx 0) as [?|Hnz]; [lia|]. eapply wp_change; [cbn [u_blocks set_blocks]; by rewrite lookup_insert_ne by lia|].
    apply Hgo; [done|].
    eapply (arena_merge h base stop pre sz fr s post nx); try done; ucbn.
    + intros q Hq. by rewrite !lookup_insert_ne by lia.
    + rewrite lookup_insert_ne, lookup_insert_eq by lia. unfold sizeof_block. by replace (sz + (32 + s)) with (sz + 32 + s) by lia.
    + unfold sizeof_block. intros q Hq. by rewrite !lookup_insert_ne by lia.
    + intros _. by rewrite lookup_insert_eq, Eb.
    + by destruct (Z.eqb_spec nx 0).
Qed.

Lemma wp_coalesce h base stop pre sz fr post (Q : () -> uheap K -> Prop) :
  arena h base stop (pre ++ (sz, fr) :: post) ->
  (forall h', arena h' base stop (pre ++ absorb sz fr post) -> rest h' = rest h -> Q tt h') ->
  wp (coalesce_forward (base + span pre)) Q h.
Proof.
  intros Ha HQ. unfold coalesce_forward. wstep. apply wp_reads. eapply wp_coalesce_loop; [exact Ha| |exact HQ].
  pose proof (dseg_dom _ _ _ _ _ (ar_seg _ _ _ _ Ha)) as Hd. rewrite length_app in Hd. simpl in Hd. lia.
Qed.

(** Setting the flag of a tile. *)
Lemma wp_flag h base stop pre sz fr post f (Q : () -> uheap K -> Prop) :
  arena h base stop (pre ++ (sz, fr) :: post) ->
  (forall h', arena h' base stop (pre ++ (sz, f) :: post) -> rest h' = rest h -> Q tt h') ->
  wp (change (base + span pre) (with_free f)) Q h.
Proof.
  intros Ha HQ. destruct (arena_tile _ _ _ _ _ _ _ Ha) as (Hb&_&_&_&_&?&Hs&_).
  eapply wp_change; [exact Hb|]. apply HQ; [|done]. destruct Ha as [Hba Hst Hh Ht Hseg].
  split; ucbn; try done.
  - rewrite uspan_app in *. simpl in *. done.
  - rewrite Hh. by destruct pre.
  - rewrite Ht, !last_addr_app. done.
  - apply dseg_app in Hseg as [Hp (_&?&?&Hn)]. apply dseg_app. split.
    + eapply dseg_frame; [exact Hp|]. intros q Hq. by rewrite lookup_insert_ne by lia.
    + split_and!; try done; [by rewrite lookup_insert_eq|].
      eapply dseg_frame; [exact Hn|]. intros q Hq. unfold sizeof_block in *. by rewrite lookup_insert_ne by lia.
Qed.

Lemma wp_split h base stop pre sz fr post need (Q : () -> uheap K -> Prop) :
  arena h base stop (pre ++ (sz, fr) :: post) -> 0 <= need <= sz -> need mod 16 = 0 ->
  (forall h', arena h' base stop (pre ++ cut need sz fr ++ post) -> rest h' = rest h -> Q tt h') ->
  wp (split_block (base + span pre) need) Q h.
Proof.
  intros Ha Hn Hn16 HQ. destruct (arena_tile _ _ _ _ _ _ _ Ha) as (Hb&Hsz&Hsz16&H0&Hp0&Hpost&Hs&Hlt&_).
  unfold split_block. wstep. eapply wp_load; [exact Hb|]. ucbn. unfold cut, payload_of, sizeof_block, UMALLOC_ALIGN in *.
  rewrite (u64_id (need + 32)), (u64_id (need + 32 + 16)) by lia. revert HQ. destruct (Z.ltb_spec sz (need + 32 + 16)); intros HQ.
  { apply wp_ret. by apply HQ. }
  rewrite (u64_id (base + span pre + 32)), (u64_id (base + span pre + 32 + need)), (u64_id (sz - need)),
    (u64_id (sz - need - 32)) by lia.
  set (rs := base + span pre + 32 + need). set (nx := link stop (base + span pre + 32 + sz)).
  wstep. apply wp_update. ucbn. apply wp_bind.
  assert (Hgo : forall h1, rest h1 = rest h -> g_head h1 = g_head h ->
    g_tail h1 = (if decide (post = []) then rs else g_tail h) ->
    (forall q, q < rs -> u_blocks h1 !! q = u_blocks h !! q) ->
    u_blocks h1 !! rs = Some (mk_block (sz - need - 32) (base + span pre) nx true) ->
    (forall q, base + span pre + 32 + sz < q < stop -> u_blocks h1 !! q = u_blocks h !! q) ->
    (base + span pre + 32 + sz < stop -> u_blocks h1 !! (base + span pre + 32 + sz) = with_prev rs <$> u_blocks h !! (base + span pre + 32 + sz)) ->
    wp (_ ← change (base + span pre) (with_next rs); change (base + span pre) (with_size need)) Q h1).
  { intros h1 Hr Hh Ht Hlow Hrs Hhigh Hback. wstep. eapply wp_change; [rewrite Hlow by lia; exact Hb|].
    eapply wp_change; [apply lookup_insert_eq|]. ucbn. rewrite insert_insert_eq. apply HQ; [|done].
    eapply (arena_replace h _ base stop pre [(sz, fr)] [(need, fr); (sz - need - 32, true)] post); try done; ucbn;
      unfold sizeof_block in *; simpl; unfold sizeof_block.
    - lia.
    - intros q Hq. rewrite lookup_insert_ne by lia. apply Hlow. lia.
    - split_and!; [|lia|done| |lia|clear -Hsz16 Hn16; dlia|done].
      + rewrite lookup_insert_eq; unfold with_size, with_next; ucbn; rewrite link_ne by lia. done.
      + rewrite lookup_insert_ne by lia. fold rs. rewrite Hrs. unfold nx. do 3 f_equal. lia.
    - intros q Hq. rewrite lookup_insert_ne by lia. apply Hhigh. lia.
    - replace (base + span pre + (32 + sz + 0)) with (base + span pre + 32 + sz) by lia. intros Hq. rewrite lookup_insert_ne by lia. by apply Hback. }
  destruct post as [|[s2 f2] post].
  - simpl in Hs. assert (E : nx = 0) by (unfold nx; replace (base + span pre + 32 + sz) with stop by lia; apply ulink_end).
    rewrite E. apply wp_update. apply Hgo; try done; ucbn.
    + intros q Hq. by rewrite lookup_insert_ne by lia.
    + by rewrite lookup_insert_eq, E.
    + intros q Hq. lia.
    + lia.
  - simpl in Hs. pose proof Ha as Ha2. rewrite app_shift in Ha2.
    destruct (arena_tile _ _ _ _ _ _ _ Ha2) as (Hb2&?&_&_&_&?&_). rewrite span_snoc in Hb2. unfold sizeof_block in *.
    assert (E : nx = base + span pre + 32 + sz) by (unfold nx; apply link_ne; lia).
    replace (base + (span pre + 32 + sz)) with nx in Hb2 by lia.
    destruct (Z.eqb_spec nx 0); [lia|]. eapply wp_change; [ucbn; rewrite lookup_insert_ne by lia; exact Hb2|].
    apply Hgo; try done; ucbn; try rewrite <- E.
    + intros q Hq. by rewrite !lookup_insert_ne by lia.
    + by rewrite lookup_insert_ne, lookup_insert_eq by lia.
    + intros q Hq. by rewrite !lookup_insert_ne by lia.
    + intros _. by rewrite lookup_insert_eq, Hb2.
Qed.

Lemma arena_head h base stop bs : arena h base stop bs -> g_head h = link stop base.
Proof.
  intros [_ [Hs _] -> _ Hseg]. case_decide as E; [subst bs; simpl in Hs; by replace stop with base by lia; rewrite ulink_end|].
  destruct bs as [|[sz fr] bs]; [done|]. destruct Hseg as (_&?&_&[? _]%dseg_span). simpl in Hs. unfold sizeof_block in *.
  by rewrite link_ne by lia.
Qed.

(** The search finds what [first_fit] finds. *)
Lemma wp_find_fit h base stop need post (Q : Z -> uheap K -> Prop) : forall fuel pre,
  arena h base stop (pre ++ post) -> (length post < fuel)%nat ->
  Q (match first_fit need post with Some (p, _, _) => base + span pre + span p | None => 0 end) h ->
  wp (find_fit fuel need (link stop (base + span pre))) Q h.
Proof.
  induction post as [|[sz fr] post IH]; intros fuel pre Ha Hf HQ; (destruct fuel as [|fuel]; [simpl in Hf; lia|]).
  - rewrite app_nil_r in Ha. cbn [find_fit]. rewrite <- (proj1 (ar_stop _ _ _ _ Ha)), ulink_end. by apply wp_ret.
  - destruct (arena_tile _ _ _ _ _ _ _ Ha) as (Hb&Hsz&_&H0&_&Hp&Hs&_). cbn [find_fit]. unfold sizeof_block in *.
    rewrite (link_ne stop (base + span pre)) by lia. destruct (Z.eqb_spec (base + span pre) 0); [lia|].
    wstep. eapply wp_load; [exact Hb|]. ucbn. cbn [first_fit] in HQ. destruct (fr && (need <=? sz)).
    + apply wp_ret. simpl in HQ. by rewrite Z.add_0_r in HQ.
    + rewrite app_shift in Ha. replace (base + span pre + 32 + sz) with (base + span (pre ++ [(sz, fr)]))
        by (rewrite span_snoc; unfold sizeof_block; lia).
      eapply IH; [exact Ha|simpl in Hf; lia|]. destruct (first_fit need post) as [[[p s] q]|]; cbn in HQ |- *; [|done].
      rewrite span_snoc. replace (base + (span pre + sizeof_block + sz) + span p) with (base + span pre + (sizeof_block + sz + span p)) by lia.
      done.
Qed.

(** ** Growing the arena *)

Lemma dseg_stop m stop stop' prev p bs :
  dseg m stop prev p bs -> p + span bs < stop -> p + span bs < stop' -> dseg m stop' prev p bs.
Proof.
  revert prev p. induction bs as [|[sz fr] bs IH]; intros prev p; simpl; [done|]. intros (Hp&?&?&Hs) ? ?.
  pose proof (dseg_span _ _ _ _ _ Hs). rewrite link_ne in Hp by lia. split_and!; try done.
  - by rewrite link_ne by lia.
  - apply IH; [done|lia|lia].
Qed.

Lemma arena_tail_nil h base stop bs : arena h base stop bs -> g_tail h = 0 <-> bs = [].
Proof.
  intros Ha. rewrite (ar_tail _ _ _ _ Ha). split; [|by intros ->].
  destruct bs as [|[sz fr] bs _] using rev_ind; [done|]. rewrite last_addr_snoc. intros H.
  destruct (arena_tile _ _ _ _ _ _ _ Ha) as (_&_&_&?&_). lia.
Qed.

Lemma arena_extend h h' base stop n sz bs :
  arena h base stop bs -> n = sizeof_block + sz -> 0 <= sz -> sz mod 16 = 0 -> stop + n < 2 ^ 63 ->
  u_blocks h' !! stop = Some (mk_block sz (g_tail h) 0 true) ->
  (bs <> [] -> u_blocks h' !! g_tail h = with_next stop <$> u_blocks h !! g_tail h) ->
  (forall q, q < stop -> q <> g_tail h -> u_blocks h' !! q = u_blocks h !! q) ->
  g_head h' = (if decide (bs = []) then stop else g_head h) -> g_tail h' = stop ->
  arena h' base (stop + n) (bs ++ [(sz, true)]).
Proof.
  intros Ha Hn Hsz H16 Hlt Hnew Htail Hlow Hh Ht. pose proof Ha as [Hb [Hs _] Hh0 Ht0 Hseg].
  split; [done|split; [rewrite span_snoc; lia|done]| | |].
  - rewrite Hh, Hh0. destruct bs; [simpl in *; repeat case_decide; try done; lia|done].
  - by rewrite Ht, last_addr_snoc.
  - apply dseg_app. split; cycle 1.
    { simpl. split_and!; try done. rewrite <- Hs, Hnew, Ht0. replace (stop + sizeof_block + sz) with (stop + n) by lia.
      by rewrite ulink_end. }
    destruct bs as [|[s f] bs _] using rev_ind; [done|].
    destruct (arena_tile _ _ _ _ _ _ _ Ha) as (Hl&?&?&?&?&_&Hs'&_). simpl in Hs'.
    rewrite Ht0, last_addr_snoc in Htail, Hlow. apply dseg_app in Hseg as [Hseg _]. unfold sizeof_block in *.
    apply dseg_app. split.
    + eapply dseg_frame; [eapply dseg_stop; [exact Hseg|lia|lia]|]. intros q Hq. apply Hlow; lia.
    + simpl. unfold sizeof_block. split_and!; try done. rewrite Htail by (by destruct bs). rewrite Hl. unfold with_next. simpl. rewrite link_ne by lia.
      do 2 f_equal. lia.
Qed.

End Arena.

(** ** The operations *)

Lemma round_mask n k : 0 <= k <= 64 -> 0 <= n -> n + (2 ^ k - 1) < 2 ^ 64 ->
  Z.land (u64 (n + (2 ^ k - 1))) (u64 (Z.lnot (2 ^ k - 1))) = (n + (2 ^ k - 1)) / 2 ^ k * 2 ^ k.
Proof.
  intros Hk Hn Hlt. assert (2 ^ k <= 2 ^ 64) by (apply Z.pow_le_mono_r; lia). assert (0 < 2 ^ k) by lia.
  rewrite (u64_id (n + _)) by lia.
  assert (E : u64 (Z.lnot (2 ^ k - 1)) = Z.ldiff (Z.ones 64) (Z.ones k)).
  { unfold u64. rewrite <- Z.land_ones by lia. rewrite Z.ones_equiv. apply Z.bits_inj'. intros i Hi.
    rewrite Z.land_spec, Z.ldiff_spec, Z.lnot_spec by lia. rewrite Z.ones_equiv. apply andb_comm. }
  rewrite E, land_round, (Z.mod_small (n + _)) by lia. done.
Qed.

Lemma align_up_ok n : 0 <= n < 2 ^ 62 -> align_up n = round16 n.
Proof. intros. unfold align_up, round16, UMALLOC_ALIGN. apply (round_mask n 4); lia. Qed.

Lemma page_align_ok n : 0 <= n < 2 ^ 63 -> page_align n = (n + 4095) / 4096 * 4096.
Proof. intros. unfold page_align. apply (round_mask n 12); lia. Qed.

Lemma round16_ok n : 0 <= n -> n <= round16 n < n + 16 /\ round16 n mod 16 = 0.
Proof. intros. unfold round16. dlia. Qed.

Lemma growth_ok need : 0 <= need < 2 ^ 62 -> need mod 16 = 0 ->
  need + sizeof_block <= growth need < 2 ^ 63 /\ growth need mod 16 = 0 /\ UMALLOC_GROW_MIN <= growth need.
Proof. intros. unfold growth, sizeof_block, UMALLOC_GROW_MIN. dlia. Qed.

Section Heap.
Context {K : Type} (sbrk : Z -> ST K Z) {SB : SbrkService K sbrk}.
Implicit Types (h : uheap K) (bs pre post : list tile).

Abbreviation sbrk_break := (sbrk_break (sbrk := sbrk)).
Abbreviation sbrk_ok := (sbrk_ok (sbrk := sbrk)).

(** The invariant: the tiles fill the arena from [base] to the break, free
    neighbours are merged, and [g_used] counts the payloads handed out. *)
Record heap_ok h base bs : Prop := {
  ho_arena : arena h base (sbrk_break (u_kernel h)) bs;
  ho_merged : coalesced bs;
  ho_used : g_used h = live bs;
  ho_kernel : sbrk_ok (u_kernel h) }.

(** Fields the list operations keep. *)
Definition kept h h' : Prop := u_bytes h' = u_bytes h /\ g_alloc_lock h' = g_alloc_lock h.

Lemma rest_fields h h' : rest h' = rest h ->
  u_bytes h' = u_bytes h /\ g_used h' = g_used h /\ g_capacity h' = g_capacity h /\
  g_alloc_lock h' = g_alloc_lock h /\ u_kernel h' = u_kernel h.
Proof. unfold rest. intros H. injection H as ? ? ? ? ?. done. Qed.

Lemma live_range m stop prev p bs : dseg m stop prev p bs -> 0 <= live bs <= span bs.
Proof.
  revert prev p. induction bs as [|[sz fr] bs IH]; intros prev p; simpl; [lia|].
  intros (_&?&_&?%IH). unfold sizeof_block. destruct fr; lia.
Qed.

Lemma arena_live h base stop bs : arena h base stop bs -> 0 <= live bs < 2 ^ 63.
Proof. intros [Hb [Hs Hlt] _ _ H%live_range]. lia. Qed.

Lemma arena_Forall h base stop bs : arena h base stop bs -> Forall (fun t : tile => 0 <= t.1) bs.
Proof.
  intros [_ _ _ _ H]. revert H. generalize 0 at 1. intros prev. revert prev base.
  induction bs as [|[sz fr] bs IH]; intros prev p; simpl; [constructor|]. intros (_&?&_&?). constructor; [done|by eapply IH].
Qed.

Lemma arena_same h h' base stop bs :
  u_blocks h' = u_blocks h -> g_head h' = g_head h -> g_tail h' = g_tail h -> arena h base stop bs -> arena h' base stop bs.
Proof. intros Eb Eh Et [? ? ? ? ?]. split; congruence. Qed.

(** Four actions in a row, the last three of them without result. *)
Lemma wp_seq4 {A} (a b c d : ST (uheap K) ()) (e : ST (uheap K) A) Q h :
  wp (_ ← a; _ ← b; _ ← c; d) (fun _ => wp e Q) h -> wp (_ ← a; _ ← b; _ ← c; _ ← d; e) Q h.
Proof.
  intros (x&h'&E&HQ). unfold wp, mbind, ST_bind in *. destruct (a h) as [[? h1]|]; [|done].
  destruct (b h1) as [[? h2]|]; [|done]. destruct (c h2) as [[? h3]|]; [|done]. by rewrite E.
Qed.

Lemma set_tail_same h : set_tail (g_tail h) h = h.
Proof. by destruct h. Qed.

(** The end of [grow_heap]: the new tile is joined to a free last tile. *)
Definition grow_finish (stop : Z) : ST (uheap K) bool :=
  b ← load stop;
  if b_prev b =? 0 then mret true
  else
    p ← load (b_prev b);
    if negb (b_free p) then mret true
    else
      _ ← coalesce_forward (b_prev b);
      p' ← load (b_prev b);
      _ ← (if b_next p' =? 0 then update (set_tail (b_prev b)) else mret ());
      mret true.

Lemma wp_grow_finish h base stop bs sz (Q : bool -> uheap K -> Prop) :
  arena h base stop (bs ++ [(sz, true)]) ->
  (forall h', arena h' base stop (join bs sz []) -> rest h' = rest h -> Q true h') ->
  wp (grow_finish (base + span bs)) Q h.
Proof.
  intros Ha HQ. destruct (arena_tile _ _ _ _ _ _ _ Ha) as (Hl&_). unfold grow_finish.
  wstep. eapply wp_load; [exact Hl|]. ucbn. clear Hl. destruct bs as [|[s f] bs _] using rev_ind.
  { simpl. apply wp_ret. by apply HQ. }
  rewrite last_addr_snoc. rewrite <- app_assoc in Ha. simpl in Ha.
  destruct (arena_tile _ _ _ _ _ _ _ Ha) as (Hp&_&_&?&_).
  destruct (Z.eqb_spec (base + span bs) 0); [lia|]. wstep. eapply wp_load; [exact Hp|]. ucbn.
  destruct (join_cases (bs ++ [(s, f)]) sz []) as [[He Ej]|(p'&s'&[-> [= -> ->]]%app_inj_tail&Ej)]; rewrite Ej in HQ.
  - rewrite ends_free_snoc in He. subst f. apply wp_ret. apply HQ; [|done]. by rewrite <- app_assoc.
  - cbn [negb]. wstep. eapply wp_coalesce; [exact Ha|]. intros h3 Ha3 Hr3. cbn [absorb] in Ha3.
    destruct (arena_tile _ _ _ _ _ _ _ Ha3) as (Hp3&_&_&_&_&_&Hs3&_). simpl in Hs3.
    wstep. eapply wp_load; [exact Hp3|]. ucbn.
    replace (base + span p' + sizeof_block + (s' + sizeof_block + sz)) with stop by lia. rewrite ulink_end. simpl.
    wstep. apply wp_update. apply wp_ret.
    pose proof (ar_tail _ _ _ _ Ha3) as Ht3. rewrite last_addr_snoc in Ht3. rewrite <- Ht3, set_tail_same. by apply HQ.
Qed.

(** Laying the new tile down. *)
Lemma wp_grow_lay h base stop bs n (Q : () -> uheap K -> Prop) :
  arena h base stop bs -> sizeof_block <= n -> n mod 16 = 0 -> stop + n < 2 ^ 63 ->
  (forall h', arena h' base (stop + n) (bs ++ [(n - sizeof_block, true)]) -> u_bytes h' = u_bytes h ->
     g_used h' = g_used h -> g_alloc_lock h' = g_alloc_lock h -> u_kernel h' = u_kernel h -> Q tt h') ->
  wp (_ ← lay stop (mk_block (n - sizeof_block) (g_tail h) 0 true);
      _ ← (if g_tail h =? 0 then update (set_head stop) else change (g_tail h) (with_next stop));
      _ ← update (set_tail stop);
      update (fun h => set_capacity (u64 (g_capacity h + (n - sizeof_block))) h)) Q h.
Proof.
  intros Ha Hn H16 Hlt HQ. unfold sizeof_block in *. wstep. apply wp_update. apply wp_bind.
  pose proof (arena_tail_nil _ _ _ _ Ha) as Htn. destruct (decide (bs = [])) as [Ebs|Ebs].
  - rewrite (proj2 Htn Ebs). apply wp_update. wstep. apply wp_update. apply wp_update. apply HQ; try done.
    eapply (arena_extend h _ base stop n (n - 32)); try done; ucbn; unfold sizeof_block; try lia; try dlia.
    + by rewrite lookup_insert_eq, (proj2 Htn Ebs).
    + intros q Hq _. by rewrite lookup_insert_ne by lia.
    + by rewrite decide_True.
  - destruct (Z.eqb_spec (g_tail h) 0) as [?%Htn|Hnz]; [done|].
    destruct bs as [|[s f] bs _] using rev_ind; [done|]. pose proof (ar_tail _ _ _ _ Ha) as Ht. rewrite last_addr_snoc in Ht.
    destruct (arena_tile _ _ _ _ _ _ _ Ha) as (Hl&?&_&_&_&_&Hs&_). simpl in Hs. unfold sizeof_block in *.
    eapply wp_change; [ucbn; rewrite Ht, lookup_insert_ne by lia; exact Hl|].
    wstep. apply wp_update. apply wp_update. apply HQ; try done.
    eapply (arena_extend h _ base stop n (n - 32)); try done; ucbn; unfold sizeof_block; try lia; try dlia.
    + by rewrite lookup_insert_ne, lookup_insert_eq by lia.
    + intros _. by rewrite lookup_insert_eq, Ht, Hl.
    + intros q Hq Hne. by rewrite !lookup_insert_ne by lia.
    + by rewrite decide_False.
Qed.

(** [grow_heap]: refused with the heap unchanged, or a free tile of the
    requested growth at the end. *)
Lemma wp_grow h base bs need (Q : bool -> uheap K -> Prop) :
  heap_ok h base bs -> 0 <= need < 2 ^ 62 -> need mod 16 = 0 ->
  (forall h', heap_ok h' base bs -> sbrk (growth need) (u_kernel h) = Some (FAILED, u_kernel h') -> kept h h' -> Q false h') ->
  (forall h', heap_ok h' base (join bs (growth need - sizeof_block) []) ->
     sbrk_break (u_kernel h') = sbrk_break (u_kernel h) + growth need -> kept h h' -> Q true h') ->
  wp (grow_heap sbrk need) Q h.
Proof.
  intros [Ha Hm Hu Hk] Hn Hn16 HF HT. destruct (growth_ok need Hn Hn16) as (Hg&Hg16&Hgm).
  unfold grow_heap. rewrite (u64_id (need + sizeof_block)) by (unfold sizeof_block in *; lia).
  assert (E : page_align (if need + sizeof_block <? UMALLOC_GROW_MIN then UMALLOC_GROW_MIN else need + sizeof_block) = growth need).
  { unfold growth, sizeof_block, UMALLOC_GROW_MIN. destruct (Z.ltb_spec (need + 32) (64 * 1024));
      rewrite page_align_ok by lia; do 3 f_equal; lia. }
  rewrite E. clear E. set (n := growth need) in *. rewrite (u64_id (n - sizeof_block)) by (unfold sizeof_block in *; lia).
  apply wp_bind. destruct (sbrk_spec n (u_kernel h) Hk) as (r&k'&Er&Hk'&Hr); [unfold sizeof_block, UMALLOC_GROW_MIN in *; lia|].
  exists r, (set_kernel k' h). unfold sys_sbrk. rewrite Er. split; [done|].
  pose proof (sbrk_range _ Hk) as Hrg. pose proof (sbrk_range _ Hk') as Hrg'.
  assert (Ha' : arena (set_kernel k' h) base (sbrk_break (u_kernel h)) bs) by (by apply (arena_same h)).
  destruct Hr as [[-> Eb]|[-> Eb]]; cbn beta iota.
  { rewrite Z.eqb_refl. apply wp_ret. apply HF; [split; try done; ucbn; by rewrite Eb|exact Er|done]. }
  clear Er. unfold FAILED. destruct (Z.eqb_spec (sbrk_break (u_kernel h)) (2 ^ 64 - 1)); [lia|].
  wstep. apply wp_reads.
  change (wp (_ ← lay (sbrk_break (u_kernel h)) (mk_block (n - sizeof_block) (g_tail (set_kernel k' h)) 0 true);
    _ ← (if g_tail (set_kernel k' h) =? 0 then update (set_head (sbrk_break (u_kernel h)))
         else change (g_tail (set_kernel k' h)) (with_next (sbrk_break (u_kernel h))));
    _ ← update (set_tail (sbrk_break (u_kernel h)));
    _ ← update (fun h => set_capacity (u64 (g_capacity h + (n - sizeof_block))) h);
    grow_finish (sbrk_break (u_kernel h))) Q (set_kernel k' h)).
  apply wp_seq4. eapply wp_grow_lay; [exact Ha'|unfold sizeof_block, UMALLOC_GROW_MIN in *; lia|done|lia|].
  intros h1 Ha1 R1 R2 R3 R4. pose proof (proj1 (ar_stop _ _ _ _ Ha)) as Hst. rewrite Hst at 1.
  eapply wp_grow_finish; [exact Ha1|]. intros h2 Ha2 (S1&S2&S3&S4&S5)%rest_fields. simpl in R1, R2, R3, R4.
  apply HT; [split|rewrite S5, R4; done|split; congruence].
  - rewrite S5, R4. by rewrite Eb.
  - eapply (join_coalesced _ _ false). apply coalesced_app. by rewrite andb_false_r.
  - rewrite S2, R2, join_live. simpl. lia.
  - by rewrite S5, R4.
Qed.

(** ** Allocation *)

(** First-fit allocation on tiles: offset of the payload and the new tiles. *)
Definition place (need : Z) (bs : list tile) : option (Z * list tile) :=
  '(pre, sz, post) ← first_fit need bs; Some (span pre + sizeof_block, pre ++ cut need sz false ++ post).

(** Take the tile found by the search. *)
Definition take_block (b need : Z) : ST (uheap K) Z :=
  _ ← split_block b need;
  _ ← change b (with_free false);
  x ← load b;
  _ ← update (fun h => set_used (u64 (g_used h + b_size x)) h);
  mret (payload_of b).

(** Cutting a tile and marking it used, whatever its flag was; [u] is the part
    of [g_used] that belongs to the other tiles. *)
Lemma wp_take h base pre sz fr post need (Q : Z -> uheap K -> Prop) :
  arena h base (sbrk_break (u_kernel h)) (pre ++ (sz, fr) :: post) -> sbrk_ok (u_kernel h) ->
  coalesced (pre ++ (sz, fr) :: post) -> starts_free post = false ->
  g_used h = live pre + live post -> 0 <= need <= sz -> need mod 16 = 0 ->
  (forall h', heap_ok h' base (pre ++ cut need sz false ++ post) -> kept h h' -> u_kernel h' = u_kernel h ->
     Q (base + span pre + sizeof_block) h') ->
  wp (take_block (base + span pre) need) Q h.
Proof.
  intros Ha Hk Hc Hsf Hu Hn Hn16 HQ. unfold take_block. wstep. eapply wp_split; [exact Ha|done|done|]. intros h1 Ha1 Hr1.
  assert (Hcc := cut_coalesced _ _ _ _ _ Hn Hc Hsf). destruct (cut_size need sz Hn) as (n&q&Ec&_&_&Hlq&_).
  assert (Ec' : cut need sz fr = (n, fr) :: q).
  { unfold cut in *. destruct (sz <? _); injection Ec as <- <-; done. }
  rewrite Ec in *. rewrite Ec' in Ha1. simpl in Ha1. wstep. eapply wp_flag; [exact Ha1|]. intros h2 Ha2 Hr2.
  destruct (arena_tile _ _ _ _ _ _ _ Ha2) as (Hb&?&_&?&?&?&?&?&_).
  wstep. eapply wp_load; [exact Hb|]. ucbn. wstep. apply wp_update. apply wp_ret.
  unfold payload_of. rewrite u64_id by (unfold sizeof_block in *; lia).
  apply rest_fields in Hr1 as (B1&U1&_&L1&K1). apply rest_fields in Hr2 as (B2&U2&_&L2&K2).
  pose proof (arena_live _ _ _ _ Ha2) as Hlv. rewrite ulive_app in Hlv. simpl in Hlv. rewrite ulive_app in Hlv.
  apply HQ; [split; ucbn| |].
  - rewrite K2, K1. by eapply arena_same; [..|exact Ha2].
  - exact Hcc.
  - rewrite U2, U1, Hu, ulive_app. simpl. rewrite ulive_app, u64_id; lia.
  - congruence.
  - split; ucbn; congruence.
  - ucbn. congruence.
Qed.

(** Outcome of a request for [need] bytes (already rounded): NULL when nothing
    fits and the kernel refuses to grow the heap, otherwise a first-fit
    placement, possibly after a growth. *)
Definition malloc_post h base bs need (r : Z) h' : Prop :=
  kept h h' /\
  (r = 0 /\ heap_ok h' base bs /\ place need bs = None /\ sbrk (growth need) (u_kernel h) = Some (FAILED, u_kernel h') \/
   exists off bs', r = base + off /\ heap_ok h' base bs' /\
     (place need bs = Some (off, bs') \/
      place need bs = None /\ place need (join bs (growth need - sizeof_block) []) = Some (off, bs'))).

Lemma wp_place h base bs need off bs' fuel (Q : Z -> uheap K -> Prop) :
  heap_ok h base bs -> 0 <= need -> need mod 16 = 0 -> place need bs = Some (off, bs') ->
  (forall h', heap_ok h' base bs' -> kept h h' -> Q (base + off) h') ->
  wp (umalloc_loop sbrk (S fuel) need) Q h.
Proof.
  intros [Ha Hm Hu Hk] Hn Hn16 Hp HQ. cbn [umalloc_loop]. wstep. apply wp_reads. wstep. apply wp_reads. wstep.
  rewrite (arena_head _ _ _ _ Ha). replace base with (base + span []) at 1 by (simpl; lia).
  eapply wp_find_fit; [exact Ha|pose proof (dseg_dom _ _ _ _ _ (ar_seg _ _ _ _ Ha)); lia|].
  unfold place in Hp. destruct (first_fit need bs) as [[[pre sz] post]|] eqn:E; [|done]. injection Hp as <- <-.
  destruct (ufirst_fit_Some _ _ _ _ _ E) as [-> Hsz]. simpl span. rewrite Z.add_0_r.
  destruct (arena_tile _ _ _ _ _ _ _ Ha) as (_&_&_&?&_). destruct (Z.eqb_spec (base + span pre) 0); [lia|].
  rewrite Z.add_assoc in HQ. rewrite ulive_app in Hu. simpl in Hu.
  eapply wp_take; [exact Ha|done|done| |lia|lia|done|intros; by apply HQ].
  apply coalesced_app in Hm as (_&Hm&_). apply coalesced_cons in Hm as [Hm _]. by apply Hm.
Qed.

Lemma wp_umalloc_loop h base bs need fuel (Q : Z -> uheap K -> Prop) :
  heap_ok h base bs -> 0 <= need < 2 ^ 62 -> need mod 16 = 0 ->
  (forall r h', malloc_post h base bs need r h' -> Q r h') ->
  wp (umalloc_loop sbrk (S (S fuel)) need) Q h.
Proof.
  intros Hh Hn Hn16 HQ. destruct (place need bs) as [[off bs']|] eqn:Ep.
  { eapply wp_place; [exact Hh|lia|done|exact Ep|]. intros h' Hh' Hk. apply HQ. split; [done|right]. exists off, bs'. auto. }
  pose proof (ho_arena _ _ _ Hh) as Ha. cbn [umalloc_loop]. wstep. apply wp_reads. wstep. apply wp_reads. wstep.
  rewrite (arena_head _ _ _ _ Ha). replace base with (base + span []) at 1 by (simpl; lia).
  eapply wp_find_fit; [exact Ha|pose proof (dseg_dom _ _ _ _ _ (ar_seg _ _ _ _ Ha)); lia|].
  unfold place in Ep. destruct (first_fit need bs) as [[[pre sz] post]|] eqn:E; [done|]. clear Ep. cbn [Z.eqb].
  assert (Ep : place need bs = None) by (unfold place; by rewrite E).
  wstep. eapply wp_grow; [exact Hh|done|done| |].
  - intros h' Hh' Hb Hk. apply wp_ret. apply HQ. split; [done|]. left. auto.
  - intros h1 Hh1 _ [Kb Kl]. cbn [negb]. destruct (growth_ok need Hn Hn16) as (Hg&_).
    destruct (place need (join bs (growth need - sizeof_block) [])) as [[off bs']|] eqn:Ep'.
    + eapply wp_place; [exact Hh1|lia|done|exact Ep'|]. intros h' Hh' [Kb' Kl']. apply HQ. split; [split; congruence|].
      right. exists off, bs'. auto.
    + unfold place in Ep'. destruct (first_fit need (join _ _ _)) as [[[? ?] ?]|] eqn:E'; [done|].
      eapply first_fit_join in E'; [done|by eapply arena_Forall|lia].
Qed.

Lemma wp_umalloc_nolock h base bs size fuel (Q : Z -> uheap K -> Prop) :
  heap_ok h base bs -> 0 < size < 2 ^ 61 ->
  (forall r h', malloc_post h base bs (round16 size) r h' -> Q r h') ->
  wp (umalloc_nolock sbrk (S (S fuel)) size) Q h.
Proof.
  intros Hh Hs HQ. unfold umalloc_nolock. destruct (Z.eqb_spec size 0); [lia|]. rewrite align_up_ok by lia.
  destruct (round16_ok size) as [? ?]; [lia|]. by eapply wp_umalloc_loop; [exact Hh|lia|..].
Qed.

(** ** Release *)

Lemma wp_ufree_nolock h base pre sz post (Q : () -> uheap K -> Prop) :
  heap_ok h base (pre ++ (sz, false) :: post) ->
  (forall h', heap_ok h' base (join pre sz post) -> kept h h' -> u_kernel h' = u_kernel h -> Q tt h') ->
  wp (ufree_nolock (base + span pre + sizeof_block)) Q h.
Proof.
  intros [Ha Hm Hu Hk] HQ. unfold ufree_nolock, block_of.
  destruct (arena_tile _ _ _ _ _ _ _ Ha) as (Hb&?&_&?&?&?&?&?&_). pose proof (arena_live _ _ _ _ Ha) as Hlv.
  destruct (Z.eqb_spec (base + span pre + sizeof_block) 0); [unfold sizeof_block in *; lia|].
  replace (base + span pre + sizeof_block - sizeof_block) with (base + span pre) by lia.
  rewrite u64_id by (unfold sizeof_block in *; lia). wstep. eapply wp_load; [exact Hb|]. ucbn.
  wstep. eapply wp_flag; [exact Ha|]. intros h1 Ha1 (B1&U1&_&L1&K1)%rest_fields. wstep. apply wp_update. set (h2 := set_used _ h1).
  rewrite ulive_app in Hu, Hlv. simpl in Hu, Hlv.
  pose proof (arena_live _ _ _ _ Ha1) as Hlv1. rewrite ulive_app in Hlv1. simpl in Hlv1.
  assert (U2 : g_used h2 = live pre + live post) by (unfold h2; ucbn; rewrite U1, Hu, u64_id; lia).
  assert (Ha2 : arena h2 base (sbrk_break (u_kernel h)) (pre ++ (sz, true) :: post)) by (by eapply arena_same; [..|exact Ha1]).
  wstep. eapply wp_coalesce; [exact Ha2|]. intros h3 Ha3 (B3&U3&_&L3&K3)%rest_fields. unfold h2 in B3, L3, K3. simpl in B3, L3, K3. clearbody h2.
  assert (Hend : forall h', arena h' base (sbrk_break (u_kernel h)) (join pre sz post) -> rest h' = rest h3 -> Q tt h').
  { intros h' Ha' (B4&U4&_&L4&K4)%rest_fields. assert (Ek : u_kernel h' = u_kernel h) by congruence.
    apply HQ; [split; rewrite ?Ek| |done]; [done| | |done|split; congruence].
    - by eapply join_coalesced.
    - by rewrite U4, U3, U2, join_live. }
  destruct (absorb_shape post) as (d&q&Hs&Habs). rewrite Habs in Ha3. destruct (arena_tile _ _ _ _ _ _ _ Ha3) as (Hb3&_).
  wstep. eapply wp_load; [exact Hb3|]. ucbn. destruct (join_cases pre sz post) as [[He Ej]|(pre'&s&->&Ej)].
  - rewrite Ej, Habs in Hend. destruct pre as [|[s f] pre _] using rev_ind; [simpl; apply wp_ret; by apply Hend|].
    rewrite last_addr_snoc. rewrite ends_free_snoc in He. subst f. pose proof Ha3 as Ha4. rewrite <- app_assoc in Ha4. simpl in Ha4.
    destruct (arena_tile _ _ _ _ _ _ _ Ha4) as (Hb4&_&_&?&_). destruct (Z.eqb_spec (base + span pre) 0); [lia|].
    wstep. eapply wp_load; [exact Hb4|]. ucbn. apply wp_ret. by apply Hend.
  - rewrite last_addr_snoc. rewrite <- app_assoc in Ha3. simpl in Ha3.
    destruct (arena_tile _ _ _ _ _ _ _ Ha3) as (Hb4&_&_&?&_). destruct (Z.eqb_spec (base + span pre') 0); [lia|].
    wstep. eapply wp_load; [exact Hb4|]. ucbn. eapply wp_coalesce; [exact Ha3|]. intros h5 Ha5 Hr5.
    rewrite (absorb_two s sz post d q) in Ha5 by done. apply Hend; [by rewrite Ej|done].
Qed.

(** ** Payloads *)

Lemma payloads_split p bs q n : (q, n) ∈ payloads p bs ->
  exists pre post, bs = pre ++ (n, false) :: post /\ q = p + span pre + sizeof_block.
Proof.
  revert p. induction bs as [|[sz fr] bs IH]; intros p; simpl; [by intros ?%elem_of_nil|].
  intros [H|H]%elem_of_app.
  - destruct fr; [by apply elem_of_nil in H|]. apply list_elem_of_singleton in H as [= -> ->].
    exists [], bs. split; [done|]. simpl. lia.
  - destruct (IH _ H) as (pre&post&->&->). exists ((sz, fr) :: pre), post. split; [done|]. simpl. lia.
Qed.

Lemma payloads_mid p pre sz fr post :
  payloads p (pre ++ (sz, fr) :: post) =
  payloads p pre ++ (if fr then [] else [(p + span pre + sizeof_block, sz)]) ++ payloads (p + span pre + sizeof_block + sz) post.
Proof. by rewrite upayloads_app. Qed.

Lemma upayloads_range m stop prev p bs q n : dseg m stop prev p bs -> (q, n) ∈ payloads p bs ->
  p + sizeof_block <= q /\ 0 <= n /\ q + n <= p + span bs /\ (q - p) mod 16 = 0.
Proof.
  intros Hd (pre&post&->&->)%payloads_split. apply dseg_app in Hd as [Hp (_&?&?&Hq)].
  destruct (dseg_span _ _ _ _ _ Hp), (dseg_span _ _ _ _ _ Hq). rewrite uspan_app. simpl. unfold sizeof_block in *.
  split_and!; [lia|lia|lia|dlia].
Qed.

(** Payloads are apart, with room for a header. *)
Definition apart (x y : Z * Z) : Prop := x.1 + x.2 + sizeof_block <= y.1 \/ y.1 + y.2 + sizeof_block <= x.1.

Lemma payloads_apart m stop prev p bs x y :
  dseg m stop prev p bs -> x ∈ payloads p bs -> y ∈ payloads p bs -> x <> y -> apart x y.
Proof.
  revert prev p. induction bs as [|[sz fr] bs IH]; intros prev p; simpl; [by intros _ ?%elem_of_nil|].
  intros (_&?&?&Hd). rewrite !elem_of_app. destruct fr.
  - intros [?%elem_of_nil|Hx] [?%elem_of_nil|Hy] Hn; try done. by eapply IH.
  - rewrite !list_elem_of_singleton. destruct x as [qx nx], y as [qy ny].
    intros [[= -> ->]|Hx] [[= -> ->]|Hy] Hn; [done| | |by eapply IH]; unfold apart; simpl;
      [pose proof (upayloads_range _ _ _ _ _ _ _ Hd Hy)|pose proof (upayloads_range _ _ _ _ _ _ _ Hd Hx)]; lia.
Qed.

Lemma payloads_NoDup m stop prev p bs : dseg m stop prev p bs -> NoDup (payloads p bs).*1.
Proof.
  revert prev p. induction bs as [|[sz fr] bs IH]; intros prev p; simpl; [constructor|].
  intros (_&?&_&Hd). destruct fr; simpl; [by eapply IH|]. constructor; [|by eapply IH].
  intros ([q n]&E&Hq)%list_elem_of_fmap. simpl in E. subst q. apply (upayloads_range _ _ _ _ _ _ _ Hd) in Hq.
  unfold sizeof_block in *. lia.
Qed.

Lemma place_payloads base need bs off bs' : 0 <= need -> place need bs = Some (off, bs') ->
  exists n, need <= n < need + sizeof_block + UMALLOC_ALIGN /\ payloads base bs' ≡ₚ (base + off, n) :: payloads base bs.
Proof.
  unfold place. intros Hn. destruct (first_fit need bs) as [[[pre sz] post]|] eqn:E; [|done]. intros [= <- <-].
  apply ufirst_fit_Some in E as [-> Hsz]. destruct (cut_size need sz) as (n&q&Ec&Hb&_&_&Hq&_); [lia|]. exists n. split; [done|].
  pose proof (cut_span need sz false) as Hs. rewrite Ec in Hs |- *. cbn [app]. rewrite !payloads_mid, upayloads_app, Hq. simpl in Hs |- *.
  replace (base + span pre + sizeof_block + n + span q) with (base + span pre + sizeof_block + sz) by lia.
  rewrite Z.add_assoc. solve_Permutation.
Qed.

(** ** Reallocation *)

Lemma wp_each_copy h base dst src n (Q : () -> uheap K -> Prop) bs :
  heap_ok h base bs -> 0 <= n -> (dst + n <= src \/ src + n <= dst) ->
  (forall h', heap_ok h' base bs -> g_alloc_lock h' = g_alloc_lock h ->
     (forall a, u_bytes h' a = if (dst <=? a) && (a <? dst + n) then u_bytes h (src + (a - dst)) else u_bytes h a) -> Q tt h') ->
  wp (each (copy_byte dst src) (seqZ 0 n)) Q h.
Proof.
  intros Hh Hn Hd HQ. assert (Hgen : forall k, 0 <= k <= n -> forall h1, heap_ok h1 base bs -> g_alloc_lock h1 = g_alloc_lock h ->
    (forall a, u_bytes h1 a = if (dst <=? a) && (a <? dst + k) then u_bytes h (src + (a - dst)) else u_bytes h a) ->
    wp (each (copy_byte dst src) (seqZ k (n - k))) Q h1).
  { intros k Hk. remember (Z.to_nat (n - k)) as f eqn:Ef. revert k Hk Ef. induction f as [|f IH]; intros k Hk Ef h1 Hh1 Hl Hb.
    - rewrite seqZ_nil by lia. apply wp_ret. apply HQ; try done. by replace n with k by lia.
    - rewrite seqZ_cons by lia. cbn [each]. wstep. apply wp_update.
      replace (Z.succ k) with (k + 1) by lia. replace (Z.pred (n - k)) with (n - (k + 1)) by lia. apply IH; [lia|lia| |done|].
      + destruct Hh1 as [? ? ? ?]. split; try done. by eapply arena_same; [..|eassumption].
      + intros a. ucbn. destruct (Z.eqb_spec a (dst + k)) as [->|Ha].
        * rewrite Hb. repeat case_if; try lia. f_equal. lia.
        * rewrite Hb. repeat case_if; try lia; done. }
  replace (seqZ 0 n) with (seqZ 0 (n - 0)) by (f_equal; lia). apply Hgen; [lia|done|done|]. intros a. case_if; [lia|done].
Qed.

(** Outcome of [urealloc] to [need] bytes for the payload [ptr] of [n] bytes:
    the payload stays, grows in place, is refused, or moves with its bytes. *)
Definition realloc_post h base L ptr n need (r : Z) h' : Prop :=
  g_alloc_lock h' = g_alloc_lock h /\
  exists bs', heap_ok h' base bs' /\
  (r = 0 /\ u_bytes h' = u_bytes h /\ payloads base bs' ≡ₚ (ptr, n) :: L \/
   exists n', need <= n' /\ n <= n' /\ payloads base bs' ≡ₚ (r, n') :: L /\
     (r = ptr /\ u_bytes h' = u_bytes h \/
      apart (r, n') (ptr, n) /\ n < need /\
      forall a, u_bytes h' a = if (r <=? a) && (a <? r + n) then u_bytes h (ptr + (a - r)) else u_bytes h a)).

Lemma wp_grow_in_place h base pre sz s post need (Q : Z -> uheap K -> Prop) :
  heap_ok h base (pre ++ (sz, false) :: (s, true) :: post) -> sz < need <= sz + sizeof_block + s -> need mod 16 = 0 ->
  (forall h', heap_ok h' base (pre ++ cut need (sz + sizeof_block + s) false ++ post) -> kept h h' ->
     Q (base + span pre + sizeof_block) h') ->
  wp (_ ← update (fun h => set_used (u64 (g_used h - sz)) h);
      _ ← coalesce_forward (base + span pre);
      take_block (base + span pre) need) Q h.
Proof.
  intros [Ha Hm Hu Hk] Hn Hn16 HQ. wstep. apply wp_update. set (h1 := set_used _ h).
  destruct (arena_tile _ _ _ _ _ _ _ Ha) as (_&Hsz&_). pose proof (arena_live _ _ _ _ Ha) as Hlv.
  pose proof Ha as Hlv2. apply ar_seg, dseg_app in Hlv2 as [Hl1%live_range (_&_&_&Hl2%live_range)].
  rewrite ulive_app in Hu, Hlv. simpl in Hu, Hlv, Hl2.
  assert (Ha1 : arena h1 base (sbrk_break (u_kernel h)) (pre ++ (sz, false) :: (s, true) :: post)) by (by eapply arena_same; [..|exact Ha]).
  pose proof Hm as Hm'. rewrite coalesced_app, !coalesced_cons in Hm'. destruct Hm' as (Hmp&(_&Hms&Hmq)&_). specialize (Hms eq_refl).
  wstep. eapply wp_coalesce; [exact Ha1|]. cbn [absorb]. rewrite absorb_id by done. intros h2 Ha2 (B2&U2&_&L2&K2)%rest_fields.
  eapply (wp_take h2 base pre (sz + sizeof_block + s) false post); try done.
  - by rewrite K2.
  - by rewrite K2.
  - rewrite coalesced_app, coalesced_cons. split_and!; try done. by rewrite andb_false_r.
  - rewrite U2. unfold h1. ucbn. rewrite Hu, u64_id; lia.
  - lia.
  - intros h' Hh' [? ?] _. apply HQ; [done|]. split; [rewrite H, B2|rewrite H0, L2]; done.
Qed.

Lemma wp_move h base pre sz post size fuel (Q : Z -> uheap K -> Prop) :
  heap_ok h base (pre ++ (sz, false) :: post) -> 0 < size < 2 ^ 61 -> sz < round16 size ->
  (forall r h', realloc_post h base (payloads base pre ++ payloads (base + span pre + sizeof_block + sz) post)
     (base + span pre + sizeof_block) sz (round16 size) r h' -> Q r h') ->
  wp (np ← umalloc_nolock sbrk (S (S fuel)) size;
      if np =? 0 then mret 0
      else y ← load (base + span pre);
           _ ← each (copy_byte np (base + span pre + sizeof_block)) (seqZ 0 (Z.min (b_size y) (round16 size)));
           _ ← ufree_nolock (base + span pre + sizeof_block); mret np) Q h.
Proof.
  intros Hh Hs Hlt HQ. set (ptr := base + span pre + sizeof_block) in *. set (bs := pre ++ (sz, false) :: post) in *.
  set (L := _ ++ _) in HQ.
  assert (HL : payloads base bs ≡ₚ (ptr, sz) :: L).
  { unfold bs, L. rewrite payloads_mid. solve_Permutation. }
  wstep. eapply wp_umalloc_nolock; [exact Hh|done|]. intros r h1 [[B1 L1] Hpost].
  destruct Hpost as [(->&Hh1&_)|(off&bs1&->&Hh1&Hpl)].
  { simpl. apply wp_ret. apply HQ. split; [done|]. exists bs. split; [done|]. left. done. }
  assert (exists n, round16 size <= n /\ payloads base bs1 ≡ₚ (base + off, n) :: (ptr, sz) :: L) as (n&Hn&Hp1).
  { destruct (round16_ok size) as [? _]; [lia|].
    destruct Hpl as [Hpl|[_ Hpl]]; (destruct (place_payloads base (round16 size) _ _ _ ltac:(lia) Hpl) as (n&Hn&Hp); exists n; split; [lia|]).
    - by rewrite Hp, HL.
    - by rewrite Hp, join_payloads, app_nil_r, HL. }
  pose proof (ho_arena _ _ _ Hh1) as Ha1. pose proof (ar_seg _ _ _ _ Ha1) as Hd1.
  assert (Hin : (base + off, n) ∈ payloads base bs1) by (rewrite Hp1; by left).
  assert (Hin2 : (ptr, sz) ∈ payloads base bs1) by (rewrite Hp1; right; by left).
  pose proof (upayloads_range _ _ _ _ _ _ _ Hd1 Hin) as Hr1. pose proof (upayloads_range _ _ _ _ _ _ _ Hd1 Hin2) as Hr2.
  pose proof (ar_base _ _ _ _ Ha1) as [? _]. unfold sizeof_block in Hr1.
  assert (Hap : apart (base + off, n) (ptr, sz)).
  { eapply payloads_apart; [exact Hd1|done|done|]. intros [= Eq En]. pose proof (payloads_NoDup _ _ _ _ _ Hd1) as Hnd.
    rewrite Hp1 in Hnd. simpl in Hnd. rewrite Eq in Hnd. apply NoDup_cons in Hnd as [Hnd _]. apply Hnd. by left. }
  destruct (Z.eqb_spec (base + off) 0); [lia|].
  destruct (payloads_split _ _ _ _ Hin2) as (pre1&post1&E1&Ep). assert (Esp : span pre1 = span pre) by (unfold ptr in Ep; lia).
  destruct (arena_tile h1 base (sbrk_break (u_kernel h1)) pre1 sz false post1) as (Hb&_); [by rewrite <- E1|]. rewrite Esp in Hb.
  wstep. eapply wp_load; [exact Hb|]. cbn [b_size]. rewrite Z.min_l by lia. wstep.
  eapply wp_each_copy; [exact Hh1|lia|unfold apart, sizeof_block in Hap; simpl in Hap; lia|]. intros h2 Hh2 L2 B2.
  rewrite E1 in Hh2. wstep. rewrite Ep. eapply wp_ufree_nolock; [exact Hh2|]. intros h3 Hh3 [B3 L3] _. apply wp_ret.
  apply HQ. split; [congruence|]. exists (join pre1 sz post1). split; [done|]. right. exists n. split; [done|]. split; [lia|].
  assert (Hpj : payloads base (join pre1 sz post1) ≡ₚ (base + off, n) :: L).
  { rewrite join_payloads. rewrite E1, payloads_mid in Hp1. cbn [app] in Hp1. rewrite <- Ep in Hp1.
    apply (Permutation_cons_inv (a := (ptr, sz))). rewrite Permutation_middle, Ep. rewrite Ep in Hp1. rewrite Hp1. constructor. }
  split; [done|]. right. split_and!; [done|done|].
  intros a. by rewrite B3, B2, B1.
Qed.

Lemma wp_urealloc_nolock h base pre sz post size fuel (Q : Z -> uheap K -> Prop) :
  heap_ok h base (pre ++ (sz, false) :: post) -> 0 < size < 2 ^ 61 ->
  (forall r h', realloc_post h base (payloads base pre ++ payloads (base + span pre + sizeof_block + sz) post)
     (base + span pre + sizeof_block) sz (round16 size) r h' -> Q r h') ->
  wp (urealloc_nolock sbrk (S (S fuel)) (base + span pre + sizeof_block) size) Q h.
Proof.
  intros Hh Hs HQ. pose proof (ho_arena _ _ _ Hh) as Ha. unfold urealloc_nolock, block_of.
  destruct (arena_tile _ _ _ _ _ _ _ Ha) as (Hb&?&_&?&?&?&Est&Hst&_). destruct (round16_ok size) as [? H16]; [lia|].
  destruct (Z.eqb_spec (base + span pre + sizeof_block) 0); [unfold sizeof_block in *; lia|].
  destruct (Z.eqb_spec size 0); [lia|]. replace (base + span pre + sizeof_block - sizeof_block) with (base + span pre) by lia.
  rewrite u64_id, align_up_ok by (unfold sizeof_block in *; lia). wstep. eapply wp_load; [exact Hb|]. cbn [b_size b_next].
  destruct (Z.leb_spec (round16 size) sz).
  { apply wp_ret. apply HQ. split; [done|]. eexists. split; [exact Hh|]. right. exists sz. split_and!; [done|done| |by left].
    rewrite payloads_mid. solve_Permutation. }
  apply wp_bind. destruct post as [|[s f] post].
  { simpl in Est. replace (base + span pre + sizeof_block + sz) with (sbrk_break (u_kernel h)) by lia. rewrite ulink_end.
    apply wp_ret. cbn beta iota.
    by eapply (wp_move h base pre sz []). }
  pose proof Ha as Ha2. rewrite app_shift in Ha2. destruct (arena_tile _ _ _ _ _ _ _ Ha2) as (Hb2&?&_&_&_&?&_).
  rewrite span_snoc in Hb2. simpl in Est. rewrite link_ne by (unfold sizeof_block in *; lia).
  destruct (Z.eqb_spec (base + span pre + sizeof_block + sz) 0); [unfold sizeof_block in *; lia|].
  wstep. eapply wp_load; [replace (base + span pre + sizeof_block + sz) with (base + (span pre + sizeof_block + sz)) by lia; exact Hb2|].
  cbn [b_free b_size]. apply wp_ret. rewrite (u64_id (sz + sizeof_block)), u64_id by (unfold sizeof_block in *; lia).
  destruct (f && (round16 size <=? sz + sizeof_block + s)) eqn:Ef; [|by eapply wp_move].
  bools. subst f. eapply wp_grow_in_place; [exact Hh|lia|done|]. intros h' Hh' [Kb Kl]. apply HQ. split; [done|].
  eexists. split; [exact Hh'|]. right. destruct (cut_size (round16 size) (sz + sizeof_block + s)) as (n'&q&Ec&Hn'&_&_&Hq&_); [lia|].
  exists n'. split_and!; [lia|lia| |by left]. pose proof (cut_span (round16 size) (sz + sizeof_block + s) false) as Hc. rewrite Ec in Hc |- *. cbn [app].
  rewrite payloads_mid, upayloads_app, Hq. simpl in Hc |- *.
  replace (base + span pre + sizeof_block + n' + span q) with (base + span pre + sizeof_block + sz + sizeof_block + s) by lia.
  solve_Permutation.
Qed.

End Heap.

(** ** What a program sees: independent arrays

    The abstract state maps every pointer handed out to the size of its array
    and the bytes the program has stored in it. *)

Record array := mk_array { a_size : Z; a_data : gmap Z Z }.

Inductive request :=
  | Malloc (size : Z)
  | Free (ptr : Z)
  | Realloc (ptr size : Z)
  | Store (ptr i v : Z).

(** The calls of the C interface, and a store through a pointer.  Two rounds of
    the search loop are enough: after one growth the request fits. *)
Definition perform {K} (sbrk : Z -> ST K Z) (q : request) : ST (uheap K) Z :=
  match q with
  | Malloc size => umalloc sbrk 2 size
  | Free ptr => _ ← ufree ptr; mret 0
  | Realloc ptr size => urealloc sbrk 2 ptr size
  | Store ptr i v => _ ← update (fun h => set_bytes (fun a => if a =? ptr + i then v else u_bytes h a) h); mret 0
  end.

(** What a program may ask: pointers it owns, indices inside its arrays, and
    sizes that rounding cannot overflow. *)
Definition allowed (A : gmap Z array) (q : request) : Prop :=
  match q with
  | Malloc size => 0 <= size < 2 ^ 61
  | Free ptr => ptr = 0 \/ is_Some (A !! ptr)
  | Realloc ptr size => (ptr = 0 \/ is_Some (A !! ptr)) /\ 0 <= size < 2 ^ 61
  | Store ptr i v => exists a, A !! ptr = Some a /\ 0 <= i < a_size a
  end.

(** What the allocator promises. *)
Inductive answers (A : gmap Z array) : request -> Z -> gmap Z array -> Prop :=
  | ans_malloc_null size : answers A (Malloc size) 0 A
  | ans_malloc size r n : 0 < size <= n -> r <> 0 -> A !! r = None ->
      answers A (Malloc size) r (<[r := mk_array n ∅]> A)
  | ans_free_null : answers A (Free 0) 0 A
  | ans_free ptr : is_Some (A !! ptr) -> answers A (Free ptr) 0 (delete ptr A)
  | ans_realloc_null size r A' : answers A (Malloc size) r A' -> answers A (Realloc 0 size) r A'
  | ans_realloc_zero ptr : is_Some (A !! ptr) -> answers A (Realloc ptr 0) 0 (delete ptr A)
  | ans_realloc_refused ptr size : 0 < size -> answers A (Realloc ptr size) 0 A
  | ans_realloc ptr size a r n : A !! ptr = Some a -> 0 < size <= n -> a_size a <= n -> r <> 0 ->
      (r = ptr \/ A !! r = None) ->
      answers A (Realloc ptr size) r (<[r := mk_array n (a_data a)]> (delete ptr A))
  | ans_store ptr i v a : A !! ptr = Some a ->
      answers A (Store ptr i v) 0 (<[ptr := mk_array (a_size a) (<[i := v]> (a_data a))]> A).

Section Client.
Context {K : Type} (sbrk : Z -> ST K Z) {SB : SbrkService K sbrk}.
Implicit Types (h : uheap K) (bs pre post : list tile) (A : gmap Z array).

Abbreviation sbrk_break := (sbrk_break (sbrk := sbrk)).
Abbreviation sbrk_ok := (sbrk_ok (sbrk := sbrk)).
Abbreviation heap_ok := (heap_ok sbrk).

Definition extents A : list (Z * Z) := (fun x : Z * array => (x.1, a_size x.2)) <$> map_to_list A.

Definition total (L : list (Z * Z)) : Z := foldr (fun x n => x.2 + n) 0 L.

Lemma total_perm L L' : L ≡ₚ L' -> total L = total L'.
Proof. unfold total. induction 1; simpl; lia. Qed.

(** The arrays lie in the payloads handed out, and memory holds their bytes. *)
Record shows h A : Prop := {
  sh_heap : exists base bs, heap_ok h base bs /\ payloads base bs ≡ₚ extents A;
  sh_lock : g_alloc_lock h = false;
  sh_data : forall p a i v, A !! p = Some a -> a_data a !! i = Some v -> 0 <= i < a_size a /\ u_bytes h (p + i) = v }.

Lemma extents_insert A p a : A !! p = None -> extents (<[p := a]> A) ≡ₚ (p, a_size a) :: extents A.
Proof. intros. unfold extents. by rewrite map_to_list_insert. Qed.

Lemma extents_delete A p a : A !! p = Some a -> extents A ≡ₚ (p, a_size a) :: extents (delete p A).
Proof. intros. unfold extents. by rewrite <- (map_to_list_delete A p a). Qed.

Lemma extents_elem A p n : (p, n) ∈ extents A <-> exists a, A !! p = Some a /\ a_size a = n.
Proof.
  unfold extents. rewrite list_elem_of_fmap. split.
  - intros ([q a]&[= -> ->]&H%elem_of_map_to_list). by exists a.
  - intros (a&H&<-). exists (p, a). split; [done|]. by apply elem_of_map_to_list.
Qed.

(** Layout of the arrays of a heap. *)
Lemma shows_layout h A : shows h A ->
  (forall p a, A !! p = Some a -> 0 < p /\ p mod 16 = 0 /\ 0 <= a_size a /\ p + a_size a <= sbrk_break (u_kernel h)) /\
  (forall p a q b, A !! p = Some a -> A !! q = Some b -> p <> q -> apart (p, a_size a) (q, a_size b)).
Proof.
  intros [(base&bs&Hh&Hp) _ _]. pose proof (ho_arena _ _ _ _ Hh) as Ha. destruct (ar_base _ _ _ _ Ha) as [Hb0 Hb16].
  destruct (ar_stop _ _ _ _ Ha) as [Hs _]. pose proof (ar_seg _ _ _ _ Ha) as Hd.
  assert (Hin : forall p a, A !! p = Some a -> (p, a_size a) ∈ payloads base bs).
  { intros p a H. rewrite Hp. apply extents_elem. by exists a. }
  split.
  - intros p a H. destruct (upayloads_range _ _ _ _ _ _ _ Hd (Hin _ _ H)) as (?&?&?&?). unfold sizeof_block in *.
    split_and!; [lia|dlia|lia|lia].
  - intros p a q b H1 H2 Hne. eapply payloads_apart; [exact Hd|by apply Hin|by apply Hin|]. congruence.
Qed.

Lemma wp_locked {X} (body : ST (uheap K) X) h (Q : X -> uheap K -> Prop) :
  g_alloc_lock h = false -> wp body (fun r h' => Q r (set_lock false h')) (set_lock true h) -> wp (locked body) Q h.
Proof.
  intros Hl Hw. unfold locked. wstep. exists tt, (set_lock true h). unfold alloc_lock. rewrite Hl. split; [done|].
  wstep. eapply wp_mono; [exact Hw|]. intros r h' HQ. wstep. apply wp_update. by apply wp_ret.
Qed.

Lemma heap_lock h b base bs : heap_ok h base bs -> heap_ok (set_lock b h) base bs.
Proof. intros [? ? ? ?]. split; try done. by eapply arena_same; [..|eassumption]. Qed.

Definition data_in A (bytes : Z -> Z) : Prop :=
  forall p a i v, A !! p = Some a -> a_data a !! i = Some v -> 0 <= i < a_size a /\ bytes (p + i) = v.

Lemma data_same A (f g : Z -> Z) : g = f -> data_in A f -> data_in A g.
Proof. by intros ->. Qed.

(** A payload that does not belong to an array of [A] is a fresh pointer. *)
Lemma shows_fresh h A base bs r n : heap_ok h base bs -> payloads base bs ≡ₚ (r, n) :: extents A -> A !! r = None /\ r <> 0.
Proof.
  intros Hh Hp. pose proof (ho_arena _ _ _ _ Hh) as Ha. pose proof (ar_seg _ _ _ _ Ha) as Hd. split.
  - destruct (A !! r) as [a|] eqn:E; [|done]. pose proof (payloads_NoDup _ _ _ _ _ Hd) as Hn. rewrite Hp in Hn. simpl in Hn.
    apply NoDup_cons in Hn as [Hn _]. destruct Hn. apply list_elem_of_fmap. exists (r, a_size a). split; [done|].
    apply extents_elem. by exists a.
  - destruct (ar_base _ _ _ _ Ha) as [? _]. destruct (upayloads_range _ _ _ _ _ r n Hd) as (?&_); [rewrite Hp; by left|].
    unfold sizeof_block in *. lia.
Qed.

Lemma shows_malloc h A size : shows h A -> 0 <= size < 2 ^ 61 ->
  wp (umalloc_nolock sbrk 2 size) (fun r h' => exists A', answers A (Malloc size) r A' /\ shows (set_lock false h') A') (set_lock true h).
Proof.
  intros [(base&bs&Hh&Hp) Hl Hd] Hs. destruct (decide (size = 0)) as [->|Hnz].
  { apply wp_ret. exists A. split; [constructor|]. split; [|done|done]. exists base, bs. split; [|done]. by do 2 apply heap_lock. }
  eapply wp_umalloc_nolock; [by apply heap_lock, Hh|lia|]. intros r h' [[Kb Kl] Hpost].
  destruct (round16_ok size) as [Hr _]; [lia|]. destruct Hpost as [(->&Hh'&_)|(off&bs'&->&Hh'&Hpl)].
  - exists A. split; [constructor|]. split; [|done|exact (data_same _ _ _ Kb Hd)]. exists base, bs. split; [by apply heap_lock|done].
  - assert (exists n, round16 size <= n /\ payloads base bs' ≡ₚ (base + off, n) :: extents A) as (n&Hn&Hp').
    { destruct Hpl as [Hpl|[_ Hpl]]; destruct (place_payloads base (round16 size) _ _ _ ltac:(lia) Hpl) as (n&Hn&Hq); exists n;
        (split; [lia|]); rewrite Hq; [by rewrite Hp|]. by rewrite join_payloads, app_nil_r, Hp. }
    destruct (shows_fresh _ _ _ _ _ _ Hh' Hp') as [HA Hr0]. eexists. split; [apply (ans_malloc _ _ _ n); [lia|done|done]|]. split.
    + exists base, bs'. split; [by apply heap_lock|]. by rewrite extents_insert.
    + done.
    + intros p a i v. rewrite lookup_insert_Some. intros [[<- <-]|[_ HAp]] Hi; [done|].
      change (u_bytes (set_lock false h')) with (u_bytes h'). rewrite Kb. by apply (Hd p a).
Qed.

Lemma shows_split h A base bs p a : heap_ok h base bs -> payloads base bs ≡ₚ extents A -> A !! p = Some a ->
  exists pre post, bs = pre ++ (a_size a, false) :: post /\ p = base + span pre + sizeof_block /\
    payloads base pre ++ payloads (base + span pre + sizeof_block + a_size a) post ≡ₚ extents (delete p A).
Proof.
  intros Hh Hp HA. destruct (payloads_split base bs p (a_size a)) as (pre&post&->&->).
  { rewrite Hp. apply extents_elem. by exists a. }
  exists pre, post. split_and!; [done|done|]. rewrite (extents_delete A _ a HA), payloads_mid in Hp.
  apply (Permutation_cons_inv (a := (base + span pre + sizeof_block, a_size a))). rewrite <- Hp. solve_Permutation.
Qed.

Lemma shows_free h A ptr : shows h A -> ptr = 0 \/ is_Some (A !! ptr) ->
  wp (ufree_nolock ptr) (fun _ h' => exists A', answers A (Free ptr) 0 A' /\ (ptr <> 0 -> A' = delete ptr A) /\ shows (set_lock false h') A') (set_lock true h).
Proof.
  intros [(base&bs&Hh&Hp) Hl Hd] [->|[a Ha]].
  { apply wp_ret. exists A. split; [constructor|]. split; [done|]. split; [|done|done]. exists base, bs. split; [|done]. by do 2 apply heap_lock. }
  destruct (shows_split h A base bs ptr a Hh Hp Ha) as (pre&post&->&->&Hrest).
  eapply wp_ufree_nolock; [by apply heap_lock, Hh|]. intros h' Hh' [Kb Kl] _.
  eexists. split; [by apply ans_free|]. split; [done|]. split; [|done|].
  - exists base, (join pre (a_size a) post). split; [by apply heap_lock|]. by rewrite join_payloads.
  - intros p b i v. rewrite lookup_delete_Some. intros [_ HAp]. change (u_bytes (set_lock false h')) with (u_bytes h'). rewrite Kb. by apply Hd.
Qed.

Lemma shows_realloc h A ptr a size : shows h A -> A !! ptr = Some a -> 0 < size < 2 ^ 61 ->
  wp (urealloc_nolock sbrk 2 ptr size)
    (fun r h' => exists A', answers A (Realloc ptr size) r A' /\ shows (set_lock false h') A') (set_lock true h).
Proof.
  intros Hsh Ha Hs. pose proof Hsh as [(base&bs&Hh&Hp) Hl Hd].
  destruct (shows_layout h A Hsh) as [Hlay Hap].
  destruct (shows_split h A base bs ptr a Hh Hp Ha) as (pre&post&Eb&Ep&Hrest).
  rewrite Eb in Hh. rewrite Ep at 1. eapply wp_urealloc_nolock; [by apply heap_lock, Hh|done|]. rewrite <- Ep in *.
  intros r h' (_&bs'&Hh'&Hcase). destruct (round16_ok size) as [Hr _]; [lia|].
  destruct Hcase as [(->&Kb&Hp')|(n'&Hn'&Hge&Hp'&Hb)].
  { exists A. split; [apply ans_realloc_refused; lia|]. split; [|done|exact (data_same _ _ _ Kb Hd)]. exists base, bs'.
    split; [by apply heap_lock|]. by rewrite Hp', Hrest, <- extents_delete. }
  rewrite Hrest in Hp'. destruct (shows_fresh _ _ _ _ _ _ Hh' Hp') as [HA Hr0].
  assert (Hsz : a_size a <= n' /\ (r = ptr \/ A !! r = None)).
  { destruct Hb as [[-> _]|(Hapart&Hlt&_)]; [|split; [lia|]].
    - split; [done|by left].
    - right. apply lookup_delete_None in HA as [<-|?]; [|done]. unfold apart, sizeof_block in Hapart. simpl in Hapart.
      destruct (Hlay ptr a Ha) as (_&_&?&_). lia. }
  eexists. split; [apply (ans_realloc _ _ _ a _ n'); try done; [lia|tauto]|]. split; [|done|].
  - exists base, bs'. split; [by apply heap_lock|]. by rewrite extents_insert.
  - intros p b i v. change (u_bytes (set_lock false h')) with (u_bytes h'). rewrite lookup_insert_Some.
    intros [[<- <-]|[Hne [Hne2 HAp]%lookup_delete_Some]] Hi; simpl in Hi |- *.
    + destruct (Hd ptr a i v Ha Hi) as [Hi1 Hi2]. split; [lia|]. destruct Hb as [[-> Kb]|(_&_&Kb)]; rewrite Kb; [done|].
      case_if; [|lia]. rewrite <- Hi2. f_equal. lia.
    + destruct (Hd p b i v HAp Hi) as [Hi1 Hi2]. split; [done|]. destruct Hb as [[_ Kb]|(_&Hlt&Kb)]; rewrite Kb; [done|].
      case_if; [|done]. exfalso. assert (apart (r, n') (p, a_size b)) as Hx.
      { pose proof (ho_arena _ _ _ _ Hh') as Ha'. eapply payloads_apart; [apply (ar_seg _ _ _ _ Ha')| | |]; [rewrite Hp'; by left| |congruence].
        rewrite Hp'. right. apply extents_elem. exists b. split; [by apply lookup_delete_Some|done]. }
      unfold apart, sizeof_block in Hx. simpl in Hx. lia.
Qed.

(** The allocator before its first call. *)
Definition fresh_heap (k : K) (bytes : Z -> Z) : uheap K := mk_uheap ∅ bytes 0 0 0 0 false k.

Lemma shows_start k bytes : sbrk_ok k -> sbrk_break k mod 16 = 0 -> shows (fresh_heap k bytes) ∅.
Proof.
  intros Hk H16. pose proof (sbrk_range _ Hk) as Hr. split; [|done|done]. exists (sbrk_break k), []. split; [|done].
  split; try done. split; simpl; try done; lia.
Qed.

(** Every request is defined and answered as promised. *)
Lemma perform_refines h A q :
  shows h A -> allowed A q ->
  wp (perform sbrk q) (fun r h' => exists A', answers A q r A' /\ shows h' A') h.
Proof.
  intros Hsh Hq. pose proof (sh_lock _ _ Hsh) as Hl. destruct q as [size|ptr|ptr size|ptr i v]; cbn [perform allowed] in *.
  - by apply wp_locked, shows_malloc.
  - wstep. apply wp_locked; [done|]. eapply wp_mono; [by apply (shows_free h A ptr)|]. intros [] h' (A'&?&_&?). apply wp_ret. eauto.
  - apply wp_locked; [done|]. destruct Hq as [[->|[a Ha]] Hs].
    + eapply wp_mono; [by apply (shows_malloc h A size)|]. intros r h' (A'&?&?). exists A'. split; [by constructor|done].
    + destruct (shows_layout h A Hsh) as [Hlay _]. destruct (Hlay ptr a Ha) as (?&_).
      destruct (decide (size = 0)) as [->|Hnz]; [|apply (shows_realloc h A ptr a); [done|done|lia]].
      unfold urealloc_nolock. destruct (Z.eqb_spec ptr 0); [lia|]. cbn [Z.eqb]. wstep.
      eapply wp_mono; [apply (shows_free h A ptr); [done|by right; eexists]|].
      intros [] h' (A'&_&HA&Hsh'). apply wp_ret. rewrite HA in Hsh' by done. eexists. split; [by constructor|done].
  - destruct Hq as (a&Ha&Hi). wstep. apply wp_update. apply wp_ret. eexists. split; [by apply (ans_store _ _ _ _ a)|].
    destruct (shows_layout h A Hsh) as [_ Hap]. destruct Hsh as [(base&bs&Hh&Hp) _ Hd]. split; [|done|].
    + exists base, bs. split; [by destruct Hh as [? ? ? ?]; split; try done; eapply arena_same; [..|eassumption]|].
      rewrite <- (insert_delete_eq A), extents_insert by apply lookup_delete_eq. by rewrite Hp, (extents_delete A ptr a Ha).
    + intros p b j w. ucbn. rewrite lookup_insert_Some. intros [[<- <-]|[Hne HAp]] Hj; simpl in *.
      * apply lookup_insert_Some in Hj as [[<- <-]|[Hne Hj]]; [by rewrite Z.eqb_refl|].
        destruct (Z.eqb_spec (ptr + j) (ptr + i)); [lia|]. by apply Hd.
      * destruct (Hd p b j w HAp Hj) as [Hj1 Hj2]. split; [done|].
        specialize (Hap ptr a p b Ha HAp Hne). unfold apart, sizeof_block in Hap. simpl in Hap.
        destruct (Z.eqb_spec (p + j) (ptr + i)); [lia|done].
Qed.

(** Layout and accounting: every array is 16-byte aligned and ends below the
    break, two arrays never overlap, [umalloc_used] is the total size of the
    arrays, and no two neighbouring blocks of the heap are both free. *)
Theorem user_heap_layout h A :
  shows h A ->
  (forall p a, A !! p = Some a -> 0 < p /\ p mod 16 = 0 /\ 0 <= a_size a /\ p + a_size a <= sbrk_break (u_kernel h)) /\
  (forall p a q b, A !! p = Some a -> A !! q = Some b -> p <> q -> apart (p, a_size a) (q, a_size b)) /\
  wp umalloc_used (fun n h' => h' = h /\ n = total (extents A)) h /\
  exists base bs, heap_ok h base bs /\ coalesced bs /\ payloads base bs ≡ₚ extents A.
Proof.
  intros Hsh. destruct (shows_layout h A Hsh) as [H1 H2]. split_and!; [done|done| |].
  - apply wp_reads. split; [done|]. destruct Hsh as [(base&bs&Hh&Hp) _ _]. rewrite (ho_used _ _ _ _ Hh).
    rewrite <- (total_perm _ _ Hp). clear. revert base.
    induction bs as [|[sz fr] bs IH]; intros base; simpl; [done|]. rewrite (IH (base + sizeof_block + sz)). by destruct fr.
  - destruct Hsh as [(base&bs&Hh&Hp) _ _]. exists base, bs. split_and!; [done|by destruct Hh|done].
Qed.

(** [umalloc] gives up only when the kernel does: it returns NULL for a
    positive size only when no free block is large enough and the kernel refuses
    the growth; whenever the kernel would grant it, the call returns a payload. *)
Theorem umalloc_null_only_when_refused h A size :
  shows h A -> 0 < size < 2 ^ 61 ->
  (forall k', sbrk (growth (round16 size)) (u_kernel h) <> Some (FAILED, k')) ->
  wp (umalloc sbrk 2 size) (fun r h' => r <> 0 /\ exists n, size <= n /\ shows h' (<[r := mk_array n ∅]> A)) h.
Proof.
  intros Hsh Hs Hg. pose proof (sh_lock _ _ Hsh) as Hl. apply wp_locked; [done|].
  assert (Hw : wp (umalloc_nolock sbrk 2 size) (fun r _ => r <> 0) (set_lock true h)).
  { destruct Hsh as [(base&bs&Hh&_) _ _]. eapply wp_umalloc_nolock; [by apply heap_lock, Hh|done|].
    intros r h' [_ [(_&_&_&Hr)|(off&bs'&->&Hh'&Hpl)]]; [by destruct (Hg (u_kernel h'))|].
    destruct (round16_ok size) as [? _]; [lia|]. pose proof (ho_arena _ _ _ _ Hh') as Ha.
    destruct Hpl as [Hpl|[_ Hpl]]; destruct (place_payloads base (round16 size) _ _ _ ltac:(lia) Hpl) as (n&_&Hp);
      (destruct (upayloads_range _ _ _ _ _ (base + off) n (ar_seg _ _ _ _ Ha)) as (?&_); [rewrite Hp; by left|]);
      pose proof (ar_base _ _ _ _ Ha); unfold sizeof_block in *; lia. }
  eapply wp_mono; [exact (wp_conj _ _ _ _ Hw (shows_malloc h A size Hsh ltac:(lia)))|].
  intros r h' [Hr (A'&Han&Hsh')]. split; [done|]. inversion Han; subst; [done|]. eexists. split; [|exact Hsh']. lia.
Qed.

(** A request within 15 bytes of the largest size is rounded up past 2^64 to
    zero: [umalloc] hands out a block of fewer than 48 bytes for it instead of
    failing. *)
Theorem umalloc_huge_request_wraps h A size :
  shows h A -> 2 ^ 64 - 15 <= size < 2 ^ 64 ->
  wp (umalloc sbrk 2 size) (fun r h' => r = 0 \/ exists n, 0 <= n < 48 /\ shows h' (<[r := mk_array n ∅]> A)) h.
Proof.
  intros [(base&bs&Hh&Hp) Hl Hd] Hs. apply wp_locked; [done|]. unfold umalloc_nolock.
  destruct (Z.eqb_spec size 0) as [?|_]; [lia|].
  assert (E : align_up size = 0).
  { unfold align_up, UMALLOC_ALIGN. replace (u64 (size + (16 - 1))) with (size + 15 - 2 ^ 64) by (unfold u64; dlia).
    change (u64 (Z.lnot (16 - 1))) with (Z.ldiff (Z.ones 64) (Z.ones 4)).
    rewrite land_round by lia. change (2 ^ 4) with 16. dlia. }
  rewrite E. eapply wp_umalloc_loop; [by apply heap_lock, Hh|lia|done|]. intros r h' [[Kb Kl] Hpost].
  destruct Hpost as [(->&_)|(off&bs'&->&Hh'&Hpl)]; [by left|]. right.
  assert (exists n, 0 <= n < 48 /\ payloads base bs' ≡ₚ (base + off, n) :: extents A) as (n&Hn&Hp').
  { destruct Hpl as [Hpl|[_ Hpl]]; destruct (place_payloads base 0 _ _ _ ltac:(lia) Hpl) as (n&Hn&Hq); exists n;
      unfold sizeof_block, UMALLOC_ALIGN in Hn; (split; [lia|]); rewrite Hq; [by rewrite Hp|]. by rewrite join_payloads, app_nil_r, Hp. }
  exists n. split; [done|]. destruct (shows_fresh _ _ _ _ _ _ Hh' Hp') as [HA _]. split.
  - exists base, bs'. split; [by apply heap_lock|]. by rewrite extents_insert.
  - done.
  - intros p a i v. rewrite lookup_insert_Some. intros [[<- <-]|[_ HAp]] Hi; [done|].
    change (u_bytes (set_lock false h')) with (u_bytes h'). rewrite Kb. by apply (Hd p a).
Qed.

End Client.

End UMalloc.
