(* ===== verification/UMallocKernel.v ===== *)
(** * UMallocKernel: the user heap on the modelled kernel

    The interface [SbrkService] of the user-space allocator is discharged by
    SYS_SBRK of kernel/src/process.c: a program that runs in its own address
    space asks the kernel through [process_sbrk].  The theorems about the user
    heap therefore hold of programs running on the modelled kernel, whose
    memory comes from the kernel's own allocators. *)

From Stdlib Require Import ZArith Lia Bool ZifyBool.
From stdpp Require Import base numbers option list list_numbers gmap.
From S2P Require Import Prelude StateM KAlloc ProcState Process ProcSched ProcSteps ProcSbrk ProcMachine ProcHeaps ProcProps UMalloc.

Open Scope Z_scope.

Module UMallocKernel.
Import ProcState Process ProcSched ProcSteps ProcSbrk ProcMachine UMalloc.

Section Kernel.
Context {H I : Type} {HP : PageHeap H} {IP : PageHeap I}.
Abbreviation kernel := (kernel H I).
Abbreviation inv := (@ProcSched.inv H I HP IP [] (-1) ∅).

(** SYS_SBRK called by the process in slot [i]. *)
Definition sbrk_of (i n : Z) : ST kernel Z := process_sbrk i (sgn64 n).

(** The process in slot [i] is running on CPU [c], in an address space of its own. *)
Definition caller_ok (c i : Z) (k : kernel) : Prop :=
  inv k /\ running c i k /\ exists p, aget (k_processes k) i = Some p /\ owns p = true.

Definition break_of (i : Z) (k : kernel) : Z := default 1 (p_heap_break <$> aget (k_processes k) i).

Lemma owner_self i o (k : kernel) p :
  space_owner i o k -> aget (k_processes k) i = Some p -> owns p = true -> o = i.
Proof.
  intros (p'&q&Hp'&_&_&[[_ ->]|(Ht&_)]) Hp Ho; [done|]. replace p' with p in * by congruence.
  unfold owns in Ho. by rewrite Ht, andb_false_r in Ho.
Qed.

Lemma break_range c i (k : kernel) : caller_ok c i k -> 0 < break_of i k < 2 ^ 63.
Proof.
  intros (Hk&_&p&Hp&Ho). unfold break_of. rewrite Hp. simpl.
  destruct (proj1 (inv_space _ _ _ Hk) i p Hp Ho) as (_&_&_&Hst&Hbr).
  unfold PROCESS_USER_IMAGE_SIZE, PROCESS_USER_REGION_BYTES, PROCESS_USER_STACK_SIZE, PROCESS_USER_BASE in *. lia.
Qed.

Lemma sbrk_of_spec c i n (k : kernel) : caller_ok c i k -> 0 < n < 2 ^ 63 ->
  wp (sbrk_of i n) (fun r k' => caller_ok c i k' /\
    (r = FAILED /\ break_of i k' = break_of i k \/ r = break_of i k /\ break_of i k' = break_of i k + n)) k.
Proof.
  intros (Hk&Hr&p&Hp&Ho) Hn. destruct (running_proc c i k Hk Hr) as (p'&Hp'&Hl&Hs&_). replace p' with p in * by congruence.
  unfold sbrk_of, sgn64. destruct (Z.ltb_spec n (2 ^ 63)); [|lia].
  eapply wp_process_sbrk; [exact Hk|exact Hp|done|congruence|lia|]. intros o r k' Hsp Hd Hk' Ec _.
  pose proof (owner_self _ _ _ _ Hsp Hp Ho) as ->. pose proof (running_frame c i k k' Ec Hr) as Hr'.
  destruct Hd as (L&q&_&_&Hq&Hcase). replace q with p in * by congruence. unfold break_of at 2 3 5. rewrite Hp. simpl.
  destruct Hcase as [(->&_&(q0&q'&Hq0&Hq'&Hb&Hown&_))|[-> Ep%failed_processes]].
  - replace q0 with p in * by congruence. unfold break_of. rewrite Hq'. simpl. split; [|by right].
    split_and!; [done|done|]. exists q'. split; [done|congruence].
  - unfold break_of. rewrite Ep, Hp. simpl. split; [|by left]. split_and!; [done|done|]. exists p. by rewrite Ep.
Qed.

#[export] Program Instance process_sbrk_service (c i : Z) : SbrkService kernel (sbrk_of i) := {|
  sbrk_ok := caller_ok c i; sbrk_break := break_of i |}.
Next Obligation. intros. by eapply break_range. Qed.
Next Obligation. intros. by apply sbrk_of_spec. Qed.


Lemma kernel_of_shows c i h A :
  shows (sbrk_of i) (SB := process_sbrk_service c i) h A -> inv (u_kernel h) /\ running c i (u_kernel h).
Proof. intros [(base&bs&[_ _ _ (?&?&_)]&_) _ _]. done. Qed.

(** C4: The user heap implements independent arrays on the modelled kernel: a
    program that runs in its own address space starts with no arrays, and
    whatever it asks - allocate, free or reallocate a pointer it owns, store a
    byte inside one of its arrays - the call is defined, ends, and does what the
    abstract allocator promises: no call changes a byte of another array, an
    array keeps its contents when it is reallocated, a pointer handed out is
    never one still in use.  The memory comes from SYS_SBRK, and the kernel
    keeps its invariant. *)
Theorem user_heap_on_kernel c i p (k : kernel) bytes :
  reachable k -> running c i k -> aget (k_processes k) i = Some p -> p_is_thread p = false ->
  p_heap_break p mod 16 = 0 ->
  let sees := shows (sbrk_of i) (SB := process_sbrk_service c i) in
  sees (fresh_heap k bytes) ∅ /\
  forall h A q, sees h A -> allowed A q ->
    inv (u_kernel h) /\ running c i (u_kernel h) /\
    wp (perform (sbrk_of i) q) (fun r h' => exists A', answers A q r A' /\ sees h' A') h.
Proof.
  intros Hk%reachable_inv Hr Hp Hth H16 sees. split.
  - apply shows_start; [|simpl; unfold break_of; by rewrite Hp].
    destruct (running_proc c i k Hk Hr) as (p'&Hp'&Hl&_). replace p' with p in * by congruence.
    split_and!; [done|done|]. exists p. split; [done|]. unfold owns. by rewrite Hl, Hth.
  - intros h A q Hs Hq. destruct (kernel_of_shows c i h A Hs) as [Hi Hri]. split_and!; [done|done|].
    by apply (perform_refines (sbrk_of i) (SB := process_sbrk_service c i)).
Qed.

End Kernel.

(** ** Applied to the demonstration system *)

Import ProcProps ProcHeaps.

Lemma demo2_slot : is_Some (aget (k_processes demo2) 0).
Proof. by eexists; vm_compute. Qed.

Definition demo_program : process := default demo_process (aget (k_processes demo2) 0).

Lemma demo_program_at : aget (k_processes demo2) 0 = Some demo_program.
Proof. unfold demo_program. by destruct demo2_slot as [p ->]. Qed.

Abbreviation demo_sees := (shows (sbrk_of 0) (SB := process_sbrk_service 0 0)).
Definition demo_start : uheap (kernel KAlloc.heap KAlloc.aux_heaps) := fresh_heap demo2 (fun _ => 0).

Lemma demo_start_sees : demo_sees demo_start ∅.
Proof.
  apply shows_start; [|by vm_compute]. split; [by apply reachable_inv, demo2_reachable|].
  split; [exact demo2_running|]. exists demo_program. split; [exact demo_program_at|by vm_compute].
Qed.

(** The first request: 100 bytes, from a heap that has to grow. *)
Lemma user_heap_on_kernel_witness :
  wp (perform (sbrk_of 0) (Malloc 100)) (fun r h' => exists A', answers ∅ (Malloc 100) r A' /\ demo_sees h' A') demo_start.
Proof.
  apply (user_heap_on_kernel 0 0 demo_program demo2 (fun _ => 0) demo2_reachable demo2_running demo_program_at); [by vm_compute..| |].
  - exact demo_start_sees.
  - simpl. lia.
Defined.

Lemma user_heap_layout_witness : wp umalloc_used (fun n h' => h' = demo_start /\ n = 0) demo_start.
Proof. exact (proj1 (proj2 (proj2 (user_heap_layout (sbrk_of 0) demo_start ∅ demo_start_sees)))). Defined.

Lemma umalloc_huge_request_wraps_witness :
  wp (umalloc (sbrk_of 0) 2 (2 ^ 64 - 1))
    (fun r h' => r = 0 \/ exists n, 0 <= n < 48 /\ demo_sees h' (<[r := mk_array n ∅]> ∅)) demo_start.
Proof. apply (umalloc_huge_request_wraps (sbrk_of 0) demo_start ∅ (2 ^ 64 - 1) demo_start_sees); lia. Defined.

End UMallocKernel.
