(* ===== verification/Stdio.v ===== *)
(** * Stdio: buffered streams (user/libc/stdio.c over the wrappers of sys.c)

    A [FILE] is a descriptor with one buffer that holds either read-ahead or
    pending output, or a read-only block of memory.  The model has the object a
    stream pointer leads to, the variable [errno] and the kernel behind the
    system calls; the guards for a NULL stream are left out.  [None] is undefined
    behaviour: a copy outside an array, signed overflow, or a loop that does not
    end.  Allocation and the kernel are parameters: the results of [malloc] are
    arguments, and the system calls are the record [sys].

    [FileService] states what the streams rely on: a descriptor on a regular file
    has contents and a position, which reading, writing and seeking use in the
    usual way; a write may be short.  The main theorem is that a stream with its
    buffer is a file with a position, whatever the sequence of calls. *)

From Stdlib Require Import ZArith Lia Bool ZifyBool.
From stdpp Require Import base numbers option list list_numbers.
From S2P Require Import Prelude StateM Segments.

Open Scope Z_scope.

Module Stdio.

(** ** Constants *)

Definition EOF : Z := -1.
Definition SEEK_SET : Z := 0.
Definition SEEK_CUR : Z := 1.
Definition SEEK_END : Z := 2.
Definition BUFSIZ : Z := 4096.
Definition _IOFBF : Z := 0.
Definition _IONBF : Z := 2.
Definition _F_READ : Z := 1.
Definition _F_WRITE : Z := 2.
Definition _F_APPEND : Z := 4.
Definition _F_EOF : Z := 8.
Definition _F_ERR : Z := 16.
Definition _B_IDLE : Z := 0.
Definition _B_READ : Z := 1.
Definition _B_WRITE : Z := 2.

Definition i64 (x : Z) : option Z := if (- 2 ^ 63 <=? x) && (x <? 2 ^ 63) then Some x else None.
(** Conversion of a [long] to [int]. *)
Definition int_of (x : Z) : Z := let y := u32 x in if y <? 2 ^ 31 then y else y - 2 ^ 32.

(** ** State *)

Record FILE := mk_FILE {
  fd : Z; flags : Z; bufmode : Z;
  buf : option (list Z); bufcap : Z; bufpos : Z; buflen : Z; own_buf : Z;
  mem : list Z; mem_len : Z; mem_pos : Z }.

Definition set_flags x f := mk_FILE (fd f) x (bufmode f) (buf f) (bufcap f) (bufpos f) (buflen f) (own_buf f) (mem f) (mem_len f) (mem_pos f).
Definition set_bufmode x f := mk_FILE (fd f) (flags f) x (buf f) (bufcap f) (bufpos f) (buflen f) (own_buf f) (mem f) (mem_len f) (mem_pos f).
Definition set_buf b cap own f := mk_FILE (fd f) (flags f) (bufmode f) b cap (bufpos f) (buflen f) own (mem f) (mem_len f) (mem_pos f).
Definition set_bytes b f := mk_FILE (fd f) (flags f) (bufmode f) (Some b) (bufcap f) (bufpos f) (buflen f) (own_buf f) (mem f) (mem_len f) (mem_pos f).
Definition set_span pos len f := mk_FILE (fd f) (flags f) (bufmode f) (buf f) (bufcap f) pos len (own_buf f) (mem f) (mem_len f) (mem_pos f).
Definition set_mem_pos x f := mk_FILE (fd f) (flags f) (bufmode f) (buf f) (bufcap f) (bufpos f) (buflen f) (own_buf f) (mem f) (mem_len f) x.
Definition set_fd x f := mk_FILE x (flags f) (bufmode f) (buf f) (bufcap f) (bufpos f) (buflen f) (own_buf f) (mem f) (mem_len f) (mem_pos f).

Definition has (flag : Z) (f : FILE) : bool := negb (Z.land (flags f) flag =? 0).
Definition raise (flag : Z) (f : FILE) : FILE := set_flags (Z.lor (flags f) flag) f.
Definition lower (flag : Z) (f : FILE) : FILE := set_flags (Z.land (flags f) (Z.lnot flag)) f.

(** The system calls a stream uses; a read returns the new contents of the
    buffer it was given. *)
Record sys (K : Type) := mk_sys {
  sys_read : Z -> list Z -> Z -> ST K (Z * list Z);
  sys_write : Z -> list Z -> ST K Z;
  sys_seek : Z -> Z -> Z -> ST K Z;
  sys_close : Z -> ST K Z;
  sys_open : list Z -> ST K Z;
  sys_creat : list Z -> ST K Z;
  sys_unlink : list Z -> ST K Z }.
Arguments sys_read {K} _ _ _ _.
Arguments sys_write {K} _ _ _.
Arguments sys_seek {K} _ _ _ _.
Arguments sys_close {K} _ _.
Arguments sys_open {K} _ _.
Arguments sys_creat {K} _ _.
Arguments sys_unlink {K} _ _.

Section Streams.
Context {K : Type} (S : sys K).

(** The process around the streams. *)
Record world := mk_world { errno : Z; kernel : K }.
Abbreviation W := (ST world).

Definition syscall {A} (m : ST K A) : W A := fun w => '(r, k) ← m (kernel w); Some (r, mk_world (errno w) k).

(** ** The wrappers of sys.c *)

Definition ck (r : Z) : W Z := fun w =>
  if r <? 0 then Some (-1, mk_world (int_of (- r)) (kernel w)) else Some (r, w).

Definition read (d : Z) (buffer : list Z) (n : Z) : W (Z * list Z) :=
  '(r, b) ← syscall (sys_read S d buffer n); r ← ck r; mret (r, b).
Definition write (d : Z) (data : list Z) : W Z := r ← syscall (sys_write S d data); ck r.
Definition lseek (d offset whence : Z) : W Z := r ← syscall (sys_seek S d offset whence); ck r.
(** These return an int. *)
Definition ck_int (r : Z) : W Z := r ← ck r; mret (int_of r).
Definition close (d : Z) : W Z := r ← syscall (sys_close S d); ck_int r.
Definition vos_open_path (path : list Z) : W Z := r ← syscall (sys_open S path); ck_int r.
Definition vos_creat_path (path : list Z) : W Z := r ← syscall (sys_creat S path); ck_int r.
Definition unlink (path : list Z) : W Z := r ← syscall (sys_unlink S path); ck_int r.

(** ** A stream *)

Record stream := mk_stream { file : FILE; around : world }.
Abbreviation F := (ST stream).

Definition on_file (f : FILE -> FILE) : F () := update (fun s => mk_stream (f (file s)) (around s)).
Definition fp : F FILE := reads file.
Definition outside {A} (m : W A) : F A := fun s => '(r, w) ← m (around s); Some (r, mk_stream (file s) w).

Fixpoint write_all_from (fuel : nat) (d : Z) (data : list Z) (off : Z) : W Z :=
  match fuel with
  | O => undefined
  | Datatypes.S fuel' =>
      if off <? Z.of_nat (length data) then
        w ← write d (drop (Z.to_nat off) data);
        if w <=? 0 then mret (-1) else write_all_from fuel' d data (off + w)
      else mret 0
  end.

Definition write_all_fd (d : Z) (data : list Z) : W Z := write_all_from (Datatypes.S (length data)) d data 0.

Definition flush_write : F Z :=
  f ← fp;
  if negb (bufmode f =? _B_WRITE) || (bufpos f =? 0) then mret 0
  else
    data ← must (b ← buf f; slice b 0 (bufpos f));
    rc ← outside (write_all_fd (fd f) data);
    _ ← on_file (set_span 0 (buflen f));
    if negb (rc =? 0) then _ ← on_file (raise _F_ERR); mret EOF else mret 0.

Definition discard_read : F () :=
  f ← fp;
  _ ← (if (bufmode f =? _B_READ) && (bufpos f <? buflen f)
       then _ ← outside (lseek (fd f) (- (buflen f - bufpos f)) SEEK_CUR); mret ()
       else mret ());
  on_file (set_span 0 0).

(** ** Reading *)

Definition from_memory (size want : Z) (out : list Z) : F (Z * list Z) :=
  f ← fp;
  let left := u64 (mem_len f - mem_pos f) in
  let n := if want <? left then want else left in
  data ← must (slice (mem f) (mem_pos f) n);
  out ← must (splice out 0 data);
  _ ← on_file (set_mem_pos (u64 (mem_pos f + n)));
  _ ← (if n <? want then on_file (raise _F_EOF) else mret ());
  mret (n / size, out).

Fixpoint fread_loop (fuel : nat) (want done : Z) (out : list Z) : F (Z * list Z) :=
  match fuel with
  | O => undefined
  | Datatypes.S fuel' =>
      if done <? want then
        f ← fp;
        if bufpos f <? buflen f then
          let avail := buflen f - bufpos f in
          let n := if want - done <? avail then want - done else avail in
          data ← must (b ← buf f; slice b (bufpos f) n);
          out ← must (splice out done data);
          _ ← on_file (set_span (bufpos f + n) (buflen f));
          fread_loop fuel' want (done + n) out
        else
          match buf f with
          | Some b =>
              '(got, b) ← outside (read (fd f) b (bufcap f));
              _ ← on_file (set_bytes b);
              if got <=? 0 then _ ← on_file (raise (if got =? 0 then _F_EOF else _F_ERR)); mret (done, out)
              else _ ← on_file (set_span 0 got); fread_loop fuel' want done out
          | None =>
              '(got, tail) ← outside (read (fd f) (drop (Z.to_nat done) out) (want - done));
              let out := take (Z.to_nat done) out ++ tail in
              if got <=? 0 then _ ← on_file (raise (if got =? 0 then _F_EOF else _F_ERR)); mret (done, out)
              else fread_loop fuel' want (done + got) out
          end
      else mret (done, out)
  end.

(** The count and the new contents of the caller's array. *)
Definition fread (out : list Z) (size nmemb : Z) : F (Z * list Z) :=
  f ← fp;
  if negb (has _F_READ f) || has _F_ERR f then mret (0, out)
  else
    let want := u64 (size * nmemb) in
    if want =? 0 then mret (0, out)
    else if fd f <? 0 then from_memory size want out
    else
      _ ← (if bufmode f =? _B_WRITE then _ ← flush_write; mret () else mret ());
      _ ← on_file (set_bufmode _B_READ);
      '(done, out) ← fread_loop (Z.to_nat (2 * want + 2)) want 0 out;
      mret (done / size, out).

(** ** Writing *)

Fixpoint fwrite_loop (fuel : nat) (want done : Z) (data : list Z) : F Z :=
  match fuel with
  | O => undefined
  | Datatypes.S fuel' =>
      if done <? want then
        f ← fp;
        let space := u64 (bufcap f - bufpos f) in
        rc ← (if space =? 0 then flush_write else mret 0);
        if negb (rc =? 0) then mret done
        else
          let space := if space =? 0 then bufcap f else space in
          f ← fp;
          let n := if want - done <? space then want - done else space in
          chunk ← must (slice data done n);
          b ← must (b ← buf f; splice b (bufpos f) chunk);
          _ ← on_file (set_bytes b);
          _ ← on_file (set_span (bufpos f + n) (buflen f));
          fwrite_loop fuel' want (done + n) data
      else mret done
  end.

Definition fwrite (data : list Z) (size nmemb : Z) : F Z :=
  f ← fp;
  if negb (has _F_WRITE f) || (fd f <? 0) then mret 0
  else
    let want := u64 (size * nmemb) in
    if want =? 0 then mret 0
    else
      _ ← (if bufmode f =? _B_READ then discard_read else mret ());
      _ ← on_file (set_bufmode _B_WRITE);
      match buf f with
      | None =>
          data ← must (slice data 0 want);
          rc ← outside (write_all_fd (fd f) data);
          if negb (rc =? 0) then _ ← on_file (raise _F_ERR); mret 0 else mret nmemb
      | Some _ => done ← fwrite_loop (Z.to_nat (want + 1)) want 0 data; mret (done / size)
      end.

Definition fflush : F Z := flush_write.

(** ** Position and state *)

Definition fseek (offset whence : Z) : F Z :=
  f ← fp;
  if 0 <=? fd f then
    _ ← flush_write;
    _ ← discard_read;
    _ ← on_file (set_bufmode _B_IDLE);
    r ← outside (lseek (fd f) offset whence);
    if r <? 0 then _ ← on_file (raise _F_ERR); mret (-1)
    else _ ← on_file (lower _F_EOF); mret 0
  else
    new_pos ← must (if whence =? SEEK_SET then Some offset
                    else if whence =? SEEK_CUR then i64 (mem_pos f + offset)
                    else i64 (mem_len f + offset));
    let new_pos := if new_pos <? 0 then 0 else new_pos in
    let new_pos := if mem_len f <? new_pos then mem_len f else new_pos in
    _ ← on_file (set_mem_pos new_pos);
    _ ← on_file (lower _F_EOF);
    mret 0.

Definition ftell : F Z :=
  f ← fp;
  if fd f <? 0 then mret (mem_pos f)
  else
    pos ← outside (lseek (fd f) 0 SEEK_CUR);
    if pos <? 0 then mret (-1)
    else if bufmode f =? _B_READ then must (i64 (pos - (buflen f - bufpos f)))
    else if bufmode f =? _B_WRITE then must (i64 (pos + bufpos f))
    else mret pos.

Definition rewind : F () := _ ← fseek 0 SEEK_SET; on_file (lower _F_ERR).
Definition feof : F bool := reads (fun s => has _F_EOF (file s)).
Definition ferror : F bool := reads (fun s => has _F_ERR (file s)).
Definition clearerr : F () := on_file (lower (Z.lor _F_EOF _F_ERR)).

(** ** Characters and lines *)

Definition fgetc : F Z :=
  '(n, c) ← fread [0] 1 1;
  if negb (n =? 1) then mret EOF else must (aget c 0).

Definition fputc (c : Z) : F Z :=
  n ← fwrite [u8 c] 1 1; mret (if n =? 1 then c else EOF).

(** The string without its terminator. *)
Definition fputs (str : list Z) : F Z :=
  let n := size_of str in
  r ← fwrite str 1 n; mret (if r =? n then 0 else EOF).

(** [None] for the end of the file before the first character. *)
Fixpoint fgets_loop (fuel : nat) (n i : Z) (line : list Z) : F (option Z * list Z) :=
  match fuel with
  | O => undefined
  | Datatypes.S fuel' =>
      if i <? n - 1 then
        c ← fgetc;
        if c =? EOF then mret (if i =? 0 then None else Some i, line)
        else
          line ← must (aset line i c);
          if c =? 10 then mret (Some (i + 1), line) else fgets_loop fuel' n (i + 1) line
      else mret (Some i, line)
  end.

(** [false]: NULL is returned; the new contents of the caller's array. *)
Definition fgets (line : list Z) (n : Z) : F (bool * list Z) :=
  if n <=? 1 then mret (false, line)
  else
    '(end_, line) ← fgets_loop (Z.to_nat n) n 0 line;
    match end_ with
    | None => mret (false, line)
    | Some i => line ← must (aset line i 0); mret (true, line)
    end.

(** ** Buffers and closing *)

(** [given] is the caller's buffer, [memory] the result of [malloc]. *)
Definition setvbuf (given : option (list Z)) (mode size : Z) (memory : option (list Z)) : F Z :=
  f ← fp;
  if fd f <? 0 then mret (-1)
  else
    _ ← flush_write;
    _ ← discard_read;
    _ ← on_file (set_bufmode _B_IDLE);
    _ ← on_file (set_buf None 0 0);
    if mode =? _IONBF then mret 0
    else
      let size := if size <? 64 then BUFSIZ else size in
      match given with
      | Some b => _ ← on_file (set_buf (Some b) size 0); mret 0
      | None =>
          match memory with
          | Some b => _ ← on_file (set_buf (Some b) size 1); mret 0
          | None => _ ← on_file (set_buf None 0 0); mret (-1)
          end
      end.

Definition setbuf (given : option (list Z)) : F () :=
  _ ← setvbuf given (match given with Some _ => _IOFBF | None => _IONBF end) BUFSIZ None; mret ().

(** The memory that is freed is not modelled. *)
Definition fclose : F Z :=
  rc ← flush_write;
  f ← fp;
  _ ← (if 2 <? fd f then _ ← outside (close (fd f)); mret () else mret ());
  mret rc.

(** ** Opening *)

(** The flags of a mode string, and whether it truncates or appends. *)
Definition mode_flags (mode : list Z) : option (Z * bool * bool) :=
  match mode with
  | [] => None
  | m :: rest =>
      let plus := existsb (Z.eqb 43) rest in
      let wide x := if plus then Z.lor x (Z.lor _F_READ _F_WRITE) else x in
      if m =? 114 then Some (wide _F_READ, false, false)
      else if m =? 119 then Some (wide _F_WRITE, true, false)
      else if m =? 97 then Some (wide _F_WRITE, false, true)
      else None
  end.

Definition new_file (d fl : Z) (buffer : option (list Z)) : FILE :=
  mk_FILE d fl _B_IDLE buffer (match buffer with Some _ => BUFSIZ | None => 0 end) 0 0 (match buffer with Some _ => 1 | None => 0 end) [] 0 0.

(** [object] and [buffer] are the results of the two calls of [malloc]. *)
Definition fopen (path mode : list Z) (object : bool) (buffer : option (list Z)) : W (option FILE) :=
  match mode_flags mode with
  | None => mret None
  | Some (fl, truncate, append) =>
      d ← (if negb (Z.land fl _F_WRITE =? 0) then
             _ ← (if truncate then _ ← unlink path; mret () else mret ());
             vos_creat_path path
           else vos_open_path path);
      if d <? 0 then mret None
      else
        _ ← (if append then _ ← lseek d 0 SEEK_END; mret () else mret ());
        if object then mret (Some (new_file d fl buffer))
        else _ ← close d; mret None
  end.

Definition fmemopen (block : list Z) (size : Z) (object : bool) : option FILE :=
  if object then Some (mk_FILE (-1) _F_READ _B_IDLE None 0 0 0 0 block size 0) else None.

Definition fdopen (d : Z) (mode : list Z) (object : bool) : option FILE :=
  let fl := foldl (fun fl m => if m =? 114 then Z.lor fl 1 else if m =? 119 then Z.lor fl 2 else if m =? 97 then Z.lor fl 6 else fl) 0 mode in
  if object then Some (mk_FILE d fl 0 None 0 0 0 0 [] 0 0) else None.

End Streams.

(** ** What the streams rely on

    [holds k d c p]: descriptor [d] is open on a regular file with contents [c],
    at position [p].  A write stores a prefix of the data, and all of it unless the
    disk is full; reading and seeking do not make room.  A seek before the start
    leads to the start.  Positions and sizes stay below [limit]. *)
(** Where offsets count from. *)
Definition seek_from (whence pos size : Z) : Z :=
  if whence =? SEEK_SET then 0 else if whence =? SEEK_CUR then pos else size.

(** An offset is a long. *)
Definition seek_args (offset whence : Z) : Prop := 0 <= whence <= 2 /\ - 2 ^ 63 <= offset < 2 ^ 63.

Class FileService (K : Type) (S : sys K) := {
  holds : K -> Z -> list Z -> Z -> Prop;
  full : K -> Prop;
  limit : Z;
  limit_range : 0 <= limit < 2 ^ 62;
  holds_range k d c p : holds k d c p -> 0 <= d /\ 0 <= p <= limit /\ size_of c <= limit;
  read_spec k d c p buffer n : holds k d c p -> 0 <= n <= size_of buffer -> n < 2 ^ 63 ->
    wp (sys_read S d buffer n) (fun '(r, b) k' => 0 <= r <= n /\ (0 < n -> p < size_of c -> 0 < r) /\
      r <= Z.max 0 (size_of c - p) /\ b = overwrite buffer 0 (seg c p r) /\
      holds k' d c (p + r) /\ (full k -> full k')) k;
  write_spec k d c p data : holds k d c p -> p <= size_of c -> 0 < size_of data -> p + size_of data <= limit ->
    wp (sys_write S d data) (fun r k' => r <= size_of data /\ (r < size_of data -> full k') /\
      holds k' d (overwrite c p (seg data 0 (Z.max 0 r))) (p + Z.max 0 r)) k;
  seek_spec k d c p offset whence target : holds k d c p -> 0 <= target <= limit ->
    target = Z.max 0 (seek_from whence p (size_of c) + offset) -> seek_args offset whence ->
    wp (sys_seek S d offset whence) (fun r k' => r = target /\ holds k' d c target /\ (full k -> full k')) k }.

(** ** Flags *)

Lemma has_bit k f : 0 <= k -> has (2 ^ k) f = Z.testbit (flags f) k.
Proof.
  intros Hk. unfold has. destruct (Z.testbit (flags f) k) eqn:E.
  - apply negb_true_iff, Z.eqb_neq. intros H. assert (Z.testbit (Z.land (flags f) (2 ^ k)) k = false) as HH by (rewrite H; apply Z.bits_0).
    by rewrite Z.land_spec, E, Z.pow2_bits_true in HH.
  - apply negb_false_iff, Z.eqb_eq, Z.bits_inj'. intros n Hn. rewrite Z.land_spec, Z.bits_0.
    destruct (decide (n = k)) as [->|]; [by rewrite E|]. by rewrite Z.pow2_bits_false, andb_false_r by lia.
Qed.

(** A single bit of the flags. *)
Definition is_flag (x : Z) : Prop := exists k, 0 <= k /\ x = 2 ^ k.

Lemma flags_ok : is_flag _F_READ /\ is_flag _F_WRITE /\ is_flag _F_EOF /\ is_flag _F_ERR.
Proof. split_and!; [by exists 0|by exists 1|by exists 3|by exists 4]. Qed.

Lemma has_raise x y f : is_flag x -> is_flag y -> has x (raise y f) = has x f || (x =? y).
Proof.
  intros (j&Hj&->) (k&Hk&->). rewrite !has_bit by lia. simpl. rewrite Z.lor_spec, Z.pow2_bits_eqb by lia. f_equal.
  destruct (Z.eqb_spec k j) as [->|Hne]; [by rewrite Z.eqb_refl|]. symmetry. apply Z.eqb_neq. intros E.
  by apply Z.pow_inj_r in E; [|lia..].
Qed.

Lemma has_lower x y f : is_flag x -> is_flag y -> has x (lower y f) = has x f && negb (x =? y).
Proof.
  intros (j&Hj&->) (k&Hk&->). rewrite !has_bit by lia. simpl. rewrite Z.land_spec, Z.lnot_spec, Z.pow2_bits_eqb by lia. do 2 f_equal.
  destruct (Z.eqb_spec k j) as [->|Hne]; [by rewrite Z.eqb_refl|]. symmetry. apply Z.eqb_neq. intros E.
  by apply Z.pow_inj_r in E; [|lia..].
Qed.

(** Evaluate a test of a flag after raising or lowering one. *)
Ltac flag := cbn [file around]; rewrite ?has_raise, ?has_lower by apply flags_ok; simpl Z.eqb; rewrite ?orb_false_r, ?orb_true_r, ?andb_true_r, ?andb_false_r.

(** ** The file a stream shows *)

Record view := mk_view { v_data : list Z; v_pos : Z; v_eof : bool; v_read : bool; v_write : bool }.

Definition at_pos p v := mk_view (v_data v) p (v_eof v) (v_read v) (v_write v).
Definition with_data c p v := mk_view c p (v_eof v) (v_read v) (v_write v).
Definition with_eof e v := mk_view (v_data v) (v_pos v) e (v_read v) (v_write v).

Definition file_ok (f : FILE) : Prop :=
  0 <= fd f /\ 0 <= bufcap f < 2 ^ 62 /\
  match buf f with None => bufcap f = 0 | Some b => size_of b = bufcap f /\ 0 < bufcap f end.

Definition pending (f : FILE) : list Z := seg (default [] (buf f)) 0 (bufpos f).

(** How the buffer and the descriptor, which is at position [P] of a file [c0],
    make up the contents [c] and the position [p] of the stream. *)
Inductive buffers (f : FILE) : list Z -> Z -> list Z -> Z -> Prop :=
  | bf_idle c p : bufmode f = _B_IDLE -> bufpos f = 0 -> buflen f = 0 -> buffers f c p c p
  | bf_read c p : bufmode f = _B_READ -> 0 <= bufpos f <= buflen f -> buflen f <= bufcap f ->
      seg (default [] (buf f)) (bufpos f) (buflen f - bufpos f) = seg c p (buflen f - bufpos f) ->
      (bufpos f < buflen f -> p + (buflen f - bufpos f) <= size_of c) ->
      buffers f c p c (p + (buflen f - bufpos f))
  | bf_write c0 P : bufmode f = _B_WRITE -> buflen f = 0 -> 0 <= bufpos f <= bufcap f -> P <= size_of c0 ->
      buffers f (overwrite c0 P (pending f)) (P + bufpos f) c0 P.

Lemma bf_read_at f c p P : bufmode f = _B_READ -> 0 <= bufpos f <= buflen f -> buflen f <= bufcap f ->
  seg (default [] (buf f)) (bufpos f) (buflen f - bufpos f) = seg c p (buflen f - bufpos f) ->
  (bufpos f < buflen f -> p + (buflen f - bufpos f) <= size_of c) -> P = p + (buflen f - bufpos f) -> buffers f c p c P.
Proof. intros. subst. by apply bf_read. Qed.

Lemma bf_write_at f c p c0 P : bufmode f = _B_WRITE -> buflen f = 0 -> 0 <= bufpos f <= bufcap f -> P <= size_of c0 ->
  c = overwrite c0 P (pending f) -> p = P + bufpos f -> buffers f c p c0 P.
Proof. intros. subst. by apply bf_write. Qed.

Section Refinement.
Context {K : Type} (S : sys K) {FS : FileService K S}.
Abbreviation stream := (stream (K := K)).
Abbreviation holds := (holds (FileService := FS)).
Abbreviation full := (full (FileService := FS)).
Abbreviation limit := (limit (FileService := FS)).
Implicit Types (s : stream) (v : view) (w : world (K := K)).

Record sees s v : Prop := {
  se_file : file_ok (file s);
  se_pos : 0 <= v_pos v <= limit;
  se_eof : has _F_EOF (file s) = v_eof v;
  se_read : has _F_READ (file s) = v_read v;
  se_write : has _F_WRITE (file s) = v_write v;
  se_data : exists c0 P, holds (kernel (around s)) (fd (file s)) c0 P /\ buffers (file s) (v_data v) (v_pos v) c0 P }.

(** Nothing in the buffer: the descriptor is the stream. *)
Definition settled s v : Prop := sees s v /\ bufpos (file s) = 0 /\ buflen (file s) = 0.

(** Of the last data written, which end at position [p] of [c], only a prefix has
    reached the file, which holds [c']. *)
Definition cut_short (c : list Z) (p : Z) (c' : list Z) : Prop :=
  exists c0 P d j, c = overwrite c0 P d /\ p = P + size_of d /\ c' = overwrite c0 P (seg d 0 j) /\
    0 <= P <= size_of c0 /\ 0 <= j <= size_of d.

(** A write has failed on a full disk: the error is flagged, pending data are lost. *)
Definition failed s v : Prop :=
  has _F_ERR (file s) = true /\ full (kernel (around s)) /\ exists v', sees s v' /\ cut_short (v_data v) (v_pos v) (v_data v').

Lemma cut_short_more c p c' e : cut_short c p c' -> cut_short (overwrite c p e) (p + size_of e) c'.
Proof.
  intros (c0&P&d&j&->&->&->&HP&Hj). exists c0, P, (d ++ e), j. rewrite overwrite_app by lia. split_and!; try lia; [done| | |].
  - rewrite length_app. lia.
  - unfold seg. cbn [Z.to_nat]. rewrite !drop_0, take_app_le by lia. done.
  - rewrite length_app. lia.
Qed.

(** *** System calls *)

Lemma wp_outside {A} (m : ST (world (K := K)) A) (Q : A -> stream -> Prop) s :
  wp m (fun x w' => Q x (mk_stream (file s) w')) (around s) -> wp (outside m) Q s.
Proof. intros (x&w'&E&HQ). exists x, (mk_stream (file s) w'). split; [|done]. unfold outside. by rewrite E. Qed.

Lemma wp_on_file g (Q : () -> stream -> Prop) s : Q tt (mk_stream (g (file s)) (around s)) -> wp (on_file g) Q s.
Proof. intros. by apply wp_update. Qed.

Lemma wp_kernel {A} (m : ST K A) (Q : A -> world -> Prop) w :
  wp m (fun x k' => Q x (mk_world (errno w) k')) (kernel w) -> wp (syscall m) Q w.
Proof. intros (x&k'&E&HQ). exists x, (mk_world (errno w) k'). split; [|done]. unfold syscall. by rewrite E. Qed.

Lemma ck_runs r (Q : Z -> world -> Prop) w :
  (forall w', kernel w' = kernel w -> Q (if r <? 0 then -1 else r) w') -> wp (ck r) Q w.
Proof. intros H. unfold wp, ck. destruct (r <? 0); eexists _, _; (split; [done|]); by apply H. Qed.

Lemma fd_read_runs d c p buffer n w :
  holds (kernel w) d c p -> 0 <= n <= size_of buffer -> n < 2 ^ 63 ->
  wp (read S d buffer n) (fun '(r, b) w' => 0 <= r <= n /\ (0 < n -> p < size_of c -> 0 < r) /\
    r <= Z.max 0 (size_of c - p) /\ b = overwrite buffer 0 (seg c p r) /\
    holds (kernel w') d c (p + r) /\ (full (kernel w) -> full (kernel w'))) w.
Proof.
  intros Hh Hn Hb. unfold read. wstep. apply wp_kernel. eapply wp_mono; [by apply read_spec|].
  intros [r b] k' (Hr&H). cbn beta iota. wstep. apply ck_runs. intros w' Hw'. simpl in Hw'.
  destruct (Z.ltb_spec r 0); [lia|]. wstep. rewrite Hw'. done.
Qed.

Lemma fd_write_runs d c p data w :
  holds (kernel w) d c p -> p <= size_of c -> 0 < size_of data -> p + size_of data <= limit ->
  wp (write S d data) (fun r w' => r <= size_of data /\ (r < size_of data -> full (kernel w')) /\
    holds (kernel w') d (overwrite c p (seg data 0 (Z.max 0 r))) (p + Z.max 0 r)) w.
Proof.
  intros Hh Hp Hd Hl. unfold write. wstep. apply wp_kernel. eapply wp_mono; [by apply write_spec|].
  intros r k' (Hr&Hfit&Hk). apply ck_runs. intros w' Hw'. simpl in Hw'. rewrite Hw'.
  destruct (Z.ltb_spec r 0); [|done].
  replace (Z.max 0 (-1)) with (Z.max 0 r) by lia. split_and!; [lia| |done]. intros _. apply Hfit. lia.
Qed.

Lemma lseek_runs d c p offset whence target w :
  holds (kernel w) d c p -> 0 <= target <= limit ->
  target = Z.max 0 (seek_from whence p (size_of c) + offset) -> seek_args offset whence ->
  wp (lseek S d offset whence) (fun r w' => r = target /\ holds (kernel w') d c target /\ (full (kernel w) -> full (kernel w'))) w.
Proof.
  intros Hh Ht Hw Hwh. unfold lseek. wstep. apply wp_kernel. eapply wp_mono; [by eapply seek_spec|].
  intros r k' (->&Hk&Hr). apply ck_runs. intros w' Hw'. simpl in Hw'. rewrite Hw'.
  destruct (Z.ltb_spec target 0); [lia|]. done.
Qed.

(** All of the data, or as much as there is room for. *)
Lemma write_all_runs fuel d c p data off w :
  holds (kernel w) d (overwrite c p (seg data 0 off)) (p + off) -> 0 <= p <= size_of c ->
  0 <= off <= size_of data -> p + size_of data <= limit -> (Z.to_nat (size_of data - off) < fuel)%nat ->
  wp (write_all_from S fuel d data off) (fun rc w' => exists j, 0 <= j <= size_of data /\
    holds (kernel w') d (overwrite c p (seg data 0 j)) (p + j) /\
    (rc = 0 /\ j = size_of data \/ rc = -1 /\ full (kernel w'))) w.
Proof.
  revert off w. induction fuel as [|fuel IH]; intros off w Hh Hp Hoff Hl Hfuel; [lia|]. cbn [write_all_from].
  assert (Loff : size_of (seg data 0 off) = off) by (apply length_seg_in; lia).
  case_if; [|wstep; exists off; split_and!; [lia|lia|done|left; split; [done|lia]]].
  assert (Lrest : size_of (drop (Z.to_nat off) data) = size_of data - off) by (rewrite length_drop; lia).
  assert (Lc : p + off <= size_of (overwrite c p (seg data 0 off))) by (rewrite length_overwrite by lia; lia).
  apply wp_bind. eapply wp_mono; [eapply fd_write_runs; [exact Hh|done|lia|lia]|].
  intros r w' (Hr&Hfit&Hk). cbn beta iota. rewrite <- Loff in Hk at 2. rewrite overwrite_app in Hk by lia.
  case_if; wstep || idtac.
  - replace (Z.max 0 r) with 0 in Hk by lia. rewrite seg_0, app_nil_r, Z.add_0_r in Hk.
    exists off. split_and!; [lia|lia|done|]. right. split; [done|]. apply Hfit. lia.
  - replace (Z.max 0 r) with r in Hk by lia.
    replace (seg (drop (Z.to_nat off) data) 0 r) with (seg data (0 + off) r) in Hk by done.
    rewrite <- seg_split, <- Z.add_assoc in Hk by lia.
    eapply wp_mono; [apply IH; [exact Hk|done|lia|done|lia]|].
    intros rc w2 HH. exact HH.
Qed.

(** *** The buffer *)

(** The three modes differ. *)
Ltac modes := exfalso; unfold _B_IDLE, _B_READ, _B_WRITE in *; lia.

Lemma settled_holds s v : settled s v -> holds (kernel (around s)) (fd (file s)) (v_data v) (v_pos v).
Proof.
  intros ([Hf Hp He Hr Hw (c0&P&Hh&Hb)]&H1&H2).
  inversion Hb; subst; [done| |].
  - by replace (v_pos v) with (v_pos v + (buflen (file s) - bufpos (file s))) by lia.
  - unfold pending. rewrite H1, seg_0, overwrite_nil, Z.add_0_r. done.
Qed.

(** An empty buffer suits every mode. *)
Lemma settled_mode s v m :
  settled s v -> (m = _B_WRITE -> v_pos v <= size_of (v_data v)) -> m = _B_IDLE \/ m = _B_READ \/ m = _B_WRITE ->
  settled (mk_stream (set_bufmode m (file s)) (around s)) v.
Proof.
  intros H Hm Hcase. pose proof (settled_holds _ _ H) as Hh. destruct H as ([Hf Hp He Hr Hw _]&H1&H2).
  split; [|done]. split; try done. exists (v_data v), (v_pos v). split; [done|]. simpl.
  destruct Hcase as [-> | [-> | ->]].
  - by constructor.
  - replace (v_pos v) with (v_pos v + (buflen (file s) - bufpos (file s))) at 2 by lia. destruct Hf as (?&?&?).
    apply (bf_read (set_bufmode _B_READ (file s))); simpl; rewrite ?H1, ?H2; [done|lia|lia|done|lia].
  - replace (v_data v) with (overwrite (v_data v) (v_pos v) (pending (set_bufmode _B_WRITE (file s)))) at 1
      by (unfold pending; simpl; rewrite H1, seg_0; apply overwrite_nil).
    replace (v_pos v) with (v_pos v + bufpos (file s)) at 2 by lia. destruct Hf as (?&?&?).
    apply (bf_write (set_bufmode _B_WRITE (file s))); simpl; rewrite ?H1, ?H2; [done|done|lia|auto].
Qed.

Lemma sees_with_kernel s v w' c P :
  sees s v -> buffers (file s) (v_data v) (v_pos v) c P -> holds (kernel w') (fd (file s)) c P ->
  sees (mk_stream (file s) w') v.
Proof. intros [] Hb Hh. split; try done. exists c, P. done. Qed.

(** The fields that flushing and discarding leave alone. *)
Definition same_stream (f f' : FILE) : Prop :=
  fd f' = fd f /\ flags f' = flags f /\ bufmode f' = bufmode f /\ buf f' = buf f /\ bufcap f' = bufcap f.

Lemma sees_settled s v f' w' c p :
  sees s v -> same_stream (file s) f' -> bufpos f' = 0 -> buflen f' = 0 ->
  holds (kernel w') (fd (file s)) c p ->
  (bufmode f' = _B_WRITE -> p <= size_of c) -> bufmode f' = _B_IDLE \/ bufmode f' = _B_READ \/ bufmode f' = _B_WRITE ->
  settled (mk_stream f' w') (with_data c p v).
Proof.
  intros [Hf Hp He Hr Hw _] (Efd&Efl&Em&Eb&Ec) H1 H2 Hh Hm Hc.
  assert (Hid : settled (mk_stream (set_bufmode _B_IDLE f') w') (with_data c p v)).
  { pose proof (holds_range _ _ _ _ Hh) as (_&Hpp&_). split; [|done]. split; simpl; try done.
    - unfold file_ok. simpl. rewrite Efd, Eb, Ec. done.
    - unfold has in *. simpl. by rewrite Efl.
    - unfold has in *. simpl. by rewrite Efl.
    - unfold has in *. simpl. by rewrite Efl.
    - exists c, p. rewrite Efd. split; [done|]. by constructor. }
  pose proof (settled_mode _ _ (bufmode f') Hid Hm Hc) as Hs. simpl in Hs. by destruct f'.
Qed.

Lemma with_data_id v : with_data (v_data v) (v_pos v) v = v.
Proof. by destruct v. Qed.

Lemma buffers_flags x f c p c0 P : buffers f c p c0 P -> buffers (set_flags x f) c p c0 P.
Proof.
  destruct 1; [by apply bf_idle|by apply (bf_read (set_flags x f))|].
  by apply (bf_write (set_flags x f)).
Qed.

Lemma sees_flags x s v e :
  sees s v -> let f' := set_flags x (file s) in
  has _F_EOF f' = e -> has _F_READ f' = v_read v -> has _F_WRITE f' = v_write v ->
  sees (mk_stream f' (around s)) (with_eof e v).
Proof.
  intros [Hf Hp _ _ _ (c0&P&Hh&Hb)] f' He Hr Hw. split; try done.
  exists c0, P. split; [done|]. by apply buffers_flags.
Qed.

Lemma sees_err s v : sees s v -> sees (mk_stream (raise _F_ERR (file s)) (around s)) v.
Proof.
  intros H. replace v with (with_eof (v_eof v) v) by (by destruct v). pose proof H as [].
  apply sees_flags; [done|fold (raise _F_ERR (file s))..]; by flag.
Qed.

Lemma sees_eof s v : sees s v -> sees (mk_stream (raise _F_EOF (file s)) (around s)) (with_eof true v).
Proof. intros H. pose proof H as []. apply sees_flags; [done|fold (raise _F_EOF (file s))..]; by flag. Qed.

Lemma sees_not_eof s v : sees s v -> sees (mk_stream (lower _F_EOF (file s)) (around s)) (with_eof false v).
Proof. intros H. pose proof H as []. apply sees_flags; [done|fold (lower _F_EOF (file s))..]; by flag. Qed.

Lemma sees_not_err s v : sees s v -> sees (mk_stream (lower _F_ERR (file s)) (around s)) v.
Proof.
  intros H. replace v with (with_eof (v_eof v) v) by (by destruct v). pose proof H as [].
  apply sees_flags; [done|fold (lower _F_ERR (file s))..]; by flag.
Qed.

Lemma buffers_mode f c p c0 P : buffers f c p c0 P -> bufmode f = _B_IDLE \/ bufmode f = _B_READ \/ bufmode f = _B_WRITE.
Proof. inversion 1; auto. Qed.

Lemma flush_write_runs s v :
  sees s v ->
  wp (flush_write S) (fun r s' =>
    (r = 0 /\ sees s' v /\ same_stream (file s) (file s') /\ (bufmode (file s) = _B_WRITE -> settled s' v) /\
     (bufmode (file s) <> _B_WRITE -> s' = s)) \/
    (r = EOF /\ full (kernel (around s')) /\ bufmode (file s) = _B_WRITE /\ fd (file s') = fd (file s) /\
     has _F_ERR (file s') = true /\ exists v', settled s' v' /\ v_pos v' <= v_pos v /\ cut_short (v_data v) (v_pos v) (v_data v'))) s.
Proof.
  intros H. pose proof H as [Hf Hp He Hr Hw (c0&P&Hh&Hb)]. unfold flush_write, fp. wstep. wstep.
  destruct (Z.eqb_spec (bufmode (file s)) _B_WRITE) as [Em|Em]; cbn [negb orb].
  2: { wstep. left. split_and!; [done|done|done|done|done]. }
  destruct (Z.eqb_spec (bufpos (file s)) 0) as [E0|E0].
  { wstep. left. split_and!; try done. intros _. split; [done|]. split; [done|]. inversion Hb; subst; [modes|modes|done]. }
  inversion Hb as [ | |c0' P' Hm Hlen Hpos HP E1 E2]; subst; [modes|modes|].
  destruct Hf as (Hfd&Hcap&Hbuf). destruct (buf (file s)) as [b|] eqn:Eb; [|lia]. destruct Hbuf as [Lb Hb0].
  apply wp_bind. eapply wp_must; [simpl; apply slice_seg; lia|].
  apply wp_bind. apply wp_outside.
  pose proof (holds_range _ _ _ _ Hh) as (_&HP0&_).
  assert (Hpend : seg b 0 (bufpos (file s)) = pending (file s)) by (unfold pending; by rewrite Eb). rewrite Hpend.
  assert (Lp : size_of (pending (file s)) = bufpos (file s)) by (rewrite <- Hpend; apply length_seg_in; lia).
  eapply wp_mono; [eapply (write_all_runs _ _ c0 P)|]; rewrite ?Lp, ?seg_0, ?overwrite_nil, ?Z.add_0_r; [exact Hh|lia|lia|lia|lia|].
  intros rc w' (j&Hj&Hk&Hcase). cbn beta iota. apply wp_bind, wp_on_file. cbn beta iota. simpl file. simpl around.
  destruct Hcase as [(->&->) | (->&Hfull)]; cbn [Z.eqb negb].
  - wstep. left. split; [done|].
    assert (Hset : settled (mk_stream (set_span 0 (buflen (file s)) (file s)) w') v).
    { rewrite <- with_data_id. eapply sees_settled; [exact H|done|done|done| | |by right; right].
      - rewrite <- E1, <- E2. rewrite <- Lp in Hk at 1. by rewrite seg_whole in Hk.
      - intros _. rewrite <- E1, <- E2, length_overwrite by lia. lia. }
    split_and!; try done. by destruct Hset.
  - apply wp_bind, wp_on_file. cbn beta iota. wstep. right. split_and!; [done|done|done|done|by flag|].
    assert (Lj : size_of (seg (pending (file s)) 0 j) = j) by (apply length_seg_in; lia).
    exists (with_data (overwrite c0 P (seg (pending (file s)) 0 j)) (P + j) v).
    split_and!; [|simpl; lia|exists c0, P, (pending (file s)), j; split_and!; first [done|lia]].
    split; [|done]. apply (sees_err (mk_stream (set_span 0 (buflen (file s)) (file s)) w')).
    eapply sees_settled; [exact H|done|done|done|exact Hk| |by right; right].
    intros _. rewrite length_overwrite by lia. lia.
Qed.

Lemma discard_runs s v :
  sees s v -> (bufmode (file s) = _B_WRITE -> settled s v) ->
  wp (discard_read S) (fun _ s' => settled s' v /\ same_stream (file s) (file s') /\ (full (kernel (around s)) -> full (kernel (around s')))) s.
Proof.
  intros H Hw. pose proof H as [Hf Hp _ _ _ (c0&P&Hh&Hb)]. unfold discard_read, fp. wstep. wstep.
  assert (Hall : forall w', holds (kernel w') (fd (file s)) (v_data v) (v_pos v) -> (full (kernel (around s)) -> full (kernel w')) ->
    wp (on_file (set_span 0 0)) (fun _ s' => settled s' v /\ same_stream (file s) (file s') /\ (full (kernel (around s)) -> full (kernel (around s')))) (mk_stream (file s) w')).
  { intros w' Hk Hr. apply wp_on_file. split; [|done]. rewrite <- with_data_id.
    eapply sees_settled; [exact H|done|done|done|exact Hk| |exact (buffers_mode _ _ _ _ _ Hb)].
    intros Em. simpl in Em. inversion Hb; subst; [modes|modes|]. rewrite length_overwrite; [|pose proof (holds_range _ _ _ _ Hh); lia].
    destruct (Hw Em) as (_&E0&_). unfold pending. rewrite E0, seg_0. simpl. lia. }
  assert (Hid : bufmode (file s) <> _B_READ \/ bufpos (file s) = buflen (file s) -> holds (kernel (around s)) (fd (file s)) (v_data v) (v_pos v)).
  { intros Hn. inversion Hb; subst; [done| |].
    - destruct Hn as [|Hn]; [done|]. by replace (v_pos v) with (v_pos v + (buflen (file s) - bufpos (file s))) by lia.
    - pose proof (settled_holds _ _ (Hw ltac:(assumption))) as HH. congruence. }
  destruct (Z.eqb_spec (bufmode (file s)) _B_READ) as [Em|Em]; cbn [andb].
  - destruct (Z.ltb_spec (bufpos (file s)) (buflen (file s))) as [Hlt|Hge].
    + inversion Hb as [ |c p Hm Hpos Hlen Heq Hin E1 E2 E3| ]; subst; [modes| |modes].
      repeat apply wp_bind. apply wp_outside. eapply wp_mono.
      { eapply (lseek_runs _ _ _ _ _ (v_pos v)); [exact Hh|lia|unfold seek_from; simpl; lia|]. destruct Hf as (_&?&_). split; [done|lia]. }
      intros r w' (->&Hk&Hr). cbn beta iota. wstep. by apply Hall.
    + repeat wstep. destruct s as [f w]. apply Hall; [|done]. apply Hid. right.
      inversion Hb; subst; [modes| |modes]. simpl in *. lia.
  - repeat wstep. destruct s as [f w]. apply Hall; [|done]. apply Hid. by left.
Qed.

(** *** Reading *)

Lemma set_bytes_id f b : buf f = Some b -> set_bytes b f = f.
Proof. destruct f. simpl. intros ->. done. Qed.

(** A stream that reads and has used up its buffer. *)
Lemma drained s v : sees s v -> bufmode (file s) = _B_READ -> buflen (file s) <= bufpos (file s) ->
  holds (kernel (around s)) (fd (file s)) (v_data v) (v_pos v) /\ bufpos (file s) = buflen (file s).
Proof.
  intros [_ _ _ _ _ (c0&P&Hh&Hb)] Em Hle. inversion Hb as [ |c p Hm Hpos Hlen Heq Hin E1 E2 E3| ]; subst; [modes| |modes].
  split; [|lia]. by replace (v_pos v) with (v_pos v + (buflen (file s) - bufpos (file s))) by lia.
Qed.

(** The stream after a read from the descriptor put [n] bytes into its buffer. *)
Lemma refilled s v b w' n :
  sees s v -> bufmode (file s) = _B_READ -> buf (file s) = Some b -> 0 <= n <= bufcap (file s) ->
  n <= Z.max 0 (size_of (v_data v) - v_pos v) ->
  holds (kernel w') (fd (file s)) (v_data v) (v_pos v + n) ->
  sees (mk_stream (set_span 0 n (set_bytes (overwrite b 0 (seg (v_data v) (v_pos v) n)) (file s))) w') v.
Proof.
  intros [Hf Hp He Hr Hw _] Em Eb Hn Hin Hk. destruct Hf as (Hfd&Hcap&Hbuf). rewrite Eb in Hbuf.
  pose proof (length_seg (v_data v) (v_pos v) n ltac:(lia) ltac:(lia)) as L.
  split; try done; simpl.
  - unfold file_ok. simpl. rewrite length_overwrite by lia. lia.
  - exists (v_data v), (v_pos v + n). split; [done|].
    apply bf_read_at; simpl; [done|lia|lia| |lia|lia].
    rewrite Z.sub_0_r. destruct (Z.le_gt_cases (size_of (v_data v)) (v_pos v)).
    + assert (n = 0) as -> by lia. done.
    + assert (En : size_of (seg (v_data v) (v_pos v) n) = n) by lia.
      rewrite <- En at 2. apply seg_overwrite_eq. lia.
Qed.


(** Taking [n] bytes of the read-ahead. *)
Lemma served s v n :
  sees s v -> bufmode (file s) = _B_READ -> 0 <= n <= buflen (file s) - bufpos (file s) ->
  sees (mk_stream (set_span (bufpos (file s) + n) (buflen (file s)) (file s)) (around s)) (at_pos (v_pos v + n) v) /\
  seg (default [] (buf (file s))) (bufpos (file s)) n = seg (v_data v) (v_pos v) n.
Proof.
  intros [Hf Hp He Hr Hw (c0&P&Hh&Hb)] Em Hn. pose proof (holds_range _ _ _ _ Hh) as (_&HP&_).
  inversion Hb as [ |c p Hm Hpos Hlen Heq Hin E1 E2 E3| ]; subst; [modes| |modes].
  assert (Hag : forall j m, 0 <= j -> 0 <= m -> j + m <= buflen (file s) - bufpos (file s) ->
    seg (default [] (buf (file s))) (bufpos (file s) + j) m = seg (v_data v) (v_pos v + j) m).
  { intros. by apply (seg_agree _ _ _ _ (buflen (file s) - bufpos (file s))); [lia..|]. }
  split; [|specialize (Hag 0 n); rewrite !Z.add_0_r in Hag; apply Hag; lia].
  split; try done; [simpl; lia|]. eexists _, _. split; [exact Hh|].
  apply bf_read_at; simpl; [done|lia|lia| |lia|lia].
  replace (buflen (file s) - (bufpos (file s) + n)) with (buflen (file s) - bufpos (file s) - n) by lia. apply Hag; lia.
Qed.

(** An unbuffered read moves the position of the descriptor. *)
Lemma moved s v w' n :
  sees s v -> bufmode (file s) = _B_READ -> bufpos (file s) = buflen (file s) -> 0 <= n ->
  holds (kernel w') (fd (file s)) (v_data v) (v_pos v + n) ->
  sees (mk_stream (file s) w') (at_pos (v_pos v + n) v).
Proof.
  intros [Hf Hp He Hr Hw (c0&P&Hh&Hb)] Em Hpos Hn Hk. pose proof (holds_range _ _ _ _ Hk) as (_&HP&_).
  split; try done. eexists _, _. split; [exact Hk|].
  inversion Hb as [ |c p Hm Hps Hlen Heq Hin E1 E2 E3| ]; subst; [modes| |modes].
  apply bf_read_at; simpl; [done|lia|lia| |lia|lia]. replace (buflen (file s) - bufpos (file s)) with 0 by lia. by rewrite !seg_0.
Qed.

(** What reading [n] bytes gives at the position of [v]. *)
Definition available v n : Z := Z.max 0 (Z.min n (size_of (v_data v) - v_pos v)).
Definition after_read v n : view :=
  with_eof (v_eof v || (available v n <? n)) (at_pos (v_pos v + available v n) v).

(** Reading [n] bytes first and the rest after. *)
Lemma available_add v n want :
  0 <= n <= want -> n <= size_of (v_data v) - v_pos v ->
  available v want = n + available (at_pos (v_pos v + n) v) (want - n) /\
  after_read (at_pos (v_pos v + n) v) (want - n) = after_read v want.
Proof.
  intros. assert (E : available v want = n + available (at_pos (v_pos v + n) v) (want - n)) by (unfold available; simpl; lia).
  split; [done|]. unfold after_read. rewrite E. unfold at_pos, with_eof. simpl. f_equal; [lia|]. f_equal. lia.
Qed.

Lemma overwrite_read v n want (out : list Z) done :
  0 <= v_pos v -> 0 <= n <= want -> n <= size_of (v_data v) - v_pos v -> 0 <= done <= size_of out ->
  overwrite (overwrite out done (seg (v_data v) (v_pos v) n)) (done + n)
    (seg (v_data v) (v_pos v + n) (available (at_pos (v_pos v + n) v) (want - n))) =
  overwrite out done (seg (v_data v) (v_pos v) (available v want)).
Proof.
  intros Hp Hn Hin Hd. assert (L : size_of (seg (v_data v) (v_pos v) n) = n) by (apply length_seg_in; lia).
  rewrite <- L at 2. rewrite overwrite_app by lia. f_equal.
  destruct (available_add v n want) as [-> _]; [lia|lia|]. rewrite seg_split by (unfold available; lia). done.
Qed.

Lemma at_pos_0 v : at_pos (v_pos v + 0) v = v.
Proof. destruct v. unfold at_pos. simpl. by rewrite Z.add_0_r. Qed.

Definition err_bit s : bool := has _F_ERR (file s).

Lemma fread_loop_runs fuel want done out s v :
  sees s v -> bufmode (file s) = _B_READ -> 0 <= done <= want -> want <= size_of out -> want < 2 ^ 62 ->
  (Z.to_nat (2 * (want - done) + (if bufpos (file s) <? buflen (file s) then 0 else 1))%Z < fuel)%nat ->
  wp (fread_loop S fuel want done out) (fun '(d, out') s' =>
    d = done + available v (want - done) /\ out' = overwrite out done (seg (v_data v) (v_pos v) (available v (want - done))) /\
    sees s' (after_read v (want - done)) /\ err_bit s' = err_bit s /\ bufmode (file s') = _B_READ /\
    (full (kernel (around s)) -> full (kernel (around s')))) s.
Proof.
  revert done out s v. induction fuel as [|fuel IH]; intros done out s v H Em Hd Ho Hw Hfuel; [lia|]. cbn [fread_loop].
  pose proof H as [(Hfd&Hcap&Hbuf) Hp _ _ _ _].
  case_if; cycle 1.
  { wstep. assert (want - done = 0) as -> by lia. assert (Ea : available v 0 = 0) by (unfold available; lia).
    unfold after_read. rewrite Ea, seg_0, overwrite_nil, Z.add_0_r, orb_false_r. split_and!; [lia|done| |done|done|done].
    rewrite Z.add_0_r. by destruct v. }
  unfold fp. wstep. wstep.
  destruct (Z.ltb_spec (bufpos (file s)) (buflen (file s))) as [Hlt|Hge].
  - (* from the buffer *)
    set (n := if want - done <? buflen (file s) - bufpos (file s) then want - done else buflen (file s) - bufpos (file s)).
    assert (Hn : 0 < n <= want - done /\ n <= buflen (file s) - bufpos (file s)) by (unfold n; case_if; lia).
    destruct (served s v n H Em ltac:(lia)) as [Hs Hseg].
    assert (Hin : n <= size_of (v_data v) - v_pos v /\ buflen (file s) <= bufcap (file s) /\ 0 <= bufpos (file s)).
    { destruct H as [_ _ _ _ _ (c0&P&_&Hb)]. inversion Hb as [ |c p Hm Hps Hlen Heq Hin E1 E2 E3| ]; subst; [modes| |modes]. lia. }
    destruct (buf (file s)) as [b|] eqn:Eb; [|lia]. simpl in Hseg.
    assert (L : size_of (seg (v_data v) (v_pos v) n) = n) by (apply length_seg_in; lia).
    apply wp_bind. eapply wp_must; [simpl; apply slice_seg; lia|]. rewrite Hseg.
    apply wp_bind. eapply wp_must; [apply splice_overwrite; lia|].
    apply wp_bind, wp_on_file. cbn beta iota.
    eapply wp_mono; [eapply IH; [exact Hs|done|lia|rewrite length_overwrite by lia; lia|lia|]|].
    { cbn [file bufpos buflen set_span]. destruct (bufpos (file s) + n <? buflen (file s)); lia. }
    intros [d out'] s' (->&->&Hs'&He&Hm&Hfl). cbn [v_data v_pos at_pos] in *.
    destruct (available_add v n (want - done)) as [Ea Er]; [lia|lia|].
    replace (want - (done + n)) with (want - done - n) in * by lia. rewrite Er in Hs'.
    split_and!; [lia|apply overwrite_read; lia|done|done|done|auto].
  - destruct (drained s v H Em Hge) as [Hh Hpos].
    destruct (buf (file s)) as [b|] eqn:Eb.
    + (* refill *)
      apply wp_bind, wp_outside. eapply wp_mono; [eapply fd_read_runs; [exact Hh|lia|lia]|].
      intros [r b'] w' (Hr&Hpr&Hin&->&Hk&Hro). cbn beta iota. apply wp_bind, wp_on_file. cbn beta iota.
      destruct (Z.leb_spec r 0) as [Hz|Hgt].
      * assert (r = 0) as -> by lia. simpl Z.eqb. cbn iota. apply wp_bind, wp_on_file. cbn beta iota. wstep.
        assert (Ea : available v (want - done) = 0) by (unfold available; lia).
        unfold after_read. rewrite Ea, !seg_0, !overwrite_nil, !Z.add_0_r.
        replace (0 <? want - done) with true by lia. rewrite orb_true_r. split_and!; [lia|done| | |done|done].
        -- replace (at_pos (v_pos v) v) with v by (by destruct v). cbn [file around].
           rewrite (set_bytes_id _ _ Eb).
           apply (sees_eof (mk_stream (file s) w')). rewrite <- (at_pos_0 v). apply moved; done.
        -- unfold err_bit. flag. done.
      * apply wp_bind, wp_on_file. cbn beta iota.
        pose proof (refilled s v b w' r H Em Eb ltac:(lia) ltac:(lia) Hk) as Hs.
        eapply wp_mono; [eapply IH; [exact Hs|done|lia|done|done|]|].
        { cbn [file bufpos buflen set_span]. destruct (Z.ltb_spec 0 r); lia. }
        intros [d out'] s' (Hd'&Ho'&Hs'&He'&Hm'&Hfl'). split_and!; try done. auto.
    + (* unbuffered *)
      apply wp_bind, wp_outside. eapply wp_mono; [eapply fd_read_runs; [exact Hh|rewrite length_drop; lia|lia]|].
      intros [r b'] w' (Hr&Hpr&Hin&->&Hk&Hro). cbn beta iota.
      rewrite overwrite_drop by lia.
      assert (Hs : sees (mk_stream (file s) w') (at_pos (v_pos v + r) v)) by (apply moved; [done|done|done|lia|done]).
      destruct (Z.leb_spec r 0) as [Hz|Hgt].
      * assert (r = 0) as -> by lia. simpl Z.eqb. cbn iota. apply wp_bind, wp_on_file. cbn beta iota. wstep.
        assert (Ea : available v (want - done) = 0) by (unfold available; lia).
        unfold after_read. rewrite Ea. replace (0 <? want - done) with true by lia. rewrite orb_true_r.
        split_and!; [lia|done|by apply (sees_eof (mk_stream (file s) w'))|unfold err_bit; by flag|done|done].
      * assert (L : size_of (seg (v_data v) (v_pos v) r) = r) by (apply length_seg_in; lia).
        eapply wp_mono; [eapply IH; [exact Hs|done|lia|rewrite length_overwrite by lia; lia|lia|]|].
        { cbn [file]. destruct (bufpos (file s) <? buflen (file s)); lia. }
        intros [d out'] s' (->&->&Hs'&He&Hm&Hfl). cbn [v_data v_pos at_pos] in *.
        destruct (available_add v r (want - done)) as [Ea Er]; [lia|lia|].
        replace (want - (done + r)) with (want - done - r) in * by lia. rewrite Er in Hs'.
        split_and!; [lia|apply overwrite_read; lia|done|done|done|auto].
Qed.

(** The loop, once the stream is in reading mode. *)
Lemma fread_body s v size want out :
  settled s v \/ sees s v /\ bufmode (file s) = _B_READ \/ sees s v /\ bufmode (file s) = _B_IDLE ->
  0 < want -> want <= size_of out -> want < 2 ^ 62 ->
  wp (_ ← on_file (set_bufmode _B_READ); '(done, out) ← fread_loop S (Z.to_nat (2 * want + 2)) want 0 out; mret (done / size, out))
    (fun '(r, out') s' => r = available v want / size /\ out' = overwrite out 0 (seg (v_data v) (v_pos v) (available v want)) /\
       sees s' (after_read v want) /\ err_bit s' = err_bit s /\ bufmode (file s') = _B_READ /\
    (full (kernel (around s)) -> full (kernel (around s')))) s.
Proof.
  intros Hs Hw Ho Hl.
  assert (Hm : sees (mk_stream (set_bufmode _B_READ (file s)) (around s)) v).
  { destruct Hs as [Hs | [[Hs Em] | [Hs Em]]].
    - apply settled_mode; [done|done|auto].
    - replace (set_bufmode _B_READ (file s)) with (file s); [by destruct s|]. rewrite <- Em. by destruct (file s).
    - apply settled_mode; [|done|auto]. pose proof Hs as [_ _ _ _ _ (c1&P1&_&Hb1)]. inversion Hb1; subst; [done|modes|modes]. }
  apply wp_bind, wp_on_file. cbn beta iota. apply wp_bind.
  eapply wp_mono; [eapply fread_loop_runs; [exact Hm|done|lia|lia|lia|case_if; lia]|].
  intros [d out'] s' (->&->&Hs'&He&Hr&Hfl). rewrite Z.sub_0_r in *. cbn beta iota. wstep. done.
Qed.

Lemma fread_runs out size nmemb s v :
  sees s v -> v_read v = true -> err_bit s = false -> 0 < size -> 0 <= nmemb ->
  size * nmemb <= size_of out -> size * nmemb < 2 ^ 62 ->
  let want := size * nmemb in
  wp (fread S out size nmemb) (fun '(r, out') s' =>
    (r = available v want / size /\ out' = overwrite out 0 (seg (v_data v) (v_pos v) (available v want)) /\
     sees s' (after_read v want) /\ err_bit s' = false /\ (0 < want -> bufmode (file s') = _B_READ)) \/
    (length out' = length out /\ bufmode (file s) = _B_WRITE /\ failed s' v)) s.
Proof.
  intros H Hread Herr Hs Hn Hout Hlim want. pose proof H as [(Hfd&_) _ _ Hr _ (c0&P&_&Hb)].
  unfold fread, fp. wstep. wstep. rewrite Hr, Hread. unfold err_bit in Herr. rewrite Herr. cbn [negb orb].
  rewrite u64_id by nia. fold want. destruct (Z.eqb_spec want 0) as [E0|E0].
  { wstep. left. assert (Ea : available v want = 0) by (unfold available; lia).
    unfold after_read. rewrite Ea, seg_0, overwrite_nil, E0, orb_false_r, at_pos_0. split_and!; [done|done|by destruct v|done|lia]. }
  destruct (Z.ltb_spec (fd (file s)) 0); [lia|].
  destruct (Z.eqb_spec (bufmode (file s)) _B_WRITE) as [Em|Em].
  - do 2 apply wp_bind. eapply wp_mono; [by apply flush_write_runs|].
    intros r s1 [(->&_&(_&Efl&_)&Hset&_) | (->&Hfull&_&_&He1&v'&Hset&_&Hcut)]; cbn beta iota; wstep.
    + eapply wp_mono; [eapply fread_body; [left; by apply Hset|lia|lia|lia]|].
      intros [r out'] s' (->&->&Hs'&He&Hrd&_). left. split_and!; try done. rewrite He. unfold err_bit, has in *. by rewrite Efl.
    + eapply wp_mono; [eapply fread_body; [left; exact Hset|lia|lia|lia]|].
      intros [r out'] s' (_&->&Hs'&He&_&Hfl). right.
      pose proof (settled_holds _ _ Hset) as Hh. pose proof (holds_range _ _ _ _ Hh) as (_&Hp'&_).
      split_and!; [|done|split_and!; [unfold err_bit in He; congruence|auto|by eexists]].
      apply Nat2Z.inj. rewrite length_overwrite by lia. rewrite length_seg by (unfold available; lia). unfold available. lia.
  - wstep. wstep. eapply wp_mono; [eapply (fread_body s v); [|lia|lia|lia]|].
    { destruct (buffers_mode _ _ _ _ _ Hb) as [?|[?|?]]; [right; right|right; left|done]; done. }
    intros [r out'] s' (->&->&Hs'&He&Hrd&_). left. split_and!; try done. rewrite He. done.
Qed.

(** *** Writing *)

(** Data put into the buffer. *)
Lemma appended s v b chunk :
  sees s v -> bufmode (file s) = _B_WRITE -> buf (file s) = Some b -> bufpos (file s) + size_of chunk <= bufcap (file s) ->
  v_pos v + size_of chunk <= limit ->
  let f := set_span (bufpos (file s) + size_of chunk) (buflen (file s)) (set_bytes (overwrite b (bufpos (file s)) chunk) (file s)) in
  sees (mk_stream f (around s)) (with_data (overwrite (v_data v) (v_pos v) chunk) (v_pos v + size_of chunk) v).
Proof.
  intros [(Hfd&Hcap&Hbuf) Hp He Hr Hw (c0&P&Hh&Hb)] Em Eb Hfit Hl f.
  pose proof (holds_range _ _ _ _ Hh) as (_&HP&_).
  inversion Hb as [ | |c0' P' Hm Hlen Hpos HP0 E1 E2]; subst; [modes|modes|]. rewrite Eb in Hbuf.
  assert (Lp : size_of (pending (file s)) = bufpos (file s)) by (unfold pending; rewrite Eb; apply length_seg_in; simpl; lia).
  assert (Hpend : pending f = pending (file s) ++ chunk).
  { unfold pending, f. simpl. rewrite Eb, seg_split by lia. simpl. f_equal; [apply seg_overwrite_before; lia|].
    apply (seg_overwrite_eq b). lia. }
  split; try done; simpl.
  - unfold file_ok. simpl. rewrite length_overwrite by lia. lia.
  - lia.
  - exists c0, P. split; [done|]. apply bf_write_at; simpl; [done|done|lia|done| |lia].
    rewrite Hpend, <- overwrite_app by lia. by rewrite Lp.
Qed.

(** The stream after writing [d]. *)
Definition after_write v (d : list Z) : view := with_data (overwrite (v_data v) (v_pos v) d) (v_pos v + size_of d) v.

Lemma after_write_app v d e : 0 <= v_pos v <= size_of (v_data v) -> after_write (after_write v d) e = after_write v (d ++ e).
Proof. intros. unfold after_write, with_data. simpl. rewrite overwrite_app by lia. f_equal. rewrite length_app. lia. Qed.

Lemma fwrite_loop_runs fuel want done data s v :
  sees s v -> bufmode (file s) = _B_WRITE -> buf (file s) <> None -> v_pos v <= size_of (v_data v) ->
  0 <= done <= want -> want <= size_of data -> v_pos v + (want - done) <= limit -> (Z.to_nat (want - done) < fuel)%nat ->
  let v' := after_write v (seg data done (want - done)) in
  wp (fwrite_loop S fuel want done data) (fun d s' =>
    (d = want /\ sees s' v' /\ err_bit s' = err_bit s) \/ failed s' v') s.
Proof.
  revert done s v. induction fuel as [|fuel IH]; intros done s v H Em Eb Hp Hd Hw Hl Hfuel v'; [lia|]. cbn [fwrite_loop].
  pose proof H as [(_&Hcap&_) Hpos _ _ _ (c0&P&_&Hb)].
  assert (Lall : size_of (seg data done (want - done)) = want - done) by (apply length_seg_in; lia).
  destruct (Z.ltb_spec done want) as [Hlt|Hge]; cycle 1.
  { wstep. left. unfold v'. replace (want - done) with 0 by lia. rewrite seg_0. unfold after_write.
    rewrite overwrite_nil, Z.add_0_r, with_data_id. split_and!; [lia|done|done]. }
  unfold fp. wstep. wstep.
  assert (Hbp : 0 <= bufpos (file s) <= bufcap (file s)) by (inversion Hb; subst; [modes|modes|done]).
  rewrite u64_id by lia.
  assert (Hstep : forall s1 space, sees s1 v -> same_stream (file s) (file s1) -> space = bufcap (file s1) - bufpos (file s1) -> 0 < space ->
    err_bit s1 = err_bit s ->
    wp (f ← reads file; let n := if want - done <? space then want - done else space in
        chunk ← must (slice data done n); b ← must (b ← buf f; splice b (bufpos f) chunk);
        _ ← on_file (set_bytes b); _ ← on_file (set_span (bufpos f + n) (buflen f)); fwrite_loop S fuel want (done + n) data)
      (fun d s' => (d = want /\ sees s' v' /\ err_bit s' = err_bit s) \/ failed s' v') s1).
  { intros s1 space H1 (Efd&Efl&Em1&Ebuf&Ecap) -> Hsp He1. wstep. wstep.
    set (n := if want - done <? bufcap (file s1) - bufpos (file s1) then _ else _).
    assert (Hn : 0 < n <= want - done /\ n <= bufcap (file s1) - bufpos (file s1)) by (unfold n; case_if; lia).
    destruct (buf (file s1)) as [b|] eqn:Eb1; [|congruence].
    pose proof H1 as [(_&_&Hb1) _ _ _ _ (c1&P1&_&Hbb)]. rewrite Eb1 in Hb1.
    assert (0 <= bufpos (file s1)) by (inversion Hbb; subst; lia).
    assert (L : size_of (seg data done n) = n) by (apply length_seg_in; lia).
    apply wp_bind. eapply wp_must; [apply slice_seg; lia|].
    apply wp_bind. eapply wp_must; [simpl; apply splice_overwrite; lia|].
    apply wp_bind, wp_on_file. cbn beta iota. apply wp_bind, wp_on_file. cbn beta iota.
    pose proof (appended s1 v b (seg data done n) H1 ltac:(congruence) Eb1 ltac:(lia) ltac:(lia)) as Hs2. rewrite L in Hs2.
    assert (Hv : after_write (with_data (overwrite (v_data v) (v_pos v) (seg data done n)) (v_pos v + n) v)
                   (seg data (done + n) (want - (done + n))) = v').
    { rewrite <- L at 2. fold (after_write v (seg data done n)). rewrite after_write_app by lia.
      unfold v'. f_equal. rewrite <- seg_split by lia. f_equal. lia. }
    eapply wp_mono; [eapply IH; [exact Hs2|simpl; congruence|done| |lia|done| |lia]|].
    - simpl. rewrite length_overwrite by lia. lia.
    - simpl. lia.
    - cbv zeta. rewrite Hv. intros d s' [(->&Hs'&He)|?]; [left|by right]. split_and!; [done|done|]. rewrite He. exact He1. }
  destruct (Z.eqb_spec (bufcap (file s) - bufpos (file s)) 0) as [E0|E0].
  - apply wp_bind. eapply wp_mono; [by apply flush_write_runs|].
    intros r s1 [(->&Hs1&Hsame&Hset&_) | (->&Hfull&_&_&He1&v1&Hset&_&Hcut)]; cbn beta iota; cbn [Z.eqb negb].
    + destruct (Hset Em) as (_&Hb0&_). destruct Hsame as (Efd&Efl&Em1&Ebuf&Ecap).
      assert (Hc : 0 < bufcap (file s)). { destruct H as [(_&_&Hx) _ _ _ _ _]. destruct (buf (file s)); [lia|done]. }
      apply Hstep; [done|done|lia|lia|]. unfold err_bit, has. by rewrite Efl.
    + unfold EOF. cbn [Z.eqb negb]. wstep. right. split_and!; [done|done|]. exists v1. split; [by destruct Hset|].
      unfold v', after_write. simpl. by apply cut_short_more.
  - wstep. wstep. cbn [Z.eqb negb]. apply Hstep; [done|done|done|lia|done].
Qed.

(** A stream with data that fit, in writing mode. *)
Lemma to_writing s v :
  sees s v -> v_pos v <= size_of (v_data v) ->
  wp (_ ← (if bufmode (file s) =? _B_READ then discard_read S else mret ()); on_file (set_bufmode _B_WRITE))
    (fun _ s' => sees s' v /\ bufmode (file s') = _B_WRITE /\ fd (file s') = fd (file s) /\
       flags (file s') = flags (file s) /\ buf (file s') = buf (file s)) s.
Proof.
  intros H Hp. pose proof H as [_ _ _ _ _ (c0&P&_&Hb)].
  destruct (Z.eqb_spec (bufmode (file s)) _B_READ) as [Em|Em].
  - apply wp_bind. eapply wp_mono; [apply discard_runs; [exact H|intros; modes]|].
    intros [] s1 (Hs1&(Efd&Efl&_&Eb&_)&_). apply wp_on_file. split_and!; try done. apply settled_mode; auto.
  - wstep. wstep. apply wp_on_file. split_and!; try done.
    inversion Hb as [c p Hm H1 H2| |c1 P1 Hm H1 H2 H3]; subst; [|modes|].
    + apply settled_mode; auto. split; done.
    + replace (set_bufmode _B_WRITE (file s)) with (file s); [by destruct s|]. rewrite <- Hm. by destruct (file s).
Qed.

(** A specification of the first two actions of three. *)
Lemma wp_first_two {T A B C} (m : ST T A) (k : A -> ST T B) (h : B -> ST T C) Q t :
  wp (m ≫= k) (fun y => wp (h y) Q) t -> wp (m ≫= fun x => k x ≫= h) Q t.
Proof.
  intros (y&t'&E&z&t2&E2&HQ). exists z, t2. split; [|done]. unfold mbind, ST_bind in *.
  destruct (m t) as [[x t1]|]; [|done]. by rewrite E.
Qed.

Lemma fwrite_unbuffered s v data nmemb :
  sees s v -> bufmode (file s) = _B_WRITE -> buf (file s) = None -> v_pos v <= size_of (v_data v) -> v_pos v + size_of data <= limit ->
  wp (rc ← outside (write_all_fd S (fd (file s)) data);
      if negb (rc =? 0) then _ ← on_file (raise _F_ERR); mret 0 else mret nmemb)
    (fun r s' => (r = nmemb /\ sees s' (after_write v data) /\ err_bit s' = err_bit s) \/
       failed s' (after_write v data)) s.
Proof.
  intros H Em Eb Hp Hl. pose proof H as [(_&_&Hc) Hpos _ _ _ (c0&P&_&Hb)]. rewrite Eb in Hc.
  assert (Hset : settled s v) by (split; [done|]; inversion Hb; subst; [modes|modes|lia]).
  pose proof (settled_holds _ _ Hset) as Hh. destruct Hset as (_&H1&H2).
  apply wp_bind, wp_outside. eapply wp_mono; [eapply write_all_runs; rewrite ?seg_0, ?overwrite_nil, ?Z.add_0_r; [exact Hh|lia|lia|lia|lia]|].
  intros rc w' (j&Hj&Hk&Hcase). cbn beta iota.
  assert (Hs : sees (mk_stream (file s) w') (with_data (overwrite (v_data v) (v_pos v) (seg data 0 j)) (v_pos v + j) v)).
  { assert (L : size_of (seg data 0 j) = j) by (apply length_seg_in; lia).
    eapply sees_settled; [exact H|done|done|done|exact Hk| |auto]. intros _. rewrite length_overwrite by lia. lia. }
  destruct Hcase as [(->&->) | (->&Hfull)]; cbn [Z.eqb negb].
  - wstep. left. rewrite seg_whole in Hs. done.
  - apply wp_bind, wp_on_file. cbn beta iota. wstep. right. split_and!; [by flag|done|].
    eexists. split; [apply (sees_err (mk_stream (file s) w')); exact Hs|].
    exists (v_data v), (v_pos v), data, j. split_and!; try lia; done.
Qed.

Lemma fwrite_runs data size nmemb s v :
  sees s v -> v_write v = true -> v_pos v <= size_of (v_data v) -> 0 < size -> 0 <= nmemb ->
  size * nmemb <= size_of data -> size * nmemb < 2 ^ 62 -> v_pos v + size * nmemb <= limit ->
  let v' := after_write v (seg data 0 (size * nmemb)) in
  wp (fwrite S data size nmemb) (fun r s' =>
    (r = nmemb /\ sees s' v' /\ err_bit s' = err_bit s) \/ failed s' v') s.
Proof.
  intros H Hwr Hp Hs Hn Hd Hlim Hl v'. pose proof H as [(Hfd&_) Hpos _ _ Hw _].
  assert (L : size_of (seg data 0 (size * nmemb)) = size * nmemb) by (apply length_seg_in; nia).
  unfold fwrite, fp. wstep. wstep. rewrite Hw, Hwr. destruct (Z.ltb_spec (fd (file s)) 0); [lia|]. cbn [negb orb].
  rewrite u64_id by nia. destruct (Z.eqb_spec (size * nmemb) 0) as [E0|E0].
  { wstep. left. unfold v', after_write. rewrite E0, seg_0, overwrite_nil, Z.add_0_r, with_data_id. split_and!; [nia|done|done]. }
  set (k := match buf (file s) with None => _ | Some _ => _ end).
  assert (Hgo : forall s1, sees s1 v -> bufmode (file s1) = _B_WRITE -> fd (file s1) = fd (file s) -> flags (file s1) = flags (file s) ->
    buf (file s1) = buf (file s) ->
    wp k (fun r s' => (r = nmemb /\ sees s' v' /\ err_bit s' = err_bit s) \/ failed s' v') s1).
  { intros s1 H1 Em1 Efd Efl Eb1. assert (He1 : err_bit s1 = err_bit s) by (unfold err_bit, has; by rewrite Efl).
    unfold k. rewrite <- Efd. destruct (buf (file s)) as [b|] eqn:Eb.
    - apply wp_bind. eapply wp_mono; [eapply fwrite_loop_runs; [exact H1|done|congruence|done|lia|done|lia|lia]|].
      cbv zeta. rewrite Z.sub_0_r. fold v'. intros d s' [(->&Hs'&He)|Hf]; cbn beta iota; wstep; [left|by right].
      split_and!; [|done|congruence]. rewrite Z.mul_comm. apply Z.div_mul. lia.
    - apply wp_bind. eapply wp_must; [apply slice_seg; nia|].
      eapply wp_mono; [eapply fwrite_unbuffered; [exact H1|done|congruence|done|lia]|].
      intros r s' [(->&Hs'&He) | Hf]; [left; by rewrite He1 in He|by right]. }
  apply wp_first_two. eapply wp_mono; [by apply to_writing|].
  intros [] s1 (Hs1&Em1&Efd&Efl&Eb1). by apply Hgo.
Qed.

(** *** Position *)

Lemma seek_settled s v offset whence target :
  settled s v -> 0 <= target <= limit -> target = Z.max 0 (seek_from whence (v_pos v) (size_of (v_data v)) + offset) -> seek_args offset whence ->
  wp (_ ← on_file (set_bufmode _B_IDLE); r ← outside (lseek S (fd (file s)) offset whence);
      if r <? 0 then _ ← on_file (raise _F_ERR); mret (-1) else _ ← on_file (lower _F_EOF); mret 0)
    (fun r s' => r = 0 /\ sees s' (with_eof false (at_pos target v)) /\ err_bit s' = err_bit s /\
       (full (kernel (around s)) -> full (kernel (around s')))) s.
Proof.
  intros Hs Ht Hw Hwh. pose proof (settled_mode s v _B_IDLE Hs ltac:(done) ltac:(auto)) as Hm.
  pose proof (settled_holds _ _ Hs) as Hh.
  apply wp_bind, wp_on_file. cbn beta iota. apply wp_bind, wp_outside.
  eapply wp_mono; [eapply lseek_runs; [exact Hh|exact Ht|exact Hw|exact Hwh]|].
  intros r w' (->&Hk&Hfl). cbn beta iota. destruct (Z.ltb_spec target 0); [lia|].
  apply wp_bind, wp_on_file. cbn beta iota. wstep. split_and!; [done| |unfold err_bit; by flag|done].
  apply (sees_not_eof (mk_stream (set_bufmode _B_IDLE (file s)) w')).
  destruct Hm as [Hm _]. change (at_pos target v) with (with_data (v_data v) target v).
  eapply sees_settled; [exact Hm|done|by destruct Hs as (_&?&_)|by destruct Hs as (_&_&?)|exact Hk|intros; simpl in *; modes|by left].
Qed.

(** Where a seek leads. *)
Definition seek_target v (offset whence : Z) : Z := Z.max 0 (seek_from whence (v_pos v) (size_of (v_data v)) + offset).

(** Lost data do not move positions forward. *)
Lemma cut_short_target v v' offset whence :
  cut_short (v_data v) (v_pos v) (v_data v') -> v_pos v' <= v_pos v -> seek_target v' offset whence <= seek_target v offset whence.
Proof.
  intros (c0&P&d&j&E&Ep&E'&HP&Hj) Hp. unfold seek_target, seek_from.
  assert (size_of (v_data v') <= size_of (v_data v)).
  { rewrite E, E', !length_overwrite by lia. pose proof (length_seg d 0 j). lia. }
  repeat case_if; lia.
Qed.

Lemma fseek_runs offset whence s v :
  sees s v -> seek_target v offset whence <= limit -> seek_args offset whence ->
  wp (fseek S offset whence) (fun r s' =>
    (r = 0 /\ sees s' (with_eof false (at_pos (seek_target v offset whence) v)) /\ err_bit s' = err_bit s) \/ failed s' v) s.
Proof.
  intros H Ht Hw. pose proof H as [(Hfd&_) _ _ _ _ _]. unfold fseek, fp. wstep. wstep.
  destruct (Z.leb_spec 0 (fd (file s))); [|lia].
  apply wp_bind. eapply wp_mono; [by apply flush_write_runs|].
  intros r s1 [(->&Hs1&(Efd&Efl&Em1&_)&Hset&_) | (->&Hfull&Em&Efd&He1&v1&Hset&Hle&Hcut)]; cbn beta iota; rewrite <- Efd.
  - apply wp_bind. eapply wp_mono; [apply discard_runs; [exact Hs1|intros E; apply Hset; congruence]|].
    intros [] s2 (Hs2&(Efd2&Efl2&_)&_). rewrite <- Efd2.
    eapply wp_mono; [eapply (seek_settled _ v); [exact Hs2| |done|done]; unfold seek_target in *; lia|].
    intros r s' (->&Hs'&He&_). left. split_and!; try done. rewrite He. unfold err_bit, has. by rewrite Efl2, Efl.
  - apply wp_bind. eapply wp_mono; [apply discard_runs; [by destruct Hset|done]|].
    intros [] s2 (Hs2&(Efd2&Efl2&_)&Hfl). rewrite <- Efd2.
    pose proof (cut_short_target v v1 offset whence Hcut Hle).
    eapply wp_mono; [eapply (seek_settled _ v1); [exact Hs2| |done|done]; unfold seek_target in *; lia|].
    intros r s' (->&Hs'&He&Hfl'). right. split_and!; [unfold err_bit, has in *; rewrite He, Efl2; done|auto|by eexists].
Qed.

Lemma ftell_runs s v :
  sees s v -> wp (ftell S) (fun r s' => r = v_pos v /\ sees s' v /\ err_bit s' = err_bit s) s.
Proof.
  intros H. pose proof H as [(Hfd&Hcap&_) Hp _ _ _ (c0&P&Hh&Hb)]. pose proof limit_range as Hlr.
  pose proof (holds_range _ _ _ _ Hh) as (_&HP&_).
  unfold ftell, fp. wstep. wstep. destruct (Z.ltb_spec (fd (file s)) 0); [lia|].
  apply wp_bind, wp_outside. eapply wp_mono; [eapply (lseek_runs _ _ _ 0 SEEK_CUR P); [exact Hh|lia|unfold seek_from; simpl; lia|done]|].
  intros r w' (->&Hk&Hr). cbn beta iota. destruct (Z.ltb_spec P 0); [lia|].
  assert (Hs : sees (mk_stream (file s) w') v) by (eapply sees_with_kernel; done).
  assert (Hi : i64 (v_pos v) = Some (v_pos v)) by (unfold i64; case_if; [done|lia]).
  inversion Hb as [c p Hm|c p Hm|c1 P1 Hm Hl Hx Hy Ec Ep]; subst; rewrite Hm; simpl Z.eqb; cbn iota.
  - wstep. done.
  - eapply wp_must; [|done]. replace (_ - _) with (v_pos v) by lia. done.
  - rewrite <- Ep in Hi. eapply wp_must; [exact Hi|]. done.
Qed.

(** Rewinding clears the error of a lost write. *)
Lemma rewind_runs s v :
  sees s v ->
  wp (rewind S) (fun _ s' => err_bit s' = false /\ (sees s' (with_eof false (at_pos 0 v)) \/
    full (kernel (around s')) /\ exists v', sees s' v' /\ cut_short (v_data v) (v_pos v) (v_data v'))) s.
Proof.
  intros H. pose proof limit_range as Hlr. unfold rewind. apply wp_bind.
  eapply wp_mono; [eapply (fseek_runs 0 SEEK_SET); [exact H|unfold seek_target, seek_from; simpl; lia|done]|].
  intros r s' [(->&Hs'&He') | (_&Hf&v'&Hs'&Hc)]; cbn beta iota; apply wp_on_file; (split; [unfold err_bit; by flag|]).
  - left. by apply sees_not_err.
  - right. split; [done|]. exists v'. split; [by apply sees_not_err|done].
Qed.

(** *** Characters and lines *)

Lemma available_1 v : 0 <= v_pos v -> available v 1 = if v_pos v <? size_of (v_data v) then 1 else 0.
Proof. intros. unfold available. case_if; lia. Qed.

(** The byte at the position, or the end of the file. *)
Definition next_char v : Z := default EOF (aget (v_data v) (v_pos v)).

Lemma fgetc_runs s v :
  sees s v -> v_read v = true -> err_bit s = false ->
  wp (fgetc S) (fun r s' => (r = next_char v /\ sees s' (after_read v 1) /\ err_bit s' = false /\ bufmode (file s') = _B_READ) \/
    (bufmode (file s) = _B_WRITE /\ failed s' v)) s.
Proof.
  intros H Hr He. pose proof H as [_ Hp _ _ _ _]. unfold fgetc. apply wp_bind.
  eapply wp_mono; [eapply (fread_runs [0] 1 1); [exact H|done|done|simpl; lia..]|]. cbv zeta.
  intros [r out] s' [(->&->&Hs'&He'&Hm) | (Hlen&Hf)]; cbn beta iota.
  - rewrite Z.mul_1_l, Z.div_1_r in *. rewrite available_1 in * by lia.
    destruct (Z.ltb_spec (v_pos v) (size_of (v_data v))) as [Hlt|Hge]; cbn [Z.eqb Pos.eqb negb].
    + destruct (aget_lt (v_data v) (v_pos v)) as [x Hx]; [lia|].
      eapply wp_must; [|left; split_and!; [unfold next_char; by rewrite Hx|done|done|apply Hm; lia]].
      rewrite overwrite_whole by (pose proof (length_seg_in (v_data v) (v_pos v) 1); simpl; lia).
      unfold seg. unfold aget in Hx |- *. simpl Z.leb. cbn iota. rewrite lookup_take_lt, lookup_drop, Nat.add_0_r by lia.
      by destruct (0 <=? v_pos v).
    + wstep. left. split_and!; [|done|done|apply Hm; lia]. unfold next_char, aget. case_if; [|done]. by rewrite lookup_ge_None_2 by lia.
  - case_if; [wstep; by right|]. destruct out as [|x [|]]; [done| |done]. eapply wp_must; [done|]. by right.
Qed.

(** A stream with an error reads nothing. *)
Lemma fgetc_error s : err_bit s = true -> fgetc S s = Some (EOF, s).
Proof.
  intros He. unfold err_bit in He. unfold fgetc, fread, fp, reads, mbind, ST_bind. rewrite He, orb_true_r. done.
Qed.

(** The line at the position, of at most [n] bytes, with its line break. *)
Fixpoint line_of (l : list Z) (n : nat) : list Z :=
  match n, l with
  | Datatypes.S n', c :: l' => if c =? 10 then [c] else c :: line_of l' n'
  | _, _ => []
  end.

Definition line_at v (n : Z) : list Z := line_of (drop (Z.to_nat (v_pos v)) (v_data v)) (Z.to_nat n).

(** The end of the file was met: the line is short and has no line break. *)
Definition line_ends_file (l : list Z) (n : Z) : bool := (size_of l <? n) && negb (bool_decide (last l = Some 10)).

Definition after_line v (n : Z) : view :=
  let l := line_at v n in with_eof (v_eof v || line_ends_file l n) (at_pos (v_pos v + size_of l) v).

Lemma line_at_0 v : line_at v 0 = [].
Proof. unfold line_at. simpl. by destruct (drop _ _). Qed.

Lemma line_at_end v n : size_of (v_data v) <= v_pos v -> line_at v n = [].
Proof. intros. unfold line_at. rewrite drop_ge by lia. by destruct (Z.to_nat n). Qed.

Lemma line_at_step v n c :
  0 <= v_pos v -> 0 < n -> aget (v_data v) (v_pos v) = Some c ->
  line_at v n = if c =? 10 then [c] else c :: line_at (at_pos (v_pos v + 1) v) (n - 1).
Proof.
  intros Hp Hn Hc. unfold line_at. unfold aget in Hc. destruct (Z.leb_spec 0 (v_pos v)); [|done]. simpl.
  rewrite (drop_S _ _ _ Hc). replace (Z.to_nat n) with (Datatypes.S (Z.to_nat (n - 1))) by lia. simpl.
  replace (Z.to_nat (v_pos v + 1)) with (Datatypes.S (Z.to_nat (v_pos v))) by lia. done.
Qed.
Lemma after_read_1 v : 0 <= v_pos v < size_of (v_data v) -> after_read v 1 = at_pos (v_pos v + 1) v.
Proof.
  intros. unfold after_read. rewrite available_1 by lia. destruct (Z.ltb_spec (v_pos v) (size_of (v_data v))); [|lia].
  simpl. rewrite orb_false_r. by destruct v.
Qed.

Lemma after_line_step v n c :
  0 <= v_pos v -> 0 < n -> aget (v_data v) (v_pos v) = Some c ->
  after_line v n = if c =? 10 then at_pos (v_pos v + 1) v else after_line (at_pos (v_pos v + 1) v) (n - 1).
Proof.
  intros Hp Hn Hc. unfold after_line. rewrite (line_at_step v n c Hp Hn Hc). destruct (Z.eqb_spec c 10) as [->|Hne].
  - unfold line_ends_file. rewrite bool_decide_true by done. rewrite andb_false_r, orb_false_r. by destruct v.
  - set (l := line_at _ _). unfold at_pos, with_eof. simpl. f_equal; [lia|]. f_equal. unfold line_ends_file. f_equal; [simpl; lia|].
    f_equal. destruct l; [|done]. simpl. rewrite !bool_decide_false by congruence. done.
Qed.

(** After an error one more round ends the loop. *)
Lemma fgets_loop_error fuel n i line s :
  err_bit s = true -> 0 < i -> (0 < fuel)%nat -> fgets_loop S fuel n i line s = Some ((Some i, line), s).
Proof.
  intros He Hi Hf. destruct fuel as [|fuel]; [lia|]. cbn [fgets_loop]. case_if; [|done].
  unfold mbind, ST_bind. rewrite fgetc_error by done. simpl. destruct (Z.eqb_spec i 0); [lia|done].
Qed.

Lemma fgets_loop_runs fuel n i line s v :
  sees s v -> v_read v = true -> err_bit s = false -> Forall byte_ok (v_data v) ->
  0 <= i < n -> 1 < n -> n <= size_of line -> (Z.to_nat (n - 1 - i) < fuel)%nat ->
  let l := line_at v (n - 1 - i) in
  wp (fgets_loop S fuel n i line) (fun '(e, line') s' =>
    (e = (if (i =? 0) && bool_decide (l = []) then None else Some (i + size_of l)) /\ line' = overwrite line i l /\
     sees s' (after_line v (n - 1 - i)) /\ err_bit s' = false) \/
    (bufmode (file s) = _B_WRITE /\ failed s' v /\ length line' = length line /\
     forall j, e = Some j -> 0 <= j < n)) s.
Proof.
  revert i line s v. induction fuel as [|fuel IH]; intros i line s v H Hr He Hby Hi Hn Hl Hfuel l; [lia|]. cbn [fgets_loop].
  pose proof H as [_ Hp _ _ _ _].
  destruct (Z.ltb_spec i (n - 1)) as [Hlt|Hge]; cycle 1.
  { wstep. left. unfold l, after_line. replace (n - 1 - i) with 0 by lia. rewrite line_at_0, overwrite_nil.
    replace (i =? 0) with false by lia. unfold line_ends_file. simpl. rewrite orb_false_r, at_pos_0, Z.add_0_r. split_and!; [done|done|by destruct v|done]. }
  apply wp_bind. eapply wp_mono; [by apply fgetc_runs|].
  intros c s1 [(->&Hs1&He1&Hm1) | (Em&Hfail)]; cbn beta iota.
  - unfold next_char. destruct (aget (v_data v) (v_pos v)) as [c|] eqn:Hc; simpl default.
    + assert (Hcb : byte_ok c).
      { unfold aget in Hc. destruct (0 <=? v_pos v); [|done]. rewrite Forall_lookup in Hby. eauto. }
      pose proof (aget_Some_lt _ _ _ Hc) as Hin. rewrite after_read_1 in Hs1 by done. unfold byte_ok in Hcb.
      destruct (Z.eqb_spec c EOF) as [->|_]; [unfold EOF in Hcb; lia|].
      apply wp_bind. eapply (wp_must _ (overwrite line i [c])); [by apply aset_overwrite; lia|]. cbn beta iota.
      unfold l. rewrite (line_at_step v (n - 1 - i) c), (after_line_step v (n - 1 - i) c) by (done || lia).
      destruct (Z.eqb_spec c 10) as [->|Hne].
      * wstep. left. rewrite bool_decide_false, andb_false_r by done. done.
      * eapply wp_mono; [eapply IH; [exact Hs1|done|done|done|lia|done|rewrite length_overwrite by lia; simpl; lia|lia]|].
        cbv zeta. replace (n - 1 - (i + 1)) with (n - 1 - i - 1) by lia.
        intros [e line'] s' [(->&->&Hs'&He') | (Em&_)]; [|modes]. left.
        rewrite (bool_decide_false (_ :: _ = [])), andb_false_r by done. replace (i + 1 =? 0) with false by lia. simpl andb. cbn iota.
        split_and!; [|apply (overwrite_app line i [c]); lia|done|done]. f_equal. simpl. lia.
    + assert (Hge : size_of (v_data v) <= v_pos v).
      { destruct (Z.le_gt_cases (size_of (v_data v)) (v_pos v)); [done|]. destruct (aget_lt (v_data v) (v_pos v)) as [x Hx]; [lia|congruence]. }
      unfold EOF. simpl Z.eqb. cbn iota. wstep. left. unfold l, after_line. rewrite line_at_end, overwrite_nil by lia. simpl.
      rewrite andb_true_r, Z.add_0_r. unfold after_read in Hs1. rewrite available_1 in Hs1 by lia.
      replace (v_pos v <? size_of (v_data v)) with false in Hs1 by lia. rewrite !Z.add_0_r in *.
      unfold line_ends_file. simpl length. replace (Z.of_nat 0 <? n - 1 - i) with true by lia. split_and!; try done.
  - destruct (Z.eqb_spec c EOF) as [->|Hne].
    + wstep. right. split_and!; [done|done|done|]. intros j. case_if; [done|]. intros [= <-]. lia.
    + apply wp_bind. eapply (wp_must _ (overwrite line i [c])); [by apply aset_overwrite; lia|]. cbn beta iota.
      assert (L : length (overwrite line i [c]) = length line) by (apply Nat2Z.inj; rewrite length_overwrite by lia; simpl; lia).
      destruct (Z.eqb_spec c 10).
      * wstep. right. split_and!; [done|done|done|]. intros j [= <-]. lia.
      * eexists _, _. rewrite fgets_loop_error; [|by destruct Hfail|lia|lia]. split; [done|]. right.
        split_and!; [done|done|done|]. intros j [= <-]. lia.
Qed.
Lemma fgets_runs line n s v :
  sees s v -> v_read v = true -> err_bit s = false -> Forall byte_ok (v_data v) -> 1 < n <= size_of line ->
  let l := line_at v (n - 1) in
  wp (fgets S line n) (fun '(r, line') s' =>
    (r = negb (bool_decide (l = [])) /\ line' = (if bool_decide (l = []) then line else overwrite line 0 (l ++ [0])) /\
     sees s' (after_line v (n - 1)) /\ err_bit s' = false) \/ failed s' v) s.
Proof.
  intros H Hr He Hby Hn l. unfold fgets. destruct (Z.leb_spec n 1); [lia|]. apply wp_bind.
  eapply wp_mono; [eapply fgets_loop_runs; [exact H|done|done|done|lia|lia|lia|lia]|]. cbv zeta. rewrite Z.sub_0_r. fold l.
  assert (Ll : size_of l <= n - 1).
  { unfold l, line_at. generalize (drop (Z.to_nat (v_pos v)) (v_data v)). intros x.
    enough (length (line_of x (Z.to_nat (n - 1))) <= Z.to_nat (n - 1))%nat by lia. generalize (Z.to_nat (n - 1)) as m.
    intros m. revert x. induction m as [|m IHm]; intros [|c x]; simpl; [lia..|]. case_if; simpl; [lia|]. specialize (IHm x). lia. }
  intros [e line'] s' [(->&->&Hs'&He') | (_&Hf&Hlen&Hj)]; cbn beta iota.
  - change (0 =? 0) with true. cbn [andb]. destruct (decide (l = [])) as [El|El].
    + rewrite bool_decide_true by done. wstep. left. rewrite El, overwrite_nil. done.
    + rewrite !bool_decide_false by done. apply wp_bind.
      eapply wp_must; [apply aset_overwrite; rewrite length_overwrite by lia; lia|]. cbn beta iota. wstep. left. split_and!; try done.
      rewrite (overwrite_app line 0 l) by lia. done.
  - destruct e as [j|]; [|wstep; by right]. specialize (Hj j eq_refl). apply wp_bind.
    eapply wp_must; [apply aset_overwrite; lia|]. cbn beta iota. wstep. by right.
Qed.

(** The part of [setvbuf] after the old buffer is emptied. *)
Definition new_buffer given mode size memory : ST stream Z :=
  _ ← on_file (set_bufmode _B_IDLE);
  _ ← on_file (set_buf None 0 0);
  if mode =? _IONBF then mret 0
  else
    let size := if size <? 64 then BUFSIZ else size in
    match given with
    | Some b => _ ← on_file (set_buf (Some b) size 0); mret 0
    | None =>
        match memory with
        | Some b => _ ← on_file (set_buf (Some b) size 1); mret 0
        | None => _ ← on_file (set_buf None 0 0); mret (-1)
        end
    end.

Definition buffer_given (given : option (list Z)) (mode : Z) (memory : option (list Z)) : Z :=
  if (mode =? _IONBF) || bool_decide (is_Some given \/ is_Some memory) then 0 else -1.

Definition buffer_fits (given : option (list Z)) (size : Z) (memory : option (list Z)) : Prop :=
  size < 2 ^ 62 /\ forall b, given = Some b \/ memory = Some b -> size_of b = (if size <? 64 then BUFSIZ else size).

(** A settled stream with another buffer. *)
Lemma sees_new_buffer s v b cap own :
  settled s v -> 0 <= cap < 2 ^ 62 -> match b with None => cap = 0 | Some l => size_of l = cap /\ 0 < cap end ->
  let f := set_buf b cap own (set_buf None 0 0 (set_bufmode _B_IDLE (file s))) in
  sees (mk_stream f (around s)) v /\ err_bit (mk_stream f (around s)) = err_bit s.
Proof.
  intros Hs Hc Hb f. pose proof (settled_holds _ _ Hs) as Hh. destruct Hs as ([(Hfd&_) Hp He Hr Hw _]&H1&H2).
  split; [|done]. split; try done. exists (v_data v), (v_pos v). split; [done|]. by constructor.
Qed.

Lemma new_buffer_runs given mode size memory s v :
  settled s v -> buffer_fits given size memory ->
  wp (new_buffer given mode size memory) (fun r s' => r = buffer_given given mode memory /\
    sees s' v /\ err_bit s' = err_bit s /\ kernel (around s') = kernel (around s)) s.
Proof.
  intros Hs (Hsz&Hb). unfold new_buffer, buffer_given.
  apply wp_bind, wp_on_file. cbn beta iota. apply wp_bind, wp_on_file. cbn beta iota. cbn [file around].
  assert (Hcap : 0 < (if size <? 64 then BUFSIZ else size) < 2 ^ 62) by (unfold BUFSIZ; case_if; lia).
  destruct (Z.eqb_spec mode _IONBF) as [Hm|Hm]; cbn [orb].
  - wstep. destruct (sees_new_buffer s v None 0 0 Hs) as [? ?]; [lia|done|]. done.
  - destruct given as [b|]; [|destruct memory as [b|]]; cbv zeta; apply wp_bind, wp_on_file; cbn beta iota; wstep.
    + rewrite bool_decide_true by eauto. destruct (sees_new_buffer s v (Some b) (if size <? 64 then BUFSIZ else size) 0 Hs) as [? ?]; [lia|split; [auto|lia]|]. done.
    + rewrite bool_decide_true by eauto. destruct (sees_new_buffer s v (Some b) (if size <? 64 then BUFSIZ else size) 1 Hs) as [? ?]; [lia|split; [auto|lia]|]. done.
    + rewrite bool_decide_false by (intros [[? ?]|[? ?]]; done). destruct (sees_new_buffer s v None 0 0 Hs) as [? ?]; [lia|done|]. done.
Qed.

Lemma setvbuf_runs given mode size memory s v :
  sees s v -> buffer_fits given size memory ->
  wp (setvbuf S given mode size memory) (fun r s' =>
    (r = buffer_given given mode memory /\ sees s' v /\ err_bit s' = err_bit s) \/ failed s' v) s.
Proof.
  intros H Hb. pose proof H as [(Hfd&_) _ _ _ _ _]. unfold setvbuf, fp. wstep. wstep.
  destruct (Z.ltb_spec (fd (file s)) 0); [lia|].
  apply wp_bind. eapply wp_mono; [by apply flush_write_runs|].
  intros r s1 [(->&Hs1&(_&Efl&Em1&_)&Hset&_) | (_&Hfull&_&_&He1&v1&Hset&_&Hcut)]; cbn beta iota; apply wp_bind.
  - eapply wp_mono; [apply discard_runs; [exact Hs1|intros E; apply Hset; congruence]|].
    intros [] s2 (Hs2&(_&Efl2&_)&_). eapply wp_mono; [by apply new_buffer_runs|].
    intros r2 s' (->&Hs'&He&_). left. split_and!; try done. rewrite He. unfold err_bit, has. by rewrite Efl2, Efl.
  - eapply wp_mono; [apply discard_runs; [by destruct Hset|done]|].
    intros [] s2 (Hs2&(_&Efl2&_)&Hfl). eapply wp_mono; [by apply new_buffer_runs|].
    intros r2 s' (->&Hs'&He&Ek). right. split_and!; [unfold err_bit, has in *; rewrite He, Efl2; done|rewrite Ek; auto|by eexists].
Qed.

(** *** The specification *)

Inductive request :=
  | Read (out : list Z) (size nmemb : Z)
  | Write (data : list Z) (size nmemb : Z)
  | Seek (offset whence : Z)
  | Tell | Flush | Rewind | Getc
  | Putc (c : Z)
  | Puts (str : list Z)
  | Gets (line : list Z) (n : Z)
  | Setvbuf (given : option (list Z)) (mode size : Z) (memory : option (list Z)).

(** Result and new contents of the caller's array. *)
Definition perform (q : request) : ST stream (Z * list Z) :=
  let plain (m : ST stream Z) : ST stream (Z * list Z) := r ← m; mret (r, []) in
  match q with
  | Read out size nmemb => fread S out size nmemb
  | Write data size nmemb => plain (fwrite S data size nmemb)
  | Seek offset whence => plain (fseek S offset whence)
  | Tell => plain (ftell S)
  | Flush => plain (fflush S)
  | Rewind => _ ← rewind S; mret (0, [])
  | Getc => plain (fgetc S)
  | Putc c => plain (fputc S c)
  | Puts str => plain (fputs S str)
  | Gets line n => '(r, line) ← fgets S line n; mret (if r : bool then 1 else 0, line)
  | Setvbuf given mode size memory => plain (setvbuf S given mode size memory)
  end.

Definition may_write v (n : Z) : Prop :=
  v_write v = true /\ v_pos v <= size_of (v_data v) /\ n < 2 ^ 62 /\ v_pos v + n <= limit.

(** The requests the specification covers: within the array, the limits of a file
    and the rights of the stream. *)
Definition allowed v (q : request) : Prop :=
  match q with
  | Read out size nmemb => v_read v = true /\ 0 < size /\ 0 <= nmemb /\ size * nmemb <= size_of out /\ size * nmemb < 2 ^ 62
  | Write data size nmemb => 0 < size /\ 0 <= nmemb /\ size * nmemb <= size_of data /\ may_write v (size * nmemb)
  | Seek offset whence => seek_args offset whence /\ seek_target v offset whence <= limit
  | Tell | Flush | Rewind => True
  | Getc => v_read v = true
  | Putc _ => may_write v 1
  | Puts str => may_write v (size_of str)
  | Gets line n => v_read v = true /\ Forall byte_ok (v_data v) /\ 1 < n <= size_of line
  | Setvbuf given _ size memory => buffer_fits given size memory
  end.

(** The file with a position after the request, and the reply. *)
Definition expected v (q : request) : view :=
  match q with
  | Read _ size nmemb => after_read v (size * nmemb)
  | Write data size nmemb => after_write v (seg data 0 (size * nmemb))
  | Seek offset whence => with_eof false (at_pos (seek_target v offset whence) v)
  | Rewind => with_eof false (at_pos 0 v)
  | Getc => after_read v 1
  | Putc c => after_write v [u8 c]
  | Puts str => after_write v str
  | Gets _ n => after_line v (n - 1)
  | Tell | Flush | Setvbuf _ _ _ _ => v
  end.

Definition reply v (q : request) : Z * list Z :=
  match q with
  | Read out size nmemb =>
      let n := available v (size * nmemb) in (n / size, overwrite out 0 (seg (v_data v) (v_pos v) n))
  | Write _ _ nmemb => (nmemb, [])
  | Tell => (v_pos v, [])
  | Getc => (next_char v, [])
  | Putc c => (c, [])
  | Gets line n =>
      let l := line_at v (n - 1) in if bool_decide (l = []) then (0, line) else (1, overwrite line 0 (l ++ [0]))
  | Setvbuf given mode _ memory => (buffer_given given mode memory, [])
  | Seek _ _ | Flush | Rewind | Puts _ => (0, [])
  end.

(** The data a failed request was to store, and where they end. *)
Definition intended v (q : request) : view :=
  match q with Write _ _ _ | Putc _ | Puts _ => expected v q | _ => v end.

(** The request did what the specification says; or the disk is full, and the
    stream has lost the end of the data it was to store, which it flags unless the
    request was to clear the flag. *)
Definition performed v (q : request) (r : Z * list Z) s' : Prop :=
  (r = reply v q /\ sees s' (expected v q) /\ err_bit s' = false) \/
  (full (kernel (around s')) /\ (q <> Rewind -> err_bit s' = true) /\
   exists v', sees s' v' /\ cut_short (v_data (intended v q)) (v_pos (intended v q)) (v_data v')).

Lemma performed_failed v q r s' : failed s' (intended v q) -> performed v q r s'.
Proof. intros (He&Hf&Hl). right. done. Qed.

Lemma perform_write data n v s :
  sees s v -> err_bit s = false -> may_write v n -> size_of data = n -> 0 <= n ->
  wp (fwrite S data 1 n) (fun r s' => (r = n /\ sees s' (after_write v data) /\ err_bit s' = false) \/ failed s' (after_write v data)) s.
Proof.
  intros H He (Hw&Hp&Hn&Hl) Hd Hn0. pose proof (fwrite_runs data 1 n s v H Hw Hp) as HH. cbv zeta in HH.
  subst n. rewrite !Z.mul_1_l, !seg_whole in HH. rewrite He in HH. apply HH; lia.
Qed.

(** Flushing puts everything into the file, or the disk is full. *)
Lemma flush_stores s v :
  sees s v -> wp (flush_write S) (fun r s' => fd (file s') = fd (file s) /\ (r <> 0 -> full (kernel (around s'))) /\
    exists c P, holds (kernel (around s')) (fd (file s')) c P /\ (r = 0 -> c = v_data v)) s.
Proof.
  intros H. eapply wp_mono; [by apply flush_write_runs|].
  intros r s' [(->&Hs'&(Efd&_)&Hset&Hsame) | (->&Hf&_&Efd&_&v'&Hset&_)]; (split; [done|]); (split; [done|]).
  - destruct (decide (bufmode (file s) = _B_WRITE)) as [Em|Em]; [eexists _, _; split; [by apply settled_holds, Hset|done]|].
    rewrite (Hsame Em). destruct H as [_ _ _ _ _ (c0&P&Hh&Hb)]. inversion Hb; subst; [by eexists _, _..|done].
  - eexists _, _. split; [by apply settled_holds|done].
Qed.

Lemma perform_runs s v q :
  sees s v -> err_bit s = false -> allowed v q -> wp (perform q) (performed v q) s.
Proof.
  intros H He Ha. destruct q; simpl perform; simpl allowed in Ha.
  - destruct Ha as (Hr&Hs&Hn&Ho&Hl). eapply wp_mono; [by apply fread_runs|]. cbv zeta.
    intros [r out'] s' [(->&->&Hs'&He'&_) | (_&_&Hf)]; [by left|by apply performed_failed].
  - destruct Ha as (Hs&Hn&Hd&Hw&Hp&Hl&Hlim). apply wp_bind. eapply wp_mono; [by apply fwrite_runs|]. cbv zeta. rewrite He.
    intros r s' [(->&Hs'&He') | Hf]; wstep; [by left|by apply performed_failed].
  - destruct Ha as (Hw&Ht). apply wp_bind. eapply wp_mono; [by apply fseek_runs|].
    rewrite He. intros r s' [(->&Hs'&He') | Hf]; wstep; [by left|by apply performed_failed].
  - apply wp_bind. eapply wp_mono; [by apply ftell_runs|]. rewrite He. intros r s' (->&Hs'&He'). wstep. by left.
  - apply wp_bind. unfold fflush. eapply wp_mono; [by apply flush_write_runs|].
    intros r s' [(->&Hs'&(_&Efl&_)&_) | (->&Hfull&_&_&He'&v'&(Hs'&_)&_&Hc)]; wstep.
    + left. split_and!; [done|done|]. unfold err_bit, has in *. by rewrite Efl.
    + apply performed_failed. split_and!; [done|done|]. by exists v'.
  - apply wp_bind. eapply wp_mono; [by apply rewind_runs|].
    intros [] s' (He'&[Hs'|(Hf&Hl)]); wstep; [by left|right]. done.
  - apply wp_bind. eapply wp_mono; [by apply fgetc_runs|].
    intros r s' [(->&Hs'&He'&_) | (_&Hf)]; wstep; [by left|by apply performed_failed].
  - apply wp_bind. unfold fputc. apply wp_bind. eapply wp_mono; [apply (perform_write [u8 c] 1); [exact H|done|done|done|lia]|].
    intros r s' [(->&Hs'&He') | Hf]; wstep; wstep; [by left|by apply performed_failed].
  - apply wp_bind. unfold fputs. apply wp_bind. eapply wp_mono; [eapply (perform_write str (size_of str)); [exact H|done|done|done|lia]|].
    intros r s' [(->&Hs'&He') | Hf]; wstep; wstep; [left|by apply performed_failed]. rewrite Z.eqb_refl. done.
  - destruct Ha as (Hr&Hby&Hn). apply wp_bind. eapply wp_mono; [by apply fgets_runs|]. cbv zeta.
    intros [r line'] s' [(->&->&Hs'&He') | Hf]; cbn beta iota; wstep; [left|by apply performed_failed].
    split_and!; try done. simpl. by case_bool_decide.
  - apply wp_bind. eapply wp_mono; [by apply setvbuf_runs|]. rewrite He.
    intros r s' [(->&Hs'&He') | Hf]; wstep; [by left|by apply performed_failed].
Qed.

(** C5: A buffered stream is a file with a position.  Take any kernel whose descriptors
    are files, and a stream that shows the contents [v_data v] at position [v_pos v]
    with no error, whatever its buffer holds.  Each call of the library within the
    rights of the stream and the limits of a file is defined, returns what it would
    on the file itself (bytes read, lines, positions, end of file) and leaves the
    stream showing the file after that call; or the disk is full, the error flag
    is set (but by [rewind], which clears it) and only a prefix of the last data is
    stored.  A successful [fflush] leaves all of the contents in the file. *)
Theorem stream_refines_file s v q :
  sees s v -> err_bit s = false -> allowed v q ->
  wp (perform q) (fun r s' => performed v q r s' /\
    (q = Flush -> r.1 = 0 -> exists P, holds (kernel (around s')) (fd (file s')) (v_data v) P)) s.
Proof.
  intros H He Ha. apply wp_conj; [by apply perform_runs|]. assert (Hq : q = Flush \/ q <> Flush) by (destruct q; auto). destruct Hq as [->|Hne].
  - cbn [perform]. apply wp_bind. eapply wp_mono; [by apply flush_stores|]. intros r s' (_&_&c&P&Hh&Hc). wstep.
    intros _ E. cbn in E. exists P. by rewrite <- Hc.
  - eapply wp_mono; [by apply perform_runs|]. by intros.
Qed.

(** A new stream shows the file of its descriptor. *)
Lemma new_file_sees w d c p fl buffer :
  holds (kernel w) d c p -> match buffer with Some b => size_of b = BUFSIZ | None => True end ->
  let s := mk_stream (new_file d fl buffer) w in
  sees s (mk_view c p (has _F_EOF (file s)) (has _F_READ (file s)) (has _F_WRITE (file s))).
Proof.
  intros Hh Hb s. pose proof (holds_range _ _ _ _ Hh) as (?&?&_). split; try done.
  - unfold file_ok, s. simpl. destruct buffer; unfold BUFSIZ in *; split_and!; simpl; lia.
  - exists c, p. split; [done|]. by constructor.
Qed.

End Refinement.

End Stdio.
