(* ===== verification/StdioKernel.v ===== *)
(** * StdioKernel: streams on files of a mounted disk

    The file system calls of [ProcFiles] on regular files of a mounted disk keep
    the promises of [FileService], so the streams of [Stdio] work on them.  The
    theorems of this file follow a file from [fopen] to its blocks. *)

From Stdlib Require Import ZArith Lia Bool ZifyBool.
From stdpp Require Import base numbers option list list_numbers gmap.
From S2P Require Import Prelude StateM Segments Ramdisk Ext2 Ext2Alloc Ext2Layer Ext2Files Ext2Mount Ext2Props Ext2Dirs Ext2Tree Ext2Names Ext2Paths Vfs VfsProps VfsDisk ProcState ProcFiles Stdio.

Open Scope Z_scope.
Set Warnings "-clear-no-such-hyp".

Module StdioKernel.
Import Ramdisk Ext2 Ext2Alloc Ext2Layer Ext2Files Ext2Mount Ext2Props Ext2Dirs Ext2Tree Ext2Names Ext2Paths Vfs VfsProps VfsDisk ProcState ProcFiles.

Implicit Types (a : astate).

(** ** Contents of a file *)

(** The file [ino] has the contents [c], without holes. *)
Definition contents a ino (c : list Z) : Prop :=
  (exists i, inode_at a ino = Some i /\ i_size i = size_of c) /\ size_of c <= MAX_SIZE /\
  forall k x, aget c k = Some x -> byte a ino k = Some x.

Lemma got_seg a ino c p n buffer out :
  contents a ino c -> 0 <= p -> 0 <= n -> p + n <= size_of c \/ n = 0 -> n <= size_of buffer -> got a ino p n buffer out ->
  out = overwrite buffer 0 (seg c p n).
Proof.
  intros (_&_&Hc) Hp Hn Hr Hb (Hl&Hg). assert (Hs : size_of (seg c p n) = n) by (destruct Hr as [Hr| ->]; [apply length_seg_in; lia|done]).
  apply list_eq_aget; [apply Nat2Z.inj; rewrite length_overwrite by lia; lia|]. intros k Hk.
  rewrite Hg, aget_overwrite by lia. rewrite Hs, Z.sub_0_r, Z.add_0_l. replace (0 <=? k) with true by lia. cbn [andb].
  destruct (Z.ltb_spec k n); [|done]. rewrite aget_seg by lia. destruct (aget_lt c (p + k)) as [x Hx]; [lia|]. by rewrite Hx, (Hc _ _ Hx).
Qed.

Lemma contents_put a a' ino i c p data :
  contents a ino c -> 0 <= p <= size_of c -> p + size_of data <= MAX_SIZE -> put_bytes ino p data a a' ->
  inode_at a ino = Some i -> stat a' ino = Some (i_mode i, Z.max (i_size i) (p + size_of data)) -> contents a' ino (overwrite c p data).
Proof.
  intros ((i0&E0&Hs)&Hm&Hc) Hp Hl Hpb Ei Hst. rewrite Ei in E0. injection E0 as <-.
  split; [|split].
  - unfold stat in Hst. destruct (inode_at a' ino) as [i'|]; [|done]. injection Hst as _ Hsz. exists i'.
    split; [done|]. rewrite length_overwrite by lia. lia.
  - rewrite length_overwrite by lia. lia.
  - intros k x. intros Hx. pose proof (aget_Some_lt _ _ _ Hx) as Hk. rewrite length_overwrite in Hk by lia.
    rewrite aget_overwrite in Hx by lia. destruct (_ && _) eqn:E.
    + replace k with (p + (k - p)) by lia. by apply (w_data _ _ _ _ _ Hpb).
    + apply (w_rest _ _ _ _ _ Hpb); [lia|lia|]. by apply Hc.
Qed.

(** The contents as a function of the disk. *)
Definition file_bytes a ino : option (list Z) := i ← inode_at a ino; mapM (byte a ino) (seqZ 0 (i_size i)).

Lemma file_bytes_contents a ino c : inv a -> 1 <= ino <= inodes a -> file_bytes a ino = Some c -> (size_of c <=? MAX_SIZE) = true -> contents a ino c.
Proof.
  intros Hi Hr. unfold file_bytes. destruct (inode_at_Some a ino) as (i&Ei&(_&_&Hsz&_)); [apply Hi|done|]. unfold u32_ok in Hsz.
  rewrite Ei. cbn [mbind option_bind]. intros Hm Hl.
  apply mapM_Some in Hm. pose proof (Forall2_length _ _ _ Hm) as Hlen. rewrite length_seqZ in Hlen.
  split; [exists i; split; [done|lia]|]. split; [lia|]. intros k x Hx. pose proof (aget_Some_lt _ _ _ Hx) as Hk.
  unfold aget in Hx. replace (0 <=? k) with true in Hx by lia.
  destruct (Forall2_lookup_r _ _ _ _ _ Hm Hx) as (y&Hy&Hb). apply lookup_seqZ in Hy as [-> _]. by replace k with (0 + Z.of_nat (Z.to_nat k)) by lia.
Qed.

(** ** The kernel as a file service *)

Section Kernel.
Context {X : Type} {dev_ok : ramdisk_device X -> Prop} {image : ramdisk_device X -> list Z}.
Context `{HD : Disk X dev_ok image}.
Context (alloc : nat -> Z -> option (list Z)).
Context (alloc_total : forall k n, 0 <= n -> exists m, alloc k n = Some m /\ Z.of_nat (length m) = n).
Context (sh edit : list Z) (junk : vfs_stat).
Abbreviation files := (files (X := X)).
Context (dev_read : ops_ref -> Z -> list Z -> Z -> ST files (Z * list Z)) (dev_write : ops_ref -> Z -> list Z -> Z -> ST files Z).
Abbreviation disk := (disk (dev_ok := dev_ok) (image := image)).
Implicit Types (k : files) (v : vfs (X := X)).

(** The system calls of stdio.c, by their numbers in sys.c. *)
Definition kernel_sys : Stdio.sys files := Stdio.mk_sys files
  (sys_read alloc sh edit dev_read) (fun d data => sys_write alloc dev_write d data (size_of data))
  (sys_seek alloc sh edit junk) sys_close
  (fun path => sys_open alloc sh edit (Some path)) (fun path => sys_creat alloc sh edit (Some path))
  (fun path => sys_unlink alloc (Some path)).

(** A path the system calls accept. *)
Definition path_fits (path : list Z) : Prop := path_ok path /\ size_of path < 63 /\ last path <> Some 47.

(** On the mounted disk [path] names the regular file [ino] with contents [c]. *)
Definition file_at v (path : list Z) (ino : Z) (c : list Z) : Prop :=
  exists a T, disk v a T /\ names_file a T path ino /\ contents a ino c.

(** Descriptor [d] has the handle [x]. *)
Definition open_on k (d h : Z) (x : vfs_handle) : Prop :=
  0 <= d < FD_TABLE_CAPACITY /\ (exists e, aget (t_entries k) d = Some e /\ e_used e = true /\ e_ops e = Some PROCESS_VFS_FD_OPS /\ e_object e = h) /\
  0 < h /\ aget (t_handles k) (h - 1) = Some x /\ h_used x = true.

(** Descriptor [d] is open on the file [ino], found under [path], at position [p]. *)
Definition kholds path ino k (d : Z) (c : list Z) (p : Z) : Prop :=
  exists h x, open_on k d h x /\ h_kind x = 1 /\ h_offset x = p /\ h_path x = path /\ h_cached_ino x = ino /\ 0 <= p <= MAX_SIZE /\
    path_fits path /\ only_on_disk sh edit (t_fs k) path /\ file_at (t_fs k) path ino c.

(** Every data block of the mounted disk is in use. *)
Definition kfull k : Prop := exists fs bm, g_ext2 (t_fs k) = Some fs /\ block_bitmap fs = Some bm /\
  forall j, first_data_block (superblock fs) <= j < blocks_count (superblock fs) -> bit_set bm j = true.

Lemma kfull_iff k a T : disk (t_fs k) a T -> kfull k <-> full a.
Proof.
  intros (fs&E&Hr&_). unfold kfull, full, first, blocks. rewrite <- (r_super _ _ Hr). split.
  - intros (fs'&bm&E'&Eb&H). rewrite E in E'. injection E' as <-. rewrite (r_bb _ _ Hr) in Eb. by injection Eb as <-.
  - intros H. exists fs, (a_bm a). split; [done|]. split; [apply Hr|done].
Qed.

(** *** The tables *)

Lemma on_fs_wp {A} (m : ST (vfs (X := X)) A) (Q : A -> files -> Prop) k :
  wp m (fun r v' => Q r (set_fs v' k)) (t_fs k) -> wp (on_fs m) Q k.
Proof. intros (r&v'&E&HQ). exists r, (set_fs v' k). unfold on_fs. by rewrite E. Qed.

Lemma handle_wp k h x (Q : vfs_handle -> files -> Prop) : aget (t_handles k) (h - 1) = Some x -> Q x k -> wp (handle_at h) Q k.
Proof. intros E HQ. exists x, k. unfold handle_at. by rewrite E. Qed.

Lemma entry_wp k d e (Q : fd_entry -> files -> Prop) : aget (t_entries k) d = Some e -> Q e k -> wp (entry_at d) Q k.
Proof. intros E HQ. exists e, k. unfold entry_at. by rewrite E. Qed.

Lemma usable_wp k d h x (Q : option (ops_ref * Z) -> files -> Prop) :
  open_on k d h x -> Q (Some (PROCESS_VFS_FD_OPS, h)) k -> wp (usable d) Q k.
Proof.
  intros (Hd&(e&He&Hu&Ho&Hob)&_) HQ. unfold usable. replace (_ || _) with false by lia. apply wp_bind.
  eapply entry_wp; [exact He|]. rewrite Hu, Ho, Hob. by apply wp_ret.
Qed.

(** A new offset in the handle of [d]. *)
Lemma put_offset_wp k d h x off (Q : () -> files -> Prop) :
  open_on k d h x ->
  (forall k', t_fs k' = t_fs k -> open_on k' d h (with_offset off x) -> Q tt k') -> wp (put_handle h (with_offset off x)) Q k.
Proof.
  intros (Hd&He&Hh&Hx&Hu) HQ. pose proof (aset_ok (t_handles k) (h - 1) (with_offset off x) (aget_Some_lt _ _ _ Hx)) as El.
  eapply wp_try; [by rewrite El|]. apply HQ; [done|]. refine (conj Hd (conj He (conj Hh (conj _ Hu)))). by eapply aget_aset_eq.
Qed.

Lemma open_on_fs k d h x v : open_on k d h x -> open_on (set_fs v k) d h x.
Proof. done. Qed.

(** *** Reading *)

Lemma only_same v v' path : same_rest v v' -> only_on_disk sh edit v path -> only_on_disk sh edit v' path.
Proof. intros [E _] [? ?]. split; [done|]. by rewrite E. Qed.

Lemma disk_same v v' a T : g_ext2 v' = g_ext2 v -> disk v a T -> disk v' a T.
Proof. intros E (fs&?&?). exists fs. by rewrite E. Qed.

Lemma kread path ino k d c p buffer n :
  kholds path ino k d c p -> 0 <= n <= size_of buffer -> n < 2 ^ 63 ->
  wp (sys_read alloc sh edit dev_read d buffer n) (fun '(r, b) k' => r = Z.max 0 (Z.min n (size_of c - p)) /\
    b = overwrite buffer 0 (seg c p r) /\ kholds path ino k' d c (p + r) /\ (kfull k -> kfull k')) k.
Proof.
  intros (h&x&Ho&Hk&<-&<-&<-&Hp&Hfit&Hod&a&T&Hdk&Hnf&Hc) Hn Hn63. set (p := h_offset x) in *. unfold sys_read. apply wp_bind.
  eapply usable_wp; [exact Ho|]. cbn beta iota. unfold process_vfs_read. pose proof Ho as (_&_&Hh&Hx&Hu).
  destruct (Z.eqb_spec h 0) as [|_]; [lia|]. apply wp_bind. eapply handle_wp; [exact Hx|]. rewrite Hu, Hk. cbn [negb Z.eqb].
  apply wp_bind, on_fs_wp. eapply wp_mono; [by eapply mounted_wp|]. intros b v [-> ->]. apply wp_bind.
  destruct Hnf as (Hres&Hno&Hlt). pose proof Hdk as (fs&E&Hr&Hok). destruct (resolve_range a T _ _ Hok Hres) as [Hi _].
  destruct (Z.eqb_spec (h_cached_ino x) 0) as [|_]; [lia|]. cbn [negb andb]. apply on_fs_wp.
  pose proof Hc as ((i&Hat&Hsz)&Hmax&Hby). assert (MAX_SIZE < 2 ^ 32) by done. rewrite u32_id by (unfold p; lia).
  set (r := Z.max 0 (Z.min n (size_of c - p))).
  eapply wp_mono.
  - eapply on_disk_wp; [exact E|]. eapply (read_runs alloc alloc_total fs a _ i p n buffer); try done; try lia; [apply Hok|].
    rewrite Hsz. intros j Hj. destruct (aget_lt c (p + j)) as [y Hy]; [lia|]. by rewrite (Hby _ _ Hy).
  - intros [m out] v (fs'&->&Hr'&Hm&Hg). cbn in Hm, Hg. rewrite Hsz in Hm, Hg. fold r in Hm, Hg. subst m. cbn beta iota.
    assert (Hfin : forall k', t_fs k' = set_ext2 (Some fs') (t_fs k) -> open_on k' d h (with_offset (p + r) x) ->
      wp (mret (r, out)) (fun '(r, b) k' => r = Z.max 0 (Z.min n (size_of c - p)) /\ b = overwrite buffer 0 (seg c p r) /\
        kholds (h_path x) (h_cached_ino x) k' d c (p + r) /\ (kfull k -> kfull k')) k').
    { intros k' Ek' Ho'. apply wp_ret. assert (Hd' : disk (t_fs k') a T) by (rewrite Ek'; by exists fs').
      split; [done|]. split; [by eapply got_seg; [exact Hc|lia|lia|lia|lia|]|]. split.
      - exists h, (with_offset (p + r) x). split_and!; try done; try lia; cbn; [|exists a, T; done].
        eapply only_same; [|exact Hod]. by rewrite Ek'.
      - rewrite (kfull_iff k a T Hdk), (kfull_iff k' a T Hd'). done. }
    apply wp_bind. destruct (Z.ltb_spec 0 r).
    + rewrite u64_id by (unfold p in *; lia). eapply put_offset_wp; [by apply open_on_fs|]. intros k' Ek' Ho'. by apply Hfin.
    + apply wp_ret. apply Hfin; [done|]. assert (r = 0) as -> by lia. rewrite Z.add_0_r. unfold p. destruct x. exact Ho.
Qed.

(** *** Writing *)

Lemma kwrite path ino k d c p data :
  kholds path ino k d c p -> p <= size_of c -> p + size_of data <= MAX_SIZE ->
  wp (sys_write alloc dev_write d data (size_of data)) (fun r k' => 0 <= r <= size_of data /\ (r < size_of data -> kfull k') /\
    kholds path ino k' d (overwrite c p (seg data 0 r)) (p + r)) k.
Proof.
  intros (h&x&Ho&Hk&<-&<-&<-&Hp&Hfit&Hod&a&T&Hdk&Hnf&Hc) Hpc Hmax. set (p := h_offset x) in *. unfold sys_write. apply wp_bind.
  eapply usable_wp; [exact Ho|]. cbn beta iota. unfold process_vfs_write. pose proof Ho as (_&_&Hh&Hx&Hu).
  destruct (Z.eqb_spec h 0) as [|_]; [lia|]. apply wp_bind. eapply handle_wp; [exact Hx|]. rewrite Hu, Hk. cbn [negb Z.eqb].
  apply wp_bind, on_fs_wp. fold p. eapply wp_mono; [eapply write_wp; [exact alloc_total|exact Hdk|apply Hfit|exact Hnf|lia|exact Hmax]|].
  intros w v (a'&i&Hd'&Hs'&Hat&Hpb&Hw&Hfull&Hst&_).
  assert (Hc' : contents a' (h_cached_ino x) (overwrite c p (seg data 0 w))).
  { assert (Hl : size_of (seg data 0 w) = w) by (apply length_seg_in; lia).
    eapply contents_put; [exact Hc|lia|lia|exact Hpb|exact Hat|].  rewrite Hst. do 2 f_equal. change (take (Z.to_nat w) data) with (seg data 0 w). by rewrite Hl. }
  assert (Hfin : forall k', t_fs k' = v -> open_on k' d h (with_offset (p + w) x) ->
    wp (mret w) (fun r k' => 0 <= r <= size_of data /\ (r < size_of data -> kfull k') /\ kholds (h_path x) (h_cached_ino x) k' d (overwrite c p (seg data 0 r)) (p + r)) k').
  { intros k' Ek' Ho'. apply wp_ret. rewrite <- Ek' in Hd', Hs'. split; [done|]. split; [intros; apply (kfull_iff k' a' T Hd'); by apply Hfull|].
    exists h, (with_offset (p + w) x). split_and!; try done; try lia; cbn; [by eapply only_same|].
    exists a', T. split; [done|]. split; [|done]. destruct Hnf as (?&?&?). split_and!; try done.
    pose proof (w_geo _ _ _ _ _ Hpb) as (_&_&->). done. }
  apply wp_bind. destruct (Z.ltb_spec 0 w).
  - assert (MAX_SIZE < 2 ^ 32) by done. rewrite u64_id by lia. eapply put_offset_wp; [by apply open_on_fs|]. intros k' Ek' Ho'. by apply Hfin.
  - apply wp_ret. apply Hfin; [done|]. assert (w = 0) as -> by lia. rewrite Z.add_0_r. unfold p. destruct x. exact Ho.
Qed.

(** *** Seeking *)

Lemma drop_slash_id path : last path <> Some 47 -> drop_slash path = path.
Proof. intros H. unfold drop_slash. rewrite bool_decide_eq_false_2 by done. by rewrite andb_false_r. Qed.

Lemma stat_path_wp v a T path ino i st0 :
  disk v a T -> path_fits path -> only_on_disk sh edit v path -> names_file a T path ino -> inode_at a ino = Some i ->
  wp (vfs_stat_path alloc sh edit (Some path) st0) (fun r v' => r.1 = 1 /\ st_size r.2 = i_size i /\ disk v' a T /\ same_rest v v') v.
Proof.
  intros Hd (Hp&H64&Hl) [Hemb _] (Hres&Hno&Hlt) Hat. unfold vfs_stat_path. replace (64 <=? size_of path) with false by lia.
  rewrite drop_slash_id, Hemb by done. cbn beta iota zeta. apply wp_bind. unfold ext2_vfs_stat.
  wuse mounted_wp as (->&->); [exact Hd|]. cbn [negb]. wuse lookup_wp giving r as (->&Hd1&Hs1); [exact alloc_total|exact Hd|done|].
  rewrite Hres. cbn [from_option id]. destruct Hd1 as (fs&E&Hr&Hok). destruct (resolve_range a T path ino Hok Hres) as [Hi _].
  destruct (Z.eqb_spec ino 0) as [|_]; [lia|]. apply wp_bind. eapply wp_mono; [eapply on_disk_wp; [exact E|by eapply stat_runs]|].
  intros o v2 (fs2&->&->&->). cbn beta. replace (inodes a <=? ino) with false by lia. rewrite Hat. apply wp_ret. cbn beta iota. cbn [negb Z.eqb]. apply wp_ret.
  split; [done|]. split; [done|]. split; [by exists fs|exact Hs1].
Qed.

Lemma kseek path ino k d c p offset whence target :
  kholds path ino k d c p -> 0 <= target <= MAX_SIZE -> target = Z.max 0 (Stdio.seek_from whence p (size_of c) + offset) -> Stdio.seek_args offset whence ->
  wp (sys_seek alloc sh edit junk d offset whence) (fun r k' => r = target /\ kholds path ino k' d c target /\ (kfull k -> kfull k')) k.
Proof.
  intros (h&x&Ho&Hk&<-&<-&<-&Hp&Hfit&Hod&a&T&Hdk&Hnf&Hc) Ht Et (Hw&Hoff). set (p := h_offset x) in *. unfold sys_seek.
  pose proof Ho as (Hd&(e&He&Hue&Hop&Hob)&Hh&Hx&Hu). replace (_ || _) with false by lia. apply wp_bind. eapply entry_wp; [exact He|].
  rewrite Hue, Hop, Hob, bool_decide_eq_true_2 by done. cbn [negb orb]. destruct (Z.eqb_spec h 0) as [|_]; [lia|].
  apply wp_bind. eapply handle_wp; [exact Hx|]. rewrite Hu, Hk. cbn [negb Z.eqb Pos.eqb].
  destruct ((whence <? 0) || (2 <? whence)) eqn:Ew; [lia|]. apply wp_bind.
  set (Q := fun size k1 => (whence = 2 -> size = size_of c) /\ open_on k1 d h x /\ disk (t_fs k1) a T /\ same_rest (t_fs k) (t_fs k1)).
  apply (wp_mono _ Q); unfold Q.
  - destruct (Z.eqb_spec whence 2) as [->|]; [|by apply wp_ret]. apply wp_bind. unfold process_stat_path. apply wp_bind, on_fs_wp.
    pose proof Hc as ((i&Hat&Hsz)&_). eapply wp_mono; [eapply stat_path_wp; [exact Hdk|exact Hfit|exact Hod|exact Hnf|exact Hat]|].
    intros [r st] v (Er&Est&Hd'&Hs'). cbn in Er, Est. subst r. cbn [Z.eqb]. do 2 wstep. split; [by rewrite Est|]. done.
  - intros size k1 (Hsz&Ho1&Hd1&Hs1). apply wp_bind. eapply (wp_must _ (Stdio.seek_from whence p (size_of c) + offset)).
    { unfold Stdio.seek_from, Stdio.SEEK_SET, Stdio.SEEK_CUR in *. fold p. unfold i64. assert (MAX_SIZE < 2 ^ 32) by done.
      destruct (Z.eqb_spec whence 0); [by rewrite Z.add_0_l|]. destruct (Z.eqb_spec whence 1) as [->|]; [|rewrite Hsz by lia].
      all: pose proof Hc as (_&Hcm&_); rewrite signed64_id by lia; destruct (_ && _) eqn:E; [done|lia]. }
    cbn zeta. set (new := _ + offset) in *. assert (En : (if new <? 0 then 0 else new) = target) by (rewrite Et; destruct (Z.ltb_spec new 0); lia).
    rewrite En.
    apply wp_bind. eapply put_offset_wp; [exact Ho1|]. intros k2 Ek2 Ho2. apply wp_ret. split; [done|].
    rewrite <- Ek2 in Hd1, Hs1. split.
    + exists h, (with_offset target x). split_and!; try done; try lia; cbn; [by eapply only_same|]. by exists a, T.
    + rewrite (kfull_iff k a T Hdk), (kfull_iff k2 a T Hd1). done.
Qed.

(** The kernel keeps the promises the streams rely on, for every file. *)
Definition kernel_service (path : list Z) (ino : Z) : Stdio.FileService files kernel_sys.
Proof.
  refine (Stdio.Build_FileService _ _ (kholds path ino) kfull MAX_SIZE _ _ _ _ _); [done|..].
  - intros k d c p (h&x&(Hd&_)&_&_&_&_&Hp&_&_&a&T&_&_&_&Hm&_). split; [lia|]. done.
  - intros k d c p buffer n Hh Hn Hn63. eapply wp_mono; [by apply kread|]. intros [r b] k' (->&Hb&Hk'&Hf).
    split; [lia|]. split; [lia|]. split; [lia|]. done.
  - intros k d c p data Hh Hp Hd Hl. eapply wp_mono; [by apply kwrite|]. intros r k' (Hr&Hf&Hk').
    split; [lia|]. split; [done|]. by rewrite !Z.max_r by lia.
  - intros k d c p offset whence target Hh Ht Et Hw. by apply (kseek path ino k d c p).
Defined.

(** ** Opening *)

(** A handle and a descriptor are free. *)
Definition room k : Prop :=
  length (t_entries k) = 16%nat /\ (exists j e, (3 <= j)%nat /\ t_entries k !! j = Some e /\ e_used e = false) /\
  exists i x, own_handles (t_base k) (t_handles k) !! i = Some x /\ h_used x = false.

Lemma find_unused {A} (busy : A -> bool) l i x : l !! i = Some x -> busy x = false ->
  exists j y, list_find (fun e => negb (busy e)) l = Some (j, y) /\ l !! j = Some y.
Proof.
  intros Hx Hb. destruct (list_find (fun e => negb (busy e)) l) as [[j y]|] eqn:E.
  - exists j, y. split; [done|]. by apply list_find_Some in E as (?&_).
  - apply list_find_None in E. rewrite Forall_lookup in E. specialize (E _ _ Hx). by rewrite Hb in E.
Qed.

Lemma open_handle_wp fill k :
  room k -> (forall x, h_used (fill x) = h_used x) ->
  wp (open_handle fill) (fun d k' => 3 <= d < 16 /\ t_fs k' = t_fs k /\ exists h x, h_offset x = 0 /\ h_used x = true /\ open_on k' d h (fill x)) k.
Proof.
  intros (Hl&(j0&e0&Hj0&He0&Hue0)&i0&x0&Hx0&Hux0) Hf. unfold open_handle. destruct (find_unused h_used _ _ _ Hx0 Hux0) as (ji&x&Hfi&Hxj).
  pose proof Hxj as [Hx _]%lookup_take_Some. rewrite lookup_drop in Hx.
  apply wp_bind. eexists _, _. split; [unfold process_alloc_vfs_handle; by rewrite Hfi|]. cbv zeta. cbn beta iota. set (i := (t_base k + ji)%nat) in *.
  destruct (Z.eqb_spec (Z.of_nat i + 1) 0) as [|_]; [lia|]. set (x1 := VfsHandle 0 0 true _ _ _).
  pose proof (lookup_lt_Some _ _ _ Hx) as Hi. set (k1 := set_handles _ k).
  assert (E1 : aget (t_handles k1) (Z.of_nat i + 1 - 1) = Some x1).
  { replace (Z.of_nat i + 1 - 1) with (Z.of_nat i) by lia. rewrite aget_nat. by apply list_lookup_insert_eq. }
  apply wp_bind. eapply handle_wp; [exact E1|]. cbn beta. apply wp_bind.
  pose proof (aset_ok (t_handles k1) _ (fill x1) (aget_Some_lt _ _ _ E1)) as El. eapply wp_try; [by rewrite El|]. cbn beta.
  set (k2 := set_handles _ k1). assert (E2 : aget (t_handles k2) (Z.of_nat i + 1 - 1) = Some (fill x1)) by (by eapply aget_aset_eq).
  destruct (find_unused e_used (drop 3 (t_entries k)) (j0 - 3) e0) as (j&e&Hfj&Hej); [rewrite lookup_drop; by replace (3 + (j0 - 3))%nat with j0 by lia|done|].
  rewrite lookup_drop in Hej. pose proof (lookup_lt_Some _ _ _ Hej) as Hj.
  set (d := 3 + Z.of_nat j). set (e1 := FdEntry (Some PROCESS_VFS_FD_OPS) (Z.of_nat i + 1) true).
  pose proof (aset_ok (t_entries k) d e1 ltac:(lia)) as Ed.
  apply wp_bind. eexists d, (set_entries _ k2). split; [unfold fd_alloc; change (t_entries k2) with (t_entries k); change (Z.to_nat 3) with 3%nat; rewrite Hfj; fold d e1; by rewrite Ed|].
  cbn beta. destruct (Z.ltb_spec d 0) as [|_]; [lia|]. apply wp_ret. split; [lia|]. split; [done|].
  exists (Z.of_nat i + 1), x1. split; [done|]. split; [done|]. split; [unfold FD_TABLE_CAPACITY; lia|]. split.
  - exists e1. split; [|done]. cbn [t_entries set_entries]. by eapply aget_aset_eq.
  - split; [lia|]. split; [exact E2|]. by rewrite Hf.
Qed.

Lemma copy_path path : path_fits path -> process_copy_user_string 64 (Some path) = Some path.
Proof. intros (_&H&_). unfold process_copy_user_string. cbn [mbind option_bind]. replace (_ <? _) with true by lia. done. Qed.

Lemma resolve_absolute path cwd : path_fits path -> process_resolve_path cwd path 256 = Some path.
Proof.
  intros ((Hsl&_)&H64&_). unfold process_resolve_path. destruct path as [|x path]; [done|]. cbn in Hsl. apply Z.eqb_eq in Hsl. subst x.
  replace (_ <? _) with true by lia. done.
Qed.

Lemma open_wp path ino c k :
  room k -> path_fits path -> only_on_disk sh edit (t_fs k) path -> file_at (t_fs k) path ino c ->
  wp (process_open_vfs_from_parent alloc sh edit path) (fun d k' => 3 <= d < 16 /\ kholds path ino k' d c 0) k.
Proof.
  intros Hroom Hfit Hod (a&T&Hd&Hnf&Hc). pose proof Hfit as ((Hsl&_)&H64&_). unfold process_open_vfs_from_parent. wstep. wstep.
  rewrite resolve_absolute by done. pose proof Hod as [Hemb _]. unfold vfs_lookup in Hemb. cbn [mbind option_bind] in Hemb.
  destruct (list_find _ (g_vfs_files sh edit)) as [y|] eqn:Ef; [done|]. apply wp_bind, on_fs_wp. unfold vfs_open_ino.
  destruct Hod as [Hemb' Huf]. rewrite Hemb'. wuse mounted_wp as (->&->); [exact Hd|].
  wuse lookup_wp giving r as (->&Hd1&Hs1); [exact alloc_total|exact Hd|apply Hfit|]. destruct Hnf as (Hr&Hno&Hlt). rewrite Hr. cbn [from_option id].
  pose proof Hd1 as (fs&E&Hrep&Hok). destruct (resolve_range a T path ino Hok Hr) as [Hi _]. destruct (Z.eqb_spec ino 0) as [|_]; [lia|].
  cbn [negb]. apply wp_ret. cbn beta iota. cbn [Z.eqb negb].
  eapply wp_mono; [apply open_handle_wp; [done|done]|]. intros d k' (Hdr&Ek'&h&x&Hx0&Hxu&Ho). split; [done|].
  cbn [t_fs set_fs] in Ek'. rewrite <- Ek' in Hd1, Hs1.
  eexists h, _. split; [exact Ho|]. cbn. split; [done|]. split; [done|]. split; [apply take_ge; lia|]. split; [done|]. split; [unfold MAX_SIZE, MAX_BLOCKS; lia|].
  split; [done|]. split; [by eapply only_same|]. by exists a, T.
Qed.


Lemma sys_open_wp path ino c k :
  room k -> path_fits path -> only_on_disk sh edit (t_fs k) path -> file_at (t_fs k) path ino c ->
  wp (sys_open alloc sh edit (Some path)) (fun d k' => 3 <= d < 16 /\ kholds path ino k' d c 0) k.
Proof. intros Hroom Hfit Hod Hf. unfold sys_open. rewrite copy_path by done. by apply open_wp. Qed.


(** ** Closing *)


(** ** From [fopen] to [fclose] *)

Abbreviation world := (Stdio.world (K := files)).
Abbreviation sees path ino := (Stdio.sees kernel_sys (FS := kernel_service path ino)).

(** [fopen] in this mode gives a stream that shows [v]. *)
Definition opens path ino (mode buffer : list Z) (v : Stdio.view) (w : world) : Prop :=
  wp (Stdio.fopen kernel_sys path mode true (Some buffer)) (fun o w' => exists f, o = Some f /\
    let s := Stdio.mk_stream f w' in 2 < Stdio.fd f /\ sees path ino s v /\ Stdio.err_bit s = false) w.

Lemma wrapper_wp {A} (m : ST files A) (Q : A -> world -> Prop) w :
  wp m (fun r k' => Q r (Stdio.mk_world (Stdio.errno w) k')) (Stdio.kernel w) -> wp (Stdio.syscall m) Q w.
Proof. apply Stdio.wp_kernel. Qed.

Lemma ck_wp r (Q : Z -> world -> Prop) w : 0 <= r -> Q r w -> wp (Stdio.ck r) Q w.
Proof. intros Hr HQ. exists r, w. unfold Stdio.ck. by destruct (Z.ltb_spec r 0); [lia|]. Qed.

Lemma ck_int_wp r (Q : Z -> world -> Prop) w : 0 <= r < 16 -> Q r w -> wp (Stdio.ck_int r) Q w.
Proof.
  intros Hr HQ. unfold Stdio.ck_int. apply wp_bind, ck_wp; [lia|]. apply wp_ret. unfold Stdio.int_of. rewrite u32_id by lia.
  by destruct (Z.ltb_spec r (2 ^ 31)); [|lia].
Qed.

(** The stream around a descriptor that has just been opened. *)
Lemma new_stream path ino w d c p fl buffer :
  kholds path ino (Stdio.kernel w) d c p -> 3 <= d -> size_of buffer = Stdio.BUFSIZ ->
  Stdio.has Stdio._F_EOF (Stdio.new_file d fl (Some buffer)) = false -> Stdio.has Stdio._F_ERR (Stdio.new_file d fl (Some buffer)) = false ->
  let s := Stdio.mk_stream (Stdio.new_file d fl (Some buffer)) w in
  2 < d /\ sees path ino s (Stdio.mk_view c p false (Stdio.has Stdio._F_READ (Stdio.file s)) (Stdio.has Stdio._F_WRITE (Stdio.file s))) /\
  Stdio.err_bit s = false.
Proof.
  intros Hk Hd Hb He Hr s. split; [lia|]. split; [|done]. rewrite <- He.
  by apply (Stdio.new_file_sees kernel_sys (FS := kernel_service path ino) w d c p fl (Some buffer)).
Qed.

Lemma fopen_read_wp path ino c k err buffer :
  room k -> path_fits path -> only_on_disk sh edit (t_fs k) path -> file_at (t_fs k) path ino c -> size_of buffer = Stdio.BUFSIZ ->
  opens path ino [114] buffer (Stdio.mk_view c 0 false true false) (Stdio.mk_world err k).
Proof.
  intros Hroom Hfit Hod Hf Hb. unfold opens, Stdio.fopen. cbn [Stdio.mode_flags existsb Z.eqb Pos.eqb]. apply wp_bind.
  change (negb (Z.land Stdio._F_READ Stdio._F_WRITE =? 0)) with false. cbn iota. unfold Stdio.vos_open_path. apply wp_bind, wrapper_wp.
  eapply wp_mono; [by eapply sys_open_wp|]. intros d k' (Hd&Hk'). apply ck_int_wp; [lia|]. cbn beta. destruct (Z.ltb_spec d 0) as [|_]; [lia|].
  apply wp_bind, wp_ret, wp_ret. eexists. split; [done|]. apply (new_stream path ino (Stdio.mk_world err k') d c 0 Stdio._F_READ buffer); try done; lia.
Qed.



End Kernel.

(** ** A stream on a formatted disk *)

Definition demo_process : files (X := unit) :=
  mk_files (replicate 16 (FdEntry None 0 false)) (replicate 8 (VfsHandle 0 0 false 0 [] 0)) 0 [47] demo_vfs.

Definition no_stat : vfs_stat := mk_stat 0 0 0 0 0.
Definition no_read : ops_ref -> Z -> list Z -> Z -> ST (files (X := unit)) (Z * list Z) := fun _ _ b _ => mret (0, b).
Definition no_write : ops_ref -> Z -> list Z -> Z -> ST (files (X := unit)) Z := fun _ _ _ _ => mret 0.

Lemma demo_contents : exists c, contents demo_a 15 c.
Proof.
  destruct demo_disk as (_&_&_&Hok&_).
  assert (H : match file_bytes demo_a 15 with Some c => size_of c <=? MAX_SIZE | None => false end = true) by (vm_compute; reflexivity).
  destruct (file_bytes demo_a 15) as [c|] eqn:E; [|discriminate H]. exists c.
  apply (file_bytes_contents demo_a 15 c (t_inv _ _ Hok)); [rewrite demo_inodes; lia|exact E|exact H].
Qed.

Lemma demo_fits : path_fits passwd.
Proof. split; [apply demo_path; reflexivity|]. split; [reflexivity|discriminate]. Qed.

Lemma demo_only : only_on_disk [] [] (t_fs demo_process) passwd.
Proof. split; reflexivity. Qed.

Lemma demo_room : room demo_process.
Proof.
  split; [reflexivity|]. split.
  - exists 3%nat, (FdEntry None 0 false). split; [lia|]. split; reflexivity.
  - exists 0%nat, (VfsHandle 0 0 false 0 [] 0). split; reflexivity.
Qed.


Lemma stream_refines_file_witness : exists s r s',
  Stdio.perform (kernel_sys junk [] [] no_stat no_read no_write) (Stdio.Read [0; 0; 0; 0] 1 4) s = Some (r, s').
Proof.
  destruct demo_contents as [c Hc].
  destruct (fopen_read_wp junk junk_total [] [] no_stat no_read no_write passwd 15 c demo_process 0 (replicate 4096 0)) as (o&w&_&f&_&_&Hs&He);
    [exact demo_room|exact demo_fits|exact demo_only|exists demo_a, demo_tree; split; [exact demo_vfs_disk|split; [exact demo_passwd|exact Hc]]|reflexivity|].
  destruct (Stdio.stream_refines_file _ (Stdio.mk_stream f w) (Stdio.mk_view c 0 false true false) (Stdio.Read [0; 0; 0; 0] 1 4) Hs He) as (r&s'&E&_).
  - cbn. lia.
  - exists (Stdio.mk_stream f w), r, s'. exact E.
Defined.
End StdioKernel.
